(* ===== verification/_CoqProject ===== *)
-Q . S2P
Prelude.v
Layout.v
Memory.v
Locks.v
Kalloc.v
Vm.v
VmSpec.v
VmUser.v
VmAlloc.v
VmTheorems.v
Spinlock.v
Sleeplock.v
Pipe.v
Bio.v
Blocks.v
BioLayer.v
BlockMem.v
Log.v
LogSpec.v
LogCrash.v
LogTheorems.v
Fs.v
FsSpec.v
FsAlloc.v
FsNames.v
FsInode.v
FsData.v
FsDir.v
ProcData.v
Mmap.v
Proc.v
ProcSched.v
ProcLife.v
ProcSteps.v
ProcTheorems.v
MmapTheorems.v
File.v
FileTheorems.v
Ide.v
IdeTheorems.v
SwapDisk.v
Swap.v
SwapSpace.v
SwapTheorems.v
Syscall.v
Trap.v
TrapTheorems.v
Exec.v
ExecImage.v
SysFile.v
SysFileTheorems.v
Digits.v
Ulib.v
Filters.v
Console.v
ConsoleScreen.v
ConsoleInput.v
Kbd.v
Sh.v
ShTheorems.v
ShRun.v
ShSession.v
Umalloc.v
UmallocTheorems.v
UmallocAlloc.v
Mkfs.v
MkfsTheorems.v
MkfsImage.v
MkfsMain.v
RrProc.v
RrTrap.v
RrTheorems.v
RrFair.v
Mp.v
Boot.v
