(* ===== verification/Prelude.v ===== *)
(** * A verification library for the xv6 kernels of this repository (root file)

    The repository holds two variants of xv6 for 32-bit x86:
    [src/Implement Virtual Memory and CPU Scheduling/] (weighted scheduling by
    virtual runtime, memory mappings; called the first kernel below) and
    [src/page-replacement/] (page replacement with a clock list and swap space;
    the second kernel).  Files with the same name are the same in both unless
    said otherwise; file names below are of the first kernel.

    ** How the code is modelled

    A C function is a Rocq function in the monad [M S] of this file: from a state
    it returns ([Done]), calls [panic] ([Panic]), puts its process to sleep inside
    a wait it repeats when woken ([Sleep]), does what C leaves undefined - a null
    pointer, a division by zero, an index out of range - ([Undef]), or exhausts
    the bound given to a loop ([Spin]).  Integers are [Z] with the wrap-around of
    each operation written out ([u32], [i32], ...); memory is a map of bytes, and
    page tables, the list of free pages, trap frames and strings live in it.
    Pointers into the kernel's tables are indexes, with [NULL] for the null
    pointer.  [wp] is total (the code returns), [wlp] partial.  Interrupts come
    between the steps of the transition systems, not inside a function.

    ** The parts, from the bottom up

    - [Layout] (param.h, mmu.h, memlayout.h, fs.h): constants and address
      arithmetic.  [Memory] (string.c, x86.h): byte memory, memset to safestrcpy.
    - [Locks]: the locks a CPU holds, the view every other part is written
      against; [Spinlock] (spinlock.c) implements it, as functions and as a
      relation in which any number of CPUs interleave.  [Sleeplock]
      (sleeplock.c): sleep locks, run by any number of processes in turns.
    - [Kalloc] (kalloc.c), [Vm] (vm.c): pages and page tables; [VmSpec],
      [VmUser], [VmAlloc], [VmTheorems] their theorems.
    - [Blocks]: disk blocks and the class [BlockLayer], the interface of the
      buffer cache.  [Bio] (bio.c, memide.c) is the cache, [BioLayer] its
      instance of the class, [BlockMem] the simplest instance, on which the
      examples of the clients run.
    - [Log] (log.c) over any block layer; [LogSpec], [LogCrash], [LogTheorems].
    - [Fs] (fs.c) over the log: blocks, inodes, contents, directories, paths;
      [FsSpec] (reasoning rules), [FsAlloc], [FsNames], [FsInode], [FsData],
      [FsDir] its theorems, part by part.
    - [Pipe] (pipe.c), with a transition system of calls that read, write, sleep and
      go on where they slept; [File] (file.c): open files over the file system and the
      pipes, the instance of [FileLayer], the class the processes use.
    - [ProcData] (proc.h): processes, areas, the state of the kernel, the class
      [FileLayer]; [Mmap] (vm.c): memory mappings and their page faults; [Proc]
      (proc.c): the process table, the scheduler, fork, exit, wait, kill, the
      listings.  [ProcSched], [ProcLife], [ProcSteps] (the kernel as a transition
      system), [ProcTheorems], [MmapTheorems]: the theorems.
    - [Syscall] (syscall.c, sysproc.c), [Exec] (exec.c), [SysFile] (sysfile.c),
      [Trap] (trap.c): system calls and traps, which compose all of the above;
      [ExecImage] (the image a successful exec builds, without its loops),
      [TrapTheorems], [SysFileTheorems].
    - [SwapDisk]: the second kernel has two drives, disk 0 with the swap space and disk 1
      with the file system.  [Disks] is the interface of a block layer over both;
      its file system sees disk 1 alone.  The second kernel's buffer cache, with the choice of
      the drive that its ide.c makes, is an instance, simulated by [Bio]; a
      request takes effect at once, as [IdeTheorems] shows of the driver ([Ide] has the
      first kernel's FSSIZE, the second's is larger).
    - [Swap], [SwapSpace], [SwapTheorems]: page replacement of the second kernel
      (its kalloc.c, vm.c, swapread and swapwrite of fs.c, the fault handler of
      trap.c) over [Kalloc] and any layer of two disks.  [RrProc] (its proc.c) and [RrTrap]
      (its syscall.c, sysproc.c, the swap calls of sysfile.c, trap.c): its
      processes with the round-robin scheduler, over [Swap] and any file layer;
      [RrTheorems], [RrFair] their theorems.
    - [Ide], [IdeTheorems] (ide.c): the disk driver over the commands of the
      controller.  [Console] (console.c, uart.c), [ConsoleScreen] (output),
      [ConsoleInput] (the line editor), [Kbd] (kbd.c, kbd.h).
    - Start-up: [Boot] (bootmain.c), the boot loader; [Mp] (mp.c), the tables
      that describe the processors.
    - User programs: [Digits] (numbers as text, shared with the console), [Ulib]
      (ulib.c, printf.c), [Umalloc] (umalloc.c; [UmallocTheorems], [UmallocAlloc]),
      [Filters] (grep.c, wc.c, cat.c), [Sh] (the parser of sh.c; [ShTheorems]),
      [ShRun] (its runcmd and main), [ShSession] (the whole shell).
    - [Mkfs] (mkfs.c, on the host): the image builder; [MkfsTheorems],
      [MkfsImage], [MkfsMain] relate the image to the layout and the read
      functions of [Fs].

    A function that gives up the CPU is split there: [sleep_enter]/[sleep_leave],
    [yield_enter]/[yield_leave], [wait]/[wait_resume], [sys_sleep] and
    [sys_sleep_resume], [trap]/[trap_resume]; a run of a pipe, log or sleep-lock
    wait that goes to sleep starts again from its test.

    ** What the theorems show

    - Memory: [allocuvm] is all or nothing, [deallocuvm] frees exactly the range,
      [mappages] installs the entries it is asked for.
    - Locks: mutual exclusion and interrupt nesting on any number of CPUs, the
      refinement of [Locks], sleep locks without lost wake-ups.
    - Storage: the cache is transparent; a transaction of the log survives a crash
      at any block write as a whole or not at all; blocks, inodes, file contents
      and directories behave as sets, byte functions and lists of entries, and
      what is written or linked is read or found.
    - Processes: the invariant of the process table over every sequence of steps,
      and across every trap with every system call; what scheduling, wake-up,
      exit and a clock tick do; a pipe hands its readers the bytes its writers passed, in
      order; it loses no wake-up while no killed process writes to it.
    - User input: which pointers and strings system calls accept; calls that hand
      out descriptors and [exec] do everything or nothing, and the image exec enters
      has every segment loaded.
    - Page replacement: a page swapped out to disk 0 comes back the same, and the
      file system's disk is not touched.
    - Scheduling of the second kernel: round robin is fair, whatever the processes do.
    - Devices: the disk driver is an atomic disk that serves requests in order; the
      screen is that of an abstract terminal; typed lines are edited, committed
      and read back; the keyboard tables.
    - User programs: the shell's parser accepts its grammar and nothing else, and a
      session does for each line what the grammar says, with pipelines wired, no
      descriptor left open and a wait before the next line; the allocator gives out
      disjoint blocks and reuses
      what is freed; the matcher of grep; numbers printed and read back, and the console's [cprintf]
      against the numerals of its numbers.
    - Start-up: the boot loader puts every segment in place; [mpinit] records
      exactly the processors of a table it knows all entries of.
    - mkfs: the image is a file system in which the kernel finds the files.
    - Errors: what the code does where it does not do what it means to: the
      fork of a process with a mapping, refused page faults, the first page
      replacement, the list of pages with one element.

    Parts are proved against interfaces - [BlockLayer], [FileLayer], [HasLocks] -
    so that the log, the file system and the processes do not depend on what is
    below them; hypotheses of a theorem are the invariant of the part, and each
    theorem with hypotheses is instantiated at a concrete state.

    ** Bounds

    A loop with a bound in the code is a recursion over its range.  The others
    take fuel computed from their arguments, more than the iterations they can
    make: pages of a range ([allocuvm] and the like), blocks of a transfer
    ([readi], [writei]), entries of a directory, components of a path, bytes of a
    string or a pipe transfer.  The parser of the shell has four turns for each
    byte of the line and eight more, its loop a turn for each byte of input; the
    search of the user allocator two turns for each header that fits below the
    limit of the heap; the queue of the disk driver a turn for each buffer.  The theorems about
    them say that they return, so the fuel suffices.  Only a spin lock another CPU
    holds can exhaust its fuel.

    ** Not modelled

    The rest of the start-up code, the interrupt controllers and assembly (their
    addresses are parameters); of the user programs those that only make a few system calls, and
    the tests; of the second kernel the file system, which is the first kernel's but for
    swapread and swapwrite, and the files that are copies of the first
    kernel's.  Messages of programs are left out where no theorem is about
    them.  Within the parts: the page of a pipe that closes leaves the map of
    pipes but does not go back to [Kalloc]; the file layer does not see
    the process table: the wake-ups its operations make - of pipes, of the log's
    end_op, of sleep locks - are recorded in its own state or left out, and do not
    make a process of the table RUNNABLE, so theorems that call the table
    unchanged after an operation on files are about what the operation does to it
    apart from [wakeup]; a file operation that sleeps ends the run ([Sleep]), which
    [wlp] leaves open; the [pcs] array of spin locks and [procdump]
    are debugging aids; [cprintf] of the kernel parts is an event, and its text is
    in [ConsoleScreen].  A page fault of the kernel itself on a user address is
    [Undef]. *)
From Stdlib Require Export ZArith Lia.
From stdpp Require Export base tactics option numbers strings gmap list.
#[global] Open Scope Z_scope.
#[global] Open Scope list_scope.

(** ** Machine integers

    An [int] or [uint] of the 32-bit target is a [Z]; the wrap-around of each
    operation is written out where the source performs it. *)
Definition u32 (x : Z) : Z := x `mod` 4294967296.
Definition i32 (x : Z) : Z := (x + 2147483648) `mod` 4294967296 - 2147483648.
Definition u16 (x : Z) : Z := x `mod` 65536.
Definition i16 (x : Z) : Z := (x + 32768) `mod` 65536 - 32768.
Definition u8 (x : Z) : Z := x `mod` 256.
Definition i8 (x : Z) : Z := (x + 128) `mod` 256 - 128.

(** Boolean tests written the way the C source writes its conditions. *)
Declare Scope xv6_scope.
Delimit Scope xv6_scope with xv6.
Notation "x &&& y" := (Z.land x y) (at level 40, left associativity) : xv6_scope.
Notation "x ||| y" := (Z.lor x y) (at level 50, left associativity) : xv6_scope.
Notation "x !=? y" := (negb (Z.eqb x y)) (at level 70, no associativity) : xv6_scope.
#[global] Open Scope xv6_scope.

(** C truth values: an [int] used as a condition. *)
Definition truth (x : Z) : bool := x !=? 0.
Definition b2z (b : bool) : Z := if b then 1 else 0.

(** [zlia]: linear arithmetic with division and modulo by constants. *)
Ltac zlia :=
  unfold u32, i32, u16, i16, u8, i8 in *;
  Z.to_euclidean_division_equations; lia.

(** Case analysis on the first decision of the conclusion. *)
Tactic Notation "split_decide" "as" simple_intropattern(p) :=
  match goal with |- context [decide ?P] => destruct (decide P) as p end.
Ltac split_decide :=
  match goal with |- context [decide ?P] => destruct (decide P) end.

Lemma u32_range x : 0 <= u32 x < 4294967296.
Proof. apply Z.mod_pos_bound; lia. Qed.

Lemma u32_small x : 0 <= x < 4294967296 -> u32 x = x.
Proof. apply Z.mod_small. Qed.

Lemma u32_idemp x : u32 (u32 x) = u32 x.
Proof. apply u32_small, u32_range. Qed.

Lemma u32_add_l x y : u32 (u32 x + y) = u32 (x + y).
Proof. unfold u32. by rewrite Zplus_mod_idemp_l. Qed.

Lemma u32_add_r x y : u32 (x + u32 y) = u32 (x + y).
Proof. unfold u32. by rewrite Zplus_mod_idemp_r. Qed.

Lemma u32_sub_l x y : u32 (u32 x - y) = u32 (x - y).
Proof. unfold u32. by rewrite Zminus_mod_idemp_l. Qed.

Lemma u32_sub_r x y : u32 (x - u32 y) = u32 (x - y).
Proof. unfold u32. by rewrite Zminus_mod_idemp_r. Qed.

Lemma u8_range x : 0 <= u8 x < 256.
Proof. apply Z.mod_pos_bound; lia. Qed.

Lemma u8_small x : 0 <= x < 256 -> u8 x = x.
Proof. apply Z.mod_small. Qed.

Lemma i32_range x : -2147483648 <= i32 x < 2147483648.
Proof. unfold i32. pose proof (Z.mod_pos_bound (x + 2147483648) 4294967296). lia. Qed.

Lemma i32_small x : -2147483648 <= x < 2147483648 -> i32 x = x.
Proof. intros. unfold i32. rewrite Z.mod_small; lia. Qed.

(** [u32] and [i32] are two readings of the same 32 bits. *)
Lemma u32_i32 x : u32 (i32 x) = u32 x.
Proof. unfold u32, i32. rewrite Zminus_mod_idemp_l. f_equal. lia. Qed.

Lemma i32_u32 x : i32 (u32 x) = i32 x.
Proof. unfold u32, i32. by rewrite Zplus_mod_idemp_l. Qed.

Lemma i32_idemp x : i32 (i32 x) = i32 x.
Proof. apply i32_small, i32_range. Qed.

Lemma i32_add_l x y : i32 (i32 x + y) = i32 (x + y).
Proof. rewrite <- (i32_u32 (i32 x + y)), <- u32_add_l, u32_i32, u32_add_l. apply i32_u32. Qed.

Create HintDb mint discriminated.
Create Rewrite HintDb mint.
#[export] Hint Rewrite u32_idemp u32_add_l u32_add_r u32_sub_l u32_sub_r u32_i32 i32_u32 i32_idemp i32_add_l : mint.
#[export] Hint Resolve u32_range u8_range i32_range : mint.

Lemma seqZ_snoc m n : 0 <= n -> seqZ m (n + 1) = seqZ m n ++ [m + n].
Proof.
  intros Hn. replace (n + 1) with (Z.of_nat (S (Z.to_nat n))) by lia.
  rewrite seqZ_S. by replace (Z.of_nat (Z.to_nat n)) with n by lia.
Qed.

(** The last element of a list that satisfies a decidable predicate. *)
Lemma list_last_split {A} (P : A -> Prop) `{forall x, Decision (P x)} (l : list A) :
  (exists x, x ∈ l /\ P x) ->
  exists l1 x l2, l = l1 ++ x :: l2 /\ P x /\ forall y, y ∈ l2 -> ~ P y.
Proof.
  induction l as [|a l IH]; intros (x & Hx & Px); [set_solver|].
  destruct (decide (Exists P l)) as [He|He].
  - rewrite Exists_exists in He. destruct (IH He) as (l1 & y & l2 & -> & Py & Hn).
    by exists (a :: l1), y, l2.
  - exists [], a, l. split; [done|]. rewrite Exists_exists in He. split.
    + apply elem_of_cons in Hx as [->|Hx]; [done|]. destruct He. eauto.
    + intros y Hy Py. destruct He. eauto.
Qed.

(** ** Outcomes of kernel code

    A C function of the kernel either returns, calls [panic], puts its process
    to sleep on a channel, performs an access the C language does not define
    (here: through a null or out-of-range pointer), or exhausts the bound given
    to a loop that has none of its own. *)
Inductive outcome (S A : Type) : Type :=
| Done (a : A) (s : S)
| Panic (msg : string)
| Sleep (chan : string) (s : S)
| Undef (what : string)
| Spin.
Arguments Done {S A} a s.
Arguments Panic {S A} msg.
Arguments Sleep {S A} chan s.
Arguments Undef {S A} what.
Arguments Spin {S A}.

Definition M (S A : Type) : Type := S -> outcome S A.

#[export] Instance M_ret (S : Type) : MRet (M S) := fun A a s => Done a s.
#[export] Instance M_bind (S : Type) : MBind (M S) := fun A B k m s =>
  match m s with
  | Done a s' => k a s'
  | Panic msg => Panic msg
  | Sleep c s' => Sleep c s'
  | Undef w => Undef w
  | Spin => Spin
  end.

Definition get {S} : M S S := fun s => Done s s.
Definition put {S} (s : S) : M S unit := fun _ => Done tt s.
Definition gets {S A} (f : S -> A) : M S A := fun s => Done (f s) s.
Definition modify {S} (f : S -> S) : M S unit := fun s => Done tt (f s).
Definition panic {S A} (msg : string) : M S A := fun _ => Panic msg.
Definition undef {S A} (what : string) : M S A := fun _ => Undef what.
Definition spin {S A} : M S A := fun _ => Spin.
Definition sleep_on {S A} (chan : string) : M S A := fun s => Sleep chan s.

(** [when c m]: the C statement [if(c) m;]. *)
Definition when {S} (c : bool) (m : M S unit) : M S unit :=
  if c then m else mret tt.

(** [for(x in l) body], where the body may return from the function. *)
Fixpoint for_ret {S A R} (l : list A) (body : A -> M S (option R)) : M S (option R) :=
  match l with
  | [] => mret None
  | x :: l' =>
      r ← body x;
      match r with
      | Some v => mret (Some v)
      | None => for_ret l' body
      end
  end.

(** [for(x in l) body], a body that always falls through. *)
Fixpoint for_each {S A} (l : list A) (body : A -> M S unit) : M S unit :=
  match l with
  | [] => mret tt
  | x :: l' => body x ;; for_each l' body
  end.

(** A loop without a bound of its own: [body] returns [inl] to continue with a
    new loop state and [inr] to leave the loop. *)
Fixpoint loop {S X R} (fuel : nat) (body : X -> M S (X + R)) (x : X) : M S R :=
  match fuel with
  | O => spin
  | Datatypes.S n =>
      r ← body x;
      match r with
      | inl x' => loop n body x'
      | inr v => mret v
      end
  end.

(** ** Reasoning about outcomes

    [wp m Q s]: from [s], [m] returns and its result satisfies [Q] (total).
    [wlp m Q s]: if [m] returns, its result satisfies [Q] (partial). *)
Definition wp {S A} (m : M S A) (Q : A -> S -> Prop) (s : S) : Prop :=
  match m s with Done a s' => Q a s' | _ => False end.
Definition wlp {S A} (m : M S A) (Q : A -> S -> Prop) (s : S) : Prop :=
  match m s with Done a s' => Q a s' | _ => True end.

Section wp_rules.
Context {S : Type}.
Implicit Types s : S.

Lemma wp_ret {A} (a : A) Q s : Q a s -> wp (mret a) Q s.
Proof. done. Qed.

Lemma wp_bind {A B} (m : M S A) (k : A -> M S B) Q s :
  wp m (fun a s' => wp (k a) Q s') s -> wp (m ≫= k) Q s.
Proof. unfold wp, mbind, M_bind. by destruct (m s). Qed.

Lemma wp_mono {A} (m : M S A) (Q Q' : A -> S -> Prop) s :
  wp m Q s -> (forall a s', Q a s' -> Q' a s') -> wp m Q' s.
Proof. unfold wp. destruct (m s); naive_solver. Qed.

Lemma wp_get Q s : Q s s -> wp get Q s.
Proof. done. Qed.
Lemma wp_gets {A} (f : S -> A) (Q : A -> S -> Prop) s : Q (f s) s -> wp (gets f) Q s.
Proof. done. Qed.
Lemma wp_modify f Q s : Q tt (f s) -> wp (modify f) Q s.
Proof. done. Qed.
Lemma wp_when c (m : M S unit) Q s :
  (c = true -> wp m Q s) -> (c = false -> Q tt s) -> wp (when c m) Q s.
Proof. destruct c; naive_solver. Qed.

Lemma wp_inv {A} (m : M S A) Q s :
  wp m Q s -> exists a s', m s = Done a s' /\ Q a s'.
Proof. unfold wp. destruct (m s); naive_solver. Qed.

Lemma wp_Done {A} (m : M S A) (Q : A -> S -> Prop) s a s' :
  m s = Done a s' -> Q a s' -> wp m Q s.
Proof. unfold wp. by intros ->. Qed.

(** The loop rule: an invariant indexed by the number of iterations done. *)
Lemma wp_for_each {A} (l : list A) (body : A -> M S unit) (I : nat -> S -> Prop) s :
  I 0%nat s ->
  (forall i x s', l !! i = Some x -> I i s' -> wp (body x) (fun _ => I (Datatypes.S i)) s') ->
  wp (for_each l body) (fun _ => I (length l)) s.
Proof.
  revert I s. induction l as [|x l IH]; intros I s HI Hstep; [done|].
  cbn [for_each]. apply wp_bind. eapply wp_mono; [apply (Hstep 0%nat x); done|].
  intros [] s' HI'. apply (IH (fun i => I (Datatypes.S i))); [done|].
  intros i y s2 Hy Hi. by apply (Hstep (Datatypes.S i) y).
Qed.

Lemma wlp_ret {A} (a : A) (Q : A -> S -> Prop) s : Q a s -> wlp (mret a) Q s.
Proof. done. Qed.
Lemma wlp_bind {A B} (m : M S A) (k : A -> M S B) Q s :
  wlp m (fun a s' => wlp (k a) Q s') s -> wlp (m ≫= k) Q s.
Proof. unfold wlp, mbind, M_bind. by destruct (m s). Qed.
Lemma wlp_mono {A} (m : M S A) (Q Q' : A -> S -> Prop) s :
  wlp m Q s -> (forall a s', Q a s' -> Q' a s') -> wlp m Q' s.
Proof. unfold wlp. destruct (m s); naive_solver. Qed.
Lemma wlp_gets {A} (f : S -> A) (Q : A -> S -> Prop) s : Q (f s) s -> wlp (gets f) Q s.
Proof. done. Qed.
Lemma wlp_modify f (Q : unit -> S -> Prop) s : Q tt (f s) -> wlp (modify f) Q s.
Proof. done. Qed.
Lemma wlp_when c (m : M S unit) (Q : unit -> S -> Prop) s :
  (c = true -> wlp m Q s) -> (c = false -> Q tt s) -> wlp (when c m) Q s.
Proof. destruct c; naive_solver. Qed.
Lemma wlp_Done {A} (m : M S A) (Q : A -> S -> Prop) s a s' : wlp m Q s -> m s = Done a s' -> Q a s'.
Proof. unfold wlp. intros Hw E. by rewrite E in Hw. Qed.

(** Loops with an invariant indexed by the number of iterations done. *)
Lemma wlp_for_ret {A R} (l : list A) (body : A -> M S (option R)) (I : nat -> S -> Prop) (Q : option R -> S -> Prop) s :
  I 0%nat s ->
  (forall i x s', l !! i = Some x -> I i s' ->
     wlp (body x) (fun r s2 => match r with None => I (Datatypes.S i) s2 | Some v => Q (Some v) s2 end) s') ->
  (forall s', I (length l) s' -> Q None s') ->
  wlp (for_ret l body) Q s.
Proof.
  revert I s. induction l as [|x l IH]; intros I s HI Hstep Hend; [by apply Hend|].
  cbn [for_ret]. apply wlp_bind. eapply wlp_mono; [apply (Hstep 0%nat x); done|].
  intros [v|] s' HI'; [exact HI'|]. apply (IH (fun i => I (Datatypes.S i))); [done| |done].
  intros i y s2 Hy Hi. by apply (Hstep (Datatypes.S i) y).
Qed.
Lemma wlp_for_each {A} (l : list A) (body : A -> M S unit) (I : nat -> S -> Prop) s :
  I 0%nat s ->
  (forall i x s', l !! i = Some x -> I i s' -> wlp (body x) (fun _ => I (Datatypes.S i)) s') ->
  wlp (for_each l body) (fun _ => I (length l)) s.
Proof.
  revert I s. induction l as [|x l IH]; intros I s HI Hstep; [done|].
  cbn [for_each]. apply wlp_bind. eapply wlp_mono; [apply (Hstep 0%nat x); done|].
  intros [] s' HI'. apply (IH (fun i => I (Datatypes.S i))); [done|].
  intros i y s2 Hy Hi. by apply (Hstep (Datatypes.S i) y).
Qed.
End wp_rules.

Lemma bind_Done {S A B} (m : M S A) (k : A -> M S B) (s : S) (a : A) (s' : S) : m s = Done a s' -> (m ≫= k) s = k a s'.
Proof. unfold mbind, M_bind. by intros ->. Qed.

(** A scan that finds nothing. *)
Lemma for_ret_none {S A R} (l : list A) (body : A -> M S (option R)) (s : S) :
  (forall x, x ∈ l -> body x s = Done None s) -> for_ret l body s = Done None s.
Proof.
  induction l as [|x l IH]; intros Hb; [done|]. cbn [for_ret]. unfold mbind, M_bind.
  rewrite Hb by set_solver. apply IH. intros y Hy. apply Hb. set_solver.
Qed.

(** A scan that stops at the first element for which the body returns. *)
Lemma for_ret_at {S A R} (l1 : list A) x l2 (body : A -> M S (option R)) (v : R) (s s' : S) :
  (forall y, y ∈ l1 -> body y s = Done None s) -> body x s = Done (Some v) s' ->
  for_ret (l1 ++ x :: l2) body s = Done (Some v) s'.
Proof.
  intros Hb Hx. induction l1 as [|y l1 IH]; cbn [for_ret app]; unfold mbind, M_bind; [by rewrite Hx|].
  rewrite Hb by set_solver. apply IH. intros z Hz. apply Hb. set_solver.
Qed.

(** [preserves P m]: if [P] holds before [m] and [m] returns, [P] holds after.
    Closed under the program constructors, so that an invariant is proved from
    the elementary updates only. *)
Definition preserves {S A} (P : S -> Prop) (m : M S A) : Prop :=
  forall s, P s -> wlp m (fun _ s' => P s') s.

Create HintDb pres.
Section preserves.
Context {S : Type} (P : S -> Prop).

Lemma pres_ret {A} (a : A) : preserves P (mret a).
Proof. by intros s. Qed.
Lemma pres_bind {A B} (m : M S A) (k : A -> M S B) :
  preserves P m -> (forall a, preserves P (k a)) -> preserves P (m ≫= k).
Proof.
  intros Hm Hk s Hs. apply wlp_bind. eapply wlp_mono; [by apply Hm|].
  intros a s' Hs'. by apply Hk.
Qed.
Lemma pres_get : preserves P get.
Proof. by intros s. Qed.
Lemma pres_gets {A} (f : S -> A) : preserves P (gets f).
Proof. by intros s. Qed.
Lemma pres_panic {A} msg : preserves P (panic (A := A) msg).
Proof. by intros s. Qed.
Lemma pres_undef {A} w : preserves P (undef (A := A) w).
Proof. by intros s. Qed.
Lemma pres_sleep {A} c : preserves P (sleep_on (A := A) c).
Proof. by intros s. Qed.
Lemma pres_spin {A} : preserves P (spin (A := A)).
Proof. by intros s. Qed.
Lemma pres_modify f : (forall s, P s -> P (f s)) -> preserves P (modify f).
Proof. intros Hf s Hs. by apply Hf. Qed.
Lemma pres_when c (m : M S unit) : preserves P m -> preserves P (when c m).
Proof. destruct c; [done|]. intros _. apply pres_ret. Qed.
Lemma pres_for_each {A} (l : list A) (body : A -> M S unit) :
  (forall x, preserves P (body x)) -> preserves P (for_each l body).
Proof.
  intros Hb. induction l as [|x l IH]; [apply pres_ret|].
  apply pres_bind; [apply Hb|]. done.
Qed.
Lemma pres_for_ret {A R} (l : list A) (body : A -> M S (option R)) :
  (forall x, preserves P (body x)) -> preserves P (for_ret l body).
Proof.
  intros Hb. induction l as [|x l IH]; [apply pres_ret|].
  apply pres_bind; [apply Hb|]. intros [v|]; [apply pres_ret|done].
Qed.
Lemma pres_loop {X R} fuel (body : X -> M S (X + R)) x :
  (forall x, preserves P (body x)) -> preserves P (loop fuel body x).
Proof.
  intros Hb. revert x. induction fuel as [|n IH]; intros x; [apply pres_spin|].
  apply pres_bind; [apply Hb|]. intros [x'|v]; [apply IH|apply pres_ret].
Qed.
End preserves.
#[export] Hint Resolve pres_ret pres_bind pres_get pres_gets pres_panic pres_undef
  pres_sleep pres_spin pres_modify pres_when pres_for_each pres_for_ret pres_loop : pres.

(** Runs one component's code on the part of a larger state it owns. *)
Definition zoom {S T A} (view : S -> T) (upd : T -> S -> S) (m : M T A) : M S A :=
  fun s => match m (view s) with
           | Done a t => Done a (upd t s)
           | Panic msg => Panic msg
           | Sleep c t => Sleep c (upd t s)
           | Undef w => Undef w
           | Spin => Spin
           end.

Lemma wp_zoom {S T A} (view : S -> T) upd (m : M T A) (Q : A -> S -> Prop) s :
  wp m (fun a t => Q a (upd t s)) (view s) -> wp (zoom view upd m) Q s.
Proof. unfold wp, zoom. by destruct (m (view s)). Qed.

(** [step]: one step of symbolic execution of a [wp] goal. *)
Ltac wp_step :=
  first
    [ apply wp_bind
    | apply wp_ret
    | apply wp_gets
    | apply wp_modify
    | apply wp_get ]; cbn beta.
Ltac wp_steps := repeat wp_step.

(** ** Transition systems *)
Section star.
Context {S : Type} (step : S -> S -> Prop).

Inductive star : S -> S -> Prop :=
| star_refl s : star s s
| star_step s t u : star s t -> step t u -> star s u.

Lemma star_one s t : step s t -> star s t.
Proof. intros H. exact (star_step s s t (star_refl s) H). Qed.

Lemma star_trans s t u : star s t -> star t u -> star s u.
Proof. intros H1 H2. induction H2; eauto using star_step. Qed.

(** The invariant rule: what the initial states satisfy and the steps
    preserve holds in every reachable state. *)
Lemma star_invariant (P : S -> Prop) :
  (forall s t, P s -> step s t -> P t) -> forall s t, P s -> star s t -> P t.
Proof. intros Hstep s t HP. induction 1; eauto. Qed.
End star.
Arguments star {S} step _ _.

