(* ===== verification/Layout.v ===== *)
(** * Constants and address arithmetic

    The parameters of [param.h], [fcntl.h], [mmu.h], [memlayout.h] and [fs.h], and the
    macros on addresses, with the arithmetic the rest of the development uses:
    how page rounding, the page-directory and page-table indexes and the
    physical/kernel address translation behave on 32-bit values. *)
From S2P Require Import Prelude.

(** ** param.h *)
Definition NPROC := 64.
Definition KSTACKSIZE := 4096.
Definition NOFILE := 16.
Definition NFILE := 100.
Definition NINODE := 50.
Definition NDEV := 10.
Definition ROOTDEV := 1.
Definition MAXARG := 32.
Definition MAXOPBLOCKS := 10.
Definition LOGSIZE := MAXOPBLOCKS * 3.
Definition NBUF := MAXOPBLOCKS * 3.
Definition FSSIZE := 1000.
Definition PROT_READ := 1.
Definition PROT_WRITE := 2.
Definition MAP_ANONYMOUS := 1.
Definition MAP_POPULATE := 2.
Definition MMAPBASE := 1073741824.

(** ** fcntl.h *)
Definition O_RDONLY : Z := 0.
Definition O_WRONLY : Z := 1.
Definition O_RDWR : Z := 2.
Definition O_CREATE : Z := 512.

(** ** mmu.h *)
Definition FL_IF := 512.
Definition PDXSHIFT := 22.
Definition PTXSHIFT := 12.
Definition NPDENTRIES := 1024.
Definition PGSIZE := 4096.
Definition PTE_P := 1.
Definition PTE_W := 2.
Definition PTE_U := 4.

Definition PDX (va : Z) : Z := (u32 va ≫ PDXSHIFT) &&& 1023.
Definition PTX (va : Z) : Z := (u32 va ≫ PTXSHIFT) &&& 1023.
Definition PGADDR (d t o : Z) : Z := u32 ((d ≪ PDXSHIFT) ||| (t ≪ PTXSHIFT) ||| o).
Definition PGROUNDUP (sz : Z) : Z := u32 (sz + PGSIZE - 1) &&& Z.lnot (PGSIZE - 1).
Definition PGROUNDDOWN (a : Z) : Z := a &&& Z.lnot (PGSIZE - 1).
Definition PTE_ADDR (pte : Z) : Z := u32 pte &&& Z.lnot 4095.
Definition PTE_FLAGS (pte : Z) : Z := u32 pte &&& 4095.

(** ** memlayout.h *)
Definition EXTMEM := 1048576.
Definition PHYSTOP := 234881024.
Definition DEVSPACE := 4261412864.
Definition KERNBASE := 2147483648.
Definition KERNLINK := KERNBASE + EXTMEM.
Definition V2P (a : Z) : Z := u32 (u32 a - KERNBASE).
Definition P2V (a : Z) : Z := u32 (a + KERNBASE).

(** ** fs.h *)
Definition ROOTINO := 1.
Definition BSIZE := 512.
Definition NDIRECT := 12.
Definition NINDIRECT := BSIZE `div` 4.
Definition MAXFILE := NDIRECT + NINDIRECT.
Definition sizeof_dinode := 64.
Definition IPB := BSIZE `div` sizeof_dinode.
Definition BPB := BSIZE * 8.
Definition DIRSIZ := 14.
Definition sizeof_dirent := 16.

Record superblock := Superblock {
  sb_size : Z; sb_nblocks : Z; sb_ninodes : Z; sb_nlog : Z;
  sb_logstart : Z; sb_inodestart : Z; sb_bmapstart : Z }.

Definition IBLOCK (i : Z) (sb : superblock) : Z := i `div` IPB + sb_inodestart sb.
Definition BBLOCK (b : Z) (sb : superblock) : Z := b `div` BPB + sb_bmapstart sb.

(** ** Arithmetic of the macros *)
Lemma land_lnot_4095 x : Z.land x (Z.lnot 4095) = x - x `mod` 4096.
Proof.
  rewrite <- Z.ldiff_land. change 4095 with (Z.ones 12).
  rewrite Z.ldiff_ones_r, Z.shiftl_mul_pow2, Z.shiftr_div_pow2 by lia.
  change (2 ^ 12) with 4096. zlia.
Qed.

Lemma land_4095 x : Z.land x 4095 = x `mod` 4096.
Proof. change 4095 with (Z.ones 12). by rewrite Z.land_ones by lia. Qed.

Lemma land_1023 x : Z.land x 1023 = x `mod` 1024.
Proof. change 1023 with (Z.ones 10). by rewrite Z.land_ones by lia. Qed.

Lemma PDX_eq va : PDX va = u32 va `div` 4194304.
Proof.
  unfold PDX, PDXSHIFT. rewrite land_1023, Z.shiftr_div_pow2 by lia.
  change (2 ^ 22) with 4194304. zlia.
Qed.

Lemma PTX_eq va : PTX va = (u32 va `div` 4096) `mod` 1024.
Proof.
  unfold PTX, PTXSHIFT. rewrite land_1023, Z.shiftr_div_pow2 by lia. done.
Qed.

Lemma PGROUNDDOWN_eq a : PGROUNDDOWN a = a - a `mod` 4096.
Proof. unfold PGROUNDDOWN, PGSIZE. apply land_lnot_4095. Qed.

Lemma PGROUNDUP_eq sz :
  PGROUNDUP sz = u32 (sz + 4095) - u32 (sz + 4095) `mod` 4096.
Proof.
  unfold PGROUNDUP, PGSIZE. rewrite land_lnot_4095.
  by replace (sz + 4096 - 1) with (sz + 4095) by lia.
Qed.

Lemma PTE_ADDR_eq pte : PTE_ADDR pte = u32 pte - u32 pte `mod` 4096.
Proof. unfold PTE_ADDR. apply land_lnot_4095. Qed.

Lemma PTE_FLAGS_eq pte : PTE_FLAGS pte = u32 pte `mod` 4096.
Proof. unfold PTE_FLAGS. apply land_4095. Qed.

Ltac mmu_unfold :=
  rewrite ?PDX_eq, ?PTX_eq, ?PGROUNDDOWN_eq, ?PGROUNDUP_eq, ?PTE_ADDR_eq,
    ?PTE_FLAGS_eq in *;
  unfold V2P, P2V, KERNBASE, PHYSTOP, PGSIZE, NPDENTRIES, KERNLINK, EXTMEM,
    DEVSPACE, MMAPBASE in *.

Lemma PDX_range va : 0 <= PDX va < 1024.
Proof. rewrite PDX_eq. zlia. Qed.

Lemma PTX_range va : 0 <= PTX va < 1024.
Proof. rewrite PTX_eq. zlia. Qed.

Lemma PGROUNDUP_aligned sz : PGROUNDUP sz `mod` 4096 = 0.
Proof. rewrite PGROUNDUP_eq. zlia. Qed.

(** Below the last page of the address space, rounding up does not wrap. *)
Lemma PGROUNDUP_bounds sz :
  0 <= sz <= 4294963200 -> sz <= PGROUNDUP sz < sz + 4096 /\ PGROUNDUP sz <= 4294963200.
Proof. intros. rewrite PGROUNDUP_eq. zlia. Qed.

Lemma PGROUNDDOWN_bounds a : PGROUNDDOWN a <= a < PGROUNDDOWN a + 4096.
Proof. rewrite PGROUNDDOWN_eq. zlia. Qed.

Lemma PGROUNDDOWN_aligned_id a : a `mod` 4096 = 0 -> PGROUNDDOWN a = a.
Proof. rewrite PGROUNDDOWN_eq. lia. Qed.

Lemma V2P_P2V pa : 0 <= pa < KERNBASE -> V2P (P2V pa) = pa.
Proof. intros. mmu_unfold. zlia. Qed.

Lemma P2V_V2P va : KERNBASE <= va < 4294967296 -> P2V (V2P va) = va.
Proof. intros. mmu_unfold. zlia. Qed.

(** The three parts of a virtual address determine it. *)
Lemma va_parts va :
  0 <= va < 4294967296 -> va = PDX va * 4194304 + PTX va * 4096 + va `mod` 4096.
Proof. intros. rewrite PDX_eq, PTX_eq. zlia. Qed.

(** Or of words with disjoint bits is their sum. *)
Lemma lor_low k a f :
  0 <= k -> a `mod` 2 ^ k = 0 -> 0 <= f < 2 ^ k -> Z.lor a f = a + f.
Proof.
  intros Hk Ha Hf. rewrite <- Z.add_lor_land.
  enough (Z.land a f = 0) by lia.
  apply Z.bits_inj'. intros n Hn. rewrite Z.land_spec, Z.bits_0.
  destruct (decide (n < k)).
  - replace a with (a `div` 2 ^ k * 2 ^ k) by (pose proof (Z.div_mod a (2 ^ k)); lia).
    rewrite Z.mul_pow2_bits_low by lia. done.
  - replace f with (f `mod` 2 ^ k) by (apply Z.mod_small; lia).
    rewrite Z.mod_pow2_bits_high by lia. apply andb_false_r.
Qed.

(** An address entry built from an aligned frame and a flag set splits back. *)
Lemma lor_flags a f :
  a `mod` 4096 = 0 -> 0 <= f < 4096 -> Z.lor a f = a + f.
Proof. apply (lor_low 12); lia. Qed.

Lemma PTE_ADDR_lor a f :
  0 <= a < 4294967296 -> a `mod` 4096 = 0 -> 0 <= f < 4096 -> PTE_ADDR (Z.lor a f) = a.
Proof. intros. rewrite lor_flags, PTE_ADDR_eq by lia. zlia. Qed.

Lemma PTE_FLAGS_lor a f :
  0 <= a < 4294967296 -> a `mod` 4096 = 0 -> 0 <= f < 4096 -> PTE_FLAGS (Z.lor a f) = f.
Proof. intros. rewrite lor_flags, PTE_FLAGS_eq by lia. zlia. Qed.

(** [PGADDR] puts the three parts of an address back together. *)
Lemma PGADDR_eq d t o :
  0 <= d < 1024 -> 0 <= t < 1024 -> 0 <= o < 4096 ->
  PGADDR d t o = d * 4194304 + t * 4096 + o.
Proof.
  intros. unfold PGADDR, PDXSHIFT, PTXSHIFT. rewrite !Z.shiftl_mul_pow2 by lia.
  change (2 ^ 22) with 4194304. change (2 ^ 12) with 4096.
  assert (Z.lor (d * 4194304) (t * 4096) = d * 4194304 + t * 4096) as ->.
  { rewrite <- Z.add_lor_land. enough (Z.land (d * 4194304) (t * 4096) = 0) by lia.
    replace (d * 4194304) with (d ≪ 22) by (rewrite Z.shiftl_mul_pow2; lia).
    replace (t * 4096) with ((t * 4096) `mod` 2 ^ 22) by (apply Z.mod_small; lia).
    apply Z.bits_inj'. intros n Hn. rewrite Z.land_spec, Z.bits_0.
    destruct (decide (n < 22)).
    - rewrite Z.shiftl_spec_low by lia. done.
    - rewrite Z.mod_pow2_bits_high by lia. apply andb_false_r. }
  rewrite lor_flags by zlia. apply u32_small. lia.
Qed.

Lemma PGADDR_parts va :
  0 <= va < 4294967296 -> PGADDR (PDX va) (PTX va) (va `mod` 4096) = va.
Proof.
  intros. rewrite PGADDR_eq by (auto using PDX_range, PTX_range with zarith; zlia).
  symmetry. by apply va_parts.
Qed.
