(* ===== verification/Memory.v ===== *)
(** * Byte memory and the C string routines ([string.c])

    Memory is a finite map from addresses to bytes (an address never written
    reads 0, as the loader's bss does); the kernel's structures that live in
    raw memory (page tables, the page free list, strings) are read and written
    through [rd8]/[wr8] and the little-endian [rd32]/[wr32].  The routines of
    [string.c] are translated as updates of this memory; each returns its first
    argument in C, which the model omits. *)
From S2P Require Import Prelude Layout.

Abbreviation mem := (gmap Z Z).

Definition rd8 (m : mem) (a : Z) : Z := default 0 (m !! a).
Definition wr8 (a v : Z) (m : mem) : mem := <[a := u8 v]> m.

Definition rd32 (m : mem) (a : Z) : Z :=
  u8 (rd8 m a) + u8 (rd8 m (a + 1)) * 256
  + u8 (rd8 m (a + 2)) * 65536 + u8 (rd8 m (a + 3)) * 16777216.
Definition wr32 (a v : Z) (m : mem) : mem :=
  wr8 (a + 3) (v ≫ 24) (wr8 (a + 2) (v ≫ 16) (wr8 (a + 1) (v ≫ 8) (wr8 a v m))).

(** ** string.c *)

(** [rep stosb] and [rep stosl] of [x86.h]. *)
Fixpoint stosb (addr data : Z) (cnt : nat) (m : mem) : mem :=
  match cnt with
  | O => m
  | S n => stosb (addr + 1) data n (wr8 addr data m)
  end.
Fixpoint stosl (addr data : Z) (cnt : nat) (m : mem) : mem :=
  match cnt with
  | O => m
  | S n => stosl (addr + 4) data n (wr32 addr data m)
  end.

Definition memset (dst c n : Z) (m : mem) : mem :=
  if (Z.rem (i32 dst) 4 =? 0) && (n `mod` 4 =? 0) then
    let c := c &&& 255 in
    stosl dst ((c ≪ 24) ||| (c ≪ 16) ||| (c ≪ 8) ||| c) (Z.to_nat (n `div` 4)) m
  else stosb dst c (Z.to_nat n) m.

Fixpoint memcmp_loop (m : mem) (s1 s2 : Z) (n : nat) : Z :=
  match n with
  | O => 0
  | S n' => if rd8 m s1 !=? rd8 m s2 then rd8 m s1 - rd8 m s2
            else memcmp_loop m (s1 + 1) (s2 + 1) n'
  end.
Definition memcmp (m : mem) (v1 v2 n : Z) : Z := memcmp_loop m v1 v2 (Z.to_nat n).

(** [while(n-- > 0) *d++ = *s++] and [while(n-- > 0) *--d = *--s]. *)
Fixpoint copy_up (d s : Z) (n : nat) (m : mem) : mem :=
  match n with
  | O => m
  | S n' => copy_up (d + 1) (s + 1) n' (wr8 d (rd8 m s) m)
  end.
Fixpoint copy_down (d s : Z) (n : nat) (m : mem) : mem :=
  match n with
  | O => m
  | S n' => copy_down (d - 1) (s - 1) n' (wr8 (d - 1) (rd8 m (s - 1)) m)
  end.

Definition memmove (dst src n : Z) (m : mem) : mem :=
  if (src <? dst) && (dst <? src + n)
  then copy_down (dst + n) (src + n) (Z.to_nat n) m
  else copy_up dst src (Z.to_nat n) m.

Definition memcpy (dst src n : Z) (m : mem) : mem := memmove dst src n m.

Fixpoint strncmp_loop (m : mem) (p q : Z) (n : nat) : Z :=
  match n with
  | O => 0
  | S n' =>
      if truth (rd8 m p) && (rd8 m p =? rd8 m q)
      then strncmp_loop m (p + 1) (q + 1) n'
      else u8 (rd8 m p) - u8 (rd8 m q)
  end.
Definition strncmp (m : mem) (p q n : Z) : Z := strncmp_loop m p q (Z.to_nat n).

(** The first loop of [strncpy] hands the place it reached to the second. *)
Fixpoint strncpy_loop (s t : Z) (n : nat) (m : mem) : mem :=
  match n with
  | O => m
  | S n' =>
      let c := rd8 m t in
      let m := wr8 s c m in
      if truth c then strncpy_loop (s + 1) (t + 1) n' m
      else stosb (s + 1) 0 n' m
  end.
Definition strncpy (s t n : Z) (m : mem) : mem := strncpy_loop s t (Z.to_nat n) m.

Fixpoint safestrcpy_loop (s t : Z) (n : nat) (m : mem) : mem :=
  match n with
  | O => wr8 s 0 m
  | S n' =>
      let c := rd8 m t in
      let m := wr8 s c m in
      if truth c then safestrcpy_loop (s + 1) (t + 1) n' m
      else wr8 (s + 1) 0 m
  end.
Definition safestrcpy (s t n : Z) (m : mem) : mem :=
  if n <=? 0 then m else safestrcpy_loop s t (Z.to_nat (n - 1)) m.

(** [strlen] scans memory with no bound; [fuel] bounds the scan. *)
Fixpoint strlen_from (m : mem) (s : Z) (fuel : nat) (n : Z) : option Z :=
  match fuel with
  | O => None
  | S f => if truth (rd8 m (s + n)) then strlen_from m s f (n + 1) else Some n
  end.
Definition strlen (m : mem) (s : Z) (fuel : nat) : option Z := strlen_from m s fuel 0.

(** ** Reading and writing memory *)
Lemma rd8_wr8 a b v m : rd8 (wr8 a v m) b = if decide (a = b) then u8 v else rd8 m b.
Proof.
  unfold rd8, wr8. case_decide; subst; [by rewrite lookup_insert_eq|].
  by rewrite lookup_insert_ne.
Qed.

Lemma rd8_wr8_eq a v m : rd8 (wr8 a v m) a = u8 v.
Proof. rewrite rd8_wr8. by rewrite decide_True. Qed.

Lemma rd8_wr8_ne a b v m : a <> b -> rd8 (wr8 a v m) b = rd8 m b.
Proof. intros. rewrite rd8_wr8. by rewrite decide_False. Qed.

(** Every stored byte is a byte. *)
Definition bytes_ok (m : mem) : Prop := forall a, 0 <= rd8 m a < 256.

Lemma wr8_bytes_ok a v m : bytes_ok m -> bytes_ok (wr8 a v m).
Proof. intros H b. rewrite rd8_wr8. case_decide; [apply u8_range|apply H]. Qed.

Lemma empty_bytes_ok : bytes_ok ∅.
Proof. intros a. unfold rd8. rewrite lookup_empty. cbn. lia. Qed.

(** Two memories that read the same everywhere: the equivalence the model
    uses, coarser than equality of the maps. *)
Definition mem_eq (m1 m2 : mem) : Prop := forall a, rd8 m1 a = rd8 m2 a.
Infix "≡m" := mem_eq (at level 70).

#[export] Instance mem_eq_equiv : Equivalence mem_eq.
Proof. split; repeat intro; unfold mem_eq in *; congruence. Qed.
#[export] Instance rd8_proper : Proper (mem_eq ==> eq ==> eq) rd8.
Proof. intros m1 m2 H a b ->. apply H. Qed.
#[export] Instance wr8_proper : Proper (eq ==> eq ==> mem_eq ==> mem_eq) wr8.
Proof. intros a ? <- v ? <- m1 m2 H b. rewrite !rd8_wr8. case_decide; [done|apply H]. Qed.
#[export] Instance rd32_proper : Proper (mem_eq ==> eq ==> eq) rd32.
Proof. intros m1 m2 H a b ->. unfold rd32. by rewrite !H. Qed.
#[export] Instance wr32_proper : Proper (eq ==> eq ==> mem_eq ==> mem_eq) wr32.
Proof. intros a ? <- v ? <- m1 m2 H. unfold wr32. by do 4 f_equiv. Qed.

(** [rd32 (wr32 a v m) b] for the same word and for a word that does not
    overlap it. *)
Lemma rd32_range m a : 0 <= rd32 m a < 4294967296.
Proof. unfold rd32. pose proof (u8_range (rd8 m a)). pose proof (u8_range (rd8 m (a+1))).
  pose proof (u8_range (rd8 m (a+2))). pose proof (u8_range (rd8 m (a+3))). lia. Qed.

Lemma rd32_wr32_eq a v m : rd32 (wr32 a v m) a = u32 v.
Proof.
  unfold rd32, wr32. rewrite !rd8_wr8.
  repeat (case_decide; try lia). rewrite !Z.shiftr_div_pow2 by lia.
  change (2 ^ 8) with 256. change (2 ^ 16) with 65536. change (2 ^ 24) with 16777216. zlia.
Qed.

Lemma rd8_wr32_ne a b v m : b < a \/ a + 4 <= b -> rd8 (wr32 a v m) b = rd8 m b.
Proof. intros. unfold wr32. rewrite !rd8_wr8_ne by lia. done. Qed.

Lemma rd32_wr32_ne a b v m : b + 4 <= a \/ a + 4 <= b -> rd32 (wr32 a v m) b = rd32 m b.
Proof. intros. unfold rd32. by rewrite !rd8_wr32_ne by lia. Qed.

Lemma wr32_bytes_ok a v m : bytes_ok m -> bytes_ok (wr32 a v m).
Proof. intros. unfold wr32. by repeat apply wr8_bytes_ok. Qed.

(** A 32-bit read depends on four bytes only. *)
Lemma rd32_ext m1 m2 a :
  (forall i, 0 <= i < 4 -> rd8 m1 (a + i) = rd8 m2 (a + i)) -> rd32 m1 a = rd32 m2 a.
Proof.
  intros H. unfold rd32. rewrite <- (Z.add_0_r a) at 1. rewrite !H by lia.
  by rewrite Z.add_0_r.
Qed.

(** ** memset *)
Lemma rd8_stosb addr v cnt m a :
  rd8 (stosb addr v cnt m) a
  = if decide (addr <= a < addr + Z.of_nat cnt) then u8 v else rd8 m a.
Proof.
  revert addr m. induction cnt as [|n IH]; intros addr m; cbn [stosb].
  { by rewrite decide_False by lia. }
  rewrite IH, rd8_wr8. repeat case_decide; try done; lia.
Qed.

Lemma byte_of_word c k :
  0 <= c < 256 -> 0 <= k < 4 ->
  u8 ((c * 16777216 + c * 65536 + c * 256 + c) ≫ (8 * k)) = c.
Proof.
  intros Hc Hk. assert (k = 0 \/ k = 1 \/ k = 2 \/ k = 3) as [-> | [-> | [-> | ->]]] by lia;
  rewrite Z.shiftr_div_pow2 by lia; cbn -[Z.div Z.mul]; zlia.
Qed.

Lemma rd8_wr32_byte addr c m a :
  0 <= c < 256 ->
  rd8 (wr32 addr (c * 16777216 + c * 65536 + c * 256 + c) m) a
  = if decide (addr <= a < addr + 4) then c else rd8 m a.
Proof.
  intros Hc. unfold wr32. set (w := c * 16777216 + c * 65536 + c * 256 + c).
  assert (E0 : u8 w = c) by (rewrite <- (Z.shiftr_0_r w); apply (byte_of_word c 0); lia).
  assert (E1 : u8 (w ≫ 8) = c) by (apply (byte_of_word c 1); lia).
  assert (E2 : u8 (w ≫ 16) = c) by (apply (byte_of_word c 2); lia).
  assert (E3 : u8 (w ≫ 24) = c) by (apply (byte_of_word c 3); lia).
  rewrite !rd8_wr8, E0, E1, E2, E3.
  repeat case_decide; try done; lia.
Qed.

Lemma rd8_stosl addr c cnt m a :
  0 <= c < 256 ->
  rd8 (stosl addr (c * 16777216 + c * 65536 + c * 256 + c) cnt m) a
  = if decide (addr <= a < addr + 4 * Z.of_nat cnt) then c else rd8 m a.
Proof.
  intros Hc. revert addr m. induction cnt as [|n IH]; intros addr m; cbn [stosl].
  { by rewrite decide_False by lia. }
  rewrite IH, rd8_wr32_byte by done. repeat case_decide; try done; lia.
Qed.

Lemma fill_word c : 0 <= c < 256 ->
  (c ≪ 24) ||| (c ≪ 16) ||| (c ≪ 8) ||| c = c * 16777216 + c * 65536 + c * 256 + c.
Proof.
  assert (H : forall n, (n < 256)%nat ->
    let c := Z.of_nat n in
    (c ≪ 24) ||| (c ≪ 16) ||| (c ≪ 8) ||| c = c * 16777216 + c * 65536 + c * 256 + c).
  { intros n Hn. do 256 (destruct n as [|n]; [reflexivity|]). lia. }
  intros Hc. specialize (H (Z.to_nat c)). cbn zeta in H.
  rewrite Z2Nat.id in H by lia. apply H. lia.
Qed.

(** [memset] sets exactly the [n] bytes from [dst], whichever of the two
    string instructions it picks. *)
Lemma rd8_memset dst c n m a :
  0 <= n ->
  rd8 (memset dst c n m) a = if decide (dst <= a < dst + n) then u8 c else rd8 m a.
Proof.
  intros Hn. unfold memset. destruct (_ && _) eqn:E; [|rewrite rd8_stosb, Z2Nat.id by lia; done].
  apply andb_prop in E as [_ E]. cbn zeta.
  change 255 with (Z.ones 8). rewrite Z.land_ones by lia. change (2 ^ 8) with 256.
  fold (u8 c). rewrite fill_word, rd8_stosl by apply u8_range.
  apply Z.eqb_eq in E. rewrite Z2Nat.id by zlia.
  replace (4 * (n `div` 4)) with n by zlia. done.
Qed.

Lemma rd32_memset0 dst n m a :
  0 <= n -> dst <= a -> a + 4 <= dst + n -> rd32 (memset dst 0 n m) a = 0.
Proof.
  intros. unfold rd32. rewrite !rd8_memset by done. by rewrite !decide_True by lia.
Qed.

Lemma rd32_memset_ne dst c n m a :
  0 <= n -> a + 4 <= dst \/ dst + n <= a -> rd32 (memset dst c n m) a = rd32 m a.
Proof.
  intros. apply rd32_ext. intros. rewrite rd8_memset by done. by rewrite decide_False by lia.
Qed.

Lemma memset_bytes_ok dst c n m : 0 <= n -> bytes_ok m -> bytes_ok (memset dst c n m).
Proof.
  intros Hn H a. rewrite rd8_memset by done. case_decide; [apply u8_range|apply H].
Qed.

(** ** memmove *)
Lemma rd8_copy_up n d s m a :
  d <= s \/ s + Z.of_nat n <= d ->
  rd8 (copy_up d s n m) a
  = if decide (d <= a < d + Z.of_nat n) then u8 (rd8 m (s + (a - d))) else rd8 m a.
Proof.
  revert d s m. induction n as [|n IH]; intros d s m H; cbn [copy_up].
  { by rewrite decide_False by lia. }
  rewrite IH by lia. repeat case_decide; try lia.
  - rewrite rd8_wr8_ne by lia. f_equal. f_equal. lia.
  - assert (a = d) as -> by lia. rewrite rd8_wr8_eq. do 2 f_equal. lia.
  - by rewrite rd8_wr8_ne by lia.
Qed.

Lemma rd8_copy_down n d s m a :
  s <= d ->
  rd8 (copy_down d s n m) a
  = if decide (d - Z.of_nat n <= a < d) then u8 (rd8 m (s - (d - a))) else rd8 m a.
Proof.
  revert d s m. induction n as [|n IH]; intros d s m H; cbn [copy_down].
  { by rewrite decide_False by lia. }
  rewrite IH by lia. repeat case_decide; try lia.
  - rewrite rd8_wr8_ne by lia. do 2 f_equal. lia.
  - assert (a = d - 1) as -> by lia. rewrite rd8_wr8_eq. do 2 f_equal. lia.
  - by rewrite rd8_wr8_ne by lia.
Qed.

Lemma rd8_memmove dst src n m a :
  0 <= n ->
  rd8 (memmove dst src n m) a
  = if decide (dst <= a < dst + n) then u8 (rd8 m (src + (a - dst))) else rd8 m a.
Proof.
  intros Hn. unfold memmove.
  destruct ((src <? dst) && (dst <? src + n)) eqn:E.
  - apply andb_prop in E as [E1 E2]. rewrite rd8_copy_down, Z2Nat.id by lia.
    replace (dst + n - n) with dst by lia.
    repeat case_decide; try done. do 2 f_equal. lia.
  - apply andb_false_iff in E. rewrite rd8_copy_up, Z2Nat.id by lia. done.
Qed.

Lemma memmove_bytes_ok dst src n m : 0 <= n -> bytes_ok m -> bytes_ok (memmove dst src n m).
Proof.
  intros Hn H a. rewrite rd8_memmove by done. case_decide; [apply u8_range|apply H].
Qed.

(** ** C strings *)

(** [cstr m s l]: the NUL-terminated string at [s] has the bytes [l]. *)
Definition cstr (m : mem) (s : Z) (l : list Z) : Prop :=
  (forall i c, l !! i = Some c -> rd8 m (s + Z.of_nat i) = c /\ c <> 0)
  /\ rd8 m (s + Z.of_nat (length l)) = 0.

Lemma cstr_nil m s : cstr m s [] <-> rd8 m s = 0.
Proof.
  unfold cstr. cbn. rewrite Z.add_0_r. split; [tauto|]. intros E; split; [|done].
  intros i c Hi. by rewrite lookup_nil in Hi.
Qed.

Lemma cstr_cons m s c l : cstr m s (c :: l) <-> rd8 m s = c /\ c <> 0 /\ cstr m (s + 1) l.
Proof.
  unfold cstr. cbn [length]. split.
  - intros [H1 H2]. pose proof (H1 0%nat c eq_refl) as [H3 H4].
    rewrite Z.add_0_r in H3. split; [done|]. split; [done|]. split.
    + intros i d Hd. replace (s + 1 + Z.of_nat i) with (s + Z.of_nat (S i)) by lia.
      by apply H1.
    + rewrite <- H2. f_equal. lia.
  - intros (H1 & H2 & H3 & H4). split.
    + intros [|i] d Hd; cbn in Hd; [simplify_eq; by rewrite Z.add_0_r|].
      replace (s + Z.of_nat (S i)) with (s + 1 + Z.of_nat i) by lia. by apply H3.
    + rewrite <- H4. f_equal. lia.
Qed.

Lemma strlen_from_spec m s l fuel n :
  cstr m (s + n) l -> (length l < fuel)%nat ->
  strlen_from m s fuel n = Some (n + Z.of_nat (length l)).
Proof.
  revert n fuel. induction l as [|c l IH]; intros n [|fuel] Hs Hf; cbn in Hf; try lia; cbn.
  - apply cstr_nil in Hs. rewrite Hs. cbn. f_equal; lia.
  - apply cstr_cons in Hs as (Hc & Hz & Hs). unfold truth. rewrite Hc.
    apply Z.eqb_neq in Hz as ->. cbn [negb].
    rewrite (IH (n + 1)); [f_equal; lia| |lia].
    by rewrite Z.add_assoc.
Qed.

Lemma strncmp_eq0 m p q l1 l2 n :
  bytes_ok m -> cstr m p l1 -> cstr m q l2 ->
  strncmp_loop m p q n = 0 <-> take n l1 = take n l2.
Proof.
  intros Hb. revert p q l1 l2. induction n as [|n IH]; intros p q l1 l2 H1 H2; cbn; [done|].
  unfold truth. rewrite !u8_small by apply Hb.
  destruct l1 as [|c1 l1], l2 as [|c2 l2].
  - apply cstr_nil in H1, H2. rewrite H1, H2. done.
  - apply cstr_nil in H1. apply cstr_cons in H2 as (H2 & H3 & _).
    rewrite H1, H2. cbn. split; [lia|done].
  - apply cstr_nil in H2. apply cstr_cons in H1 as (H1 & H3 & _).
    rewrite H1, H2. apply Z.eqb_neq in H3 as H4. rewrite H4. cbn.
    split; [lia|done].
  - apply cstr_cons in H1 as (H1 & Hz1 & H3). apply cstr_cons in H2 as (H2 & Hz2 & H4).
    rewrite H1, H2. apply Z.eqb_neq in Hz1 as ->. cbn.
    destruct (Z.eqb_spec c1 c2) as [->|Hne].
    + rewrite (IH _ _ l1 l2) by done. split; congruence.
    + split; [lia|congruence].
Qed.

(** [safestrcpy] always leaves a NUL-terminated string that is the longest
    prefix of the source that fits, and writes nothing outside [n] bytes. *)
Lemma safestrcpy_loop_spec m s t l n :
  bytes_ok m -> cstr m t l ->
  (t + Z.of_nat (length l) < s \/ s + Z.of_nat n < t) ->
  cstr (safestrcpy_loop s t n m) s (take n l)
  /\ forall a, a < s \/ s + Z.of_nat n < a -> rd8 (safestrcpy_loop s t n m) a = rd8 m a.
Proof.
  revert m s t l. induction n as [|n IH]; intros m s t l Hb Ht Hd; cbn [safestrcpy_loop take].
  { split; [apply cstr_nil, rd8_wr8_eq|]. intros a Ha. rewrite rd8_wr8_ne; [done|lia]. }
  unfold truth. destruct l as [|c l]; cbn [length take] in *.
  - apply cstr_nil in Ht. rewrite Ht. cbn.
    split; [apply cstr_nil; by rewrite rd8_wr8_ne, rd8_wr8_eq by lia|].
    intros a Ha. by rewrite !rd8_wr8_ne by lia.
  - apply cstr_cons in Ht as (Hc & Hz & Ht). rewrite Hc.
    apply Z.eqb_neq in Hz as Hz'. rewrite Hz'. cbn [negb].
    assert (Hu : u8 c = c) by (rewrite <- Hc; apply u8_small, Hb).
    destruct (IH (wr8 s c m) (s + 1) (t + 1) l) as [IH1 IH2].
    { by apply wr8_bytes_ok. }
    { destruct Ht as [Ht1 Ht2]. split.
      - intros i d Hi. pose proof (lookup_lt_Some _ _ _ Hi).
        rewrite rd8_wr8_ne by lia. by apply Ht1.
      - by rewrite rd8_wr8_ne by lia. }
    { lia. }
    split.
    + apply cstr_cons. rewrite IH2 by lia. by rewrite rd8_wr8_eq.
    + intros a Ha. rewrite IH2 by lia. by rewrite rd8_wr8_ne by lia.
Qed.

(** [strncpy] fills exactly [n] bytes: the string, then zeroes. *)
Lemma strncpy_loop_spec m s t l n a :
  bytes_ok m -> cstr m t l ->
  (t + Z.of_nat (length l) < s \/ s + Z.of_nat n <= t) ->
  rd8 (strncpy_loop s t n m) a
  = if decide (s <= a < s + Z.of_nat n)
    then default 0 (l !! Z.to_nat (a - s)) else rd8 m a.
Proof.
  revert m s t l. induction n as [|n IH]; intros m s t l Hb Ht Hd; cbn [strncpy_loop].
  { by rewrite decide_False by lia. }
  unfold truth. destruct l as [|c l]; cbn [length] in *.
  - apply cstr_nil in Ht. rewrite Ht. cbn. rewrite rd8_stosb, rd8_wr8, lookup_nil.
    repeat case_decide; try done; lia.
  - apply cstr_cons in Ht as (Hc & Hz & Ht). rewrite Hc.
    apply Z.eqb_neq in Hz as Hz'. rewrite Hz'. cbn [negb].
    assert (Hu : u8 c = c) by (rewrite <- Hc; apply u8_small, Hb).
    rewrite (IH _ _ _ l); [| by apply wr8_bytes_ok | | lia].
    + repeat case_decide; try lia.
      * by replace (Z.to_nat (a - s)) with (S (Z.to_nat (a - (s + 1)))) by lia.
      * assert (a = s) as -> by lia. rewrite rd8_wr8_eq, Z.sub_diag. cbn. done.
      * by rewrite rd8_wr8_ne by lia.
    + destruct Ht as [Ht1 Ht2]. split.
      * intros i d Hi. pose proof (lookup_lt_Some _ _ _ Hi).
        rewrite rd8_wr8_ne by lia. by apply Ht1.
      * by rewrite rd8_wr8_ne by lia.
Qed.
