(* ===== verification/Locks.v ===== *)
(** * The locks a kernel thread holds

    The single-CPU view of [acquire]/[release] of [spinlock.c] the other
    components are written against: the list of spin locks the running CPU
    holds.  Acquiring a lock it already holds and releasing one it does not
    hold panic, as [holding()] makes them do.  [Spinlock.v] models the lock
    words, the interrupt-enable nesting and the other CPUs, and shows that
    this view is what its operations do. *)
From S2P Require Import Prelude.

Inductive lock :=
| Lptable | Lkmem | Lmtable | Lbcache | Lide | Llog | Licache | Lftable
| Lcons | Lticks | Llru | Lpipe (p : Z) | Lsleep (k : Z).

#[export] Instance lock_eq_dec : EqDecision lock.
Proof. solve_decision. Defined.

#[export] Instance lock_countable : Countable lock.
Proof.
  apply (inj_countable'
    (fun l => match l with
      | Lptable => inl 0 | Lkmem => inl 1 | Lmtable => inl 2 | Lbcache => inl 3
      | Lide => inl 4 | Llog => inl 5 | Licache => inl 6 | Lftable => inl 7
      | Lcons => inl 8 | Lticks => inl 9 | Llru => inl 10
      | Lpipe p => inr (inl p) | Lsleep k => inr (inr k) end)
    (fun x : Z + (Z + Z) => match x with
      | inl 0 => Lptable | inl 1 => Lkmem | inl 2 => Lmtable | inl 3 => Lbcache
      | inl 4 => Lide | inl 5 => Llog | inl 6 => Licache | inl 7 => Lftable
      | inl 8 => Lcons | inl 9 => Lticks | inl _ => Llru
      | inr (inl p) => Lpipe p | inr (inr k) => Lsleep k end)).
  by intros [].
Defined.

(** A state with a list of held spin locks. *)
Class HasLocks (S : Type) := {
  locks_of : S -> list lock;
  with_locks : list lock -> S -> S;
  locks_of_with : forall L s, locks_of (with_locks L s) = L;
  with_locks_with : forall L L' s, with_locks L (with_locks L' s) = with_locks L s;
  with_locks_of : forall s, with_locks (locks_of s) s = s }.

Section locks.
Context {S : Type} `{HasLocks S}.

Definition acquire (l : lock) : M S unit := fun s =>
  if decide (l ∈ locks_of s) then Panic "acquire"
  else Done tt (with_locks (l :: locks_of s) s).

Definition release (l : lock) : M S unit := fun s =>
  if decide (l ∈ locks_of s)
  then Done tt (with_locks (filter (fun x : lock => x <> l) (locks_of s)) s)
  else Panic "release".

(** [holding(&l)]. *)
Definition holding (l : lock) : M S bool :=
  gets (fun s => bool_decide (l ∈ locks_of s)).

Lemma acquire_free l s :
  l ∉ locks_of s -> acquire l s = Done tt (with_locks (l :: locks_of s) s).
Proof. intros. unfold acquire. by rewrite decide_False. Qed.

Lemma acquire_held l s : l ∈ locks_of s -> acquire l s = Panic "acquire".
Proof. intros. unfold acquire. by rewrite decide_True. Qed.

Lemma filter_top (l : lock) L : l ∉ L -> filter (fun x : lock => x <> l) (l :: L) = L.
Proof.
  intros Hl. rewrite filter_cons_False by naive_solver.
  induction L as [|x L IH]; [done|].
  rewrite filter_cons_True by set_solver. f_equal. set_solver.
Qed.

(** Releasing the lock just acquired gives back the lock set of before. *)
Lemma release_top l L s :
  locks_of s = l :: L -> l ∉ L -> release l s = Done tt (with_locks L s).
Proof.
  intros E Hl. unfold release. rewrite E, decide_True by set_solver.
  by rewrite filter_top.
Qed.

Lemma wp_acquire l Q s :
  l ∉ locks_of s -> Q tt (with_locks (l :: locks_of s) s) -> wp (acquire l) Q s.
Proof. intros. unfold wp. by rewrite acquire_free. Qed.

Lemma wp_release l L Q s :
  locks_of s = l :: L -> l ∉ L -> Q tt (with_locks L s) -> wp (release l) Q s.
Proof. intros E Hl HQ. unfold wp. by rewrite (release_top l L). Qed.
End locks.
#[export] Hint Rewrite @locks_of_with @with_locks_with @with_locks_of : mint.
