(* ===== verification/Kalloc.v ===== *)
(** * The physical page allocator ([kalloc.c])

    Free pages form a linked list threaded through the pages themselves: the
    first word of a free page is the address of the next one.  The model keeps
    that representation (the list lives in the byte memory), so a page handed
    out twice or written to while free is visible in it.  [end], the first
    address after the kernel image, is set by the linker script and is a
    parameter. *)
From S2P Require Import Prelude Layout Memory Locks.

(** Kernel memory: the bytes, [kmem] and [freemems], and the held locks. *)
Record kst := Kst {
  k_mem : mem;
  k_use_lock : bool;
  k_freelist : Z;
  k_freemems : Z;
  k_held : list lock }.

#[export, program] Instance kst_locks : HasLocks kst := {|
  locks_of := k_held;
  with_locks L s := Kst (k_mem s) (k_use_lock s) (k_freelist s) (k_freemems s) L |}.
Next Obligation. done. Qed.
Next Obligation. done. Qed.
Next Obligation. by intros []. Qed.

Definition upd_mem (f : mem -> mem) (s : kst) : kst :=
  Kst (f (k_mem s)) (k_use_lock s) (k_freelist s) (k_freemems s) (k_held s).
Definition upd_freelist (p : Z) (s : kst) : kst :=
  Kst (k_mem s) (k_use_lock s) p (k_freemems s) (k_held s).
Definition upd_freemems (f : Z -> Z) (s : kst) : kst :=
  Kst (k_mem s) (k_use_lock s) (k_freelist s) (f (k_freemems s)) (k_held s).
Definition upd_use_lock (b : bool) (s : kst) : kst :=
  Kst (k_mem s) b (k_freelist s) (k_freemems s) (k_held s).

Definition load32 (a : Z) : M kst Z := gets (fun s => rd32 (k_mem s) a).
Definition store32 (a v : Z) : M kst unit := modify (upd_mem (wr32 a v)).

Section kalloc.
Variable kend : Z.

(** The test of [kfree]: not page aligned, below [end], or past [PHYSTOP]. *)
Definition kfree_bad (v : Z) : bool :=
  (u32 v `mod` PGSIZE !=? 0) || (v <? kend) || (PHYSTOP <=? V2P v).

Definition kfree (v : Z) : M kst unit :=
  if kfree_bad v then panic "kfree"
  else
    modify (upd_mem (memset v 1 PGSIZE)) ;;
    ul ← gets k_use_lock;
    when ul (acquire Lkmem) ;;
    fl ← gets k_freelist;
    store32 v fl ;;
    modify (upd_freelist v) ;;
    modify (upd_freemems (fun n => i32 (n + 1))) ;;
    ul ← gets k_use_lock;
    when ul (release Lkmem).

Definition kalloc : M kst Z :=
  ul ← gets k_use_lock;
  when ul (acquire Lkmem) ;;
  r ← gets k_freelist;
  when (truth r) (next ← load32 r; modify (upd_freelist next)) ;;
  modify (upd_freemems (fun n => i32 (n - 1))) ;;
  ul ← gets k_use_lock;
  when ul (release Lkmem) ;;
  mret r.

Definition freerange_body (vend p : Z) : M kst (Z + unit) :=
  if p + PGSIZE <=? vend
  then kfree p ;; mret (inl (p + PGSIZE))
  else mret (inr tt).

(** At most [vend / PGSIZE] pages lie below [vend]. *)
Definition freerange (vstart vend : Z) : M kst unit :=
  loop (S (Z.to_nat (vend `div` PGSIZE))) (freerange_body vend) (PGROUNDUP vstart).

Definition kinit1 (vstart vend : Z) : M kst unit :=
  modify (upd_use_lock false) ;; freerange vstart vend.

Definition kinit2 (vstart vend : Z) : M kst unit :=
  freerange vstart vend ;; modify (upd_use_lock true).

(** [freemem], the system call's body. *)
Definition freemem : M kst Z := gets k_freemems.

(** ** The free list as a list of pages *)

Fixpoint flist (m : mem) (r : Z) (l : list Z) : Prop :=
  match l with
  | [] => r = 0
  | p :: l' => r = p /\ flist m (rd32 m p) l'
  end.

(** A page [kfree] accepts: aligned, above the kernel, below [PHYSTOP]. *)
Definition kpage (p : Z) : Prop :=
  p `mod` 4096 = 0 /\ kend <= p /\ KERNBASE <= p < KERNBASE + PHYSTOP.

Record kinv (s : kst) (l : list Z) : Prop := Kinv {
  kinv_list : flist (k_mem s) (k_freelist s) l;
  kinv_nodup : NoDup l;
  kinv_pages : Forall kpage l;
  kinv_held : Lkmem ∉ k_held s }.

(** What the operations leave alone. *)
Definition kframe (s s' : kst) : Prop :=
  k_use_lock s' = k_use_lock s /\ k_held s' = k_held s.

Lemma kfree_bad_false v :
  0 <= v < 4294967296 -> kfree_bad v = false <-> kpage v.
Proof.
  intros Hv. unfold kfree_bad, kpage, V2P, KERNBASE, PHYSTOP, PGSIZE.
  rewrite !orb_false_iff, negb_false_iff, Z.eqb_eq, Z.ltb_ge, Z.leb_gt.
  rewrite (u32_small v) by done. zlia.
Qed.

Lemma flist_ext m m' r l :
  (forall p i, p ∈ l -> 0 <= i < 4 -> rd8 m' (p + i) = rd8 m (p + i)) ->
  flist m r l -> flist m' r l.
Proof.
  revert r. induction l as [|p l IH]; intros r Hm; cbn; [done|].
  intros [-> H]. split; [done|].
  rewrite (rd32_ext m' m) by (intros; apply Hm; [set_solver|done]).
  apply IH; [|done]. intros. apply Hm; [set_solver|done].
Qed.

Lemma kpage_nonzero p : kpage p -> p <> 0.
Proof. unfold kpage, KERNBASE. lia. Qed.

Lemma kpage_apart p q : kpage p -> kpage q -> p <> q -> p + 4096 <= q \/ q + 4096 <= p.
Proof. unfold kpage. zlia. Qed.

Lemma kpage_32 p : kpage p -> 0 <= p < 4294967296.
Proof. unfold kpage, KERNBASE, PHYSTOP. lia. Qed.

(** [kfree] in closed form on a good page. *)
Definition kfree_post (v : Z) (s : kst) : kst :=
  Kst (wr32 v (k_freelist s) (memset v 1 PGSIZE (k_mem s))) (k_use_lock s) v
      (i32 (k_freemems s + 1)) (k_held s).

Lemma kfree_eq v s :
  kfree_bad v = false -> Lkmem ∉ k_held s -> kfree v s = Done tt (kfree_post v s).
Proof.
  intros Hv Hh. unfold kfree. rewrite Hv.
  unfold mbind, M_bind, gets, modify, store32, kfree_post.
  destruct s as [m [] fl fm h]; cbn in *; [|done].
  rewrite acquire_free by done. cbn. by rewrite (release_top Lkmem h).
Qed.

(** The error branch: a bad address stops the kernel. *)
Lemma kfree_panics v s : kfree_bad v = true -> kfree v s = Panic "kfree".
Proof. intros Hv. unfold kfree. by rewrite Hv. Qed.

Definition kalloc_post (s : kst) : kst :=
  Kst (k_mem s) (k_use_lock s)
      (if truth (k_freelist s) then rd32 (k_mem s) (k_freelist s) else k_freelist s)
      (i32 (k_freemems s - 1)) (k_held s).

Lemma kalloc_eq s :
  Lkmem ∉ k_held s -> kalloc s = Done (k_freelist s) (kalloc_post s).
Proof.
  intros Hh. unfold kalloc, kalloc_post, mbind, M_bind, gets, modify, load32.
  destruct s as [m [] fl fm h]; cbn in *.
  - rewrite acquire_free by done. cbn. destruct (truth fl); cbn; by rewrite (release_top Lkmem h).
  - by destruct (truth fl).
Qed.

Lemma flist_kfree m r l v :
  kpage v -> Forall kpage l -> v ∉ l -> flist m r l ->
  flist (wr32 v r (memset v 1 PGSIZE m)) v (v :: l).
Proof.
  intros Hv Hl Hn Hm. cbn. split; [done|]. rewrite rd32_wr32_eq.
  assert (Hr : u32 r = r).
  { destruct l as [|p l]; cbn in Hm; [by subst|]. destruct Hm as [-> _].
    apply u32_small, kpage_32. by apply Forall_cons in Hl as [? _]. }
  rewrite Hr. eapply flist_ext; [|done]. intros p i Hp Hi.
  rewrite Forall_forall in Hl.
  assert (p <> v) by set_solver.
  destruct (kpage_apart p v) as [?|?]; auto;
    rewrite rd8_wr32_ne, rd8_memset by (unfold PGSIZE; lia);
    by rewrite decide_False by (unfold PGSIZE; lia).
Qed.

(** [kfree] pushes the page; [kalloc] pops the head. *)
Lemma kfree_spec s l v :
  kinv s l -> kpage v -> v ∉ l ->
  kfree v s = Done tt (kfree_post v s) /\ kinv (kfree_post v s) (v :: l).
Proof.
  intros [Hl Hn Hp Hh] Hv Hnin. split.
  - apply kfree_eq; [|done]. apply kfree_bad_false; [by apply kpage_32|done].
  - split; cbn; [|by constructor|by constructor|done].
    by apply flist_kfree.
Qed.

Lemma kalloc_spec s l :
  kinv s l ->
  kalloc s = Done (default 0 (head l)) (kalloc_post s) /\ kinv (kalloc_post s) (tail l).
Proof.
  intros [Hl Hn Hp Hh]. rewrite kalloc_eq by done.
  destruct l as [|p l]; cbn in *.
  - unfold kalloc_post. rewrite Hl. split; [done|]. by split.
  - destruct Hl as [E Hl]. apply Forall_cons in Hp as [Hp1 Hp].
    apply NoDup_cons in Hn as [Hnin Hn].
    unfold kalloc_post. rewrite E. split; [done|]. split; cbn; try done.
    unfold truth. pose proof (kpage_nonzero p Hp1) as H0.
    apply Z.eqb_neq in H0 as ->. done.
Qed.

(** ** Building the list at boot *)

Fixpoint pages (p : Z) (n : nat) : list Z :=
  match n with O => [] | S n' => p :: pages (p + 4096) n' end.

Lemma elem_of_pages p n q :
  q ∈ pages p n <-> exists i : Z, 0 <= i < Z.of_nat n /\ q = p + 4096 * i.
Proof.
  revert p. induction n as [|n IH]; intros p; cbn.
  - split; [set_solver|]. intros (i & ? & _). lia.
  - rewrite elem_of_cons, IH. split.
    + intros [->|(i & ? & ->)]; [exists 0|exists (i + 1)]; lia.
    + intros (i & ? & ->). destruct (decide (i = 0)) as [->|]; [left; lia|].
      right. exists (i - 1). lia.
Qed.

Lemma length_pages p n : length (pages p n) = n.
Proof. revert p. induction n as [|n IH]; intros p; cbn; [done|]. by rewrite IH. Qed.

Lemma NoDup_pages p n : NoDup (pages p n).
Proof.
  revert p. induction n as [|n IH]; intros p; cbn; [constructor|].
  constructor; [|apply IH]. rewrite elem_of_pages. intros (i & ? & ?). lia.
Qed.

Lemma freerange_body_done vend p s :
  vend < p + PGSIZE -> freerange_body vend p s = Done (inr tt) s.
Proof. intros. unfold freerange_body. by destruct (Z.leb_spec (p + PGSIZE) vend); [lia|]. Qed.

Lemma freerange_body_page vend p s l :
  p + PGSIZE <= vend -> kinv s l -> kpage p -> p ∉ l ->
  freerange_body vend p s = Done (inl (p + PGSIZE)) (kfree_post p s).
Proof.
  intros Hv Hk Hp Hn. unfold freerange_body. destruct (Z.leb_spec (p + PGSIZE) vend); [|lia].
  unfold mbind, M_bind. by destruct (kfree_spec s l p Hk Hp Hn) as [-> _].
Qed.

Lemma freerange_loop_spec n fuel vend p s l :
  (n < fuel)%nat ->
  p + 4096 * Z.of_nat n <= vend < p + 4096 * (Z.of_nat n + 1) ->
  kinv s l -> Forall kpage (pages p n) -> (forall q, q ∈ pages p n -> q ∉ l) ->
  i32 (k_freemems s) = k_freemems s ->
  exists s', loop fuel (freerange_body vend) p s = Done tt s'
    /\ kinv s' (reverse (pages p n) ++ l) /\ kframe s s'
    /\ k_freemems s' = i32 (k_freemems s + Z.of_nat n).
Proof.
  revert fuel p s l. induction n as [|n IH]; intros [|fuel] p s l Hf Hv Hk Hp Hd Hm;
    try lia; cbn [loop]; unfold mbind, M_bind.
  - rewrite freerange_body_done by (unfold PGSIZE; lia).
    exists s. by rewrite Z.add_0_r, Hm.
  - cbn [pages] in *. apply Forall_cons in Hp as [Hp1 Hp].
    rewrite (freerange_body_page _ _ _ l); [|unfold PGSIZE; lia|done|done|set_solver].
    destruct (kfree_spec s l p) as [_ Hk']; [done|done|set_solver|].
    destruct (IH fuel (p + PGSIZE) (kfree_post p s) (p :: l)) as (s' & E & H1 & H2 & H3);
      [lia|unfold PGSIZE; lia|done|done| |cbn; apply i32_idemp|].
    { intros q Hq. pose proof (proj1 (elem_of_pages _ _ _) Hq) as (i & Hi & ->).
      apply not_elem_of_cons. split; [unfold PGSIZE; lia|]. apply Hd. set_solver. }
    exists s'. split; [exact E|]. split.
    { rewrite reverse_cons, <- app_assoc. exact H1. }
    split; [exact H2|].
    rewrite H3. cbn. rewrite i32_add_l. f_equal. lia.
Qed.

(** The number of whole pages between two addresses. *)
Definition npages (vstart vend : Z) : nat :=
  Z.to_nat ((vend - PGROUNDUP vstart) `div` 4096).

Lemma freerange_spec vstart vend s l :
  kend <= PGROUNDUP vstart -> KERNBASE <= PGROUNDUP vstart <= vend ->
  vend <= KERNBASE + PHYSTOP -> kinv s l ->
  (forall q, q ∈ l -> ~ PGROUNDUP vstart <= q < vend) ->
  i32 (k_freemems s) = k_freemems s ->
  exists s', freerange vstart vend s = Done tt s'
    /\ kinv s' (reverse (pages (PGROUNDUP vstart) (npages vstart vend)) ++ l)
    /\ kframe s s'
    /\ k_freemems s' = i32 (k_freemems s + Z.of_nat (npages vstart vend)).
Proof.
  intros H1 H2 H3 Hk Hl Hm. pose proof (PGROUNDUP_aligned vstart) as Ha.
  unfold npages. set (p := PGROUNDUP vstart) in *.
  assert (Hn : Z.of_nat (Z.to_nat ((vend - p) `div` 4096)) = (vend - p) `div` 4096)
    by (apply Z2Nat.id; zlia).
  assert (Hin : forall q, q ∈ pages p (Z.to_nat ((vend - p) `div` 4096)) ->
    q `mod` 4096 = 0 /\ p <= q /\ q + 4096 <= vend).
  { intros q (i & Hi & ->)%elem_of_pages. rewrite Hn in Hi. zlia. }
  apply freerange_loop_spec; [| |done| | |done].
  - unfold PGSIZE, KERNBASE in *. zlia.
  - rewrite Hn. zlia.
  - apply Forall_forall. intros q Hq%Hin. unfold kpage. lia.
  - intros q Hq%Hin Hq'%Hl. lia.
Qed.

(** ** The abstract allocator: the set of free pages *)
Definition boot (s : kst) : outcome kst unit :=
  (kinit1 kend (P2V 4194304) ;; kinit2 (P2V 4194304) (P2V PHYSTOP)) s.

Lemma kinv_with_use_lock b s l : kinv s l -> kinv (upd_use_lock b s) l.
Proof. intros []. by split. Qed.

Lemma boot_spec s :
  KERNBASE <= kend <= KERNBASE + 4194304 ->
  k_freelist s = 0 -> k_freemems s = 0 -> k_held s = [] ->
  exists s' l, boot s = Done tt s' /\ kinv s' l
    /\ (forall p, p ∈ l <-> kpage p) /\ k_freemems s' = Z.of_nat (length l)
    /\ k_use_lock s' = true.
Proof.
  intros He Hf Hm Hh.
  assert (E4 : P2V 4194304 = KERNBASE + 4194304) by reflexivity.
  assert (ET : P2V PHYSTOP = KERNBASE + PHYSTOP) by reflexivity.
  assert (E4r : PGROUNDUP (KERNBASE + 4194304) = KERNBASE + 4194304) by reflexivity.
  destruct (PGROUNDUP_bounds kend) as [Hr1 _]; [unfold KERNBASE in *; lia|].
  pose proof (PGROUNDUP_aligned kend) as Hr2.
  assert (Hr3 : PGROUNDUP kend <= KERNBASE + 4194304) by (unfold KERNBASE in *; zlia).
  unfold boot, kinit1, kinit2. unfold mbind, M_bind, modify. rewrite E4, ET.
  destruct (freerange_spec kend (KERNBASE + 4194304) (upd_use_lock false s) [])
    as (s1 & -> & K1 & F1 & N1); [lia|lia|unfold KERNBASE, PHYSTOP; lia| |set_solver|cbn; by rewrite Hm|].
  { split; [done|constructor|constructor|]. cbn. rewrite Hh. set_solver. }
  rewrite app_nil_r in K1.
  edestruct (freerange_spec (KERNBASE + 4194304) (KERNBASE + PHYSTOP) s1)
    as (s2 & -> & K2 & F2 & N2); [rewrite E4r; lia|rewrite E4r; unfold PHYSTOP; lia|lia
      |exact K1| |rewrite N1; apply i32_idemp|].
  { intros q Hq. rewrite elem_of_reverse, elem_of_pages in Hq.
    destruct Hq as (i & Hi & ->). rewrite E4r. unfold npages in Hi. zlia. }
  eexists _, _. split; [done|]. split; [apply kinv_with_use_lock; exact K2|].
  split; [|split; [|done]].
  - intros p. rewrite elem_of_app, !elem_of_reverse, !elem_of_pages, E4r.
    unfold npages, kpage. rewrite E4r. split.
    + intros [(i & Hi & ->)|(i & Hi & ->)]; unfold KERNBASE, PHYSTOP in *; zlia.
    + intros (Hp1 & Hp2 & Hp3). destruct (decide (p < KERNBASE + 4194304)).
      * right. exists ((p - PGROUNDUP kend) `div` 4096). unfold KERNBASE in *. zlia.
      * left. exists ((p - (KERNBASE + 4194304)) `div` 4096). unfold KERNBASE, PHYSTOP in *. zlia.
  - cbn. rewrite length_app, !length_reverse, !length_pages, N2, N1. cbn. rewrite Hm, i32_add_l.
    unfold npages. rewrite E4r, i32_small; [lia|]. unfold KERNBASE, PHYSTOP in *. zlia.
Qed.
End kalloc.
