(* ===== verification/Vm.v ===== *)
(** * Virtual memory ([vm.c], the page-table part)

    Two-level page tables living in the byte memory, the page allocator behind
    them, and the routines that build, grow, shrink, copy and free an address
    space.  [walkpgdir] and [mappages] are the primitives; the section
    parameters are the linker symbols [end] and [data].  [loaduvm], which reads
    a file, is in [Exec.v]. *)
From S2P Require Import Prelude Layout Memory Locks Kalloc.

Section vm.
Variables kend kdata : Z.

(** [walkpgdir]: the address of the entry for [va], 0 when there is none. *)
Definition walkpgdir (pgdir va : Z) (alloc : bool) : M kst Z :=
  let pde := pgdir + 4 * PDX va in
  e ← load32 pde;
  if truth (e &&& PTE_P) then mret (P2V (PTE_ADDR e) + 4 * PTX va)
  else if negb alloc then mret 0
  else
    pgtab ← kalloc;
    if pgtab =? 0 then mret 0
    else
      modify (upd_mem (memset pgtab 0 PGSIZE)) ;;
      store32 pde (V2P pgtab ||| PTE_P ||| PTE_W ||| PTE_U) ;;
      mret (pgtab + 4 * PTX va).

Definition mappages_body (pgdir last perm : Z) (apa : Z * Z) : M kst (Z * Z + Z) :=
  let '(a, pa) := apa in
  pte ← walkpgdir pgdir a true;
  if pte =? 0 then mret (inr (-1))
  else
    e ← load32 pte;
    if truth (e &&& PTE_P) then panic "remap"
    else
      store32 pte (pa ||| perm ||| PTE_P) ;;
      if a =? last then mret (inr 0)
      else mret (inl (u32 (a + PGSIZE), u32 (pa + PGSIZE))).

(** The loop runs once per page from [a] to [last], around the address space
    if [last] precedes [a]. *)
Definition mappages (pgdir va size pa perm : Z) : M kst Z :=
  let a := PGROUNDDOWN (u32 va) in
  let last := PGROUNDDOWN (u32 (va + size - 1)) in
  loop (S (Z.to_nat (u32 (last - a) `div` PGSIZE)))
    (mappages_body pgdir last perm) (a, u32 pa).

(** [kmap]: virtual start, physical start and end, permissions. *)
Definition kmap : list (Z * Z * Z * Z) :=
  [ (KERNBASE, 0, EXTMEM, PTE_W);
    (KERNLINK, V2P KERNLINK, V2P kdata, 0);
    (kdata, V2P kdata, PHYSTOP, PTE_W);
    (DEVSPACE, DEVSPACE, 0, PTE_W) ].

Definition deallocuvm_body (pgdir oldsz : Z) (a : Z) : M kst (Z + unit) :=
  if negb (a <? oldsz) then mret (inr tt)
  else
    pte ← walkpgdir pgdir a false;
    if pte =? 0
    then mret (inl (u32 (u32 (PGADDR (PDX a + 1) 0 0 - PGSIZE) + PGSIZE)))
    else
      e ← load32 pte;
      when (truth (e &&& PTE_P))
        (let pa := PTE_ADDR e in
         (if pa =? 0 then panic "kfree" else mret tt) ;;
         kfree kend (P2V pa) ;;
         store32 pte 0) ;;
      mret (inl (u32 (a + PGSIZE))).

(** Each iteration advances [a] by at least one page below [oldsz]. *)
Definition deallocuvm (pgdir oldsz newsz : Z) : M kst Z :=
  if newsz >=? oldsz then mret oldsz
  else
    loop (S (Z.to_nat (oldsz `div` PGSIZE + 1))) (deallocuvm_body pgdir oldsz) (PGROUNDUP newsz) ;;
    mret newsz.

Definition freevm (pgdir : Z) : M kst unit :=
  if pgdir =? 0 then panic "freevm: no pgdir"
  else
    deallocuvm pgdir KERNBASE 0 ;;
    for_each (seqZ 0 NPDENTRIES) (fun i =>
      e ← load32 (pgdir + 4 * i);
      when (truth (e &&& PTE_P))
        (e ← load32 (pgdir + 4 * i); kfree kend (P2V (PTE_ADDR e)))) ;;
    kfree kend pgdir.

Definition setupkvm : M kst Z :=
  pgdir ← kalloc;
  if pgdir =? 0 then mret 0
  else
    modify (upd_mem (memset pgdir 0 PGSIZE)) ;;
    (if P2V PHYSTOP >? DEVSPACE then panic "PHYSTOP too high" else mret tt) ;;
    r ← for_ret kmap (fun k =>
      let '(virt, phys_start, phys_end, perm) := k in
      r ← mappages pgdir virt (u32 (phys_end - phys_start)) phys_start perm;
      if r <? 0 then freevm pgdir ;; mret (Some 0) else mret None);
    mret (default pgdir r).

Definition inituvm (pgdir init sz : Z) : M kst unit :=
  if sz >=? PGSIZE then panic "inituvm: more than a page"
  else
    mem ← kalloc;
    if mem =? 0 then undef "memset of a null page" else
    modify (upd_mem (memset mem 0 PGSIZE)) ;;
    mappages pgdir 0 PGSIZE (V2P mem) (PTE_W ||| PTE_U) ;;
    modify (upd_mem (memmove mem init sz)).

Definition allocuvm_body (pgdir oldsz newsz : Z) (a : Z) : M kst (Z + Z) :=
  if negb (a <? newsz) then mret (inr newsz)
  else
    mem ← kalloc;
    if mem =? 0 then
      deallocuvm pgdir newsz oldsz ;; mret (inr 0)
    else
      modify (upd_mem (memset mem 0 PGSIZE)) ;;
      r ← mappages pgdir a PGSIZE (V2P mem) (PTE_W ||| PTE_U);
      if r <? 0 then
        deallocuvm pgdir newsz oldsz ;; kfree kend mem ;; mret (inr 0)
      else mret (inl (u32 (a + PGSIZE))).

Definition allocuvm (pgdir oldsz newsz : Z) : M kst Z :=
  if newsz >=? KERNBASE then mret 0
  else if newsz <? oldsz then mret oldsz
  else loop (S (Z.to_nat (newsz `div` PGSIZE + 1))) (allocuvm_body pgdir oldsz newsz)
         (PGROUNDUP oldsz).

Definition clearpteu (pgdir uva : Z) : M kst unit :=
  pte ← walkpgdir pgdir uva false;
  if pte =? 0 then panic "clearpteu"
  else e ← load32 pte; store32 pte (e &&& Z.lnot PTE_U).

Definition copyuvm_body (pgdir sz d : Z) (i : Z) : M kst (Z + Z) :=
  if negb (i <? sz) then mret (inr d)
  else
    pte ← walkpgdir pgdir i false;
    if pte =? 0 then panic "copyuvm: pte should exist"
    else
      e ← load32 pte;
      if negb (truth (e &&& PTE_P)) then panic "copyuvm: page not present"
      else
        let pa := PTE_ADDR e in
        let flags := PTE_FLAGS e in
        mem ← kalloc;
        if mem =? 0 then freevm d ;; mret (inr 0)
        else
          modify (upd_mem (memmove mem (P2V pa) PGSIZE)) ;;
          r ← mappages d i PGSIZE (V2P mem) flags;
          if r <? 0 then kfree kend mem ;; freevm d ;; mret (inr 0)
          else mret (inl (u32 (i + PGSIZE))).

Definition copyuvm (pgdir sz : Z) : M kst Z :=
  d ← setupkvm;
  if d =? 0 then mret 0
  else loop (S (Z.to_nat (sz `div` PGSIZE + 1))) (copyuvm_body pgdir sz d) 0.

(** The entry is read without a null test in [uva2ka]. *)
Definition uva2ka (pgdir uva : Z) : M kst Z :=
  pte ← walkpgdir pgdir uva false;
  if pte =? 0 then undef "uva2ka: entry of a missing page table"
  else
    e ← load32 pte;
    if negb (truth (e &&& PTE_P)) then mret 0
    else if negb (truth (e &&& PTE_U)) then mret 0
    else mret (P2V (PTE_ADDR e)).

Definition copyout_body (pgdir : Z) (st : Z * Z * Z) : M kst (Z * Z * Z + Z) :=
  let '(va, buf, len) := st in
  if negb (len >? 0) then mret (inr 0)
  else
    let va0 := PGROUNDDOWN va in
    pa0 ← uva2ka pgdir va0;
    if pa0 =? 0 then mret (inr (-1))
    else
      let n := PGSIZE - (va - va0) in
      let n := if n >? len then len else n in
      modify (upd_mem (memmove (pa0 + (va - va0)) buf n)) ;;
      mret (inl (u32 (va0 + PGSIZE), buf + n, len - n)).

(** Every iteration but the first and the last copies a whole page. *)
Definition copyout (pgdir va p len : Z) : M kst Z :=
  loop (S (Z.to_nat (len `div` PGSIZE + 2))) (copyout_body pgdir) (va, p, len).
End vm.
