(* ===== verification/VmSpec.v ===== *)
(** * What the page-table routines do ([vm.c], theorems)

    The page table is read as a function from virtual addresses to entries
    ([pt_entry]); [ptwf] is the invariant that the directory and its tables are
    distinct pages that are not on the free list.  The theorems say that
    [walkpgdir] never changes an entry, that [mappages] installs exactly the
    requested ones, and what [allocuvm] and [copyout] build on top of that. *)
From S2P Require Import Prelude Layout Memory Locks Kalloc Vm.

Section vm_spec.
Variables kend kdata : Z.

Definition in_page (a p : Z) : Prop := p <= a < p + 4096.

(** The table installed at directory index [d]. *)
Definition pde_tab (m : mem) (pgdir d : Z) : option Z :=
  let e := rd32 m (pgdir + 4 * d) in
  if truth (e &&& PTE_P) then Some (P2V (PTE_ADDR e)) else None.

Definition pte_addr (m : mem) (pgdir va : Z) : option Z :=
  tab ← pde_tab m pgdir (PDX va); Some (tab + 4 * PTX va).

(** The entry for [va]; 0 (not present) when its table is missing. *)
Definition pt_entry (m : mem) (pgdir va : Z) : Z :=
  match pte_addr m pgdir va with Some a => rd32 m a | None => 0 end.

Definition present (e : Z) : Prop := Z.land e PTE_P <> 0.

Record ptwf (m : mem) (pgdir : Z) (l : list Z) : Prop := Ptwf {
  wf_dir : kpage kend pgdir;
  wf_dir_free : pgdir ∉ l;
  wf_tab : forall d tab, 0 <= d < 1024 -> pde_tab m pgdir d = Some tab ->
    kpage kend tab /\ tab <> pgdir /\ tab ∉ l;
  wf_inj : forall d1 d2 tab, 0 <= d1 < 1024 -> 0 <= d2 < 1024 ->
    pde_tab m pgdir d1 = Some tab -> pde_tab m pgdir d2 = Some tab -> d1 = d2 }.

(** One or more page-table operations on [pgdir]: pages move from the free
    list to the table, nothing outside the table and those pages changes. *)
Record ptstep (pgdir : Z) (s : kst) (l : list Z) (s' : kst) (l' : list Z) : Prop := Ptstep {
  ps_kinv : kinv kend s' l';
  ps_wf : ptwf (k_mem s') pgdir l';
  ps_suffix : exists new, l = new ++ l';
  ps_tabs : forall d tab, 0 <= d < 1024 ->
    pde_tab (k_mem s) pgdir d = Some tab -> pde_tab (k_mem s') pgdir d = Some tab;
  ps_new : forall d tab, 0 <= d < 1024 -> pde_tab (k_mem s') pgdir d = Some tab ->
    pde_tab (k_mem s) pgdir d = Some tab \/ tab ∈ l;
  ps_mem : forall a, ~ in_page a pgdir -> (forall p, p ∈ l -> ~ in_page a p) ->
    (forall d tab, 0 <= d < 1024 -> pde_tab (k_mem s) pgdir d = Some tab -> ~ in_page a tab) ->
    rd8 (k_mem s') a = rd8 (k_mem s) a;
  ps_frame : kframe s s' }.

Lemma ptstep_refl pgdir s l :
  kinv kend s l -> ptwf (k_mem s) pgdir l -> ptstep pgdir s l s l.
Proof. intros. split; try done; [by exists []|by left]. Qed.

Lemma ptstep_trans pgdir s1 l1 s2 l2 s3 l3 :
  ptstep pgdir s1 l1 s2 l2 -> ptstep pgdir s2 l2 s3 l3 -> ptstep pgdir s1 l1 s3 l3.
Proof.
  intros [K1 W1 [n1 E1] T1 N1 M1 F1] [K2 W2 [n2 E2] T2 N2 M2 F2]. split.
  - done.
  - done.
  - exists (n1 ++ n2). by rewrite E1, E2, app_assoc.
  - eauto.
  - intros d tab Hd H. destruct (N2 d tab Hd H) as [H'|H']; [eauto|].
    right. rewrite E1. set_solver.
  - intros a H1 H2 H3. rewrite M2, M1; [done|done|done|done|done| |].
    + intros p Hp. apply H2. rewrite E1. set_solver.
    + intros d tab Hd H. destruct (N1 d tab Hd H) as [H'|H']; [eauto|by apply H2].
  - destruct F1, F2. split; congruence.
Qed.

(** ** Bits of an entry *)
Lemma truth_present e : truth (e &&& PTE_P) = true <-> present e.
Proof. unfold truth, present. rewrite negb_true_iff, Z.eqb_neq. done. Qed.

Lemma truth_absent e : truth (e &&& PTE_P) = false <-> ~ present e.
Proof. unfold truth, present. rewrite negb_false_iff, Z.eqb_eq.
  destruct (Z.eq_dec (Z.land e PTE_P) 0); naive_solver. Qed.

Lemma land1 e : Z.land e PTE_P = e `mod` 2.
Proof. unfold PTE_P. change 1 with (Z.ones 1). by rewrite Z.land_ones by lia. Qed.

Lemma lor1 e : Z.lor e PTE_P = e - e `mod` 2 + 1.
Proof.
  pose proof (Z.add_lor_land e PTE_P) as H. rewrite land1 in H. unfold PTE_P in *. lia.
Qed.

Lemma present_lor e : present (Z.lor e PTE_P).
Proof. unfold present. rewrite land1, lor1. zlia. Qed.

Lemma pde_word q :
  kpage kend q ->
  let e := V2P q ||| PTE_P ||| PTE_W ||| PTE_U in
  present (u32 e) /\ P2V (PTE_ADDR (u32 e)) = q.
Proof.
  intros (Ha & _ & Hr). unfold KERNBASE, PHYSTOP in Hr. cbn zeta.
  assert (E : V2P q = q - 2147483648) by (unfold V2P, KERNBASE; zlia).
  rewrite E, <- !Z.lor_assoc. change (Z.lor PTE_P (Z.lor PTE_W PTE_U)) with 7.
  rewrite (lor_flags _ 7) by zlia. rewrite u32_small by lia.
  split; [unfold present; rewrite land1; zlia|].
  rewrite PTE_ADDR_eq. unfold P2V, KERNBASE. zlia.
Qed.

(** ** [walkpgdir] *)
Lemma tab_entry_apart m pgdir l d tab i j :
  ptwf m pgdir l -> 0 <= d < 1024 -> pde_tab m pgdir d = Some tab ->
  0 <= i < 1024 -> 0 <= j < 1024 ->
  tab + 4 * i + 4 <= pgdir + 4 * j \/ pgdir + 4 * j + 4 <= tab + 4 * i.
Proof.
  intros Hwf Hd Ht Hi Hj. destruct (wf_tab _ _ _ Hwf d tab Hd Ht) as (Hk & Hne & _).
  destruct (kpage_apart kend tab pgdir Hk (wf_dir _ _ _ Hwf) Hne); lia.
Qed.

Lemma walk_false pgdir va s :
  walkpgdir pgdir va false s = Done (default 0 (pte_addr (k_mem s) pgdir va)) s.
Proof.
  unfold walkpgdir, pte_addr, pde_tab, load32, mbind, M_bind, gets.
  by destruct (truth _).
Qed.

Lemma walk_true_found pgdir va pte s :
  pte_addr (k_mem s) pgdir va = Some pte -> walkpgdir pgdir va true s = Done pte s.
Proof.
  unfold walkpgdir, pte_addr, pde_tab, load32, mbind, M_bind, gets.
  destruct (truth _); cbn; [|done]. by intros [= ->].
Qed.

Definition install (pgdir va q : Z) (s : kst) : kst :=
  upd_mem (fun m => wr32 (pgdir + 4 * PDX va) (V2P q ||| PTE_P ||| PTE_W ||| PTE_U)
                      (memset q 0 PGSIZE m)) (kalloc_post s).

Lemma walk_true_new pgdir va s l :
  kinv kend s l -> pte_addr (k_mem s) pgdir va = None ->
  walkpgdir pgdir va true s
  = match l with
    | [] => Done 0 (kalloc_post s)
    | q :: _ => Done (q + 4 * PTX va) (install pgdir va q s)
    end.
Proof.
  intros Hk. unfold walkpgdir, pte_addr, pde_tab, load32.
  unfold mbind at 2, option_bind. unfold mbind, M_bind, gets.
  destruct (truth _) eqn:E; [done|]. intros _. cbn [negb].
  destruct (kalloc_spec kend s l Hk) as [-> _].
  destruct l as [|q l]; cbn; [done|].
  pose proof (kinv_pages _ _ _ Hk) as Hp. apply Forall_cons in Hp as [Hp _].
  pose proof (kpage_nonzero kend q Hp) as Hq. apply Z.eqb_neq in Hq as ->. done.
Qed.

Lemma kinv_upd_mem f s l :
  kinv kend s l ->
  (forall a p, p ∈ l -> in_page a p -> rd8 (f (k_mem s)) a = rd8 (k_mem s) a) ->
  kinv kend (upd_mem f s) l.
Proof.
  intros [Hl Hn Hp Hh] Hf. split; cbn; try done.
  eapply flist_ext; [|done]. intros p i Hpl Hi. apply (Hf _ p); [done|].
  unfold in_page. lia.
Qed.

Lemma rd32_same m m' a :
  (forall b, a <= b < a + 4 -> rd8 m' b = rd8 m b) -> rd32 m' a = rd32 m a.
Proof. intros H. apply rd32_ext. intros. apply H. lia. Qed.

Lemma kpages_disjoint a p q :
  kpage kend p -> kpage kend q -> p <> q -> in_page a p -> ~ in_page a q.
Proof.
  unfold in_page. intros Hp Hq Hne. destruct (kpage_apart kend p q Hp Hq Hne); lia.
Qed.

Section install.
Context (pgdir va q : Z) (l : list Z) (s : kst).
Hypothesis Hk : kinv kend s (q :: l).
Hypothesis Hwf : ptwf (k_mem s) pgdir (q :: l).
Hypothesis Hnone : pde_tab (k_mem s) pgdir (PDX va) = None.
Let m := k_mem s.
Let m' := k_mem (install pgdir va q s).

Let Hq : kpage kend q.
Proof. pose proof (kinv_pages _ _ _ Hk) as H. by apply Forall_cons in H as [? _]. Qed.
Let Hd : kpage kend pgdir.
Proof. exact (wf_dir _ _ _ Hwf). Qed.
Let Hne : q <> pgdir.
Proof. pose proof (wf_dir_free _ _ _ Hwf). set_solver. Qed.

Lemma install_rd8 a :
  ~ in_page a pgdir -> ~ in_page a q -> rd8 m' a = rd8 m a.
Proof.
  intros H1 H2. unfold m', install; cbn. pose proof (PDX_range va).
  rewrite rd8_wr32_ne by (unfold in_page in *; lia).
  rewrite rd8_memset by done. rewrite decide_False; [done|].
  unfold in_page, PGSIZE in *. lia.
Qed.

Lemma install_pde d :
  0 <= d < 1024 ->
  pde_tab m' pgdir d = if decide (d = PDX va) then Some q else pde_tab m pgdir d.
Proof.
  intros Hd'. unfold pde_tab. unfold m', install; cbn. pose proof (PDX_range va).
  destruct (decide (d = PDX va)) as [->|Hdne].
  - rewrite rd32_wr32_eq. destruct (pde_word q Hq) as [Hp1 Hp2].
    apply truth_present in Hp1 as ->. by rewrite Hp2.
  - rewrite rd32_wr32_ne by lia. rewrite rd32_memset_ne; [done|done|].
    destruct (kpage_apart kend q pgdir Hq Hd Hne); unfold PGSIZE; lia.
Qed.

Lemma install_tab_word d tab j :
  0 <= d < 1024 -> 0 <= j < 1024 -> pde_tab m pgdir d = Some tab ->
  rd32 m' (tab + 4 * j) = rd32 m (tab + 4 * j).
Proof.
  intros Hd' Hj Ht. destruct (wf_tab _ _ _ Hwf d tab Hd' Ht) as (Htk & Htne & Htf).
  apply rd32_same. intros b Hb. assert (in_page b tab) by (unfold in_page; lia).
  apply install_rd8; eapply kpages_disjoint; eauto. set_solver.
Qed.

Lemma install_new_word j : 0 <= j < 1024 -> rd32 m' (q + 4 * j) = 0.
Proof.
  intros Hj. unfold m', install; cbn. pose proof (PDX_range va).
  rewrite rd32_wr32_ne by (destruct (kpage_apart kend q pgdir Hq Hd Hne); lia).
  apply rd32_memset0; unfold PGSIZE; lia.
Qed.

Lemma install_entries va' : pt_entry m' pgdir va' = pt_entry m pgdir va'.
Proof.
  unfold pt_entry, pte_addr. rewrite install_pde by apply PDX_range.
  pose proof (PTX_range va').
  destruct (decide (PDX va' = PDX va)) as [->|]; cbn.
  - fold m in Hnone. rewrite Hnone. cbn. by apply install_new_word.
  - destruct (pde_tab m pgdir (PDX va')) eqn:E; cbn; [|done].
    apply (install_tab_word (PDX va')); [apply PDX_range|done|done].
Qed.

Lemma install_ptstep : ptstep pgdir s (q :: l) (install pgdir va q s) l.
Proof.
  pose proof (kinv_nodup _ _ _ Hk) as Hnd. apply NoDup_cons in Hnd as [Hql _].
  split.
  - apply kinv_upd_mem; [by destruct (kalloc_spec kend s (q :: l) Hk)|].
    intros a p Hp Ha. apply install_rd8;
      (eapply (kpages_disjoint a p); [|done| |done]).
    + pose proof (kinv_pages _ _ _ Hk) as H. rewrite Forall_forall in H. apply H. set_solver.
    + pose proof (wf_dir_free _ _ _ Hwf). set_solver.
    + pose proof (kinv_pages _ _ _ Hk) as H. rewrite Forall_forall in H. apply H. set_solver.
    + set_solver.
  - split.
    + exact Hd.
    + pose proof (wf_dir_free _ _ _ Hwf). set_solver.
    + intros d tab Hd'. fold m'. rewrite install_pde by done. case_decide.
      * intros [= <-]. split; [done|]. done.
      * intros Ht. destruct (wf_tab _ _ _ Hwf d tab Hd' Ht) as (? & ? & ?). set_solver.
    + intros d1 d2 tab Hd1 Hd2. fold m'. rewrite !install_pde by done.
      repeat case_decide; subst; try done.
      * intros [= <-] Ht. destruct (wf_tab _ _ _ Hwf d2 q Hd2 Ht) as (? & ? & ?). set_solver.
      * intros Ht [= <-]. destruct (wf_tab _ _ _ Hwf d1 q Hd1 Ht) as (? & ? & ?). set_solver.
      * by apply (wf_inj _ _ _ Hwf).
  - by exists [q].
  - intros d tab Hd' Ht. fold m'. rewrite install_pde by done.
    case_decide; [congruence|done].
  - intros d tab Hd'. fold m'. rewrite install_pde by done. case_decide; [|tauto].
    intros [= <-]. right. set_solver.
  - intros a H1 H2 _. apply install_rd8; [done|]. apply H2. set_solver.
  - done.
Qed.
End install.

(** ** Writing an entry *)
Definition same_page (va va' : Z) : Prop := u32 va `div` 4096 = u32 va' `div` 4096.

#[export] Instance same_page_dec va va' : Decision (same_page va va').
Proof. unfold same_page. apply _. Defined.

Lemma same_page_parts va va' : same_page va va' <-> PDX va = PDX va' /\ PTX va = PTX va'.
Proof. unfold same_page. rewrite !PDX_eq, !PTX_eq. split; zlia. Qed.

Section store.
Context (pgdir va v pte : Z) (l : list Z) (s : kst).
Hypothesis Hk : kinv kend s l.
Hypothesis Hwf : ptwf (k_mem s) pgdir l.
Hypothesis Hpte : pte_addr (k_mem s) pgdir va = Some pte.
Let m := k_mem s.
Let m' := wr32 pte v m.

Lemma pte_addr_inv va' a :
  pte_addr m pgdir va' = Some a ->
  exists tab, pde_tab m pgdir (PDX va') = Some tab /\ a = tab + 4 * PTX va'
    /\ kpage kend tab /\ tab <> pgdir /\ tab ∉ l.
Proof.
  unfold pte_addr. destruct (pde_tab m pgdir (PDX va')) as [tab|] eqn:E; cbn; [|done].
  intros [= <-]. exists tab. split; [done|]. split; [done|].
  apply (wf_tab _ _ _ Hwf (PDX va')); [apply PDX_range|done].
Qed.

Lemma store_pde d : 0 <= d < 1024 -> pde_tab m' pgdir d = pde_tab m pgdir d.
Proof.
  intros Hd. destruct (pte_addr_inv va pte Hpte) as (tab & Ht & -> & _).
  unfold pde_tab, m'. rewrite rd32_wr32_ne; [done|].
  destruct (tab_entry_apart m pgdir l (PDX va) tab (PTX va) d Hwf); auto using PDX_range, PTX_range.
Qed.

Lemma store_pte_addr va' : pte_addr m' pgdir va' = pte_addr m pgdir va'.
Proof. unfold pte_addr. by rewrite store_pde by apply PDX_range. Qed.

Lemma store_entries va' :
  pt_entry m' pgdir va' = if decide (same_page va va') then u32 v else pt_entry m pgdir va'.
Proof.
  unfold pt_entry. rewrite store_pte_addr.
  destruct (pte_addr_inv va pte Hpte) as (tab & Ht & E & Hk1 & _).
  destruct (pte_addr m pgdir va') as [a'|] eqn:Ea.
  - destruct (pte_addr_inv va' a' Ea) as (tab' & Ht' & E' & Hk2 & _).
    pose proof (PTX_range va). pose proof (PTX_range va').
    case_decide as Hs; rewrite same_page_parts in Hs; subst a' pte; unfold m'.
    + destruct Hs as [Hs1 Hs2]. rewrite Hs1 in Ht. assert (tab = tab') as -> by congruence.
      rewrite Hs2. apply rd32_wr32_eq.
    + apply rd32_wr32_ne. destruct (decide (tab = tab')) as [->|Hne].
      * assert (PDX va = PDX va')
          by (apply (wf_inj _ _ _ Hwf _ _ tab'); auto using PDX_range).
        assert (PTX va <> PTX va') by tauto. lia.
      * destruct (kpage_apart kend tab tab'); auto; lia.
  - case_decide as Hs; [|done]. rewrite same_page_parts in Hs. destruct Hs as [Hs1 _].
    unfold pte_addr in Ea. rewrite <- Hs1, Ht in Ea. done.
Qed.

Lemma store_ptstep : ptstep pgdir s l (upd_mem (wr32 pte v) s) l.
Proof.
  destruct (pte_addr_inv va pte Hpte) as (tab & Ht & E & Hk1 & Hne & Hf).
  pose proof (PTX_range va).
  assert (Hout : forall a, ~ in_page a tab -> rd8 m' a = rd8 m a).
  { intros a Ha. unfold m'. apply rd8_wr32_ne. unfold in_page in Ha. lia. }
  split.
  - apply kinv_upd_mem; [done|]. intros a p Hp Ha. apply Hout.
    apply (kpages_disjoint a p); [|done| |done]; [|set_solver].
    pose proof (kinv_pages _ _ _ Hk) as H1. rewrite Forall_forall in H1. by apply H1.
  - destruct Hwf as [W1 W2 W3 W4]. split; [done|done| |]; cbn; fold m m'.
    + intros d t Hd. rewrite store_pde by done. by apply W3.
    + intros d1 d2 t Hd1 Hd2. rewrite !store_pde by done. by apply W4.
  - by exists [].
  - intros d t Hd. cbn. fold m m'. by rewrite store_pde.
  - intros d t Hd. cbn. fold m m'. rewrite store_pde by done. tauto.
  - intros a H1 H2 H3. cbn. fold m m'. apply Hout. apply (H3 (PDX va)); [apply PDX_range|done].
  - done.
Qed.
End store.

(** [walkpgdir(.., 1)]: an entry, after which every entry reads as before,
    or no page left. *)
Lemma walk_true_spec pgdir va s l :
  kinv kend s l -> ptwf (k_mem s) pgdir l ->
  (exists pte s' l', walkpgdir pgdir va true s = Done pte s' /\ ptstep pgdir s l s' l'
     /\ pte_addr (k_mem s') pgdir va = Some pte /\ pte <> 0
     /\ forall va', pt_entry (k_mem s') pgdir va' = pt_entry (k_mem s) pgdir va')
  \/ (l = [] /\ walkpgdir pgdir va true s = Done 0 (kalloc_post s)
      /\ ptstep pgdir s [] (kalloc_post s) []).
Proof.
  intros Hk Hwf. destruct (pte_addr (k_mem s) pgdir va) as [pte|] eqn:E.
  - left. exists pte, s, l. split; [by apply walk_true_found|].
    split; [by apply ptstep_refl|]. split; [done|]. split; [|done].
    destruct (pte_addr_inv pgdir l s Hwf va pte E) as (tab & _ & -> & (_ & _ & ?) & _).
    pose proof (PTX_range va). unfold KERNBASE in *. lia.
  - pose proof (walk_true_new pgdir va s l Hk E) as Hw.
    destruct l as [|q l].
    + right. split; [done|]. split; [done|].
      destruct (kalloc_spec kend s [] Hk) as [_ Hk']. cbn in Hk'.
      split; [done|done|by exists []|done|by left|done|done].
    + left. assert (Hnone : pde_tab (k_mem s) pgdir (PDX va) = None).
      { unfold pte_addr in E. by destruct (pde_tab _ _ _). }
      pose proof (kinv_pages _ _ _ Hk) as Hp. apply Forall_cons in Hp as [Hp _].
      exists (q + 4 * PTX va), (install pgdir va q s), l.
      split; [done|]. split; [by apply install_ptstep|].
      split; [|split].
      * unfold pte_addr. rewrite (install_pde pgdir va q l s) by (done || apply PDX_range).
        by rewrite decide_True.
      * destruct Hp as (_ & _ & ?). pose proof (PTX_range va). unfold KERNBASE in *. lia.
      * intros va'. by apply (install_entries pgdir va q l s).
Qed.

(** ** [mappages] *)
Lemma same_page_aligned a va :
  a `mod` 4096 = 0 -> 0 <= a < 4294967296 -> 0 <= va < 4294967296 ->
  same_page a va <-> a <= va < a + 4096.
Proof. intros. unfold same_page. rewrite !u32_small by lia. zlia. Qed.

Definition mk_pte (pa perm : Z) : Z := u32 (pa ||| perm ||| PTE_P).

Lemma pt_entry_at m pgdir va pte :
  pte_addr m pgdir va = Some pte -> pt_entry m pgdir va = rd32 m pte.
Proof. unfold pt_entry. by intros ->. Qed.

Lemma mappages_body_spec pgdir last perm a pa s l :
  kinv kend s l -> ptwf (k_mem s) pgdir l -> ~ present (pt_entry (k_mem s) pgdir a) ->
  (exists s' l', mappages_body pgdir last perm (a, pa) s
      = Done (if a =? last then inr 0 else inl (u32 (a + PGSIZE), u32 (pa + PGSIZE))) s'
    /\ ptstep pgdir s l s' l'
    /\ forall va', pt_entry (k_mem s') pgdir va'
         = if decide (same_page a va') then mk_pte pa perm else pt_entry (k_mem s) pgdir va')
  \/ (l = [] /\ mappages_body pgdir last perm (a, pa) s = Done (inr (-1)) (kalloc_post s)
      /\ ptstep pgdir s [] (kalloc_post s) []).
Proof.
  intros Hk Hwf Hp. unfold mappages_body, mbind, M_bind.
  destruct (walk_true_spec pgdir a s l Hk Hwf)
    as [(pte & s1 & l1 & -> & Hst & Ha & Hnz & He)|(-> & -> & Hst)]; [left|by right].
  apply Z.eqb_neq in Hnz as ->. unfold load32, store32, gets, modify.
  rewrite <- (pt_entry_at _ pgdir a) by done. rewrite He.
  apply truth_absent in Hp as ->.
  exists (upd_mem (wr32 pte (pa ||| perm ||| PTE_P)) s1), l1.
  split; [by destruct (a =? last)|]. destruct Hst as [Hk1 Hwf1 ? ? ? ? ?]. split.
  - eapply ptstep_trans; [by split|]. by eapply store_ptstep.
  - intros va'. cbn. rewrite (store_entries pgdir a _ _ l1) by done. by rewrite He.
Qed.

(** A page already mapped is never overwritten: the kernel stops. *)
Lemma mappages_body_remap pgdir last perm a pa s :
  present (pt_entry (k_mem s) pgdir a) ->
  (forall pte, pte_addr (k_mem s) pgdir a = Some pte -> pte <> 0) ->
  mappages_body pgdir last perm (a, pa) s = Panic "remap".
Proof.
  intros Hp Hnz. unfold mappages_body, mbind, M_bind.
  destruct (pte_addr (k_mem s) pgdir a) as [pte|] eqn:E.
  - rewrite (walk_true_found pgdir a pte) by done.
    specialize (Hnz pte eq_refl). apply Z.eqb_neq in Hnz as ->.
    unfold load32, gets. rewrite <- (pt_entry_at _ pgdir a) by done.
    by apply truth_present in Hp as ->.
  - unfold pt_entry in Hp. rewrite E in Hp. by destruct Hp.
Qed.

Lemma mappages_loop pgdir perm last n : forall fuel a pa s l,
  last = a + 4096 * Z.of_nat n -> kinv kend s l -> ptwf (k_mem s) pgdir l ->
  a `mod` 4096 = 0 -> 0 <= a -> a + 4096 * Z.of_nat (S n) <= 4294967296 ->
  (n < fuel)%nat ->
  (forall va, a <= va < a + 4096 * Z.of_nat (S n) -> ~ present (pt_entry (k_mem s) pgdir va)) ->
  exists r k s' l',
    loop fuel (mappages_body pgdir last perm) (a, u32 pa) s = Done r s'
    /\ ptstep pgdir s l s' l'
    /\ (r = 0 /\ k = Z.of_nat (S n) \/ r = -1 /\ 0 <= k <= Z.of_nat n)
    /\ forall va, 0 <= va < 4294967296 ->
         pt_entry (k_mem s') pgdir va
         = if decide (a <= va < a + 4096 * k)
           then mk_pte (u32 (pa + (PGROUNDDOWN va - a))) perm
           else pt_entry (k_mem s) pgdir va.
Proof.
  induction n as [|n IH]; intros [|fuel] a pa s l Hla Hk Hwf Ha Ha0 Hb Hf Hnp; try lia;
    cbn [loop]; unfold mbind at 1, M_bind at 1;
    (destruct (mappages_body_spec pgdir last perm a (u32 pa) s l Hk Hwf)
       as [(s1 & l1 & -> & Hst & He)|(-> & -> & Hst)]; [apply Hnp; lia| |
      exists (-1), 0, (kalloc_post s), []; split; [done|]; split; [done|]; split; [lia|];
      intros va Hva; rewrite decide_False by lia; done]).
  - replace (a =? last) with true by lia.
    exists 0, 1, s1, l1. split; [done|]. split; [done|]. split; [lia|].
    intros va Hva. rewrite He, PGROUNDDOWN_eq. pose proof (same_page_aligned a va Ha ltac:(lia) Hva) as Hsp.
    repeat case_decide; rewrite ?Hsp in *; try done; try lia.
    f_equal. unfold u32. f_equal. zlia.
  - replace (a =? last) with false by lia.
    unfold PGSIZE in *. rewrite (u32_small (a + 4096)) by lia. rewrite u32_add_l.
    destruct (IH fuel (a + 4096) (pa + 4096) s1 l1) as (r & k & s2 & l2 & -> & Hst2 & Hr & He2);
      [lia|by destruct Hst|by destruct Hst|zlia|lia|lia|lia| |].
    { intros va Hva. rewrite He. rewrite decide_False; [apply Hnp; lia|].
      rewrite same_page_aligned; lia. }
    exists r, (k + 1), s2, l2. split; [done|]. split; [by eapply ptstep_trans|].
    split; [lia|]. intros va Hva. rewrite He2 by done. rewrite He, PGROUNDDOWN_eq.
    pose proof (same_page_aligned a va Ha ltac:(lia) Hva) as Hsp.
    repeat case_decide; rewrite ?Hsp in *; try done; try lia.
    + do 2 f_equal. lia.
    + f_equal. unfold u32. f_equal. zlia.
Qed.

Lemma mappages_spec pgdir va n pa perm s l :
  kinv kend s l -> ptwf (k_mem s) pgdir l ->
  va `mod` 4096 = 0 -> 0 <= va -> 0 < n -> va + 4096 * n <= 4294967296 ->
  (forall v, va <= v < va + 4096 * n -> ~ present (pt_entry (k_mem s) pgdir v)) ->
  exists r k s' l',
    mappages pgdir va (4096 * n) pa perm s = Done r s'
    /\ ptstep pgdir s l s' l' /\ (r = 0 /\ k = n \/ r = -1 /\ 0 <= k < n)
    /\ forall v, 0 <= v < 4294967296 ->
         pt_entry (k_mem s') pgdir v
         = if decide (va <= v < va + 4096 * k)
           then mk_pte (u32 (pa + (PGROUNDDOWN v - va))) perm
           else pt_entry (k_mem s) pgdir v.
Proof.
  intros Hk Hwf Ha H0 Hn Hb Hnp. unfold mappages.
  rewrite (u32_small va), (u32_small (va + 4096 * n - 1)) by lia.
  rewrite !PGROUNDDOWN_eq. replace (va - va `mod` 4096) with va by lia.
  replace (va + 4096 * n - 1 - (va + 4096 * n - 1) `mod` 4096) with (va + 4096 * (n - 1)) by zlia.
  rewrite u32_small by lia. unfold PGSIZE.
  replace ((va + 4096 * (n - 1) - va) `div` 4096) with (n - 1) by zlia.
  pose proof (Z2Nat.id (n - 1)).
  destruct (mappages_loop pgdir perm (va + 4096 * (n - 1)) (Z.to_nat (n - 1)) (S (Z.to_nat (n - 1))) va pa s l)
    as (r & k & s' & l' & E & Hst & Hr & He); [lia|done|done|done|done|lia|lia| |].
  { intros v Hv. apply Hnp. lia. }
  exists r, k, s', l'. split; [exact E|]. split; [done|]. split; [lia|done].
Qed.
End vm_spec.
