(* ===== verification/VmUser.v ===== *)
(** * User address spaces ([vm.c]: deallocuvm, and one page of allocuvm)

    [aspace s pgdir l]: the free list [l], the page table at [pgdir] and the
    frames its user entries name are pairwise distinct pages.  [deallocuvm]
    preserves it, gives every frame of the range back and clears its entry;
    [grow_page] is the step of [allocuvm] that maps one zeroed frame. *)
From S2P Require Import Prelude Layout Memory Locks Kalloc Vm VmSpec.

#[export] Instance present_dec e : Decision (present e).
Proof. unfold present. apply _. Defined.

Section vm_user.
Variables kend kdata : Z.
Hypothesis kend_above : KERNBASE < kend.

(** The kernel address of the page an entry names. *)
Definition frame (e : Z) : Z := P2V (PTE_ADDR e).

Record uwf (m : mem) (pgdir : Z) (l : list Z) : Prop := Uwf {
  uw_page : forall va, 0 <= va < KERNBASE -> present (pt_entry m pgdir va) ->
    kpage kend (frame (pt_entry m pgdir va));
  uw_free : forall va, 0 <= va < KERNBASE -> present (pt_entry m pgdir va) ->
    frame (pt_entry m pgdir va) ∉ l;
  uw_dir : forall va, 0 <= va < KERNBASE -> present (pt_entry m pgdir va) ->
    frame (pt_entry m pgdir va) <> pgdir;
  uw_tab : forall va d tab, 0 <= va < KERNBASE -> present (pt_entry m pgdir va) ->
    0 <= d < 1024 -> pde_tab m pgdir d = Some tab -> frame (pt_entry m pgdir va) <> tab;
  uw_inj : forall va va', 0 <= va < KERNBASE -> 0 <= va' < KERNBASE ->
    present (pt_entry m pgdir va) -> present (pt_entry m pgdir va') ->
    frame (pt_entry m pgdir va) = frame (pt_entry m pgdir va') -> same_page va va' }.

Record aspace (s : kst) (pgdir : Z) (l : list Z) : Prop := Aspace {
  as_kinv : kinv kend s l;
  as_ptwf : ptwf kend (k_mem s) pgdir l;
  as_uwf : uwf (k_mem s) pgdir l }.

(** Pages that belong neither to the free list nor to the page table. *)
Definition data_page (m : mem) (pgdir : Z) (l : list Z) (p : Z) : Prop :=
  kpage kend p /\ (p ∉ l) /\ p <> pgdir
  /\ (forall d tab, 0 <= d < 1024 -> pde_tab m pgdir d = Some tab -> p <> tab).

Lemma aspace_frame_data s pgdir l va :
  aspace s pgdir l -> 0 <= va < KERNBASE -> present (pt_entry (k_mem s) pgdir va) ->
  data_page (k_mem s) pgdir l (frame (pt_entry (k_mem s) pgdir va)).
Proof.
  intros [_ _ [U1 U2 U3 U4 _]] Hva Hp. split; [by apply U1|]. split; [by apply U2|].
  split; [by apply U3|]. intros d tab. by apply U4.
Qed.

Lemma ptstep_data pgdir s l s' l' p a :
  ptstep kend pgdir s l s' l' -> Forall (kpage kend) l ->
  ptwf kend (k_mem s) pgdir l ->
  data_page (k_mem s) pgdir l p -> in_page a p ->
  rd8 (k_mem s') a = rd8 (k_mem s) a.
Proof.
  intros Hst Hl Hwf (Hp & Hf & Hd & Ht) Ha. rewrite Forall_forall in Hl.
  apply (ps_mem _ _ _ _ _ _ Hst).
  - apply (kpages_disjoint kend a p); auto. apply (wf_dir _ _ _ _ Hwf).
  - intros q Hq. apply (kpages_disjoint kend a p); auto. set_solver.
  - intros d tab Hdd Htt. destruct (wf_tab _ _ _ _ Hwf d tab Hdd Htt) as (? & _).
    apply (kpages_disjoint kend a p); eauto.
Qed.

Lemma ptstep_data_page pgdir s l s' l' p :
  ptstep kend pgdir s l s' l' ->
  data_page (k_mem s) pgdir l p -> data_page (k_mem s') pgdir l' p.
Proof.
  intros Hst (Hp & Hf & Hd & Ht). destruct (ps_suffix _ _ _ _ _ _ Hst) as [new ->].
  split; [done|]. split; [set_solver|]. split; [done|].
  intros d tab Hdd Htt. destruct (ps_new _ _ _ _ _ _ Hst d tab Hdd Htt); [eauto|set_solver].
Qed.

(** The invariant survives page-table steps that keep the user entries. *)
Lemma uwf_ptstep pgdir s l s' l' :
  ptstep kend pgdir s l s' l' -> uwf (k_mem s) pgdir l ->
  (forall va, 0 <= va < KERNBASE ->
     pt_entry (k_mem s') pgdir va = pt_entry (k_mem s) pgdir va) ->
  uwf (k_mem s') pgdir l'.
Proof.
  intros Hst [U1 U2 U3 U4 U5] He.
  destruct (ps_suffix _ _ _ _ _ _ Hst) as [new Hs].
  split.
  - intros va Hva. rewrite He by done. by apply U1.
  - intros va Hva. rewrite He by done. intros Hp. specialize (U2 va Hva Hp). set_solver.
  - intros va Hva. rewrite He by done. by apply U3.
  - intros va d tab Hva. rewrite He by done. intros Hp Hd Ht.
    destruct (ps_new _ _ _ _ _ _ Hst d tab Hd Ht) as [?|Hin]; [by eapply U4|].
    intros E. apply (U2 va Hva Hp). by rewrite E.
  - intros va va' Hva Hva'. rewrite !He by done. by apply U5.
Qed.

(** ** Giving one page back *)
Lemma present_walk m pgdir va :
  present (pt_entry m pgdir va) -> exists pte, pte_addr m pgdir va = Some pte.
Proof. unfold pt_entry. destruct (pte_addr m pgdir va); [eauto|]. by intros []. Qed.

Section free_frame.
Context (pgdir a : Z) (l : list Z) (s : kst).
Hypothesis Has : aspace s pgdir l.
Hypothesis Ha : 0 <= a < KERNBASE.
Hypothesis Hpr : present (pt_entry (k_mem s) pgdir a).
Let f := frame (pt_entry (k_mem s) pgdir a).
Let s1 := kfree_post f s.

Let Hf : data_page (k_mem s) pgdir l f.
Proof. by apply aspace_frame_data. Qed.

Lemma free_other p b :
  kpage kend p -> p <> f -> in_page b p -> rd8 (k_mem s1) b = rd8 (k_mem s) b.
Proof.
  intros Hp Hne Hb. destruct Hf as (Hfp & _).
  pose proof (kpage_apart kend p f Hp Hfp Hne).
  unfold s1, kfree_post, in_page, PGSIZE in *; cbn.
  rewrite rd8_wr32_ne by lia. rewrite rd8_memset by lia. by rewrite decide_False by lia.
Qed.

Lemma free_word p i :
  kpage kend p -> p <> f -> 0 <= i < 1024 ->
  rd32 (k_mem s1) (p + 4 * i) = rd32 (k_mem s) (p + 4 * i).
Proof.
  intros Hp Hne Hi. apply rd32_same. intros b Hb. apply (free_other p); auto.
  unfold in_page. lia.
Qed.

Lemma free_pde d : 0 <= d < 1024 -> pde_tab (k_mem s1) pgdir d = pde_tab (k_mem s) pgdir d.
Proof.
  intros Hd. destruct Hf as (_ & _ & Hne & _). unfold pde_tab.
  rewrite free_word; [done| |done|done]. apply (wf_dir _ _ _ _ (as_ptwf _ _ _ Has)).
Qed.

Lemma free_entry va : pt_entry (k_mem s1) pgdir va = pt_entry (k_mem s) pgdir va.
Proof.
  unfold pt_entry, pte_addr. rewrite free_pde by apply PDX_range.
  destruct (pde_tab _ _ _) as [tab|] eqn:E; cbn; [|done].
  destruct (wf_tab _ _ _ _ (as_ptwf _ _ _ Has) (PDX va) tab) as (Hk & _);
    [apply PDX_range|done|].
  apply free_word; [done| |apply PTX_range].
  destruct Hf as (_ & _ & _ & Hne). intros ->. by apply (Hne (PDX va) f (PDX_range va)).
Qed.

Lemma free_kfree : kfree kend f s = Done tt s1 /\ kinv kend s1 (f :: l).
Proof. destruct Hf as (? & ? & _). by apply (kfree_spec kend s l f (as_kinv _ _ _ Has)). Qed.

Lemma free_ptwf : ptwf kend (k_mem s1) pgdir (f :: l).
Proof.
  destruct (as_ptwf _ _ _ Has) as [W1 W2 W3 W4]. destruct Hf as (F1 & F2 & F3 & F4).
  split; [done|set_solver| |].
  - intros d tab Hd. rewrite free_pde by done. intros Ht.
    destruct (W3 d tab Hd Ht) as (? & ? & ?). specialize (F4 d tab Hd Ht). set_solver.
  - intros d1 d2 tab Hd1 Hd2. rewrite !free_pde by done. by apply W4.
Qed.
End free_frame.

(** One iteration of [deallocuvm] on a mapped page. *)
Lemma dealloc_mapped pgdir oldsz a s l :
  aspace s pgdir l -> 0 <= a < KERNBASE -> a < oldsz ->
  present (pt_entry (k_mem s) pgdir a) ->
  let f := frame (pt_entry (k_mem s) pgdir a) in
  exists s', deallocuvm_body kend pgdir oldsz a s = Done (inl (u32 (a + PGSIZE))) s'
    /\ aspace s' pgdir (f :: l) /\ kframe s s'
    /\ (forall va, pt_entry (k_mem s') pgdir va
          = if decide (same_page a va) then 0 else pt_entry (k_mem s) pgdir va)
    /\ (forall p b, data_page (k_mem s) pgdir l p -> p <> f -> in_page b p ->
          rd8 (k_mem s') b = rd8 (k_mem s) b)
    /\ (forall p, data_page (k_mem s) pgdir l p -> p <> f ->
          data_page (k_mem s') pgdir (f :: l) p).
Proof.
  intros Has Ha Hlt Hpr f.
  destruct (free_kfree pgdir a l s Has Ha Hpr) as [Ekf Hk1].
  pose proof (free_ptwf pgdir a l s Has Ha Hpr) as Hwf1.
  destruct (present_walk _ _ _ Hpr) as [pte Hpte].
  destruct (pte_addr_inv kend pgdir l s (as_ptwf _ _ _ Has) a pte Hpte)
    as (tab & Htab & Epte & Htk & _).
  assert (Hnz : pte <> 0).
  { subst pte. destruct Htk as (_ & _ & ?). pose proof (PTX_range a). unfold KERNBASE in *. lia. }
  fold f in Ekf, Hk1, Hwf1. set (s1 := kfree_post f s) in *.
  assert (Hpte1 : pte_addr (k_mem s1) pgdir a = Some pte).
  { rewrite <- Hpte. unfold pte_addr. unfold s1, f.
    by rewrite (free_pde pgdir a l s) by (done || apply PDX_range). }
  set (s2 := upd_mem (wr32 pte 0) s1).
  pose proof (store_ptstep kend pgdir a 0 pte (f :: l) s1 Hk1 Hwf1 Hpte1) as Hst.
  assert (He : forall va, pt_entry (k_mem s2) pgdir va
     = if decide (same_page a va) then 0 else pt_entry (k_mem s) pgdir va).
  { intros va. change (k_mem s2) with (wr32 pte 0 (k_mem s1)).
    rewrite (store_entries kend pgdir a 0 pte (f :: l)) by done.
    by rewrite (free_entry pgdir a l s). }
  assert (Hdp : forall p, data_page (k_mem s) pgdir l p -> p <> f ->
     data_page (k_mem s1) pgdir (f :: l) p).
  { intros p (P1 & P2 & P3 & P4) Hne. split; [done|]. split; [set_solver|]. split; [done|].
    intros d t Hd. unfold s1, f. rewrite (free_pde pgdir a l s) by done. by apply P4. }
  exists s2. split; [|split; [|split; [|split; [|split]]]].
  - unfold deallocuvm_body. replace (a <? oldsz) with true by lia. cbn [negb].
    unfold mbind, M_bind. rewrite walk_false, Hpte. change (default 0 (Some pte)) with pte.
    apply Z.eqb_neq in Hnz as ->. unfold load32, gets.
    rewrite <- (pt_entry_at _ pgdir a) by done.
    apply truth_present in Hpr as Htr. rewrite Htr. cbn [when].
    assert (Hpa : PTE_ADDR (pt_entry (k_mem s) pgdir a) <> 0).
    { pose proof (aspace_frame_data _ _ _ _ Has Ha Hpr) as ((_ & Hlow & _) & _).
      unfold frame in Hlow. intros E. rewrite E in Hlow.
      change (P2V 0) with KERNBASE in Hlow. lia. }
    apply Z.eqb_neq in Hpa as ->. fold (frame (pt_entry (k_mem s) pgdir a)). fold f.
    unfold mret, M_ret. by rewrite Ekf.
  - split; [by destruct Hst|by destruct Hst|].
    destruct (as_uwf _ _ _ Has) as [U1 U2 U3 U4 U5].
    split.
    + intros va Hva. rewrite He. case_decide; [by intros []|]. by apply U1.
    + intros va Hva. rewrite He. case_decide as Hs; [by intros []|]. intros Hp.
      apply not_elem_of_cons. split; [|by apply U2]. intros E. apply Hs.
      symmetry in E. by apply U5.
    + intros va Hva. rewrite He. case_decide; [by intros []|]. by apply U3.
    + intros va d t Hva. rewrite He. case_decide; [by intros []|]. intros Hp Hd Ht.
      apply (U4 va d); [done|done|done|]. rewrite <- (free_pde pgdir a l s) by done.
      by rewrite <- (store_pde kend pgdir a 0 pte (f :: l) s1).
    + intros va va' Hva Hva'. rewrite !He. repeat case_decide; try by intros [].
      * by intros _ [].
      * by apply U5.
  - by split.
  - exact He.
  - intros p b Hp Hne Hb. transitivity (rd8 (k_mem s1) b).
    + apply (ptstep_data pgdir s1 (f :: l) s2 (f :: l) p b Hst); [|done|by apply Hdp|done].
      by apply (kinv_pages _ _ _ Hk1).
    + apply (free_other pgdir a l s Has Ha Hpr p); [|done|done]. by destruct Hp.
  - intros p Hp Hne. eapply ptstep_data_page; [exact Hst|]. by apply Hdp.
Qed.

(** ** [deallocuvm] *)

(** The pages the loop visits from the page boundary [a] up. *)
Definition visited (a oldsz va : Z) : Prop := a <= PGROUNDDOWN va /\ PGROUNDDOWN va < oldsz.
#[export] Instance visited_dec a oldsz va : Decision (visited a oldsz va).
Proof. unfold visited. apply _. Defined.

(** What [deallocuvm] leaves of the entry of [va]. *)
Definition cleared (m : mem) (pgdir a oldsz va : Z) : Z :=
  if decide (visited a oldsz va /\ present (pt_entry m pgdir va)) then 0
  else pt_entry m pgdir va.

Record dealloc_post (pgdir a oldsz : Z) (s : kst) (l : list Z) (s' : kst) (freed : list Z)
  : Prop := DeallocPost {
  dp_aspace : aspace s' pgdir (freed ++ l);
  dp_frame : kframe s s';
  dp_entry : forall va, 0 <= va < KERNBASE ->
    pt_entry (k_mem s') pgdir va = cleared (k_mem s) pgdir a oldsz va;
  dp_freed : forall f, f ∈ freed <->
    exists va, 0 <= va < KERNBASE /\ visited a oldsz va
      /\ present (pt_entry (k_mem s) pgdir va) /\ f = frame (pt_entry (k_mem s) pgdir va);
  dp_data : forall p b, data_page (k_mem s) pgdir l p -> p ∉ freed -> in_page b p ->
    rd8 (k_mem s') b = rd8 (k_mem s) b;
  dp_page : forall p, data_page (k_mem s) pgdir l p -> p ∉ freed ->
    data_page (k_mem s') pgdir (freed ++ l) p }.

Lemma dealloc_none pgdir a a' oldsz s l s' freed :
  a <= a' ->
  (forall va, 0 <= va < KERNBASE -> visited a oldsz va -> ~ visited a' oldsz va ->
     ~ present (pt_entry (k_mem s) pgdir va)) ->
  dealloc_post pgdir a' oldsz s l s' freed -> dealloc_post pgdir a oldsz s l s' freed.
Proof.
  intros Hle Hno [D1 D2 D3 D4 D5 D6]. split; try done.
  - intros va Hva. rewrite D3 by done. unfold cleared.
    repeat case_decide; try done.
    + destruct H0. unfold visited in *. destruct H. split; [lia|done].
    + destruct H0 as [Hv Hp]. exfalso. apply (Hno va); [done|done| |done]. tauto.
  - intros f. rewrite D4. split; intros (va & Hva & Hv & Hp & E); exists va.
    + split; [done|]. split; [unfold visited in *; lia|done].
    + split; [done|]. split; [|done].
      destruct (decide (visited a' oldsz va)); [done|]. by destruct (Hno va).
Qed.

Lemma same_page_down a va :
  a `mod` 4096 = 0 -> 0 <= a < 4294967296 -> 0 <= va < 4294967296 ->
  same_page a va <-> PGROUNDDOWN va = a.
Proof. intros. rewrite same_page_aligned, PGROUNDDOWN_eq by done. zlia. Qed.

Lemma dealloc_cons pgdir a oldsz s l s1 s' freed :
  aspace s pgdir l -> 0 <= a < KERNBASE -> a `mod` 4096 = 0 -> a < oldsz ->
  present (pt_entry (k_mem s) pgdir a) ->
  let f := frame (pt_entry (k_mem s) pgdir a) in
  kframe s s1 ->
  (forall va, pt_entry (k_mem s1) pgdir va
     = if decide (same_page a va) then 0 else pt_entry (k_mem s) pgdir va) ->
  (forall p b, data_page (k_mem s) pgdir l p -> p <> f -> in_page b p ->
     rd8 (k_mem s1) b = rd8 (k_mem s) b) ->
  (forall p, data_page (k_mem s) pgdir l p -> p <> f ->
     data_page (k_mem s1) pgdir (f :: l) p) ->
  dealloc_post pgdir (a + 4096) oldsz s1 (f :: l) s' freed ->
  dealloc_post pgdir a oldsz s l s' (freed ++ [f]).
Proof.
  intros Has Ha Ham Hlt Hpr f [F1 F2] He Hd Hdp [D1 [D2 D2'] D3 D4 D5 D6].
  assert (Hsp : forall va, 0 <= va < KERNBASE -> same_page a va <-> PGROUNDDOWN va = a).
  { intros va Hva. unfold KERNBASE in *. apply same_page_down; lia. }
  assert (Hal : forall va, a <= PGROUNDDOWN va -> PGROUNDDOWN va <> a -> a + 4096 <= PGROUNDDOWN va).
  { intros va. rewrite PGROUNDDOWN_eq. zlia. }
  split.
  - by rewrite <- app_assoc.
  - split; congruence.
  - intros va Hva. rewrite D3 by done. unfold cleared. rewrite He.
    specialize (Hsp va Hva). specialize (Hal va). unfold visited.
    destruct (decide (same_page a va)) as [Hs|Hs]; rewrite Hsp in Hs.
    + rewrite decide_False by (intros [_ []]; done).
      assert (E : pt_entry (k_mem s) pgdir va = pt_entry (k_mem s) pgdir a).
      { apply Hsp in Hs. apply same_page_parts in Hs as [E1 E2].
        unfold pt_entry, pte_addr. by rewrite E1, E2. }
      rewrite E. rewrite decide_True; [done|]. split; [lia|done].
    + repeat case_decide; try done; exfalso; naive_solver lia.
  - intros g. rewrite elem_of_app, list_elem_of_singleton, D4. split.
    + intros [(va & Hva & Hv & Hp & ->) | ->].
      * exists va. rewrite He in *. case_decide; [by destruct Hp|].
        unfold visited in *. split; [done|]. split; [lia|done].
      * exists a. split; [done|]. split; [|done].
        unfold visited. rewrite PGROUNDDOWN_aligned_id by done. lia.
    + intros (va & Hva & Hv & Hp & ->). destruct (decide (same_page a va)) as [Hs|Hs].
      * right. unfold f. apply same_page_parts in Hs as [E1 E2].
        unfold pt_entry, pte_addr. by rewrite E1, E2.
      * left. exists va. rewrite He, decide_False by done.
        split; [done|]. split; [|done]. rewrite Hsp in Hs by done.
        unfold visited in *. split; [apply Hal|]; tauto.
  - intros p b Hp [Hn1 Hn2]%not_elem_of_app Hb.
    assert (p <> f) by set_solver.
    rewrite (D5 p b (Hdp p Hp H) Hn1 Hb). by apply (Hd p b).
  - intros p Hp [Hn1 Hn2]%not_elem_of_app. assert (p <> f) by set_solver.
    rewrite <- app_assoc. by apply D6; [apply Hdp|].
Qed.

Lemma dealloc_loop pgdir oldsz fuel : forall a s l,
  aspace s pgdir l -> 0 <= a -> a `mod` 4096 = 0 -> oldsz <= KERNBASE ->
  oldsz - a <= 4096 * (Z.of_nat fuel - 1) -> (1 <= fuel)%nat ->
  exists s' freed, loop fuel (deallocuvm_body kend pgdir oldsz) a s = Done tt s'
    /\ dealloc_post pgdir a oldsz s l s' freed.
Proof.
  induction fuel as [|fuel IH]; intros a s l Has Ha Ham Ho Hf H1; [lia|].
  cbn [loop]. unfold mbind at 1, M_bind at 1.
  destruct (decide (a < oldsz)) as [Hlt|Hge].
  2:{ exists s, []. split.
      - unfold deallocuvm_body. by replace (a <? oldsz) with false by lia.
      - split; try done.
        + intros va Hva. unfold cleared. rewrite decide_False; [done|].
          unfold visited. lia.
        + intros f. split; [set_solver|]. intros (va & _ & Hv & _). unfold visited in Hv. lia. }
  assert (Ha' : 0 <= a < KERNBASE) by lia. unfold KERNBASE in *.
  destruct (decide (present (pt_entry (k_mem s) pgdir a))) as [Hpr|Hpr].
  - destruct (dealloc_mapped pgdir oldsz a s l Has Ha' Hlt Hpr)
      as (s1 & -> & Has1 & Hfr & He & Hd & Hdp).
    unfold PGSIZE. rewrite u32_small by lia.
    destruct (IH (a + 4096) s1 _ Has1) as (s' & freed & -> & Hpost); [lia|zlia|lia|lia|lia|].
    eexists _, _. split; [done|]. by eapply dealloc_cons.
  - pose proof (PTX_range a). unfold deallocuvm_body at 1.
    replace (a <? oldsz) with true by lia. cbn [negb].
    unfold mbind, M_bind. rewrite walk_false.
    destruct (pte_addr (k_mem s) pgdir a) as [pte|] eqn:E.
    + change (default 0 (Some pte)) with pte.
      destruct (pte_addr_inv kend pgdir l s (as_ptwf _ _ _ Has) a pte E)
        as (tab & _ & Epte & (_ & _ & Hk) & _).
      assert (Hnz : pte <> 0) by (clear -Hk Epte H; unfold KERNBASE in *; lia).
      apply Z.eqb_neq in Hnz as ->. unfold load32, gets.
      rewrite <- (pt_entry_at _ pgdir a) by done.
      apply truth_absent in Hpr as Htr. rewrite Htr. cbn [when]. unfold mret, M_ret.
      unfold PGSIZE. rewrite u32_small by lia.
      destruct (IH (a + 4096) s l Has) as (s' & freed & -> & Hpost); [lia|zlia|lia|lia|lia|].
      exists s', freed. split; [done|]. eapply dealloc_none; [|  |exact Hpost]; [lia|].
      intros va Hva Hv Hnv. unfold KERNBASE in Hva. assert (PGROUNDDOWN va = a) as Hs.
      { unfold visited in *. rewrite PGROUNDDOWN_eq in *. zlia. }
      apply same_page_down in Hs; [|done|lia|lia].
      apply same_page_parts in Hs as [E1 E2]. unfold pt_entry, pte_addr in *.
      by rewrite <- E1, <- E2.
    + cbn [default Z.eqb]. unfold mret, M_ret. unfold PGSIZE.
      set (a' := (PDX a + 1) * 4194304).
      assert (HPDX : 0 <= PDX a < 512) by (rewrite PDX_eq; zlia).
      assert (Ea : u32 (u32 (PGADDR (PDX a + 1) 0 0 - 4096) + 4096) = a').
      { rewrite PGADDR_eq, u32_add_l by lia. unfold a'. rewrite u32_small; lia. }
      rewrite Ea.
      assert (Ha2 : a + 4096 <= a') by (unfold a'; rewrite PDX_eq, u32_small by lia; zlia).
      destruct (IH a' s l Has) as (s' & freed & -> & Hpost);
        [unfold a'; lia|unfold a'; zlia|lia|lia|lia|].
      exists s', freed. split; [done|]. eapply dealloc_none; [|  |exact Hpost]; [lia|].
      intros va Hva Hv Hnv. unfold KERNBASE in Hva. unfold pt_entry, pte_addr in *.
      assert (PDX va = PDX a) as ->.
      { unfold visited, a' in *. rewrite PGROUNDDOWN_eq, !PDX_eq, !u32_small in * by lia. zlia. }
      destruct (pde_tab _ _ _); [done|]. cbn. by intros [].
Qed.

(** [deallocuvm]: the mapped pages wholly above the new size go back to the
    free list, their entries are cleared, everything else is kept. *)
Lemma deallocuvm_spec pgdir oldsz newsz s l :
  aspace s pgdir l -> 0 <= newsz < oldsz -> oldsz <= KERNBASE ->
  exists s' freed, deallocuvm kend pgdir oldsz newsz s = Done newsz s'
    /\ dealloc_post pgdir (PGROUNDUP newsz) oldsz s l s' freed.
Proof.
  intros Has Hn Ho. unfold deallocuvm. rewrite Z.geb_leb.
  replace (oldsz <=? newsz) with false by lia.
  destruct (PGROUNDUP_bounds newsz) as [? _]; [unfold KERNBASE in *; lia|].
  destruct (dealloc_loop pgdir oldsz (S (Z.to_nat (oldsz `div` PGSIZE + 1)))
    (PGROUNDUP newsz) s l Has) as (s' & freed & E & Hpost);
    [lia|apply PGROUNDUP_aligned|lia|unfold PGSIZE; zlia|lia|].
  exists s', freed. split; [|done]. unfold mbind, M_bind. by rewrite E.
Qed.

(** ** Changes of memory outside the page table *)
Definition table_page (m : mem) (pgdir p : Z) : Prop :=
  p = pgdir \/ exists d, 0 <= d < 1024 /\ pde_tab m pgdir d = Some p.

Section outside.
Context (pgdir : Z) (m m' : mem) (l : list Z).
Hypothesis Hwf : ptwf kend m pgdir l.
Hypothesis Hsame : forall p b, table_page m pgdir p -> in_page b p -> rd8 m' b = rd8 m b.

Lemma outside_word p i :
  table_page m pgdir p -> 0 <= i < 1024 -> rd32 m' (p + 4 * i) = rd32 m (p + 4 * i).
Proof. intros Hp Hi. apply rd32_same. intros b Hb. apply (Hsame p); [done|].
  unfold in_page. lia. Qed.

Lemma outside_pde d : 0 <= d < 1024 -> pde_tab m' pgdir d = pde_tab m pgdir d.
Proof. intros Hd. unfold pde_tab. rewrite outside_word; [done|by left|done]. Qed.

Lemma outside_entry va : pt_entry m' pgdir va = pt_entry m pgdir va.
Proof.
  unfold pt_entry, pte_addr. rewrite outside_pde by apply PDX_range.
  destruct (pde_tab m pgdir (PDX va)) as [tab|] eqn:E; cbn; [|done].
  apply outside_word; [|apply PTX_range]. right. exists (PDX va). eauto using PDX_range.
Qed.

Lemma outside_ptwf l' : (forall x, x ∈ l' -> x ∈ l) -> ptwf kend m' pgdir l'.
Proof.
  intros Hl. destruct Hwf as [W1 W2 W3 W4]. split; [done|by intros ?%Hl| |].
  - intros d tab Hd. rewrite outside_pde by done. intros Ht.
    destruct (W3 d tab Hd Ht) as (? & ? & ?). naive_solver.
  - intros d1 d2 tab Hd1 Hd2. rewrite !outside_pde by done. by apply W4.
Qed.

Lemma outside_data l' p :
  (forall x, x ∈ l' -> x ∈ l) -> data_page m pgdir l p -> data_page m' pgdir l' p.
Proof.
  intros Hl (P1 & P2 & P3 & P4). split; [done|]. split; [naive_solver|]. split; [done|].
  intros d tab Hd. rewrite outside_pde by done. by apply P4.
Qed.
End outside.

Lemma frame_mk_pte q perm :
  kpage kend q -> 0 <= perm < 4096 ->
  frame (mk_pte (V2P q) perm) = q /\ present (mk_pte (V2P q) perm)
  /\ PTE_FLAGS (mk_pte (V2P q) perm) = Z.lor perm PTE_P.
Proof.
  intros (Ha & _ & Hr) Hp. unfold KERNBASE, PHYSTOP in Hr.
  assert (E : V2P q = q - 2147483648) by (unfold V2P, KERNBASE; zlia).
  unfold mk_pte, frame. rewrite <- Z.lor_assoc.
  assert (Hf : 0 <= Z.lor perm PTE_P < 4096) by (rewrite lor1; zlia).
  rewrite E, PTE_ADDR_eq, PTE_FLAGS_eq, u32_idemp, lor_flags by zlia.
  split; [unfold P2V, KERNBASE; zlia|]. split; [|zlia].
  unfold present. rewrite land1, lor1 in *. zlia.
Qed.

(** ** One page of [allocuvm] *)
Record grown (pgdir a q : Z) (s : kst) (l : list Z) (r : Z) (s2 : kst) (l2 : list Z) : Prop :=
  Grown {
  gr_aspace : aspace s2 pgdir l2;
  gr_frame : kframe s s2;
  gr_sub : forall x, x ∈ l2 -> x ∈ l;
  gr_data : forall p b, data_page (k_mem s) pgdir (q :: l) p -> in_page b p ->
    rd8 (k_mem s2) b = rd8 (k_mem s) b;
  gr_page : forall p, data_page (k_mem s) pgdir (q :: l) p -> data_page (k_mem s2) pgdir l2 p;
  gr_new : data_page (k_mem s2) pgdir l2 q;
  gr_zero : forall b, in_page b q -> rd8 (k_mem s2) b = 0;
  gr_res : r = 0 \/ r = -1;
  gr_entry : forall va, 0 <= va < KERNBASE ->
    pt_entry (k_mem s2) pgdir va
    = if decide (r = 0 /\ same_page a va) then mk_pte (V2P q) (PTE_W ||| PTE_U)
      else pt_entry (k_mem s) pgdir va;
  gr_unmapped : r = -1 -> forall va, 0 <= va < KERNBASE ->
    present (pt_entry (k_mem s2) pgdir va) -> frame (pt_entry (k_mem s2) pgdir va) <> q }.

(** The address space when a free page [q] has been taken and zeroed. *)
Lemma taken_page pgdir a s q l :
  aspace s pgdir (q :: l) ->
  let s1 := upd_mem (memset q 0 PGSIZE) (kalloc_post s) in
  kinv kend s1 l /\ ptwf kend (k_mem s1) pgdir l
  /\ pte_addr (k_mem s1) pgdir a = pte_addr (k_mem s) pgdir a
  /\ pt_entry (k_mem s1) pgdir a = pt_entry (k_mem s) pgdir a.
Proof.
  intros Has s1. pose proof (as_ptwf _ _ _ Has) as Hwf. pose proof (as_kinv _ _ _ Has) as Hk.
  pose proof (kinv_pages _ _ _ Hk) as Hkp. pose proof (kinv_nodup _ _ _ Hk) as Hnd.
  apply NoDup_cons in Hnd as [Hql _]. apply Forall_cons in Hkp as [Hkq Hkl].
  assert (Hm1 : forall p b, kpage kend p -> p <> q -> in_page b p -> rd8 (k_mem s1) b = rd8 (k_mem s) b).
  { intros p b Hp Hne Hb. unfold s1; cbn. rewrite rd8_memset by done.
    rewrite decide_False; [done|]. pose proof (kpages_disjoint kend b p q Hp Hkq Hne Hb).
    unfold in_page, PGSIZE in *. lia. }
  assert (Htp : forall p b, table_page (k_mem s) pgdir p -> in_page b p -> rd8 (k_mem s1) b = rd8 (k_mem s) b).
  { intros p b [->|(d & Hd & Ht)] Hb.
    - apply (Hm1 pgdir b); [apply (wf_dir _ _ _ _ Hwf)| |done].
      by pose proof (wf_dir_free _ _ _ _ Hwf) as [? _]%not_elem_of_cons.
    - destruct (wf_tab _ _ _ _ Hwf d p Hd Ht) as (Tp & _ & [Tl _]%not_elem_of_cons). by apply (Hm1 p b). }
  split.
  { apply kinv_upd_mem; [by destruct (kalloc_spec kend s _ Hk)|]. intros b p Hp Hb.
    apply (Hm1 p b); [|set_solver|done]. rewrite Forall_forall in Hkl. by apply Hkl. }
  split; [apply (outside_ptwf pgdir _ _ _ Hwf Htp l); set_solver|]. split; [|by apply (outside_entry pgdir _ _ Htp)].
  unfold pte_addr. by rewrite (outside_pde pgdir _ _ Htp) by apply PDX_range.
Qed.

Lemma grow_page pgdir a s q l :
  aspace s pgdir (q :: l) -> 0 <= a < KERNBASE -> a `mod` 4096 = 0 ->
  ~ present (pt_entry (k_mem s) pgdir a) ->
  exists r s2 l2,
    mappages pgdir a PGSIZE (V2P q) (PTE_W ||| PTE_U)
      (upd_mem (memset q 0 PGSIZE) (kalloc_post s)) = Done r s2
    /\ grown pgdir a q s l r s2 l2.
Proof.
  intros Has Ha Ham Hnp. unfold KERNBASE in Ha.
  pose proof (as_ptwf _ _ _ Has) as Hwf. pose proof (as_uwf _ _ _ Has) as Huw.
  pose proof (as_kinv _ _ _ Has) as Hk.
  pose proof (kinv_pages _ _ _ Hk) as Hkp. pose proof (kinv_nodup _ _ _ Hk) as Hnd.
  apply NoDup_cons in Hnd as [Hql _]. apply Forall_cons in Hkp as [Hkq Hkl].
  set (s1 := upd_mem (memset q 0 PGSIZE) (kalloc_post s)).
  assert (Hm1 : forall p b, kpage kend p -> p <> q -> in_page b p ->
    rd8 (k_mem s1) b = rd8 (k_mem s) b).
  { intros p b Hp Hne Hb. unfold s1; cbn. rewrite rd8_memset by done.
    rewrite decide_False; [done|]. pose proof (kpages_disjoint kend b p q Hp Hkq Hne Hb).
    unfold in_page, PGSIZE in *. lia. }
  assert (Htp : forall p b, table_page (k_mem s) pgdir p -> in_page b p ->
    rd8 (k_mem s1) b = rd8 (k_mem s) b).
  { intros p b [->|(d & Hd & Ht)] Hb.
    - apply (Hm1 pgdir b); [apply (wf_dir _ _ _ _ Hwf)| |done].
      by pose proof (wf_dir_free _ _ _ _ Hwf) as [? _]%not_elem_of_cons.
    - destruct (wf_tab _ _ _ _ Hwf d p Hd Ht) as (Tp & _ & [Tl _]%not_elem_of_cons).
      by apply (Hm1 p b). }
  assert (Hsub : forall x, x ∈ l -> x ∈ q :: l) by set_solver.
  assert (Hk1 : kinv kend s1 l).
  { apply kinv_upd_mem; [by destruct (kalloc_spec kend s _ Hk)|].
    intros b p Hp Hb. apply (Hm1 p b); [|set_solver|done].
    rewrite Forall_forall in Hkl. by apply Hkl. }
  pose proof (outside_ptwf pgdir _ _ _ Hwf Htp l Hsub) as Hwf1.
  assert (Hq1 : data_page (k_mem s1) pgdir l q).
  { split; [done|]. split; [done|]. split; [pose proof (wf_dir_free _ _ _ _ Hwf); set_solver|].
    intros d tab Hd. rewrite (outside_pde pgdir _ _ Htp) by done. intros Ht ->.
    destruct (wf_tab _ _ _ _ Hwf d tab Hd Ht). set_solver. }
  destruct (mappages_spec kend pgdir a 1 (V2P q) (PTE_W ||| PTE_U) s1 l Hk1 Hwf1)
    as (r & k & s2 & l2 & E & Hst & Hr & He); [done|lia|lia|lia| |].
  { intros v Hv. rewrite (outside_entry pgdir _ _ Htp).
    assert (same_page a v) as Hs by (rewrite same_page_aligned; lia).
    apply same_page_parts in Hs as [E1 E2]. unfold pt_entry, pte_addr in *.
    by rewrite <- E1, <- E2. }
  change (4096 * 1) with PGSIZE in E.
  assert (Hent : forall va, 0 <= va < KERNBASE -> pt_entry (k_mem s2) pgdir va
    = if decide (r = 0 /\ same_page a va) then mk_pte (V2P q) (PTE_W ||| PTE_U)
      else pt_entry (k_mem s) pgdir va).
  { intros va Hva. unfold KERNBASE in Hva. rewrite He by lia.
    rewrite (outside_entry pgdir _ _ Htp). pose proof (same_page_aligned a va Ham) as Hsp.
    assert (HV : u32 (V2P q) = V2P q) by apply u32_idemp.
    destruct Hr as [[-> ->]|[-> Hk0]].
    - repeat case_decide; rewrite ?Hsp in * by lia; try lia; try done.
      rewrite PGROUNDDOWN_eq. replace (va - va `mod` 4096) with a by zlia.
      by rewrite Z.sub_diag, Z.add_0_r, HV.
    - rewrite !decide_False by lia. done. }
  exists r, s2, l2. split; [exact E|].
  destruct (ps_suffix _ _ _ _ _ _ Hst) as [new Hnew].
  assert (Hl2 : forall x, x ∈ l2 -> x ∈ l) by (intros; rewrite Hnew; set_solver).
  pose proof (ptstep_data_page _ _ _ _ _ _ Hst Hq1) as Hq2.
  destruct (frame_mk_pte q (PTE_W ||| PTE_U) Hkq) as (Hfq & Hpq & _); [done|].
  assert (Hnq : forall va, 0 <= va < KERNBASE -> present (pt_entry (k_mem s) pgdir va) ->
    frame (pt_entry (k_mem s) pgdir va) <> q).
  { intros va Hva Hp E'. pose proof (uw_free _ _ _ Huw va Hva Hp). set_solver. }
  split; try done.
  - split; [by destruct Hst|by destruct Hst|]. destruct Huw as [U1 U2 U3 U4 U5].
    destruct Hq2 as (Q1 & Q2 & Q3 & Q4). split.
    + intros va Hva. rewrite Hent by done. split_decide; [by rewrite Hfq|by apply U1].
    + intros va Hva. rewrite Hent by done. split_decide; [by rewrite Hfq|].
      intros Hp Hin. apply (U2 va Hva Hp). set_solver.
    + intros va Hva. rewrite Hent by done. split_decide; [by rewrite Hfq|by apply U3].
    + intros va d tab Hva. rewrite Hent by done. split_decide; [rewrite Hfq; eauto|].
      intros Hp Hd Ht. destruct (ps_new _ _ _ _ _ _ Hst d tab Hd Ht) as [Ht'|Hin].
      * rewrite (outside_pde pgdir _ _ Htp) in Ht' by done. by eapply U4.
      * intros <-. apply (U2 va Hva Hp). set_solver.
    + intros va va' Hva Hva'. rewrite !Hent by done.
      pose proof (Hnq va Hva) as N1. pose proof (Hnq va' Hva') as N2.
      repeat split_decide; rewrite ?Hfq; intros P1 P2 Hff;
        [|by destruct (N2 P2)|by destruct (N1 P1)|by apply U5].
      unfold same_page in *. destruct_and!. congruence.
  - destruct Hst as [_ _ _ _ _ _ [F1 F2]]. by split.
  - intros p b Hp Hb. transitivity (rd8 (k_mem s1) b).
    + apply (ptstep_data pgdir s1 l s2 l2 p b Hst); try done.
      eapply (outside_data pgdir (k_mem s)); eauto.
    + destruct Hp as (P1 & P2 & _). apply (Hm1 p b); [done|set_solver|done].
  - intros p Hp. eapply ptstep_data_page; [exact Hst|].
    eapply (outside_data pgdir (k_mem s)); eauto.
  - intros b Hb. transitivity (rd8 (k_mem s1) b).
    + by apply (ptstep_data pgdir s1 l s2 l2 q b Hst).
    + unfold s1; cbn. rewrite rd8_memset by done. rewrite decide_True; [done|].
      unfold in_page, PGSIZE in *. lia.
  - lia.
  - intros -> va Hva. rewrite Hent by done. rewrite decide_False by (intros [? _]; lia).
    by apply Hnq.
Qed.

(** Mapping one page fails exactly when its page table is missing and no page is
    left for one. *)
Lemma mappages_one_result pgdir a pa perm s l r s2 :
  kinv kend s l -> ptwf kend (k_mem s) pgdir l -> 0 <= a < KERNBASE -> a `mod` 4096 = 0 ->
  ~ present (pt_entry (k_mem s) pgdir a) -> mappages pgdir a PGSIZE pa perm s = Done r s2 ->
  r = if decide (l = [] /\ pte_addr (k_mem s) pgdir a = None) then -1 else 0.
Proof.
  intros Hk Hwf Ha Ham Hnp. unfold KERNBASE in Ha. unfold mappages.
  rewrite (u32_small a), (u32_small (a + PGSIZE - 1)) by (unfold PGSIZE; lia).
  rewrite !PGROUNDDOWN_eq. replace (a - a `mod` 4096) with a by lia.
  replace (a + PGSIZE - 1 - (a + PGSIZE - 1) `mod` 4096) with a by (unfold PGSIZE; zlia).
  cbn [loop]. intros E.
  destruct (mappages_body_spec kend pgdir a perm a (u32 pa) s l Hk Hwf Hnp)
    as [(s' & l' & Eb & _)|(-> & Eb & _)]; rewrite (bind_Done _ _ _ _ _ Eb) in E.
  - rewrite Z.eqb_refl in E. injection E as <- <-. rewrite decide_False; [done|]. intros [-> Hn].
    unfold mappages_body, mbind, M_bind in Eb. rewrite (walk_true_new kend pgdir a s [] Hk Hn) in Eb.
    rewrite (Z.eqb_refl a) in Eb. by injection Eb.
  - injection E as <- <-. rewrite decide_True; [done|]. split; [done|].
    destruct (pte_addr (k_mem s) pgdir a) as [pte|] eqn:Ep; [|done]. exfalso.
    destruct (pte_addr_inv kend pgdir [] s Hwf a pte Ep) as (tab & _ & Ept & (_ & _ & ?) & _).
    assert (Hz : pte <> 0) by (pose proof (PTX_range a); unfold KERNBASE in *; lia).
    unfold mappages_body, mbind, M_bind in Eb. rewrite (walk_true_found pgdir a pte) in Eb by done.
    rewrite (proj2 (Z.eqb_neq _ _) Hz) in Eb. unfold load32, store32, gets, modify in Eb.
    rewrite <- (pt_entry_at _ pgdir a) in Eb by done. rewrite Z.eqb_refl in Eb.
    destruct (truth _); [done|]. done.
Qed.

(** What the page [q] taken for the address [a] makes of [grown]'s result: only
    a missing page table and an empty free list keep the page from being mapped. *)
Definition map_result (s : kst) (pgdir a : Z) (l : list Z) : Z :=
  if decide (l = [] /\ pte_addr (k_mem s) pgdir a = None) then -1 else 0.

Lemma grow_page_result pgdir a s q l r s2 :
  aspace s pgdir (q :: l) -> 0 <= a < KERNBASE -> a `mod` 4096 = 0 ->
  ~ present (pt_entry (k_mem s) pgdir a) ->
  mappages pgdir a PGSIZE (V2P q) (PTE_W ||| PTE_U) (upd_mem (memset q 0 PGSIZE) (kalloc_post s)) = Done r s2 ->
  r = map_result s pgdir a l.
Proof.
  intros Has Ha Ham Hnp E. destruct (taken_page pgdir a s q l Has) as (Hk1 & Hwf1 & Hp & Hent).
  rewrite <- Hent in Hnp. unfold map_result. rewrite <- Hp.
  by eapply mappages_one_result; [exact Hk1|exact Hwf1|..].
Qed.
End vm_user.
