(* ===== verification/VmAlloc.v ===== *)
(** * Growing a user address space ([vm.c]: allocuvm)

    [allocuvm] is all or nothing: on success every page of the range is mapped
    to its own zeroed frame, writable by the user; on failure every page it had
    added is taken back.  Mappings outside the range and the bytes of every
    other page are kept in both cases. *)
From S2P Require Import Prelude Layout Memory Locks Kalloc Vm VmSpec VmUser.

Section vm_alloc.
Variables kend : Z.
Hypothesis kend_above : KERNBASE < kend.

(** ** Giving back a page no entry names *)
Lemma free_data pgdir s l q :
  aspace kend s pgdir l -> data_page kend (k_mem s) pgdir l q ->
  (forall va, 0 <= va < KERNBASE -> present (pt_entry (k_mem s) pgdir va) ->
     frame (pt_entry (k_mem s) pgdir va) <> q) ->
  kfree kend q s = Done tt (kfree_post q s) /\
  aspace kend (kfree_post q s) pgdir (q :: l) /\
  (forall va, pt_entry (k_mem (kfree_post q s)) pgdir va = pt_entry (k_mem s) pgdir va) /\
  (forall p b, kpage kend p -> p <> q -> in_page b p ->
     rd8 (k_mem (kfree_post q s)) b = rd8 (k_mem s) b) /\
  (forall p, data_page kend (k_mem s) pgdir l p -> p <> q ->
     data_page kend (k_mem (kfree_post q s)) pgdir (q :: l) p).
Proof.
  intros [Hk Hwf Huw] (Q1 & Q2 & Q3 & Q4) Hno.
  destruct (kfree_spec kend s l q Hk Q1 Q2) as [E Hk'].
  assert (Hm : forall p b, kpage kend p -> p <> q -> in_page b p ->
    rd8 (k_mem (kfree_post q s)) b = rd8 (k_mem s) b).
  { intros p b Hp Hne Hb. pose proof (kpage_apart kend p q Hp Q1 Hne).
    unfold kfree_post, in_page, PGSIZE in *; cbn.
    rewrite rd8_wr32_ne, rd8_memset by lia. by rewrite decide_False by lia. }
  assert (Ht : forall p b, table_page (k_mem s) pgdir p -> in_page b p ->
    rd8 (k_mem (kfree_post q s)) b = rd8 (k_mem s) b).
  { intros p b [->|(d & Hd & Ht)] Hb.
    - apply (Hm pgdir b); [apply (wf_dir _ _ _ _ Hwf)|congruence|done].
    - destruct (wf_tab _ _ _ _ Hwf d p Hd Ht) as (Tp & _).
      apply (Hm p b); [done| |done]. intros ->. by apply (Q4 d q). }
  pose proof (outside_entry pgdir _ _ Ht) as He.
  assert (Hpd : forall d, 0 <= d < 1024 ->
    pde_tab (k_mem (kfree_post q s)) pgdir d = pde_tab (k_mem s) pgdir d)
    by (intros; by apply (outside_pde pgdir _ _ Ht)).
  split; [done|]. split; [|split; [exact He|split; [exact Hm|]]].
  - split; [done| |].
    + destruct Hwf as [W1 W2 W3 W4]. split; [done|set_solver| |].
      * intros d tab Hd. rewrite Hpd by done. intros HT.
        destruct (W3 d tab Hd HT) as (? & ? & ?). specialize (Q4 d tab Hd HT). set_solver.
      * intros d1 d2 tab Hd1 Hd2. rewrite !Hpd by done. by apply W4.
    + destruct Huw as [U1 U2 U3 U4 U5]. split.
      * intros va Hva. rewrite He. by apply U1.
      * intros va Hva. rewrite He. intros Hp. apply not_elem_of_cons.
        split; [by apply Hno|by apply U2].
      * intros va Hva. rewrite He. by apply U3.
      * intros va d tab Hva. rewrite He. intros Hp Hd. rewrite Hpd by done. by apply U4.
      * intros va va' Hva Hva'. rewrite !He. by apply U5.
  - intros p (P1 & P2 & P3 & P4) Hne. split; [done|]. split; [set_solver|]. split; [done|].
    intros d tab Hd. rewrite Hpd by done. by apply P4.
Qed.

(** ** The loop invariant: the pages of [a0, a) have been added *)
Record grew (pgdir a0 a : Z) (s0 : kst) (l0 : list Z) (s : kst) (l : list Z) : Prop := Grew {
  ge_aspace : aspace kend s pgdir l;
  ge_frame : kframe s0 s;
  ge_sub : forall x, x ∈ l -> x ∈ l0;
  ge_old : forall va, 0 <= va < KERNBASE -> ~ visited a0 a va ->
    pt_entry (k_mem s) pgdir va = pt_entry (k_mem s0) pgdir va;
  ge_new : forall va, 0 <= va < KERNBASE -> visited a0 a va ->
    exists q, q ∈ l0 /\ kpage kend q
      /\ pt_entry (k_mem s) pgdir va = mk_pte (V2P q) (PTE_W ||| PTE_U)
      /\ (forall b, in_page b q -> rd8 (k_mem s) b = 0);
  ge_data : forall p b, data_page kend (k_mem s0) pgdir l0 p -> in_page b p ->
    rd8 (k_mem s) b = rd8 (k_mem s0) b;
  ge_page : forall p, data_page kend (k_mem s0) pgdir l0 p ->
    data_page kend (k_mem s) pgdir l p }.

(** What remains after a failure: the range is unmapped again. *)
Record shrunk (pgdir a0 newsz : Z) (s0 : kst) (l0 : list Z) (s : kst) (l : list Z) : Prop :=
  Shrunk {
  sh_aspace : aspace kend s pgdir l;
  sh_frame : kframe s0 s;
  sh_old : forall va, 0 <= va < KERNBASE -> ~ visited a0 newsz va ->
    pt_entry (k_mem s) pgdir va = pt_entry (k_mem s0) pgdir va;
  sh_none : forall va, 0 <= va < KERNBASE -> visited a0 newsz va ->
    ~ present (pt_entry (k_mem s) pgdir va);
  sh_data : forall p b, data_page kend (k_mem s0) pgdir l0 p -> in_page b p ->
    rd8 (k_mem s) b = rd8 (k_mem s0) b;
  sh_page : forall p, data_page kend (k_mem s0) pgdir l0 p ->
    data_page kend (k_mem s) pgdir l p }.

Lemma grew_refl pgdir a0 s l : aspace kend s pgdir l -> grew pgdir a0 a0 s l s l.
Proof.
  intros Has. split; try done. intros va _ [Hv1 Hv2]. lia.
Qed.

Lemma visited_step a0 a va :
  a0 <= a -> a `mod` 4096 = 0 -> 0 <= a < KERNBASE -> 0 <= va < KERNBASE ->
  visited a0 (a + 4096) va <-> visited a0 a va \/ same_page a va.
Proof.
  intros. unfold KERNBASE in *. rewrite (same_page_down a va) by lia.
  unfold visited. rewrite PGROUNDDOWN_eq. zlia.
Qed.

(** A page mapped ([r = 0]) or refused ([r = -1]) by [mappages]. *)
Lemma grew_step pgdir a0 a s0 l0 s q l r s2 l2 :
  grew pgdir a0 a s0 l0 s (q :: l) -> grown kend pgdir a q s l r s2 l2 ->
  a0 <= a -> a `mod` 4096 = 0 -> 0 <= a < KERNBASE ->
  grew pgdir a0 (if decide (r = 0) then a + 4096 else a) s0 l0 s2 l2.
Proof.
  intros [E1 [E2 E2'] E3 E4 E5 E6 E7] [G1 [G2 G2'] G3 G4 G5 G6 G7 G8 G9 _] Hle Ham Ha.
  assert (Hv : forall va, 0 <= va < KERNBASE ->
    visited a0 (if decide (r = 0) then a + 4096 else a) va
      <-> visited a0 a va \/ (r = 0 /\ same_page a va)).
  { intros va Hva. split_decide; [rewrite visited_step by done|]; tauto. }
  split.
  - done.
  - split; congruence.
  - intros x Hx%G3. apply E3. by right.
  - intros va Hva Hn. rewrite Hv in Hn by done. rewrite G9 by done.
    rewrite decide_False by tauto. apply E4; tauto.
  - intros va Hva HV. rewrite Hv in HV by done. rewrite G9 by done.
    split_decide.
    + exists q. split; [apply E3; by left|]. destruct G6. done.
    + destruct HV as [HV|?]; [|done]. destruct (E5 va Hva HV) as (q' & Hq' & Hk' & He' & Hz').
      exists q'. split; [done|]. split; [done|]. split; [done|]. intros b Hb.
      rewrite (G4 q' b); [by apply Hz'| |done].
      destruct (frame_mk_pte kend q' (PTE_W ||| PTE_U) Hk') as (Hf & Hp & _); [done|].
      rewrite <- Hf, <- He'. apply aspace_frame_data; [done|done|by rewrite He'].
  - intros p b Hp Hb. rewrite (G4 p b (E7 p Hp) Hb). by apply (E6 p).
  - intros p Hp. by apply G5, E7.
Qed.

(** Taking the added pages back. *)
Lemma grew_undo pgdir oldsz newsz a s0 l0 s l :
  grew pgdir (PGROUNDUP oldsz) a s0 l0 s l -> 0 <= oldsz < newsz -> newsz < KERNBASE ->
  PGROUNDUP oldsz <= a <= newsz ->
  (forall va, 0 <= va < KERNBASE -> visited (PGROUNDUP oldsz) newsz va ->
     ~ present (pt_entry (k_mem s0) pgdir va)) ->
  exists s' l', deallocuvm kend pgdir newsz oldsz s = Done oldsz s'
    /\ shrunk pgdir (PGROUNDUP oldsz) newsz s0 l0 s' l'
    /\ (forall p, data_page kend (k_mem s) pgdir l p ->
         (forall va, 0 <= va < KERNBASE -> present (pt_entry (k_mem s) pgdir va) ->
            frame (pt_entry (k_mem s) pgdir va) <> p) ->
         data_page kend (k_mem s') pgdir l' p)
    /\ (forall va, 0 <= va < KERNBASE -> present (pt_entry (k_mem s') pgdir va) ->
         pt_entry (k_mem s') pgdir va = pt_entry (k_mem s) pgdir va).
Proof.
  intros [E1 [E2 E2'] E3 E4 E5 E6 E7] Ho Hn Ha Hno.
  destruct (deallocuvm_spec kend kend_above pgdir newsz oldsz s l E1) as (s' & freed & E & D);
    [lia|lia|].
  destruct D as [D1 [D2 D2'] D3 D4 D5 D6].
  assert (Hfr : forall f, f ∈ freed -> f ∈ l0).
  { intros f (va & Hva & HV & Hp & ->)%D4. destruct (decide (visited (PGROUNDUP oldsz) a va)) as [Hv|Hv].
    - destruct (E5 va Hva Hv) as (q & Hq & Hk & -> & _).
      by destruct (frame_mk_pte kend q (PTE_W ||| PTE_U) Hk) as (-> & _); [done|].
    - rewrite E4 in Hp by done. by destruct (Hno va). }
  exists s', (freed ++ l). split; [exact E|]. split; [split|split].
  - done.
  - split; congruence.
  - intros va Hva Hnv. rewrite D3 by done. unfold cleared. rewrite decide_False by tauto.
    apply E4; [done|]. intros [? ?]. apply Hnv. split; [done|lia].
  - intros va Hva Hv. rewrite D3 by done. unfold cleared. split_decide; [by intros []|tauto].
  - intros p b Hp Hb. rewrite (D5 p b (E7 p Hp)); [by apply (E6 p)| |done].
    intros Hin%Hfr. by destruct Hp as (_ & ? & _).
  - intros p Hp. apply D6; [by apply E7|]. intros Hin%Hfr. by destruct Hp as (_ & ? & _).
  - intros p Hp Hnf. apply D6; [done|]. intros (va & Hva & _ & Hpr & ->)%D4. by apply (Hnf va).
  - intros va Hva. rewrite D3 by done. unfold cleared. split_decide; [by intros []|done].
Qed.

Lemma grew_exit pgdir a0 a newsz s0 l0 s l :
  a `mod` 4096 = 0 -> newsz <= a < newsz + 4096 ->
  grew pgdir a0 a s0 l0 s l -> grew pgdir a0 newsz s0 l0 s l.
Proof.
  intros Ham Ha [E1 E2 E3 E4 E5 E6 E7].
  assert (Hv : forall va, visited a0 newsz va <-> visited a0 a va).
  { intros va. unfold visited. rewrite PGROUNDDOWN_eq. zlia. }
  split; try done.
  - intros va Hva. rewrite Hv. by apply E4.
  - intros va Hva. rewrite Hv. by apply E5.
Qed.

Lemma shrunk_kfree pgdir a0 newsz s0 l0 s l q :
  shrunk pgdir a0 newsz s0 l0 s l -> data_page kend (k_mem s) pgdir l q -> q ∈ l0 ->
  (forall va, 0 <= va < KERNBASE -> present (pt_entry (k_mem s) pgdir va) ->
     frame (pt_entry (k_mem s) pgdir va) <> q) ->
  kfree kend q s = Done tt (kfree_post q s)
  /\ shrunk pgdir a0 newsz s0 l0 (kfree_post q s) (q :: l).
Proof.
  intros [S1 [S2 S2'] S3 S4 S5 S6] Hq Hin Hno.
  destruct (free_data pgdir s l q S1 Hq Hno) as (E & F1 & F2 & F3 & F4).
  assert (Hne : forall p, data_page kend (k_mem s0) pgdir l0 p -> p <> q).
  { intros p (_ & Hp & _) ->. done. }
  split; [done|]. split.
  - done.
  - by split.
  - intros va Hva Hnv. rewrite F2. by apply S3.
  - intros va Hva Hv. rewrite F2. by apply S4.
  - intros p b Hp Hb. rewrite (F3 p b); [by apply (S5 p)|apply Hp|by apply Hne|done].
  - intros p Hp. apply F4; [by apply S6|by apply Hne].
Qed.

Lemma allocuvm_loop pgdir oldsz newsz s0 l0 fuel : forall a s l,
  0 <= oldsz -> newsz < KERNBASE ->
  (forall va, 0 <= va < KERNBASE -> visited (PGROUNDUP oldsz) newsz va ->
     ~ present (pt_entry (k_mem s0) pgdir va)) ->
  grew pgdir (PGROUNDUP oldsz) a s0 l0 s l -> a `mod` 4096 = 0 ->
  PGROUNDUP oldsz <= a < newsz + 4096 -> oldsz <= PGROUNDUP oldsz ->
  newsz - a <= 4096 * (Z.of_nat fuel - 1) -> (1 <= fuel)%nat ->
  exists r s' l', loop fuel (allocuvm_body kend pgdir oldsz newsz) a s = Done r s'
    /\ ((r = newsz /\ grew pgdir (PGROUNDUP oldsz) newsz s0 l0 s' l')
        \/ (r = 0 /\ shrunk pgdir (PGROUNDUP oldsz) newsz s0 l0 s' l')).
Proof.
  induction fuel as [|fuel IH]; intros a s l Ho Hn Hno Hg Ham Ha Hup Hf H1; [lia|].
  cbn [loop]. unfold mbind at 1, M_bind at 1. unfold allocuvm_body at 1.
  destruct (Z.ltb_spec a newsz) as [Hlt|Hge]; cbn [negb].
  2:{ exists newsz, s, l. split; [done|]. left. split; [done|].
      eapply grew_exit; [exact Ham|lia|done]. }
  assert (Har : 0 <= a < KERNBASE) by lia.
  pose proof (ge_aspace _ _ _ _ _ _ _ Hg) as Has.
  assert (Hna : ~ present (pt_entry (k_mem s) pgdir a)).
  { rewrite (ge_old _ _ _ _ _ _ _ Hg a Har).
    - apply Hno; [done|]. unfold visited. rewrite PGROUNDDOWN_aligned_id by done. lia.
    - unfold visited. rewrite PGROUNDDOWN_aligned_id by done. lia. }
  unfold mbind, M_bind. destruct (kalloc_spec kend s l (as_kinv _ _ _ _ Has)) as [-> _].
  destruct l as [|q l]; cbn [default head Z.eqb id from_option].
  - (* out of memory *)
    set (sf := kalloc_post s).
    assert (Hgf : grew pgdir (PGROUNDUP oldsz) a s0 l0 sf []).
    { destruct Hg as [[E1a E1b E1c] E2 E3 E4 E5 E6 E7]. split; try done.
      split; [|done|done]. by destruct (kalloc_spec kend s [] E1a). }
    destruct (grew_undo pgdir oldsz newsz a s0 l0 sf [] Hgf) as (s' & l' & -> & Hs & _ & _);
      [lia|lia|lia|done|].
    exists 0, s', l'. split; [done|]. by right.
  - assert (Hq : kpage kend q).
    { pose proof (kinv_pages _ _ _ (as_kinv _ _ _ _ Has)) as HF. by apply Forall_cons in HF as [? _]. }
    pose proof (kpage_nonzero kend q Hq) as Hq0. apply Z.eqb_neq in Hq0 as ->.
    destruct (grow_page kend kend_above pgdir a s q l Has Har Ham Hna) as (r & s2 & l2 & E & G).
    unfold modify. rewrite E.
    pose proof (grew_step pgdir (PGROUNDUP oldsz) a s0 l0 s q l r s2 l2 Hg G ltac:(lia) Ham Har) as Hg2.
    destruct (gr_res _ _ _ _ _ _ _ _ _ G) as [-> | ->].
    + cbn [Z.ltb Z.compare]. unfold mret, M_ret, PGSIZE. unfold KERNBASE in *.
      rewrite u32_small by lia. rewrite decide_True in Hg2 by done.
      apply (IH (a + 4096) s2 l2); try done; try lia. zlia.
    + rewrite decide_False in Hg2 by done. cbn [Z.ltb Z.compare].
      destruct (grew_undo pgdir oldsz newsz a s0 l0 s2 l2 Hg2) as (s' & l' & -> & Hs & Hd & He);
        [lia|lia|lia|done|].
      destruct (shrunk_kfree pgdir (PGROUNDUP oldsz) newsz s0 l0 s' l' q Hs) as [-> Hs2].
      * apply Hd; [by destruct G|]. intros va Hva. apply (gr_unmapped _ _ _ _ _ _ _ _ _ G); done.
      * apply (ge_sub _ _ _ _ _ _ _ Hg). by left.
      * intros va Hva Hp. pose proof Hp as Hp'. rewrite (He va Hva Hp') in *.
        apply (gr_unmapped _ _ _ _ _ _ _ _ _ G); done.
      * exists 0, (kfree_post q s'), (q :: l'). split; [done|]. by right.
Qed.

Lemma allocuvm_correct pgdir oldsz newsz s l :
  aspace kend s pgdir l -> 0 <= oldsz <= newsz -> newsz < KERNBASE ->
  (forall va, 0 <= va < KERNBASE -> visited (PGROUNDUP oldsz) newsz va ->
     ~ present (pt_entry (k_mem s) pgdir va)) ->
  exists r s' l', allocuvm kend pgdir oldsz newsz s = Done r s'
    /\ ((r = newsz /\ grew pgdir (PGROUNDUP oldsz) newsz s l s' l')
        \/ (r = 0 /\ shrunk pgdir (PGROUNDUP oldsz) newsz s l s' l')).
Proof.
  intros Has Ho Hn Hno. unfold allocuvm. rewrite Z.geb_leb.
  replace (KERNBASE <=? newsz) with false by lia. replace (newsz <? oldsz) with false by lia.
  destruct (PGROUNDUP_bounds oldsz) as [? ?]; [unfold KERNBASE in *; lia|].
  apply (allocuvm_loop pgdir oldsz newsz s l) with (l := l); try done; try lia.
  - by apply grew_refl.
  - apply PGROUNDUP_aligned.
  - unfold PGSIZE. zlia.
Qed.
End vm_alloc.
