(* ===== verification/VmTheorems.v ===== *)
(** * Theorems about physical and virtual memory, and their instances

    The statements the rest of the kernel relies on, each instantiated at a
    small concrete machine: an empty page directory at [ex_dir] and [n] free
    pages from [ex_page] up. *)
From S2P Require Import Prelude Layout Memory Locks Kalloc Vm VmSpec VmUser VmAlloc.

(** ** A concrete machine *)
Definition ex_end : Z := KERNBASE + 1048576.
Definition ex_dir : Z := KERNBASE + 2097152.
Definition ex_page : Z := KERNBASE + 2101248.

Fixpoint ex_list (p : Z) (n : nat) (m : mem) : mem :=
  match n with
  | O => m
  | S O => wr32 p 0 m
  | S n' => wr32 p (p + 4096) (ex_list (p + 4096) n' m)
  end.

Definition ex_state (n : nat) : kst :=
  Kst (ex_list ex_page n ∅) false (if (n =? 0)%nat then 0 else ex_page) (Z.of_nat n) [].

Lemma ex_kinv3 : kinv ex_end (ex_state 3) (pages ex_page 3).
Proof.
  split.
  - vm_compute. done.
  - apply NoDup_pages.
  - repeat constructor; unfold kpage, ex_end, ex_page, KERNBASE, PHYSTOP; lia.
  - cbn. set_solver.
Qed.

Lemma ex_dir_word n d : 0 <= d < 1024 -> rd32 (k_mem (ex_state n)) (ex_dir + 4 * d) = 0.
Proof.
  intros Hd. cbn [k_mem ex_state].
  assert (H : forall k p, ex_dir + 4096 <= p -> 0 <= p ->
    rd32 (ex_list p k ∅) (ex_dir + 4 * d) = 0).
  { induction k as [|k IH]; intros p Hp Hp0; [done|].
    assert (Hs : forall v m, rd32 (wr32 p v m) (ex_dir + 4 * d) = rd32 m (ex_dir + 4 * d)).
    { intros v m. apply rd32_wr32_ne. left. lia. }
    destruct k; cbn; rewrite Hs; [done|]. apply IH; lia. }
  apply H; unfold ex_dir, ex_page, KERNBASE; lia.
Qed.

Lemma ex_entry n va : pt_entry (k_mem (ex_state n)) ex_dir va = 0.
Proof.
  unfold pt_entry, pte_addr, pde_tab. rewrite ex_dir_word by apply PDX_range. done.
Qed.

Lemma ex_aspace3 : aspace ex_end (ex_state 3) ex_dir (pages ex_page 3).
Proof.
  split; [apply ex_kinv3| |].
  - split.
    + unfold kpage, ex_dir, ex_end, KERNBASE, PHYSTOP. zlia.
    + rewrite elem_of_pages. intros (i & Hi & E). unfold ex_dir, ex_page, KERNBASE in E. lia.
    + intros d tab Hd. unfold pde_tab. by rewrite ex_dir_word.
    + intros d1 d2 tab Hd1 Hd2. unfold pde_tab. by rewrite ex_dir_word.
  - split; intros *; rewrite ?ex_entry; by intros ? [].
Qed.

(** ** The theorems *)

(** (C1) [allocuvm] on a well-formed address space whose range is unmapped
    returns, and is all or nothing.  Either it returns the new size and every
    page of the range is mapped, user-writable, to a frame that was free and
    now reads as zeros; or it returns 0 and no page of the range is mapped.
    In both cases the free list, page table and frames stay disjoint, and the
    other mappings and the bytes of every other page are unchanged. *)
Theorem allocuvm_all_or_nothing kend pgdir oldsz newsz s l :
  KERNBASE < kend -> aspace kend s pgdir l -> 0 <= oldsz <= newsz -> newsz < KERNBASE ->
  (forall va, 0 <= va < KERNBASE -> visited (PGROUNDUP oldsz) newsz va ->
     ~ present (pt_entry (k_mem s) pgdir va)) ->
  exists r s' l', allocuvm kend pgdir oldsz newsz s = Done r s'
    /\ ((r = newsz /\ grew kend pgdir (PGROUNDUP oldsz) newsz s l s' l')
        \/ (r = 0 /\ shrunk kend pgdir (PGROUNDUP oldsz) newsz s l s' l')).
Proof. intros. by apply allocuvm_correct. Qed.

Lemma allocuvm_all_or_nothing_witness :
  exists r s' l', allocuvm ex_end ex_dir 0 4096 (ex_state 3) = Done r s'
    /\ ((r = 4096 /\ grew ex_end ex_dir 0 4096 (ex_state 3) (pages ex_page 3) s' l')
        \/ (r = 0 /\ shrunk ex_end ex_dir 0 4096 (ex_state 3) (pages ex_page 3) s' l')).
Proof.
  apply (allocuvm_all_or_nothing ex_end ex_dir 0 4096).
  - unfold ex_end, KERNBASE. lia.
  - apply ex_aspace3.
  - lia.
  - unfold KERNBASE. lia.
  - intros va _ _. rewrite ex_entry. by intros [].
Defined.

(** (C22) [deallocuvm] terminates and gives back exactly the frames mapped at
    the pages from [PGROUNDUP newsz] up to [oldsz]: those frames join the free
    list, their entries are cleared, every other entry and the bytes of every
    other page are unchanged, and the address-space invariant is kept. *)
Theorem deallocuvm_frees_range kend pgdir oldsz newsz s l :
  KERNBASE < kend -> aspace kend s pgdir l -> 0 <= newsz < oldsz -> oldsz <= KERNBASE ->
  exists s' freed, deallocuvm kend pgdir oldsz newsz s = Done newsz s'
    /\ dealloc_post kend pgdir (PGROUNDUP newsz) oldsz s l s' freed.
Proof. intros. by apply deallocuvm_spec. Qed.

Lemma deallocuvm_frees_range_witness :
  exists s' freed, deallocuvm ex_end ex_dir 8192 0 (ex_state 3) = Done 0 s'
    /\ dealloc_post ex_end ex_dir 0 8192 (ex_state 3) (pages ex_page 3) s' freed.
Proof.
  apply (deallocuvm_frees_range ex_end ex_dir 8192 0).
  - unfold ex_end, KERNBASE. lia.
  - apply ex_aspace3.
  - lia.
  - unfold KERNBASE. lia.
Defined.

(** [mappages] over an unmapped range returns: with 0 every page of the
    range has exactly the requested entry; with -1 (no memory for a table) a
    proper prefix of the range has it.  All other entries are unchanged, and
    only the table's own pages and formerly free pages are written. *)
Theorem mappages_maps kend pgdir va n pa perm s l :
  kinv kend s l -> ptwf kend (k_mem s) pgdir l ->
  va `mod` 4096 = 0 -> 0 <= va -> 0 < n -> va + 4096 * n <= 4294967296 ->
  (forall v, va <= v < va + 4096 * n -> ~ present (pt_entry (k_mem s) pgdir v)) ->
  exists r k s' l',
    mappages pgdir va (4096 * n) pa perm s = Done r s'
    /\ ptstep kend pgdir s l s' l' /\ (r = 0 /\ k = n \/ r = -1 /\ 0 <= k < n)
    /\ forall v, 0 <= v < 4294967296 ->
         pt_entry (k_mem s') pgdir v
         = if decide (va <= v < va + 4096 * k)
           then mk_pte (u32 (pa + (PGROUNDDOWN v - va))) perm
           else pt_entry (k_mem s) pgdir v.
Proof. intros. by apply mappages_spec. Qed.

Lemma mappages_maps_witness :
  exists r k s' l',
    mappages ex_dir 8192 (4096 * 2) 0 6 (ex_state 3) = Done r s'
    /\ ptstep ex_end ex_dir (ex_state 3) (pages ex_page 3) s' l'
    /\ (r = 0 /\ k = 2 \/ r = -1 /\ 0 <= k < 2)
    /\ forall v, 0 <= v < 4294967296 ->
         pt_entry (k_mem s') ex_dir v
         = if decide (8192 <= v < 8192 + 4096 * k)
           then mk_pte (u32 (0 + (PGROUNDDOWN v - 8192))) 6
           else pt_entry (k_mem (ex_state 3)) ex_dir v.
Proof.
  apply (mappages_maps ex_end ex_dir 8192 2 0 6).
  - apply ex_kinv3.
  - apply ex_aspace3.
  - reflexivity.
  - lia.
  - lia.
  - lia.
  - intros v _. rewrite ex_entry. by intros [].
Defined.

(** At boot [kinit1] and [kinit2] put every usable physical page on the
    free list exactly once and count them in [freemems]. *)
Theorem boot_frees_all_pages kend s :
  KERNBASE <= kend <= KERNBASE + 4194304 ->
  k_freelist s = 0 -> k_freemems s = 0 -> k_held s = [] ->
  exists s' l, boot kend s = Done tt s' /\ kinv kend s' l
    /\ (forall p, p ∈ l <-> kpage kend p) /\ k_freemems s' = Z.of_nat (length l)
    /\ k_use_lock s' = true.
Proof. intros. by apply boot_spec. Qed.

Lemma boot_frees_all_pages_witness :
  exists s' l, boot ex_end (ex_state 0) = Done tt s' /\ kinv ex_end s' l
    /\ (forall p, p ∈ l <-> kpage ex_end p) /\ k_freemems s' = Z.of_nat (length l)
    /\ k_use_lock s' = true.
Proof.
  apply (boot_frees_all_pages ex_end (ex_state 0)); unfold ex_end, KERNBASE; try reflexivity; lia.
Defined.

(** [freemem] drifts: a failed [kalloc] still decrements the counter, so
    with an empty free list the system call returns one less per attempt. *)
Theorem freemem_drifts kend s n :
  kinv kend s [] -> - 2147483648 < n -> k_freemems s = n -> n < 2147483648 ->
  (kalloc ;; freemem) s = Done (n - 1) (kalloc_post s) /\ kinv kend (kalloc_post s) [].
Proof.
  intros Hk Hn E Hn'. destruct (kalloc_spec kend s [] Hk) as [Ek Hk'].
  split; [|done]. unfold mbind, M_bind. rewrite Ek. unfold freemem, gets. cbn.
  rewrite E, i32_small by lia. done.
Qed.

Lemma freemem_drifts_witness :
  (kalloc ;; freemem) (ex_state 0) = Done (0 - 1) (kalloc_post (ex_state 0))
  /\ kinv ex_end (kalloc_post (ex_state 0)) [].
Proof.
  apply (freemem_drifts ex_end (ex_state 0) 0); [|lia|reflexivity|lia].
  split; [reflexivity|constructor|constructor|cbn; set_solver].
Defined.
