(* ===== verification/Spinlock.v ===== *)
(** * Spin locks and interrupt nesting ([spinlock.c])

    [acquire] and [release] are modelled twice from the same elementary
    actions: as functions of one CPU (executable, with fuel for the spin), and
    as a step relation in which the CPUs interleave between any two accesses to
    shared memory.  The first is shown to implement the view of [Locks.v]; of
    the second, mutual exclusion, the depth of interrupt disabling and the
    freedom from spurious panics are shown for every reachable state.

    The number of CPUs is not fixed.  The [pcs] debugging array of a lock is
    not part of the lock's state; [getcallerpcs] itself is modelled. *)
From S2P Require Import Prelude Layout Memory Locks.


(** The interrupt flag and the nesting fields of [struct cpu]. *)
Record cpu := Cpu { c_if : bool; c_ncli : Z; c_intena : Z }.

(** [struct spinlock]: the owner is the index of a CPU, [None] for 0. *)
Record spinlock := Spin_ { sl_locked : Z; sl_cpu : option nat }.

#[export] Instance cpu_inhabited : Inhabited cpu := populate (Cpu true 0 0).
#[export] Instance spinlock_inhabited : Inhabited spinlock := populate (Spin_ 0 None).

(** [cpus[]] and the lock words; a CPU or lock not yet written to is as the
    boot code leaves it. *)
Record machine := Machine { m_cpu : gmap nat cpu; m_lock : gmap lock spinlock }.
Definition m_cpus (s : machine) (c : nat) : cpu := m_cpu s !!! c.
Definition m_locks (s : machine) (l : lock) : spinlock := m_lock s !!! l.

Definition set_cpu (c : nat) (k : cpu) (s : machine) : machine :=
  Machine (<[c := k]> (m_cpu s)) (m_lock s).
Definition set_lock (l : lock) (k : spinlock) (s : machine) : machine :=
  Machine (m_cpu s) (<[l := k]> (m_lock s)).

Arguments m_cpus : simpl never.
Arguments m_locks : simpl never.
Arguments set_cpu : simpl never.
Arguments set_lock : simpl never.

(** ** The operations on one CPU *)
Definition initlock (l : lock) : M machine unit := modify (set_lock l (Spin_ 0 None)).

Definition readeflags (c : nat) : M machine Z :=
  gets (fun s => if c_if (m_cpus s c) then FL_IF else 0).
Definition cli (c : nat) : M machine unit :=
  modify (fun s => let k := m_cpus s c in set_cpu c (Cpu false (c_ncli k) (c_intena k)) s).
Definition sti (c : nat) : M machine unit :=
  modify (fun s => let k := m_cpus s c in set_cpu c (Cpu true (c_ncli k) (c_intena k)) s).

(** [mycpu] finds the CPU of the running code; it panics when an interrupt
    could move that code to another CPU. *)
Definition mycpu (c : nat) : M machine nat :=
  fl ← readeflags c;
  if truth (fl &&& FL_IF) then panic "mycpu called with interrupts enabled" else mret c.

Arguments mycpu : simpl never.

Definition pushcli (c : nat) : M machine unit :=
  eflags ← readeflags c;
  cli c ;;
  i ← mycpu c;
  k ← gets (fun s => m_cpus s i);
  when (c_ncli k =? 0)
    (modify (set_cpu i (Cpu (c_if k) (c_ncli k) (eflags &&& FL_IF)))) ;;
  i ← mycpu c;
  k ← gets (fun s => m_cpus s i);
  modify (set_cpu i (Cpu (c_if k) (c_ncli k + 1) (c_intena k))).

Definition popcli (c : nat) : M machine unit :=
  fl ← readeflags c;
  if truth (fl &&& FL_IF) then panic "popcli - interruptible"
  else
    i ← mycpu c;
    k ← gets (fun s => m_cpus s i);
    modify (set_cpu i (Cpu (c_if k) (c_ncli k - 1) (c_intena k))) ;;
    if c_ncli k - 1 <? 0 then panic "popcli"
    else
      i ← mycpu c;
      k ← gets (fun s => m_cpus s i);
      when ((c_ncli k =? 0) && truth (c_intena k)) (sti c).

(** The test between [pushcli] and [popcli] in [holding]. *)
Definition owned (l : lock) (c : nat) (s : machine) : bool :=
  truth (sl_locked (m_locks s l)) && bool_decide (sl_cpu (m_locks s l) = Some c).

Definition holding (c : nat) (l : lock) : M machine bool :=
  pushcli c ;;
  i ← mycpu c;
  r ← gets (owned l i);
  popcli c ;;
  mret r.

(** [xchg(&lk->locked, 1)]: atomic, returns the old value. *)
Definition xchg1 (l : lock) : M machine Z :=
  old ← gets (fun s => sl_locked (m_locks s l));
  modify (fun s => set_lock l (Spin_ 1 (sl_cpu (m_locks s l))) s) ;;
  mret old.

Definition set_owner (l : lock) (o : option nat) : M machine unit :=
  modify (fun s => set_lock l (Spin_ (sl_locked (m_locks s l)) o) s).
Definition clear_locked (l : lock) : M machine unit :=
  modify (fun s => set_lock l (Spin_ 0 (sl_cpu (m_locks s l))) s).

Definition acquire (fuel : nat) (c : nat) (l : lock) : M machine unit :=
  pushcli c ;;
  h ← holding c l;
  if (h : bool) then panic "acquire"
  else
    loop fuel (fun _ : unit =>
      old ← xchg1 l; mret (if old !=? 0 then inl tt else inr tt)) tt ;;
    i ← mycpu c;
    set_owner l (Some i).

Definition release (c : nat) (l : lock) : M machine unit :=
  h ← holding c l;
  if negb h then panic "release"
  else
    set_owner l None ;;
    clear_locked l ;;
    popcli c.

(** ** The call-stack walk of [getcallerpcs] *)
Fixpoint getcallerpcs_loop (n : nat) (m : mem) (ebp : Z) : list Z :=
  match n with
  | O => []
  | S n' =>
      if (ebp =? 0) || (ebp <? KERNBASE) || (ebp =? 4294967295)
      then repeat 0 n
      else rd32 m (u32 (ebp + 4)) :: getcallerpcs_loop n' m (rd32 m ebp)
  end.
Definition getcallerpcs (m : mem) (v : Z) : list Z := getcallerpcs_loop 10 m (u32 (v - 8)).

Lemma getcallerpcs_length m v : length (getcallerpcs m v) = 10%nat.
Proof.
  unfold getcallerpcs. generalize (u32 (v - 8)). generalize 10%nat as n.
  induction n as [|n IH]; intros e; cbn [getcallerpcs_loop]; [done|].
  destruct (_ || _); [by rewrite repeat_length|]. cbn. by rewrite IH.
Qed.

(** ** Interrupt nesting *)
Definition cpu_ok (k : cpu) : Prop :=
  0 <= c_ncli k /\ (0 < c_ncli k -> c_if k = false)
  /\ (c_intena k = 0 \/ c_intena k = FL_IF).

Definition push (k : cpu) : cpu :=
  Cpu false (c_ncli k + 1)
    (if c_ncli k =? 0 then (if c_if k then FL_IF else 0) else c_intena k).
Definition pop (k : cpu) : cpu :=
  Cpu ((c_ncli k =? 1) && truth (c_intena k)) (c_ncli k - 1) (c_intena k).

Section one_cpu.
Variable c : nat.

Lemma cpus_same k s : m_cpus (set_cpu c k s) c = k.
Proof. apply lookup_total_insert_eq. Qed.
Lemma cpus_other d k s : d <> c -> m_cpus (set_cpu c k s) d = m_cpus s d.
Proof. intros. by apply lookup_total_insert_ne. Qed.
Lemma set_cpu_twice k k' s : set_cpu c k (set_cpu c k' s) = set_cpu c k s.
Proof. unfold set_cpu; cbn. by rewrite insert_insert_eq. Qed.

Lemma mycpu_off s : c_if (m_cpus s c) = false -> mycpu c s = Done c s.
Proof. intros H. unfold mycpu, readeflags, mbind, M_bind, gets. by rewrite H. Qed.

(** [pushcli] as one update. *)
Lemma pushcli_eq s : pushcli c s = Done tt (set_cpu c (push (m_cpus s c)) s).
Proof.
  unfold pushcli, readeflags, cli, mbind, M_bind, mret, M_ret, gets, modify, when, push.
  rewrite mycpu_off, cpus_same by (by rewrite cpus_same). cbn.
  destruct (c_ncli (m_cpus s c) =? 0) eqn:E; cbn;
    rewrite mycpu_off by (by rewrite !cpus_same); rewrite ?cpus_same, ?set_cpu_twice; [|done].
  by destruct (c_if (m_cpus s c)).
Qed.

(** [popcli] with interrupts off and a positive depth. *)
Lemma popcli_eq s :
  c_if (m_cpus s c) = false -> 0 < c_ncli (m_cpus s c) ->
  popcli c s = Done tt (set_cpu c (pop (m_cpus s c)) s).
Proof.
  intros Hi Hn. unfold popcli, readeflags, sti, mbind, M_bind, mret, M_ret, gets, modify, when, pop.
  rewrite Hi. change (truth (0 &&& FL_IF)) with false. cbn beta iota.
  rewrite mycpu_off by done. cbn beta iota.
  replace (c_ncli (m_cpus s c) - 1 <? 0) with false by lia. rewrite mycpu_off by (by rewrite cpus_same).
  rewrite cpus_same; cbn.
  replace (c_ncli (m_cpus s c) - 1 =? 0) with (c_ncli (m_cpus s c) =? 1) by lia.
  destruct ((c_ncli (m_cpus s c) =? 1) && _) eqn:E; rewrite ?cpus_same, ?set_cpu_twice; cbn; [done|].
  by rewrite Hi.
Qed.

Lemma push_if s : c_if (m_cpus (set_cpu c (push (m_cpus s c)) s) c) = false.
Proof. by rewrite cpus_same. Qed.

Lemma locks_set_cpu k s l : m_locks (set_cpu c k s) l = m_locks s l.
Proof. done. Qed.

(** [pop] undoes [push] on a CPU that keeps the nesting discipline. *)
Lemma pop_push k : cpu_ok k -> 0 < c_ncli k -> pop (push k) = k.
Proof.
  intros (H0 & H1 & H2) Hn. unfold pop, push; cbn. destruct k as [i n e]; cbn in *.
  replace (n =? 0) with false by lia. replace (n + 1 =? 1) with false by lia.
  rewrite H1 by done. cbn. f_equal; lia.
Qed.

Lemma pop_push0 k : cpu_ok k -> c_ncli k = 0 ->
  pop (push k) = Cpu (c_if k) 0 (if c_if k then FL_IF else 0).
Proof. intros (H0 & H1 & H2) Hn. unfold pop, push; cbn. rewrite Hn. by destruct (c_if k). Qed.

(** [holding] answers, and leaves the CPU as it was when nested. *)
Lemma holding_eq s l :
  0 <= c_ncli (m_cpus s c) ->
  holding c l s = Done (owned l c s) (set_cpu c (pop (push (m_cpus s c))) s).
Proof.
  intros Hn. unfold holding, mbind, M_bind, gets, mret, M_ret. rewrite pushcli_eq.
  cbn. rewrite mycpu_off by apply push_if.
  rewrite popcli_eq by (rewrite cpus_same; cbn; done || lia).
  by rewrite cpus_same, set_cpu_twice.
Qed.
End one_cpu.

(** ** The one-CPU view of [Locks.v] *)
Record represents (c : nat) (L : list lock) (s : machine) : Prop := Represents {
  rp_nodup : NoDup L;
  rp_owned : forall l, owned l c s = true <-> l ∈ L;
  rp_depth : c_ncli (m_cpus s c) = Z.of_nat (length L);
  rp_cpu : cpu_ok (m_cpus s c) }.

Lemma cpu_ok_push k : cpu_ok k -> cpu_ok (push k).
Proof.
  intros (H0 & H1 & H2). unfold cpu_ok, push; cbn. split; [lia|]. split; [done|].
  destruct (_ =? 0); [|done]. destruct (c_if k); auto.
Qed.

Lemma cpu_ok_pop k : cpu_ok k -> 0 < c_ncli k -> cpu_ok (pop k).
Proof.
  intros (H0 & H1 & H2) Hn. unfold cpu_ok, pop; cbn. split; [lia|]. split; [|done].
  intros. by replace (c_ncli k =? 1) with false by lia.
Qed.

Lemma locks_set_same l k s : m_locks (set_lock l k s) l = k.
Proof. apply lookup_total_insert_eq. Qed.
Lemma locks_set_other l l' k s : l' <> l -> m_locks (set_lock l k s) l' = m_locks s l'.
Proof. intros. by apply lookup_total_insert_ne. Qed.
Lemma cpus_set_lock l k s d : m_cpus (set_lock l k s) d = m_cpus s d.
Proof. done. Qed.
Lemma set_lock_twice l k k' s : set_lock l k (set_lock l k' s) = set_lock l k s.
Proof. unfold set_lock; cbn. by rewrite insert_insert_eq. Qed.

(** Taking one element out of a list of distinct locks. *)
Lemma length_filter_out L (l : lock) :
  NoDup L -> l ∈ L -> S (length (filter (fun x : lock => x <> l) L)) = length L.
Proof.
  induction L as [|x M IH]; [set_solver|].
  intros [Hx HM]%NoDup_cons Hl. destruct (decide (x = l)) as [->|Hne].
  - by rewrite filter_top.
  - rewrite filter_cons_True by done. cbn. f_equal. apply IH; [done|].
    apply elem_of_cons in Hl as [?|?]; [congruence|done].
Qed.

Section refine.
Variables (c : nat) (L : list lock) (s : machine).
Hypothesis HR : represents c L s.

Let Hnn : 0 <= c_ncli (m_cpus s c).
Proof. destruct HR as [_ _ -> _]. lia. Qed.

(** The prefix of [acquire] up to the outcome of [holding]. *)
Lemma acquire_holding fuel l :
  acquire fuel c l s
  = (if owned l c s then panic "acquire"
     else
       loop fuel (fun _ : unit =>
         old ← xchg1 l; mret (if old !=? 0 then inl tt else inr tt)) tt ;;
       i ← mycpu c; set_owner l (Some i)) (set_cpu c (push (m_cpus s c)) s).
Proof.
  unfold acquire. unfold mbind at 1, M_bind at 1. rewrite pushcli_eq.
  unfold mbind at 1, M_bind at 1. rewrite holding_eq by (rewrite cpus_same; cbn; lia).
  rewrite cpus_same, set_cpu_twice.
  rewrite pop_push; [|by apply cpu_ok_push, HR|cbn; lia]. done.
Qed.

Lemma acquire_reentry fuel l : l ∈ L -> acquire fuel c l s = Panic "acquire".
Proof. intros Hl. rewrite acquire_holding. by rewrite (proj2 (rp_owned _ _ _ HR l) Hl). Qed.

(** The spin: while the lock word is set, no amount of fuel is enough. *)
Lemma acquire_spins fuel l :
  l ∉ L -> sl_locked (m_locks s l) <> 0 -> acquire fuel c l s = Spin.
Proof.
  intros Hl Hk. rewrite acquire_holding.
  destruct (owned l c s) eqn:E; [by apply (rp_owned _ _ _ HR) in E|].
  unfold mbind at 1, M_bind at 1.
  assert (Hs : forall n t, sl_locked (m_locks t l) <> 0 ->
    loop n (fun _ : unit => old ← xchg1 l; mret (if old !=? 0 then inl tt else inr tt)) tt t
    = @Spin machine unit).
  { induction n as [|n IH]; intros t Ht; [done|]. cbn [loop].
    unfold xchg1, mbind, M_bind, gets, modify, mret, M_ret.
    apply Z.eqb_neq in Ht as Ht'. rewrite Ht'. cbn [negb]. apply IH.
    rewrite locks_set_same. cbn. lia. }
  by rewrite Hs.
Qed.

Lemma acquire_takes fuel l :
  (0 < fuel)%nat -> l ∉ L -> sl_locked (m_locks s l) = 0 ->
  let s' := set_lock l (Spin_ 1 (Some c)) (set_cpu c (push (m_cpus s c)) s) in
  acquire fuel c l s = Done tt s' /\ represents c (l :: L) s'.
Proof.
  intros Hf Hl Hk s'. split.
  - rewrite acquire_holding.
    destruct (owned l c s) eqn:E; [by apply (rp_owned _ _ _ HR) in E|].
    destruct fuel as [|n]; [lia|]. cbn [loop].
    unfold xchg1, set_owner, mbind, M_bind, gets, modify, mret, M_ret.
    rewrite locks_set_cpu, Hk. cbn [Z.eqb negb].
    rewrite mycpu_off by (rewrite cpus_set_lock, cpus_same; done).
    by rewrite locks_set_same, set_lock_twice.
  - destruct HR as [R1 R2 R3 R4]. unfold s'. split.
    + by constructor.
    + intros l'. unfold owned. rewrite elem_of_cons, <- R2. unfold owned.
      destruct (decide (l' = l)) as [->|Hne].
      * rewrite locks_set_same. cbn. rewrite bool_decide_true by done. naive_solver.
      * rewrite locks_set_other, locks_set_cpu by done. naive_solver.
    + rewrite cpus_set_lock, cpus_same. cbn. lia.
    + rewrite cpus_set_lock, cpus_same. by apply cpu_ok_push.
Qed.

Lemma release_unheld l : l ∉ L -> release c l s = Panic "release".
Proof.
  intros Hl. unfold release, mbind, M_bind. rewrite holding_eq by done.
  destruct (owned l c s) eqn:E; [by apply (rp_owned _ _ _ HR) in E|done].
Qed.

Lemma release_frees l :
  l ∈ L ->
  let s' := set_cpu c (pop (m_cpus s c)) (set_lock l (Spin_ 0 None) s) in
  release c l s = Done tt s' /\ represents c (filter (fun x : lock => x <> l) L) s'.
Proof.
  intros Hl s'. destruct HR as [R1 R2 R3 R4].
  assert (Hpos : 0 < c_ncli (m_cpus s c)) by (rewrite R3; destruct L; [set_solver|cbn; lia]).
  split.
  - unfold release, set_owner, clear_locked, mbind, M_bind, modify.
    rewrite holding_eq by done. rewrite (proj2 (R2 l) Hl). cbn [negb].
    rewrite pop_push by done.
    rewrite locks_set_same, set_lock_twice. cbn.
    rewrite popcli_eq; rewrite ?cpus_set_lock, ?cpus_same; [|by apply R4|done].
    unfold s', set_cpu, set_lock; cbn. by rewrite insert_insert_eq.
  - unfold s'. split.
    + by apply NoDup_filter.
    + intros l'. unfold owned. rewrite list_elem_of_filter, <- R2, locks_set_cpu. unfold owned.
      destruct (decide (l' = l)) as [->|Hne].
      * rewrite locks_set_same. cbn. naive_solver.
      * rewrite locks_set_other by done. naive_solver.
    + rewrite cpus_same. cbn. rewrite R3.
      pose proof (length_filter_out L l R1 Hl). lia.
    + rewrite cpus_same. by apply cpu_ok_pop.
Qed.
End refine.

(** ** Interleaved execution *)

(** Where a CPU is inside [acquire] or [release]: one constructor between any
    two accesses to shared memory.  [AcqCpu]/[RelCpu] follow the read of
    [lk->locked] in [holding] and precede that of [lk->cpu]. *)
Inductive pc :=
| Idle
| AcqStart (l : lock) | AcqLocked (l : lock) | AcqCpu (l : lock) | AcqXchg (l : lock)
| AcqOwner (l : lock)
| RelStart (l : lock) | RelCpu (l : lock) | RelOwner (l : lock) | RelClear (l : lock)
| RelPop.

#[export] Instance pc_inhabited : Inhabited pc := populate Idle.

(** One action of CPU [c]; the result is where it continues. *)
Definition act (c : nat) (p : pc) : M machine pc :=
  match p with
  | Idle => mret Idle
  | AcqStart l => pushcli c ;; mret (AcqLocked l)
  | AcqLocked l =>
      pushcli c ;;
      v ← gets (fun s => sl_locked (m_locks s l));
      if truth v then mret (AcqCpu l) else popcli c ;; mret (AcqXchg l)
  | AcqCpu l =>
      o ← gets (fun s => bool_decide (sl_cpu (m_locks s l) = Some c));
      popcli c ;;
      if (o : bool) then panic "acquire" else mret (AcqXchg l)
  | AcqXchg l => old ← xchg1 l; mret (if old !=? 0 then AcqXchg l else AcqOwner l)
  | AcqOwner l => i ← mycpu c; set_owner l (Some i) ;; mret Idle
  | RelStart l =>
      pushcli c ;;
      v ← gets (fun s => sl_locked (m_locks s l));
      if truth v then mret (RelCpu l) else popcli c ;; panic "release"
  | RelCpu l =>
      o ← gets (fun s => bool_decide (sl_cpu (m_locks s l) = Some c));
      popcli c ;;
      if (o : bool) then mret (RelOwner l) else panic "release"
  | RelOwner l => set_owner l None ;; mret (RelClear l)
  | RelClear l => clear_locked l ;; mret RelPop
  | RelPop => popcli c ;; mret Idle
  end.

(** The machine, where each CPU is, and the locks each has been given and not
    given back (a record of the past, read by no action). *)
Record sys := Sys { y_m : machine; y_pc : gmap nat pc; y_held : gmap nat (list lock) }.
Definition pcs (y : sys) (c : nat) : pc := y_pc y !!! c.
Definition held (y : sys) (c : nat) : list lock := y_held y !!! c.

(** What an action adds to or removes from that record. *)
Definition held_after (p : pc) (L : list lock) : list lock :=
  match p with
  | AcqOwner l => l :: L
  | RelClear l => filter (fun x : lock => x <> l) L
  | _ => L
  end.

Inductive sys_step : sys -> sys -> Prop :=
| step_acquire y c l :
    pcs y c = Idle -> sys_step y (Sys (y_m y) (<[c := AcqStart l]> (y_pc y)) (y_held y))
| step_release y c l :
    pcs y c = Idle -> sys_step y (Sys (y_m y) (<[c := RelStart l]> (y_pc y)) (y_held y))
| step_act y c p' m' :
    act c (pcs y c) (y_m y) = Done p' m' ->
    sys_step y (Sys m' (<[c := p']> (y_pc y))
                  (<[c := held_after (pcs y c) (held y c)]> (y_held y))).

Definition sys_init : sys := Sys (Machine ∅ ∅) ∅ ∅.
Definition reachable (y : sys) : Prop := star sys_step sys_init y.

(** The CPU is between the successful [xchg] and the clearing of the word. *)
Definition has (y : sys) (c : nat) (l : lock) : Prop :=
  l ∈ held y c \/ pcs y c = AcqOwner l.

(** [pushcli]s not yet undone besides one per held lock. *)
Definition pending (p : pc) : Z :=
  match p with
  | Idle | AcqStart _ | RelStart _ | RelOwner _ | RelClear _ => 0
  | AcqLocked _ | AcqXchg _ | AcqOwner _ | RelCpu _ | RelPop => 1
  | AcqCpu _ => 2
  end.

Definition pc_ok (p : pc) (L : list lock) : Prop :=
  match p with
  | AcqXchg l | AcqOwner l => l ∉ L
  | RelOwner l | RelClear l => l ∈ L
  | _ => True
  end.

Record sys_inv (y : sys) : Prop := SysInv {
  si_word : forall c l, has y c l -> sl_locked (m_locks (y_m y) l) <> 0;
  si_excl : forall c d l, has y c l -> has y d l -> c = d;
  si_owner : forall c l, sl_cpu (m_locks (y_m y) l) = Some c <->
    l ∈ held y c /\ pcs y c <> RelClear l;
  si_cpu : forall c, cpu_ok (m_cpus (y_m y) c)
    /\ c_ncli (m_cpus (y_m y) c) = Z.of_nat (length (held y c)) + pending (pcs y c);
  si_pc : forall c, NoDup (held y c) /\ pc_ok (pcs y c) (held y c) }.

(** The two states of a step whose lock record changes. *)
Definition shared_pc (p : pc) : Prop :=
  match p with AcqOwner _ | RelClear _ => True | _ => False end.

Lemma shared_not p l : ~ shared_pc p -> p <> AcqOwner l /\ p <> RelClear l.
Proof. intros H. split; intros ->; by apply H. Qed.

Section interleaving.
Context (y : sys) (c : nat).
Hypothesis HI : sys_inv y.

Definition move (m : machine) (p : pc) (L : list lock) : sys :=
  Sys m (<[c := p]> (y_pc y)) (<[c := L]> (y_held y)).

Lemma pcs_move m p L d : pcs (move m p L) d = if decide (d = c) then p else pcs y d.
Proof.
  unfold pcs, move; cbn. case_decide; subst; [apply lookup_total_insert_eq|].
  by apply lookup_total_insert_ne.
Qed.
Lemma held_move m p L d : held (move m p L) d = if decide (d = c) then L else held y d.
Proof.
  unfold held, move; cbn. case_decide; subst; [apply lookup_total_insert_eq|].
  by apply lookup_total_insert_ne.
Qed.

(** A step that touches no lock word. *)
Lemma inv_local k p :
  ~ shared_pc (pcs y c) -> ~ shared_pc p -> cpu_ok k ->
  c_ncli k = Z.of_nat (length (held y c)) + pending p -> pc_ok p (held y c) ->
  sys_inv (move (set_cpu c k (y_m y)) p (held y c)).
Proof.
  intros Hs1 Hs2 Hk Hn Hp. destruct HI as [I1 I2 I3 I4 I5].
  assert (Hh : forall d, held (move (set_cpu c k (y_m y)) p (held y c)) d = held y d).
  { intros d. rewrite held_move. case_decide; by subst. }
  assert (Hhas : forall d l, has (move (set_cpu c k (y_m y)) p (held y c)) d l <-> has y d l).
  { intros d l. unfold has. rewrite Hh, pcs_move. case_decide as E; [rewrite E|done].
    destruct (shared_not _ l Hs1), (shared_not _ l Hs2). tauto. }
  split.
  - intros d l. rewrite Hhas. apply I1.
  - intros d e l. rewrite !Hhas. apply I2.
  - intros d l. cbn. rewrite locks_set_cpu, I3, Hh, pcs_move. case_decide as E; [rewrite E|done].
    destruct (shared_not _ l Hs1), (shared_not _ l Hs2). tauto.
  - intros d. rewrite Hh, pcs_move; cbn. case_decide as Hd; subst.
    + by rewrite cpus_same.
    + rewrite cpus_other by done. apply I4.
  - intros d. rewrite Hh, pcs_move. case_decide; subst; [|apply I5].
    split; [apply I5|done].
Qed.

(** A step that changes the word of [l] only, and no CPU. *)
Lemma inv_lock l k p L :
  (forall l', l' <> l -> l' ∈ L <-> l' ∈ held y c) ->
  (forall l', l' <> l -> pcs y c <> AcqOwner l' /\ p <> AcqOwner l'
     /\ pcs y c <> RelClear l' /\ p <> RelClear l') ->
  NoDup L -> pc_ok p L ->
  Z.of_nat (length L) + pending p = Z.of_nat (length (held y c)) + pending (pcs y c) ->
  (l ∈ L \/ p = AcqOwner l -> sl_locked k <> 0 /\ forall d, d <> c -> ~ has y d l) ->
  (forall d, d <> c -> has y d l -> sl_locked k <> 0) ->
  (sl_cpu k = Some c <-> l ∈ L /\ p <> RelClear l) ->
  (forall d, d <> c -> sl_cpu k = Some d <-> sl_cpu (m_locks (y_m y) l) = Some d) ->
  sys_inv (move (set_lock l k (y_m y)) p L).
Proof.
  intros HL Hp Hnd Hok Hn Hw Hw' Ho Ho'. destruct HI as [I1 I2 I3 I4 I5].
  assert (Hhas : forall d l', l' <> l \/ d <> c ->
    has (move (set_lock l k (y_m y)) p L) d l' <-> has y d l').
  { intros d l' Hd. unfold has. rewrite held_move, pcs_move. case_decide; [|done]. subst.
    destruct Hd as [Hd|]; [|done]. rewrite HL by done. destruct (Hp l' Hd). naive_solver. }
  assert (Hhas' : has (move (set_lock l k (y_m y)) p L) c l <-> l ∈ L \/ p = AcqOwner l).
  { unfold has. rewrite held_move, pcs_move. by rewrite !decide_True by done. }
  split.
  - intros d l' H. cbn. destruct (decide (l' = l)) as [->|Hne].
    + rewrite locks_set_same. destruct (decide (d = c)) as [->|Hd].
      * by apply Hw, Hhas'.
      * apply (Hw' d Hd). by apply Hhas; [right|].
    + rewrite locks_set_other by done. apply (I1 d). by apply Hhas; [left|].
  - intros d e l' H1 H2. destruct (decide (l' = l)) as [->|Hne].
    + destruct (decide (d = c)) as [->|Hd], (decide (e = c)) as [->|He]; [done| | |].
      * apply Hhas', Hw in H1 as [_ H1]. apply Hhas in H2; [|by right]. by destruct (H1 e He).
      * apply Hhas', Hw in H2 as [_ H2]. apply Hhas in H1; [|by right]. by destruct (H2 d Hd).
      * apply Hhas in H1; [|by right]. apply Hhas in H2; [|by right]. by apply (I2 d e l).
    + apply Hhas in H1; [|by left]. apply Hhas in H2; [|by left]. by apply (I2 d e l').
  - intros d l'. cbn. rewrite held_move, pcs_move. destruct (decide (l' = l)) as [->|Hne].
    + rewrite locks_set_same. case_decide as Hd; [by subst|]. rewrite Ho' by done. apply I3.
    + rewrite locks_set_other by done. case_decide as Hd; [subst|apply I3].
      rewrite I3, HL by done. destruct (Hp l' Hne) as (_ & _ & ? & ?). tauto.
  - intros d. cbn. rewrite cpus_set_lock, held_move, pcs_move. destruct (I4 d) as [Hc Hd].
    split; [done|]. case_decide; [subst; lia|done].
  - intros d. rewrite held_move, pcs_move. case_decide; [done|apply I5].
Qed.
End interleaving.

Lemma sys_inv_ext y y' :
  (forall c, m_cpus (y_m y') c = m_cpus (y_m y) c) ->
  (forall l, m_locks (y_m y') l = m_locks (y_m y) l) ->
  (forall c, pcs y' c = pcs y c) -> (forall c, held y' c = held y c) ->
  sys_inv y -> sys_inv y'.
Proof.
  intros Ec El Ep Eh [I1 I2 I3 I4 I5].
  assert (Hh : forall c l, has y' c l <-> has y c l) by (intros; unfold has; by rewrite Ep, Eh).
  split; intros *; rewrite ?Hh, ?El, ?Ec, ?Ep, ?Eh; eauto.
Qed.

Lemma inv_start y c p :
  sys_inv y -> pcs y c = Idle -> ~ shared_pc p -> pending p = 0 -> pc_ok p (held y c) ->
  sys_inv (Sys (y_m y) (<[c := p]> (y_pc y)) (y_held y)).
Proof.
  intros HI Hi Hs Hp Hok. destruct (si_cpu _ HI c) as [Hc Hd]. rewrite Hi in Hd. cbn in Hd.
  eapply sys_inv_ext; [| | | |apply (inv_local y c HI (m_cpus (y_m y) c) p)]; try done.
  - intros d. cbn. destruct (decide (d = c)) as [->|]; [by rewrite cpus_same|by rewrite cpus_other].
  - intros d. rewrite held_move. case_decide; by subst.
  - rewrite Hi. by intros [].
  - lia.
Qed.

Section actions.
Context (y : sys) (c : nat).
Hypothesis HI : sys_inv y.
Let k := m_cpus (y_m y) c.

Let depth : c_ncli k = Z.of_nat (length (held y c)) + pending (pcs y c).
Proof. apply (si_cpu _ HI c). Qed.
Let ok : cpu_ok k.
Proof. apply (si_cpu _ HI c). Qed.

Lemma sys_push p :
  ~ shared_pc (pcs y c) -> ~ shared_pc p -> pending p = pending (pcs y c) + 1 ->
  pc_ok p (held y c) -> sys_inv (move y c (set_cpu c (push k) (y_m y)) p (held y c)).
Proof.
  intros Hs1 Hs2 Hp Hok. apply inv_local; try done; [by apply cpu_ok_push|]. cbn. lia.
Qed.

Lemma sys_pop p :
  ~ shared_pc (pcs y c) -> ~ shared_pc p -> pending p = pending (pcs y c) - 1 ->
  0 < pending (pcs y c) ->
  pc_ok p (held y c) -> sys_inv (move y c (set_cpu c (pop k) (y_m y)) p (held y c)).
Proof.
  intros Hs1 Hs2 Hp Hq Hok. apply inv_local; try done; [apply cpu_ok_pop; [done|]|cbn]; lia.
Qed.

Lemma sys_popcli : 0 < c_ncli k -> popcli c (y_m y) = Done tt (set_cpu c (pop k) (y_m y)).
Proof. intros Hn. apply popcli_eq; [by apply ok|done]. Qed.

(** [holding] sees the owner of a lock exactly when the CPU has it. *)
Lemma not_held_word l : sl_locked (m_locks (y_m y) l) = 0 -> l ∉ held y c.
Proof. intros E Hin. by apply (si_word _ HI c l); [left|]. Qed.

Lemma not_held_owner l :
  pcs y c <> RelClear l -> sl_cpu (m_locks (y_m y) l) <> Some c -> l ∉ held y c.
Proof. intros Hp Hn Hin. by apply Hn, (si_owner _ HI). Qed.

Lemma sys_xchg_busy l :
  pcs y c = AcqXchg l -> sl_locked (m_locks (y_m y) l) <> 0 ->
  sys_inv (move y c (set_lock l (Spin_ 1 (sl_cpu (m_locks (y_m y) l))) (y_m y))
             (AcqXchg l) (held y c)).
Proof.
  intros Hp Hw. destruct (si_pc _ HI c) as [Hnd Hok]. rewrite Hp in Hok.
  apply inv_lock; rewrite ?Hp; try done.
  - intros [?|?]; done.
  - cbn. rewrite (si_owner _ HI), Hp. naive_solver.
Qed.

Lemma sys_xchg_free l :
  pcs y c = AcqXchg l -> sl_locked (m_locks (y_m y) l) = 0 ->
  sys_inv (move y c (set_lock l (Spin_ 1 (sl_cpu (m_locks (y_m y) l))) (y_m y))
             (AcqOwner l) (held y c)).
Proof.
  intros Hp Hw. destruct (si_pc _ HI c) as [Hnd Hok]. rewrite Hp in Hok.
  apply inv_lock; rewrite ?Hp; try done.
  - intros l' Hl. split; [done|]. split; [congruence|done].
  - intros _. split; [done|]. intros d Hd Hh. by apply (si_word _ HI d l).
  - cbn. rewrite (si_owner _ HI), Hp. naive_solver.
Qed.

Lemma sys_owner l :
  pcs y c = AcqOwner l ->
  sys_inv (move y c (set_lock l (Spin_ (sl_locked (m_locks (y_m y) l)) (Some c)) (y_m y))
             Idle (l :: held y c)).
Proof.
  intros Hp. destruct (si_pc _ HI c) as [Hnd Hok]. rewrite Hp in Hok.
  assert (Hme : has y c l) by (right; done).
  assert (Hno : forall d, d <> c -> ~ has y d l).
  { intros d Hd Hh. apply Hd. by apply (si_excl _ HI d c l). }
  apply inv_lock; rewrite ?Hp; try done.
  - intros l' Hl. set_solver.
  - intros l' Hl. split; [congruence|done].
  - by constructor.
  - cbn. lia.
  - intros _. split; [by apply (si_word _ HI c)|done].
  - intros d Hd Hh. by destruct (Hno d).
  - cbn. split; [|done]. intros _. split; [by left|done].
  - intros d Hd. cbn. split; [congruence|]. intros E%(si_owner _ HI).
    destruct (Hno d Hd). left. apply E.
Qed.

Lemma sys_rel_owner l :
  pcs y c = RelOwner l ->
  sys_inv (move y c (set_lock l (Spin_ (sl_locked (m_locks (y_m y) l)) None) (y_m y))
             (RelClear l) (held y c)).
Proof.
  intros Hp. destruct (si_pc _ HI c) as [Hnd Hok]. rewrite Hp in Hok. cbn in Hok.
  assert (Hme : has y c l) by (left; done).
  assert (Hno : forall d, d <> c -> ~ has y d l).
  { intros d Hd Hh. apply Hd. by apply (si_excl _ HI d c l). }
  apply inv_lock; rewrite ?Hp; try done.
  - intros l' Hl. split; [done|]. split; [done|]. split; [done|congruence].
  - intros _. split; [by apply (si_word _ HI c)|done].
  - intros d Hd Hh. by destruct (Hno d).
  - cbn. naive_solver.
  - intros d Hd. cbn. split; [done|]. intros E%(si_owner _ HI).
    destruct (Hno d Hd). left. apply E.
Qed.

Lemma sys_rel_clear l :
  pcs y c = RelClear l ->
  sys_inv (move y c (set_lock l (Spin_ 0 (sl_cpu (m_locks (y_m y) l))) (y_m y))
             RelPop (filter (fun x : lock => x <> l) (held y c))).
Proof.
  intros Hp. destruct (si_pc _ HI c) as [Hnd Hok]. rewrite Hp in Hok. cbn in Hok.
  assert (Hno : forall d, d <> c -> ~ has y d l).
  { intros d Hd Hh. apply Hd. apply (si_excl _ HI d c l); [done|by left]. }
  apply inv_lock; rewrite ?Hp; try done.
  - intros l' Hl. rewrite list_elem_of_filter. tauto.
  - intros l' Hl. split; [done|]. split; [done|]. split; [congruence|done].
  - by apply NoDup_filter.
  - cbn. pose proof (length_filter_out _ _ Hnd Hok). lia.
  - rewrite list_elem_of_filter. naive_solver.
  - intros d Hd Hh. by destruct (Hno d).
  - cbn. rewrite (si_owner _ HI), Hp, list_elem_of_filter. naive_solver.
Qed.
End actions.

(** Executes one action of a CPU whose nesting is known. *)
Ltac run_act :=
  unfold xchg1, set_owner, clear_locked, mbind, M_bind, gets, modify, mret, M_ret;
  rewrite ?pushcli_eq; cbn beta iota.

Ltac act_side := cbn; first [tauto | lia | done].

Lemma act_preserves y c p' m' :
  sys_inv y -> act c (pcs y c) (y_m y) = Done p' m' ->
  sys_inv (move y c m' p' (held_after (pcs y c) (held y c))).
Proof.
  intros HI. destruct (si_cpu _ HI c) as [Hc Hd]. destruct (si_pc _ HI c) as [_ Hok].
  pose proof (sys_push y c HI) as Hpush. pose proof (sys_pop y c HI) as Hpop.
  pose proof (sys_popcli y c HI) as Hpc.
  destruct (pcs y c) as [|l|l|l|l|l|l|l|l|l|] eqn:Hp; cbn [act held_after pending pc_ok shared_pc] in *.
  - intros [= <- <-]. eapply sys_inv_ext; [| | | |exact HI]; try done; intros d.
    + rewrite pcs_move. case_decide; by subst.
    + rewrite held_move. case_decide; by subst.
  - run_act. intros [= <- <-]. apply Hpush; act_side.
  - run_act. rewrite locks_set_cpu. destruct (truth _) eqn:Ht.
    + intros [= <- <-]. apply Hpush; act_side.
    + rewrite popcli_eq, cpus_same, set_cpu_twice by (rewrite cpus_same; cbn; done || lia).
      intros [= <- <-]. rewrite pop_push by (done || lia).
      apply (inv_local y c HI); rewrite ?Hp; try act_side.
      apply (not_held_word y c HI). unfold truth in Ht. lia.
  - run_act. rewrite Hpc by lia. case_bool_decide as Ho; [done|].
    intros [= <- <-]. apply Hpop; try act_side. apply (not_held_owner y c HI); [congruence|done].
  - run_act. destruct (Z.eqb_spec (sl_locked (m_locks (y_m y) l)) 0) as [Hz|Hz];
      cbn [negb]; intros [= <- <-]; [by apply sys_xchg_free|by apply sys_xchg_busy].
  - run_act. rewrite mycpu_off by (apply Hc; lia). cbn beta iota. intros [= <- <-].
    exact (sys_owner y c HI l Hp).
  - run_act. rewrite locks_set_cpu. destruct (truth _) eqn:Ht; [|by rewrite popcli_eq by (rewrite cpus_same; cbn; done || lia)].
    intros [= <- <-]. apply Hpush; act_side.
  - run_act. rewrite Hpc by lia. case_bool_decide as Ho; [|done].
    intros [= <- <-]. apply Hpop; try act_side. by apply (si_owner _ HI) in Ho as [? _].
  - run_act. intros [= <- <-]. by apply sys_rel_owner.
  - run_act. intros [= <- <-]. by apply sys_rel_clear.
  - run_act. rewrite Hpc by lia. intros [= <- <-]. apply Hpop; act_side.
Qed.

Lemma sys_step_inv y y' : sys_inv y -> sys_step y y' -> sys_inv y'.
Proof.
  intros HI. destruct 1 as [y c l Hi|y c l Hi|y c p' m' Ha].
  - apply inv_start; act_side.
  - apply inv_start; act_side.
  - by apply act_preserves.
Qed.

Lemma sys_init_inv : sys_inv sys_init.
Proof.
  assert (Hh : forall c, held sys_init c = []) by (intros c; unfold held; cbn; by rewrite lookup_total_empty).
  assert (Hp : forall c, pcs sys_init c = Idle) by (intros c; unfold pcs; cbn; by rewrite lookup_total_empty).
  assert (Hc : forall c, m_cpus (y_m sys_init) c = Cpu true 0 0) by (intros c; unfold m_cpus; cbn; by rewrite lookup_total_empty).
  assert (Hl : forall l, m_locks (y_m sys_init) l = Spin_ 0 None) by (intros l; unfold m_locks; cbn; by rewrite lookup_total_empty).
  split; intros *; unfold has; rewrite ?Hh, ?Hp, ?Hc, ?Hl; cbn.
  - intros [?|?]; [set_solver|done].
  - intros [?|?]; [set_solver|done].
  - split; [done|]. intros [? _]. set_solver.
  - unfold cpu_ok; cbn. split; [|lia]. split; [lia|]. split; [lia|by left].
  - split; [constructor|done].
Qed.

Lemma reachable_inv y : reachable y -> sys_inv y.
Proof. apply (star_invariant sys_step sys_inv); [apply sys_step_inv|apply sys_init_inv]. Qed.

(** (C6) Mutual exclusion: in every reachable state of every interleaving of
    any number of CPUs, at most one CPU is between the successful [xchg] of
    [acquire] and the clearing of the word in [release] for a given lock, and
    that CPU runs with interrupts disabled. *)
Theorem spinlock_mutual_exclusion y c d l :
  reachable y -> has y c l -> has y d l -> c = d /\ c_if (m_cpus (y_m y) c) = false.
Proof.
  intros Hr Hc Hd. pose proof (reachable_inv y Hr) as HI.
  split; [by apply (si_excl _ HI c d l)|].
  destruct (si_cpu _ HI c) as [(_ & Hoff & _) Hn]. apply Hoff. rewrite Hn.
  assert (0 <= pending (pcs y c)) by (destruct (pcs y c); cbn; lia).
  destruct Hc as [Hc| ->]; [|cbn; lia]. destruct (held y c); [set_solver|cbn; lia].
Qed.

(** [panic("acquire")] and [panic("release")] are never spurious: in a
    reachable state an action of [acquire(l)] stops the kernel only on a CPU
    that already has [l], one of [release(l)] only on a CPU that has not, and
    the nesting checks of [popcli] never fail. *)
Theorem spinlock_panics_exact y c msg :
  reachable y -> act c (pcs y c) (y_m y) = Panic msg ->
  (exists l, msg = "acquire" /\ pcs y c = AcqCpu l /\ l ∈ held y c)
  \/ (exists l, msg = "release" /\ (pcs y c = RelStart l \/ pcs y c = RelCpu l) /\ l ∉ held y c).
Proof.
  intros Hr. pose proof (reachable_inv y Hr) as HI.
  destruct (si_cpu _ HI c) as [Hc Hd]. pose proof (sys_popcli y c HI) as Hpc.
  destruct (pcs y c) as [|l|l|l|l|l|l|l|l|l|] eqn:Hp; cbn [act pending] in *; run_act; try done.
  - rewrite locks_set_cpu. destruct (truth _); [done|].
    rewrite popcli_eq by (rewrite cpus_same; cbn; done || lia). done.
  - rewrite Hpc by lia. case_bool_decide as Ho; [|done]. intros [= <-].
    left. exists l. split; [done|]. split; [done|]. by apply (si_owner _ HI) in Ho as [? _].
  - rewrite mycpu_off by (apply Hc; lia). done.
  - rewrite locks_set_cpu. destruct (truth _) eqn:Ht; [done|].
    rewrite popcli_eq by (rewrite cpus_same; cbn; done || lia). intros [= <-].
    right. exists l. split; [done|]. split; [by left|].
    apply (not_held_word y c HI). unfold truth in Ht. lia.
  - rewrite Hpc by lia. case_bool_decide as Ho; [done|]. intros [= <-].
    right. exists l. split; [done|]. split; [by right|].
    apply (not_held_owner y c HI); [congruence|done].
  - rewrite Hpc by lia. done.
Qed.

(** ** Refinement of the view of [Locks.v] *)
#[export, program] Instance list_locks : HasLocks (list lock) := {|
  locks_of L := L; with_locks L _ := L |}.
Next Obligation. done. Qed.
Next Obligation. done. Qed.
Next Obligation. done. Qed.

(** [R] relates the outcomes: the same result, or the same panic. *)
Definition simulates {S T A} (R : T -> S -> Prop) (o : outcome S A) (p : outcome T A) : Prop :=
  match p with
  | Done a t => exists s, o = Done a s /\ R t s
  | Panic msg => o = Panic msg
  | _ => False
  end.

(** (C27) [acquire] and [release] implement the lock view the other components
    use ([Locks.v]): on a CPU that holds exactly the locks [L], each takes the
    machine to one on which it holds the locks the view says, or stops with
    the same panic.  [acquire] needs the word to be clear or the lock to be
    its own already; otherwise it spins ([acquire_spins]). *)
Theorem spinlock_refines_locks c L s fuel l :
  represents c L s -> (0 < fuel)%nat ->
  (sl_locked (m_locks s l) = 0 \/ l ∈ L ->
     simulates (represents c) (acquire fuel c l s) (Locks.acquire l L))
  /\ simulates (represents c) (release c l s) (Locks.release l L).
Proof.
  intros HR Hf. split.
  - intros Hl. unfold Locks.acquire; cbn. destruct (decide (l ∈ L)) as [Hin|Hn]; cbn.
    + by apply (acquire_reentry c L s HR).
    + destruct Hl as [Hl|]; [|done].
      destruct (acquire_takes c L s HR fuel l Hf Hn Hl) as [E H]. eauto.
  - unfold Locks.release; cbn. destruct (decide (l ∈ L)) as [Hin|Hn]; cbn.
    + destruct (release_frees c L s HR l Hin) as [E H]. eauto.
    + by apply (release_unheld c L s HR).
Qed.

Lemma ex_represents : represents 0%nat [] (Machine ∅ ∅).
Proof.
  split; [constructor| | |].
  - intros l. unfold owned, m_locks; cbn. rewrite lookup_total_empty; cbn. set_solver.
  - reflexivity.
  - change (m_cpus _ _) with (Cpu true 0 0). unfold cpu_ok; cbn.
    split; [lia|]. split; [done|by left].
Qed.

Lemma spinlock_refines_locks_witness :
  simulates (represents 0) (release 0 Lkmem (Machine ∅ ∅)) (Locks.release Lkmem []).
Proof.
  apply (spinlock_refines_locks 0 [] (Machine ∅ ∅) 1 Lkmem); [apply ex_represents|lia].
Defined.

(** [n] actions of CPU [c], when it can take them. *)
Fixpoint run_acts (n : nat) (c : nat) (y : sys) : option sys :=
  match n with
  | O => Some y
  | S n' =>
      match act c (pcs y c) (y_m y) with
      | Done p' m' =>
          run_acts n' c (Sys m' (<[c := p']> (y_pc y)) (<[c := held_after (pcs y c) (held y c)]> (y_held y)))
      | _ => None
      end
  end.

Lemma run_acts_star n c y y' : run_acts n c y = Some y' -> star sys_step y y'.
Proof.
  revert y. induction n as [|n IH]; intros y; cbn [run_acts]; [intros [= ->]; apply star_refl|].
  destruct (act c (pcs y c) (y_m y)) as [p' m'| | | |] eqn:E; try done. intros Hr.
  eapply star_trans; [apply star_one, (step_act _ c p' m' E)|by apply IH].
Qed.

(** CPU [c] calls [acquire(l)] and takes [n] actions. *)
Definition run_acquire (n : nat) (c : nat) (l : lock) (y : sys) : option sys :=
  match pcs y c with
  | Idle => run_acts n c (Sys (y_m y) (<[c := AcqStart l]> (y_pc y)) (y_held y))
  | _ => None
  end.

Lemma run_acquire_star n c l y y' : run_acquire n c l y = Some y' -> star sys_step y y'.
Proof.
  unfold run_acquire. destruct (pcs y c) eqn:E; try done. intros Hr.
  eapply star_trans; [apply star_one, (step_acquire _ c l E)|by eapply run_acts_star].
Qed.

(** CPU 0 has just won the [xchg] of [acquire(&kmem.lock)]. *)
Lemma ex_won_reachable :
  exists y, reachable y /\ pcs y 0 = AcqOwner Lkmem.
Proof.
  destruct (run_acquire 3 0 Lkmem sys_init) as [y|] eqn:E; [|by vm_compute in E].
  exists y. split; [by eapply run_acquire_star|].
  assert (Hp : (run_acquire 3 0 Lkmem sys_init ≫= fun y => Some (pcs y 0)) = Some (AcqOwner Lkmem)) by (vm_compute; reflexivity).
  rewrite E in Hp. by injection Hp.
Qed.

Lemma spinlock_mutual_exclusion_witness :
  exists y, has y 0 Lkmem /\ 0%nat = 0%nat /\ c_if (m_cpus (y_m y) 0) = false.
Proof.
  destruct ex_won_reachable as (y & Hr & Hp). exists y.
  split; [by right|]. by apply (spinlock_mutual_exclusion y 0 0 Lkmem); [|right|right].
Defined.

(** CPU 0 acquires [kmem.lock] a second time, up to the test of the owner. *)
Lemma ex_twice_reachable :
  exists y, reachable y /\ act 0 (pcs y 0) (y_m y) = Panic "acquire".
Proof.
  pose (run := run_acquire 4 0 Lkmem sys_init ≫= run_acquire 2 0 Lkmem).
  assert (Hp : match run with Some y => match act 0 (pcs y 0) (y_m y) with Panic m => m | _ => "" end | None => "" end = "acquire"%string)
    by (vm_compute; reflexivity).
  unfold run in Hp. destruct (run_acquire 4 0 Lkmem sys_init) as [y1|] eqn:E1; [|done]. cbn [mbind option_bind] in Hp.
  destruct (run_acquire 2 0 Lkmem y1) as [y|] eqn:E2; [|done]. exists y. split.
  - unfold reachable. eapply star_trans; by eapply run_acquire_star.
  - destruct (act 0 (pcs y 0) (y_m y)) as [|m| | |]; try done. by rewrite Hp.
Qed.

Lemma spinlock_panics_exact_witness :
  exists y, (exists l, "acquire" = "acquire" /\ pcs y 0 = AcqCpu l /\ l ∈ held y 0)
  \/ (exists l, "acquire" = "release" /\ (pcs y 0 = RelStart l \/ pcs y 0 = RelCpu l) /\ l ∉ held y 0).
Proof.
  destruct ex_twice_reachable as (y & Hr & Hp). exists y.
  exact (spinlock_panics_exact y 0 "acquire" Hr Hp).
Defined.
