(* ===== verification/Sleeplock.v ===== *)
(** * Sleep locks ([sleeplock.c])

    A sleep lock is a word and the pid of its owner, guarded by a spin lock
    that is held for the length of each function only.  [acquiresleep_run] is
    one pass of [acquiresleep] up to its return or its [sleep]; a woken process
    runs it again.  The second half puts the runs of any number of processes
    in sequence and proves mutual exclusion and that no wakeup is lost. *)
From S2P Require Import Prelude Locks.

Record sleeplock := Sleeplock { slk_locked : Z; slk_pid : Z }.

Definition initsleeplock : sleeplock := Sleeplock 0 0.

(** The lock, the wakeups issued on it, and the held spin locks. *)
Record sst := Sst { ss_lk : sleeplock; ss_wakes : nat; ss_held : list lock }.

#[export, program] Instance sst_locks : HasLocks sst := {|
  locks_of := ss_held;
  with_locks L s := Sst (ss_lk s) (ss_wakes s) L |}.
Next Obligation. done. Qed.
Next Obligation. done. Qed.
Next Obligation. by intros []. Qed.

Definition set_lk (k : sleeplock) : M sst unit :=
  modify (fun s => Sst k (ss_wakes s) (ss_held s)).
Definition wakeup_lk : M sst unit :=
  modify (fun s => Sst (ss_lk s) (S (ss_wakes s)) (ss_held s)).

Section sleeplock.
Variable lk : lock.

(** [true] when the lock was taken, [false] when the process sleeps on it. *)
Definition acquiresleep_run (pid : Z) : M sst bool :=
  acquire lk ;;
  k ← gets ss_lk;
  if truth (slk_locked k) then release lk ;; mret false
  else set_lk (Sleeplock 1 pid) ;; release lk ;; mret true.

Definition releasesleep : M sst unit :=
  acquire lk ;;
  set_lk (Sleeplock 0 0) ;;
  wakeup_lk ;;
  release lk.

Definition holdingsleep (pid : Z) : M sst bool :=
  acquire lk ;;
  k ← gets ss_lk;
  release lk ;;
  mret (truth (slk_locked k) && (slk_pid k =? pid)).

Lemma acquiresleep_eq pid k w L :
  lk ∉ L ->
  acquiresleep_run pid (Sst k w L)
  = if truth (slk_locked k) then Done false (Sst k w L) else Done true (Sst (Sleeplock 1 pid) w L).
Proof.
  intros HL. unfold acquiresleep_run, set_lk, mbind, M_bind, gets, modify, mret, M_ret.
  rewrite acquire_free by done. cbn. destruct (truth (slk_locked k));
    by erewrite (release_top lk L).
Qed.

Lemma releasesleep_eq k w L :
  lk ∉ L -> releasesleep (Sst k w L) = Done tt (Sst (Sleeplock 0 0) (S w) L).
Proof.
  intros HL. unfold releasesleep, set_lk, wakeup_lk, mbind, M_bind, modify.
  rewrite acquire_free by done. by erewrite (release_top lk L).
Qed.

Lemma holdingsleep_eq pid k w L :
  lk ∉ L ->
  holdingsleep pid (Sst k w L) = Done (truth (slk_locked k) && (slk_pid k =? pid)) (Sst k w L).
Proof.
  intros HL. unfold holdingsleep, mbind, M_bind, gets, mret, M_ret.
  rewrite acquire_free by done. cbn. by erewrite (release_top lk L).
Qed.

(** ** Many processes *)

(** The lock, who sleeps on it, and who has returned from [acquiresleep] and
    not yet called [releasesleep]. *)
Record slsys := Slsys { z_lk : sleeplock; z_asleep : gset Z; z_owners : gset Z }.

Inductive sl_step : slsys -> slsys -> Prop :=
| sl_acquire y pid r s' :
    pid ∉ z_asleep y -> pid ∉ z_owners y -> pid <> 0 ->
    acquiresleep_run pid (Sst (z_lk y) 0 []) = Done r s' ->
    sl_step y (Slsys (ss_lk s')
                 (if r then z_asleep y else {[ pid ]} ∪ z_asleep y)
                 (if r then {[ pid ]} ∪ z_owners y else z_owners y))
| sl_release y pid s' :
    pid ∈ z_owners y ->
    releasesleep (Sst (z_lk y) 0 []) = Done tt s' ->
    sl_step y (Slsys (ss_lk s') (if (ss_wakes s' =? 0)%nat then z_asleep y else ∅)
                 (z_owners y ∖ {[ pid ]}))
| sl_kill y pid : sl_step y (Slsys (z_lk y) (z_asleep y ∖ {[ pid ]}) (z_owners y)).

Definition sl_inv (y : slsys) : Prop :=
  (slk_locked (z_lk y) = 0 /\ z_owners y = ∅ /\ z_asleep y = ∅)
  \/ (slk_locked (z_lk y) = 1 /\ slk_pid (z_lk y) <> 0 /\ z_owners y = {[ slk_pid (z_lk y) ]}).

Lemma sl_inv_step y y' : sl_inv y -> sl_step y y' -> sl_inv y'.
Proof.
  intros Hi. destruct 1 as [y pid r s' H1 H2 H3 E|y pid s' H1 E|y pid].
  - rewrite acquiresleep_eq in E by set_solver.
    destruct Hi as [(E0 & Ho & Ha)|(E0 & Hp & Ho)]; rewrite E0 in E; injection E as <- <-.
    + right. cbn. split; [done|]. split; [done|]. rewrite Ho. set_solver.
    + right. by rewrite Ho.
  - rewrite releasesleep_eq in E by set_solver. injection E as <-.
    left. cbn. destruct Hi as [(E0 & Ho & Ha)|(E0 & Hp & Ho)]; [exfalso; set_solver|].
    split; [done|]. rewrite Ho. split; [|done].
    assert (pid = slk_pid (z_lk y)) as <- by set_solver. set_solver.
  - destruct Hi as [(E0 & Ho & Ha)|Hi]; [left|by right]. cbn.
    split; [done|]. rewrite Ha. split; [done|set_solver].
Qed.

Definition sl_init : slsys := Slsys initsleeplock ∅ ∅.

Lemma sl_reachable_inv y : star sl_step sl_init y -> sl_inv y.
Proof. apply (star_invariant sl_step sl_inv sl_inv_step). by left. Qed.

(** (C25) Sleep locks: under every interleaving of any number of processes at
    most one process is between [acquiresleep] and [releasesleep], it is the
    one [holdingsleep] says yes to, and a process sleeps on the lock only
    while somebody has it (so the wakeup of [releasesleep] is never missed). *)
Theorem sleeplock_exclusion_and_wakeup y :
  star sl_step sl_init y ->
  (forall p q, p ∈ z_owners y -> q ∈ z_owners y -> p = q)
  /\ (forall p s, p <> 0 -> holdingsleep p (Sst (z_lk y) 0 []) = Done true s <-> p ∈ z_owners y /\ s = Sst (z_lk y) 0 [])
  /\ (z_asleep y <> ∅ -> exists p, p ∈ z_owners y).
Proof.
  intros Hr%sl_reachable_inv. split; [|split].
  - intros p q. destruct Hr as [(_ & -> & _)|(_ & _ & ->)]; set_solver.
  - intros p s Hp. rewrite holdingsleep_eq by set_solver.
    destruct Hr as [(E & Ho & _)|(E & Hn & Ho)]; rewrite E, Ho; cbn.
    + split; [done|set_solver].
    + rewrite elem_of_singleton. split.
      * intros [= Hp'%Z.eqb_eq <-]. done.
      * intros [-> ->]. by rewrite Z.eqb_refl.
  - intros Ha. destruct Hr as [(_ & _ & He)|(_ & _ & ->)]; [done|]. eexists. by apply elem_of_singleton.
Qed.
End sleeplock.

Lemma sleeplock_exclusion_and_wakeup_witness :
  exists y, z_owners y = {[ 7 ]} /\ z_asleep y = {[ 8 ]}
    /\ ((forall p q, p ∈ z_owners y -> q ∈ z_owners y -> p = q)
      /\ (forall p s, p <> 0 -> holdingsleep (Lsleep 0) p (Sst (z_lk y) 0 []) = Done true s
            <-> p ∈ z_owners y /\ s = Sst (z_lk y) 0 [])
      /\ (z_asleep y <> ∅ -> exists p, p ∈ z_owners y)).
Proof.
  exists (Slsys (Sleeplock 1 7) {[ 8 ]} {[ 7 ]}). split; [done|]. split; [done|].
  apply (sleeplock_exclusion_and_wakeup (Lsleep 0)).
  assert (S1 : sl_step (Lsleep 0) sl_init (Slsys (Sleeplock 1 7) ∅ ({[ 7 ]} ∪ ∅))).
  { apply (sl_acquire (Lsleep 0) sl_init 7 true (Sst (Sleeplock 1 7) 0 [])); try set_solver; done. }
  rewrite (right_id_L ∅ (∪)) in S1. eapply star_step; [by apply star_one|].
  assert (E : acquiresleep_run (Lsleep 0) 8 (Sst (Sleeplock 1 7) 0 [])
              = Done false (Sst (Sleeplock 1 7) 0 [])) by done.
  pose proof (sl_acquire (Lsleep 0) (Slsys (Sleeplock 1 7) ∅ {[ 7 ]}) 8 false _
    ltac:(set_solver) ltac:(set_solver) ltac:(done) E) as S2.
  cbn in S2. rewrite (right_id_L ∅ (∪)) in S2. exact S2.
Defined.
