(* ===== verification/Pipe.v ===== *)
(** * Pipes ([pipe.c])

    [pipewrite] and [piperead] run under [p->lock] until they return or go to
    sleep; a sleeping call gives the lock up and, once woken, takes it again and
    repeats the test of its [while] loop.  [pipewrite_run] and [piperead_run]
    are one such run: [i] is the loop variable a sleeping writer resumes with.
    [pipealloc], which needs the file table, is in [SysFile.v].

    The counters [nread] and [nwrite] are [uint]s that only grow; the theorems
    hold across their wrap-around. *)
From S2P Require Import Prelude Locks.

Definition PIPESIZE : Z := 512.

Record pipe := Pipe {
  p_data : list Z;
  p_nread : Z;
  p_nwrite : Z;
  p_readopen : Z;
  p_writeopen : Z }.

(** The sleep channels [&p->nread] and [&p->nwrite]. *)
Inductive chan := Cnread | Cnwrite.
#[export] Instance chan_eq_dec : EqDecision chan.
Proof. solve_decision. Defined.

(** What a run can see and do: the pipe, whether the page was freed, the
    [wakeup]s issued (newest first), the bytes stored to the reader's buffer
    and the held locks. *)
Record pst := Pst {
  ps_pipe : pipe;
  ps_freed : bool;
  ps_wakes : list chan;
  ps_out : list Z;
  ps_held : list lock }.

#[export, program] Instance pst_locks : HasLocks pst := {|
  locks_of := ps_held;
  with_locks L s := Pst (ps_pipe s) (ps_freed s) (ps_wakes s) (ps_out s) L |}.
Next Obligation. done. Qed.
Next Obligation. done. Qed.
Next Obligation. by intros []. Qed.

Definition upd_pipe (f : pipe -> pipe) (s : pst) : pst :=
  Pst (f (ps_pipe s)) (ps_freed s) (ps_wakes s) (ps_out s) (ps_held s).
Definition wakeup (c : chan) : M pst unit :=
  modify (fun s => Pst (ps_pipe s) (ps_freed s) (c :: ps_wakes s) (ps_out s) (ps_held s)).
Definition kfree_pipe : M pst unit :=
  modify (fun s => Pst (ps_pipe s) true (ps_wakes s) (ps_out s) (ps_held s)).
Definition put_out (b : Z) : M pst unit :=
  modify (fun s => Pst (ps_pipe s) (ps_freed s) (ps_wakes s) (ps_out s ++ [b]) (ps_held s)).

(** How a run ends: with a return value, or asleep on a channel. *)
Inductive pout := PRet (r : Z) | PSleep (c : chan) (i : Z).

Section pipe.
Variable plock : lock.

(** The fields [pipealloc] sets on a fresh page. *)
Definition pipe_init (p : pipe) : pipe := Pipe (p_data p) 0 0 1 1.

Definition pipeclose (writable : bool) : M pst unit :=
  acquire plock ;;
  (if writable then
     modify (upd_pipe (fun p => Pipe (p_data p) (p_nread p) (p_nwrite p) (p_readopen p) 0)) ;;
     wakeup Cnread
   else
     modify (upd_pipe (fun p => Pipe (p_data p) (p_nread p) (p_nwrite p) 0 (p_writeopen p))) ;;
     wakeup Cnwrite) ;;
  p ← gets ps_pipe;
  if (p_readopen p =? 0) && (p_writeopen p =? 0) then
    release plock ;; kfree_pipe
  else release plock.

(** [p->data[p->nwrite++ % PIPESIZE] = b] *)
Definition put_byte (b : Z) (p : pipe) : pipe :=
  Pipe (<[Z.to_nat (p_nwrite p `mod` PIPESIZE) := b]> (p_data p))
       (p_nread p) (u32 (p_nwrite p + 1)) (p_readopen p) (p_writeopen p).

(** [p->data[p->nread++ % PIPESIZE]] *)
Definition next_byte (p : pipe) : Z :=
  p_data p !!! Z.to_nat (p_nread p `mod` PIPESIZE).
Definition skip_byte (p : pipe) : pipe :=
  Pipe (p_data p) (u32 (p_nread p + 1)) (p_nwrite p) (p_readopen p) (p_writeopen p).

Definition pipewrite_body (killed : bool) (addr : Z -> Z) (n : Z) (i : Z) : M pst (Z + pout) :=
  if negb (i <? n) then
    wakeup Cnread ;; release plock ;; mret (inr (PRet n))
  else
    p ← gets ps_pipe;
    if p_nwrite p =? u32 (p_nread p + PIPESIZE) then
      if (p_readopen p =? 0) || killed then
        release plock ;; mret (inr (PRet (-1)))
      else
        wakeup Cnread ;; release plock ;; mret (inr (PSleep Cnwrite i))
    else
      modify (upd_pipe (put_byte (addr i))) ;; mret (inl (i + 1)).

(** [addr] is the caller's buffer; each iteration but the last stores a byte. *)
Definition pipewrite_run (killed : bool) (addr : Z -> Z) (n i : Z) : M pst pout :=
  acquire plock ;;
  loop (S (Z.to_nat (n - i))) (pipewrite_body killed addr n) i.

Definition pipewrite (killed : bool) (addr : Z -> Z) (n : Z) : M pst pout :=
  pipewrite_run killed addr n 0.

Definition piperead_body (n : Z) (i : Z) : M pst (Z + Z) :=
  if negb (i <? n) then mret (inr i)
  else
    p ← gets ps_pipe;
    if p_nread p =? p_nwrite p then mret (inr i)
    else
      modify (upd_pipe skip_byte) ;;
      put_out (next_byte p) ;;
      mret (inl (i + 1)).

Definition piperead_run (killed : bool) (n : Z) : M pst pout :=
  acquire plock ;;
  p ← gets ps_pipe;
  if (p_nread p =? p_nwrite p) && truth (p_writeopen p) then
    if killed then release plock ;; mret (PRet (-1))
    else release plock ;; mret (PSleep Cnread 0)
  else
    i ← loop (S (Z.to_nat n)) (piperead_body n) 0;
    wakeup Cnwrite ;;
    release plock ;;
    mret (PRet i).
End pipe.

(** ** The pipe as a queue of bytes *)
Definition plen (p : pipe) : Z := u32 (p_nwrite p - p_nread p).
Definition slot (p : pipe) (k : Z) : Z := p_data p !!! Z.to_nat (u32 (p_nread p + k) `mod` PIPESIZE).
Definition contents (p : pipe) : list Z := slot p <$> seqZ 0 (plen p).

Record pipe_ok (p : pipe) : Prop := PipeOk {
  po_data : length (p_data p) = 512%nat;
  po_nread : 0 <= p_nread p < 4294967296;
  po_nwrite : 0 <= p_nwrite p < 4294967296;
  po_len : plen p <= PIPESIZE }.

Lemma plen_range p : 0 <= plen p < 4294967296.
Proof. apply u32_range. Qed.

Lemma length_contents p : Z.of_nat (length (contents p)) = plen p.
Proof. unfold contents. rewrite length_fmap, length_seqZ. pose proof (plen_range p). lia. Qed.

Lemma full_iff p : pipe_ok p ->
  (p_nwrite p =? u32 (p_nread p + PIPESIZE)) = (plen p =? PIPESIZE).
Proof. intros [H1 H2 H3 H4]. unfold plen, PIPESIZE in *. zlia. Qed.

Lemma empty_iff p : pipe_ok p -> (p_nread p =? p_nwrite p) = (plen p =? 0).
Proof. intros [H1 H2 H3 H4]. unfold plen in *. zlia. Qed.

(** Slots of distinct queued bytes are distinct: 2^32 is a multiple of 512. *)
Lemma slot_index p k : pipe_ok p -> u32 (p_nread p + k) `mod` PIPESIZE = (p_nread p + k) `mod` 512.
Proof. intros _. unfold PIPESIZE. zlia. Qed.

Lemma put_byte_ok p b : pipe_ok p -> plen p < PIPESIZE -> pipe_ok (put_byte b p).
Proof.
  intros [H1 H2 H3 H4] Hl. unfold plen, PIPESIZE, put_byte in *.
  split; cbn; [by rewrite length_insert|done|apply u32_range|unfold plen, PIPESIZE; cbn; zlia].
Qed.

Lemma put_byte_len p b : pipe_ok p -> plen p < PIPESIZE -> plen (put_byte b p) = plen p + 1.
Proof. intros [H1 H2 H3 H4] Hl. unfold plen, PIPESIZE, put_byte in *. cbn. zlia. Qed.

Lemma contents_put p b : pipe_ok p -> plen p < PIPESIZE ->
  contents (put_byte b p) = contents p ++ [b].
Proof.
  intros Hok Hl. pose proof Hok as [H1 H2 H3 H4]. pose proof (plen_range p).
  unfold contents. rewrite put_byte_len by done.
  rewrite seqZ_snoc, fmap_app by lia. f_equal.
  - apply list_fmap_ext. intros i k Hk. apply lookup_seqZ in Hk as [-> Hi].
    unfold slot, put_byte; cbn. rewrite list_lookup_total_insert_ne; [done|].
    unfold plen, PIPESIZE in *. zlia.
  - cbn. f_equal. rewrite ?Z.add_0_l. unfold slot, put_byte; cbn.
    replace (u32 (p_nread p + plen p)) with (p_nwrite p) by (unfold plen; zlia).
    rewrite list_lookup_total_insert_eq; [done|]. rewrite H1. unfold PIPESIZE. zlia.
Qed.

Lemma skip_byte_ok p : pipe_ok p -> 0 < plen p -> pipe_ok (skip_byte p) /\ plen (skip_byte p) = plen p - 1.
Proof.
  intros [H1 H2 H3 H4] Hl. unfold plen, PIPESIZE, skip_byte in *.
  split; [split|]; cbn; try done; try (unfold plen, PIPESIZE; cbn); zlia.
Qed.

Lemma contents_skip p : pipe_ok p -> 0 < plen p ->
  contents p = next_byte p :: contents (skip_byte p).
Proof.
  intros Hok Hl. destruct (skip_byte_ok p Hok Hl) as [_ E]. destruct Hok as [H1 H2 H3 H4].
  unfold contents. rewrite E. replace (plen p) with (Z.succ (plen p - 1)) at 1 by lia.
  rewrite seqZ_cons by lia. cbn. f_equal.
  - unfold slot, next_byte. by rewrite Z.add_0_r, u32_small.
  - rewrite <- (fmap_add_seqZ 1 0), <- list_fmap_compose.
    replace (Z.pred (Z.succ (plen p - 1))) with (plen p - 1) by lia. apply list_fmap_ext.
    intros i k _. unfold compose, slot, skip_byte; cbn. rewrite u32_add_l.
    do 4 f_equal. lia.
Qed.

(** ** What one run does *)
Section runs.
Variable plock : lock.

(** Everything but the queue, the wakeups and the output is as before. *)
Definition same_ends (p p' : pipe) : Prop :=
  p_readopen p' = p_readopen p /\ p_writeopen p' = p_writeopen p.

Record wrote (killed : bool) (addr : Z -> Z) (n i k : Z) (s : pst) (o : pout) (s' : pst) : Prop :=
  Wrote {
  wr_ok : pipe_ok (ps_pipe s');
  wr_ends : same_ends (ps_pipe s) (ps_pipe s');
  wr_k : 0 <= k;
  wr_contents : contents (ps_pipe s') = contents (ps_pipe s) ++ (addr <$> seqZ i k);
  wr_rest : ps_freed s' = ps_freed s /\ ps_out s' = ps_out s /\ ps_held s' = ps_held s;
  wr_end :
    (o = PRet n /\ k = Z.max 0 (n - i) /\ ps_wakes s' = Cnread :: ps_wakes s)
    \/ (o = PRet (-1) /\ i + k < n /\ plen (ps_pipe s') = PIPESIZE
        /\ (p_readopen (ps_pipe s) = 0 \/ killed = true) /\ ps_wakes s' = ps_wakes s)
    \/ (o = PSleep Cnwrite (i + k) /\ i + k < n /\ plen (ps_pipe s') = PIPESIZE
        /\ p_readopen (ps_pipe s) <> 0 /\ killed = false
        /\ ps_wakes s' = Cnread :: ps_wakes s) }.

Lemma wrote_cons killed addr n i k s o s' :
  pipe_ok (ps_pipe s) -> plen (ps_pipe s) < PIPESIZE -> i < n ->
  wrote killed addr n (i + 1) k (upd_pipe (put_byte (addr i)) s) o s' ->
  wrote killed addr n i (k + 1) s o s'.
Proof.
  intros Hok Hl Hi [W1 W2 W3 W4 W5 W6]. split; try done.
  - lia.
  - rewrite W4. cbn. rewrite contents_put by done. rewrite (seqZ_cons i (k + 1)) by lia.
    rewrite <- app_assoc. cbn. do 2 f_equal. f_equal. f_equal; lia.
  - destruct W6 as [(-> & ? & ?)|[(-> & ? & ? & ? & ?)|(-> & ? & ? & ? & ? & ?)]].
    + left. split; [done|]. split; [lia|done].
    + right. left. split; [done|]. split; [lia|done].
    + right. right. split; [f_equal; lia|]. split; [lia|done].
Qed.

Lemma pipewrite_loop killed addr n L fuel : forall i s,
  plock ∉ L -> ps_held s = plock :: L -> pipe_ok (ps_pipe s) ->
  n - i <= Z.of_nat fuel - 1 -> (1 <= fuel)%nat ->
  exists o k s', loop fuel (pipewrite_body plock killed addr n) i s = Done o s'
    /\ wrote killed addr n i k (with_locks L s) o s'.
Proof.
  induction fuel as [|fuel IH]; intros i s HL Hh Hok Hf H1; [lia|]. cbn [loop].
  unfold mbind at 1, M_bind at 1. unfold pipewrite_body at 1.
  destruct (Z.ltb_spec i n) as [Hi|Hi]; cbn [negb].
  2:{ unfold wakeup, mbind, M_bind, modify. cbn beta iota.
      erewrite release_top; [|exact Hh|done]. exists (PRet n), 0. eexists. split; [done|].
      split; cbn; try done; [by rewrite seqZ_nil, app_nil_r|left; split; [done|split; [lia|done]]]. }
  unfold wakeup, mbind, M_bind, gets, modify. cbn beta iota. rewrite full_iff by done.
  destruct (Z.eqb_spec (plen (ps_pipe s)) PIPESIZE) as [Hfull|Hfree].
  - destruct (Z.eqb_spec (p_readopen (ps_pipe s)) 0) as [Hr|Hr], killed; cbn [orb];
      (erewrite release_top; [|exact Hh|done]); eexists _, 0, _; (split; [done|]);
      split; cbn; try done; try (by rewrite seqZ_nil, app_nil_r).
    + right. left. repeat split; try done; [lia|by left].
    + right. left. repeat split; try done; [lia|by left].
    + right. left. repeat split; try done; [lia|by right].
    + right. right. repeat split; try done; [f_equal; lia|lia].
  - unfold mret, M_ret. assert (plen (ps_pipe s) < PIPESIZE) by (destruct Hok; lia).
    destruct (IH (i + 1) (upd_pipe (put_byte (addr i)) s)) as (o & k & s' & E & W);
      [done|done|by apply put_byte_ok|lia|lia|].
    exists o, (k + 1), s'. split; [exact E|]. apply wrote_cons; [done|done|done|]. exact W.
Qed.

Lemma pipewrite_run_spec killed addr n i s :
  plock ∉ ps_held s -> pipe_ok (ps_pipe s) ->
  exists o k s', pipewrite_run plock killed addr n i s = Done o s'
    /\ wrote killed addr n i k s o s'.
Proof.
  intros Hl Hok. unfold pipewrite_run. unfold mbind, M_bind at 1.
  rewrite acquire_free by done.
  destruct (pipewrite_loop killed addr n (ps_held s) (S (Z.to_nat (n - i))) i
    (with_locks (plock :: ps_held s) s)) as (o & k & s' & E & W); [done|done|done|lia|lia|].
  exists o, k, s'. split; [exact E|]. by destruct s.
Qed.

(** One run of [piperead]: [out] are the bytes handed to the reader. *)
Record took (killed : bool) (n : Z) (out : list Z) (s : pst) (o : pout) (s' : pst) : Prop :=
  Took {
  tk_ok : pipe_ok (ps_pipe s');
  tk_ends : same_ends (ps_pipe s) (ps_pipe s');
  tk_contents : contents (ps_pipe s) = out ++ contents (ps_pipe s');
  tk_out : ps_out s' = ps_out s ++ out;
  tk_rest : ps_freed s' = ps_freed s /\ ps_held s' = ps_held s;
  tk_end :
    (o = PRet (Z.of_nat (length out)) /\ Z.of_nat (length out) = Z.min (Z.max 0 n) (plen (ps_pipe s))
       /\ (0 < plen (ps_pipe s) \/ p_writeopen (ps_pipe s) = 0)
       /\ ps_wakes s' = Cnwrite :: ps_wakes s)
    \/ (o = PRet (-1) /\ out = [] /\ killed = true /\ plen (ps_pipe s) = 0
       /\ ps_wakes s' = ps_wakes s)
    \/ (o = PSleep Cnread 0 /\ out = [] /\ plen (ps_pipe s) = 0
       /\ p_writeopen (ps_pipe s) <> 0 /\ ps_wakes s' = ps_wakes s) }.

Lemma piperead_loop n fuel : forall i s,
  pipe_ok (ps_pipe s) -> n - i <= Z.of_nat fuel - 1 -> (1 <= fuel)%nat ->
  exists out s', loop fuel (piperead_body n) i s = Done (i + Z.of_nat (length out)) s'
    /\ pipe_ok (ps_pipe s') /\ same_ends (ps_pipe s) (ps_pipe s')
    /\ contents (ps_pipe s) = out ++ contents (ps_pipe s')
    /\ ps_out s' = ps_out s ++ out /\ ps_freed s' = ps_freed s /\ ps_held s' = ps_held s
    /\ ps_wakes s' = ps_wakes s
    /\ Z.of_nat (length out) = Z.min (Z.max 0 (n - i)) (plen (ps_pipe s)).
Proof.
  induction fuel as [|fuel IH]; intros i s Hok Hf H1; [lia|]. cbn [loop].
  unfold mbind at 1, M_bind at 1. unfold piperead_body at 1.
  pose proof (plen_range (ps_pipe s)).
  assert (Hstop : n <= i \/ plen (ps_pipe s) = 0 ->
    exists out s', Done i s = Done (i + Z.of_nat (length out)) s'
    /\ pipe_ok (ps_pipe s') /\ same_ends (ps_pipe s) (ps_pipe s')
    /\ contents (ps_pipe s) = out ++ contents (ps_pipe s')
    /\ ps_out s' = ps_out s ++ out /\ ps_freed s' = ps_freed s /\ ps_held s' = ps_held s
    /\ ps_wakes s' = ps_wakes s
    /\ Z.of_nat (length out) = Z.min (Z.max 0 (n - i)) (plen (ps_pipe s))).
  { intros Hs. exists [], s. cbn. rewrite Z.add_0_r, app_nil_r. repeat split; try done; [apply Hok..|lia]. }
  destruct (Z.ltb_spec i n) as [Hi|Hi]; cbn [negb]; [|apply Hstop; by left].
  unfold put_out, mbind, M_bind, gets, modify. cbn beta iota. rewrite empty_iff by done.
  destruct (Z.eqb_spec (plen (ps_pipe s)) 0) as [He|He]; [apply Hstop; by right|].
  destruct (skip_byte_ok (ps_pipe s)) as [Hok' Hlen]; [done|lia|].
  unfold modify, mret, M_ret.
  destruct (IH (i + 1) (Pst (skip_byte (ps_pipe s)) (ps_freed s) (ps_wakes s)
      (ps_out s ++ [next_byte (ps_pipe s)]) (ps_held s)))
    as (out & s' & E & K1 & K2 & K3 & K4 & K5 & K6 & K7 & K8); [done|lia|lia|].
  exists (next_byte (ps_pipe s) :: out), s'. split.
  { etransitivity; [exact E|]. cbn [length]. f_equal. lia. }
  split; [done|]. split; [done|]. split.
  { rewrite contents_skip by (done || lia). cbn in K3. by rewrite K3. }
  split; [rewrite K4; cbn; by rewrite <- app_assoc|].
  do 3 (split; [done|]). cbn in K8 |- *. lia.
Qed.

Lemma piperead_run_spec killed n s :
  plock ∉ ps_held s -> pipe_ok (ps_pipe s) ->
  exists o out s', piperead_run plock killed n s = Done o s' /\ took killed n out s o s'.
Proof.
  intros Hl Hok. unfold piperead_run. unfold mbind, M_bind at 1. rewrite acquire_free by done.
  unfold mbind, M_bind, gets. cbn beta iota.
  change (ps_pipe (with_locks _ s)) with (ps_pipe s).
  rewrite empty_iff by done. pose proof (plen_range (ps_pipe s)).
  destruct (_ && truth _) eqn:E.
  - apply andb_true_iff in E as [He%Z.eqb_eq Hw].
    assert (Hw' : p_writeopen (ps_pipe s) <> 0) by (unfold truth in Hw; lia).
    assert (Hc : contents (ps_pipe s) = []) by (unfold contents; by rewrite He).
    destruct killed; (erewrite (release_top plock (ps_held s)); [|done|done]);
      eexists _, [], _; (split; [done|]); destruct s;
      split; cbn in *; try done; try (by rewrite app_nil_r); naive_solver.
  - destruct (piperead_loop n (S (Z.to_nat n)) 0 (with_locks (plock :: locks_of s) s))
      as (out & s' & Eq & K1 & K2 & K3 & K4 & K5 & K6 & K7 & K8); [done|lia|lia|].
    rewrite Eq. unfold wakeup, modify, mret, M_ret. cbn beta iota.
    erewrite (release_top plock (ps_held s)); [|cbn; by rewrite K6|done].
    eexists _, out, _. split; [done|]. destruct s; split; cbn in *; try done.
    left. rewrite Z.add_0_l. split; [done|]. split; [lia|]. split; [|by rewrite K7].
    apply andb_false_iff in E as [E|E]; [left; lia|]. right. unfold truth in E. lia.
Qed.
End runs.

(** ** Processes on the two ends *)

(** The calls made, oldest first.  A call's outcome is that of its latest run:
    what it returned, or the channel it went to sleep on and, for [pipewrite],
    the loop variable [i] it goes on with. *)
Record wcall := Wcall { w_pid : Z; w_addr : Z -> Z; w_n : Z; w_out : pout }.
Record rcall := Rcall { r_pid : Z; r_n : Z; r_out : pout; r_bytes : list Z }.

(** The pipe, the processes asleep on it, the [pipewrite] calls, and the runs
    of [piperead] with the bytes each stored to its caller's buffer. *)
Record psys := Psys {
  y_pipe : pipe;
  y_asleep : gmap Z chan;
  y_writes : list wcall;
  y_reads : list rcall }.

(** The bytes the readers have got. *)
Definition y_recv (y : psys) : list Z := mjoin (r_bytes <$> y_reads y).

(** [pid] is not in the middle of a [pipewrite]. *)
Definition not_writing (pid : Z) (y : psys) : Prop :=
  Forall (fun w => w_pid w = pid -> exists r, w_out w = PRet r) (y_writes y).

Definition start (y : psys) : pst := Pst (y_pipe y) false [] [] [].
Definition wake (cs : list chan) (a : gmap Z chan) : gmap Z chan :=
  filter (fun pc : Z * chan => pc.2 ∉ cs) a.
Definition settle (pid : Z) (o : pout) (cs : list chan) (a : gmap Z chan) : gmap Z chan :=
  match o with
  | PRet _ => wake cs a
  | PSleep c _ => <[pid := c]> (wake cs a)
  end.

Section psys.
Variable plock : lock.
Variable kills : bool.

(** A process calls [pipewrite], or goes on with its call once woken; a run of
    [piperead], new or woken, which starts over; the last close of an end no
    sleeper uses; a [kill] of a sleeper.  Processes that run are not asleep and
    have their end open.  With [kills = false] no writer runs after being
    killed. *)
Inductive psys_step : psys -> psys -> Prop :=
| ps_write y pid killed addr n o s' :
    y_asleep y !! pid = None -> p_writeopen (y_pipe y) <> 0 ->
    (killed = true -> kills = true) -> not_writing pid y ->
    pipewrite plock killed addr n (start y) = Done o s' ->
    psys_step y (Psys (ps_pipe s') (settle pid o (ps_wakes s') (y_asleep y))
      (y_writes y ++ [Wcall pid addr n o]) (y_reads y))
| ps_resume y j pid killed addr n c i o s' :
    y_writes y !! j = Some (Wcall pid addr n (PSleep c i)) ->
    y_asleep y !! pid = None -> p_writeopen (y_pipe y) <> 0 ->
    (killed = true -> kills = true) ->
    pipewrite_run plock killed addr n i (start y) = Done o s' ->
    psys_step y (Psys (ps_pipe s') (settle pid o (ps_wakes s') (y_asleep y))
      (<[j := Wcall pid addr n o]> (y_writes y)) (y_reads y))
| ps_read y pid killed n o s' :
    y_asleep y !! pid = None -> p_readopen (y_pipe y) <> 0 -> not_writing pid y ->
    piperead_run plock killed n (start y) = Done o s' ->
    psys_step y (Psys (ps_pipe s') (settle pid o (ps_wakes s') (y_asleep y))
      (y_writes y) (y_reads y ++ [Rcall pid n o (ps_out s')]))
| ps_close y (writable : bool) s' :
    (forall pid, y_asleep y !! pid <> Some (if writable then Cnwrite else Cnread)) ->
    pipeclose plock writable (start y) = Done tt s' ->
    psys_step y (Psys (ps_pipe s') (wake (ps_wakes s') (y_asleep y)) (y_writes y) (y_reads y))
| ps_kill y pid :
    psys_step y (Psys (y_pipe y) (delete pid (y_asleep y)) (y_writes y) (y_reads y)).

Definition psys_init (data : list Z) : psys := Psys (pipe_init (Pipe data 0 0 0 0)) ∅ [] [].

Definition preach (y : psys) : Prop :=
  exists data, length data = 512%nat /\ star psys_step (psys_init data) y.

Lemma pipeclose_eq writable s :
  plock ∉ ps_held s ->
  exists s', pipeclose plock writable s = Done tt s'
    /\ contents (ps_pipe s') = contents (ps_pipe s)
    /\ plen (ps_pipe s') = plen (ps_pipe s)
    /\ (pipe_ok (ps_pipe s) -> pipe_ok (ps_pipe s'))
    /\ p_readopen (ps_pipe s') = (if writable then p_readopen (ps_pipe s) else 0)
    /\ p_writeopen (ps_pipe s') = (if writable then 0 else p_writeopen (ps_pipe s))
    /\ ps_wakes s' = (if writable then Cnread else Cnwrite) :: ps_wakes s
    /\ ps_freed s' = (ps_freed s || ((p_readopen (ps_pipe s') =? 0) && (p_writeopen (ps_pipe s') =? 0))).
Proof.
  intros Hl. unfold pipeclose. unfold mbind, M_bind at 1. rewrite acquire_free by done.
  unfold wakeup, kfree_pipe, mbind, M_bind, gets, modify. cbn beta iota.
  destruct s as [p fr ws ou L]. destruct writable; cbn [upd_pipe ps_pipe with_locks pst_locks ps_held p_readopen p_writeopen];
    destruct ((_ =? 0) && (_ =? 0)) eqn:E; cbn beta iota;
    (erewrite (release_top plock L); [|done|done]); cbn in E;
    eexists; (split; [done|]); cbn; rewrite ?E, ?orb_true_r, ?orb_false_r;
    split_and!; try done; intros [? ? ? ?]; by split.
Qed.

(** What a call has to have stored, given its outcome: its whole buffer when
    it returned [n], a prefix when it returned -1, the first [i] bytes when it
    is to go on with byte [i]. *)
Definition stored (w : wcall) (bs : list Z) : Prop :=
  match w_out w with
  | PRet r => (r = w_n w /\ bs = w_addr w <$> seqZ 0 (w_n w))
      \/ (r = -1 /\ exists k, 0 <= k < w_n w /\ bs = w_addr w <$> seqZ 0 k)
  | PSleep _ i => 0 <= i < w_n w /\ bs = w_addr w <$> seqZ 0 i
  end.

(** A run of [piperead] hands out as many bytes as it returns, at most [n]. *)
Definition handed (r : rcall) : Prop :=
  match r_out r with
  | PRet v => (v = Z.of_nat (length (r_bytes r)) /\ v <= Z.max 0 (r_n r)) \/ (v = -1 /\ r_bytes r = [])
  | PSleep _ _ => r_bytes r = []
  end.

(** The bytes of call number [j] in a stream of bytes tagged with their call. *)
Definition of_call (j : nat) (st : list (nat * Z)) : list Z :=
  (filter (fun e => e.1 = j) st).*2.

(** The tagged stream interleaves what the calls have to have stored. *)
Definition merges (ws : list wcall) (st : list (nat * Z)) : Prop :=
  Forall (fun e => (e.1 < length ws)%nat) st
  /\ forall j w, ws !! j = Some w -> stored w (of_call j st).

Definition fifo (y : psys) : Prop :=
  pipe_ok (y_pipe y) /\ Forall handed (y_reads y)
  /\ exists st, merges (y_writes y) st /\ st.*2 = y_recv y ++ contents (y_pipe y).

Lemma of_call_app j st st' : of_call j (st ++ st') = of_call j st ++ of_call j st'.
Proof. unfold of_call. by rewrite filter_app, fmap_app. Qed.

Lemma of_call_tag j j' (bs : list Z) :
  of_call j (pair j' <$> bs) = if decide (j' = j) then bs else [].
Proof.
  unfold of_call. induction bs as [|b bs IH]; [by case_decide|]. rewrite fmap_cons, filter_cons. cbn [fst].
  destruct (decide (j' = j)); [by rewrite fmap_cons, IH|exact IH].
Qed.

Lemma snd_tag (j : nat) (bs : list Z) : (pair j <$> bs).*2 = bs.
Proof. induction bs as [|b bs IH]; [done|]. cbn. f_equal. exact IH. Qed.

Lemma of_call_new (ws : list wcall) st :
  Forall (fun e => (e.1 < length ws)%nat) st -> of_call (length ws) st = [].
Proof.
  unfold of_call. induction 1 as [|e st He _ IH]; [done|]. rewrite filter_cons, decide_False by lia. exact IH.
Qed.

(** A call that has stored [i] bytes and runs from there. *)
Lemma stored_run killed pid addr n i k s o s' :
  0 <= i -> (0 < i -> i < n) -> wrote killed addr n i k s o s' ->
  stored (Wcall pid addr n o) ((addr <$> seqZ 0 i) ++ (addr <$> seqZ i k)).
Proof.
  intros Hi Hn [_ _ Hk _ _ W]. rewrite <- fmap_app.
  assert (Hs : seqZ 0 i ++ seqZ i k = seqZ 0 (i + k)) by (rewrite seqZ_app by lia; by rewrite Z.add_0_l).
  rewrite Hs. destruct W as [(-> & Ek & _)|[(-> & ? & _)|(-> & ? & _)]]; cbn.
  - left. split; [done|]. destruct (decide (i < n)); [do 2 f_equal; lia|].
    rewrite !seqZ_nil by lia. done.
  - right. split; [done|]. exists (i + k). split; [lia|done].
  - split; [lia|done].
Qed.

Lemma merges_new ws st w bs :
  merges ws st -> stored w bs -> merges (ws ++ [w]) (st ++ (pair (length ws) <$> bs)).
Proof.
  intros [Ht Hm] Hw. split.
  - apply Forall_app. rewrite length_app. split.
    + eapply Forall_impl; [exact Ht|]. cbn. lia.
    + apply Forall_fmap, Forall_true. cbn. lia.
  - intros j w' [Hj|[Hj <-]]%lookup_snoc_Some; rewrite of_call_app, of_call_tag.
    + destruct Hj as [? Hj]. rewrite decide_False, app_nil_r by lia. by apply Hm.
    + subst j. rewrite decide_True, of_call_new by done. exact Hw.
Qed.

Lemma merges_resume ws st j w w' bs :
  merges ws st -> ws !! j = Some w -> stored w' (of_call j st ++ bs) ->
  merges (<[j := w']> ws) (st ++ (pair j <$> bs)).
Proof.
  intros [Ht Hm] Hj Hw. pose proof (lookup_lt_Some _ _ _ Hj). split.
  - apply Forall_app. rewrite length_insert. split; [done|]. by apply Forall_fmap, Forall_true.
  - intros j' w2. rewrite of_call_app, of_call_tag, list_lookup_insert. case_decide as Hd.
    + destruct Hd as [<- _]. intros [= <-]. by rewrite decide_True.
    + intros Hj'. rewrite decide_False, app_nil_r by tauto. by apply Hm.
Qed.

Lemma wrote_count killed addr n i k s o s' :
  pipe_ok (ps_pipe s) -> wrote killed addr n i k s o s' ->
  plen (ps_pipe s') - plen (ps_pipe s) = k.
Proof.
  intros Hok [W1 W2 W3 W4 _ _]. pose proof (length_contents (ps_pipe s')) as H1.
  rewrite W4, length_app, length_fmap, length_seqZ in H1.
  pose proof (length_contents (ps_pipe s)). lia.
Qed.

Lemma fifo_write y pid killed addr n o s' :
  fifo y -> pipewrite plock killed addr n (start y) = Done o s' ->
  fifo (Psys (ps_pipe s') (settle pid o (ps_wakes s') (y_asleep y))
    (y_writes y ++ [Wcall pid addr n o]) (y_reads y)).
Proof.
  intros (Hok & Hr & st & Hm & Hst) E.
  destruct (pipewrite_run_spec plock killed addr n 0 (start y)) as (o' & k & s2 & E' & W);
    [set_solver|done|]. unfold pipewrite in E. rewrite E in E'. injection E' as -> ->.
  split; [apply W|]. split; [done|]. eexists. split.
  - apply merges_new; [done|]. eapply (stored_run killed pid addr n 0); [lia|lia|exact W].
  - rewrite fmap_app, snd_tag, Hst, seqZ_nil by lia. cbn [y_pipe]. rewrite (wr_contents _ _ _ _ _ _ _ _ W).
    by rewrite <- app_assoc.
Qed.

Lemma fifo_resume y j pid killed addr n c i o s' :
  fifo y -> y_writes y !! j = Some (Wcall pid addr n (PSleep c i)) ->
  pipewrite_run plock killed addr n i (start y) = Done o s' ->
  fifo (Psys (ps_pipe s') (settle pid o (ps_wakes s') (y_asleep y))
    (<[j := Wcall pid addr n o]> (y_writes y)) (y_reads y)).
Proof.
  intros (Hok & Hr & st & Hm & Hst) Hj E.
  destruct (pipewrite_run_spec plock killed addr n i (start y)) as (o' & k & s2 & E' & W);
    [set_solver|done|]. rewrite E in E'. injection E' as -> ->.
  destruct (proj2 Hm _ _ Hj) as [Hi Hb]. cbn in Hi, Hb.
  split; [apply W|]. split; [done|]. eexists. split.
  - eapply merges_resume; [done|exact Hj|]. rewrite Hb.
    eapply (stored_run killed pid addr n i); [lia|lia|exact W].
  - rewrite fmap_app, snd_tag, Hst. cbn [y_pipe]. rewrite (wr_contents _ _ _ _ _ _ _ _ W).
    by rewrite <- app_assoc.
Qed.

Lemma fifo_read y pid killed n o s' :
  fifo y -> piperead_run plock killed n (start y) = Done o s' ->
  fifo (Psys (ps_pipe s') (settle pid o (ps_wakes s') (y_asleep y))
    (y_writes y) (y_reads y ++ [Rcall pid n o (ps_out s')])).
Proof.
  intros (Hok & Hr & st & Hm & Hst) E.
  destruct (piperead_run_spec plock killed n (start y)) as (o' & out & s2 & E' & T);
    [set_solver|done|]. rewrite E in E'. injection E' as -> ->. destruct T as [T1 T2 T3 T4 _ T6].
  split; [done|]. split.
  - apply Forall_app. split; [done|]. apply Forall_singleton. unfold handed. cbn. rewrite T4. cbn.
    destruct T6 as [(-> & ? & _)|[(-> & -> & _)|(-> & -> & _)]]; [left; split; [done|lia]|by right|done].
  - exists st. split; [done|]. cbn in *. rewrite Hst, T3. unfold y_recv. cbn. rewrite T4.
    rewrite fmap_app, join_app. cbn. by rewrite app_nil_r, app_assoc.
Qed.

Lemma fifo_step y y' : fifo y -> psys_step y y' -> fifo y'.
Proof.
  intros Hf. destruct 1 as [y pid killed addr n o s' Hn Hw Hk Hb E
    |y j pid killed addr n c i o s' Hj Hn Hw Hk E|y pid killed n o s' Hn Hr Hb E|y w s' Hns E|y pid].
  - by eapply fifo_write.
  - by eapply fifo_resume.
  - by eapply fifo_read.
  - destruct Hf as (Hok & Hr & st & Hm & Hst).
    destruct (pipeclose_eq w (start y)) as (s2 & E' & C1 & _ & C2 & _); [set_solver|].
    rewrite E in E'. injection E' as ->. split; [by apply C2|]. split; [done|].
    exists st. split; [done|]. cbn. by rewrite C1.
  - exact Hf.
Qed.

Lemma fifo_init data : length data = 512%nat -> fifo (psys_init data).
Proof. intros Hd. split; [by split|]. split; [done|]. exists []. by repeat split. Qed.

(** ** Sleeping processes *)
Definition asleep_ok (y : psys) : Prop := forall pid c, y_asleep y !! pid = Some c ->
  match c with
  | Cnread => plen (y_pipe y) = 0 /\ p_writeopen (y_pipe y) <> 0 /\ p_readopen (y_pipe y) <> 0
  | Cnwrite => plen (y_pipe y) = PIPESIZE /\ p_readopen (y_pipe y) <> 0 /\ p_writeopen (y_pipe y) <> 0
  end.

Lemma wake_inv cs a pid c : wake cs a !! pid = Some c -> a !! pid = Some c /\ c ∉ cs.
Proof. unfold wake. by rewrite map_lookup_filter_Some. Qed.

(** The sleepers after a run: the one that went to sleep, and those left. *)
Lemma settle_inv pid o cs a q c :
  settle pid o cs a !! q = Some c ->
  (q = pid /\ exists i, o = PSleep c i) \/ (a !! q = Some c /\ c ∉ cs).
Proof.
  destruct o as [r|c' i]; cbn; [intros H%wake_inv; by right|].
  destruct (decide (q = pid)) as [->|Hne].
  - rewrite lookup_insert_eq. intros [= ->]. left. eauto.
  - rewrite lookup_insert_ne by done. intros H%wake_inv. by right.
Qed.

Lemma asleep_write y pid addr n i o s' ws :
  fifo y -> asleep_ok y -> p_writeopen (y_pipe y) <> 0 ->
  pipewrite_run plock false addr n i (start y) = Done o s' ->
  asleep_ok (Psys (ps_pipe s') (settle pid o (ps_wakes s') (y_asleep y)) ws (y_reads y)).
Proof.
  intros [Hok _] Ha Hw E.
  destruct (pipewrite_run_spec plock false addr n i (start y)) as (o' & k & s2 & E' & W);
    [set_solver|done|]. rewrite E in E'. injection E' as -> ->.
  pose proof (wrote_count _ _ _ _ _ (start y) _ _ Hok W) as Hc.
  destruct W as [[_ _ _ W1] [W2 W2'] W3 _ _ W6]. cbn in *. unfold PIPESIZE in *.
  intros q c [[-> [j ->]]|[Hq Hin]]%settle_inv; cbn.
  - destruct W6 as [(? & _)|[(? & _)|(Ho & ? & ? & ? & ? & ?)]]; try done.
    injection Ho as -> _. rewrite W2, W2'. done.
  - specialize (Ha q c Hq). destruct c; rewrite W2, W2'.
    + destruct Ha as (A1 & A2 & A3).
      destruct W6 as [(_ & _ & Hwk)|[(_ & _ & _ & [?|?] & _)|(_ & _ & _ & _ & _ & Hwk)]];
        try done; rewrite Hwk in Hin; set_solver.
    + destruct Ha as (A1 & A2 & A3). unfold PIPESIZE in *. split; [lia|done].
Qed.

Lemma asleep_read y pid killed n o s' rs :
  fifo y -> asleep_ok y -> p_readopen (y_pipe y) <> 0 ->
  piperead_run plock killed n (start y) = Done o s' ->
  asleep_ok (Psys (ps_pipe s') (settle pid o (ps_wakes s') (y_asleep y)) (y_writes y) rs).
Proof.
  intros [Hok _] Ha Hr E.
  destruct (piperead_run_spec plock killed n (start y)) as (o' & out & s2 & E' & T);
    [set_solver|done|]. rewrite E in E'. injection E' as -> ->.
  destruct T as [_ [T2 T2'] T3 _ _ T6]. cbn in *.
  assert (Hlen : plen (y_pipe y) = Z.of_nat (length out) + plen (ps_pipe s2)).
  { rewrite <- !length_contents, T3, length_app. lia. }
  intros q c [[-> [j ->]]|[Hq Hin]]%settle_inv; cbn.
  - destruct T6 as [(? & _)|[(? & _)|(Ho & -> & ? & ? & ?)]]; try done.
    injection Ho as -> _. rewrite T2, T2'. cbn in Hlen. split; [lia|done].
  - specialize (Ha q c Hq). destruct c; rewrite T2, T2'; destruct Ha as (A1 & A2 & A3).
    + destruct T6 as [(_ & _ & [?|?] & _)|[(_ & -> & _)|(_ & -> & _)]];
        try lia; (split; [cbn in Hlen; lia|done]).
    + destruct T6 as [(_ & _ & _ & Hwk)|[(_ & -> & _)|(_ & -> & _)]];
        [rewrite Hwk in Hin; set_solver|..]; (split; [cbn in Hlen; lia|done]).
Qed.

Lemma asleep_step y y' :
  kills = false -> fifo y -> asleep_ok y -> psys_step y y' -> asleep_ok y'.
Proof.
  intros Hkill Hf Ha. destruct 1 as [y pid killed addr n o s' Hn Hw Hk Hb E
    |y j pid killed addr n c i o s' Hj Hn Hw Hk E|y pid killed n o s' Hn Hr Hb E|y w s' Hns E|y pid].
  - destruct killed; [by specialize (Hk eq_refl); congruence|]. by eapply asleep_write.
  - destruct killed; [by specialize (Hk eq_refl); congruence|]. by eapply asleep_write.
  - by eapply asleep_read.
  - destruct (pipeclose_eq w (start y)) as (s2 & E' & _ & C1 & _ & C3 & C4 & C5 & _); [set_solver|].
    rewrite E in E'. injection E' as ->. cbn in *.
    intros q c [Hq Hin]%wake_inv. cbn. rewrite C1, C3, C4. rewrite C5 in Hin.
    specialize (Ha q c Hq). specialize (Hns q). destruct w, c; try set_solver; by rewrite Hq in Hns.
  - intros q c Hq. cbn in *. apply lookup_delete_Some in Hq as [_ Hq]. by apply Ha in Hq.
Qed.
End psys.

(** ** Theorems *)

(** (C5) Pipes are FIFO and lose nothing: under every interleaving of reads,
    writes, closes and kills, the bytes handed to readers followed by those
    still in the ring buffer are an interleaving of what the [pipewrite] calls
    were given.  A call that returned its [n] is there with all [n] bytes of its
    buffer, each once and in order; one asleep at byte [i] with its first [i]; one
    that returned -1 with a prefix.  A [piperead] that returns [r] has handed
    out [r] bytes, at most what was asked.  All this also when the [uint]
    counters wrap around; the buffer never holds more than [PIPESIZE] bytes. *)
Theorem pipe_fifo plock kills y :
  preach plock kills y ->
  plen (y_pipe y) <= PIPESIZE
  /\ Forall handed (y_reads y)
  /\ exists st, st.*2 = y_recv y ++ contents (y_pipe y)
       /\ Forall (fun e => (e.1 < length (y_writes y))%nat) st
       /\ forall j w, y_writes y !! j = Some w -> stored w (of_call j st).
Proof.
  intros (data & Hd & Hr).
  enough (fifo y) as ([] & ? & st & [] & ?) by eauto 10.
  eapply (star_invariant _ fifo); [apply fifo_step|by apply fifo_init|exact Hr].
Qed.

(** [pipewrite] always ends its run, with [n] after storing all of its
    remaining bytes, with -1 on a full pipe without reader or when killed, or
    asleep on a full pipe after waking the readers; in each case it has
    appended exactly the bytes [i .. i+k) of its buffer. *)
Theorem pipewrite_appends plock killed addr n i s :
  plock ∉ ps_held s -> pipe_ok (ps_pipe s) ->
  exists o k s', pipewrite_run plock killed addr n i s = Done o s'
    /\ wrote killed addr n i k s o s'.
Proof. apply pipewrite_run_spec. Qed.

(** [piperead] always ends its run: it removes the first [min n len]
    bytes and returns their number, or -1 when killed on an empty pipe, or
    sleeps, which it does only on an empty pipe whose write end is open. *)
Theorem piperead_removes plock killed n s :
  plock ∉ ps_held s -> pipe_ok (ps_pipe s) ->
  exists o out s', piperead_run plock killed n s = Done o s' /\ took killed n out s o s'.
Proof. apply piperead_run_spec. Qed.

(** (C24) No lost wakeup: as long as no killed writer runs, a process asleep
    in [piperead] has an empty pipe with an open write end before it, and one
    asleep in [pipewrite] a full pipe with an open read end. *)
Theorem pipe_no_lost_wakeup plock y pid c :
  preach plock false y -> y_asleep y !! pid = Some c ->
  match c with
  | Cnread => contents (y_pipe y) = [] /\ p_writeopen (y_pipe y) <> 0
  | Cnwrite => plen (y_pipe y) = PIPESIZE /\ p_readopen (y_pipe y) <> 0
  end.
Proof.
  intros (data & Hd & Hr) Hs.
  enough (fifo y /\ asleep_ok y) as [_ Ha].
  { specialize (Ha pid c Hs). destruct c; [|naive_solver].
    destruct Ha as (E & ? & _). unfold contents. by rewrite E. }
  eapply (star_invariant _ (fun y => fifo y /\ asleep_ok y)); [|split; [by apply fifo_init|done]|exact Hr].
  intros y1 y2 [Hf Ha] Hst. split; [by eapply fifo_step|by eapply asleep_step].
Qed.

(** The wakeup is lost when a writer is killed: it may fill the pipe and
    return -1 without [wakeup(&p->nread)], leaving a reader asleep on a full
    pipe whose write end is open. *)
Theorem pipe_killed_writer_loses_wakeup :
  exists y, preach (Lpipe 0) true y /\ y_asleep y !! 1 = Some Cnread
    /\ plen (y_pipe y) = PIPESIZE /\ p_writeopen (y_pipe y) <> 0.
Proof.
  eexists. split.
  - exists (replicate 512 0). split; [done|].
    eapply star_step; [eapply star_step; [apply star_refl|]|].
    + eapply (ps_read _ _ _ 1 false 10); [done|done|by constructor|]. vm_compute. reflexivity.
    + eapply (ps_write _ _ _ 2 true (fun _ => 7) 513); [done|done|done|by constructor|]. vm_compute. reflexivity.
  - vm_compute. done.
Qed.

(** ** Instances *)
Definition ex_pipe : pipe := Pipe (replicate 512 0) 4294967295 4294967295 1 1.
Definition ex_pst : pst := Pst ex_pipe false [] [] [].

Lemma ex_pipe_ok : pipe_ok ex_pipe.
Proof. split; vm_compute; done. Qed.

Lemma pipewrite_appends_witness :
  exists o k s', pipewrite_run (Lpipe 0) false (fun i => 65 + i) 3 0 ex_pst = Done o s'
    /\ wrote false (fun i => 65 + i) 3 0 k ex_pst o s'.
Proof. apply (pipewrite_appends (Lpipe 0) false _ 3 0 ex_pst); [cbn; set_solver|apply ex_pipe_ok]. Defined.

Lemma piperead_removes_witness :
  exists o out s', piperead_run (Lpipe 0) false 3 ex_pst = Done o s' /\ took false 3 out ex_pst o s'.
Proof. apply (piperead_removes (Lpipe 0) false 3 ex_pst); [cbn; set_solver|apply ex_pipe_ok]. Defined.

(** The bytes survive a wrap-around of both counters. *)
Example pipe_wraps :
  match pipewrite (Lpipe 0) false (fun i => 65 + i) 3 ex_pst with
  | Done _ s => p_nwrite (ps_pipe s) = 2 /\ contents (ps_pipe s) = [65; 66; 67]
  | _ => False
  end.
Proof. vm_compute. done. Qed.

Lemma ex_sleep_reach : exists y,
  preach (Lpipe 0) false y /\ y_asleep y !! 1 = Some Cnread.
Proof.
  eexists. split.
  - exists (replicate 512 0). split; [done|]. eapply star_step; [apply star_refl|].
    eapply (ps_read _ _ _ 1 false 10); [done|done|by constructor|]. vm_compute. reflexivity.
  - vm_compute. reflexivity.
Qed.

(** Process 2 writes 514 bytes, falls asleep on the full pipe, is woken by a
    read of 3 bytes by process 1, and returns. *)
Lemma ex_stream_reach : exists y,
  preach (Lpipe 0) false y
  /\ (y_writes y = [Wcall 2 Z.succ 514 (PRet 514)]
  /\ y_recv y = [1; 2; 3] /\ contents (y_pipe y) = Z.succ <$> seqZ 3 511).
Proof.
  eexists. split.
  - exists (replicate 512 0). split; [done|].
    eapply star_step; [eapply star_step; [eapply star_step; [apply star_refl|]|]|].
    + eapply (ps_write _ _ _ 2 false Z.succ 514); [done|done|done|by constructor|]. vm_compute. reflexivity.
    + eapply (ps_read _ _ _ 1 false 3); [by vm_compute|done|by constructor; [|constructor]|].
      vm_compute. reflexivity.
    + eapply (ps_resume _ _ _ 0 2 false); [reflexivity|by vm_compute|done|done|]. vm_compute. reflexivity.
  - vm_compute. done.
Qed.

Lemma pipe_fifo_witness : exists y,
  y_writes y = [Wcall 2 Z.succ 514 (PRet 514)] /\ y_recv y = [1; 2; 3]
  /\ exists st, st.*2 = y_recv y ++ contents (y_pipe y)
       /\ Forall (fun e => (e.1 < length (y_writes y))%nat) st
       /\ forall j w, y_writes y !! j = Some w -> stored w (of_call j st).
Proof.
  destruct ex_stream_reach as (y & Hr & Hw & Hv & _). exists y. split; [exact Hw|]. split; [exact Hv|].
  exact (proj2 (proj2 (pipe_fifo (Lpipe 0) false y Hr))).
Defined.

Lemma pipe_no_lost_wakeup_witness :
  exists y, contents (y_pipe y) = [] /\ p_writeopen (y_pipe y) <> 0.
Proof.
  destruct ex_sleep_reach as (y & Hr & Hs). exists y.
  exact (pipe_no_lost_wakeup (Lpipe 0) y 1 Cnread Hr Hs).
Defined.
