(* ===== verification/Bio.v ===== *)
(** * The buffer cache ([bio.c]) over the memory disk ([memide.c])

    [NBUF] buffers on a circular doubly linked list in order of last release.
    The list is modelled with its [prev]/[next] pointers: buffers are the
    indices 0 .. NBUF-1 of [bcache.buf], and index NBUF is [bcache.head].
    [iderw] is the one of [memide.c]; the interrupt-driven one of [ide.c] is in [Ide].

    The theorems say that the cache is transparent: the logical contents of a
    block (its buffer if cached, else the disk) are what [bread] returns, and no
    operation but a client's own store or [bwrite] changes them. *)
From S2P Require Import Prelude Layout Locks Sleeplock.

Definition B_VALID : Z := 2.
Definition B_DIRTY : Z := 4.

Record buf := Buf {
  b_flags : Z; b_dev : Z; b_blockno : Z; b_lock : sleeplock; b_refcnt : Z; b_data : list Z }.
#[export] Instance buf_inhabited : Inhabited buf :=
  populate (Buf 0 0 0 (Sleeplock 0 0) 0 (replicate 512 0)).

(** [bcache], the memory disk, the running process and its spin locks. *)
Record bst := Bst {
  bc_buf : gmap Z buf;
  bc_prev : gmap Z Z;
  bc_next : gmap Z Z;
  bc_disk : gmap Z (list Z);
  bc_disksize : Z;
  bc_pid : Z;
  bc_held : list lock }.

#[export, program] Instance bst_locks : HasLocks bst := {|
  locks_of := bc_held;
  with_locks L s := Bst (bc_buf s) (bc_prev s) (bc_next s) (bc_disk s) (bc_disksize s) (bc_pid s) L |}.
Next Obligation. done. Qed.
Next Obligation. done. Qed.
Next Obligation. by intros []. Qed.

Definition bufs (s : bst) (i : Z) : buf := bc_buf s !!! i.
Definition diskblk (s : bst) (b : Z) : list Z := bc_disk s !!! b.

Definition set_buf (i : Z) (f : buf -> buf) (s : bst) : bst :=
  Bst (<[i := f (bufs s i)]> (bc_buf s)) (bc_prev s) (bc_next s) (bc_disk s)
      (bc_disksize s) (bc_pid s) (bc_held s).
Definition set_prev (i p : Z) (s : bst) : bst :=
  Bst (bc_buf s) (<[i := p]> (bc_prev s)) (bc_next s) (bc_disk s)
      (bc_disksize s) (bc_pid s) (bc_held s).
Definition set_next (i p : Z) (s : bst) : bst :=
  Bst (bc_buf s) (bc_prev s) (<[i := p]> (bc_next s)) (bc_disk s)
      (bc_disksize s) (bc_pid s) (bc_held s).
Definition set_disk (b : Z) (d : list Z) (s : bst) : bst :=
  Bst (bc_buf s) (bc_prev s) (bc_next s) (<[b := d]> (bc_disk s))
      (bc_disksize s) (bc_pid s) (bc_held s).

Definition with_flags (v : Z) (b : buf) : buf :=
  Buf v (b_dev b) (b_blockno b) (b_lock b) (b_refcnt b) (b_data b).
Definition with_refcnt (v : Z) (b : buf) : buf :=
  Buf (b_flags b) (b_dev b) (b_blockno b) (b_lock b) v (b_data b).
Definition with_lock (k : sleeplock) (b : buf) : buf :=
  Buf (b_flags b) (b_dev b) (b_blockno b) k (b_refcnt b) (b_data b).
Definition with_data (d : list Z) (b : buf) : buf :=
  Buf (b_flags b) (b_dev b) (b_blockno b) (b_lock b) (b_refcnt b) d.

(** [&bcache.head]. *)
Definition HEAD : Z := NBUF.

Definition next_of (i : Z) : M bst Z := gets (fun s => bc_next s !!! i).
Definition prev_of (i : Z) : M bst Z := gets (fun s => bc_prev s !!! i).

(** A sleep-lock operation on [b->lock]. *)
Definition on_lock {A} (i : Z) (m : M sst A) : M bst A :=
  zoom (fun s => Sst (b_lock (bufs s i)) 0 (bc_held s))
       (fun t s => with_locks (ss_held t) (set_buf i (with_lock (ss_lk t)) s)) m.

Definition acquiresleep (i : Z) : M bst unit :=
  pid ← gets bc_pid;
  ok ← on_lock i (acquiresleep_run (Lsleep i) pid);
  if (ok : bool) then mret tt else sleep_on "buffer".
Definition releasesleep (i : Z) : M bst unit :=
  on_lock i (Sleeplock.releasesleep (Lsleep i)).
Definition holdingsleep (i : Z) : M bst bool :=
  pid ← gets bc_pid; on_lock i (Sleeplock.holdingsleep (Lsleep i) pid).

(** [iderw] of [memide.c]. *)
Definition iderw (i : Z) : M bst unit :=
  h ← holdingsleep i;
  if negb h then panic "iderw: buf not locked"
  else
    b ← gets (fun s => bufs s i);
    if (b_flags b &&& (B_VALID ||| B_DIRTY)) =? B_VALID then panic "iderw: nothing to do"
    else if b_dev b !=? 1 then panic "iderw: request not for disk 1"
    else
      sz ← gets bc_disksize;
      if b_blockno b >=? sz then panic "iderw: block out of range"
      else
        (if truth (b_flags b &&& B_DIRTY) then
           modify (set_buf i (fun b => with_flags (b_flags b &&& Z.lnot B_DIRTY) b)) ;;
           modify (set_disk (b_blockno b) (b_data b))
         else
           modify (fun s => set_buf i (with_data (diskblk s (b_blockno b))) s)) ;;
        modify (set_buf i (fun b => with_flags (b_flags b ||| B_VALID) b)).

(** [initlock] and [initsleeplock] set the locks free. *)
Definition binit_body (b : Z) : M bst unit :=
  n ← next_of HEAD;
  modify (set_next b n) ;;
  modify (set_prev b HEAD) ;;
  modify (set_buf b (with_lock initsleeplock)) ;;
  n ← next_of HEAD;
  modify (set_prev n b) ;;
  modify (set_next HEAD b).

Definition binit : M bst unit :=
  modify (set_prev HEAD HEAD) ;;
  modify (set_next HEAD HEAD) ;;
  for_each (seqZ 0 NBUF) binit_body.

Definition bget_cached (dev blockno : Z) (b : Z) : M bst (Z + option Z) :=
  if b =? HEAD then mret (inr None)
  else
    x ← gets (fun s => bufs s b);
    if (b_dev x =? dev) && (b_blockno x =? blockno) then
      modify (set_buf b (fun x => with_refcnt (u32 (b_refcnt x + 1)) x)) ;;
      release Lbcache ;;
      acquiresleep b ;;
      mret (inr (Some b))
    else n ← next_of b; mret (inl n).

Definition bget_recycle (dev blockno : Z) (b : Z) : M bst (Z + option Z) :=
  if b =? HEAD then mret (inr None)
  else
    x ← gets (fun s => bufs s b);
    if (b_refcnt x =? 0) && ((b_flags x &&& B_DIRTY) =? 0) then
      modify (set_buf b (fun x => Buf 0 dev blockno (b_lock x) 1 (b_data x))) ;;
      release Lbcache ;;
      acquiresleep b ;;
      mret (inr (Some b))
    else n ← prev_of b; mret (inl n).

(** A walk visits at most the [NBUF] buffers and the head. *)
Definition walk_fuel : nat := S (Z.to_nat NBUF).

Definition bget (dev blockno : Z) : M bst Z :=
  acquire Lbcache ;;
  b0 ← next_of HEAD;
  r ← loop walk_fuel (bget_cached dev blockno) b0;
  match r with
  | Some b => mret b
  | None =>
      b0 ← prev_of HEAD;
      r ← loop walk_fuel (bget_recycle dev blockno) b0;
      match r with
      | Some b => mret b
      | None => panic "bget: no buffers"
      end
  end.

Definition bread (dev blockno : Z) : M bst Z :=
  b ← bget dev blockno;
  x ← gets (fun s => bufs s b);
  when ((b_flags x &&& B_VALID) =? 0) (iderw b) ;;
  mret b.

Definition bwrite (b : Z) : M bst unit :=
  h ← holdingsleep b;
  if negb h then panic "bwrite"
  else
    modify (set_buf b (fun x => with_flags (b_flags x ||| B_DIRTY) x)) ;;
    iderw b.

Definition brelse (b : Z) : M bst unit :=
  h ← holdingsleep b;
  if negb h then panic "brelse"
  else
    releasesleep b ;;
    acquire Lbcache ;;
    modify (set_buf b (fun x => with_refcnt (u32 (b_refcnt x - 1)) x)) ;;
    x ← gets (fun s => bufs s b);
    when (b_refcnt x =? 0)
      (n ← next_of b; p ← prev_of b;
       modify (set_prev n p) ;;
       p ← prev_of b; n ← next_of b;
       modify (set_next p n) ;;
       n ← next_of HEAD;
       modify (set_next b n) ;;
       modify (set_prev b HEAD) ;;
       n ← next_of HEAD;
       modify (set_prev n b) ;;
       modify (set_next HEAD b)) ;;
    release Lbcache.

(** ** Circular doubly linked lists *)
Fixpoint linked (nx : gmap Z Z) (x : Z) (l : list Z) (y : Z) : Prop :=
  match l with
  | [] => nx !!! x = y
  | z :: l' => nx !!! x = z /\ linked nx z l' y
  end.

Definition lastz (x : Z) (l : list Z) : Z := default x (last l).
Definition headz (x : Z) (l : list Z) : Z := default x (head l).

Lemma linked_app nx x l1 z l2 y :
  linked nx x (l1 ++ z :: l2) y <-> linked nx x l1 z /\ linked nx z l2 y.
Proof. revert x. induction l1 as [|a l1 IH]; intros x; cbn; [done|]. rewrite IH. tauto. Qed.

Lemma linked_ext nx nx' x x' l y :
  nx' !!! x' = nx !!! x -> (forall z, z ∈ l -> nx' !!! z = nx !!! z) ->
  linked nx x l y -> linked nx' x' l y.
Proof.
  revert x x'. induction l as [|z l IH]; intros x x' Hx Hl; cbn; [congruence|].
  intros [E Hlk]. split; [congruence|]. apply (IH z); [|set_solver|done]. apply Hl. by left.
Qed.

Lemma linked_head nx x l y : linked nx x l y -> nx !!! x = headz y l.
Proof. destruct l; cbn; naive_solver. Qed.

Lemma lastz_in x l : lastz x l = x \/ lastz x l ∈ l.
Proof.
  unfold lastz. destruct (last l) as [z|] eqn:E; [|by left].
  right. apply last_Some in E as [l' ->]. set_solver.
Qed.

Lemma lastz_cons x z l : lastz x (z :: l) = lastz z l.
Proof. unfold lastz. destruct l as [|a l]; [done|]. by rewrite last_cons_cons; destruct (last (a :: l)) eqn:E; [|apply last_None in E]. Qed.

(** Redirecting the last pointer of a path. *)
Lemma linked_redirect nx x l y w :
  NoDup (x :: l) -> linked nx x l y -> linked (<[lastz x l := w]> nx) x l w.
Proof.
  revert x. induction l as [|z l IH]; intros x Hnd; cbn.
  - intros _. apply lookup_total_insert_eq.
  - intros [E Hl]. apply NoDup_cons in Hnd as [Hx Hnd]. rewrite lastz_cons. split.
    + rewrite lookup_total_insert_ne; [done|]. intros Ex.
      destruct (lastz_in z l) as [E1|E1]; rewrite Ex in E1; set_solver.
    + by apply IH.
Qed.

Lemma lastz_reverse x l : lastz x (reverse l) = headz x l.
Proof. unfold lastz, headz. by rewrite last_reverse. Qed.
Lemma headz_reverse x l : headz x (reverse l) = lastz x l.
Proof. unfold lastz, headz. by rewrite head_reverse. Qed.

Lemma linked_remove nx h l1 b l2 :
  NoDup (h :: l1 ++ b :: l2) -> linked nx h (l1 ++ b :: l2) h ->
  linked (<[lastz h l1 := nx !!! b]> nx) h (l1 ++ l2) h.
Proof.
  intros Hnd [H1 H2]%linked_app.
  assert (Hnd1 : NoDup (h :: l1)).
  { rewrite app_comm_cons, NoDup_app in Hnd. by destruct Hnd. }
  assert (Hout : forall a, a ∈ b :: l2 -> lastz h l1 <> a).
  { intros a Ha Ex. rewrite app_comm_cons, NoDup_app in Hnd. destruct Hnd as (_ & Hd & _).
    apply (Hd a); [|done]. rewrite <- Ex. destruct (lastz_in h l1) as [->|]; set_solver. }
  pose proof (linked_redirect nx h l1 b (nx !!! b) Hnd1 H1) as H3.
  destruct l2 as [|z l2]; cbn in H2.
  - rewrite app_nil_r. by rewrite H2 in H3 |- *.
  - destruct H2 as [Eb H2]. rewrite Eb in H3 |- *. apply linked_app. split; [done|].
    apply (linked_ext nx _ z); [| |done].
    + apply lookup_total_insert_ne. apply Hout. set_solver.
    + intros a Ha. apply lookup_total_insert_ne. apply Hout. set_solver.
Qed.

Record dll (nx pv : gmap Z Z) (l : list Z) : Prop := Dll {
  dl_nodup : NoDup (HEAD :: l);
  dl_next : linked nx HEAD l HEAD;
  dl_prev : linked pv HEAD (reverse l) HEAD }.

Lemma dll_remove nx pv l1 b l2 :
  dll nx pv (l1 ++ b :: l2) ->
  nx !!! b = headz HEAD l2 /\ pv !!! b = lastz HEAD l1 /\
  dll (<[lastz HEAD l1 := headz HEAD l2]> nx) (<[headz HEAD l2 := lastz HEAD l1]> pv) (l1 ++ l2).
Proof.
  intros [Hnd Hn Hp].
  assert (Hrev : reverse (l1 ++ b :: l2) = reverse l2 ++ b :: reverse l1).
  { by rewrite reverse_app, reverse_cons, <- app_assoc. }
  assert (En : nx !!! b = headz HEAD l2).
  { apply linked_app in Hn as [_ Hn]. by apply linked_head in Hn. }
  assert (Ep : pv !!! b = lastz HEAD l1).
  { rewrite Hrev in Hp. apply linked_app in Hp as [_ Hp]. apply linked_head in Hp.
    by rewrite headz_reverse in Hp. }
  split; [done|]. split; [done|]. split.
  - eapply sublist_NoDup; [exact Hnd|]. constructor. apply sublist_app; [done|by constructor].
  - rewrite <- En. by apply linked_remove.
  - rewrite reverse_app, <- Ep, <- lastz_reverse. apply linked_remove; [|by rewrite <- Hrev].
    rewrite <- Hrev. apply NoDup_cons in Hnd as [H1 H2]. apply NoDup_cons.
    split; [by rewrite elem_of_reverse|by rewrite reverse_Permutation].
Qed.

Lemma dll_push nx pv l b :
  dll nx pv l -> b <> HEAD -> b ∉ l ->
  dll (<[HEAD := b]> (<[b := nx !!! HEAD]> nx))
      (<[nx !!! HEAD := b]> (<[b := HEAD]> pv)) (b :: l).
Proof.
  intros [Hnd Hn Hp] Hb Hbl. pose proof (linked_head _ _ _ _ Hn) as Eh. split.
  - apply NoDup_cons in Hnd as [Hh Hnd]. apply NoDup_cons. split; [|by constructor].
    by intros [?|?]%elem_of_cons; [congruence|].
  - cbn. split; [apply lookup_total_insert_eq|].
    apply (linked_ext nx _ HEAD); [| |done].
    + rewrite lookup_total_insert_ne by done. apply lookup_total_insert_eq.
    + intros z Hz. apply NoDup_cons in Hnd as [Hh Hnd].
      rewrite !lookup_total_insert_ne; [done|..]; intros <-; set_solver.
  - rewrite reverse_cons. apply linked_app. rewrite Eh, <- lastz_reverse. split.
    + apply linked_redirect with (y := HEAD).
      * apply NoDup_cons in Hnd as [H1 H2]. apply NoDup_cons.
        split; [by rewrite elem_of_reverse|by rewrite reverse_Permutation].
      * apply (linked_ext pv _ HEAD); [| |done].
        -- by apply lookup_total_insert_ne.
        -- intros z Hz. apply lookup_total_insert_ne. rewrite elem_of_reverse in Hz. set_solver.
    + cbn. rewrite lookup_total_insert_ne; [apply lookup_total_insert_eq|].
      destruct (lastz_in HEAD (reverse l)) as [->|Hin]; [done|].
      intros E. rewrite E, elem_of_reverse in Hin. done.
Qed.

(** ** The cache invariant *)
Definition is_locked (b : buf) : Prop := slk_locked (b_lock b) <> 0.

Record buf_ok (s : bst) (b : buf) : Prop := BufOk {
  bo_unused : b_dev b = 0 -> b_flags b = 0;
  bo_used : b_dev b <> 0 -> b_dev b = 1 /\ 0 <= b_blockno b < bc_disksize s
    /\ (b_flags b = B_VALID \/ b_flags b = (B_VALID ||| B_DIRTY));
  bo_ref : (slk_locked (b_lock b) = 0 /\ b_refcnt b = 0)
    \/ (slk_locked (b_lock b) = 1 /\ b_refcnt b = 1);
  bo_clean : b_flags b = B_VALID -> slk_locked (b_lock b) = 0 ->
    b_data b = diskblk s (b_blockno b) }.

Record bio_inv (s : bst) (l : list Z) : Prop := BioInv {
  bi_dll : dll (bc_next s) (bc_prev s) l;
  bi_perm : forall i, i ∈ l <-> 0 <= i < NBUF;
  bi_dom : forall i, 0 <= i < NBUF -> is_Some (bc_buf s !! i);
  bi_key : forall i j, i ∈ l -> j ∈ l -> b_dev (bufs s i) <> 0 ->
    b_dev (bufs s i) = b_dev (bufs s j) -> b_blockno (bufs s i) = b_blockno (bufs s j) -> i = j;
  bi_buf : forall i, i ∈ l -> buf_ok s (bufs s i);
  bi_free : (Lbcache ∉ bc_held s) /\ (forall i, Lsleep i ∉ bc_held s) /\ bc_pid s <> 0 }.

(** Buffer [i] holds block [b] of device 1. *)
Definition holds (s : bst) (b i : Z) : Prop :=
  b_dev (bufs s i) = 1 /\ b_blockno (bufs s i) = b.
#[export] Instance holds_dec s b i : Decision (holds s b i).
Proof. unfold holds. apply _. Defined.

(** The contents of a block as the kernel sees them. *)
Definition content (s : bst) (b : Z) : list Z :=
  match filter (holds s b) (seqZ 0 NBUF) with
  | i :: _ => b_data (bufs s i)
  | [] => diskblk s b
  end.

Definition reusable (s : bst) (i : Z) : Prop :=
  b_refcnt (bufs s i) = 0 /\ Z.land (b_flags (bufs s i)) B_DIRTY = 0.
#[export] Instance reusable_dec s i : Decision (reusable s i).
Proof. unfold reusable. apply _. Defined.

Lemma bufs_same i f s : bufs (set_buf i f s) i = f (bufs s i).
Proof. apply lookup_total_insert_eq. Qed.
Lemma bufs_other i j f s : j <> i -> bufs (set_buf i f s) j = bufs s j.
Proof. intros. by apply lookup_total_insert_ne. Qed.
Lemma set_buf_twice i f g s : set_buf i f (set_buf i g s) = set_buf i (fun b => f (g b)) s.
Proof. unfold set_buf, bufs; cbn. by rewrite insert_insert_eq, lookup_total_insert_eq. Qed.
Lemma set_buf_id i f s :
  is_Some (bc_buf s !! i) -> f (bufs s i) = bufs s i -> set_buf i f s = s.
Proof.
  intros [b Hb] E. unfold set_buf. rewrite E. unfold bufs, lookup_total, map_lookup_total.
  rewrite Hb. cbn. rewrite insert_id by done. by destruct s.
Qed.

Lemma set_buf_ext i f g s : f (bufs s i) = g (bufs s i) -> set_buf i f s = set_buf i g s.
Proof. unfold set_buf. by intros ->. Qed.

Section inv.
Context (s : bst) (l : list Z).
Hypothesis HI : bio_inv s l.

Lemma bio_not_head i : i ∈ l -> (i =? HEAD) = false.
Proof. rewrite (bi_perm _ _ HI). unfold HEAD. lia. Qed.

Lemma content_holds b i : 0 <= i < NBUF -> holds s b i -> content s b = b_data (bufs s i).
Proof.
  intros Hi Hh. unfold content.
  assert (Hin : i ∈ filter (holds s b) (seqZ 0 NBUF)).
  { rewrite list_elem_of_filter, elem_of_seqZ. split; [done|lia]. }
  destruct (filter (holds s b) (seqZ 0 NBUF)) as [|j L] eqn:E; [set_solver|].
  assert (Hj : j ∈ filter (holds s b) (seqZ 0 NBUF)) by (rewrite E; by left).
  rewrite list_elem_of_filter, elem_of_seqZ in Hj. destruct Hj as [[Hj1 Hj2] Hj], Hh as [Hh1 Hh2].
  f_equal. f_equal. apply (bi_key _ _ HI); rewrite ?(bi_perm _ _ HI); try lia; congruence.
Qed.

Lemma content_none b : (forall i, i ∈ l -> ~ holds s b i) -> content s b = diskblk s b.
Proof.
  intros Hn. unfold content. destruct (filter _ _) as [|j L] eqn:E; [done|].
  assert (Hj : j ∈ filter (holds s b) (seqZ 0 NBUF)) by (rewrite E; by left).
  rewrite list_elem_of_filter, elem_of_seqZ in Hj. destruct (Hn j); [|by destruct Hj].
  rewrite (bi_perm _ _ HI). lia.
Qed.

(** Replacing buffer [i] by one the invariant accepts. *)
Lemma bio_inv_set i b' :
  i ∈ l -> buf_ok s b' ->
  (b_dev b' <> 0 -> forall j, j ∈ l -> j <> i -> ~ holds s (b_blockno b') j) ->
  bio_inv (set_buf i (fun _ => b') s) l.
Proof.
  intros Hi Hok Hun. destruct HI as [I1 I2 I3 I4 I5 I6].
  assert (Hb : forall j, bufs (set_buf i (fun _ => b') s) j = if decide (j = i) then b' else bufs s j).
  { intros j. case_decide; subst; [by rewrite bufs_same|by rewrite bufs_other]. }
  assert (Hnew : forall j, j ∈ l -> j <> i -> b_dev b' <> 0 -> b_dev (bufs s j) = b_dev b' ->
    b_blockno (bufs s j) <> b_blockno b').
  { intros j Hj Hne Hd E E'. apply (Hun Hd j Hj Hne). split; [|done].
    rewrite E. by apply (bo_used _ _ Hok). }
  split; try done.
  - intros j Hj. cbn. destruct (decide (i = j)) as [->|]; [|rewrite lookup_insert_ne by done; by apply I3].
    rewrite lookup_insert_eq. eauto.
  - intros j k Hj Hk. rewrite !Hb. repeat split_decide; subst; try done; try congruence; intros Hd E1 E2.
    + exfalso. by apply (Hnew k Hk n Hd).
    + exfalso. rewrite E1 in Hd. by apply (Hnew j Hj n Hd).
    + by apply I4.
  - intros j Hj. rewrite Hb. split_decide; [|specialize (I5 j Hj)]; [destruct Hok|destruct I5]; by split.
Qed.

(** ** Walking the list *)
Lemma walk_skip (nx : gmap Z Z) (body : Z -> M bst (Z + option Z)) l1 l2 x n :
  linked nx x (l1 ++ l2) HEAD ->
  (forall i, i ∈ l1 -> body i s = Done (inl (nx !!! i)) s) ->
  loop (length l1 + n) body (headz HEAD (l1 ++ l2)) s = loop n body (headz HEAD l2) s.
Proof.
  revert x. induction l1 as [|i l1 IH]; intros x Hl Hb; [done|].
  cbn [app linked] in Hl. destruct Hl as [_ Hl]. cbn [app headz head length plus loop].
  unfold mbind, M_bind. cbn [default id from_option]. rewrite Hb by (by left).
  cbn beta iota. change (headz HEAD (i :: l1 ++ l2)) with i. rewrite (linked_head _ _ _ _ Hl). apply (IH i); [done|]. intros j Hj. apply Hb. by right.
Qed.

Lemma cached_skip L dev bno i :
  i ∈ l -> ~ (b_dev (bufs s i) = dev /\ b_blockno (bufs s i) = bno) ->
  bget_cached dev bno i (with_locks L s) = Done (inl (bc_next s !!! i)) (with_locks L s).
Proof.
  intros Hi Hn. unfold bget_cached. rewrite bio_not_head by done.
  change (bufs s i) with (bufs (with_locks L s) i) in Hn.
  unfold next_of, mbind, M_bind, gets, mret, M_ret.
  destruct (Z.eqb_spec (b_dev (bufs (with_locks L s) i)) dev),
    (Z.eqb_spec (b_blockno (bufs (with_locks L s) i)) bno);
    cbn; try done. by destruct Hn.
Qed.

Lemma recycle_skip L dev bno i :
  i ∈ l -> ~ reusable s i ->
  bget_recycle dev bno i (with_locks L s) = Done (inl (bc_prev s !!! i)) (with_locks L s).
Proof.
  intros Hi Hn. unfold bget_recycle. rewrite bio_not_head by done.
  change (reusable s i) with (reusable (with_locks L s) i) in Hn.
  unfold prev_of, mbind, M_bind, gets, mret, M_ret. unfold reusable in Hn.
  destruct (Z.eqb_spec (b_refcnt (bufs (with_locks L s) i)) 0),
    (Z.eqb_spec (b_flags (bufs (with_locks L s) i) &&& B_DIRTY) 0);
    cbn; try done. by destruct Hn.
Qed.

Lemma bio_length : length l = Z.to_nat NBUF.
Proof.
  assert (Hp : l ≡ₚ seqZ 0 NBUF).
  { apply NoDup_Permutation; [|apply NoDup_seqZ|].
    - pose proof (dl_nodup _ _ _ (bi_dll _ _ HI)) as H. by apply NoDup_cons in H as [_ ?].
    - intros i. rewrite elem_of_seqZ, (bi_perm _ _ HI). lia. }
  rewrite Hp. by rewrite length_seqZ.
Qed.
End inv.

(** ** The operations in closed form *)
Section ops.
Context (s : bst) (l : list Z).
Hypothesis HI : bio_inv s l.

Let free_sleep i : Lsleep i ∉ bc_held s.
Proof. apply (bi_free _ _ HI). Qed.

Lemma with_held : with_locks (bc_held s) s = s.
Proof. by destruct s. Qed.

Lemma buf_holdingsleep_eq i :
  i ∈ l ->
  holdingsleep i s
  = Done (truth (slk_locked (b_lock (bufs s i))) && (slk_pid (b_lock (bufs s i)) =? bc_pid s)) s.
Proof.
  intros Hi. unfold holdingsleep, mbind, M_bind, gets, on_lock, zoom.
  rewrite Sleeplock.holdingsleep_eq by done. cbn [ss_lk ss_held].
  rewrite set_buf_id; [by rewrite with_held|apply (bi_dom _ _ HI), (bi_perm _ _ HI), Hi|].
  by destruct (bufs s i).
Qed.

(** Taking the sleep lock of a buffer whose reference count [f] has updated. *)
Lemma buf_acquiresleep_eq i f :
  (forall b, b_lock (f b) = b_lock b) -> slk_locked (b_lock (bufs s i)) = 0 ->
  acquiresleep i (set_buf i f s)
  = Done tt (set_buf i (fun b => with_lock (Sleeplock 1 (bc_pid s)) (f b)) s).
Proof.
  intros Hf Hu. unfold acquiresleep, mbind, M_bind, gets, on_lock, zoom.
  rewrite bufs_same, Hf.
  change (bc_held (set_buf i f s)) with (bc_held s). change (bc_pid (set_buf i f s)) with (bc_pid s).
  rewrite Sleeplock.acquiresleep_eq by done. rewrite Hu. cbn [truth Z.eqb negb ss_lk ss_held].
  unfold mret, M_ret. by rewrite set_buf_twice.
Qed.

Lemma acquiresleep_sleeps i f :
  (forall b, b_lock (f b) = b_lock b) -> slk_locked (b_lock (bufs s i)) <> 0 ->
  acquiresleep i (set_buf i f s) = Sleep "buffer" (set_buf i f s).
Proof.
  intros Hf Hu. unfold acquiresleep, mbind, M_bind, gets, on_lock, zoom.
  rewrite bufs_same, Hf.
  change (bc_held (set_buf i f s)) with (bc_held s). change (bc_pid (set_buf i f s)) with (bc_pid s).
  rewrite Sleeplock.acquiresleep_eq by done. unfold truth. apply Z.eqb_neq in Hu as ->.
  cbn [negb ss_lk ss_held]. unfold sleep_on. f_equal.
  replace (set_buf i (with_lock (b_lock (bufs s i))) (set_buf i f s)) with (set_buf i f s); [by destruct s|].
  symmetry. apply set_buf_id.
  - cbn. rewrite lookup_insert_eq. eauto.
  - rewrite bufs_same. specialize (Hf (bufs s i)). destruct (f (bufs s i)). cbn in *. by subst.
Qed.

(** Under [bcache.lock]. *)
Definition lk_s : bst := with_locks (Lbcache :: locks_of s) s.

Lemma release_bcache i f :
  release Lbcache (set_buf i f lk_s) = Done tt (set_buf i f s).
Proof.
  erewrite (release_top Lbcache (bc_held s)); [done|done|apply (bi_free _ _ HI)].
Qed.

(** The walk of [bget] from the head: to the buffer of the block, or round. *)
Lemma scan_none bno :
  (forall i, i ∈ l -> ~ holds s bno i) ->
  loop walk_fuel (bget_cached 1 bno) (bc_next s !!! HEAD) lk_s = Done None lk_s.
Proof.
  intros Hn. pose proof (dl_next _ _ _ (bi_dll _ _ HI)) as Hl.
  rewrite (linked_head _ _ _ _ Hl). unfold walk_fuel.
  replace (S (Z.to_nat NBUF)) with (length l + 1)%nat by (rewrite (bio_length s l HI); lia).
  rewrite <- (app_nil_r l) at 2. rewrite (walk_skip lk_s (bc_next s) _ l [] HEAD);
    [done|by rewrite app_nil_r|].
  intros i Hi. apply (cached_skip s l HI); [done|]. intros Hh. by apply (Hn i Hi).
Qed.

Lemma scan_hit bno l1 b l2 :
  l = l1 ++ b :: l2 -> (forall i, i ∈ l1 -> ~ holds s bno i) ->
  loop walk_fuel (bget_cached 1 bno) (bc_next s !!! HEAD) lk_s
  = loop (S (length l2 + 1)) (bget_cached 1 bno) b lk_s.
Proof.
  intros E Hn. pose proof (dl_next _ _ _ (bi_dll _ _ HI)) as Hl.
  rewrite (linked_head _ _ _ _ Hl). unfold walk_fuel.
  replace (S (Z.to_nat NBUF)) with (length l1 + S (length l2 + 1))%nat
    by (rewrite <- (bio_length s l HI), E, length_app; cbn; lia).
  rewrite E. rewrite (walk_skip lk_s (bc_next s) _ l1 (b :: l2) HEAD); [done|by rewrite <- E|].
  intros i Hi. apply (cached_skip s l HI); [rewrite E; set_solver|]. intros Hh. by apply (Hn i Hi).
Qed.

(** The walk from the tail: to the first reusable buffer, or round. *)
Lemma recycle_none bno :
  (forall i, i ∈ l -> ~ reusable s i) ->
  loop walk_fuel (bget_recycle 1 bno) (bc_prev s !!! HEAD) lk_s = Done None lk_s.
Proof.
  intros Hn. pose proof (dl_prev _ _ _ (bi_dll _ _ HI)) as Hl.
  rewrite (linked_head _ _ _ _ Hl). unfold walk_fuel.
  replace (S (Z.to_nat NBUF)) with (length (reverse l) + 1)%nat
    by (rewrite length_reverse, (bio_length s l HI); lia).
  rewrite <- (app_nil_r (reverse l)) at 2.
  rewrite (walk_skip lk_s (bc_prev s) _ (reverse l) [] HEAD); [done|by rewrite app_nil_r|].
  intros i Hi. rewrite elem_of_reverse in Hi. apply (recycle_skip s l HI); [done|by apply Hn].
Qed.

Lemma recycle_hit bno l1 b l2 :
  l = l1 ++ b :: l2 -> (forall i, i ∈ l2 -> ~ reusable s i) ->
  loop walk_fuel (bget_recycle 1 bno) (bc_prev s !!! HEAD) lk_s
  = loop (S (length l1 + 1)) (bget_recycle 1 bno) b lk_s.
Proof.
  intros E Hn. pose proof (dl_prev _ _ _ (bi_dll _ _ HI)) as Hl.
  rewrite (linked_head _ _ _ _ Hl). unfold walk_fuel.
  assert (Er : reverse l = reverse l2 ++ b :: reverse l1)
    by (by rewrite E, reverse_app, reverse_cons, <- app_assoc).
  replace (S (Z.to_nat NBUF)) with (length (reverse l2) + S (length l1 + 1))%nat
    by (rewrite <- (bio_length s l HI), E, length_app, length_reverse; cbn; lia).
  rewrite Er. rewrite (walk_skip lk_s (bc_prev s) _ (reverse l2) (b :: reverse l1) HEAD);
    [done|by rewrite <- Er|].
  intros i Hi. rewrite elem_of_reverse in Hi.
  apply (recycle_skip s l HI); [rewrite E; set_solver|by apply Hn].
Qed.

Definition hit_buf (b : buf) : buf :=
  with_lock (Sleeplock 1 (bc_pid s)) (with_refcnt (u32 (b_refcnt b + 1)) b).
Definition miss_buf (bno : Z) (b : buf) : buf :=
  with_lock (Sleeplock 1 (bc_pid s)) (Buf 0 1 bno (b_lock b) 1 (b_data b)).

Lemma bget_hit bno l1 b l2 :
  l = l1 ++ b :: l2 -> (forall i, i ∈ l1 -> ~ holds s bno i) -> holds s bno b ->
  slk_locked (b_lock (bufs s b)) = 0 ->
  bget 1 bno s = Done b (set_buf b hit_buf s).
Proof.
  intros E Hn [Hh1 Hh2] Hu. unfold bget. unfold mbind at 1, M_bind at 1.
  rewrite acquire_free by apply (bi_free _ _ HI). fold lk_s.
  unfold next_of, gets. unfold mbind, M_bind. change (bc_next lk_s) with (bc_next s).
  rewrite (scan_hit bno l1 b l2 E Hn). cbn [loop]. unfold mbind, M_bind, bget_cached at 1.
  rewrite (bio_not_head s l HI) by (rewrite E; set_solver).
  unfold mbind, M_bind, gets, modify. change (bufs lk_s b) with (bufs s b).
  rewrite Hh1, Hh2, !Z.eqb_refl. cbn [andb]. cbn beta iota. rewrite release_bcache.
  by rewrite buf_acquiresleep_eq.
Qed.

Lemma bget_miss bno l1 b l2 :
  l = l1 ++ b :: l2 -> (forall i, i ∈ l -> ~ holds s bno i) ->
  (forall i, i ∈ l2 -> ~ reusable s i) -> reusable s b ->
  slk_locked (b_lock (bufs s b)) = 0 ->
  bget 1 bno s = Done b (set_buf b (miss_buf bno) s).
Proof.
  intros E Hn Hr [Hr1 Hr2] Hu. unfold bget. unfold mbind at 1, M_bind at 1.
  rewrite acquire_free by apply (bi_free _ _ HI). fold lk_s.
  unfold next_of, prev_of, gets. unfold mbind, M_bind. change (bc_next lk_s) with (bc_next s).
  rewrite (scan_none bno Hn). change (bc_prev lk_s) with (bc_prev s).
  rewrite (recycle_hit bno l1 b l2 E Hr). cbn [loop]. unfold mbind, M_bind, bget_recycle at 1.
  rewrite (bio_not_head s l HI) by (rewrite E; set_solver).
  unfold mbind, M_bind, gets, modify. change (bufs lk_s b) with (bufs s b).
  rewrite Hr1, Hr2. cbn [andb Z.eqb]. cbn beta iota. rewrite release_bcache.
  by rewrite buf_acquiresleep_eq.
Qed.

Lemma bget_full bno :
  (forall i, i ∈ l -> ~ holds s bno i) -> (forall i, i ∈ l -> ~ reusable s i) ->
  bget 1 bno s = Panic "bget: no buffers".
Proof.
  intros Hn Hr. unfold bget. unfold mbind at 1, M_bind at 1.
  rewrite acquire_free by apply (bi_free _ _ HI). fold lk_s.
  unfold next_of, prev_of, gets. unfold mbind, M_bind. change (bc_next lk_s) with (bc_next s).
  rewrite (scan_none bno Hn). change (bc_prev lk_s) with (bc_prev s).
  by rewrite (recycle_none bno Hr).
Qed.
End ops.

(** ** Contents *)
Lemma content_set s l i b' x :
  bio_inv s l -> bio_inv (set_buf i (fun _ => b') s) l -> i ∈ l ->
  content (set_buf i (fun _ => b') s) x
  = if decide (b_dev b' = 1 /\ b_blockno b' = x) then b_data b'
    else if decide (holds s x i) then diskblk s x else content s x.
Proof.
  intros HI HI' Hi. set (s' := set_buf i (fun _ => b') s) in *.
  assert (Hbi : bufs s' i = b') by apply bufs_same.
  assert (Hbo : forall j, j <> i -> bufs s' j = bufs s j) by (intros; by apply bufs_other).
  assert (Hr : forall j, j ∈ l -> 0 <= j < NBUF) by (intros j; apply (bi_perm _ _ HI)).
  split_decide.
  { rewrite (content_holds s' l HI' x i); [by rewrite Hbi|by apply Hr|]. unfold holds. by rewrite Hbi. }
  destruct (decide (Exists (holds s' x) l)) as [He|He].
  - apply Exists_exists in He as (j & Hj & Hh). assert (j <> i) by (intros ->; unfold holds in Hh; by rewrite Hbi in Hh).
    rewrite (content_holds s' l HI' x j) by auto. rewrite Hbo by done.
    assert (Hh' : holds s x j) by (unfold holds in *; by rewrite Hbo in Hh).
    rewrite decide_False; [by rewrite (content_holds s l HI x j) by auto|].
    intros [K1 K2]. destruct Hh' as [K3 K4].
    assert (i = j) by (apply (bi_key _ _ HI); try done; congruence). done.
  - rewrite (content_none s' l HI'); [|intros j Hj Hh; apply He, Exists_exists; eauto].
    split_decide; [done|].
    rewrite (content_none s l HI); [done|]. intros j Hj Hh.
    apply He, Exists_exists. exists j. split; [done|]. unfold holds in *.
    rewrite Hbo; [done|]. by intros ->.
Qed.

(** ** The disk driver on a buffer the process has locked *)
Section driver.
Context (s : bst) (i : Z).
Hypothesis Hfree : Lsleep i ∉ bc_held s.
Hypothesis Hdom : is_Some (bc_buf s !! i).
Hypothesis Hlk : slk_locked (b_lock (bufs s i)) = 1 /\ slk_pid (b_lock (bufs s i)) = bc_pid s.

Lemma holdingsleep_mine : holdingsleep i s = Done true s.
Proof.
  unfold holdingsleep, mbind, M_bind, gets, on_lock, zoom.
  rewrite Sleeplock.holdingsleep_eq by done. cbn [ss_lk ss_held].
  rewrite set_buf_id; [|done|by destruct (bufs s i)].
  destruct Hlk as [-> ->]. by rewrite Z.eqb_refl; destruct s.
Qed.

Hypothesis Hdev : b_dev (bufs s i) = 1.
Hypothesis Hbno : b_blockno (bufs s i) < bc_disksize s.

Lemma iderw_eq :
  (b_flags (bufs s i) &&& (B_VALID ||| B_DIRTY)) <> B_VALID ->
  iderw i s
  = Done tt
      (if truth (b_flags (bufs s i) &&& B_DIRTY) then
         set_disk (b_blockno (bufs s i)) (b_data (bufs s i))
           (set_buf i (fun b => with_flags ((b_flags b &&& Z.lnot B_DIRTY) ||| B_VALID) b) s)
       else
         set_buf i (fun b => with_flags (b_flags b ||| B_VALID)
                               (with_data (diskblk s (b_blockno b)) b)) s).
Proof.
  intros Hfl. unfold iderw. unfold mbind at 1, M_bind at 1. rewrite holdingsleep_mine. cbn [negb].
  unfold mbind, M_bind, gets, modify. apply Z.eqb_neq in Hfl as ->. rewrite Hdev, Z.eqb_refl.
  cbn [negb]. cbn beta iota. rewrite Z.geb_leb. replace (bc_disksize s <=? _) with false by lia.
  destruct (truth _) eqn:E; cbn beta iota.
  - unfold mbind, M_bind, modify. f_equal.
    change (set_buf i ?f (set_disk ?b ?d ?t)) with (set_disk b d (set_buf i f t)).
    rewrite set_buf_twice. reflexivity.
  - f_equal. by rewrite set_buf_twice.
Qed.
End driver.

(** ** [bread] *)
Definition got_buf (s : bst) (fl bno : Z) : buf :=
  Buf fl 1 bno (Sleeplock 1 (bc_pid s)) 1 (content s bno).

Definition valid_flags (fl : Z) : Prop := fl = B_VALID \/ fl = (B_VALID ||| B_DIRTY).

Lemma valid_flags_bit fl : valid_flags fl -> (fl &&& B_VALID =? 0) = false.
Proof. by intros [-> | ->]. Qed.

Lemma got_buf_ok s fl bno :
  0 <= bno < bc_disksize s -> valid_flags fl -> buf_ok s (got_buf s fl bno).
Proof. intros Hb Hf. split; cbn; [done|done|by right|done]. Qed.

(** What [bread] leaves: the block's buffer, locked, with the block's contents. *)
Record read_into (s : bst) (l : list Z) (bno i : Z) (s' : bst) : Prop := ReadInto {
  ri_in : i ∈ l;
  ri_free : slk_locked (b_lock (bufs s i)) = 0;
  ri_buf : exists fl, valid_flags fl /\ s' = set_buf i (fun _ => got_buf s fl bno) s
    /\ ((holds s bno i /\ fl = b_flags (bufs s i)) \/ (reusable s i /\ fl = B_VALID));
  ri_inv : bio_inv s' l;
  ri_content : forall b, content s' b = content s b }.

Lemma bread_hit s l bno i :
  bio_inv s l -> 0 <= bno < bc_disksize s -> i ∈ l -> holds s bno i ->
  slk_locked (b_lock (bufs s i)) = 0 ->
  exists s', bread 1 bno s = Done i s' /\ read_into s l bno i s'.
Proof.
  intros HI Hb Hi Hh Hu. pose proof (bi_buf _ _ HI i Hi) as Hok.
  assert (Hir : 0 <= i < NBUF) by by apply (bi_perm _ _ HI).
  pose proof (content_holds s l HI bno i Hir Hh) as Hc.
  destruct Hh as [Hd Hn]. destruct (bo_used _ _ Hok) as (_ & _ & Hfl); [lia|].
  assert (Er : b_refcnt (bufs s i) = 0) by (destruct (bo_ref _ _ Hok); lia).
  destruct (list_elem_of_split l i Hi) as (l1 & l2 & El).
  assert (Hl1 : forall j, j ∈ l1 -> ~ holds s bno j).
  { intros j Hj [Hd' Hn']. assert (j = i) as ->.
    { apply (bi_key _ _ HI); [rewrite El; set_solver|done|lia|congruence|congruence]. }
    pose proof (dl_nodup _ _ _ (bi_dll _ _ HI)) as Hnd. rewrite El in Hnd.
    apply NoDup_cons in Hnd as [_ Hnd]. apply NoDup_app in Hnd as (_ & Hnd & _).
    apply (Hnd i Hj). by left. }
  assert (Es : set_buf i (hit_buf s) s = set_buf i (fun _ => got_buf s (b_flags (bufs s i)) bno) s).
  { unfold set_buf, got_buf, hit_buf. rewrite Hc, Er. destruct (bufs s i). cbn in *. by subst. }
  exists (set_buf i (hit_buf s) s). split.
  - unfold bread, mbind, M_bind. rewrite (bget_hit s l HI bno l1 i l2 El Hl1) by done.
    unfold gets. rewrite bufs_same. cbn [hit_buf with_lock with_refcnt b_flags].
    by rewrite (valid_flags_bit _ Hfl).
  - rewrite Es. assert (HI' : bio_inv (set_buf i (fun _ => got_buf s (b_flags (bufs s i)) bno) s) l).
    { apply bio_inv_set; [done|done|by apply got_buf_ok|]. intros _ j Hj Hne [Hd' Hn'].
      apply Hne, (bi_key _ _ HI); [done|done|lia|congruence|cbn in Hn'; congruence]. }
    split; [done|done| |done|].
    { eexists. split; [exact Hfl|]. split; [done|]. left. by split. }
    intros b. rewrite (content_set s l i _ b HI HI' Hi). cbn.
    split_decide as [[_ <-]|Hne]; [done|]. rewrite decide_False; [done|].
    intros [? E]. apply Hne. by rewrite <- Hn.
Qed.

Lemma bread_miss s l bno i l1 l2 :
  bio_inv s l -> 0 <= bno < bc_disksize s -> l = l1 ++ i :: l2 ->
  (forall j, j ∈ l -> ~ holds s bno j) -> reusable s i -> (forall j, j ∈ l2 -> ~ reusable s j) ->
  exists s', bread 1 bno s = Done i s' /\ read_into s l bno i s'.
Proof.
  intros HI Hb El Hn Hr Hl2. assert (Hi : i ∈ l) by (rewrite El; set_solver).
  pose proof (bi_buf _ _ HI i Hi) as Hok.
  assert (Hu : slk_locked (b_lock (bufs s i)) = 0) by (destruct Hr, (bo_ref _ _ Hok); lia).
  pose proof (content_none s l HI bno Hn) as Hc.
  set (s1 := set_buf i (miss_buf s bno) s).
  assert (Hb1 : bufs s1 i = miss_buf s bno (bufs s i)) by apply bufs_same.
  assert (Es : set_buf i (fun b => with_flags (b_flags b ||| B_VALID)
                             (with_data (diskblk s1 (b_blockno b)) b)) s1
               = set_buf i (fun _ => got_buf s B_VALID bno) s).
  { unfold s1. rewrite set_buf_twice. unfold set_buf, got_buf. rewrite Hc. reflexivity. }
  exists (set_buf i (fun _ => got_buf s B_VALID bno) s). split.
  - unfold bread, mbind, M_bind. rewrite (bget_miss s l HI bno l1 i l2) by done.
    fold s1. unfold gets. rewrite Hb1. cbn [miss_buf with_lock b_flags].
    change (when _ (iderw i)) with (iderw i).
    rewrite iderw_eq; [|apply (bi_free _ _ HI)| | | | |].
    + rewrite Hb1. cbn [miss_buf with_lock b_flags]. cbn [Z.land truth Z.eqb negb]. by rewrite Es.
    + cbn. rewrite lookup_insert_eq. eauto.
    + by rewrite Hb1.
    + by rewrite Hb1.
    + rewrite Hb1. cbn. lia.
    + by rewrite Hb1.
  - assert (HI' : bio_inv (set_buf i (fun _ => got_buf s B_VALID bno) s) l).
    { apply bio_inv_set; [done|done|apply got_buf_ok; [done|by left]|].
      intros _ j Hj _ Hh. by apply (Hn j). }
    split; [done|done| |done|].
    + exists B_VALID. split; [by left|]. split; [done|by right].
    + intros b. rewrite (content_set s l i _ b HI HI' Hi). cbn.
      split_decide as [[_ <-]|Hne]; [done|]. split_decide as [Hh|_]; [|done].
      rewrite (content_holds s l HI b i); [|by apply (bi_perm _ _ HI)|done].
      destruct Hh as [Hd Hbn]. rewrite <- Hbn. symmetry. apply (bo_clean _ _ Hok); [|done].
      destruct (bo_used _ _ Hok) as (_ & _ & [Hf|Hf]); [lia|done|].
      destruct Hr as [_ Hr]. by rewrite Hf in Hr.
Qed.

(** Every case in which [bread] can return. *)
Lemma bread_correct s l bno :
  bio_inv s l -> 0 <= bno < bc_disksize s ->
  (forall i, i ∈ l -> holds s bno i -> slk_locked (b_lock (bufs s i)) = 0) ->
  (exists i, i ∈ l /\ (holds s bno i \/ reusable s i)) ->
  exists i s', bread 1 bno s = Done i s' /\ read_into s l bno i s'.
Proof.
  intros HI Hb Hu He. destruct (decide (Exists (holds s bno) l)) as [Hc|Hc].
  - apply Exists_exists in Hc as (i & Hi & Hh). exists i. apply (bread_hit s l); auto.
  - rewrite Exists_exists in Hc.
    destruct (list_last_split (reusable s) l) as (l1 & i & l2 & El & Hr & Hl2).
    { destruct He as (i & Hi & [Hh|Hr]); [destruct Hc|]; eauto. }
    exists i. eapply bread_miss; try done. intros j Hj Hh. apply Hc. eauto.
Qed.

(** ** [bwrite] and [brelse], on a buffer the process has locked *)
Definition mine (s : bst) (i : Z) : Prop :=
  b_dev (bufs s i) = 1 /\ slk_locked (b_lock (bufs s i)) = 1
  /\ slk_pid (b_lock (bufs s i)) = bc_pid s.

Lemma mine_holdingsleep s l i :
  bio_inv s l -> i ∈ l -> mine s i -> holdingsleep i s = Done true s.
Proof.
  intros HI Hi (_ & H1 & H2). apply holdingsleep_mine; [apply (bi_free _ _ HI)| |done].
  by apply (bi_dom _ _ HI), (bi_perm _ _ HI).
Qed.

Lemma bwrite_eq s l i :
  bio_inv s l -> i ∈ l -> mine s i ->
  bwrite i s = Done tt (set_disk (b_blockno (bufs s i)) (b_data (bufs s i))
                          (set_buf i (with_flags B_VALID) s)).
Proof.
  intros HI Hi Hm. destruct (bo_used _ _ (bi_buf _ _ HI i Hi)) as (Hd & Hbn & Hfl);
    [destruct Hm; lia|].
  unfold bwrite. unfold mbind at 1, M_bind at 1. rewrite (mine_holdingsleep s l i HI Hi Hm).
  cbn [negb]. unfold mbind, M_bind, modify.
  set (s1 := set_buf i _ s).
  assert (Hb1 : bufs s1 i = with_flags (b_flags (bufs s i) ||| B_DIRTY) (bufs s i))
    by (unfold s1; by rewrite bufs_same).
  destruct Hm as (_ & H1 & H2).
  rewrite iderw_eq; [|apply (bi_free _ _ HI)| | | | |].
  - rewrite Hb1. unfold with_flags; cbn [b_flags b_blockno b_data].
    unfold s1. rewrite set_buf_twice. cbn [b_flags].
    replace (truth _) with true by (by destruct Hfl as [-> | ->]).
    f_equal. f_equal. apply set_buf_ext. unfold with_flags; cbn. by destruct Hfl as [-> | ->].
  - cbn. rewrite lookup_insert_eq. eauto.
  - by rewrite Hb1.
  - by rewrite Hb1.
  - rewrite Hb1. cbn. lia.
  - rewrite Hb1. cbn. by destruct Hfl as [-> | ->].
Qed.

Lemma bwrite_correct s l i :
  bio_inv s l -> i ∈ l -> mine s i ->
  exists s', bwrite i s = Done tt s' /\ bio_inv s' l /\ mine s' i
    /\ (forall b, content s' b = content s b)
    /\ (forall b, diskblk s' b = if decide (b = b_blockno (bufs s i)) then content s b else diskblk s b).
Proof.
  intros HI Hi Hm. pose proof (bi_buf _ _ HI i Hi) as Hok.
  destruct (bo_used _ _ Hok) as (Hd & Hbn & Hfl); [destruct Hm; lia|].
  rewrite (bwrite_eq s l i) by done. eexists. split; [done|].
  set (bno := b_blockno (bufs s i)) in *.
  set (s' := set_disk bno (b_data (bufs s i)) (set_buf i (with_flags B_VALID) s)).
  assert (Hdisk : forall b, diskblk s' b = if decide (b = bno) then b_data (bufs s i) else diskblk s b).
  { intros b. unfold s', diskblk; cbn. split_decide as [->|Hne]; [apply lookup_total_insert_eq|].
    by apply lookup_total_insert_ne. }
  assert (Hb : forall j, bufs s' j = if decide (j = i) then with_flags B_VALID (bufs s i) else bufs s j).
  { intros j. unfold s'. change (bufs (set_disk ?a ?b ?c)) with (bufs c).
    split_decide as [->|?]; [by rewrite bufs_same|by rewrite bufs_other]. }
  assert (Hkey : forall j, b_dev (bufs s' j) = b_dev (bufs s j) /\ b_blockno (bufs s' j) = b_blockno (bufs s j)).
  { intros j. rewrite Hb. by split_decide as [->|_]. }
  assert (HI' : bio_inv s' l).
  { destruct HI as [I1 I2 I3 I4 I5 I6]. split; try done.
    - intros j Hj. cbn. destruct (decide (i = j)) as [->|]; [rewrite lookup_insert_eq; eauto|].
      rewrite lookup_insert_ne by done. by apply I3.
    - intros j k Hj Hk. destruct (Hkey j) as [-> ->], (Hkey k) as [-> ->]. by apply I4.
    - intros j Hj. rewrite Hb. destruct (decide (j = i)) as [->|Hne].
      + destruct Hok as [O1 O2 O3 O4]. split; cbn; try done; [lia|naive_solver|].
        intros _ Hu. destruct Hm. lia.
      + destruct (I5 j Hj) as [O1 O2 O3 O4]. split; try done.
        intros Hf Hu. rewrite Hdisk. split_decide as [E|_]; [|by apply O4].
        destruct (decide (b_dev (bufs s j) = 0)) as [E0|E0]; [by rewrite (O1 E0) in Hf|].
        destruct Hne. apply I4; try done. destruct (O2 E0). congruence. }
  split; [done|]. split; [unfold mine; rewrite Hb, decide_True by done; exact Hm|].
  assert (Hc : forall b, content s' b = content s b).
  { intros b. destruct (decide (Exists (holds s b) l)) as [He|He].
    - apply Exists_exists in He as (j & Hj & Hh). assert (0 <= j < NBUF) by (by apply (bi_perm _ _ HI)).
      rewrite (content_holds s l HI b j), (content_holds s' l HI' b j); try done.
      + rewrite Hb. by split_decide as [->|_].
      + unfold holds. destruct (Hkey j) as [-> ->]. done.
    - rewrite Exists_exists in He. rewrite (content_none s l HI), (content_none s' l HI').
      + rewrite Hdisk. split_decide as [->|_]; [|done]. destruct He. exists i. split; [done|]. by split.
      + intros j Hj Hh. apply He. exists j. unfold holds in *. destruct (Hkey j) as [<- <-]. done.
      + intros j Hj Hh. apply He. eauto. }
  split; [done|]. intros b. rewrite Hdisk. split_decide as [->|_]; [|done].
  rewrite (content_holds s l HI bno i); [done|by apply (bi_perm _ _ HI)|by split].
Qed.

Definition free_buf (b : buf) : buf := with_refcnt 0 (with_lock (Sleeplock 0 0) b).

(** [brelse]: the buffer is free again and first in the list. *)
Lemma brelse_correct s l i :
  bio_inv s l -> i ∈ l -> mine s i ->
  (b_flags (bufs s i) = B_VALID -> b_data (bufs s i) = diskblk s (b_blockno (bufs s i))) ->
  exists l1 l2 s', l = l1 ++ i :: l2 /\ brelse i s = Done tt s' /\ bio_inv s' (i :: l1 ++ l2)
    /\ bufs s' i = free_buf (bufs s i) /\ (forall j, j <> i -> bufs s' j = bufs s j)
    /\ (bc_disk s' = bc_disk s /\ bc_pid s' = bc_pid s /\ bc_disksize s' = bc_disksize s)
    /\ (forall b, content s' b = content s b).
Proof.
  intros HI Hi Hm Hcl. destruct (list_elem_of_split l i Hi) as (l1 & l2 & El).
  pose proof (bi_dll _ _ HI) as Hdl. rewrite El in Hdl.
  destruct (dll_remove _ _ _ _ _ Hdl) as (En & Ep & Hdl').
  assert (Hih : i <> HEAD) by (pose proof (bio_not_head s l HI i Hi); lia).
  assert (Hil : i ∉ l1 ++ l2).
  { pose proof (dl_nodup _ _ _ Hdl) as Hnd. apply NoDup_cons in Hnd as [_ Hnd].
    apply NoDup_app in Hnd as (_ & Hd & Hnd). apply NoDup_cons in Hnd as [Hnd _].
    intros [H|H]%elem_of_app; [|done]. apply (Hd i H). by left. }
  assert (Hni : headz HEAD l2 <> i).
  { unfold headz. destruct l2; cbn; [congruence|]. intros ->. set_solver. }
  pose proof (dll_push _ _ _ i Hdl' Hih Hil) as Hd3.
  set (nx1 := <[lastz HEAD l1:=headz HEAD l2]> (bc_next s)) in *.
  set (pv1 := <[headz HEAD l2:=lastz HEAD l1]> (bc_prev s)) in *.
  set (s' := Bst (<[i := free_buf (bufs s i)]> (bc_buf s))
    (<[nx1 !!! HEAD:=i]> (<[i:=HEAD]> pv1)) (<[HEAD:=i]> (<[i:=nx1 !!! HEAD]> nx1))
    (bc_disk s) (bc_disksize s) (bc_pid s) (bc_held s)).
  exists l1, l2, s'. split; [done|].
  pose proof (bi_free _ _ HI) as (Hf1 & Hf2 & _). destruct Hm as (Hd & Hl1 & Hl2).
  destruct (bo_ref _ _ (bi_buf _ _ HI i Hi)) as [[? ?]|[_ Hrc]]; [lia|].
  assert (Hb : forall j, bufs s' j = if decide (j = i) then free_buf (bufs s i) else bufs s j).
  { intros j. unfold s', bufs; cbn. split_decide as [->|?]; [apply lookup_total_insert_eq|].
    by apply lookup_total_insert_ne. }
  split; [|split; [|split; [by rewrite Hb, decide_True|split; [intros; by rewrite Hb, decide_False|split; [done|]]]]].
  - unfold brelse. unfold mbind at 1, M_bind at 1.
    rewrite (mine_holdingsleep s l i HI Hi) by done. cbn [negb].
    unfold releasesleep, on_lock, zoom, mbind, M_bind. rewrite Sleeplock.releasesleep_eq by done.
    cbn [ss_lk ss_held]. rewrite acquire_free by done.
    unfold prev_of, next_of, gets, modify. cbn beta iota.
    set (s2 := with_locks _ (with_locks _ _)).
    rewrite bufs_same. cbn [b_refcnt with_refcnt].
    assert (Hb2 : bufs s2 i = with_lock (Sleeplock 0 0) (bufs s i))
      by exact (bufs_same i (with_lock (Sleeplock 0 0)) s).
    rewrite Hb2. cbn [b_refcnt with_lock]. rewrite Hrc. change (u32 (1 - 1) =? 0) with true. cbn [when].
    unfold mbind, M_bind. cbn beta iota.
    change (bc_next (set_buf ?a ?f s2)) with (bc_next s). change (bc_prev (set_buf ?a ?f s2)) with (bc_prev s).
    cbn [bc_next bc_prev set_prev set_next]. rewrite En, Ep.
    rewrite (lookup_total_insert_ne (bc_prev s) (headz HEAD l2) i) by done. rewrite Ep.
    change (bc_next (set_buf ?a ?f s2)) with (bc_next s). change (bc_prev (set_buf ?a ?f s2)) with (bc_prev s).
    rewrite En. fold nx1. fold pv1. rewrite (lookup_total_insert_ne nx1 i HEAD) by done.
    erewrite (release_top Lbcache (bc_held s)); [|done|done].
    f_equal. unfold s'. cbn [with_locks bst_locks].
    cbn [bc_buf bc_prev bc_next bc_disk bc_disksize bc_pid set_next set_prev]. f_equal.
    unfold set_buf at 1. cbn [bc_buf]. rewrite Hb2.
    change (bc_buf s2) with (<[i := with_lock (Sleeplock 0 0) (bufs s i)]> (bc_buf s)).
    rewrite insert_insert_eq. f_equal. unfold free_buf, with_refcnt; cbn. by rewrite Hrc.
  - destruct HI as [I1 I2 I3 I4 I5 I6]. split; try done.
    + intros j. rewrite <- I2, El. set_solver.
    + intros j Hj. cbn. destruct (decide (i = j)) as [->|]; [rewrite lookup_insert_eq; eauto|].
      rewrite lookup_insert_ne by done. by apply I3.
    + assert (Hp : forall j, j ∈ i :: l1 ++ l2 -> j ∈ l) by (rewrite El; set_solver).
      assert (Hk : forall j, b_dev (bufs s' j) = b_dev (bufs s j) /\ b_blockno (bufs s' j) = b_blockno (bufs s j)).
      { intros j. rewrite Hb. by split_decide as [->|_]. }
      intros j k Hj%Hp Hk'%Hp. destruct (Hk j) as [-> ->], (Hk k) as [-> ->]. by apply I4.
    + intros j Hj. assert (Hj' : j ∈ l) by (rewrite El; set_solver).
      rewrite Hb. destruct (decide (j = i)) as [->|Hne]; [|destruct (I5 j Hj'); by split].
      destruct (I5 i Hi) as [O1 O2 O3 O4]. split; cbn; try done; [by left|].
      intros Hf _. by apply Hcl.
  - intros b. unfold content. assert (Ef : filter (holds s' b) (seqZ 0 NBUF) = filter (holds s b) (seqZ 0 NBUF)).
    { apply list_filter_iff. intros j. unfold holds. rewrite Hb. split_decide as [->|_]; reflexivity. }
    rewrite Ef. destruct (filter (holds s b) (seqZ 0 NBUF)) as [|j L]; [done|]. rewrite Hb. by split_decide as [->|_].
Qed.

(** ** [binit] *)
Definition blank (b : buf) : Prop :=
  b_flags b = 0 /\ b_dev b = 0 /\ b_lock b = Sleeplock 0 0 /\ b_refcnt b = 0.

(** The static [bcache] before [binit]: all fields zero. *)
Record bss (s : bst) : Prop := Bss {
  bs_dom : forall i, 0 <= i < NBUF -> is_Some (bc_buf s !! i) /\ blank (bufs s i);
  bs_free : (Lbcache ∉ bc_held s) /\ (forall i, Lsleep i ∉ bc_held s) /\ bc_pid s <> 0 }.

Lemma binit_body_spec k l s :
  0 <= k < NBUF -> bss s -> dll (bc_next s) (bc_prev s) l -> k ∉ l ->
  wp (binit_body k) (fun _ s' => bss s' /\ dll (bc_next s') (bc_prev s') (k :: l)
    /\ bc_disk s' = bc_disk s /\ bc_disksize s' = bc_disksize s) s.
Proof.
  intros Hk [H1 H2] Hd Hn. assert (Hkh : k <> HEAD) by (unfold HEAD; lia).
  pose proof (dll_push _ _ _ k Hd Hkh Hn) as Hp.
  unfold wp, binit_body, mbind, M_bind, next_of, gets, modify. cbn.
  rewrite !(lookup_total_insert_ne (bc_next s) k HEAD) by done.
  split; [split|split; [exact Hp|done]].
  - intros i Hi. cbn. destruct (H1 i Hi) as [Hs Hb]. unfold bufs; cbn.
    destruct (decide (i = k)) as [->|Hne].
    + rewrite lookup_insert_eq, lookup_total_insert_eq. split; [eauto|].
      unfold bufs; cbn. destruct Hb as (? & ? & ? & ?). done.
    + rewrite lookup_insert_ne, lookup_total_insert_ne by done. done.
  - exact H2.
Qed.

Lemma binit_correct s :
  bss s -> exists s', binit s = Done tt s' /\ bio_inv s' (reverse (seqZ 0 NBUF))
    /\ forall b, content s' b = diskblk s b.
Proof.
  intros Hs. set (s0 := set_next HEAD HEAD (set_prev HEAD HEAD s)).
  assert (Hw : wp (for_each (seqZ 0 NBUF) binit_body) (fun _ s' => bss s'
     /\ dll (bc_next s') (bc_prev s') (reverse (seqZ 0 (Z.of_nat (length (seqZ 0 NBUF)))))
     /\ bc_disk s' = bc_disk s /\ bc_disksize s' = bc_disksize s) s0).
  { apply (wp_for_each (seqZ 0 NBUF) binit_body (fun k s' => bss s'
     /\ dll (bc_next s') (bc_prev s') (reverse (seqZ 0 (Z.of_nat k)))
     /\ bc_disk s' = bc_disk s /\ bc_disksize s' = bc_disksize s)).
    - split; [destruct Hs; by split|]. split; [|done]. split; cbn.
      + apply NoDup_cons. split; [set_solver|constructor].
      + apply lookup_total_insert_eq.
      + apply lookup_total_insert_eq.
    - intros k i s1 Hi (H1 & H2 & H3 & H4). apply lookup_seqZ in Hi as [-> Hk].
      rewrite Nat2Z.inj_succ. unfold Z.succ. rewrite seqZ_snoc, reverse_snoc by lia.
      rewrite Z.add_0_l. 
      assert (Hnk : Z.of_nat k ∉ reverse (seqZ 0 (Z.of_nat k)))
        by (rewrite elem_of_reverse, elem_of_seqZ; lia).
      eapply wp_mono; [apply (binit_body_spec _ _ s1 (conj (Nat2Z.is_nonneg k) Hk) H1 H2 Hnk)|].
      intros [] s2 (K1 & K2 & K3 & K4). split; [done|]. split; [exact K2|]. by rewrite K3, K4. }
  apply wp_inv in Hw as ([] & s' & E & Hs' & Hd & Hdisk & Hsz). exists s'.
  split; [unfold binit, mbind, M_bind, modify; exact E|].
  change (Z.of_nat (length (seqZ 0 NBUF))) with NBUF in Hd.
  assert (Hi : forall i, i ∈ reverse (seqZ 0 NBUF) <-> 0 <= i < NBUF).
  { intros i. rewrite elem_of_reverse, elem_of_seqZ. lia. }
  assert (HI : bio_inv s' (reverse (seqZ 0 NBUF))).
  { destruct Hs' as [B1 B2]. split; try done.
    - intros i Hr. by apply B1.
    - intros i j Hii _ Hne. apply Hi, B1 in Hii as (_ & _ & Hz & _). lia.
    - intros i Hii. apply Hi, B1 in Hii as (_ & Hf & Hz & Hl & Hr).
      split; rewrite ?Hf, ?Hz, ?Hl, ?Hr; try done. by left. }
  split; [done|]. intros b. rewrite (content_none s' _ HI); [unfold diskblk; by rewrite Hdisk|].
  intros i Hii [Hd1 _]. apply Hi, Hs' in Hii as (_ & _ & Hz & _). lia.
Qed.

(** ** Theorems *)

(** (C8) The buffer cache is transparent to readers: when the block is cached
    and free, or some buffer can be recycled, [bread] returns a buffer that is
    locked by the caller and holds exactly the block's logical contents; the
    cache stays well formed (the list is a ring through all buffers, no block is
    cached twice) and the logical contents of every block are unchanged, also
    that of the block whose buffer was recycled. *)
Theorem bread_transparent s l bno :
  bio_inv s l -> 0 <= bno < bc_disksize s ->
  (forall i, i ∈ l -> holds s bno i -> slk_locked (b_lock (bufs s i)) = 0) ->
  (exists i, i ∈ l /\ (holds s bno i \/ reusable s i)) ->
  exists i s', bread 1 bno s = Done i s' /\ read_into s l bno i s'.
Proof. apply bread_correct. Qed.

(** Eviction is least recently used: for a block that is not cached,
    [bget] takes the reusable buffer nearest the tail of the release-ordered
    list, and with no reusable buffer it panics. *)
Theorem bget_evicts_lru s l bno :
  bio_inv s l -> (forall i, i ∈ l -> ~ holds s bno i) ->
  (forall l1 b l2, l = l1 ++ b :: l2 -> reusable s b -> (forall i, i ∈ l2 -> ~ reusable s i) ->
     bget 1 bno s = Done b (set_buf b (miss_buf s bno) s))
  /\ ((forall i, i ∈ l -> ~ reusable s i) -> bget 1 bno s = Panic "bget: no buffers").
Proof.
  intros HI Hn. split.
  - intros l1 b l2 El Hr Hl2. apply (bget_miss s l HI bno l1 b l2); try done.
    assert (Hb : b ∈ l) by (rewrite El; set_solver).
    destruct Hr, (bo_ref _ _ (bi_buf _ _ HI b Hb)); lia.
  - intros Hr. by apply (bget_full s l HI).
Qed.

(** [bwrite] puts the contents of the caller's block on the disk and
    changes neither the logical contents of any block nor any other disk
    block; [brelse] frees the buffer, moves it to the head of the list and
    keeps all contents. *)
Theorem bwrite_brelse_correct s l i :
  bio_inv s l -> i ∈ l -> mine s i ->
  (exists s', bwrite i s = Done tt s' /\ bio_inv s' l /\ mine s' i
    /\ (forall b, content s' b = content s b)
    /\ (forall b, diskblk s' b = if decide (b = b_blockno (bufs s i)) then content s b else diskblk s b))
  /\ ((b_flags (bufs s i) = B_VALID -> b_data (bufs s i) = diskblk s (b_blockno (bufs s i))) ->
      exists l1 l2 s', l = l1 ++ i :: l2 /\ brelse i s = Done tt s' /\ bio_inv s' (i :: l1 ++ l2)
        /\ bufs s' i = free_buf (bufs s i) /\ (forall j, j <> i -> bufs s' j = bufs s j)
        /\ (bc_disk s' = bc_disk s /\ bc_pid s' = bc_pid s /\ bc_disksize s' = bc_disksize s)
    /\ (forall b, content s' b = content s b)).
Proof. intros HI Hi Hm. split; [by apply bwrite_correct|by apply brelse_correct]. Qed.

(** [binit] turns the zeroed [bcache] into a well-formed, empty cache. *)
Theorem binit_establishes s :
  bss s -> exists s', binit s = Done tt s' /\ bio_inv s' (reverse (seqZ 0 NBUF))
    /\ forall b, content s' b = diskblk s b.
Proof. apply binit_correct. Qed.

(** ** Instances: the cache just after boot, over a 100-block disk *)
Definition ex_boot : bst :=
  Bst (gset_to_gmap (Buf 0 0 0 (Sleeplock 0 0) 0 (replicate 512 0)) (list_to_set (seqZ 0 NBUF)))
      ∅ ∅ (list_to_map [(7, replicate 512 7)]) 100 3 [].

Lemma ex_bss : bss ex_boot.
Proof.
  split; [|cbn; split; [set_solver|split; [set_solver|done]]].
  intros i Hi. assert (E : bc_buf ex_boot !! i = Some (Buf 0 0 0 (Sleeplock 0 0) 0 (replicate 512 0))).
  { cbn. rewrite lookup_gset_to_gmap_Some, elem_of_list_to_set, elem_of_seqZ. split; [lia|done]. }
  split; [eauto|]. unfold bufs, lookup_total, map_lookup_total. rewrite E. done.
Qed.

Lemma binit_establishes_witness :
  exists s', binit ex_boot = Done tt s' /\ bio_inv s' (reverse (seqZ 0 NBUF))
    /\ forall b, content s' b = diskblk ex_boot b.
Proof. apply (binit_establishes ex_boot), ex_bss. Defined.

(** The booted cache, and the same after reading block 7. *)
Lemma ex_booted : exists s, bio_inv s (reverse (seqZ 0 NBUF)) /\ bc_disksize s = 100
  /\ (forall i, 0 <= i < NBUF -> reusable s i /\ ~ holds s 7 i).
Proof.
  destruct (binit_correct ex_boot ex_bss) as (s & E & HI & _). exists s. split; [done|].
  assert (Hc : bc_disksize s = 100 /\ forallb (fun i => (b_refcnt (bufs s i) =? 0)
    && (Z.land (b_flags (bufs s i)) B_DIRTY =? 0) && (b_dev (bufs s i) =? 0)) (seqZ 0 NBUF) = true).
  { revert E. vm_compute. intros [= <-]. done. }
  destruct Hc as [Hsz Hf]. split; [done|]. intros i Hi. rewrite forallb_forall in Hf.
  specialize (Hf i). rewrite !andb_true_iff, !Z.eqb_eq in Hf.
  destruct Hf as [[? ?] ?]; [apply list_elem_of_In, elem_of_seqZ; lia|].
  split; [by split|]. unfold holds. lia.
Qed.

Lemma bread_transparent_witness :
  exists s i s', bread 1 7 s = Done i s' /\ read_into s (reverse (seqZ 0 NBUF)) 7 i s'.
Proof.
  destruct ex_booted as (s & HI & Hsz & Hr). exists s.
  apply (bread_transparent s (reverse (seqZ 0 NBUF)) 7 HI); [rewrite Hsz; lia| |].
  - intros i Hi%(bi_perm _ _ HI) Hh. by destruct (Hr i Hi).
  - exists 0. rewrite (bi_perm _ _ HI). split; [unfold NBUF, MAXOPBLOCKS; lia|]. right.
    apply Hr. unfold NBUF, MAXOPBLOCKS; lia.
Defined.

Lemma bget_evicts_lru_witness :
  exists s, (forall l1 b l2, reverse (seqZ 0 NBUF) = l1 ++ b :: l2 -> reusable s b ->
     (forall i, i ∈ l2 -> ~ reusable s i) -> bget 1 7 s = Done b (set_buf b (miss_buf s 7) s))
  /\ ((forall i, i ∈ reverse (seqZ 0 NBUF) -> ~ reusable s i) -> bget 1 7 s = Panic "bget: no buffers").
Proof.
  destruct ex_booted as (s & HI & Hsz & Hr). exists s.
  apply (bget_evicts_lru s (reverse (seqZ 0 NBUF)) 7 HI).
  intros i Hi%(bi_perm _ _ HI). by apply Hr.
Defined.

Lemma bwrite_brelse_correct_witness :
  exists s i s', mine s i /\ bwrite i s = Done tt s' /\ mine s' i.
Proof.
  destruct ex_booted as (s & HI & Hsz & Hr).
  destruct (bread_correct s _ 7 HI) as (i & s' & E & [R1 _ (fl & Hfl & -> & _) R3 R4]); [lia| | |].
  - intros i Hi%(bi_perm _ _ HI) Hh. by destruct (Hr i Hi).
  - exists 0. rewrite (bi_perm _ _ HI). split; [unfold NBUF, MAXOPBLOCKS; lia|]. right.
    apply Hr. unfold NBUF, MAXOPBLOCKS; lia.
  - set (t := set_buf i (fun _ => got_buf s fl 7) s) in *.
    assert (Hm : mine t i) by (unfold mine, t; by rewrite bufs_same).
    destruct (bwrite_brelse_correct t _ i R3 R1 Hm) as [(t' & Ew & _ & Hm' & _) _].
    by exists t, i, t'.
Defined.
