(* ===== verification/Blocks.v ===== *)
(** * Disk blocks and the block layer interface

    A block is its list of [BSIZE] bytes; [get32]/[put32] are the 32-bit loads
    and stores the kernel makes through pointers into [b->data].

    [BlockLayer] is what the code above the buffer cache relies on: buffers are
    obtained by [bread], owned until [brelse], read and stored through their
    [data], written back by [bwrite], and kept in memory once pinned by
    [B_DIRTY].  The log is written and proved against this interface;
    [BioLayer.v] shows that the buffer cache of [bio.c] is an instance. *)
From S2P Require Import Prelude Layout.

Abbreviation block := (list Z).

(** ** Words in a block *)
Definition get32 (d : block) (o : nat) : Z :=
  d !!! o + 256 * d !!! (o + 1)%nat + 65536 * d !!! (o + 2)%nat + 16777216 * d !!! (o + 3)%nat.
Definition put32 (o : nat) (v : Z) (d : block) : block :=
  <[(o + 3)%nat := u32 v `div` 16777216]>
    (<[(o + 2)%nat := (u32 v `div` 65536) `mod` 256]>
      (<[(o + 1)%nat := (u32 v `div` 256) `mod` 256]> (<[o := u32 v `mod` 256]> d))).

(** 16-bit loads and stores ([short] and [ushort] fields). *)
Definition get16 (d : block) (o : nat) : Z := d !!! o + 256 * d !!! (o + 1)%nat.
Definition put16 (o : nat) (v : Z) (d : block) : block :=
  <[(o + 1)%nat := u16 v `div` 256]> (<[o := u16 v `mod` 256]> d).
(** [memmove(d + o, src, length src)] inside a block. *)
Definition splice (o : nat) (src d : block) : block :=
  take o d ++ src ++ drop (o + length src) d.

Lemma length_put32 o v d : length (put32 o v d) = length d.
Proof. unfold put32. by rewrite !length_insert. Qed.

Lemma get32_put32 o v d : (o + 4 <= length d)%nat -> get32 (put32 o v d) o = u32 v.
Proof.
  intros Hl. unfold get32, put32.
  rewrite list_lookup_total_insert_eq by (rewrite !length_insert; lia).
  rewrite (list_lookup_total_insert_ne _ _ (o + 2)) by lia.
  rewrite list_lookup_total_insert_eq by (rewrite !length_insert; lia).
  rewrite !(list_lookup_total_insert_ne _ _ (o + 1)) by lia.
  rewrite list_lookup_total_insert_eq by (rewrite !length_insert; lia).
  rewrite !(list_lookup_total_insert_ne _ _ o) by lia.
  rewrite list_lookup_total_insert_eq by lia.
  pose proof (u32_range v). generalize dependent (u32 v). intros x Hx. zlia.
Qed.

Lemma get32_put32_ne o o' v d :
  (o + 4 <= o' \/ o' + 4 <= o)%nat -> get32 (put32 o v d) o' = get32 d o'.
Proof. intros Ho. unfold get32, put32. by rewrite !list_lookup_total_insert_ne by lia. Qed.

(** Blocks whose elements are bytes. *)
Definition bytes (d : block) : Prop := Forall (fun b => 0 <= b < 256) d.

Lemma bytes_put32 o v d : bytes d -> bytes (put32 o v d).
Proof.
  intros Hd. unfold put32, bytes. pose proof (u32_range v).
  repeat (apply Forall_insert; [|zlia]). exact Hd.
Qed.

Lemma bytes_get32 o d : bytes d -> (o + 4 <= length d)%nat -> 0 <= get32 d o < 4294967296.
Proof.
  intros Hd Hl. assert (Hb : forall i, (i < length d)%nat -> 0 <= d !!! i < 256).
  { intros i Hi. eapply (Forall_lookup_1 (fun b => 0 <= b < 256) d i); [exact Hd|].
    by apply list_lookup_lookup_total_lt. }
  unfold get32. pose proof (Hb o). pose proof (Hb (o + 1)%nat).
  pose proof (Hb (o + 2)%nat). pose proof (Hb (o + 3)%nat). lia.
Qed.

(** ** The interface *)

(** The view of a block layer its clients reason with: the logical contents of
    each block, the disk, the blocks whose buffer is owned, and those pinned. *)
Record view := View {
  v_content : Z -> block;
  v_disk : Z -> block;
  v_held : gset Z;
  v_pinned : gset Z;
  v_size : Z }.

Definition upd (f : Z -> block) (b : Z) (d : block) : Z -> block :=
  fun x => if decide (x = b) then d else f x.

(** Equality of views, contents and disk pointwise. *)
Record veq (v w : view) : Prop := Veq {
  ve_content : forall b, v_content v b = v_content w b;
  ve_disk : forall b, v_disk v b = v_disk w b;
  ve_held : v_held v = v_held w;
  ve_pinned : v_pinned v = v_pinned w;
  ve_size : v_size v = v_size w }.

#[export] Instance veq_equiv : Equivalence veq.
Proof.
  split.
  - done.
  - intros v w []. by split.
  - intros u v w [A1 A2 A3 A4 A5] [B1 B2 B3 B4 B5].
    split; intros; [by rewrite A1|by rewrite A2|congruence..].
Qed.

Class BlockLayer (S : Type) := {
  bread : Z -> Z -> M S Z;
  brelse : Z -> M S unit;
  bwrite : Z -> M S unit;
  bdata : Z -> S -> block;
  bstore : Z -> block -> M S unit;
  bpin : Z -> M S unit;
  bblockno : Z -> S -> Z;
  (* the meaning of a state *)
  bl_ok : S -> Prop;
  bl_view : S -> view;
  bl_owns : S -> Z -> Z -> Prop;
  (* an owned buffer holds the contents of its block *)
  bl_data : forall s h b, bl_ok s -> bl_owns s h b ->
    bdata h s = v_content (bl_view s) b /\ bblockno h s = b
    /\ b ∈ v_held (bl_view s) /\ 0 <= b < v_size (bl_view s);
  bl_bread : forall s b, bl_ok s -> 0 <= b < v_size (bl_view s) ->
    b ∉ v_held (bl_view s) ->
    b ∈ v_pinned (bl_view s) \/
      (size (v_held (bl_view s) ∪ v_pinned (bl_view s)) < Z.to_nat NBUF)%nat ->
    exists h s', bread 1 b s = Done h s' /\ bl_ok s'
      /\ (forall h' b', bl_owns s' h' b' <-> bl_owns s h' b' \/ (h' = h /\ b' = b))
      /\ veq (bl_view s') (View (v_content (bl_view s)) (v_disk (bl_view s))
            ({[ b ]} ∪ v_held (bl_view s)) (v_pinned (bl_view s)) (v_size (bl_view s)));
  bl_bstore : forall s h b d, bl_ok s -> bl_owns s h b ->
    exists s', bstore h d s = Done tt s' /\ bl_ok s'
      /\ (forall h' b', bl_owns s' h' b' <-> bl_owns s h' b')
      /\ veq (bl_view s') (View (upd (v_content (bl_view s)) b d) (v_disk (bl_view s))
            (v_held (bl_view s)) (v_pinned (bl_view s)) (v_size (bl_view s)));
  bl_bwrite : forall s h b, bl_ok s -> bl_owns s h b ->
    exists s', bwrite h s = Done tt s' /\ bl_ok s'
      /\ (forall h' b', bl_owns s' h' b' <-> bl_owns s h' b')
      /\ veq (bl_view s') (View (v_content (bl_view s))
            (upd (v_disk (bl_view s)) b (v_content (bl_view s) b))
            (v_held (bl_view s)) (v_pinned (bl_view s) ∖ {[ b ]}) (v_size (bl_view s)));
  bl_bpin : forall s h b, bl_ok s -> bl_owns s h b ->
    exists s', bpin h s = Done tt s' /\ bl_ok s'
      /\ (forall h' b', bl_owns s' h' b' <-> bl_owns s h' b')
      /\ veq (bl_view s') (View (v_content (bl_view s)) (v_disk (bl_view s))
            (v_held (bl_view s)) ({[ b ]} ∪ v_pinned (bl_view s)) (v_size (bl_view s)));
  bl_brelse : forall s h b, bl_ok s -> bl_owns s h b ->
    b ∈ v_pinned (bl_view s) \/ v_content (bl_view s) b = v_disk (bl_view s) b ->
    exists s', brelse h s = Done tt s' /\ bl_ok s'
      /\ (forall h' b', bl_owns s' h' b' <-> bl_owns s h' b' /\ b' <> b)
      /\ veq (bl_view s') (View (v_content (bl_view s)) (v_disk (bl_view s))
            (v_held (bl_view s) ∖ {[ b ]}) (v_pinned (bl_view s)) (v_size (bl_view s))) }.
