(* ===== verification/BioLayer.v ===== *)
(** * The buffer cache implements the block layer

    The instance of [BlockLayer] given by [bread], [bwrite] and [brelse] of
    [bio.c]: its laws follow from the invariant and the theorems of [Bio.v]. *)
From S2P Require Import Prelude Layout Locks Sleeplock Bio Blocks.

(** [memmove(b->data, ..)] and [b->flags |= B_DIRTY] on a locked buffer. *)
Definition store_data (i : Z) (d : block) : M bst unit := modify (set_buf i (with_data d)).
Definition pin_dirty (i : Z) : M bst unit :=
  modify (set_buf i (fun b => with_flags (b_flags b ||| B_DIRTY) b)).

(** The blocks cached in a locked, or in a dirty, buffer. *)
Definition locked_set (s : bst) : gset Z :=
  list_to_set ((fun i => b_blockno (bufs s i)) <$>
    filter (fun i => b_dev (bufs s i) = 1 /\ slk_locked (b_lock (bufs s i)) = 1) (seqZ 0 NBUF)).
Definition dirty_set (s : bst) : gset Z :=
  list_to_set ((fun i => b_blockno (bufs s i)) <$>
    filter (fun i => b_flags (bufs s i) = Z.lor B_VALID B_DIRTY) (seqZ 0 NBUF)).

Definition bio_ok (s : bst) : Prop :=
  exists l, bio_inv s l /\ forall i, i ∈ l -> b_dev (bufs s i) = 0 -> slk_locked (b_lock (bufs s i)) = 0.
Definition bio_owns (s : bst) (h b : Z) : Prop :=
  0 <= h < NBUF /\ mine s h /\ b_blockno (bufs s h) = b.
Definition bio_view (s : bst) : view :=
  View (content s) (diskblk s) (locked_set s) (dirty_set s) (bc_disksize s).

Lemma elem_locked_set s b :
  b ∈ locked_set s <-> exists i, 0 <= i < NBUF /\ b_dev (bufs s i) = 1
    /\ slk_locked (b_lock (bufs s i)) = 1 /\ b_blockno (bufs s i) = b.
Proof.
  unfold locked_set. rewrite elem_of_list_to_set, list_elem_of_fmap. split.
  - intros (i & -> & Hi). rewrite list_elem_of_filter, elem_of_seqZ in Hi. exists i.
    split; [lia|]. naive_solver.
  - intros (i & Hi & H1 & H2 & H3). exists i. split; [done|].
    rewrite list_elem_of_filter, elem_of_seqZ. split; [done|lia].
Qed.

Lemma elem_dirty_set s b :
  b ∈ dirty_set s <-> exists i, 0 <= i < NBUF /\ b_flags (bufs s i) = Z.lor B_VALID B_DIRTY
    /\ b_blockno (bufs s i) = b.
Proof.
  unfold dirty_set. rewrite elem_of_list_to_set, list_elem_of_fmap. split.
  - intros (i & -> & Hi). rewrite list_elem_of_filter, elem_of_seqZ in Hi. exists i.
    split; [lia|]. naive_solver.
  - intros (i & Hi & H1 & H2). exists i. split; [done|].
    rewrite list_elem_of_filter, elem_of_seqZ. split; [done|lia].
Qed.

(** Fewer locked or dirty blocks than buffers leave one to recycle. *)
Lemma some_reusable s l :
  bio_inv s l -> (forall i, i ∈ l -> b_dev (bufs s i) = 0 -> slk_locked (b_lock (bufs s i)) = 0) ->
  (size (locked_set s ∪ dirty_set s) < Z.to_nat NBUF)%nat -> exists i, i ∈ l /\ reusable s i.
Proof.
  intros HI Hz Hsz. destruct (decide (Exists (reusable s) l)) as [He|He].
  { apply Exists_exists in He. exact He. }
  exfalso. rewrite Exists_exists in He.
  assert (Hall : forall i, i ∈ l -> b_dev (bufs s i) <> 0 /\ b_blockno (bufs s i) ∈ locked_set s ∪ dirty_set s).
  { intros i Hi. pose proof (bi_buf _ _ HI i Hi) as [O1 O2 O3 _].
    pose proof (proj1 (bi_perm _ _ HI i) Hi) as Hr.
    assert (Hn : ~ reusable s i) by (intros Hr'; apply He; eauto).
    destruct (decide (b_dev (bufs s i) = 0)) as [E0|E0].
    - destruct Hn. split; [destruct O3 as [[_ ?]|[E _]]; [done|by rewrite (Hz i Hi E0) in E]|].
      by rewrite (O1 E0).
    - split; [done|]. destruct (O2 E0) as (Ed & _ & Hf). rewrite elem_of_union, elem_locked_set, elem_dirty_set.
      destruct O3 as [[_ Er]|[El _]].
      + right. exists i. split; [done|]. split; [|done]. destruct Hf as [Hf|Hf]; [|done].
        destruct Hn. split; [done|]. by rewrite Hf.
      + left. exists i. done. }
  assert (Hnd : NoDup ((fun i => b_blockno (bufs s i)) <$> l)).
  { apply NoDup_fmap_2_strong; [|by pose proof (dl_nodup _ _ _ (bi_dll _ _ HI)) as [_ ?]%NoDup_cons].
    intros i j Hi Hj E. destruct (Hall i Hi) as [Hdi _], (Hall j Hj) as [Hdj _].
    apply (bi_key _ _ HI); try done.
    destruct (bo_used _ _ (bi_buf _ _ HI i Hi) Hdi), (bo_used _ _ (bi_buf _ _ HI j Hj) Hdj). congruence. }
  assert (Hsub : list_to_set ((fun i => b_blockno (bufs s i)) <$> l) ⊆ locked_set s ∪ dirty_set s).
  { intros b. rewrite elem_of_list_to_set, list_elem_of_fmap. intros (i & -> & Hi). by apply Hall. }
  apply subseteq_size in Hsub. rewrite size_list_to_set, length_fmap, (bio_length s l HI) in Hsub by done.
  lia.
Qed.

(** ** The view after a change of one buffer *)
Lemma elem_locked_set_set s i b' b :
  0 <= i < NBUF ->
  b ∈ locked_set (set_buf i (fun _ => b') s)
  <-> (b_dev b' = 1 /\ slk_locked (b_lock b') = 1 /\ b_blockno b' = b)
      \/ exists j, 0 <= j < NBUF /\ j <> i /\ b_dev (bufs s j) = 1
         /\ slk_locked (b_lock (bufs s j)) = 1 /\ b_blockno (bufs s j) = b.
Proof.
  intros Hi. rewrite elem_locked_set. split.
  - intros (j & Hj & H). destruct (decide (j = i)) as [->|Hne].
    + rewrite bufs_same in H. by left.
    + rewrite bufs_other in H by done. right. by exists j.
  - intros [H|(j & Hj & Hne & H)].
    + exists i. by rewrite bufs_same.
    + exists j. by rewrite bufs_other.
Qed.

Lemma elem_dirty_set_set s i b' b :
  0 <= i < NBUF ->
  b ∈ dirty_set (set_buf i (fun _ => b') s)
  <-> (b_flags b' = Z.lor B_VALID B_DIRTY /\ b_blockno b' = b)
      \/ exists j, 0 <= j < NBUF /\ j <> i /\ b_flags (bufs s j) = Z.lor B_VALID B_DIRTY
         /\ b_blockno (bufs s j) = b.
Proof.
  intros Hi. rewrite elem_dirty_set. split.
  - intros (j & Hj & H). destruct (decide (j = i)) as [->|Hne].
    + rewrite bufs_same in H. by left.
    + rewrite bufs_other in H by done. right. by exists j.
  - intros [H|(j & Hj & Hne & H)].
    + exists i. by rewrite bufs_same.
    + exists j. by rewrite bufs_other.
Qed.

Lemma locked_split s i b :
  0 <= i < NBUF ->
  b ∈ locked_set s
  <-> (b_dev (bufs s i) = 1 /\ slk_locked (b_lock (bufs s i)) = 1 /\ b_blockno (bufs s i) = b)
      \/ exists j, 0 <= j < NBUF /\ j <> i /\ b_dev (bufs s j) = 1
         /\ slk_locked (b_lock (bufs s j)) = 1 /\ b_blockno (bufs s j) = b.
Proof.
  intros Hi. rewrite elem_locked_set. split.
  - intros (j & Hj & H). destruct (decide (j = i)) as [->|Hne]; [by left|right; by exists j].
  - intros [H|(j & Hj & Hne & H)]; [by exists i|by exists j].
Qed.

Lemma dirty_split s i b :
  0 <= i < NBUF ->
  b ∈ dirty_set s
  <-> (b_flags (bufs s i) = Z.lor B_VALID B_DIRTY /\ b_blockno (bufs s i) = b)
      \/ exists j, 0 <= j < NBUF /\ j <> i /\ b_flags (bufs s j) = Z.lor B_VALID B_DIRTY
         /\ b_blockno (bufs s j) = b.
Proof.
  intros Hi. rewrite elem_dirty_set. split.
  - intros (j & Hj & H). destruct (decide (j = i)) as [->|Hne]; [by left|right; by exists j].
  - intros [H|(j & Hj & Hne & H)]; [by exists i|by exists j].
Qed.

(** Another buffer never holds the block of an owned one. *)
Lemma other_block s l i j :
  bio_inv s l -> 0 <= i < NBUF -> 0 <= j < NBUF -> j <> i ->
  b_dev (bufs s i) = 1 -> b_dev (bufs s j) = 1 -> b_blockno (bufs s j) <> b_blockno (bufs s i).
Proof.
  intros HI Hi Hj Hne Hd1 Hd2 E. apply Hne. apply (bi_key _ _ HI); rewrite ?(bi_perm _ _ HI); try done; lia.
Qed.

Lemma owned_facts s l h b :
  bio_inv s l -> bio_owns s h b ->
  h ∈ l /\ b_flags (bufs s h) <> 0 /\ holds s b h /\ 0 <= b < bc_disksize s
  /\ valid_flags (b_flags (bufs s h)).
Proof.
  intros HI (Hh & (Hd & Hl & Hp) & Hb). assert (Hin : h ∈ l) by by apply (bi_perm _ _ HI).
  destruct (bo_used _ _ (bi_buf _ _ HI h Hin)) as (_ & Hr & Hf); [lia|].
  split; [done|]. split; [by destruct Hf as [-> | ->]|]. split; [done|]. split; [lia|done].
Qed.

(** ** The laws *)
Lemma law_data s h b :
  bio_ok s -> bio_owns s h b ->
  b_data (bufs s h) = content s b /\ b_blockno (bufs s h) = b
  /\ b ∈ locked_set s /\ 0 <= b < bc_disksize s.
Proof.
  intros (l & HI & _) Ho. destruct (owned_facts s l h b HI Ho) as (Hin & _ & Hh & Hr & _).
  destruct Ho as (Hhr & (Hd & Hl & _) & Hb).
  split; [by rewrite (content_holds s l HI b h)|]. split; [done|]. split; [|done].
  apply elem_locked_set. by exists h.
Qed.

Lemma law_bread s b :
  bio_ok s -> 0 <= b < bc_disksize s -> b ∉ locked_set s ->
  b ∈ dirty_set s \/ (size (locked_set s ∪ dirty_set s) < Z.to_nat NBUF)%nat ->
  exists h s', Bio.bread 1 b s = Done h s' /\ bio_ok s'
    /\ (forall h' b', bio_owns s' h' b' <-> bio_owns s h' b' \/ (h' = h /\ b' = b))
    /\ veq (bio_view s') (View (content s) (diskblk s) ({[ b ]} ∪ locked_set s)
          (dirty_set s) (bc_disksize s)).
Proof.
  intros (l & HI & Hz) Hb Hnl Hsz.
  assert (Hex : exists i, i ∈ l /\ (holds s b i \/ reusable s i)).
  { destruct Hsz as [Hd|Hsz].
    - apply elem_dirty_set in Hd as (i & Hi & Hf & Hbi). apply (bi_perm _ _ HI) in Hi.
      exists i. split; [done|]. left. split; [|done].
      apply (bo_used _ _ (bi_buf _ _ HI i Hi)). intros E0.
      by rewrite (bo_unused _ _ (bi_buf _ _ HI i Hi) E0) in Hf.
    - destruct (some_reusable s l HI Hz Hsz) as (i & Hi & Hr). exists i. by split; [|right]. }
  destruct (bread_correct s l b HI Hb) as (i & s' & E & [R1 Rf (fl & Hfl & Es & Hc) R3 R4]).
  { intros i Hi [Hd Hn]. destruct (bo_ref _ _ (bi_buf _ _ HI i Hi)) as [[? _]|[Hl _]]; [done|].
    destruct Hnl. apply elem_locked_set. exists i. split; [by apply (bi_perm _ _ HI)|]. done. }
  { exact Hex. }
  assert (Hir : 0 <= i < NBUF) by by apply (bi_perm _ _ HI).
  exists i, s'. split; [done|]. split; [|split].
  - exists l. split; [done|]. intros k Hk. rewrite Es. destruct (decide (k = i)) as [->|Hne].
    + rewrite bufs_same. done.
    + rewrite bufs_other by done. by apply Hz.
  - intros h' b'. unfold bio_owns, mine. rewrite Es. destruct (decide (h' = i)) as [->|Hne].
    + rewrite bufs_same. cbn. split; [intros (_ & _ & <-); by right|].
      intros [(_ & (_ & Hl & _) & _)|[_ ->]]; [lia|done].
    + rewrite bufs_other by done. naive_solver.
  - split; cbn; [exact R4|by rewrite Es| | |by rewrite Es].
    + apply set_eq. intros x. rewrite Es, elem_locked_set_set, elem_of_union, elem_of_singleton,
        (locked_split s i) by done. cbn. split.
      * intros [(_ & _ & <-)|H]; [by left|right; by right].
      * intros [->|[(_ & Hl & _)|H]]; [by left|lia|by right].
    + apply set_eq. intros x. rewrite Es, elem_dirty_set_set, (dirty_split s i) by done. cbn.
      destruct Hc as [[[_ <-] ->]|[[_ Hr] ->]]; [done|].
      split; (intros [[Hf _]|H]; [|by right]); [done|by rewrite Hf in Hr].
Qed.

(** Replacing an owned buffer by one with the same block, still owned. *)
Section owned_set.
Context (s : bst) (l : list Z) (h b : Z) (b' : buf).
Hypothesis HI : bio_inv s l.
Hypothesis Hz : forall i, i ∈ l -> b_dev (bufs s i) = 0 -> slk_locked (b_lock (bufs s i)) = 0.
Hypothesis Ho : bio_owns s h b.
Hypothesis Hb' : b_dev b' = 1 /\ b_blockno b' = b /\ b_lock b' = b_lock (bufs s h)
  /\ b_refcnt b' = b_refcnt (bufs s h) /\ valid_flags (b_flags b').
Let s' := set_buf h (fun _ => b') s.

Lemma owned_set_inv : bio_inv s' l.
Proof.
  destruct (owned_facts s l h b HI Ho) as (Hin & _ & Hh & Hr & _).
  destruct Ho as (Hhr & (Hd & Hl & Hp) & Hbn), Hb' as (B1 & B2 & B3 & B4 & B5).
  apply bio_inv_set; [done|done| |].
  - split; [lia|rewrite B2; intros; by split|rewrite B3, B4; apply (bi_buf _ _ HI h Hin)|rewrite B3; lia].
  - intros _ j Hj Hne [Hd' Hn']. apply (other_block s l h j HI); try done.
    + by apply (bi_perm _ _ HI).
    + congruence.
Qed.

Lemma owned_set_ok : bio_ok s'.
Proof.
  exists l. split; [apply owned_set_inv|]. intros i Hi. unfold s'.
  destruct (decide (i = h)) as [->|Hne]; [rewrite bufs_same; destruct Hb'; lia|].
  rewrite bufs_other by done. by apply Hz.
Qed.

Lemma owned_set_owns h' x : bio_owns s' h' x <-> bio_owns s h' x.
Proof.
  destruct Ho as (Hhr & (Hd & Hl & Hp) & Hbn), Hb' as (B1 & B2 & B3 & B4 & B5).
  unfold bio_owns, mine, s'. destruct (decide (h' = h)) as [->|Hne].
  - rewrite bufs_same. cbn. rewrite B1, B2, B3, Hd, Hbn. done.
  - rewrite bufs_other by done. done.
Qed.

Lemma owned_set_locked : locked_set s' = locked_set s.
Proof.
  destruct Ho as (Hhr & (Hd & Hl & Hp) & Hbn), Hb' as (B1 & B2 & B3 & B4 & B5).
  apply set_eq. intros x. unfold s'. rewrite elem_locked_set_set, (locked_split s h) by done.
  by rewrite B1, B2, B3, Hd, Hbn.
Qed.

Lemma owned_set_content x :
  content s' x = if decide (x = b) then b_data b' else content s x.
Proof.
  destruct (owned_facts s l h b HI Ho) as (Hin & _ & Hh & Hr & _).
  unfold s'. rewrite (content_set s l h b' x HI owned_set_inv Hin).
  destruct Hb' as (B1 & B2 & _). destruct (decide (x = b)) as [->|Hne].
  - by rewrite decide_True.
  - rewrite decide_False by (intros [_ ?]; congruence).
    rewrite decide_False; [done|]. destruct Hh as [_ Hbn]. intros [_ ?]; congruence.
Qed.

Lemma owned_set_dirty x :
  x ∈ dirty_set s' <-> (x = b /\ b_flags b' = Z.lor B_VALID B_DIRTY) \/ (x <> b /\ x ∈ dirty_set s).
Proof.
  destruct (owned_facts s l h b HI Ho) as (Hin & _ & [Hd Hbn] & Hr & _).
  destruct Ho as (Hhr & _ & _), Hb' as (B1 & B2 & B3 & B4 & B5).
  unfold s'. rewrite elem_dirty_set_set, (dirty_split s h) by done. rewrite B2, Hbn.
  assert (Hoth : forall j, 0 <= j < NBUF -> j <> h -> b_flags (bufs s j) = Z.lor B_VALID B_DIRTY ->
    b_blockno (bufs s j) <> b).
  { intros j Hj Hne Hf. rewrite <- Hbn. apply (other_block s l h j HI); try done.
    destruct (decide (b_dev (bufs s j) = 0)) as [E0|E0].
    - rewrite (bo_unused _ _ (bi_buf _ _ HI j (proj2 (bi_perm _ _ HI j) Hj)) E0) in Hf. done.
    - apply (bo_used _ _ (bi_buf _ _ HI j (proj2 (bi_perm _ _ HI j) Hj)) E0). }
  split.
  - intros [[Hf <-]|(j & Hj & Hne & Hf & <-)]; [by left|]. right. split; [by apply Hoth|].
    right. by exists j.
  - intros [[-> Hf]|[Hx [[_ ?]|H]]]; [by left|congruence|by right].
Qed.
End owned_set.

Lemma law_bstore s h b d :
  bio_ok s -> bio_owns s h b ->
  exists s', store_data h d s = Done tt s' /\ bio_ok s'
    /\ (forall h' b', bio_owns s' h' b' <-> bio_owns s h' b')
    /\ veq (bio_view s') (View (upd (content s) b d) (diskblk s) (locked_set s) (dirty_set s) (bc_disksize s)).
Proof.
  intros (l & HI & Hz) Ho. set (b' := with_data d (bufs s h)).
  destruct (owned_facts s l h b HI Ho) as (Hin & _ & [Hd Hbn] & Hr & Hf).
  assert (Hb' : b_dev b' = 1 /\ b_blockno b' = b /\ b_lock b' = b_lock (bufs s h)
    /\ b_refcnt b' = b_refcnt (bufs s h) /\ valid_flags (b_flags b')) by done.
  exists (set_buf h (fun _ => b') s). split; [done|].
  split; [by apply (owned_set_ok s l h b b')|]. split; [by apply (owned_set_owns s h b b')|].
  split; cbn; [|done|by apply (owned_set_locked s h b b')| |done].
  - intros x. rewrite (owned_set_content s l h b b') by done. unfold upd. done.
  - apply set_eq. intros x. rewrite (owned_set_dirty s l h b b') by done. cbn.
    split; [|destruct (decide (x = b)) as [->|]; [|by right]].
    + intros [[-> Hfd]|[_ H]]; [|done]. apply elem_dirty_set. exists h. by destruct Ho.
    + intros (j & Hj & Hfj & Hbj)%elem_dirty_set. left. split; [done|].
      destruct (decide (j = h)) as [->|Hne]; [done|].
      exfalso. apply (other_block s l h j HI); try done; [by destruct Ho| |congruence].
      destruct (decide (b_dev (bufs s j) = 0)) as [E0|E0].
      * rewrite (bo_unused _ _ (bi_buf _ _ HI j (proj2 (bi_perm _ _ HI j) Hj)) E0) in Hfj. done.
      * apply (bo_used _ _ (bi_buf _ _ HI j (proj2 (bi_perm _ _ HI j) Hj)) E0).
Qed.

Lemma law_bpin s h b :
  bio_ok s -> bio_owns s h b ->
  exists s', pin_dirty h s = Done tt s' /\ bio_ok s'
    /\ (forall h' b', bio_owns s' h' b' <-> bio_owns s h' b')
    /\ veq (bio_view s') (View (content s) (diskblk s) (locked_set s) ({[ b ]} ∪ dirty_set s) (bc_disksize s)).
Proof.
  intros (l & HI & Hz) Ho. set (b' := with_flags (b_flags (bufs s h) ||| B_DIRTY) (bufs s h)).
  destruct (owned_facts s l h b HI Ho) as (Hin & _ & Hh & Hr & Hf).
  assert (Hfl : b_flags b' = Z.lor B_VALID B_DIRTY) by (cbn; by destruct Hf as [-> | ->]).
  assert (Hb' : b_dev b' = 1 /\ b_blockno b' = b /\ b_lock b' = b_lock (bufs s h)
    /\ b_refcnt b' = b_refcnt (bufs s h) /\ valid_flags (b_flags b')).
  { destruct Hh. split; [done|]. split; [done|]. split; [done|]. split; [done|by right]. }
  exists (set_buf h (fun _ => b') s). split; [done|].
  split; [by apply (owned_set_ok s l h b b')|]. split; [by apply (owned_set_owns s h b b')|].
  split; cbn; [|done|by apply (owned_set_locked s h b b')| |done].
  - intros x. rewrite (owned_set_content s l h b b') by done. split_decide as [->|_]; [|done].
    symmetry. apply (content_holds s l HI); [|done]. by destruct Ho.
  - apply set_eq. intros x. rewrite (owned_set_dirty s l h b b') by done. rewrite Hfl.
    rewrite elem_of_union, elem_of_singleton. destruct (decide (x = b)); tauto.
Qed.

Lemma law_bwrite s h b :
  bio_ok s -> bio_owns s h b ->
  exists s', Bio.bwrite h s = Done tt s' /\ bio_ok s'
    /\ (forall h' b', bio_owns s' h' b' <-> bio_owns s h' b')
    /\ veq (bio_view s') (View (content s) (upd (diskblk s) b (content s b)) (locked_set s)
          (dirty_set s ∖ {[ b ]}) (bc_disksize s)).
Proof.
  intros (l & HI & Hz) Ho. destruct (owned_facts s l h b HI Ho) as (Hin & _ & Hh & Hr & Hf).
  pose proof Ho as (Hhr & Hm & Hbn).
  pose proof (bwrite_eq s l h HI Hin Hm) as E.
  destruct (bwrite_correct s l h HI Hin Hm) as (s' & E' & HI' & Hm' & Hc & Hdk).
  rewrite E in E'. injection E' as <-. rewrite Hbn in *.
  set (b' := with_flags B_VALID (bufs s h)).
  assert (Hb' : b_dev b' = 1 /\ b_blockno b' = b /\ b_lock b' = b_lock (bufs s h)
    /\ b_refcnt b' = b_refcnt (bufs s h) /\ valid_flags (b_flags b')).
  { destruct Hh. split; [done|]. split; [done|]. split; [done|]. split; [done|by left]. }
  eexists. split; [exact E|].
  change (set_buf h (with_flags B_VALID) s) with (set_buf h (fun _ => b') s) in *.
  set (s1 := set_buf h (fun _ => b') s) in *.
  split; [|split].
  - exists l. split; [exact HI'|]. intros i Hi.
    change (bufs (set_disk ?x ?y s1) i) with (bufs s1 i). unfold s1.
    destruct (decide (i = h)) as [->|Hne]; [rewrite bufs_same; destruct Hb'; lia|].
    rewrite bufs_other by done. by apply Hz.
  - intros h' x. apply (owned_set_owns s h b b'); done.
  - split; cbn; [exact Hc| | | |done].
    + intros x. rewrite Hdk. unfold upd. split_decide as [->|_]; done.
    + change (locked_set (set_disk ?x ?y s1)) with (locked_set s1). by apply (owned_set_locked s h b b').
    + apply set_eq. intros x. change (dirty_set (set_disk ?x ?y s1)) with (dirty_set s1).
      unfold s1. rewrite (owned_set_dirty s l h b b') by done.
      rewrite elem_of_difference, elem_of_singleton. cbn. naive_solver.
Qed.

Lemma law_brelse s h b :
  bio_ok s -> bio_owns s h b -> b ∈ dirty_set s \/ content s b = diskblk s b ->
  exists s', Bio.brelse h s = Done tt s' /\ bio_ok s'
    /\ (forall h' b', bio_owns s' h' b' <-> bio_owns s h' b' /\ b' <> b)
    /\ veq (bio_view s') (View (content s) (diskblk s) (locked_set s ∖ {[ b ]})
          (dirty_set s) (bc_disksize s)).
Proof.
  intros (l & HI & Hz) Ho Hcl. destruct (owned_facts s l h b HI Ho) as (Hin & _ & Hh & Hr & Hf).
  pose proof Ho as (Hhr & Hm & Hbn). pose proof (content_holds s l HI b h Hhr Hh) as Hcb.
  destruct (brelse_correct s l h HI Hin Hm) as (l1 & l2 & s' & El & E & HI' & Hbh & Hbo & (Hdk & Hpid & Hsz) & Hc).
  { intros Hv. rewrite Hbn, <- Hcb. destruct Hcl as [Hcl|Hcl]; [|done].
    apply elem_dirty_set in Hcl as (j & Hj & Hfj & Hbj).
    destruct (decide (j = h)) as [->|Hne]; [by rewrite Hv in Hfj|]. exfalso.
    apply (other_block s l h j HI); try done; [by destruct Hh| |congruence].
    destruct (decide (b_dev (bufs s j) = 0)) as [E0|E0].
    - rewrite (bo_unused _ _ (bi_buf _ _ HI j (proj2 (bi_perm _ _ HI j) Hj)) E0) in Hfj. done.
    - apply (bo_used _ _ (bi_buf _ _ HI j (proj2 (bi_perm _ _ HI j) Hj)) E0). }
  exists s'. split; [done|].
  assert (Hb : forall j, bufs s' j = if decide (j = h) then free_buf (bufs s h) else bufs s j).
  { intros j. split_decide as [->|?]; [done|by apply Hbo]. }
  split; [|split].
  - exists (h :: l1 ++ l2). split; [done|]. intros i Hi. rewrite Hb. split_decide as [->|Hne]; [done|].
    apply Hz. rewrite El. set_solver.
  - intros h' x. unfold bio_owns, mine. rewrite Hb, Hpid. split_decide as [->|Hne].
    + cbn. destruct Hh as [_ Hbn']. split; [intros (_ & (_ & ? & _) & _); lia|].
      intros [(_ & _ & Hx) Hxb]. congruence.
    + split; [|tauto]. intros (Hh' & (Hd' & Hl' & Hp') & Hx). split; [done|].
      rewrite <- Hx, <- Hbn. apply (other_block s l h h' HI); try done. by destruct Hh.
  - split; cbn; [exact Hc|unfold diskblk; by rewrite Hdk| | |done].
    + apply set_eq. intros x. rewrite elem_of_difference, elem_of_singleton, !elem_locked_set. split.
      * intros (j & Hj & Hd' & Hl' & Hx). rewrite Hb in *. destruct (decide (j = h)) as [->|Hne]; [done|].
        split; [by exists j|]. rewrite <- Hx, <- Hbn. apply (other_block s l h j HI); try done. by destruct Hh.
      * intros [(j & Hj & Hd' & Hl' & Hx) Hne]. exists j. rewrite Hb.
        destruct (decide (j = h)) as [->|Hn]; [congruence|done].
    + apply set_eq. intros x. rewrite !elem_dirty_set. split; intros (j & Hj & Hfj & Hx); exists j;
        (split; [done|]); rewrite Hb in *; destruct (decide (j = h)) as [->|Hn]; done.
Qed.

#[export] Instance bio_layer : BlockLayer bst := {|
  bread := Bio.bread;
  brelse := Bio.brelse;
  bwrite := Bio.bwrite;
  bdata h s := b_data (bufs s h);
  bstore := store_data;
  bpin := pin_dirty;
  bblockno h s := b_blockno (bufs s h);
  bl_ok := bio_ok;
  bl_view := bio_view;
  bl_owns := bio_owns;
  bl_data := law_data;
  bl_bread := law_bread;
  bl_bstore := law_bstore;
  bl_bwrite := law_bwrite;
  bl_bpin := law_bpin;
  bl_brelse := law_brelse |}.
