(* ===== verification/BlockMem.v ===== *)
(** * The block layer in its simplest form

    The view of [BlockLayer] implemented by itself: blocks in a map, a buffer
    named by its block number.  It is the executable reference against which
    the clients' definitions are run on concrete inputs. *)
From S2P Require Import Prelude Layout Blocks.

Record bmem := Bmem {
  bm_mem : gmap Z block; bm_dsk : gmap Z block; bm_held : gset Z; bm_pinned : gset Z; bm_size : Z }.

Definition mem_bread (dev b : Z) : M bmem Z := fun s =>
  if decide (b ∈ bm_held s) then Sleep "buffer" s
  else Done b (Bmem (bm_mem s) (bm_dsk s) ({[ b ]} ∪ bm_held s) (bm_pinned s) (bm_size s)).
Definition mem_brelse (b : Z) : M bmem unit :=
  modify (fun s => Bmem (bm_mem s) (bm_dsk s) (bm_held s ∖ {[ b ]}) (bm_pinned s) (bm_size s)).
Definition mem_bwrite (b : Z) : M bmem unit :=
  modify (fun s => Bmem (bm_mem s) (<[b := bm_mem s !!! b]> (bm_dsk s)) (bm_held s)
                     (bm_pinned s ∖ {[ b ]}) (bm_size s)).
Definition mem_bstore (b : Z) (d : block) : M bmem unit :=
  modify (fun s => Bmem (<[b := d]> (bm_mem s)) (bm_dsk s) (bm_held s) (bm_pinned s) (bm_size s)).
Definition mem_bpin (b : Z) : M bmem unit :=
  modify (fun s => Bmem (bm_mem s) (bm_dsk s) (bm_held s) ({[ b ]} ∪ bm_pinned s) (bm_size s)).

Definition mem_view (s : bmem) : view :=
  View (fun b => bm_mem s !!! b) (fun b => bm_dsk s !!! b) (bm_held s) (bm_pinned s) (bm_size s).

Lemma upd_insert (m : gmap Z block) b d x : (<[b := d]> m) !!! x = upd (fun x => m !!! x) b d x.
Proof.
  unfold upd. split_decide as [->|Hne]; [apply lookup_total_insert_eq|].
  by apply lookup_total_insert_ne.
Qed.

#[export, program] Instance mem_layer : BlockLayer bmem := {|
  bread := mem_bread;
  brelse := mem_brelse;
  bwrite := mem_bwrite;
  bdata b s := bm_mem s !!! b;
  bstore := mem_bstore;
  bpin := mem_bpin;
  bblockno b s := b;
  bl_ok s := forall b, b ∈ bm_held s -> 0 <= b < bm_size s;
  bl_view := mem_view;
  bl_owns s h b := h = b /\ b ∈ bm_held s |}.
Next Obligation. intros s h b Hok [-> Hh]. by repeat split; try apply Hok. Qed.
Next Obligation.
  intros s b Hok Hb Hh _. unfold mem_bread; cbn in *. rewrite decide_False by done.
  eexists b, _. split; [done|]. split; [cbn; set_solver|]. split; [|done].
  intros h' b'. cbn. set_solver.
Qed.
Next Obligation.
  intros s h b d Hok [-> Hh]. eexists. split; [done|]. split; [done|]. split; [done|].
  split; cbn; try done. intros x. apply upd_insert.
Qed.
Next Obligation.
  intros s h b Hok [-> Hh]. eexists. split; [done|]. split; [done|]. split; [done|].
  split; cbn; try done. intros x. apply upd_insert.
Qed.
Next Obligation. intros s h b Hok [-> Hh]. eexists. split; [done|]. split; [done|]. split; done. Qed.
Next Obligation.
  intros s h b Hok [-> Hh] _. eexists. split; [done|]. split; [cbn; set_solver|]. split; [|done].
  intros h' b'. cbn. set_solver.
Qed.
