(* ===== verification/Log.v ===== *)
(** * The redo log ([log.c])

    Written against [BlockLayer]: the in-memory header, the counts of running
    operations, and the commit and recovery protocols as sequences of [bread],
    stores, [bwrite] and [brelse].

    [lg_trace] records every [bwrite] in order (block and data).  It is read by
    no operation; it is what the crash theorems quantify over: a crash leaves
    the disk with some prefix of the trace applied (a block write is atomic).

    [begin_op_run] is one pass of the loop of [begin_op]; a process that sleeps
    runs it again when woken. *)
From S2P Require Import Prelude Layout Locks Blocks.

Record lgst (S : Type) := Lgst {
  lg_start : Z;
  lg_size : Z;
  lg_outstanding : Z;
  lg_committing : Z;
  lg_dev : Z;
  lg_n : Z;
  lg_block : list Z;
  lg_bl : S;
  lg_trace : list (Z * block);
  lg_wakes : nat;
  lg_held : list lock }.
Arguments Lgst {S}. Arguments lg_start {S}. Arguments lg_size {S}.
Arguments lg_outstanding {S}. Arguments lg_committing {S}. Arguments lg_dev {S}.
Arguments lg_n {S}. Arguments lg_block {S}. Arguments lg_bl {S}.
Arguments lg_trace {S}. Arguments lg_wakes {S}. Arguments lg_held {S}.

#[export, program] Instance lgst_locks (S : Type) : HasLocks (lgst S) := {|
  locks_of := lg_held;
  with_locks L s := Lgst (lg_start s) (lg_size s) (lg_outstanding s) (lg_committing s)
    (lg_dev s) (lg_n s) (lg_block s) (lg_bl s) (lg_trace s) (lg_wakes s) L |}.
Next Obligation. done. Qed.
Next Obligation. done. Qed.
Next Obligation. by intros ? []. Qed.

Section log.
Context {S : Type} `{BlockLayer S}.

Definition set_bl (b : S) (s : lgst S) : lgst S :=
  Lgst (lg_start s) (lg_size s) (lg_outstanding s) (lg_committing s)
    (lg_dev s) (lg_n s) (lg_block s) b (lg_trace s) (lg_wakes s) (lg_held s).
Definition set_n (n : Z) (s : lgst S) : lgst S :=
  Lgst (lg_start s) (lg_size s) (lg_outstanding s) (lg_committing s)
    (lg_dev s) n (lg_block s) (lg_bl s) (lg_trace s) (lg_wakes s) (lg_held s).
Definition set_block (i v : Z) (s : lgst S) : lgst S :=
  Lgst (lg_start s) (lg_size s) (lg_outstanding s) (lg_committing s) (lg_dev s) (lg_n s)
    (<[Z.to_nat i := v]> (lg_block s)) (lg_bl s) (lg_trace s) (lg_wakes s) (lg_held s).
Definition set_outstanding (o : Z) (s : lgst S) : lgst S :=
  Lgst (lg_start s) (lg_size s) o (lg_committing s)
    (lg_dev s) (lg_n s) (lg_block s) (lg_bl s) (lg_trace s) (lg_wakes s) (lg_held s).
Definition set_committing (c : Z) (s : lgst S) : lgst S :=
  Lgst (lg_start s) (lg_size s) (lg_outstanding s) c
    (lg_dev s) (lg_n s) (lg_block s) (lg_bl s) (lg_trace s) (lg_wakes s) (lg_held s).
Definition set_area (dev start size : Z) (s : lgst S) : lgst S :=
  Lgst start size (lg_outstanding s) (lg_committing s)
    dev (lg_n s) (lg_block s) (lg_bl s) (lg_trace s) (lg_wakes s) (lg_held s).
Definition add_trace (b : Z) (d : block) (s : lgst S) : lgst S :=
  Lgst (lg_start s) (lg_size s) (lg_outstanding s) (lg_committing s)
    (lg_dev s) (lg_n s) (lg_block s) (lg_bl s) (lg_trace s ++ [(b, d)]) (lg_wakes s) (lg_held s).
Definition wakeup_log : M (lgst S) unit :=
  modify (fun s => Lgst (lg_start s) (lg_size s) (lg_outstanding s) (lg_committing s)
    (lg_dev s) (lg_n s) (lg_block s) (lg_bl s) (lg_trace s) (Datatypes.S (lg_wakes s)) (lg_held s)).

(** The block layer's operations on the larger state. *)
Definition lift {A} (m : M S A) : M (lgst S) A := zoom lg_bl set_bl m.
Definition data_of (h : Z) : M (lgst S) block := gets (fun s => bdata h (lg_bl s)).
Definition bwrite_traced (h : Z) : M (lgst S) unit :=
  modify (fun s => add_trace (bblockno h (lg_bl s)) (bdata h (lg_bl s)) s) ;;
  lift (bwrite h).

(** [readsb] of [fs.c]. *)
Definition decode_sb (d : block) : superblock :=
  Superblock (get32 d 0) (get32 d 4) (get32 d 8) (get32 d 12) (get32 d 16) (get32 d 20) (get32 d 24).
Definition readsb (dev : Z) : M (lgst S) superblock :=
  bp ← lift (bread dev 1);
  d ← data_of bp;
  lift (brelse bp) ;;
  mret (decode_sb d).

Definition install_trans : M (lgst S) unit :=
  n ← gets lg_n;
  for_each (seqZ 0 n) (fun tail =>
    dev ← gets lg_dev; start ← gets lg_start; blk ← gets lg_block;
    lbuf ← lift (bread dev (start + tail + 1));
    dbuf ← lift (bread dev (blk !!! Z.to_nat tail));
    d ← data_of lbuf;
    lift (bstore dbuf d) ;;
    bwrite_traced dbuf ;;
    lift (brelse lbuf) ;;
    lift (brelse dbuf)).

Definition read_head : M (lgst S) unit :=
  dev ← gets lg_dev; start ← gets lg_start;
  buf ← lift (bread dev start);
  d ← data_of buf;
  modify (set_n (i32 (get32 d 0))) ;;
  n ← gets lg_n;
  for_each (seqZ 0 n) (fun i =>
    if i >=? LOGSIZE then undef "log.lh.block"
    else modify (set_block i (i32 (get32 d (Z.to_nat (4 + 4 * i)))))) ;;
  lift (brelse buf).

Definition encode_head (n : Z) (blk : list Z) (d : block) : block :=
  foldl (fun d i => put32 (Z.to_nat (4 + 4 * i)) (blk !!! Z.to_nat i) d) (put32 0 n d) (seqZ 0 n).

Definition write_head : M (lgst S) unit :=
  dev ← gets lg_dev; start ← gets lg_start;
  buf ← lift (bread dev start);
  d ← data_of buf;
  n ← gets lg_n; blk ← gets lg_block;
  lift (bstore buf (encode_head n blk d)) ;;
  bwrite_traced buf ;;
  lift (brelse buf).

Definition recover_from_log : M (lgst S) unit :=
  read_head ;; install_trans ;; modify (set_n 0) ;; write_head.

Definition sizeof_logheader : Z := 4 + 4 * LOGSIZE.
Definition initlog (dev : Z) : M (lgst S) unit :=
  if sizeof_logheader >=? BSIZE then panic "initlog: too big logheader"
  else
    sb ← readsb dev;
    modify (set_area dev (i32 (sb_logstart sb)) (i32 (sb_nlog sb))) ;;
    recover_from_log.

(** [true]: the operation has begun; [false]: the process sleeps on the log. *)
Definition begin_op_run : M (lgst S) bool :=
  acquire Llog ;;
  committing ← gets lg_committing;
  if truth committing then release Llog ;; mret false
  else
    n ← gets lg_n; out ← gets lg_outstanding;
    if n + (out + 1) * MAXOPBLOCKS >? LOGSIZE then release Llog ;; mret false
    else modify (set_outstanding (out + 1)) ;; release Llog ;; mret true.

Definition write_log : M (lgst S) unit :=
  n ← gets lg_n;
  for_each (seqZ 0 n) (fun tail =>
    dev ← gets lg_dev; start ← gets lg_start; blk ← gets lg_block;
    to ← lift (bread dev (start + tail + 1));
    from ← lift (bread dev (blk !!! Z.to_nat tail));
    d ← data_of from;
    lift (bstore to d) ;;
    bwrite_traced to ;;
    lift (brelse from) ;;
    lift (brelse to)).

Definition commit : M (lgst S) unit :=
  n ← gets lg_n;
  when (n >? 0)
    (write_log ;; write_head ;; install_trans ;; modify (set_n 0) ;; write_head).

Definition end_op : M (lgst S) unit :=
  acquire Llog ;;
  out ← gets lg_outstanding;
  modify (set_outstanding (out - 1)) ;;
  c ← gets lg_committing;
  if truth c then panic "log.committing"
  else
    out ← gets lg_outstanding;
    do_commit ←
      (if out =? 0 then modify (set_committing 1) ;; mret true
       else wakeup_log ;; mret false);
    release Llog ;;
    when do_commit
      (commit ;;
       acquire Llog ;;
       modify (set_committing 0) ;;
       wakeup_log ;;
       release Llog).

(** The search for an earlier entry of the same block ([i] where it stops). *)
Definition find_entry (n : Z) (blk : list Z) (b : Z) : Z :=
  match filter (fun i => blk !!! Z.to_nat i = b) (seqZ 0 n) with
  | i :: _ => i
  | [] => n
  end.

Definition log_write (h : Z) : M (lgst S) unit :=
  n ← gets lg_n; size ← gets lg_size; out ← gets lg_outstanding;
  if (n >=? LOGSIZE) || (n >=? size - 1) then panic "too big a transaction"
  else if out <? 1 then panic "log_write outside of trans"
  else
    acquire Llog ;;
    n ← gets lg_n; blk ← gets lg_block;
    b ← gets (fun s => bblockno h (lg_bl s));
    let i := find_entry n blk b in
    modify (set_block i b) ;;
    when (i =? n) (modify (set_n (n + 1))) ;;
    lift (bpin h) ;;
    release Llog.
End log.
