(* ===== verification/LogSpec.v ===== *)
(** * What the log guarantees ([log.c], theorems)

    Proved for every block layer.  [commit] copies the cached blocks into the
    log, writes the header, installs the blocks and clears the header; whatever
    prefix of these writes reaches the disk before a crash, recovery ends with
    all of the transaction's blocks or none of them. *)
From S2P Require Import Prelude Layout Locks Blocks Log.

Section wp_bl.
Context {S : Type} `{BlockLayer S}.
Implicit Types s : lgst S.

(** The block layer is in a good state with the view [v]. *)
Definition at_view (b : S) (v : view) : Prop := bl_ok b /\ veq (bl_view b) v.

Lemma upd_veq c b d c' d' :
  (forall x, c x = c' x) -> d = d' -> forall x, upd c b d x = upd c' b d' x.
Proof. intros Hc -> x. unfold upd. by rewrite Hc. Qed.

Lemma wp_bread s v b (Q : Z -> lgst S -> Prop) :
  at_view (lg_bl s) v -> 0 <= b < v_size v -> b ∉ v_held v ->
  b ∈ v_pinned v \/ (size (v_held v ∪ v_pinned v) < Z.to_nat NBUF)%nat ->
  (forall h bl, at_view bl (View (v_content v) (v_disk v) ({[ b ]} ∪ v_held v) (v_pinned v) (v_size v)) ->
     bl_owns bl h b -> (forall h' b', bl_owns (lg_bl s) h' b' -> bl_owns bl h' b') ->
     Q h (set_bl bl s)) ->
  wp (lift (bread 1 b)) Q s.
Proof.
  intros [Hok [V1 V2 V3 V4 V5]] Hb Hh Hr HQ.
  destruct (bl_bread (lg_bl s) b Hok) as (h & bl & E & Hok' & Ho & [W1 W2 W3 W4 W5]);
    [by rewrite V5|by rewrite V3|by rewrite V3, V4|].
  apply wp_zoom. eapply wp_Done; [exact E|]. apply HQ.
  - split; [done|]. cbn in *. split; cbn; intros; rewrite ?W1, ?W2, ?W3, ?W4, ?W5; congruence || done.
  - apply Ho. by right.
  - intros h' b' Hx. apply Ho. by left.
Qed.

Lemma data_of_eq s v h b :
  at_view (lg_bl s) v -> bl_owns (lg_bl s) h b ->
  data_of h s = Done (v_content v b) s /\ bblockno h (lg_bl s) = b /\ bdata h (lg_bl s) = v_content v b
  /\ b ∈ v_held v.
Proof.
  intros [Hok [V1 V2 V3 V4 V5]] Ho. destruct (bl_data _ _ _ Hok Ho) as (E & En & Hh & _).
  unfold data_of, gets. by rewrite E, V1, <- V3.
Qed.

Lemma wp_bstore s v h b d (Q : unit -> lgst S -> Prop) :
  at_view (lg_bl s) v -> bl_owns (lg_bl s) h b ->
  (forall bl, at_view bl (View (upd (v_content v) b d) (v_disk v) (v_held v) (v_pinned v) (v_size v)) ->
     (forall h' b', bl_owns (lg_bl s) h' b' -> bl_owns bl h' b') -> Q tt (set_bl bl s)) ->
  wp (lift (bstore h d)) Q s.
Proof.
  intros [Hok [V1 V2 V3 V4 V5]] Ho HQ.
  destruct (bl_bstore (lg_bl s) h b d Hok Ho) as (bl & E & Hok' & Ho' & [W1 W2 W3 W4 W5]).
  apply wp_zoom. eapply wp_Done; [exact E|]. apply HQ.
  - split; [done|]. cbn in *. split; cbn; intros; rewrite ?W1, ?W2, ?W3, ?W4, ?W5; try congruence; try done.
    by apply upd_veq.
  - intros h' b' Hx. by apply Ho'.
Qed.

Lemma wp_bwrite s v h b (Q : unit -> lgst S -> Prop) :
  at_view (lg_bl s) v -> bl_owns (lg_bl s) h b ->
  (forall bl, at_view bl (View (v_content v) (upd (v_disk v) b (v_content v b)) (v_held v)
       (v_pinned v ∖ {[ b ]}) (v_size v)) ->
     (forall h' b', bl_owns (lg_bl s) h' b' -> bl_owns bl h' b') ->
     Q tt (set_bl bl (add_trace b (v_content v b) s))) ->
  wp (bwrite_traced h) Q s.
Proof.
  intros Hv Ho HQ. destruct (data_of_eq s v h b Hv Ho) as (_ & En & Ed & _).
  destruct Hv as [Hok [V1 V2 V3 V4 V5]].
  destruct (bl_bwrite (lg_bl s) h b Hok Ho) as (bl & E & Hok' & Ho' & [W1 W2 W3 W4 W5]).
  unfold bwrite_traced. apply wp_bind, wp_modify. rewrite En, Ed.
  apply wp_zoom. eapply wp_Done; [exact E|]. apply HQ.
  - split; [done|]. cbn in *. split; cbn; intros; rewrite ?W1, ?W2, ?W3, ?W4, ?W5; try congruence; try done.
    by apply upd_veq.
  - intros h' b' Hx. by apply Ho'.
Qed.

Lemma wp_brelse s v h b (Q : unit -> lgst S -> Prop) :
  at_view (lg_bl s) v -> bl_owns (lg_bl s) h b ->
  b ∈ v_pinned v \/ v_content v b = v_disk v b ->
  (forall bl, at_view bl (View (v_content v) (v_disk v) (v_held v ∖ {[ b ]}) (v_pinned v) (v_size v)) ->
     (forall h' b', bl_owns (lg_bl s) h' b' -> b' <> b -> bl_owns bl h' b') -> Q tt (set_bl bl s)) ->
  wp (lift (brelse h)) Q s.
Proof.
  intros [Hok [V1 V2 V3 V4 V5]] Ho Hc HQ.
  destruct (bl_brelse (lg_bl s) h b Hok Ho) as (bl & E & Hok' & Ho' & [W1 W2 W3 W4 W5]);
    [by rewrite V1, V2, V4|].
  apply wp_zoom. eapply wp_Done; [exact E|]. apply HQ.
  - split; [done|]. cbn in *. split; cbn; intros; rewrite ?W1, ?W2, ?W3, ?W4, ?W5; congruence || done.
  - intros h' b' Hx Hne. by apply Ho'.
Qed.

Lemma wp_data_of s v h b (Q : block -> lgst S -> Prop) :
  at_view (lg_bl s) v -> bl_owns (lg_bl s) h b -> Q (v_content v b) s -> wp (data_of h) Q s.
Proof.
  intros Hv Ho HQ. destruct (data_of_eq s v h b Hv Ho) as (E & _). by eapply wp_Done.
Qed.
End wp_bl.

Section copying.
Context {S : Type} `{BlockLayer S}.
Implicit Types s : lgst S.

(** The view after copying block [src] over block [dst] and writing it. *)
Definition copied (v : view) (src dst : Z) : view :=
  View (upd (v_content v) dst (v_content v src)) (upd (v_disk v) dst (v_content v src))
    ∅ (v_pinned v ∖ {[ dst ]}) (v_size v).

(** What the two copying loops need of a pair of blocks. *)
Record copyable (v : view) (src dst : Z) : Prop := Copyable {
  cp_held : v_held v = ∅;
  cp_ne : src <> dst;
  cp_src : 0 <= src < v_size v;
  cp_dst : 0 <= dst < v_size v;
  cp_clean : src ∈ v_pinned v \/ v_content v src = v_disk v src;
  cp_room : (size (v_pinned v) < Z.to_nat NBUF)%nat;
  cp_room2 : src ∈ v_pinned v \/ dst ∈ v_pinned v
    \/ (Datatypes.S (size (v_pinned v)) < Z.to_nat NBUF)%nat }.

Lemma size_add (x : Z) (X : gset Z) : (size ({[ x ]} ∪ X) <= Datatypes.S (size X))%nat.
Proof.
  rewrite size_union_alt, size_singleton. apply le_n_S, subseteq_size. set_solver.
Qed.

Lemma copy_install s v src dst :
  at_view (lg_bl s) v -> copyable v src dst ->
  wp (lbuf ← lift (bread 1 src);
      dbuf ← lift (bread 1 dst);
      d ← data_of lbuf;
      lift (bstore dbuf d) ;; bwrite_traced dbuf ;;
      lift (brelse lbuf) ;; lift (brelse dbuf))
    (fun _ s' => exists bl, s' = set_bl bl (add_trace dst (v_content v src) s)
       /\ at_view bl (copied v src dst)) s.
Proof.
  intros Hv [C1 C2 C3 C4 C5 C6 C7].
  apply wp_bind, (wp_bread s v); [done|done|rewrite C1; set_solver|right; by rewrite C1, (left_id_L ∅ (∪))|].
  intros h1 b1 V1 O1 _. apply wp_bind.
  eapply wp_bread; [exact V1|done|cbn; rewrite C1; set_solver| |]; cbn.
  { rewrite C1, (right_id_L ∅ (∪)). destruct C7 as [C7|[C7|C7]]; [right|by left|right].
    - by replace ({[src]} ∪ v_pinned v) with (v_pinned v) by set_solver.
    - pose proof (size_add src (v_pinned v)). lia. }
  intros h2 b2 V2 O2 K2. apply K2 in O1.
  apply wp_bind. eapply wp_data_of; [exact V2|exact O1|]. cbn.
  apply wp_bind. eapply wp_bstore; [exact V2|exact O2|]. intros b3 V3 K3. apply K3 in O1, O2. cbn in V3.
  apply wp_bind. eapply wp_bwrite; [exact V3|exact O2|]. intros b4 V4 K4. apply K4 in O1, O2. cbn in V4.
  assert (E1 : upd (v_content v) dst (v_content v src) dst = v_content v src)
    by (unfold upd; by rewrite decide_True).
  rewrite E1 in *.
  apply wp_bind. eapply wp_brelse; [exact V4|exact O1| |].
  { cbn. unfold upd. rewrite !decide_False by done. set_solver. }
  intros b5 V5 K5. apply K5 in O2; [|done]. cbn in V5.
  eapply wp_brelse; [exact V5|exact O2| |].
  { right. cbn. unfold upd. by rewrite !decide_True. }
  intros b6 V6 _. exists b6.
  split; [unfold set_bl, add_trace; cbn [lg_trace]; cbn; by rewrite E1|]. cbn in V6.
  replace (_ ∖ {[dst]}) with (∅ : gset Z) in V6 at 1 by (rewrite C1; set_solver). exact V6.
Qed.

Lemma copy_log s v src dst :
  at_view (lg_bl s) v -> copyable v src dst ->
  wp (to ← lift (bread 1 dst);
      from ← lift (bread 1 src);
      d ← data_of from;
      lift (bstore to d) ;; bwrite_traced to ;;
      lift (brelse from) ;; lift (brelse to))
    (fun _ s' => exists bl, s' = set_bl bl (add_trace dst (v_content v src) s)
       /\ at_view bl (copied v src dst)) s.
Proof.
  intros Hv [C1 C2 C3 C4 C5 C6 C7].
  apply wp_bind, (wp_bread s v); [done|done|rewrite C1; set_solver|right; by rewrite C1, (left_id_L ∅ (∪))|].
  intros h2 b1 V1 O2 _. apply wp_bind.
  eapply wp_bread; [exact V1|done|cbn; rewrite C1; set_solver| |]; cbn.
  { rewrite C1, (right_id_L ∅ (∪)). destruct C7 as [C7|[C7|C7]]; [by left|right|right].
    - by replace ({[dst]} ∪ v_pinned v) with (v_pinned v) by set_solver.
    - pose proof (size_add dst (v_pinned v)). lia. }
  intros h1 b2 V2 O1 K2. apply K2 in O2.
  apply wp_bind. eapply wp_data_of; [exact V2|exact O1|]. cbn.
  apply wp_bind. eapply wp_bstore; [exact V2|exact O2|]. intros b3 V3 K3. apply K3 in O1, O2. cbn in V3.
  apply wp_bind. eapply wp_bwrite; [exact V3|exact O2|]. intros b4 V4 K4. apply K4 in O1, O2. cbn in V4.
  assert (E1 : upd (v_content v) dst (v_content v src) dst = v_content v src)
    by (unfold upd; by rewrite decide_True).
  rewrite E1 in *.
  apply wp_bind. eapply wp_brelse; [exact V4|exact O1| |].
  { cbn. unfold upd. rewrite !decide_False by done. set_solver. }
  intros b5 V5 K5. apply K5 in O2; [|done]. cbn in V5.
  eapply wp_brelse; [exact V5|exact O2| |].
  { right. cbn. unfold upd. by rewrite !decide_True. }
  intros b6 V6 _. exists b6.
  split; [unfold set_bl, add_trace; cbn [lg_trace]; cbn; by rewrite E1|]. cbn in V6.
  replace (_ ∖ {[dst]}) with (∅ : gset Z) in V6 at 1 by (rewrite C1; set_solver). exact V6.
Qed.
End copying.

(** ** Sequences of block writes *)
Definition apply_writes (f : Z -> block) (tr : list (Z * block)) : Z -> block :=
  foldl (fun f w => upd f w.1 w.2) f tr.

Lemma apply_app f t1 t2 x : apply_writes f (t1 ++ t2) x = apply_writes (apply_writes f t1) t2 x.
Proof. unfold apply_writes. by rewrite foldl_app. Qed.

Lemma apply_cons f b d tr x :
  apply_writes f ((b, d) :: tr) x = apply_writes (upd f b d) tr x.
Proof. done. Qed.

Lemma apply_ext f g tr x : (forall y, f y = g y) -> apply_writes f tr x = apply_writes g tr x.
Proof.
  revert f g. induction tr as [|[b d] tr IH]; intros f g Hfg; [apply Hfg|]. cbn. apply IH.
  intros y. by apply upd_veq.
Qed.

Lemma apply_ne f tr x : (forall w, w ∈ tr -> w.1 <> x) -> apply_writes f tr x = f x.
Proof.
  revert f. induction tr as [|[b d] tr IH]; intros f Hn; [done|]. cbn.
  unfold apply_writes in IH. rewrite IH by set_solver.
  unfold upd. rewrite decide_False; [done|]. intros ->. by apply (Hn (b, d)); [left|].
Qed.

(** With distinct targets every write shows. *)
Lemma apply_in f tr b d : NoDup tr.*1 -> (b, d) ∈ tr -> apply_writes f tr b = d.
Proof.
  revert f. induction tr as [|[b' d'] tr IH]; intros f Hnd Hin; [set_solver|].
  cbn in Hnd. apply NoDup_cons in Hnd as [Hb Hnd]. cbn.
  apply elem_of_cons in Hin as [[= -> ->]|Hin].
  - unfold apply_writes in *. change (apply_writes (upd f b' d') tr b' = d'). rewrite apply_ne.
    + unfold upd. by rewrite decide_True.
    + intros w Hw Ew. apply Hb. apply list_elem_of_fmap. eauto.
  - by apply IH.
Qed.

Section copy_loop.
Context {S : Type} `{BlockLayer S}.
Implicit Types s : lgst S.

Lemma at_view_eq (b : S) v w : at_view b v -> veq v w -> at_view b w.
Proof. intros [H1 H2] H3. split; [done|]. by transitivity v. Qed.

Definition with_trace (tr : list (Z * block)) s : lgst S :=
  Lgst (lg_start s) (lg_size s) (lg_outstanding s) (lg_committing s)
    (lg_dev s) (lg_n s) (lg_block s) (lg_bl s) (lg_trace s ++ tr) (lg_wakes s) (lg_held s).

Context (src dst : Z -> Z) (n : Z) (body : Z -> M (lgst S) unit) (s0 : lgst S) (v0 : view).
Hypothesis Hn : 0 <= n.
Hypothesis Hsd : forall i j, 0 <= i < n -> 0 <= j < n -> src i <> dst j.
Hypothesis Hdd : forall i j, 0 <= i < n -> 0 <= j < n -> dst i = dst j -> i = j.
Hypothesis Hrange : forall i, 0 <= i < n -> 0 <= src i < v_size v0 /\ 0 <= dst i < v_size v0.
Hypothesis Hheld : v_held v0 = ∅.
Hypothesis Hclean : forall i, 0 <= i < n ->
  src i ∈ v_pinned v0 \/ v_content v0 (src i) = v_disk v0 (src i).
Hypothesis Hroom : (size (v_pinned v0) < Z.to_nat NBUF)%nat.
Hypothesis Hroom2 : forall i, 0 <= i < n -> src i ∈ v_pinned v0 \/ dst i ∈ v_pinned v0
  \/ (Datatypes.S (size (v_pinned v0)) < Z.to_nat NBUF)%nat.
Hypothesis Hbody : forall i s v, 0 <= i < n ->
  lg_dev s = lg_dev s0 -> lg_start s = lg_start s0 -> lg_block s = lg_block s0 ->
  at_view (lg_bl s) v -> copyable v (src i) (dst i) ->
  wp (body i) (fun _ s' => exists bl, s' = set_bl bl (add_trace (dst i) (v_content v (src i)) s)
       /\ at_view bl (copied v (src i) (dst i))) s.
Hypothesis Hv0 : at_view (lg_bl s0) v0.

(** The writes of the first [k] iterations. *)
Definition writes (k : Z) : list (Z * block) :=
  (fun i => (dst i, v_content v0 (src i))) <$> seqZ 0 k.
Definition targets (k : Z) : gset Z := list_to_set (dst <$> seqZ 0 k).
Definition copied_view (k : Z) : view :=
  View (apply_writes (v_content v0) (writes k)) (apply_writes (v_disk v0) (writes k)) ∅
    (v_pinned v0 ∖ targets k) (v_size v0).

Lemma elem_targets k x : x ∈ targets k <-> exists i, 0 <= i < k /\ x = dst i.
Proof.
  clear Hroom. unfold targets. rewrite elem_of_list_to_set, list_elem_of_fmap. split.
  - intros (i & -> & Hi%elem_of_seqZ). exists i. split; [lia|done].
  - intros (i & Hi & ->). exists i. split; [done|]. apply elem_of_seqZ. lia.
Qed.

Lemma elem_writes k w : w ∈ writes k <-> exists i, 0 <= i < k /\ w = (dst i, v_content v0 (src i)).
Proof.
  clear Hroom. unfold writes. rewrite list_elem_of_fmap. split.
  - intros (i & -> & Hi%elem_of_seqZ). exists i. split; [lia|done].
  - intros (i & Hi & ->). exists i. split; [done|]. apply elem_of_seqZ. lia.
Qed.

Lemma writes_other f k x : (forall i, 0 <= i < k -> dst i <> x) -> apply_writes f (writes k) x = f x.
Proof. intros Hx. apply apply_ne. intros w (i & Hi & ->)%elem_writes. by apply Hx. Qed.

Lemma copied_view_copyable k : 0 <= k < n -> copyable (copied_view k) (src k) (dst k).
Proof.
  intros Hk. assert (Hs : src k ∉ targets k).
  { intros (i & Hi & E)%elem_targets. by apply (Hsd k i); [lia|lia|]. }
  assert (Hd : dst k ∉ targets k).
  { intros (i & Hi & E)%elem_targets. apply Hdd in E; lia. }
  assert (Hsz : (size (v_pinned v0 ∖ targets k) <= size (v_pinned v0))%nat)
    by (apply subseteq_size; set_solver).
  split; cbn; [done|by apply Hsd|by apply Hrange|by apply Hrange| |lia|].
  - rewrite !writes_other by (intros i Hi E; by apply (Hsd k i); [lia|lia|]).
    destruct (Hclean k Hk); [left; set_solver|by right].
  - destruct (Hroom2 k Hk) as [?|[?|?]]; [left; set_solver|right; left; set_solver|right; right; lia].
Qed.

Lemma copied_view_succ k : 0 <= k < n ->
  veq (copied (copied_view k) (src k) (dst k)) (copied_view (k + 1)).
Proof.
  intros Hk. unfold copied_view, copied, writes, targets. rewrite seqZ_snoc by lia.
  rewrite !fmap_app. rewrite !Z.add_0_l. split; cbn; [| |done| |done].
  - intros x. rewrite apply_app. cbn. fold (writes k).
    by rewrite (writes_other (v_content v0) k (src k)) by (intros i Hi E; by apply (Hsd k i); [lia|lia|]).
  - intros x. rewrite apply_app. cbn. fold (writes k).
    by rewrite (writes_other (v_content v0) k (src k)) by (intros i Hi E; by apply (Hsd k i); [lia|lia|]).
  - rewrite list_to_set_app_L. cbn. set_solver.
Qed.

Lemma copies :
  wp (for_each (seqZ 0 n) body) (fun _ s' => exists bl,
    s' = set_bl bl (with_trace (writes n) s0) /\ at_view bl (copied_view n)) s0.
Proof.
  assert (Hw : wp (for_each (seqZ 0 n) body) (fun _ s' => (fun k s' => exists bl,
    s' = set_bl bl (with_trace (writes (Z.of_nat k)) s0) /\ at_view bl (copied_view (Z.of_nat k)))
      (length (seqZ 0 n)) s') s0).
  { apply (wp_for_each (seqZ 0 n) body (fun k s' => exists bl,
      s' = set_bl bl (with_trace (writes (Z.of_nat k)) s0) /\ at_view bl (copied_view (Z.of_nat k)))).
    - exists (lg_bl s0). split.
      + destruct s0. unfold set_bl, with_trace, writes. cbn. by rewrite app_nil_r.
      + eapply at_view_eq; [exact Hv0|]. split; cbn; try done. set_solver.
    - intros k x s Hx (bl & -> & Hv). apply lookup_seqZ in Hx as [-> Hk]. rewrite Z.add_0_l.
      assert (Hkn : 0 <= Z.of_nat k < n) by lia.
      eapply wp_mono; [apply (Hbody (Z.of_nat k) _ (copied_view (Z.of_nat k))); try done;
        by apply copied_view_copyable|].
      intros [] s' (bl' & -> & Hv'). exists bl'. rewrite Nat2Z.inj_succ. unfold Z.succ. split.
      + unfold set_bl, add_trace, with_trace, writes; cbn. rewrite seqZ_snoc, fmap_app, app_assoc by lia.
        cbn. rewrite Z.add_0_l.
        rewrite writes_other; [done|]. intros i Hi E. by apply (Hsd (Z.of_nat k) i); [lia|lia|].
      + eapply at_view_eq; [exact Hv'|]. by apply copied_view_succ. }
  rewrite length_seqZ, Z2Nat.id in Hw by done. exact Hw.
Qed.
End copy_loop.
