(* ===== verification/LogCrash.v ===== *)
(** * Commit, recovery and crashes ([log.c], theorems)

    [commit_trace]: the block writes [commit] issues, in order.  [recovered]:
    the disk [recover_from_log] leaves, as a function of the disk it finds.
    The crash theorem quantifies over every prefix of the first, and over every
    prefix of the writes of recovery itself. *)
From S2P Require Import Prelude Layout Locks Blocks Log LogSpec.

(** ** The header block *)
Definition head_n (d : block) : Z := i32 (get32 d 0).
Definition head_block (d : block) (i : Z) : Z := i32 (get32 d (Z.to_nat (4 + 4 * i))).

Section encode.
Variables (blk : list Z) (d : block).
Hypothesis Hlen : length d = 512%nat.

Definition enc (n : Z) (k : Z) : block :=
  foldl (fun d i => put32 (Z.to_nat (4 + 4 * i)) (blk !!! Z.to_nat i) d) (put32 0 n d) (seqZ 0 k).

Lemma enc_succ n k : 0 <= k ->
  enc n (k + 1) = put32 (Z.to_nat (4 + 4 * k)) (blk !!! Z.to_nat k) (enc n k).
Proof. intros Hk. unfold enc. rewrite seqZ_snoc, foldl_app by lia. by rewrite Z.add_0_l. Qed.

Lemma enc_spec n k : 0 <= k <= LOGSIZE ->
  length (enc n k) = 512%nat /\ get32 (enc n k) 0 = u32 n
  /\ forall i, 0 <= i < k -> get32 (enc n k) (Z.to_nat (4 + 4 * i)) = u32 (blk !!! Z.to_nat i).
Proof.
  intros Hk. unfold LOGSIZE, MAXOPBLOCKS in Hk. rewrite <- (Z2Nat.id k) by lia.
  assert (Hj : (Z.to_nat k <= 30)%nat) by lia. generalize dependent (Z.to_nat k). clear Hk k.
  induction n0 as [|j IH]; intros Hj.
  - change (enc n (Z.of_nat 0)) with (put32 0 n d). rewrite length_put32.
    split; [done|]. split; [by rewrite get32_put32 by lia|lia].
  - rewrite Nat2Z.inj_succ. unfold Z.succ. rewrite enc_succ by lia. destruct IH as (I1 & I2 & I3); [lia|].
    split; [by rewrite length_put32|]. split.
    + rewrite get32_put32_ne by lia. done.
    + intros i Hi. destruct (decide (i = Z.of_nat j)) as [->|Hne].
      * rewrite get32_put32; [done|]. rewrite I1. lia.
      * rewrite get32_put32_ne by lia. apply I3. lia.
Qed.

Lemma encode_head_spec n :
  0 <= n <= LOGSIZE -> (forall i, 0 <= i < n -> 0 <= blk !!! Z.to_nat i < 2147483648) ->
  length (encode_head n blk d) = 512%nat /\ head_n (encode_head n blk d) = n
  /\ forall i, 0 <= i < n -> head_block (encode_head n blk d) i = blk !!! Z.to_nat i.
Proof.
  intros Hn Hb. destruct (enc_spec n n Hn) as (E1 & E2 & E3). split; [exact E1|].
  unfold head_n, head_block. change (encode_head n blk d) with (enc n n).
  unfold LOGSIZE, MAXOPBLOCKS in Hn. split.
  - rewrite E2, i32_u32. apply i32_small. lia.
  - intros i Hi. rewrite E3, i32_u32 by done. apply i32_small. specialize (Hb i Hi). lia.
Qed.
End encode.

(** ** Recovery as a function of the disk *)
Definition log_copies (start : Z) (d : Z -> block) : list (Z * block) :=
  (fun i => (head_block (d start) i, d (start + i + 1))) <$> seqZ 0 (head_n (d start)).
Definition recovered (start : Z) (d : Z -> block) : Z -> block :=
  apply_writes d (log_copies start d ++ [(start, encode_head 0 [] (d start))]).

(** The log area: the header and the [nlog] blocks of its region. *)
Definition in_log (start size x : Z) : Prop := start <= x < start + size.

(** A header that recovery can act on: its entries are distinct home blocks. *)
Record head_ok (start size : Z) (d : Z -> block) : Prop := HeadOk {
  ho_n : 0 <= head_n (d start) <= LOGSIZE /\ head_n (d start) < size;
  ho_len : length (d start) = 512%nat;
  ho_home : forall i, 0 <= i < head_n (d start) -> ~ in_log start size (head_block (d start) i);
  ho_inj : forall i j, 0 <= i < head_n (d start) -> 0 <= j < head_n (d start) ->
    head_block (d start) i = head_block (d start) j -> i = j }.

Lemma log_copies_keys start d :
  (log_copies start d).*1 = (fun i => head_block (d start) i) <$> seqZ 0 (head_n (d start)).
Proof. unfold log_copies. rewrite <- list_fmap_compose. done. Qed.

Lemma encode0_head blk d : length d = 512%nat -> head_n (encode_head 0 blk d) = 0.
Proof. intros Hl. apply (encode_head_spec blk d Hl 0); [unfold LOGSIZE, MAXOPBLOCKS|]; lia. Qed.

(** Outside the log, recovery leaves a logged block's copy or the block. *)
Lemma recovered_spec start size d x :
  head_ok start size d -> ~ in_log start size x ->
  (forall i, 0 <= i < head_n (d start) -> head_block (d start) i = x ->
     recovered start d x = d (start + i + 1))
  /\ ((forall i, 0 <= i < head_n (d start) -> head_block (d start) i <> x) ->
     recovered start d x = d x).
Proof.
  intros [[H1 H1'] H2 H3 H4] Hx. unfold recovered.
  assert (Hsx : start <> x) by (intros ->; apply Hx; unfold in_log; lia).
  assert (Hnd : NoDup (log_copies start d).*1).
  { rewrite log_copies_keys. apply NoDup_fmap_2_strong; [|apply NoDup_seqZ].
    intros i j Hi%elem_of_seqZ Hj%elem_of_seqZ. apply H4; lia. }
  rewrite apply_app, (apply_ne _ [(start, _)]) by (intros w ->%list_elem_of_singleton; done).
  split.
  - intros i Hi <-. apply apply_in; [done|]. unfold log_copies. apply list_elem_of_fmap.
    exists i. split; [done|]. apply elem_of_seqZ. lia.
  - intros Hn. apply apply_ne. intros w (i & -> & Hi%elem_of_seqZ)%list_elem_of_fmap. apply Hn. lia.
Qed.

(** A clean header: recovery changes nothing outside the log. *)
Lemma recovered_clean start size d x :
  head_n (d start) = 0 -> 0 < size -> ~ in_log start size x -> recovered start d x = d x.
Proof.
  intros Hn Hs Hx. unfold recovered, log_copies. rewrite Hn. apply apply_ne.
  intros w [Hw|Hw]%elem_of_app; [by apply not_elem_of_nil in Hw|].
  apply list_elem_of_singleton in Hw as ->. cbn. intros ->. apply Hx. unfold in_log. lia.
Qed.

(** Recovery may itself be cut short and run again: any prefix of its writes
    leaves a disk that recovers to the same contents. *)
Lemma recovered_prefix start size d tr1 tr2 x :
  head_ok start size d -> 0 < size ->
  log_copies start d ++ [(start, encode_head 0 [] (d start))] = tr1 ++ tr2 ->
  ~ in_log start size x ->
  recovered start (apply_writes d tr1) x = recovered start d x.
Proof.
  intros Hok Hs E Hx. pose proof Hok as [[H1 H1'] H2 H3 H4].
  set (d1 := apply_writes d tr1).
  assert (Hlen : forall i, 0 <= i < head_n (d start) -> in_log start size (start + i + 1))
    by (intros; unfold in_log; lia).
  assert (Hst : in_log start size start) by (unfold in_log; lia).
  destruct (decide (tr2 = [])) as [->|Hne2].
  { (* all of it: the header is clear *)
    rewrite app_nil_r in E. rewrite (recovered_clean start size d1) by (try done; unfold d1;
      rewrite <- E, apply_app; cbn; unfold apply_writes, upd; cbn; rewrite decide_True by done;
      by apply encode0_head).
    unfold d1. by rewrite <- E. }
  (* a prefix of the home writes: the header and the log blocks are intact *)
  assert (Hpre : exists tr3, log_copies start d = tr1 ++ tr3).
  { destruct (exists_last Hne2) as (tr3 & w & ->). rewrite app_assoc in E.
    apply app_inj_tail in E as [E _]. eauto. }
  destruct Hpre as (tr3 & E3).
  assert (Hhome : forall w, w ∈ tr1 -> ~ in_log start size w.1).
  { intros w Hw. assert (Hw' : w ∈ log_copies start d) by (rewrite E3; set_solver).
    apply list_elem_of_fmap in Hw' as (i & -> & Hi%elem_of_seqZ). apply H3. lia. }
  assert (Hlog : forall y, in_log start size y -> d1 y = d y).
  { intros y Hy. apply apply_ne. intros w Hw Ew. by apply (Hhome w Hw); rewrite Ew. }
  assert (Hds : d1 start = d start) by by apply Hlog.
  assert (Hok1 : head_ok start size d1) by (split; rewrite Hds; done).
  destruct (recovered_spec start size d x Hok Hx) as [R1 R2].
  destruct (recovered_spec start size d1 x Hok1 Hx) as [R3 R4]. rewrite Hds in R3, R4.
  destruct (decide (x ∈ (fun i => head_block (d start) i) <$> seqZ 0 (head_n (d start)))) as [Hin|Hin].
  - apply list_elem_of_fmap in Hin as (i & -> & Hi%elem_of_seqZ).
    rewrite (R1 i), (R3 i) by (done || lia). apply Hlog, Hlen. lia.
  - assert (Hni : forall i, 0 <= i < head_n (d start) -> head_block (d start) i <> x).
    { intros i Hi Ei. apply Hin, list_elem_of_fmap. exists i. split; [done|]. apply elem_of_seqZ. lia. }
    rewrite R2, R4 by done. apply apply_ne. intros w Hw.
    assert (Hw' : w ∈ log_copies start d) by (rewrite E3; set_solver).
    apply list_elem_of_fmap in Hw' as (i & -> & Hi%elem_of_seqZ). apply Hni. lia.
Qed.

(** ** The routines against their views *)
Section routines.
Context {S : Type} `{BlockLayer S}.
Implicit Types s : lgst S.

Definition set_hdr (n : Z) (blk : list Z) s : lgst S :=
  Lgst (lg_start s) (lg_size s) (lg_outstanding s) (lg_committing s)
    (lg_dev s) n blk (lg_bl s) (lg_trace s) (lg_wakes s) (lg_held s).

(** [write_head]: one write, of the header. *)
Lemma write_head_spec s v :
  at_view (lg_bl s) v -> lg_dev s = 1 -> v_held v = ∅ -> 0 <= lg_start s < v_size v ->
  (size (v_pinned v) < Z.to_nat NBUF)%nat ->
  let hdr := encode_head (lg_n s) (lg_block s) (v_content v (lg_start s)) in
  wp write_head (fun _ s' => exists bl, s' = set_bl bl (with_trace [(lg_start s, hdr)] s)
    /\ at_view bl (View (upd (v_content v) (lg_start s) hdr) (upd (v_disk v) (lg_start s) hdr) ∅
         (v_pinned v ∖ {[ lg_start s ]}) (v_size v))) s.
Proof.
  intros Hv Hd Hh Hst Hsz hdr. unfold write_head. wp_steps. rewrite Hd.
  apply (wp_bread s v); [done|done|rewrite Hh; set_solver|right; by rewrite Hh, (left_id_L ∅ (∪))|].
  intros h b1 V1 O1 _. wp_step. eapply wp_data_of; [exact V1|exact O1|]. wp_steps.
  eapply wp_bstore; [exact V1|exact O1|]. intros b2 V2 K2. apply K2 in O1. cbn in V2.
  wp_step. eapply wp_bwrite; [exact V2|exact O1|]. intros b3 V3 K3. apply K3 in O1. cbn in V3.
  assert (E1 : forall f d, upd f (lg_start s) d (lg_start s) = d)
    by (intros; unfold upd; by rewrite decide_True).
  eapply wp_brelse; [exact V3|exact O1| |].
  { right. cbn. by rewrite !E1. }
  intros b4 V4 _. exists b4. split.
  - unfold set_bl, add_trace, with_trace; cbn. by rewrite E1.
  - eapply at_view_eq; [exact V4|]. split; cbn; try done.
    + intros x. unfold upd. repeat split_decide; try done.
    + set_solver.
Qed.

(** The entries read by [read_head]. *)
Definition read_blocks (d : block) (n : Z) (blk : list Z) : list Z :=
  foldl (fun blk i => <[Z.to_nat i := head_block d i]> blk) blk (seqZ 0 n).

Lemma read_blocks_succ d k blk : 0 <= k ->
  read_blocks d (k + 1) blk = <[Z.to_nat k := head_block d k]> (read_blocks d k blk).
Proof. intros Hk. unfold read_blocks. rewrite seqZ_snoc, foldl_app by lia. by rewrite Z.add_0_l. Qed.

Lemma read_blocks_spec d n blk :
  length blk = Z.to_nat LOGSIZE -> 0 <= n <= LOGSIZE ->
  length (read_blocks d n blk) = Z.to_nat LOGSIZE
  /\ forall i, 0 <= i < n -> read_blocks d n blk !!! Z.to_nat i = head_block d i.
Proof.
  intros Hl Hn. rewrite <- (Z2Nat.id n) by lia.
  assert (Hj : (Z.to_nat n <= Z.to_nat LOGSIZE)%nat) by lia.
  generalize dependent (Z.to_nat n). clear Hn n. induction n as [|j IH]; intros Hj.
  - split; [done|lia].
  - rewrite Nat2Z.inj_succ. unfold Z.succ. rewrite read_blocks_succ by lia.
    destruct IH as [I1 I2]; [lia|]. split; [by rewrite length_insert|].
    intros i Hi. destruct (decide (i = Z.of_nat j)) as [->|Hne].
    + apply list_lookup_total_insert_eq. rewrite I1. lia.
    + rewrite list_lookup_total_insert_ne by lia. apply I2. lia.
Qed.

Lemma read_head_spec s v :
  at_view (lg_bl s) v -> lg_dev s = 1 -> v_held v = ∅ -> 0 <= lg_start s < v_size v ->
  (size (v_pinned v) < Z.to_nat NBUF)%nat ->
  lg_start s ∈ v_pinned v \/ v_content v (lg_start s) = v_disk v (lg_start s) ->
  let d := v_content v (lg_start s) in
  0 <= head_n d <= LOGSIZE ->
  wp read_head (fun _ s' => exists bl,
    s' = set_bl bl (set_hdr (head_n d) (read_blocks d (head_n d) (lg_block s)) s) /\ at_view bl v) s.
Proof.
  intros Hv Hd Hh Hst Hsz Hcl d Hn. unfold read_head. wp_steps. rewrite Hd.
  apply (wp_bread s v); [done|done|rewrite Hh; set_solver|right; by rewrite Hh, (left_id_L ∅ (∪))|].
  intros h b1 V1 O1 _. wp_step. eapply wp_data_of; [exact V1|exact O1|]. wp_steps.
  cbn [v_content]. fold d. cbn [lg_n set_n]. fold (head_n d).
  set (s1 := set_n (head_n d) (set_bl b1 s)).
  assert (Hw : wp (for_each (seqZ 0 (head_n d)) (fun i =>
      if i >=? LOGSIZE then undef "log.lh.block"
      else modify (set_block i (i32 (get32 d (Z.to_nat (4 + 4 * i)))))))
    (fun _ s' => s' = set_hdr (head_n d) (read_blocks d (Z.of_nat (length (seqZ 0 (head_n d)))) (lg_block s)) s1) s1).
  { apply (wp_for_each (seqZ 0 (head_n d)) _ (fun k s' => s' = set_hdr (head_n d) (read_blocks d (Z.of_nat k) (lg_block s)) s1)).
    - done.
    - intros k i s' Hk ->. apply lookup_seqZ in Hk as [-> Hk]. rewrite Z.add_0_l.
      rewrite Z.geb_leb. replace (LOGSIZE <=? Z.of_nat k) with false by lia.
      apply wp_modify. rewrite Nat2Z.inj_succ. unfold Z.succ. rewrite read_blocks_succ by lia. done. }
  rewrite length_seqZ, Z2Nat.id in Hw by lia.
  eapply wp_mono; [exact Hw|]. intros [] s' ->.
  eapply wp_brelse; [exact V1|exact O1|exact Hcl|].
  intros b2 V2 _. exists b2. split; [done|]. eapply at_view_eq; [exact V2|].
  split; cbn; try done. set_solver.
Qed.

(** [install_trans] and [write_log] as sequences of copies. *)
Definition logblk s (i : Z) : Z := lg_start s + i + 1.
Definition homeblk s (i : Z) : Z := lg_block s !!! Z.to_nat i.

(** The geometry both loops need: distinct home blocks outside the log area. *)
Record geometry s (v : view) : Prop := Geometry {
  gm_dev : lg_dev s = 1;
  gm_n : 0 <= lg_n s < lg_size s;
  gm_area : 0 <= lg_start s /\ lg_start s + lg_size s <= v_size v;
  gm_home : forall i, 0 <= i < lg_n s ->
    ~ in_log (lg_start s) (lg_size s) (homeblk s i) /\ 0 <= homeblk s i < v_size v;
  gm_inj : forall i j, 0 <= i < lg_n s -> 0 <= j < lg_n s -> homeblk s i = homeblk s j -> i = j;
  gm_held : v_held v = ∅;
  gm_room : (size (v_pinned v) < Z.to_nat NBUF)%nat }.

Lemma logblk_in s v i : geometry s v -> 0 <= i < lg_n s -> in_log (lg_start s) (lg_size s) (logblk s i).
Proof. intros G Hi. pose proof (gm_n _ _ G). unfold in_log, logblk. lia. Qed.

Lemma install_trans_spec s v :
  geometry s v -> at_view (lg_bl s) v ->
  (forall i, 0 <= i < lg_n s -> logblk s i ∈ v_pinned v \/ v_content v (logblk s i) = v_disk v (logblk s i)) ->
  (forall i, 0 <= i < lg_n s -> homeblk s i ∈ v_pinned v \/ (Datatypes.S (size (v_pinned v)) < Z.to_nat NBUF)%nat) ->
  wp install_trans (fun _ s' => exists bl,
      s' = set_bl bl (with_trace (writes (logblk s) (homeblk s) v (lg_n s)) s)
      /\ at_view bl (copied_view (logblk s) (homeblk s) v (lg_n s))) s.
Proof.
  intros G Hv Hcl Hr. pose proof (gm_n _ _ G). pose proof (gm_area _ _ G).
  unfold install_trans. wp_steps. apply copies; try done.
  - lia.
  - intros i j Hi Hj E. pose proof (logblk_in s v i G Hi). rewrite E in *. by destruct (gm_home _ _ G j Hj).
  - apply (gm_inj _ _ G).
  - intros i Hi. pose proof (logblk_in s v i G Hi) as Hl. unfold in_log in Hl.
    split; [lia|]. apply (gm_home _ _ G i Hi).
  - apply (gm_held _ _ G).
  - apply (gm_room _ _ G).
  - intros i Hi. right. by apply Hr.
  - intros i s1 v1 Hi E1 E2 E3 Hv1 Hc. do 3 apply wp_bind, wp_gets. rewrite E1, E2, E3, (gm_dev _ _ G). by apply copy_install.
Qed.

Lemma write_log_spec s v :
  geometry s v -> at_view (lg_bl s) v ->
  (forall i, 0 <= i < lg_n s -> homeblk s i ∈ v_pinned v) ->
  wp write_log (fun _ s' => exists bl,
      s' = set_bl bl (with_trace (writes (homeblk s) (logblk s) v (lg_n s)) s)
      /\ at_view bl (copied_view (homeblk s) (logblk s) v (lg_n s))) s.
Proof.
  intros G Hv Hp. pose proof (gm_n _ _ G). pose proof (gm_area _ _ G).
  unfold write_log. wp_steps. apply copies; try done.
  - lia.
  - intros i j Hi Hj E. pose proof (logblk_in s v j G Hj). rewrite <- E in *. by destruct (gm_home _ _ G i Hi).
  - unfold logblk. lia.
  - intros i Hi. pose proof (logblk_in s v i G Hi) as Hl. unfold in_log in Hl.
    split; [|lia]. apply (gm_home _ _ G i Hi).
  - apply (gm_held _ _ G).
  - intros i Hi. left. by apply Hp.
  - apply (gm_room _ _ G).
  - intros i Hi. left. by apply Hp.
  - intros i s1 v1 Hi E1 E2 E3 Hv1 Hc. do 3 apply wp_bind, wp_gets. rewrite E1, E2, E3, (gm_dev _ _ G). by apply copy_log.
Qed.
End routines.

Section commit.
Context {S : Type} `{BlockLayer S}.
Context (s : lgst S) (v : view).

(** The writes of [commit], in order. *)
Definition commit_head : block :=
  encode_head (lg_n s) (lg_block s) (v_content v (lg_start s)).
Definition home_writes : list (Z * block) :=
  (fun i => (homeblk s i, v_content v (homeblk s i))) <$> seqZ 0 (lg_n s).
Definition commit_trace : list (Z * block) :=
  writes (homeblk s) (logblk s) v (lg_n s) ++ [(lg_start s, commit_head)]
  ++ home_writes ++ [(lg_start s, encode_head 0 (lg_block s) commit_head)].

(** When [commit] runs: the home blocks are pinned in the cache, nothing else
    is dirty, the log area on disk is as the cache has it. *)
Record commit_pre : Prop := CommitPre {
  cm_geom : geometry s v;
  cm_n : 0 < lg_n s <= LOGSIZE;
  cm_view : at_view (lg_bl s) v;
  cm_pinned : forall x, x ∈ v_pinned v <-> exists i, 0 <= i < lg_n s /\ x = homeblk s i;
  cm_clean : forall x, x ∉ v_pinned v -> v_content v x = v_disk v x;
  cm_len : length (v_content v (lg_start s)) = 512%nat;
  cm_bounds : forall i, 0 <= i < lg_n s -> homeblk s i < 2147483648 }.

Hypothesis HP : commit_pre.

Lemma log_not_pinned x : in_log (lg_start s) (lg_size s) x -> x ∉ v_pinned v.
Proof.
  intros Hx (i & Hi & ->)%(cm_pinned HP). by destruct (gm_home _ _ (cm_geom HP) i Hi).
Qed.

Lemma start_in_log : in_log (lg_start s) (lg_size s) (lg_start s).
Proof. pose proof (gm_n _ _ (cm_geom HP)). pose proof (cm_n HP). unfold in_log. lia. Qed.

Lemma writes_log_keys : NoDup (writes (homeblk s) (logblk s) v (lg_n s)).*1.
Proof.
  unfold writes. rewrite <- list_fmap_compose. apply NoDup_fmap_2; [|apply NoDup_seqZ].
  intros i j. cbn. unfold logblk. lia.
Qed.

Lemma home_keys : NoDup home_writes.*1.
Proof.
  unfold home_writes. rewrite <- list_fmap_compose. apply NoDup_fmap_2_strong; [|apply NoDup_seqZ].
  intros i j Hi%elem_of_seqZ Hj%elem_of_seqZ. cbn. apply (gm_inj _ _ (cm_geom HP)); lia.
Qed.

Lemma after_write_log f i :
  0 <= i < lg_n s ->
  apply_writes f (writes (homeblk s) (logblk s) v (lg_n s)) (logblk s i) = v_content v (homeblk s i).
Proof.
  intros Hi. apply apply_in; [apply writes_log_keys|]. apply elem_writes.
  exists i. split; [exact Hi|reflexivity].
Qed.

Lemma write_log_elsewhere f x :
  (x = lg_start s \/ ~ in_log (lg_start s) (lg_size s) x) ->
  apply_writes f (writes (homeblk s) (logblk s) v (lg_n s)) x = f x.
Proof.
  intros Hx. apply apply_ne. intros w (i & Hi & ->)%elem_writes. cbn. intros E.
  pose proof (logblk_in s v i (cm_geom HP) Hi) as Hin. destruct Hx as [->|Hx].
  - unfold logblk in E. lia.
  - by rewrite E in Hin.
Qed.

Lemma logblk_ne_start i : 0 <= i -> logblk s i <> lg_start s.
Proof. unfold logblk. lia. Qed.

(** The view between the header write and the installation. *)
Definition logged_view : view :=
  View (upd (apply_writes (v_content v) (writes (homeblk s) (logblk s) v (lg_n s))) (lg_start s) commit_head)
       (upd (apply_writes (v_disk v) (writes (homeblk s) (logblk s) v (lg_n s))) (lg_start s) commit_head)
       ∅ (v_pinned v) (v_size v).

Lemma logged_content i : 0 <= i < lg_n s ->
  v_content logged_view (logblk s i) = v_content v (homeblk s i)
  /\ v_disk logged_view (logblk s i) = v_content v (homeblk s i).
Proof.
  intros Hi. cbn. unfold upd. rewrite !decide_False by (apply logblk_ne_start; lia).
  by rewrite !after_write_log.
Qed.

Lemma install_writes : writes (logblk s) (homeblk s) logged_view (lg_n s) = home_writes.
Proof.
  unfold writes, home_writes. apply list_fmap_ext. intros k i Hi.
  apply lookup_seqZ in Hi as [-> Hk].
  destruct (logged_content (0 + Z.of_nat k)) as [E _]; [lia|]. by rewrite E.
Qed.

Lemma commit_correct :
  wp commit (fun _ s' => exists bl, s' = set_bl bl (set_n 0 (with_trace commit_trace s))
    /\ at_view bl (View (apply_writes (v_content v) commit_trace)
                        (apply_writes (v_disk v) commit_trace) ∅ ∅ (v_size v))) s.
Proof.
  pose proof (cm_geom HP) as G. pose proof (cm_n HP) as Hn. pose proof start_in_log as Hst.
  unfold commit. wp_steps. replace (lg_n s >? 0) with true by lia. cbn [when].
  apply wp_bind. eapply wp_mono;
    [apply (write_log_spec s v G (cm_view HP)); intros i Hi; apply (cm_pinned HP); eauto|].
  intros [] s1 (b1 & -> & V1). cbn beta.
  assert (V1' : at_view b1 (View (apply_writes (v_content v) (writes (homeblk s) (logblk s) v (lg_n s)))
       (apply_writes (v_disk v) (writes (homeblk s) (logblk s) v (lg_n s))) ∅ (v_pinned v) (v_size v))).
  { eapply at_view_eq; [exact V1|]. split; cbn; try done. apply set_eq. intros x.
    rewrite elem_of_difference, elem_targets. split; [tauto|]. intros Hx. split; [done|].
    intros (i & Hi & ->). by apply (log_not_pinned (logblk s i)), Hx; apply (logblk_in s v). }
  apply wp_bind. eapply wp_mono; [eapply write_head_spec; [exact V1'|..]|].
  { apply (gm_dev _ _ G). } { done. }
  { pose proof (gm_area _ _ G). pose proof (gm_n _ _ G). cbn. lia. } { apply (gm_room _ _ G). }
  intros [] s2 (b2 & -> & V2). cbn beta. cbn [v_content lg_start lg_n lg_block set_bl with_trace] in *.
  rewrite (write_log_elsewhere (v_content v)) in * by (by left). fold commit_head in *.
  assert (V2' : at_view b2 logged_view).
  { eapply at_view_eq; [exact V2|]. split; cbn; try done.
    apply set_eq. intros x. rewrite elem_of_difference, elem_of_singleton. split; [tauto|].
    intros Hx. split; [done|]. intros ->. by apply (log_not_pinned (lg_start s)). }
  clear V1 V1' V2. set (s2 := set_bl b2 _).
  assert (G2 : geometry s2 logged_view).
  { destruct G. split; try done. }
  apply wp_bind. eapply wp_mono; [apply (install_trans_spec s2 logged_view G2 V2')|].
  { intros i Hi. right. destruct (logged_content i Hi) as [E1 E2].
    change (logblk s2 i) with (logblk s i). by rewrite E1, E2. }
  { intros i Hi. left. apply (cm_pinned HP). by exists i. }
  intros [] s3 (b3 & -> & V3). cbn beta.
  change (writes (logblk s2) (homeblk s2) logged_view (lg_n s2))
    with (writes (logblk s) (homeblk s) logged_view (lg_n s)) in *. rewrite install_writes in *.
  apply wp_bind, wp_modify.
  assert (V3' : at_view b3 (View (apply_writes (v_content logged_view) home_writes)
                  (apply_writes (v_disk logged_view) home_writes) ∅ ∅ (v_size v))).
  { eapply at_view_eq; [exact V3|]. unfold copied_view.
    change (writes (logblk s2) (homeblk s2) logged_view (lg_n s2))
      with (writes (logblk s) (homeblk s) logged_view (lg_n s)). rewrite install_writes.
    split; cbn; try done. apply set_eq. intros x. rewrite elem_of_difference, elem_targets, (cm_pinned HP).
    split; [tauto|set_solver]. }
  clear V3. eapply wp_mono; [eapply write_head_spec; [exact V3'|..]|].
  { apply (gm_dev _ _ G). } { done. }
  { pose proof (gm_area _ _ G). pose proof (gm_n _ _ G). cbn. lia. } { cbn. rewrite size_empty. unfold NBUF, MAXOPBLOCKS. lia. }
  intros [] s4 (b4 & -> & V4). exists b4. cbn [v_content v_disk lg_start lg_n lg_block set_bl set_n with_trace] in *.
  assert (Hh : apply_writes (v_content logged_view) home_writes (lg_start s) = commit_head).
  { rewrite apply_ne.
    - cbn. unfold upd. by rewrite decide_True.
    - intros w (i & -> & Hi%elem_of_seqZ)%list_elem_of_fmap. cbn. intros E.
      destruct (gm_home _ _ G i) as [Hx _]; [lia|]. by rewrite E in Hx. }
  change (lg_start s2) with (lg_start s) in *. change (lg_block s2) with (lg_block s) in *.
  change (v_content logged_view) with (upd (apply_writes (v_content v) (writes (homeblk s) (logblk s) v (lg_n s))) (lg_start s) commit_head) in *.
  rewrite Hh in *. split.
  - unfold set_bl, set_n, with_trace, commit_trace; cbn. by rewrite <- !app_assoc.
  - eapply at_view_eq; [exact V4|]. unfold commit_trace.
    split; cbn; [| |done|set_solver|done]; intros x;
      by rewrite apply_app, apply_cons, apply_app.
Qed.
End commit.

Section recover.
Context {S : Type} `{BlockLayer S}.
Context (s : lgst S) (v : view).

(** The state in which [initlog] runs recovery: a cache that agrees with the
    disk, and a header the log wrote. *)
Record recover_pre : Prop := RecoverPre {
  rc_view : at_view (lg_bl s) v;
  rc_dev : lg_dev s = 1;
  rc_held : v_held v = ∅;
  rc_pinned : v_pinned v = ∅;
  rc_same : forall x, v_content v x = v_disk v x;
  rc_head : head_ok (lg_start s) (lg_size s) (v_disk v);
  rc_area : 0 <= lg_start s /\ 0 < lg_size s /\ lg_start s + lg_size s <= v_size v;
  rc_home : forall i, 0 <= i < head_n (v_disk v (lg_start s)) ->
    0 <= head_block (v_disk v (lg_start s)) i < v_size v;
  rc_blk : length (lg_block s) = Z.to_nat LOGSIZE }.

Hypothesis HP : recover_pre.
Let d := v_disk v.
Let n := head_n (d (lg_start s)).

Lemma recover_correct :
  wp recover_from_log (fun _ s' => exists bl blk,
    s' = set_bl bl (set_hdr 0 blk
           (with_trace (log_copies (lg_start s) d ++ [(lg_start s, encode_head 0 [] (d (lg_start s)))]) s))
    /\ at_view bl (View (recovered (lg_start s) d) (recovered (lg_start s) d) ∅ ∅ (v_size v))) s.
Proof.
  destruct HP as [R1 R2 R3 R4 R5 R6 R7 R8 R9]. pose proof R6 as [[Hn Hn'] Hlen Hhome Hinj].
  assert (Hsz : (size (v_pinned v) < Z.to_nat NBUF)%nat) by (rewrite R4; vm_compute; lia).
  unfold n, d. clear n d. unfold recover_from_log. apply wp_bind.
  set (d := v_disk v) in *. set (n := head_n (d (lg_start s))) in *.
  eapply wp_mono; [apply (read_head_spec s v R1 R2 R3); [lia|done|right; by rewrite R5|rewrite R5; exact Hn]|].
  intros [] s1 (b1 & -> & V1). rewrite R5. fold d. fold n.
  destruct (read_blocks_spec (d (lg_start s)) n (lg_block s) R9 Hn) as [Hl1 Hb1].
  set (blk1 := read_blocks (d (lg_start s)) n (lg_block s)) in *.
  set (s1 := set_bl b1 _).
  assert (G1 : geometry s1 v).
  { split; cbn; try done.
    - lia.
    - lia.
    - intros i Hi. unfold homeblk; cbn. rewrite Hb1 by done. split; [by apply Hhome|by apply R8].
    - intros i j Hi Hj. unfold homeblk; cbn. rewrite !Hb1 by done. by apply Hinj. }
  apply wp_bind. eapply wp_mono; [apply (install_trans_spec s1 v G1 V1)|].
  { intros i Hi. right. apply R5. }
  { intros i Hi. right. rewrite R4. vm_compute. lia. }
  intros [] s2 (b2 & -> & V2).
  assert (Ew : writes (logblk s1) (homeblk s1) v (lg_n s1) = log_copies (lg_start s) d).
  { unfold writes, log_copies. apply list_fmap_ext. intros k i Hi. apply lookup_seqZ in Hi as [-> Hk].
    unfold homeblk, logblk; cbn. rewrite Hb1 by (cbn in Hk; lia). rewrite R5. done. }
  assert (V2' : at_view b2 (View (apply_writes d (log_copies (lg_start s) d))
                (apply_writes d (log_copies (lg_start s) d)) ∅ ∅ (v_size v))).
  { eapply at_view_eq; [exact V2|]. unfold copied_view. rewrite Ew. split; cbn; try done.
    - intros x. apply apply_ext. done.
    - rewrite R4. set_solver. }
  clear V2. rewrite Ew. apply wp_bind, wp_modify.
  eapply wp_mono; [eapply write_head_spec; [exact V2'|done|done|cbn; lia|vm_compute; lia]|].
  intros [] s3 (b3 & -> & V3). cbn [v_content v_disk lg_start lg_n lg_block set_bl set_n with_trace set_hdr s1] in *.
  assert (Hd : apply_writes d (log_copies (lg_start s) d) (lg_start s) = d (lg_start s)).
  { apply apply_ne. intros w (i & -> & Hi%elem_of_seqZ)%list_elem_of_fmap. cbn. intros E.
    apply (Hhome i); [unfold n; lia|]. rewrite E. unfold in_log. lia. }
  rewrite Hd in V3 |- *. exists b3, blk1. split.
  - unfold set_bl, set_n, set_hdr, with_trace; cbn. by rewrite <- !app_assoc.
  - eapply at_view_eq; [exact V3|]. unfold recovered.
    split; cbn; [| |done|set_solver|done]; intros x; by rewrite apply_app.
Qed.
End recover.

(** ** Atomicity *)
Section atomicity.
Context {S : Type} `{BlockLayer S}.
Context (s : lgst S) (v : view).
Hypothesis HP : commit_pre s v.
Hypothesis Hclean : head_n (v_disk v (lg_start s)) = 0.
Let start := lg_start s.
Let n := lg_n s.

(** After the header is on the disk, the disk describes the transaction. *)
Definition committed_disk : Z -> block :=
  upd (apply_writes (v_disk v) (writes (homeblk s) (logblk s) v n)) start (commit_head s v).

Lemma commit_head_spec :
  length (commit_head s v) = 512%nat /\ head_n (commit_head s v) = n
  /\ forall i, 0 <= i < n -> head_block (commit_head s v) i = homeblk s i.
Proof.
  apply encode_head_spec; [apply (cm_len _ _ HP)|pose proof (cm_n _ _ HP); unfold n; lia|].
  intros i Hi. destruct (gm_home _ _ (cm_geom _ _ HP) i Hi) as [_ ?].
  pose proof (cm_bounds _ _ HP i Hi). unfold homeblk in *. lia.
Qed.

Lemma committed_start : committed_disk start = commit_head s v.
Proof. unfold committed_disk, upd. by rewrite decide_True. Qed.

Lemma committed_ok : head_ok start (lg_size s) committed_disk.
Proof.
  destruct commit_head_spec as (H1 & H2 & H3). pose proof (cm_geom _ _ HP) as G.
  pose proof (gm_n _ _ G). pose proof (cm_n _ _ HP).
  split; rewrite committed_start, ?H2; [unfold n in *; lia|done| |].
  - intros i Hi. rewrite H3 by done. by apply (gm_home _ _ G).
  - intros i j Hi Hj. rewrite !H3 by done. by apply (gm_inj _ _ G).
Qed.

Lemma committed_copies : log_copies start committed_disk = home_writes s v.
Proof.
  destruct commit_head_spec as (H1 & H2 & H3). unfold log_copies, home_writes.
  rewrite committed_start, H2. apply list_fmap_ext. intros k i Hi. apply lookup_seqZ in Hi as [-> Hk].
  rewrite H3 by lia. destruct (logged_content s v (0 + Z.of_nat k)) as [_ E]; [unfold n in Hk; lia|].
  f_equal. exact E.
Qed.

Lemma committed_recovers x :
  ~ in_log start (lg_size s) x -> recovered start committed_disk x = v_content v x.
Proof.
  intros Hx. destruct commit_head_spec as (H1 & H2 & H3).
  destruct (recovered_spec start (lg_size s) committed_disk x committed_ok Hx) as [R1 R2].
  rewrite committed_start, H2 in R1, R2. destruct (decide (x ∈ v_pinned v)) as [Hp|Hp].
  - apply (cm_pinned _ _ HP) in Hp as (i & Hi & ->). rewrite (R1 i Hi) by (by rewrite H3).
    by destruct (logged_content s v i Hi) as [_ E].
  - rewrite R2.
    + unfold committed_disk, upd. rewrite decide_False.
      * rewrite (write_log_elsewhere s v HP) by (by right). by rewrite (cm_clean _ _ HP).
      * intros ->. by apply Hx, (start_in_log s v HP).
    + intros i Hi E. rewrite H3 in E by done. apply Hp. rewrite <- E. apply (cm_pinned _ _ HP). by exists i.
Qed.

(** Every crash point of a commit. *)
Lemma crash_points tr1 tr2 :
  commit_trace s v = tr1 ++ tr2 ->
  (forall x, ~ in_log start (lg_size s) x -> recovered start (apply_writes (v_disk v) tr1) x = v_disk v x)
  \/ (forall x, ~ in_log start (lg_size s) x ->
       recovered start (apply_writes (v_disk v) tr1) x = v_content v x).
Proof.
  intros E. unfold commit_trace in E. pose proof (cm_geom _ _ HP) as G.
  pose proof (gm_n _ _ G) as Hn.
  apply app_eq_inv in E as [(k & E1 & E2)|(k & E1 & E2)].
  - (* nothing but log blocks written *)
    left. intros x Hx.
    assert (Hel : forall y, y = start \/ ~ in_log start (lg_size s) y ->
      apply_writes (v_disk v) tr1 y = v_disk v y).
    { intros y Hy. apply apply_ne. intros w Hw Ew.
      assert (Hw' : w ∈ writes (homeblk s) (logblk s) v (lg_n s)) by (rewrite E1; set_solver).
      apply elem_writes in Hw' as (i & Hi & ->). cbn in Ew. pose proof (logblk_in s v i G Hi) as Hin.
      destruct Hy as [->|Hy]; [unfold logblk, start in Ew; lia|]. by rewrite Ew in Hin. }
    rewrite (recovered_clean start (lg_size s)); [apply Hel; by right| |lia|done].
    rewrite Hel by (by left). exact Hclean.
  - destruct k as [|w k].
    { (* the log blocks exactly: as above *)
      cbn in E2. left. intros x Hx. rewrite app_nil_r in E1. subst tr1.
      rewrite (recovered_clean start (lg_size s)); [|by rewrite (write_log_elsewhere s v HP) by (by left)|lia|done].
      by rewrite (write_log_elsewhere s v HP) by (by right). }
    (* the header is on the disk *)
    right. intros x Hx. cbn in E2. injection E2 as <- E2.
    rewrite <- (committed_recovers x Hx). subst tr1.
    assert (Ea : forall y, apply_writes (v_disk v)
       (writes (homeblk s) (logblk s) v (lg_n s) ++ (lg_start s, commit_head s v) :: k) y
       = apply_writes committed_disk k y).
    { intros y. rewrite apply_app, apply_cons. reflexivity. }
    transitivity (recovered start (apply_writes committed_disk k) x).
    { unfold recovered, log_copies. rewrite (Ea start).
      rewrite !apply_app. rewrite !(apply_ne _ [(start, _)]) by
        (intros w ->%list_elem_of_singleton; intros <-; by apply Hx, (start_in_log s v HP)).
      erewrite list_fmap_ext; [by apply apply_ext|]. intros j i _. by rewrite Ea. }
    eapply (recovered_prefix start (lg_size s)); [apply committed_ok|lia| |done].
    rewrite committed_copies, committed_start. exact E2.
Qed.
End atomicity.

(** ** Reservation of log space *)
Section space.
Context {S : Type} `{BlockLayer S}.
Implicit Types s : lgst S.

(** The entries of the header in memory. *)
Definition entries s : list Z := (fun i => lg_block s !!! Z.to_nat i) <$> seqZ 0 (lg_n s).

(** Every running operation can still log [MAXOPBLOCKS] blocks. *)
Definition reserved s : Prop := lg_n s + lg_outstanding s * MAXOPBLOCKS <= LOGSIZE.

Lemma begin_op_eq s :
  Llog ∉ lg_held s ->
  begin_op_run s
  = if truth (lg_committing s) || (lg_n s + (lg_outstanding s + 1) * MAXOPBLOCKS >? LOGSIZE)
    then Done false s else Done true (set_outstanding (lg_outstanding s + 1) s).
Proof.
  intros Hl. unfold begin_op_run, mbind, M_bind, gets, modify, mret, M_ret.
  rewrite acquire_free by done. cbn. destruct s as [st sz out cm dv n blk bl tr wk L]; cbn in *.
  destruct (truth cm); cbn.
  - by erewrite (release_top Llog L).
  - destruct (_ >? LOGSIZE); by erewrite (release_top Llog L).
Qed.

Lemma find_entry_in n blk b :
  0 <= n -> b ∈ (fun i => blk !!! Z.to_nat i) <$> seqZ 0 n ->
  0 <= find_entry n blk b < n /\ blk !!! Z.to_nat (find_entry n blk b) = b.
Proof.
  intros Hn Hb. apply list_elem_of_fmap in Hb as (i & -> & Hi).
  unfold find_entry. set (P := fun j => blk !!! Z.to_nat j = blk !!! Z.to_nat i).
  assert (Hin : i ∈ filter P (seqZ 0 n)) by by apply list_elem_of_filter.
  destruct (filter P (seqZ 0 n)) as [|j L] eqn:E; [set_solver|].
  assert (Hj : j ∈ filter P (seqZ 0 n)) by (rewrite E; by left).
  apply list_elem_of_filter in Hj as [Hj1 Hj2%elem_of_seqZ]. split; [lia|exact Hj1].
Qed.

Lemma find_entry_out n blk b :
  b ∉ (fun i => blk !!! Z.to_nat i) <$> seqZ 0 n -> find_entry n blk b = n.
Proof.
  intros Hb. unfold find_entry. set (P := fun j => blk !!! Z.to_nat j = b).
  destruct (filter P (seqZ 0 n)) as [|j L] eqn:E; [done|].
  assert (Hj : j ∈ filter P (seqZ 0 n)) by (rewrite E; by left).
  apply list_elem_of_filter in Hj as [Hj1 Hj2]. destruct Hb. apply list_elem_of_fmap. by exists j.
Qed.

(** [log_write] within the limits: the block is pinned and entered once. *)
Lemma log_write_spec s v h b :
  at_view (lg_bl s) v -> bl_owns (lg_bl s) h b -> Llog ∉ lg_held s ->
  0 <= lg_n s < LOGSIZE -> lg_n s < lg_size s - 1 -> 1 <= lg_outstanding s ->
  length (lg_block s) = Z.to_nat LOGSIZE ->
  exists bl n' blk', log_write h s = Done tt (set_hdr n' blk' (set_bl bl s))
    /\ at_view bl (View (v_content v) (v_disk v) (v_held v) ({[ b ]} ∪ v_pinned v) (v_size v))
    /\ (forall h' b', bl_owns bl h' b' <-> bl_owns (lg_bl s) h' b')
    /\ length blk' = Z.to_nat LOGSIZE
    /\ (fun i => blk' !!! Z.to_nat i) <$> seqZ 0 n'
       = (if decide (b ∈ entries s) then entries s else entries s ++ [b]).
Proof.
  intros Hv Ho Hl Hn Hsz Hout Hlen. pose proof Hv as [Hok [V1 V2 V3 V4 V5]].
  destruct (bl_data _ _ _ Hok Ho) as (_ & Ebn & _ & _).
  destruct (bl_bpin (lg_bl s) h b Hok Ho) as (bl & E & Hok' & Ho' & [W1 W2 W3 W4 W5]).
  assert (Hv' : at_view bl (View (v_content v) (v_disk v) (v_held v) ({[ b ]} ∪ v_pinned v) (v_size v))).
  { split; [done|]. cbn in *. split; cbn; intros; rewrite ?W1, ?W2, ?W3, ?W4, ?W5; congruence || done. }
  set (i := find_entry (lg_n s) (lg_block s) b).
  exists bl, (if i =? lg_n s then lg_n s + 1 else lg_n s), (<[Z.to_nat i := b]> (lg_block s)).
  split; [|split; [exact Hv'|split; [exact Ho'|split; [by rewrite length_insert|]]]].
  - unfold log_write, mbind, M_bind, gets, modify, mret, M_ret, lift, zoom.
    replace (_ || _) with false by (rewrite !Z.geb_leb; lia).
    replace (lg_outstanding s <? 1) with false by lia.
    rewrite acquire_free by done.
    destruct s as [st sz out cm dv n blk bl0 tr wk L]; cbn in *. rewrite Ebn. fold i.
    destruct (i =? n); cbn; rewrite E; cbn; by erewrite (release_top Llog L).
  - unfold entries. split_decide as [Hin|Hni].
    + destruct (find_entry_in _ _ _ (proj1 Hn) Hin) as [Hi1 Hi2]. fold i in Hi1, Hi2.
      replace (i =? lg_n s) with false by lia. apply list_fmap_ext. intros k j Hj.
      apply lookup_seqZ in Hj as [-> Hk]. destruct (decide (0 + Z.of_nat k = i)) as [->|Hne].
      * rewrite Hi2. apply list_lookup_total_insert_eq. lia.
      * apply list_lookup_total_insert_ne. lia.
    + pose proof (find_entry_out _ _ _ Hni) as Ei. fold i in Ei. rewrite Ei, Z.eqb_refl.
      rewrite seqZ_snoc, fmap_app by lia. cbn. rewrite Z.add_0_l, list_lookup_total_insert_eq by lia.
      f_equal. apply list_fmap_ext. intros k j Hj. apply lookup_seqZ in Hj as [-> Hk].
      apply list_lookup_total_insert_ne. lia.
Qed.
End space.
