(* ===== verification/LogTheorems.v ===== *)
(** * Theorems about the log, and their instances

    The transaction guarantees of [log.c] for every block layer, instantiated
    at the in-memory one with a transaction of two blocks. *)
From S2P Require Import Prelude Layout Locks Blocks BlockMem Log LogSpec LogCrash.

Section end_op.
Context {S : Type} `{BlockLayer S}.
Implicit Types s : lgst S.

Definition add_wake s : lgst S :=
  Lgst (lg_start s) (lg_size s) (lg_outstanding s) (lg_committing s)
    (lg_dev s) (lg_n s) (lg_block s) (lg_bl s) (lg_trace s) (Datatypes.S (lg_wakes s)) (lg_held s).

Lemma end_op_not_last s :
  Llog ∉ lg_held s -> lg_committing s = 0 -> lg_outstanding s <> 1 ->
  end_op s = Done tt (add_wake (set_outstanding (lg_outstanding s - 1) s)).
Proof.
  intros Hl Hc Ho. unfold end_op, wakeup_log, mbind, M_bind, gets, modify, mret, M_ret.
  rewrite acquire_free by done. destruct s as [st sz out cm dv n blk bl tr wk L]; cbn in *.
  rewrite Hc. cbn. replace (out - 1 =? 0) with false by lia. cbn.
  by erewrite (release_top Llog L).
Qed.

Lemma end_op_last s (Q : lgst S -> Prop) :
  Llog ∉ lg_held s -> lg_committing s = 0 -> lg_outstanding s = 1 ->
  wp commit (fun _ s' => lg_held s' = lg_held s /\ Q (add_wake (set_committing 0 s')))
    (set_committing 1 (set_outstanding 0 s)) ->
  wp end_op (fun _ s' => Q s') s.
Proof.
  intros Hl Hc Ho Hw. apply wp_inv in Hw as ([] & s' & E & Hh & HQ).
  unfold wp, end_op, wakeup_log, mbind, M_bind, gets, modify, mret, M_ret.
  rewrite acquire_free by done. destruct s as [st sz out cm dv n blk bl tr wk L]; cbn in *.
  rewrite Ho, Hc in *. change (truth 0) with false. rewrite Z.sub_diag. change (0 =? 0) with true. cbn.
  erewrite (release_top Llog L) by done. cbn.
  unfold set_committing, set_outstanding in E |- *. cbn in E |- *. rewrite E.
  destruct s' as [st' sz' out' cm' dv' n' blk' bl' tr' wk' L']; cbn in *. subst L'.
  rewrite acquire_free by done. cbn.
  erewrite (release_top Llog L) by done. exact HQ.
Qed.

Lemma commit_pre_outstanding s v o c :
  commit_pre s v -> commit_pre (set_committing c (set_outstanding o s)) v.
Proof. intros [[] ? ? ? ? ? ?]. split; [split; assumption|assumption..]. Qed.
End end_op.

(** (C2) Crash atomicity: [end_op] of the last running operation commits the
    transaction, and for every prefix of the block writes it issues, recovery
    from the disk at that point restores either every block outside the log as
    before the transaction or every block as the transaction left it. *)
Theorem log_crash_atomic {S} `{BlockLayer S} (s : lgst S) v :
  commit_pre s v -> head_n (v_disk v (lg_start s)) = 0 ->
  Llog ∉ lg_held s -> lg_committing s = 0 -> lg_outstanding s = 1 ->
  exists s', end_op s = Done tt s' /\ lg_trace s' = lg_trace s ++ commit_trace s v
    /\ lg_n s' = 0 /\ lg_outstanding s' = 0
    /\ at_view (lg_bl s') (View (apply_writes (v_content v) (commit_trace s v))
                                (apply_writes (v_disk v) (commit_trace s v)) ∅ ∅ (v_size v))
    /\ forall tr1 tr2, commit_trace s v = tr1 ++ tr2 ->
       (forall x, ~ in_log (lg_start s) (lg_size s) x ->
          recovered (lg_start s) (apply_writes (v_disk v) tr1) x = v_disk v x)
       \/ (forall x, ~ in_log (lg_start s) (lg_size s) x ->
          recovered (lg_start s) (apply_writes (v_disk v) tr1) x = v_content v x).
Proof.
  intros HP Hc Hl Hcm Ho.
  assert (Hw : wp end_op (fun _ s' => lg_trace s' = lg_trace s ++ commit_trace s v
    /\ lg_n s' = 0 /\ lg_outstanding s' = 0
    /\ at_view (lg_bl s') (View (apply_writes (v_content v) (commit_trace s v))
         (apply_writes (v_disk v) (commit_trace s v)) ∅ ∅ (v_size v))) s).
  { apply (end_op_last s (fun s' => lg_trace s' = lg_trace s ++ commit_trace s v
      /\ lg_n s' = 0 /\ lg_outstanding s' = 0 /\ at_view (lg_bl s') _)); [done..|].
    eapply wp_mono; [apply (commit_correct _ _ (commit_pre_outstanding s v 0 1 HP))|].
    intros [] s' (bl & -> & Hv). done. }
  apply wp_inv in Hw as ([] & s' & E & H1 & H2 & H3 & H4).
  exists s'. do 5 (split; [done|]). by apply crash_points.
Qed.

(** (C26) Recovery: on a header the log wrote, [recover_from_log] terminates
    with the disk and the cache at [recovered], the log empty, and it may be
    cut short after any of its own writes and run again with the same result. *)
Theorem log_recovery {S} `{BlockLayer S} (s : lgst S) v :
  recover_pre s v ->
  exists s', recover_from_log s = Done tt s' /\ lg_n s' = 0
    /\ at_view (lg_bl s') (View (recovered (lg_start s) (v_disk v)) (recovered (lg_start s) (v_disk v)) ∅ ∅ (v_size v))
    /\ exists tr, lg_trace s' = lg_trace s ++ tr
       /\ forall tr1 tr2, tr = tr1 ++ tr2 -> forall x, ~ in_log (lg_start s) (lg_size s) x ->
          recovered (lg_start s) (apply_writes (v_disk v) tr1) x = recovered (lg_start s) (v_disk v) x.
Proof.
  intros HP. destruct (wp_inv _ _ _ (recover_correct s v HP)) as ([] & s' & E & bl & blk & -> & Hv).
  eexists. split; [exact E|]. split; [done|]. split; [exact Hv|].
  eexists. split; [done|]. intros tr1 tr2 Et x Hx. pose proof (rc_area _ _ HP).
  eapply recovered_prefix; [apply (rc_head _ _ HP)|lia|exact Et|done].
Qed.

(** [begin_op] admits an operation exactly when every admitted operation
    can still log [MAXOPBLOCKS] blocks, and [log_write] adds its block to the
    header once: a block already in it is absorbed. *)
Theorem log_reservation {S} `{BlockLayer S} (s : lgst S) :
  Llog ∉ lg_held s ->
  (exists r s', begin_op_run s = Done r s' /\
     (r = true -> lg_committing s = 0 /\ reserved s' /\ lg_outstanding s' = lg_outstanding s + 1) /\
     (r = false -> s' = s /\ (lg_committing s <> 0 \/
        ~ reserved (set_outstanding (lg_outstanding s + 1) s))))
  /\ forall v h b, at_view (lg_bl s) v -> bl_owns (lg_bl s) h b ->
     0 <= lg_n s < LOGSIZE -> lg_n s < lg_size s - 1 -> 1 <= lg_outstanding s ->
     length (lg_block s) = Z.to_nat LOGSIZE ->
     exists s', log_write h s = Done tt s' /\ b ∈ v_pinned (bl_view (lg_bl s'))
       /\ entries s' = (if decide (b ∈ entries s) then entries s else entries s ++ [b]).
Proof.
  intros Hl. split.
  - rewrite begin_op_eq by done. destruct (truth (lg_committing s)) eqn:Ec; cbn.
    + exists false, s. split; [done|]. split; [done|]. split; [done|]. left.
      unfold truth in Ec. lia.
    + assert (lg_committing s = 0) by (unfold truth in Ec; lia).
      destruct (_ >? LOGSIZE) eqn:E; eexists _, _; (split; [done|]); (split; [|done || idtac]); try done.
      * intros _. split; [done|]. right. unfold reserved; cbn. lia.
      * intros _. split; [done|]. split; [|done]. unfold reserved; cbn. lia.
  - intros v h b Hv Ho Hn Hsz Hout Hlen.
    destruct (log_write_spec s v h b Hv Ho Hl Hn Hsz Hout Hlen) as (bl & n' & blk' & E & Hv' & _ & _ & He).
    eexists. split; [exact E|]. split; [|exact He]. destruct Hv' as [_ [_ _ _ Hp _]].
    cbn in *. rewrite Hp. set_solver.
Qed.

(** ** The in-memory layer with blocks 0 .. 999 and the log of [mkfs.c] *)
Definition ex_log (n out : Z) (blk : list Z) (b : bmem) : lgst bmem :=
  Lgst 2 LOGSIZE out 0 1 n blk b [] 0 [].
Definition ex_held : bmem := Bmem ∅ ∅ (list_to_set (seqZ 100 30)) ∅ 1000.

(** The reservation is one block too generous: [mkfs] makes a log of
    [LOGSIZE] blocks of which one is the header, so three operations admitted
    by [begin_op] that each log [MAXOPBLOCKS] blocks stop the kernel with
    "too big a transaction". *)
Theorem log_reservation_overflows :
  (begin_op_run ;; begin_op_run ;; begin_op_run ;;
   for_each (seqZ 100 29) log_write) (ex_log 0 0 (replicate 30 0) ex_held)
    <> Panic "too big a transaction"
  /\ (r1 ← begin_op_run; r2 ← begin_op_run; r3 ← begin_op_run;
      when (r1 && r2 && r3) (for_each (seqZ 100 30) log_write))
       (ex_log 0 0 (replicate 30 0) ex_held)
     = Panic "too big a transaction".
Proof. split; vm_compute; done. Qed.

Definition ex_mem : bmem :=
  Bmem {[ 2 := replicate 512 0; 500 := replicate 512 7; 501 := replicate 512 8 ]}
       {[ 2 := replicate 512 0 ]} ∅ {[ 500; 501 ]} 1000.
Definition ex_commit : lgst bmem := ex_log 2 1 (500 :: 501 :: replicate 28 0) ex_mem.

Lemma ex_two i : 0 <= i < 2 -> i = 0 \/ i = 1.
Proof. lia. Qed.

Lemma ex_home0 : homeblk ex_commit 0 = 500.
Proof. done. Qed.
Lemma ex_home1 : homeblk ex_commit 1 = 501.
Proof. done. Qed.

Lemma ex_commit_pre : commit_pre ex_commit (mem_view ex_mem).
Proof.
  split; [split|..]; cbn [ex_commit ex_log ex_mem lg_dev lg_n lg_start lg_size lg_bl v_size v_held
    v_pinned mem_view bm_size bm_held bm_pinned]; unfold LOGSIZE, MAXOPBLOCKS; try done.
  - intros i [-> | ->]%ex_two; unfold in_log; rewrite ?ex_home0, ?ex_home1; lia.
  - intros i j [-> | ->]%ex_two [-> | ->]%ex_two; rewrite ?ex_home0, ?ex_home1; lia.
  - vm_compute. lia.
  - intros x. rewrite elem_of_union, !elem_of_singleton. split.
    + intros [-> | ->]; [exists 0|exists 1]; done.
    + intros (i & [-> | ->]%ex_two & ->); [by left|by right].
  - intros x. rewrite elem_of_union, !elem_of_singleton. intros Hx.
    destruct (decide (x = 2)) as [->|Hne]; [done|]. cbn [ex_mem mem_view v_content v_disk bm_mem bm_dsk].
    rewrite !lookup_total_insert_ne, !lookup_total_singleton_ne by lia. done.
  - intros i [-> | ->]%ex_two; rewrite ?ex_home0, ?ex_home1; lia.
Qed.

Lemma log_crash_atomic_witness :
  commit_pre ex_commit (mem_view ex_mem) /\ exists s', end_op ex_commit = Done tt s' /\ lg_n s' = 0
    /\ (forall x, ~ in_log 2 LOGSIZE x -> recovered 2 (apply_writes (v_disk (mem_view ex_mem)) (commit_trace ex_commit (mem_view ex_mem))) x = v_content (mem_view ex_mem) x
         \/ recovered 2 (apply_writes (v_disk (mem_view ex_mem)) (commit_trace ex_commit (mem_view ex_mem))) x = v_disk (mem_view ex_mem) x).
Proof.
  split; [exact ex_commit_pre|].
  destruct (log_crash_atomic ex_commit (mem_view ex_mem) ex_commit_pre)
    as (s' & E & _ & Hn & _ & _ & Hc); [vm_compute; reflexivity|cbn; set_solver|done|done|].
  exists s'. split; [exact E|]. split; [exact Hn|]. intros x Hx.
  destruct (Hc _ [] (eq_sym (app_nil_r _))) as [Hc'|Hc']; [right|left]; by apply Hc'.
Defined.

(** A disk whose header names one logged block. *)
Definition ex_dsk : gmap Z block :=
  {[ 2 := put32 4 500 (put32 0 1 (replicate 512 0)); 3 := replicate 512 9 ]}.
Definition ex_rec : lgst bmem := ex_log 0 0 (replicate 30 0) (Bmem ex_dsk ex_dsk ∅ ∅ 1000).

Lemma ex_recover_pre : recover_pre ex_rec (mem_view (lg_bl ex_rec)).
Proof.
  assert (Hn : head_n (v_disk (mem_view (lg_bl ex_rec)) (lg_start ex_rec)) = 1) by done.
  assert (Hh : head_block (v_disk (mem_view (lg_bl ex_rec)) (lg_start ex_rec)) 0 = 500) by done.
  assert (Hl : length (v_disk (mem_view (lg_bl ex_rec)) (lg_start ex_rec)) = 512%nat) by done.
  split; try done.
  - split; rewrite ?Hn; try done.
    + intros i Hi. replace i with 0 by lia. rewrite Hh. intros [_ Hc]. by vm_compute in Hc.
    + intros i j. lia.
  - intros i. rewrite Hn. intros Hi. replace i with 0 by lia. by rewrite Hh.
Qed.

Lemma log_recovery_witness :
  recover_pre ex_rec (mem_view (lg_bl ex_rec)) /\ exists s', recover_from_log ex_rec = Done tt s' /\ lg_n s' = 0.
Proof.
  split; [exact ex_recover_pre|].
  destruct (log_recovery ex_rec _ ex_recover_pre) as (s' & E & Hn & _). eauto.
Defined.

Lemma log_reservation_witness :
  Llog ∉ lg_held (ex_log 0 0 (replicate 30 0) ex_held)
  /\ exists r s', begin_op_run (ex_log 0 0 (replicate 30 0) ex_held) = Done r s' /\
     (r = true -> reserved s').
Proof.
  assert (Hl : Llog ∉ lg_held (ex_log 0 0 (replicate 30 0) ex_held)) by (cbn; set_solver).
  split; [exact Hl|].
  destruct (log_reservation (ex_log 0 0 (replicate 30 0) ex_held) Hl) as ((r & s' & E & Ht & _) & _).
  exists r, s'. split; [exact E|]. intros Hr. by destruct (Ht Hr) as (_ & ? & _).
Defined.
