(* ===== verification/Fs.v ===== *)
(** * The file system ([fs.c])

    The block allocator, the inode cache, inode contents, directories and path
    names, over the log of [Log.v] and any block layer.  An in-memory inode is
    named by its index in [icache.inode]; [NULL] is the null pointer.  A buffer
    that a function fills for its caller ([readi]'s [dst], [skipelem]'s [name],
    [dirlookup]'s [poff]) is part of its result. *)
From S2P Require Import Prelude Layout Locks Sleeplock Blocks Log.

(** ** Data *)
Definition T_DIR : Z := 1.
Definition T_FILE : Z := 2.
Definition T_DEV : Z := 3.
Definition NULL : Z := -1.

Record inode := Inode {
  i_dev : Z; i_inum : Z; i_ref : Z; i_lock : sleeplock; i_valid : Z;
  i_type : Z; i_major : Z; i_minor : Z; i_nlink : Z; i_size : Z; i_addrs : list Z }.
#[export] Instance inode_inhabited : Inhabited inode :=
  populate (Inode 0 0 0 initsleeplock 0 0 0 0 0 0 []).

Definition with_ref (r : Z) (i : inode) : inode :=
  Inode (i_dev i) (i_inum i) r (i_lock i) (i_valid i) (i_type i) (i_major i) (i_minor i) (i_nlink i) (i_size i) (i_addrs i).
Definition with_ilock (k : sleeplock) (i : inode) : inode :=
  Inode (i_dev i) (i_inum i) (i_ref i) k (i_valid i) (i_type i) (i_major i) (i_minor i) (i_nlink i) (i_size i) (i_addrs i).
Definition with_valid (v : Z) (i : inode) : inode :=
  Inode (i_dev i) (i_inum i) (i_ref i) (i_lock i) v (i_type i) (i_major i) (i_minor i) (i_nlink i) (i_size i) (i_addrs i).
Definition with_meta (ty maj min nl sz : Z) (a : list Z) (i : inode) : inode :=
  Inode (i_dev i) (i_inum i) (i_ref i) (i_lock i) (i_valid i) ty maj min nl sz a.
Definition with_type (ty : Z) (i : inode) : inode :=
  with_meta ty (i_major i) (i_minor i) (i_nlink i) (i_size i) (i_addrs i) i.
Definition with_nlink (nl : Z) (i : inode) : inode :=
  with_meta (i_type i) (i_major i) (i_minor i) nl (i_size i) (i_addrs i) i.
Definition with_size (sz : Z) (i : inode) : inode :=
  with_meta (i_type i) (i_major i) (i_minor i) (i_nlink i) sz (i_addrs i) i.
Definition with_addr (n v : Z) (i : inode) : inode :=
  with_meta (i_type i) (i_major i) (i_minor i) (i_nlink i) (i_size i) (<[Z.to_nat n := v]> (i_addrs i)) i.

(** [struct dinode]: 64 bytes; [struct dirent]: 16 bytes. *)
Definition dinode_off (inum : Z) : nat := Z.to_nat (sizeof_dinode * (inum `mod` IPB)).
Definition dinode_addrs (d : block) (o : nat) : list Z :=
  (fun k => get32 d (o + 12 + 4 * k)%nat) <$> seq 0 13.
Definition put_addrs (o : nat) (a : list Z) (d : block) : block :=
  foldl (fun d k => put32 (o + 12 + 4 * k) (a !!! k) d) d (seq 0 13).
(** [ip->type = dip->type; ...; memmove(ip->addrs, dip->addrs, ...)]. *)
Definition load_dinode (d : block) (o : nat) (i : inode) : inode :=
  with_meta (i16 (get16 d o)) (i16 (get16 d (o + 2))) (i16 (get16 d (o + 4)))
    (i16 (get16 d (o + 6))) (get32 d (o + 8)) (dinode_addrs d o) i.
Definition store_dinode (o : nat) (i : inode) (d : block) : block :=
  put_addrs o (i_addrs i)
    (put32 (o + 8) (i_size i) (put16 (o + 6) (i_nlink i) (put16 (o + 4) (i_minor i)
      (put16 (o + 2) (i_major i) (put16 o (i_type i) d))))).

(** A directory entry: its inode number and its 14 name bytes. *)
Definition de_inum (de : list Z) : Z := get16 de 0.
Definition de_name (de : list Z) : list Z := take 14 (drop 2 de).
Definition mk_dirent (inum : Z) (name : list Z) : list Z :=
  [u16 inum `mod` 256; u16 inum `div` 256] ++ name.

(** ** Names *)

(** [strncmp(s, t, n)] on byte arrays; what follows the last byte of a list is its NUL. *)
Fixpoint strncmp_bytes (n : nat) (p q : list Z) : Z :=
  match n with
  | O => 0
  | Datatypes.S n' =>
      if truth (hd 0 p) && (hd 0 p =? hd 0 q) then strncmp_bytes n' (drop 1 p) (drop 1 q)
      else hd 0 p - hd 0 q
  end.
(** [strncpy(d, s, n)]: the bytes up to the NUL, padded with zeroes. *)
Fixpoint strncpy_bytes (n : nat) (s : list Z) : list Z :=
  match n with
  | O => []
  | Datatypes.S n' =>
      if truth (hd 0 s) then hd 0 s :: strncpy_bytes n' (drop 1 s) else replicate n 0
  end.

Definition namecmp (s t : list Z) : Z := strncmp_bytes (Z.to_nat DIRSIZ) s t.

Definition slash : Z := 47.
Fixpoint skip_slashes (path : list Z) : list Z :=
  match path with
  | c :: p => if c =? slash then skip_slashes p else path
  | [] => []
  end.
(** The scan to the next slash or the NUL: the element passed and the rest. *)
Fixpoint span_elem (path : list Z) : list Z * list Z :=
  match path with
  | c :: p => if (c !=? slash) && (c !=? 0) then let (e, r) := span_elem p in (c :: e, r) else ([], path)
  | [] => ([], [])
  end.
Definition skipelem (path name : list Z) : option (list Z * list Z) :=
  let path := skip_slashes path in
  if hd 0 path =? 0 then None
  else
    let (s, path) := span_elem path in
    let len := Z.of_nat (length s) in
    let name := if len >=? DIRSIZ then take (Z.to_nat DIRSIZ) s
                else s ++ [0] ++ drop (Datatypes.S (length s)) name in
    Some (skip_slashes path, name).

(** ** State *)
Record fsst (S : Type) := Fsst {
  fs_log : lgst S; fs_sb : superblock; fs_inode : list inode; fs_pid : Z; fs_cwd : Z }.
Arguments Fsst {S}. Arguments fs_log {S}. Arguments fs_sb {S}. Arguments fs_inode {S}.
Arguments fs_pid {S}. Arguments fs_cwd {S}.

Definition set_log {S} (l : lgst S) (s : fsst S) : fsst S :=
  Fsst l (fs_sb s) (fs_inode s) (fs_pid s) (fs_cwd s).
Definition set_sb {S} (b : superblock) (s : fsst S) : fsst S :=
  Fsst (fs_log s) b (fs_inode s) (fs_pid s) (fs_cwd s).
Definition set_inodes {S} (l : list inode) (s : fsst S) : fsst S :=
  Fsst (fs_log s) (fs_sb s) l (fs_pid s) (fs_cwd s).
Definition inode_of {S} (s : fsst S) (ip : Z) : inode := fs_inode s !!! Z.to_nat ip.
Definition upd_inode {S} (ip : Z) (f : inode -> inode) (s : fsst S) : fsst S :=
  set_inodes (<[Z.to_nat ip := f (inode_of s ip)]> (fs_inode s)) s.

#[export, program] Instance fsst_locks (S : Type) : HasLocks (fsst S) := {|
  locks_of s := lg_held (fs_log s);
  with_locks L s := set_log (with_locks L (fs_log s)) s |}.
Next Obligation. done. Qed.
Next Obligation. done. Qed.
Next Obligation. by intros ? [[] ? ? ? ?]. Qed.

(** The functions a device driver puts into [devsw]: what [read] stores to its
    buffer comes with its return value. *)
Record devsw (S : Type) := Devsw {
  dv_read : option (Z -> Z -> M (fsst S) (Z * list Z));
  dv_write : option (Z -> list Z -> Z -> M (fsst S) Z) }.
Arguments Devsw {S}. Arguments dv_read {S}. Arguments dv_write {S}.

Section fs.
Context {S : Type} `{BlockLayer S} (devs : Z -> devsw S).

Definition on_log {A} (m : M (lgst S) A) : M (fsst S) A := zoom fs_log set_log m.
Definition bread_ (dev b : Z) : M (fsst S) Z := on_log (lift (bread dev b)).
Definition brelse_ (h : Z) : M (fsst S) unit := on_log (lift (brelse h)).
Definition log_write_ (h : Z) : M (fsst S) unit := on_log (log_write h).
Definition bytes_of (h : Z) : M (fsst S) block := on_log (data_of h).
Definition bset (h : Z) (d : block) : M (fsst S) unit := on_log (lift (bstore h d)).
Definition sb_ : M (fsst S) superblock := gets fs_sb.
Definition ino (ip : Z) : M (fsst S) inode := gets (fun s => inode_of s ip).
Definition iset (ip : Z) (f : inode -> inode) : M (fsst S) unit := modify (upd_inode ip f).

Definition ilock_op {A} (ip : Z) (m : M sst A) : M (fsst S) A :=
  zoom (fun s => Sst (i_lock (inode_of s ip)) 0 (locks_of s))
       (fun t s => with_locks (ss_held t) (upd_inode ip (with_ilock (ss_lk t)) s)) m.
Definition acquiresleep_i (ip : Z) : M (fsst S) unit :=
  pid ← gets fs_pid;
  ok ← ilock_op ip (acquiresleep_run (Lsleep (NBUF + ip)) pid);
  if (ok : bool) then mret tt else sleep_on "inode".
Definition releasesleep_i (ip : Z) : M (fsst S) unit :=
  ilock_op ip (releasesleep (Lsleep (NBUF + ip))).
Definition holdingsleep_i (ip : Z) : M (fsst S) bool :=
  pid ← gets fs_pid; ilock_op ip (holdingsleep (Lsleep (NBUF + ip)) pid).

(** ** Blocks *)
Definition bzero (dev bno : Z) : M (fsst S) unit :=
  bp ← bread_ dev bno;
  bset bp (replicate (Z.to_nat BSIZE) 0) ;;
  log_write_ bp ;;
  brelse_ bp.

Definition bit_mask (bi : Z) : Z := 1 ≪ (bi `mod` 8).
Definition bit_byte (bi : Z) : nat := Z.to_nat (bi `div` 8).

Definition balloc_bit (dev bp b : Z) (bi : Z) : M (fsst S) (option Z) :=
  d ← bytes_of bp;
  if (d !!! bit_byte bi &&& bit_mask bi) =? 0 then
    bset bp (<[bit_byte bi := d !!! bit_byte bi ||| bit_mask bi]> d) ;;
    log_write_ bp ;;
    brelse_ bp ;;
    bzero dev (b + bi) ;;
    mret (Some (b + bi))
  else mret None.

Definition balloc_block (dev : Z) (b : Z) : M (fsst S) (option Z) :=
  sb ← sb_;
  bp ← bread_ dev (BBLOCK b sb);
  r ← for_ret (seqZ 0 (BPB `min` (sb_size sb - b))) (balloc_bit dev bp b);
  match r with
  | Some v => mret (Some v)
  | None => brelse_ bp ;; mret None
  end.

Definition balloc (dev : Z) : M (fsst S) Z :=
  sb ← sb_;
  r ← for_ret ((fun k => k * BPB) <$> seqZ 0 ((sb_size sb + BPB - 1) `div` BPB)) (balloc_block dev);
  match r with
  | Some b => mret b
  | None => panic "balloc: out of blocks"
  end.

Definition bfree (dev b : Z) : M (fsst S) unit :=
  sb ← sb_;
  bp ← bread_ dev (BBLOCK b sb);
  let bi := b `mod` BPB in
  d ← bytes_of bp;
  if (d !!! bit_byte bi &&& bit_mask bi) =? 0 then panic "freeing free block"
  else
    bset bp (<[bit_byte bi := d !!! bit_byte bi &&& Z.lnot (bit_mask bi)]> d) ;;
    log_write_ bp ;;
    brelse_ bp.

(** ** Inodes *)
Definition iinit (dev : Z) : M (fsst S) unit :=
  for_each (seqZ 0 NINODE) (fun i => iset i (with_ilock initsleeplock)) ;;
  sb ← on_log (readsb dev);
  modify (set_sb sb).

(** The scan of [iget]: the entry found, or the first free one. *)
Fixpoint iget_scan (dev inum : Z) (i : Z) (l : list inode) (empty : Z) : Z * bool :=
  match l with
  | [] => (empty, false)
  | ip :: l' =>
      if (i_ref ip >? 0) && (i_dev ip =? dev) && (i_inum ip =? inum) then (i, true)
      else iget_scan dev inum (i + 1) l'
             (if (empty =? NULL) && (i_ref ip =? 0) then i else empty)
  end.

Definition iget (dev inum : Z) : M (fsst S) Z :=
  acquire Licache ;;
  l ← gets fs_inode;
  match iget_scan dev inum 0 l NULL with
  | (ip, true) =>
      iset ip (fun i => with_ref (i_ref i + 1) i) ;;
      release Licache ;;
      mret ip
  | (empty, false) =>
      if empty =? NULL then panic "iget: no inodes"
      else
        iset empty (fun i => Inode dev inum 1 (i_lock i) 0 (i_type i) (i_major i) (i_minor i)
                               (i_nlink i) (i_size i) (i_addrs i)) ;;
        release Licache ;;
        mret empty
  end.

Definition ialloc_body (dev type inum : Z) : M (fsst S) (option Z) :=
  sb ← sb_;
  bp ← bread_ dev (IBLOCK inum sb);
  d ← bytes_of bp;
  if i16 (get16 d (dinode_off inum)) =? 0 then
    bset bp (put16 (dinode_off inum) type
               (splice (dinode_off inum) (replicate (Z.to_nat sizeof_dinode) 0) d)) ;;
    log_write_ bp ;;
    brelse_ bp ;;
    ip ← iget dev inum;
    mret (Some ip)
  else brelse_ bp ;; mret None.

Definition ialloc (dev type : Z) : M (fsst S) Z :=
  sb ← sb_;
  r ← for_ret (seqZ 1 (sb_ninodes sb - 1)) (ialloc_body dev type);
  match r with
  | Some ip => mret ip
  | None => panic "ialloc: no inodes"
  end.

Definition iupdate (ip : Z) : M (fsst S) unit :=
  i ← ino ip; sb ← sb_;
  bp ← bread_ (i_dev i) (IBLOCK (i_inum i) sb);
  d ← bytes_of bp;
  bset bp (store_dinode (dinode_off (i_inum i)) i d) ;;
  log_write_ bp ;;
  brelse_ bp.

Definition idup (ip : Z) : M (fsst S) Z :=
  acquire Licache ;;
  iset ip (fun i => with_ref (i_ref i + 1) i) ;;
  release Licache ;;
  mret ip.

Definition ilock (ip : Z) : M (fsst S) unit :=
  i ← ino ip;
  if (ip =? NULL) || (i_ref i <? 1) then panic "ilock"
  else
    acquiresleep_i ip ;;
    i ← ino ip;
    when (i_valid i =? 0)
      (sb ← sb_;
       bp ← bread_ (i_dev i) (IBLOCK (i_inum i) sb);
       d ← bytes_of bp;
       iset ip (load_dinode d (dinode_off (i_inum i))) ;;
       brelse_ bp ;;
       iset ip (with_valid 1) ;;
       i ← ino ip;
       if i_type i =? 0 then panic "ilock: no type" else mret tt).

Definition iunlock (ip : Z) : M (fsst S) unit :=
  if ip =? NULL then panic "iunlock"
  else
    h ← holdingsleep_i ip;
    i ← ino ip;
    if negb h || (i_ref i <? 1) then panic "iunlock"
    else releasesleep_i ip.

(** ** Inode content *)
Definition bmap (ip bn : Z) : M (fsst S) Z :=
  i ← ino ip;
  if bn <? NDIRECT then
    let addr := i_addrs i !!! Z.to_nat bn in
    if addr =? 0 then
      addr ← balloc (i_dev i);
      iset ip (with_addr bn addr) ;;
      mret addr
    else mret addr
  else
    let bn := bn - NDIRECT in
    if bn <? NINDIRECT then
      let addr := i_addrs i !!! Z.to_nat NDIRECT in
      addr ← (if addr =? 0 then
                addr ← balloc (i_dev i); iset ip (with_addr NDIRECT addr) ;; mret addr
              else mret addr);
      bp ← bread_ (i_dev i) addr;
      a ← bytes_of bp;
      addr ← (if get32 a (Z.to_nat (4 * bn)) =? 0 then
                addr ← balloc (i_dev i);
                a ← bytes_of bp;
                bset bp (put32 (Z.to_nat (4 * bn)) addr a) ;;
                log_write_ bp ;;
                mret addr
              else mret (get32 a (Z.to_nat (4 * bn))));
      brelse_ bp ;;
      mret addr
    else panic "bmap: out of range".

Definition itrunc (ip : Z) : M (fsst S) unit :=
  for_each (seqZ 0 NDIRECT) (fun k =>
    i ← ino ip;
    let a := i_addrs i !!! Z.to_nat k in
    when (truth a) (bfree (i_dev i) a ;; iset ip (with_addr k 0))) ;;
  i ← ino ip;
  let ind := i_addrs i !!! Z.to_nat NDIRECT in
  when (truth ind)
    (bp ← bread_ (i_dev i) ind;
     a ← bytes_of bp;
     for_each (seqZ 0 NINDIRECT) (fun j =>
       let x := get32 a (Z.to_nat (4 * j)) in when (truth x) (bfree (i_dev i) x)) ;;
     brelse_ bp ;;
     bfree (i_dev i) ind ;;
     iset ip (with_addr NDIRECT 0)) ;;
  iset ip (with_size 0) ;;
  iupdate ip.

Definition iput (ip : Z) : M (fsst S) unit :=
  acquiresleep_i ip ;;
  i ← ino ip;
  when (truth (i_valid i) && (i_nlink i =? 0))
    (acquire Licache ;;
     i ← ino ip;
     let r := i_ref i in
     release Licache ;;
     when (r =? 1)
       (itrunc ip ;; iset ip (with_type 0) ;; iupdate ip ;; iset ip (with_valid 0))) ;;
  releasesleep_i ip ;;
  acquire Licache ;;
  iset ip (fun i => with_ref (i_ref i - 1) i) ;;
  release Licache.

Definition iunlockput (ip : Z) : M (fsst S) unit := iunlock ip ;; iput ip.

Record stat := Stat { st_type : Z; st_dev : Z; st_ino : Z; st_nlink : Z; st_size : Z }.
Definition stati (ip : Z) : M (fsst S) stat :=
  gets (fun s => let i := inode_of s ip in Stat (i_type i) (i_dev i) (i_inum i) (i_nlink i) (i_size i)).

(** Iterations of [readi] and [writei] over [n] bytes. *)
Definition io_fuel (n : Z) : nat := Z.to_nat (n `div` BSIZE + 3).

Definition readi_body (ip n : Z) (x : Z * Z * list Z) : M (fsst S) (Z * Z * list Z + list Z) :=
  let '(tot, off, dst) := x in
  if negb (tot <? n) then mret (inr dst)
  else
    i ← ino ip;
    addr ← bmap ip (off `div` BSIZE);
    bp ← bread_ (i_dev i) addr;
    let m := Z.min (n - tot) (BSIZE - off `mod` BSIZE) in
    d ← bytes_of bp;
    brelse_ bp ;;
    mret (inl (u32 (tot + m), u32 (off + m),
               dst ++ take (Z.to_nat m) (drop (Z.to_nat (off `mod` BSIZE)) d))).

Definition readi (ip off n : Z) : M (fsst S) (Z * list Z) :=
  i ← ino ip;
  if i_type i =? T_DEV then
    if (i_major i <? 0) || (i_major i >=? NDEV) then mret (-1, [])
    else match dv_read (devs (i_major i)) with
         | None => mret (-1, [])
         | Some f => f ip (i32 n)
         end
  else if (off >? i_size i) || (u32 (off + n) <? off) then mret (-1, [])
  else
    let n := if u32 (off + n) >? i_size i then i_size i - off else n in
    dst ← loop (io_fuel n) (readi_body ip n) (0, off, []);
    mret (i32 n, dst).

Definition writei_body (ip n : Z) (src : list Z) (x : Z * Z) : M (fsst S) (Z * Z + Z) :=
  let '(tot, off) := x in
  if negb (tot <? n) then mret (inr off)
  else
    i ← ino ip;
    addr ← bmap ip (off `div` BSIZE);
    bp ← bread_ (i_dev i) addr;
    let m := Z.min (n - tot) (BSIZE - off `mod` BSIZE) in
    d ← bytes_of bp;
    bset bp (splice (Z.to_nat (off `mod` BSIZE)) (take (Z.to_nat m) (drop (Z.to_nat tot) src)) d) ;;
    log_write_ bp ;;
    brelse_ bp ;;
    mret (inl (u32 (tot + m), u32 (off + m))).

(** [src] holds at least the [n] bytes the caller names. *)
Definition writei (ip : Z) (src : list Z) (off n : Z) : M (fsst S) Z :=
  i ← ino ip;
  if i_type i =? T_DEV then
    if (i_major i <? 0) || (i_major i >=? NDEV) then mret (-1)
    else match dv_write (devs (i_major i)) with
         | None => mret (-1)
         | Some f => f ip src (i32 n)
         end
  else if (off >? i_size i) || (u32 (off + n) <? off) then mret (-1)
  else if u32 (off + n) >? MAXFILE * BSIZE then mret (-1)
  else
    off ← loop (io_fuel n) (writei_body ip n src) (0, off);
    i ← ino ip;
    when ((n >? 0) && (off >? i_size i)) (iset ip (with_size off) ;; iupdate ip) ;;
    mret (i32 n).

(** ** Directories *)
Definition dir_fuel (size : Z) : nat := Z.to_nat (size `div` sizeof_dirent + 3).

Definition dirlookup_body (dp : Z) (name : list Z) (off : Z) : M (fsst S) (Z + option (Z * Z)) :=
  i ← ino dp;
  if negb (off <? i_size i) then mret (inr None)
  else
    '(r, de) ← readi dp off sizeof_dirent;
    if r !=? sizeof_dirent then panic "dirlookup read"
    else if de_inum de =? 0 then mret (inl (u32 (off + sizeof_dirent)))
    else if namecmp name (de_name de) =? 0 then
      i ← ino dp;
      ip ← iget (i_dev i) (de_inum de);
      mret (inr (Some (ip, off)))
    else mret (inl (u32 (off + sizeof_dirent))).

Definition dirlookup (dp : Z) (name : list Z) : M (fsst S) (option (Z * Z)) :=
  i ← ino dp;
  if i_type i !=? T_DIR then panic "dirlookup not DIR"
  else loop (dir_fuel (i_size i)) (dirlookup_body dp name) 0.

Definition dirlink_body (dp : Z) (off : Z) : M (fsst S) (Z + Z) :=
  i ← ino dp;
  if negb (off <? i_size i) then mret (inr off)
  else
    '(r, de) ← readi dp off sizeof_dirent;
    if r !=? sizeof_dirent then panic "dirlink read"
    else if de_inum de =? 0 then mret (inr off)
    else mret (inl (u32 (off + sizeof_dirent))).

Definition dirlink (dp : Z) (name : list Z) (inum : Z) : M (fsst S) Z :=
  found ← dirlookup dp name;
  match found with
  | Some (ip, _) => iput ip ;; mret (-1)
  | None =>
      i ← ino dp;
      off ← loop (dir_fuel (i_size i)) (dirlink_body dp) 0;
      r ← writei dp (mk_dirent inum (strncpy_bytes (Z.to_nat DIRSIZ) name)) off sizeof_dirent;
      if r !=? sizeof_dirent then panic "dirlink" else mret 0
  end.

(** ** Paths *)
Definition namex_body (parent : bool) (x : Z * list Z * list Z)
    : M (fsst S) (Z * list Z * list Z + Z * list Z) :=
  let '(ip, path, name) := x in
  match skipelem path name with
  | None => if parent then iput ip ;; mret (inr (NULL, name)) else mret (inr (ip, name))
  | Some (path, name) =>
      ilock ip ;;
      i ← ino ip;
      if i_type i !=? T_DIR then iunlockput ip ;; mret (inr (NULL, name))
      else if parent && (hd 0 path =? 0) then iunlock ip ;; mret (inr (ip, name))
      else
        found ← dirlookup ip name;
        match found with
        | None => iunlockput ip ;; mret (inr (NULL, name))
        | Some (next, _) => iunlockput ip ;; mret (inl (next, path, name))
        end
  end.

Definition namex (path : list Z) (parent : bool) (name : list Z) : M (fsst S) (Z * list Z) :=
  cwd ← gets fs_cwd;
  ip ← (if hd 0 path =? slash then iget ROOTDEV ROOTINO else idup cwd);
  loop (Datatypes.S (Datatypes.S (length path))) (namex_body parent) (ip, path, name).

Definition namei (path : list Z) : M (fsst S) Z :=
  r ← namex path false (replicate (Z.to_nat DIRSIZ) 0); mret r.1.
Definition nameiparent (path name : list Z) : M (fsst S) (Z * list Z) := namex path true name.
End fs.
