(* ===== verification/FsSpec.v ===== *)
(** * Reasoning about the file system over a block layer

    [txn s v k]: the block layer under [s] has the view [v], and the running
    transaction may still log [k] blocks ([k = 0]: reading only).  The rules
    below execute the buffer operations of [fs.c] symbolically on views. *)
From S2P Require Import Prelude Layout Locks Blocks Log LogSpec LogCrash Fs.

(** The search rule for loops that return at the first hit. *)
Lemma wp_for_ret_find {S A R} (I : S -> Prop) (p : A -> bool) (l : list A)
    (body : A -> M S (option R)) (Q : option R -> S -> Prop) s :
  I s ->
  (forall x s', x ∈ l -> I s' -> p x = false -> wp (body x) (fun r s2 => r = None /\ I s2) s') ->
  (forall pre x post s', l = pre ++ x :: post -> Forall (fun y => p y = false) pre -> p x = true ->
     I s' -> wp (body x) (fun r s2 => exists v, r = Some v /\ Q (Some v) s2) s') ->
  (Forall (fun y => p y = false) l -> forall s', I s' -> Q None s') ->
  wp (for_ret l body) Q s.
Proof.
  revert s. induction l as [|x l IH]; intros s HI Hmiss Hhit Hend; [by apply Hend|].
  cbn [for_ret]. apply wp_bind. destruct (p x) eqn:Ep.
  - eapply wp_mono; [by apply (Hhit [] x l)|]. intros r s' (v & -> & HQ). exact HQ.
  - eapply wp_mono; [apply Hmiss; [by left|done|done]|]. intros r s' [-> HI'].
    apply IH; [done|..].
    + intros y s2 Hy. apply Hmiss. by right.
    + intros pre y post s2 -> Hpre Hy Hs2. apply (Hhit (x :: pre) y post); [done| |done|done].
      by constructor.
    + intros Hl s2 Hs2. apply Hend; [by constructor|done].
Qed.

(** What comes before [x] in an interval. *)
Lemma seqZ_before m n pre x post :
  seqZ m n = pre ++ x :: post -> forall j, m <= j < x -> j ∈ pre.
Proof.
  intros E j Hj.
  assert (Hx : seqZ m n !! length pre = Some x) by (by rewrite E, list_lookup_middle).
  apply lookup_seqZ in Hx as [-> Hn].
  assert (Hl : seqZ m n !! Z.to_nat (j - m) = Some j) by (apply lookup_seqZ; lia).
  rewrite E, lookup_app_l in Hl by lia. by eapply list_elem_of_lookup_2.
Qed.

Section rules.
Context {S : Type} `{BlockLayer S}.
Implicit Types s : fsst S.

(** The state after the log and the block layer have moved on. *)
Definition wl (n : Z) (blk : list Z) (bl : S) s : fsst S :=
  set_log (set_hdr n blk (set_bl bl (fs_log s))) s.
Definition with_bl (bl : S) s : fsst S := set_log (set_bl bl (fs_log s)) s.

(** Nothing but the log header and the block layer differs. *)
Definition moved s s' : Prop := exists n blk bl, s' = wl n blk bl s.
Lemma moved_refl s : moved s s.
Proof. exists (lg_n (fs_log s)), (lg_block (fs_log s)), (lg_bl (fs_log s)). by destruct s as [[] ? ? ? ?]. Qed.
Lemma moved_trans s1 s2 s3 : moved s1 s2 -> moved s2 s3 -> moved s1 s3.
Proof. intros (n & b & l & ->) (n' & b' & l' & ->). by exists n', b', l'. Qed.
Lemma moved_bl bl s : moved s (with_bl bl s).
Proof. by exists (lg_n (fs_log s)), (lg_block (fs_log s)), bl. Qed.

Record txn s (v : view) (k : Z) : Prop := Txn {
  tx_view : at_view (lg_bl (fs_log s)) v;
  tx_bufs : Z.of_nat (size (v_pinned v)) + k + 2 <= NBUF;
  tx_lock : 0 < k -> Llog ∉ lg_held (fs_log s);
  tx_room : 0 < k -> 0 <= lg_n (fs_log s) /\ lg_n (fs_log s) + k <= LOGSIZE
    /\ lg_n (fs_log s) + k <= lg_size (fs_log s) - 1;
  tx_out : 0 < k -> 1 <= lg_outstanding (fs_log s);
  tx_len : 0 < k -> length (lg_block (fs_log s)) = Z.to_nat LOGSIZE }.

Lemma txn_with_bl s v v' k bl :
  txn s v k -> at_view bl v' -> (size (v_pinned v') <= size (v_pinned v))%nat -> txn (with_bl bl s) v' k.
Proof. intros [T1 T2 T3 T4 T5 T6] Hv Hs. split; try done. cbn. lia. Qed.

Lemma txn_weaken s v k k' : txn s v k -> 0 <= k' <= k -> txn s v k'.
Proof.
  intros [T1 T2 T3 T4 T5 T6] Hk. split; [done|lia|intros; apply T3; lia| |intros; apply T5; lia|intros; apply T6; lia].
  intros Hp. destruct T4 as (R1 & R2 & R3); lia.
Qed.

Definition vhold (b : Z) (v : view) : view :=
  View (v_content v) (v_disk v) ({[ b ]} ∪ v_held v) (v_pinned v) (v_size v).
Definition vfree (b : Z) (v : view) : view :=
  View (v_content v) (v_disk v) (v_held v ∖ {[ b ]}) (v_pinned v) (v_size v).
Definition vset (b : Z) (d : block) (v : view) : view :=
  View (upd (v_content v) b d) (v_disk v) (v_held v) (v_pinned v) (v_size v).
Definition vpin (b : Z) (v : view) : view :=
  View (v_content v) (v_disk v) (v_held v) ({[ b ]} ∪ v_pinned v) (v_size v).

Lemma wp_bread_fs s v k b (Q : Z -> fsst S -> Prop) :
  txn s v k -> 0 <= k -> 0 <= b < v_size v -> b ∉ v_held v -> (size (v_held v) <= 1)%nat ->
  (forall h bl, txn (with_bl bl s) (vhold b v) k -> bl_owns bl h b ->
     (forall h' b', bl_owns (lg_bl (fs_log s)) h' b' -> bl_owns bl h' b') ->
     Q h (with_bl bl s)) ->
  wp (bread_ 1 b) Q s.
Proof.
  intros T Hk Hb Hh Hs HQ. apply wp_zoom. apply (wp_bread (fs_log s) v); [apply T|done|done| |].
  - right. pose proof (tx_bufs _ _ _ T) as Hn. unfold NBUF, MAXOPBLOCKS in *.
    assert (size (v_held v ∪ v_pinned v) <= size (v_held v) + size (v_pinned v))%nat; [|lia].
    rewrite size_union_alt. apply Nat.add_le_mono_l, subseteq_size. set_solver.
  - intros h bl Hv Ho Hm. apply HQ; [|done|done]. by eapply txn_with_bl.
Qed.

Lemma wp_bytes_of s v k h b (Q : block -> fsst S -> Prop) :
  txn s v k -> bl_owns (lg_bl (fs_log s)) h b -> Q (v_content v b) s -> wp (bytes_of h) Q s.
Proof.
  intros T Ho HQ. apply wp_zoom. eapply wp_data_of; [apply T|exact Ho|]. by destruct s.
Qed.

Lemma wp_bset s v k h b d (Q : unit -> fsst S -> Prop) :
  txn s v k -> bl_owns (lg_bl (fs_log s)) h b ->
  (forall bl, txn (with_bl bl s) (vset b d v) k ->
     (forall h' b', bl_owns (lg_bl (fs_log s)) h' b' -> bl_owns bl h' b') -> Q tt (with_bl bl s)) ->
  wp (bset h d) Q s.
Proof.
  intros T Ho HQ. apply wp_zoom. eapply wp_bstore; [apply T|exact Ho|]. intros bl Hv Hm.
  apply HQ; [|done]. by eapply txn_with_bl.
Qed.

Lemma wp_log_write_fs s v k h b (Q : unit -> fsst S -> Prop) :
  txn s v (k + 1) -> 0 <= k -> bl_owns (lg_bl (fs_log s)) h b ->
  (forall n blk bl, txn (wl n blk bl s) (vpin b v) k ->
     (forall h' b', bl_owns (lg_bl (fs_log s)) h' b' -> bl_owns bl h' b') -> Q tt (wl n blk bl s)) ->
  wp (log_write_ h) Q s.
Proof.
  intros [T1 T2 T3 T4 T5 T6] Hk Ho HQ. apply wp_zoom.
  destruct T4 as (R1 & R2 & R3); [lia|].
  destruct (log_write_spec (fs_log s) v h b) as (bl & n & blk & E & Hv & Hm & Hl & He);
    try done; try (apply T3 || apply T5 || apply T6); try lia.
  eapply wp_Done; [exact E|]. change (Q tt (wl n blk bl s)). apply HQ; [|intros h' b' Hx; by apply Hm].
  assert (Hn : n = lg_n (fs_log s) \/ n = lg_n (fs_log s) + 1).
  { apply (f_equal length) in He. rewrite length_fmap, length_seqZ in He.
    assert (Hle : length (entries (fs_log s)) = Z.to_nat (lg_n (fs_log s)))
      by (unfold entries; by rewrite length_fmap, length_seqZ).
    destruct (decide (b ∈ entries (fs_log s))) as [Hb|Hb].
    - assert (length (entries (fs_log s)) <> 0)%nat by (by destruct (entries (fs_log s)); [set_solver|]). lia.
    - rewrite length_app in He. cbn in He. lia. }
  split; try done; cbn; [|intros _; apply T3; lia|intros _; lia|intros _; apply T5; lia].
  pose proof (size_add b (v_pinned v)). lia.
Qed.

(** Blocks that are not pinned are as on the disk. *)
Definition clean (v : view) : Prop := forall x, x ∉ v_pinned v -> v_content v x = v_disk v x.

Lemma clean_write b d v : clean v -> clean (vpin b (vset b d v)).
Proof.
  intros Hc x Hx. cbn in *. unfold upd. rewrite decide_False by set_solver. apply Hc. set_solver.
Qed.

Lemma wp_brelse_fs s v k h b (Q : unit -> fsst S -> Prop) :
  txn s v k -> bl_owns (lg_bl (fs_log s)) h b -> clean v ->
  (forall bl, txn (with_bl bl s) (vfree b v) k ->
     (forall h' b', bl_owns (lg_bl (fs_log s)) h' b' -> b' <> b -> bl_owns bl h' b') ->
     Q tt (with_bl bl s)) ->
  wp (brelse_ h) Q s.
Proof.
  intros T Ho Hc HQ. apply wp_zoom. eapply wp_brelse; [apply T|exact Ho| |].
  - destruct (decide (b ∈ v_pinned v)); [by left|right; by apply Hc].
  - intros bl Hv Hm. apply HQ; [|done]. by eapply txn_with_bl.
Qed.

Lemma txn_veq s v w k : txn s v k -> veq v w -> txn s w k.
Proof.
  intros [T1 T2 T3 T4 T5 T6] E. split; try done; [by eapply at_view_eq|].
  destruct E as [_ _ _ E _]. by rewrite <- E.
Qed.

(** [bset] and [log_write] of the same buffer. *)
Lemma wp_write_fs s v k h b d (Q : unit -> fsst S -> Prop) :
  txn s v (k + 1) -> 0 <= k -> bl_owns (lg_bl (fs_log s)) h b ->
  (forall n blk bl, txn (wl n blk bl s) (vpin b (vset b d v)) k ->
     (forall h' b', bl_owns (lg_bl (fs_log s)) h' b' -> bl_owns bl h' b') -> Q tt (wl n blk bl s)) ->
  wp (bset h d ;; log_write_ h) Q s.
Proof.
  intros T Hk Ho HQ. apply wp_bind. eapply wp_bset; [exact T|exact Ho|]. intros bl T' Hm.
  eapply wp_log_write_fs; [exact T'|done|by apply Hm|].
  intros n blk bl' T2 Hm2. apply (HQ n blk bl'); [exact T2|]. intros h' b' Hx. by apply Hm2, Hm.
Qed.
End rules.

(** Sequencing is associative, for rules about two statements. *)
Lemma wp_assoc {S A B} (m1 : M S unit) (m2 : M S A) (m3 : A -> M S B) Q s :
  wp ((m1 ;; m2) ≫= m3) Q s -> wp (m1 ;; (m2 ≫= m3)) Q s.
Proof. unfold wp, mbind, M_bind. by destruct (m1 s). Qed.

(** ** The block bitmap *)
Definition bit_set (d : block) (bi : Z) : bool := Z.testbit (d !!! bit_byte bi) (bi `mod` 8).

Lemma bit_test x k : 0 <= k -> ((x &&& 1 ≪ k) =? 0) = negb (Z.testbit x k).
Proof.
  intros Hk. destruct (Z.testbit x k) eqn:E; cbn.
  - apply Z.eqb_neq. intros H0. apply (f_equal (fun y => Z.testbit y k)) in H0.
    rewrite Z.land_spec, Z.shiftl_spec, Z.sub_diag, E, Z.bits_0 in H0 by done. done.
  - apply Z.eqb_eq. apply Z.bits_inj'. intros n Hn. rewrite Z.land_spec, Z.shiftl_spec, Z.bits_0 by done.
    destruct (decide (n = k)) as [->|Hne]; [by rewrite E|]. apply andb_false_intro2.
    destruct (decide (n < k)); [apply Z.testbit_neg_r; lia|].
    change 1 with (2 ^ 0). apply Z.pow2_bits_false. lia.
Qed.

Lemma bit_clear_test d bi :
  ((d !!! bit_byte bi &&& bit_mask bi) =? 0) = negb (bit_set d bi).
Proof. unfold bit_mask, bit_set. apply bit_test. apply Z.mod_pos_bound. lia. Qed.

Definition mark_bit (bi : Z) (d : block) : block :=
  <[bit_byte bi := d !!! bit_byte bi ||| bit_mask bi]> d.
Definition clear_bit (bi : Z) (d : block) : block :=
  <[bit_byte bi := d !!! bit_byte bi &&& Z.lnot (bit_mask bi)]> d.

Lemma mask_bit bi k : 0 <= k -> Z.testbit (bit_mask bi) k = bool_decide (k = bi `mod` 8).
Proof.
  intros Hk. pose proof (Z.mod_pos_bound bi 8). unfold bit_mask. rewrite Z.shiftl_spec by done.
  case_bool_decide as E.
  - subst k. by rewrite Z.sub_diag.
  - destruct (decide (k < bi `mod` 8)); [apply Z.testbit_neg_r; lia|].
    change 1 with (2 ^ 0). apply Z.pow2_bits_false. lia.
Qed.

Lemma bit_set_mark d bi x :
  0 <= bi < 4096 -> 0 <= x < 4096 -> length d = 512%nat ->
  bit_set (mark_bit bi d) x = bool_decide (x = bi) || bit_set d x.
Proof.
  intros Hb Hx Hl. unfold bit_set, mark_bit, bit_byte.
  pose proof (Z.mod_pos_bound x 8). destruct (decide (x `div` 8 = bi `div` 8)) as [E|E].
  - rewrite E, list_lookup_total_insert_eq by (rewrite Hl; zlia).
    rewrite Z.lor_spec, mask_bit by lia. rewrite orb_comm. f_equal. apply bool_decide_ext. zlia.
  - rewrite list_lookup_total_insert_ne by zlia. rewrite bool_decide_false by congruence. done.
Qed.

Lemma bit_set_clear d bi x :
  0 <= bi < 4096 -> 0 <= x < 4096 -> length d = 512%nat ->
  bit_set (clear_bit bi d) x = negb (bool_decide (x = bi)) && bit_set d x.
Proof.
  intros Hb Hx Hl. unfold bit_set, clear_bit, bit_byte.
  pose proof (Z.mod_pos_bound x 8). destruct (decide (x `div` 8 = bi `div` 8)) as [E|E].
  - rewrite E, list_lookup_total_insert_eq by (rewrite Hl; zlia).
    rewrite Z.land_spec, Z.lnot_spec, mask_bit by lia. rewrite andb_comm. f_equal.
    f_equal. apply bool_decide_ext. zlia.
  - rewrite list_lookup_total_insert_ne by zlia. rewrite bool_decide_false by congruence. done.
Qed.
