(* ===== verification/FsAlloc.v ===== *)
(** * Block allocation ([balloc], [bfree], [bzero] of [fs.c], theorems)

    The free map is a set of blocks: [balloc] takes its least element and
    zeroes the block, [bfree] puts a block back, and neither touches another
    block.  Proved over every block layer. *)
From S2P Require Import Prelude Layout Locks Blocks BlockMem Log LogSpec LogCrash Fs FsSpec.

(** The free map a disk content represents. *)
Definition used (sb : superblock) (c : Z -> block) (b : Z) : bool :=
  bit_set (c (BBLOCK b sb)) (b `mod` BPB).

(** The bitmap blocks exist, and are neither held nor free themselves. *)
Record map_ok (sb : superblock) (v : view) : Prop := MapOk {
  mo_size : 0 <= sb_size sb <= v_size v;
  mo_blk : forall b, 0 <= b < sb_size sb -> 0 <= BBLOCK b sb < v_size v
    /\ length (v_content v (BBLOCK b sb)) = 512%nat /\ BBLOCK b sb ∉ v_held v;
  mo_self : forall b b', 0 <= b < sb_size sb -> 0 <= b' < sb_size sb ->
    used sb (v_content v) b = false -> BBLOCK b' sb <> b;
  mo_held : forall b, 0 <= b < sb_size sb -> b ∈ v_held v -> used sb (v_content v) b = true }.

Lemma BBLOCK_base sb b bi : b `mod` 4096 = 0 -> 0 <= bi < 4096 -> BBLOCK (b + bi) sb = BBLOCK b sb.
Proof. intros Hb Hi. unfold BBLOCK, BPB, BSIZE. f_equal. zlia. Qed.

Lemma bi_base b bi : b `mod` 4096 = 0 -> 0 <= bi < 4096 -> (b + bi) `mod` BPB = bi.
Proof. intros Hb Hi. unfold BPB, BSIZE. zlia. Qed.

Section alloc.
Context {S : Type} `{BlockLayer S}.
Implicit Types s : fsst S.

(** What an operation that returns all its buffers leaves: the view, and the
    buffers that were already held. *)
Definition done_at s s' (v' : view) (k : Z) : Prop :=
  moved s s' /\ txn s' v' k
  /\ forall h b, bl_owns (lg_bl (fs_log s)) h b -> bl_owns (lg_bl (fs_log s')) h b.

Lemma owns_held s v k h b : txn s v k -> bl_owns (lg_bl (fs_log s)) h b -> b ∈ v_held v.
Proof. intros T Ho. by destruct (data_of_eq (fs_log s) v h b (tx_view _ _ _ T) Ho) as (_ & _ & _ & ?). Qed.

Lemma done_trans s1 s2 s3 v2 v3 k2 k3 :
  done_at s1 s2 v2 k2 -> done_at s2 s3 v3 k3 -> done_at s1 s3 v3 k3.
Proof. intros (M1 & _ & O1) (M2 & T & O2). split; [by eapply moved_trans|]. split; [done|]. auto. Qed.

Definition wrote_view (b : Z) (d : block) (v : view) : view :=
  View (upd (v_content v) b d) (v_disk v) (v_held v) ({[ b ]} ∪ v_pinned v) (v_size v).

Lemma held_back b (X : gset Z) : b ∉ X -> ({[ b ]} ∪ X) ∖ {[ b ]} = X.
Proof. set_solver. Qed.

(** Release of the buffer of a block that was not held before. *)
Lemma wp_release_fs s0 s v v' k h b (Q : unit -> fsst S -> Prop) :
  (forall s', done_at s0 s' v' k -> Q tt s') ->
  moved s0 s -> txn s v k -> bl_owns (lg_bl (fs_log s)) h b -> clean v ->
  veq (vfree b v) v' ->
  (forall h' b', bl_owns (lg_bl (fs_log s0)) h' b' -> bl_owns (lg_bl (fs_log s)) h' b' /\ b' <> b) ->
  wp (brelse_ h) Q s.
Proof.
  intros HQ Hm T Ho Hc Hv Hk. eapply wp_brelse_fs; [exact T|exact Ho|done|].
  intros bl T' Hm'. apply HQ. split; [eapply moved_trans; [exact Hm|apply moved_bl]|].
  split; [by eapply txn_veq|]. intros h' b' Hx. destruct (Hk h' b' Hx). by apply Hm'.
Qed.

Lemma bzero_spec s v k b :
  txn s v (k + 1) -> 0 <= k -> 0 <= b < v_size v -> b ∉ v_held v -> (size (v_held v) <= 1)%nat ->
  clean v ->
  wp (bzero 1 b) (fun _ s' => done_at s s' (wrote_view b (replicate 512 0) v) k) s.
Proof.
  intros T Hk Hb Hh Hs Hc. unfold bzero.
  apply wp_bind. eapply wp_bread_fs; [exact T|lia|done|done|done|]. intros h b1 T1 O1 M1.
  apply wp_assoc, wp_bind. eapply (wp_write_fs _ _ k); [exact T1|done|exact O1|]. intros n blk b2 T2 M2.
  eapply (wp_release_fs s); [intros s' Hd; exact Hd| |exact T2|by apply M2| | |].
  - eapply moved_trans; [apply moved_bl|by exists n, blk, b2].
  - by apply clean_write.
  - split; try done; cbn. by rewrite held_back.
  - intros h' b' Hx. split; [by apply M2, M1|]. intros ->.
    apply Hh. eapply owns_held; [exact T|done].
Qed.

Lemma bfree_spec s v k b :
  let sb := fs_sb s in
  txn s v (k + 1) -> 0 <= k -> map_ok sb v -> 0 <= b < sb_size sb -> (size (v_held v) <= 1)%nat ->
  clean v ->
  if used sb (v_content v) b
  then wp (bfree 1 b) (fun _ s' =>
         done_at s s' (wrote_view (BBLOCK b sb) (clear_bit (b `mod` BPB) (v_content v (BBLOCK b sb))) v) k) s
  else bfree 1 b s = Panic "freeing free block".
Proof.
  intros sb T Hk Hm Hb Hs Hc. destruct (mo_blk _ _ Hm b Hb) as (Hr & Hl & Hh).
  assert (Hw : forall Q : Prop, (forall h bl, txn (with_bl bl s) (vhold (BBLOCK b sb) v) (k + 1) ->
       bl_owns bl h (BBLOCK b sb) ->
       (forall h' b', bl_owns (lg_bl (fs_log s)) h' b' -> bl_owns bl h' b') ->
       bread_ 1 (BBLOCK b sb) s = Done h (with_bl bl s) ->
       Q) -> Q).
  { intros Q HQ. destruct (wp_inv (bread_ 1 (BBLOCK b sb)) (fun h s' => exists bl, s' = with_bl bl s /\
      txn (with_bl bl s) (vhold (BBLOCK b sb) v) (k + 1) /\ bl_owns bl h (BBLOCK b sb) /\
      (forall h' b', bl_owns (lg_bl (fs_log s)) h' b' -> bl_owns bl h' b')) s) as (h & s' & E & bl & -> & ? & ? & ?).
    - eapply wp_bread_fs; [exact T|lia|done|done|done|]. intros h bl ???. by exists bl.
    - eauto. }
  apply Hw. intros h bl T1 O1 M1 E. clear Hw.
  assert (Ed : bytes_of h (with_bl bl s) = Done (v_content v (BBLOCK b sb)) (with_bl bl s)).
  { destruct (wp_inv (bytes_of h) (fun d s' => d = v_content v (BBLOCK b sb) /\ s' = with_bl bl s) (with_bl bl s))
      as (? & ? & E1 & -> & ->); [by eapply wp_bytes_of|done]. }
  destruct (used sb (v_content v) b) eqn:Eu.
  - unfold bfree. apply wp_bind, wp_gets, wp_bind. eapply wp_Done; [exact E|].
    apply wp_bind. eapply wp_Done; [exact Ed|].
    rewrite bit_clear_test. unfold used in Eu. rewrite Eu. cbn [negb].
    apply wp_assoc, wp_bind. eapply (wp_write_fs _ _ k); [exact T1|done|exact O1|]. intros n blk b2 T2 M2.
    eapply (wp_release_fs s); [intros s' Hd; exact Hd| |exact T2|by apply M2| | |].
    + eapply moved_trans; [apply moved_bl|by exists n, blk, b2].
    + by apply clean_write.
    + split; try done; cbn. by rewrite held_back.
    + intros h' b' Hx. split; [by apply M2, M1|]. intros ->.
      apply Hh. eapply owns_held; [exact T|done].
  - unfold bfree, mbind, M_bind, sb_, gets. fold sb. rewrite E, Ed.
    rewrite bit_clear_test. unfold used in Eu. by rewrite Eu.
Qed.

Definition alloc_view (sb : superblock) (b : Z) (v : view) : view :=
  wrote_view b (replicate 512 0)
    (wrote_view (BBLOCK b sb) (mark_bit (b `mod` BPB) (v_content v (BBLOCK b sb))) v).

Lemma moved_sb s s' : moved s s' -> fs_sb s' = fs_sb s.
Proof. by intros (? & ? & ? & ->). Qed.

Lemma clean_wrote b d v : clean v -> clean (wrote_view b d v).
Proof. apply clean_write. Qed.

(** The allocation proper, at a free bit of the bitmap block held in [h]. *)
Lemma balloc_bit_hit s0 s v k h b bi :
  let sb := fs_sb s0 in
  moved s0 s -> txn s (vhold (BBLOCK b sb) v) (k + 2) -> 0 <= k ->
  bl_owns (lg_bl (fs_log s)) h (BBLOCK b sb) ->
  (forall h' b', bl_owns (lg_bl (fs_log s0)) h' b' -> bl_owns (lg_bl (fs_log s)) h' b' /\ b' ∈ v_held v) ->
  map_ok sb v -> (size (v_held v) <= 1)%nat -> clean v ->
  b `mod` 4096 = 0 -> 0 <= bi < 4096 -> 0 <= b + bi < sb_size sb ->
  used sb (v_content v) (b + bi) = false ->
  wp (balloc_bit 1 h b bi) (fun r s' => r = Some (b + bi) /\ done_at s0 s' (alloc_view sb (b + bi) v) k) s.
Proof.
  intros sb Hmv T Hk O Hown Hm Hs Hc Hb Hbi Hr Hu.
  assert (EB : BBLOCK (b + bi) sb = BBLOCK b sb) by by apply BBLOCK_base.
  assert (Ei : (b + bi) `mod` BPB = bi) by by apply bi_base.
  destruct (mo_blk _ _ Hm (b + bi) Hr) as (Hrg & Hl & Hh). rewrite EB in Hrg, Hl, Hh.
  assert (Hne : BBLOCK b sb <> b + bi) by (rewrite <- EB; by apply (mo_self _ _ Hm)).
  unfold balloc_bit. apply wp_bind. eapply wp_bytes_of; [exact T|exact O|]. cbn [vhold v_content].
  rewrite bit_clear_test. pose proof Hu as Hu2. unfold used in Hu2. rewrite EB, Ei in Hu2. rewrite Hu2. cbn [negb].
  replace (k + 2) with (k + 1 + 1) in T by lia.
  apply wp_assoc, wp_bind. eapply (wp_write_fs _ _ (k + 1)); [exact T|lia|exact O|]. intros n blk b2 T2 M2.
  apply wp_bind.
  eapply (wp_release_fs s0 _ _ (wrote_view (BBLOCK b sb) (mark_bit bi (v_content v (BBLOCK b sb))) v));
    [|eapply moved_trans; [exact Hmv|by exists n, blk, b2]|exact T2|by apply M2| | |].
  - intros s' (M3 & T3 & O3). apply wp_bind.
    eapply wp_mono; [eapply (bzero_spec _ _ k); [exact T3|done| |cbn|done|by apply clean_wrote]|].
    + cbn. pose proof (mo_size _ _ Hm). lia.
    + intros Hin. by rewrite (mo_held _ _ Hm) in Hu.
    + intros [] s2 Hd. split; [done|]. unfold alloc_view. rewrite EB, Ei.
      eapply done_trans; [|exact Hd]. by split.
  - by apply clean_write.
  - split; try done; cbn. by rewrite held_back.
  - intros h' b' Hx. destruct (Hown h' b' Hx) as [Ho' Hin]. split; [by apply M2|]. by intros ->.
Qed.

(** The outcome of a search of the bitmap from the state [s0]. *)
Definition alloc_post s0 (v : view) (k : Z) (ok : Z -> Prop) (r : option Z) s : Prop :=
  let sb := fs_sb s0 in
  match r with
  | Some b => 0 <= b < sb_size sb /\ used sb (v_content v) b = false /\ ok b
      /\ done_at s0 s (alloc_view sb b v) k
  | None => done_at s0 s v (k + 2)
  end.

Definition free_in (sb : superblock) (c : Z -> block) (b : Z) : bool :=
  existsb (fun bi => negb (used sb c (b + bi))) (seqZ 0 (BPB `min` (sb_size sb - b))).

Lemma balloc_block_spec s0 s v k b :
  let sb := fs_sb s0 in
  done_at s0 s v (k + 2) -> 0 <= k -> map_ok sb v -> (size (v_held v) <= 1)%nat -> clean v ->
  b `mod` 4096 = 0 -> 0 <= b < sb_size sb ->
  wp (balloc_block 1 b) (fun r s' =>
    if free_in sb (v_content v) b
    then exists b', r = Some b' /\ alloc_post s0 v k
           (fun x => b <= x < b + 4096 /\ forall y, b <= y < x -> used sb (v_content v) y = true) r s'
    else r = None /\ alloc_post s0 v k (fun _ => False) r s') s.
Proof.
  intros sb (Hmv & T & Ho) Hk Hm Hs Hc Hb Hr. pose proof (mo_blk _ _ Hm b Hr) as (Hrg & Hl & Hh).
  unfold balloc_block. apply wp_bind, wp_gets. rewrite (moved_sb _ _ Hmv). fold sb.
  apply wp_bind. eapply wp_bread_fs; [exact T|lia|done|done|done|]. intros h b1 T1 O1 M1.
  set (s1 := with_bl b1 s) in *. apply wp_bind.
  assert (Hmv1 : moved s0 s1) by (eapply moved_trans; [exact Hmv|apply moved_bl]).
  assert (Hown : forall h' b', bl_owns (lg_bl (fs_log s0)) h' b' ->
    bl_owns (lg_bl (fs_log s1)) h' b' /\ b' ∈ v_held v).
  { intros h' b' Hx%Ho. split; [by apply M1|]. by eapply owns_held. }
  assert (Hin : forall bi, bi ∈ seqZ 0 (BPB `min` (sb_size sb - b)) ->
    0 <= bi < 4096 /\ 0 <= b + bi < sb_size sb).
  { intros bi Hx%elem_of_seqZ. unfold BPB, BSIZE in Hx. lia. }
  eapply (wp_for_ret_find (fun s' => s' = s1) (fun bi => negb (used sb (v_content v) (b + bi)))); [done|..].
  - intros bi s2 Hx -> Hu. apply Hin in Hx as [Hx1 Hx2]. unfold balloc_bit.
    apply wp_bind. eapply wp_bytes_of; [exact T1|exact O1|]. cbn [vhold v_content].
    rewrite bit_clear_test. unfold used in Hu. rewrite BBLOCK_base, bi_base in Hu by done.
    apply negb_false_iff in Hu. rewrite Hu. apply wp_ret. done.
  - intros pre bi post s2 El Hpre Hu ->. apply negb_true_iff in Hu.
    assert (Hx : bi ∈ seqZ 0 (BPB `min` (sb_size sb - b))) by (rewrite El; set_solver).
    apply Hin in Hx as [Hx1 Hx2].
    eapply wp_mono; [eapply (balloc_bit_hit s0 s1 v k); try done|].
    intros r s3 [-> Hd]. exists (b + bi). split; [done|]. apply wp_ret.
    replace (free_in sb (v_content v) b) with true.
    + exists (b + bi). split; [done|]. cbn. fold sb. split_and!; try done; try lia. intros y Hy.
      assert (Hp : y - b ∈ pre) by (eapply seqZ_before; [exact El|lia]).
      rewrite Forall_forall in Hpre. specialize (Hpre _ Hp). cbn in Hpre.
      apply negb_false_iff in Hpre. by replace (b + (y - b)) with y in Hpre by lia.
    + symmetry. apply existsb_exists. exists bi. split; [apply list_elem_of_In; rewrite El; set_solver|].
      by rewrite Hu.
  - intros Hall s2 ->. apply wp_bind.
    eapply (wp_release_fs s0 _ _ v); [|exact Hmv1|exact T1|exact O1|done| |].
    + intros s' Hd. apply wp_ret.
      replace (free_in sb (v_content v) b) with false; [done|].
      destruct (free_in sb (v_content v) b) eqn:Ef; [|done]. exfalso.
      apply existsb_exists in Ef as (bi & Hx & Hn).
      apply list_elem_of_In in Hx. rewrite Forall_forall in Hall. rewrite Hall in Hn by done. done.
    + split; try done; cbn. by rewrite held_back.
    + intros h' b' Hx. destruct (Hown h' b' Hx) as [Hx1 Hx2]. split; [done|]. by intros ->.
Qed.

Lemma free_in_false sb c x y :
  free_in sb c x = false -> x <= y < x + 4096 -> y < sb_size sb -> used sb c y = true.
Proof.
  intros Hf Hy Hlt. apply not_false_iff_true. intros Hu. apply not_true_iff_false in Hf. apply Hf.
  unfold free_in. apply existsb_exists. exists (y - x). split.
  - apply list_elem_of_In, elem_of_seqZ. unfold BPB, BSIZE. lia.
  - replace (x + (y - x)) with y by lia. by rewrite Hu.
Qed.

(** [balloc] takes the least free block and zeroes it; without one it panics. *)
Lemma balloc_spec s v k :
  let sb := fs_sb s in
  txn s v (k + 2) -> 0 <= k -> map_ok sb v -> (size (v_held v) <= 1)%nat -> clean v ->
  (exists b s', balloc 1 s = Done b s' /\ 0 <= b < sb_size sb
     /\ used sb (v_content v) b = false
     /\ (forall y, 0 <= y < b -> used sb (v_content v) y = true)
     /\ done_at s s' (alloc_view sb b v) k)
  \/ (balloc 1 s = Panic "balloc: out of blocks"
     /\ forall b, 0 <= b < sb_size sb -> used sb (v_content v) b = true).
Proof.
  intros sb T Hk Hm Hs Hc. pose proof (mo_size _ _ Hm) as Hsz.
  set (N := (sb_size sb + BPB - 1) `div` BPB). set (l := (fun k => k * BPB) <$> seqZ 0 N).
  assert (Hl : forall x, x ∈ l -> x `mod` 4096 = 0 /\ 0 <= x < sb_size sb).
  { intros x (j & -> & Hj%elem_of_seqZ)%list_elem_of_fmap. unfold N, BPB, BSIZE in *. zlia. }
  assert (Hw : wp (for_ret l (balloc_block 1)) (fun r s' =>
    alloc_post s v k (fun x => forall y, 0 <= y < x -> used sb (v_content v) y = true) r s'
    /\ (r = None -> forall b, 0 <= b < sb_size sb -> used sb (v_content v) b = true)) s).
  { eapply (wp_for_ret_find (fun s' => done_at s s' v (k + 2)) (free_in sb (v_content v))).
    - split; [apply moved_refl|done].
    - intros x s' Hx Hd Hf. apply Hl in Hx as [??].
      eapply wp_mono; [by apply (balloc_block_spec s s' v k x)|].
      intros r s2. cbn. fold sb. rewrite Hf. by intros [-> Hp].
    - intros pre x post s' El Hpre Hf Hd.
      assert (Hx : x ∈ l) by (rewrite El; set_solver). apply Hl in Hx as [Hx1 Hx2].
      eapply wp_mono; [by apply (balloc_block_spec s s' v k x)|].
      intros r s2. cbn. fold sb. rewrite Hf. intros (b' & -> & Hb & Hu & (Hx & Hfst) & Hd').
      exists b'. split; [done|]. split; [|done]. change (fs_sb s) with sb in Hb, Hu.
      split_and!; try done; try lia. intros y Hy.
      destruct (decide (x <= y)); [apply Hfst; lia|].
      assert (Hyp : y `div` 4096 * BPB ∈ pre).
      { assert (Ex : l !! length pre = Some x) by (by rewrite El, list_lookup_middle).
        apply list_lookup_fmap_Some in Ex as (j & -> & Hj%lookup_seqZ).
        set (i := y `div` 4096). assert (Hi : l !! Z.to_nat i = Some (i * BPB)).
        { apply list_lookup_fmap_Some. exists i. split; [done|]. apply lookup_seqZ.
          unfold i, BPB, BSIZE in *. zlia. }
        rewrite El, lookup_app_l in Hi by (unfold i, BPB, BSIZE in *; zlia).
        by eapply list_elem_of_lookup_2. }
      rewrite Forall_forall in Hpre. eapply free_in_false; [by apply Hpre| |lia].
      unfold BPB, BSIZE. zlia.
    - intros Hall s' Hd. split; [done|]. intros _ b Hb. rewrite Forall_forall in Hall.
      eapply (free_in_false sb _ (b `div` 4096 * BPB)); [apply Hall|unfold BPB, BSIZE; zlia|lia].
      apply list_elem_of_fmap. exists (b `div` 4096). split; [done|]. apply elem_of_seqZ.
      unfold N, BPB, BSIZE. zlia. }
  apply wp_inv in Hw as ([b|] & s' & E & Hp & Hn); [left|right].
  - exists b, s'. destruct Hp as (H1 & H2 & H3 & H4). change (fs_sb s) with sb in H1, H2. split_and!; try done; try lia.
    unfold balloc, mbind, M_bind, sb_, gets. fold sb. fold N l. by rewrite E.
  - split; [|by apply Hn]. unfold balloc, mbind, M_bind, sb_, gets. fold sb. fold N l. by rewrite E.
Qed.
End alloc.

Section map.
Context (sb : superblock) (v : view).
Hypothesis Hm : map_ok sb v.

Lemma BBLOCK_same x y : BBLOCK x sb = BBLOCK y sb <-> x `div` 4096 = y `div` 4096.
Proof. unfold BBLOCK. change BPB with 4096. lia. Qed.

(** How an update of one bit of one bitmap block changes the free map. *)
Lemma used_update c d b y (f : bool -> bool) :
  0 <= y -> 0 <= b ->
  (forall x, 0 <= x < 4096 -> bit_set d x =
     if bool_decide (x = b `mod` BPB) then f (bit_set (c (BBLOCK b sb)) x) else bit_set (c (BBLOCK b sb)) x) ->
  used sb (upd c (BBLOCK b sb) d) y = if bool_decide (y = b) then f (used sb c y) else used sb c y.
Proof.
  intros Hy Hb Hd. unfold used, upd. split_decide as [E|E].
  - rewrite Hd by (unfold BPB, BSIZE; zlia). rewrite E. apply BBLOCK_same in E.
    unfold BPB, BSIZE. erewrite (bool_decide_ext (y `mod` _ = _)); [done|]. zlia.
  - rewrite bool_decide_false; [done|]. intros ->. done.
Qed.

Lemma used_elsewhere c b d y : (forall b', 0 <= b' < sb_size sb -> BBLOCK b' sb <> b) ->
  0 <= y < sb_size sb -> used sb (upd c b d) y = used sb c y.
Proof.
  intros Hn Hy. unfold used, upd. rewrite decide_False; [done|]. by apply Hn.
Qed.

Lemma used_alloc b y :
  0 <= b < sb_size sb -> 0 <= y < sb_size sb -> used sb (v_content v) b = false ->
  used sb (v_content (alloc_view sb b v)) y = bool_decide (y = b) || used sb (v_content v) y.
Proof.
  intros Hb Hy Hu. cbn. rewrite used_elsewhere; [|intros b' Hb'; by apply (mo_self _ _ Hm)|done].
  destruct (mo_blk _ _ Hm b Hb) as (_ & Hl & _).
  rewrite (used_update _ _ _ _ (fun _ => true)); [by case_bool_decide|lia|lia|].
  intros x Hx. rewrite bit_set_mark; [by case_bool_decide|unfold BPB, BSIZE; zlia|done|done].
Qed.

Lemma used_freed b y :
  0 <= b < sb_size sb -> 0 <= y < sb_size sb ->
  used sb (v_content (wrote_view (BBLOCK b sb) (clear_bit (b `mod` BPB) (v_content v (BBLOCK b sb))) v)) y
  = negb (bool_decide (y = b)) && used sb (v_content v) y.
Proof.
  intros Hb Hy. destruct (mo_blk _ _ Hm b Hb) as (_ & Hl & _). cbn.
  rewrite (used_update _ _ _ _ (fun _ => false)); [by case_bool_decide|lia|lia|].
  intros x Hx. rewrite bit_set_clear; [by case_bool_decide|unfold BPB, BSIZE; zlia|done|done].
Qed.

Lemma map_ok_alloc b :
  0 <= b < sb_size sb -> used sb (v_content v) b = false -> map_ok sb (alloc_view sb b v).
Proof.
  intros Hb Hu. destruct (mo_blk _ _ Hm b Hb) as (_ & Hlb & _). split; [apply (mo_size _ _ Hm)|..].
  - intros y Hy. destruct (mo_blk _ _ Hm y Hy) as (H1 & H2 & H3). split; [done|]. split; [|done].
    cbn. unfold upd. rewrite decide_False by (apply (mo_self _ _ Hm); done).
    split_decide as [E|]; [|done]. unfold mark_bit. by rewrite length_insert.
  - intros y y' Hy Hy'. rewrite used_alloc by done. intros [_ Hn]%orb_false_iff. by apply (mo_self _ _ Hm).
  - intros y Hy Hh. rewrite used_alloc by done. by rewrite (mo_held _ _ Hm), orb_true_r.
Qed.

Lemma map_ok_freed b :
  0 <= b < sb_size sb -> b ∉ v_held v -> (forall b', 0 <= b' < sb_size sb -> BBLOCK b' sb <> b) ->
  map_ok sb (wrote_view (BBLOCK b sb) (clear_bit (b `mod` BPB) (v_content v (BBLOCK b sb))) v).
Proof.
  intros Hb Hh Hs. destruct (mo_blk _ _ Hm b Hb) as (_ & Hlb & _). split; [apply (mo_size _ _ Hm)|..].
  - intros y Hy. destruct (mo_blk _ _ Hm y Hy) as (H1 & H2 & H3). split; [done|]. split; [|done].
    cbn. unfold upd. split_decide as [E|]; [|done]. unfold clear_bit. by rewrite length_insert.
  - intros y y' Hy Hy'. rewrite used_freed by done. intros [Hn|Hn]%andb_false_iff.
    + apply negb_false_iff, bool_decide_eq_true_1 in Hn as ->. by apply Hs.
    + by apply (mo_self _ _ Hm).
  - intros y Hy Hyh. rewrite used_freed by done. rewrite (mo_held _ _ Hm) by done.
    rewrite bool_decide_false; [done|]. by intros ->.
Qed.
End map.

(** [balloc] returns the least free block, marks it used, zeroes it, leaves
    every other block and every other bit of the free map alone, and panics
    exactly when the map has no free block. *)
Theorem balloc_takes_least_free {S} `{BlockLayer S} (s : fsst S) v k :
  txn s v (k + 2) -> 0 <= k -> map_ok (fs_sb s) v -> (size (v_held v) <= 1)%nat -> clean v ->
  (exists b s' v', balloc 1 s = Done b s' /\ done_at s s' v' k /\ map_ok (fs_sb s) v' /\ clean v'
     /\ 0 <= b < sb_size (fs_sb s) /\ used (fs_sb s) (v_content v) b = false
     /\ (forall y, 0 <= y < b -> used (fs_sb s) (v_content v) y = true)
     /\ v_content v' b = replicate 512 0
     /\ (forall y, 0 <= y < sb_size (fs_sb s) ->
           used (fs_sb s) (v_content v') y = bool_decide (y = b) || used (fs_sb s) (v_content v) y)
     /\ (forall x, x <> b -> x <> BBLOCK b (fs_sb s) -> v_content v' x = v_content v x))
  \/ (balloc 1 s = Panic "balloc: out of blocks"
     /\ forall b, 0 <= b < sb_size (fs_sb s) -> used (fs_sb s) (v_content v) b = true).
Proof.
  intros T Hk Hm Hs Hc.
  destruct (balloc_spec s v k T Hk Hm Hs Hc) as [(b & s' & E & Hb & Hu & Hl & Hd)|Hp]; [left|by right].
  exists b, s', (alloc_view (fs_sb s) b v). split_and!; try done; try lia.
  - by apply map_ok_alloc.
  - by do 2 apply clean_wrote.
  - cbn. unfold upd. by rewrite decide_True.
  - intros y Hy. by apply used_alloc.
  - intros x H1 H2. cbn. unfold upd. by rewrite !decide_False.
Qed.

(** [bfree] of a used block makes it free again and changes nothing else
    in the map; freeing a free block panics.  So freeing what [balloc] returned
    gives back the map of before. *)
Theorem bfree_returns_block {S} `{BlockLayer S} (s : fsst S) v k b :
  txn s v (k + 1) -> 0 <= k -> map_ok (fs_sb s) v -> (size (v_held v) <= 1)%nat -> clean v ->
  0 <= b < sb_size (fs_sb s) ->
  if used (fs_sb s) (v_content v) b
  then exists s' v', bfree 1 b s = Done tt s' /\ done_at s s' v' k /\ clean v'
     /\ (forall y, 0 <= y < sb_size (fs_sb s) ->
           used (fs_sb s) (v_content v') y = negb (bool_decide (y = b)) && used (fs_sb s) (v_content v) y)
     /\ (forall x, x <> BBLOCK b (fs_sb s) -> v_content v' x = v_content v x)
     /\ (b ∉ v_held v -> (forall b', 0 <= b' < sb_size (fs_sb s) -> BBLOCK b' (fs_sb s) <> b) -> map_ok (fs_sb s) v')
  else bfree 1 b s = Panic "freeing free block".
Proof.
  intros T Hk Hm Hs Hc Hb. pose proof (bfree_spec s v k b T Hk Hm Hb Hs Hc) as Hw.
  destruct (used _ _ b); [|exact Hw]. apply wp_inv in Hw as ([] & s' & E & Hd).
  eexists s', _. split_and!; [exact E|exact Hd|by apply clean_wrote|..].
  - intros y Hy. by apply used_freed.
  - intros x Hx. cbn. unfold upd. by rewrite decide_False.
  - intros. by apply map_ok_freed.
Qed.

(** ** An instance: a disk of 70 blocks, the first 60 used, the map in block 58 *)
Definition ex_sb : superblock := Superblock 70 10 16 30 2 32 58.
Definition ex_map : block := replicate 7 255 ++ [15] ++ replicate 504 0.
Definition ex_disk : gmap Z block := {[ 58 := ex_map ]}.
Definition ex_fs : fsst bmem :=
  Fsst (Lgst 2 LOGSIZE 1 0 1 0 (replicate 30 0) (Bmem ex_disk ex_disk ∅ ∅ 70) [] 0 [])
    ex_sb (replicate (Z.to_nat NINODE) inhabitant) 1 0.
Definition ex_view : view := mem_view (Bmem ex_disk ex_disk ∅ ∅ 70).

Lemma ex_txn k : 0 <= k <= 20 -> txn ex_fs ex_view k.
Proof.
  intros Hk. split; cbn [ex_fs fs_log lg_bl lg_held lg_n lg_size lg_outstanding lg_block ex_view mem_view v_pinned bm_pinned];
    unfold NBUF, LOGSIZE, MAXOPBLOCKS; try done; try lia.
  - rewrite size_empty. lia.
  - intros _. apply not_elem_of_nil.
Qed.

Lemma ex_BBLOCK b : 0 <= b < 70 -> BBLOCK b ex_sb = 58.
Proof. intros Hb. unfold BBLOCK. change BPB with 4096. cbn. zlia. Qed.

Lemma ex_map_ok : map_ok ex_sb ex_view.
Proof.
  split; [done|..]; cbn [ex_sb sb_size].
  - intros b Hb. by rewrite ex_BBLOCK.
  - intros b b' Hb Hb' Hu. rewrite ex_BBLOCK by done. intros <-. by vm_compute in Hu.
  - intros b Hb Hx. cbn in Hx. set_solver.
Qed.

Lemma ex_clean : clean ex_view.
Proof. done. Qed.

Lemma balloc_takes_least_free_witness :
  txn ex_fs ex_view 2 /\ map_ok (fs_sb ex_fs) ex_view
  /\ exists b s', balloc 1 ex_fs = Done b s' /\ b = 60.
Proof.
  assert (T : txn ex_fs ex_view 2) by (apply ex_txn; lia).
  split; [exact T|]. split; [exact ex_map_ok|].
  destruct (balloc_takes_least_free ex_fs ex_view 0 T ltac:(lia) ex_map_ok ltac:(vm_compute; lia) ex_clean)
    as [(b & s' & v' & E & _ & _ & _ & Hb & Hu & Hl & _)|[_ Hn]].
  - exists b, s'. split; [exact E|]. destruct (Z.lt_total b 60) as [Hlt|[->|Hgt]]; [|done|].
    + exfalso. assert (Hall : forallb (used ex_sb (v_content ex_view)) (seqZ 0 60) = true) by (vm_compute; reflexivity).
      rewrite forallb_forall in Hall. change (fs_sb ex_fs) with ex_sb in Hu.
      rewrite Hall in Hu; [done|]. apply list_elem_of_In, elem_of_seqZ. lia.
    + specialize (Hl 60 ltac:(lia)). by vm_compute in Hl.
  - specialize (Hn 60 ltac:(vm_compute; split; congruence)). by vm_compute in Hn.
Defined.

Lemma bfree_returns_block_witness :
  txn ex_fs ex_view 1 /\ map_ok (fs_sb ex_fs) ex_view
  /\ exists s' v', bfree 1 59 ex_fs = Done tt s' /\ used (fs_sb ex_fs) (v_content v') 59 = false.
Proof.
  assert (T : txn ex_fs ex_view 1) by (apply ex_txn; lia).
  split; [exact T|]. split; [exact ex_map_ok|].
  assert (Hb : 0 <= 59 < sb_size (fs_sb ex_fs)) by (change (0 <= 59 < 70); lia).
  assert (Hs : (size (v_held ex_view) <= 1)%nat) by (change (v_held ex_view) with (∅ : gset Z); rewrite size_empty; lia).
  assert (Eu : used (fs_sb ex_fs) (v_content ex_view) 59 = true) by (vm_compute; reflexivity).
  pose proof (bfree_returns_block ex_fs ex_view 0 59 T (Z.le_refl 0) ex_map_ok Hs ex_clean Hb) as Hf.
  rewrite Eu in Hf.
  destruct Hf as (s' & v' & E & _ & _ & Hu & _).
  exists s', v'. split; [exact E|]. by rewrite Hu by exact Hb.
Defined.
