(* ===== verification/FsNames.v ===== *)
(** * Names and on-disk records ([skipelem], [namecmp], dinodes, dirents: theorems)

    Path parsing against an independent definition of the components of a
    path, and the layout of inodes and directory entries in a block. *)
From S2P Require Import Prelude Layout Locks Sleeplock Blocks Fs.

(** ** Paths *)

(** The components of a path: its maximal runs of bytes other than slash. *)
Fixpoint comps_from (cur : list Z) (path : list Z) : list (list Z) :=
  match path with
  | [] => match cur with [] => [] | _ => [cur] end
  | c :: p =>
      if c =? slash then match cur with [] => comps_from [] p | _ => cur :: comps_from [] p end
      else comps_from (cur ++ [c]) p
  end.
Definition comps (path : list Z) : list (list Z) := comps_from [] path.

(** A C string: no NUL before its end. *)
Definition nonul (l : list Z) : Prop := Forall (fun c => c <> 0) l.

(** The name buffer after an element has been copied into it. *)
Definition name_is (name e : list Z) : Prop :=
  take (Z.to_nat DIRSIZ) e = take (length (take (Z.to_nat DIRSIZ) e)) name
  /\ ((length e < Z.to_nat DIRSIZ)%nat -> name !! length e = Some 0).

Lemma comps_skip path : comps (skip_slashes path) = comps path.
Proof.
  unfold comps. induction path as [|c p IH]; [done|]. cbn. destruct (c =? slash) eqn:E; [done|].
  cbn. by rewrite E.
Qed.

Lemma skip_nonul path : nonul path -> nonul (skip_slashes path).
Proof. induction 1 as [|c p Hc Hp IH]; [constructor|]. cbn. destruct (c =? slash); [done|by constructor]. Qed.

Lemma skip_head path : hd 0 (skip_slashes path) <> slash.
Proof.
  unfold slash. induction path as [|c p IH]; cbn; [lia|]. unfold slash.
  destruct (c =? 47) eqn:E; cbn; [done|lia].
Qed.

Lemma skip_length path : (length (skip_slashes path) <= length path)%nat.
Proof. induction path as [|c p IH]; [done|]. cbn. destruct (c =? slash); cbn; lia. Qed.

Lemma span_spec path e r cur :
  nonul path -> span_elem path = (e, r) ->
  path = e ++ r /\ (r = [] \/ hd 0 r = slash)
  /\ comps_from cur path = match cur ++ e with [] => comps_from [] r | _ => (cur ++ e) :: comps_from [] r end.
Proof.
  intros Hp. revert e r cur. induction Hp as [|c p Hc Hp IH]; intros e r cur E; cbn in E.
  - injection E as <- <-. split; [done|]. split; [by left|]. cbn. rewrite app_nil_r. by destruct cur.
  - destruct (c =? slash) eqn:Es; cbn in E.
    + injection E as <- <-. split; [done|]. split; [right; cbn; lia|]. cbn. rewrite Es, app_nil_r.
      by destruct cur.
    + replace (c !=? 0) with true in E by (symmetry; apply negb_true_iff; lia).
      destruct (span_elem p) as [e' r'] eqn:Ep. injection E as <- <-.
      destruct (IH e' r' (cur ++ [c]) eq_refl) as (-> & Hr & Hcmp).
      split; [done|]. split; [done|]. cbn. rewrite Es, Hcmp, <- app_assoc. cbn.
      by destruct cur.
Qed.

(** (C28) [skipelem] peels path components off one at a time: it returns 0 exactly
    when the path has none left, otherwise it leaves in [name] the first
    component cut to [DIRSIZ] bytes (NUL-terminated when shorter) and returns a
    strictly shorter path without leading slashes that has the other ones. *)
Theorem skipelem_components path name :
  nonul path -> length name = Z.to_nat DIRSIZ ->
  match skipelem path name with
  | None => comps path = []
  | Some (path', name') =>
      exists e, comps path = e :: comps path' /\ e <> [] /\ name_is name' e
        /\ length name' = Z.to_nat DIRSIZ /\ nonul path' /\ hd 0 path' <> slash
        /\ (length path' < length path)%nat
  end.
Proof.
  intros Hp Hn. unfold skipelem. pose proof (skip_length path) as Hlen.
  rewrite <- (comps_skip path). pose proof (skip_nonul _ Hp) as Hp'. pose proof (skip_head path) as Hh.
  generalize dependent (skip_slashes path). intros q Hlen Hq Hh.
  destruct q as [|c q]; [done|]. assert (Hc : c <> 0) by by inversion Hq. cbn [hd] in *.
  replace (c =? 0) with false by lia. destruct (span_elem (c :: q)) as [e r] eqn:E.
  destruct (span_spec _ _ _ [] Hq E) as (Eq & Hr & Hcmp). cbn [app] in Hcmp.
  assert (He : e <> []).
  { intros ->. cbn in Eq. subst r. destruct Hr as [Hr|Hr]; [done|]. by cbn in Hr. }
  exists e. rewrite Eq in Hlen. rewrite length_app in Hlen. pose proof (skip_length r) as Hlr.
  split_and!; try done.
  - rewrite comps_skip. unfold comps. rewrite Hcmp. by destruct e.
  - unfold name_is. unfold DIRSIZ in *. rewrite length_take. destruct (Z.of_nat (length e) >=? 14) eqn:El.
    + rewrite Z.geb_leb in El. split; [|lia].
      rewrite take_take. f_equal. lia.
    + rewrite Z.geb_leb in El. change (Z.to_nat 14) with 14%nat.
      rewrite (take_ge e) by lia. replace (14 `min` length e)%nat with (length e) by lia.
      split; [by rewrite take_app_length|]. intros _. by rewrite lookup_app_r, Nat.sub_diag by lia.
  - unfold DIRSIZ in *. destruct (Z.of_nat (length e) >=? 14) eqn:El; rewrite Z.geb_leb in El.
    + rewrite length_take. lia.
    + rewrite !length_app, length_drop, Hn. cbn. lia.
  - apply skip_nonul. rewrite Eq in Hq. by apply Forall_app in Hq as [_ ?].
  - apply skip_head.
  - assert (length e <> 0)%nat by by destruct e. lia.
Qed.

Lemma skipelem_components_witness :
  nonul [47; 47; 97; 98; 47; 99] /\ comps [47; 47; 97; 98; 47; 99] = [[97; 98]; [99]]
  /\ exists p n, skipelem [47; 47; 97; 98; 47; 99] (replicate 14 7) = Some (p, n) /\ hd 0 p <> slash.
Proof.
  assert (Hp : nonul [47; 47; 97; 98; 47; 99]) by by repeat constructor.
  split; [exact Hp|]. split; [reflexivity|].
  pose proof (skipelem_components _ (replicate 14 7) Hp eq_refl) as Hs.
  destruct (skipelem _ _) as [[p n]|]; [|discriminate Hs].
  destruct Hs as (e & _ & _ & _ & _ & _ & Hh & _). by exists p, n.
Defined.

(** ** Comparison of names *)

(** What precedes the NUL. *)
Fixpoint cname (l : list Z) : list Z :=
  match l with [] => [] | c :: l' => if truth c then c :: cname l' else [] end.

Lemma strncmp_bytes_eq n p q :
  strncmp_bytes n p q = 0 <-> take n (cname p) = take n (cname q).
Proof.
  revert p q. induction n as [|n IH]; intros p q; [done|].
  destruct p as [|c p], q as [|e q]; cbn; unfold truth.
  - done.
  - destruct (e =? 0) eqn:E; cbn; split; try done; try lia.
  - destruct (c =? 0) eqn:E; cbn; [split; try done; lia|].
    destruct (c =? 0) eqn:E2; cbn; split; try done; lia.
  - destruct (c =? 0) eqn:E; cbn.
    + destruct (e =? 0) eqn:E2; cbn; split; try done; try lia.
    + destruct (c =? e) eqn:E3; cbn.
      * assert (c = e) as -> by lia. rewrite E. cbn. rewrite !drop_0, IH. split; [by intros ->|by intros [=]].
      * destruct (e =? 0) eqn:E2; cbn; split; try done; try lia. intros [= -> _]. lia.
Qed.

(** ** Inodes on disk *)

(** [d'] differs from [d] at most in the bytes [lo .. hi-1]. *)
Definition frame (lo hi : nat) (d d' : block) : Prop :=
  length d' = length d /\ forall i, (i < lo \/ hi <= i)%nat -> d' !!! i = d !!! i.

Lemma frame_refl lo hi d : frame lo hi d d.
Proof. done. Qed.
Lemma frame_trans lo hi d1 d2 d3 : frame lo hi d1 d2 -> frame lo hi d2 d3 -> frame lo hi d1 d3.
Proof. intros [L1 F1] [L2 F2]. split; [congruence|]. intros i Hi. by rewrite F2, F1. Qed.
Lemma frame_weaken lo hi lo' hi' d d' : (lo' <= lo)%nat -> (hi <= hi')%nat -> frame lo hi d d' -> frame lo' hi' d d'.
Proof. intros H1 H2 [L F]. split; [done|]. intros i Hi. apply F. lia. Qed.
Lemma frame_put16 o v d : frame o (o + 2) d (put16 o v d).
Proof.
  unfold put16. split; [by rewrite !length_insert|]. intros i Hi.
  by rewrite !list_lookup_total_insert_ne by lia.
Qed.
Lemma frame_put32 o v d : frame o (o + 4) d (put32 o v d).
Proof.
  unfold put32. split; [by rewrite !length_insert|]. intros i Hi.
  by rewrite !list_lookup_total_insert_ne by lia.
Qed.
Lemma get16_frame lo hi d d' o : frame lo hi d d' -> (o + 2 <= lo \/ hi <= o)%nat -> get16 d' o = get16 d o.
Proof. intros [_ F] Ho. unfold get16. by rewrite !F by lia. Qed.
Lemma get32_frame lo hi d d' o : frame lo hi d d' -> (o + 4 <= lo \/ hi <= o)%nat -> get32 d' o = get32 d o.
Proof. intros [_ F] Ho. unfold get32. by rewrite !F by lia. Qed.

Lemma get16_put16 o v d : (o + 2 <= length d)%nat -> get16 (put16 o v d) o = u16 v.
Proof.
  intros Hl. unfold get16, put16.
  rewrite list_lookup_total_insert_ne by lia. rewrite list_lookup_total_insert_eq by lia.
  rewrite list_lookup_total_insert_eq by (rewrite length_insert; lia). zlia.
Qed.

Lemma i16_u16 v : -32768 <= v < 32768 -> i16 (u16 v) = v.
Proof. intros Hv. zlia. Qed.

(** The loop of [put_addrs] over any list of indexes. *)
Definition put_addrs_from (o : nat) (a : list Z) (l : list nat) (d : block) : block :=
  foldl (fun d k => put32 (o + 12 + 4 * k) (a !!! k) d) d l.

Lemma put_addrs_frame o a l d :
  Forall (fun k => k < 13)%nat l -> frame (o + 12) (o + 64) d (put_addrs_from o a l d).
Proof.
  revert d. induction l as [|k l IH]; intros d Hl; [apply frame_refl|].
  inversion Hl; subst. cbn. eapply frame_trans; [|by apply IH].
  eapply frame_weaken; [| |apply frame_put32]; lia.
Qed.

Lemma put_addrs_get o a l d j :
  Forall (fun k => k < 13)%nat l -> (o + 64 <= length d)%nat -> (j < 13)%nat -> NoDup l ->
  get32 (put_addrs_from o a l d) (o + 12 + 4 * j)
  = if decide (j ∈ l) then u32 (a !!! j) else get32 d (o + 12 + 4 * j).
Proof.
  revert d. induction l as [|k l IH]; intros d Hl Hd Hj Hnd.
  - by rewrite decide_False by apply not_elem_of_nil.
  - inversion Hl; subst. apply NoDup_cons in Hnd as [Hk Hnd]. cbn.
    assert (Hd' : (o + 64 <= length (put32 (o + 12 + 4 * k) (a !!! k) d))%nat)
      by (rewrite length_put32; done).
    unfold put_addrs_from in IH. rewrite IH by done. split_decide as [Hin|Hni].
    + by rewrite decide_True by (by right).
    + destruct (decide (j = k)) as [->|Hne].
      * rewrite decide_True by (by left). apply get32_put32. lia.
      * rewrite decide_False by (intros [?|?]%elem_of_cons; done).
        apply get32_put32_ne. lia.
Qed.

Lemma seq13 : Forall (fun k => k < 13)%nat (seq 0 13).
Proof. apply Forall_forall. intros k Hk%elem_of_seq. lia. Qed.

Lemma store_dinode_frame o i d : frame o (o + 64) d (store_dinode o i d).
Proof.
  unfold store_dinode.
  eapply frame_trans; [|eapply frame_weaken; [| |apply (put_addrs_frame _ _ _ _ seq13)]; lia].
  eapply frame_trans; [|eapply frame_weaken; [| |apply frame_put32]; lia].
  do 3 (eapply frame_trans; [|eapply frame_weaken; [| |apply frame_put16]; lia]).
  eapply frame_weaken; [| |apply frame_put16]; lia.
Qed.

(** The fields of an in-memory inode fit their types. *)
Record inode_wf (i : inode) : Prop := InodeWf {
  iw_type : -32768 <= i_type i < 32768;
  iw_major : -32768 <= i_major i < 32768;
  iw_minor : -32768 <= i_minor i < 32768;
  iw_nlink : -32768 <= i_nlink i < 32768;
  iw_size : 0 <= i_size i < 4294967296;
  iw_len : length (i_addrs i) = 13%nat;
  iw_addrs : Forall (fun a => 0 <= a < 4294967296) (i_addrs i) }.

Lemma dinode_off_range inum : 0 <= inum -> (dinode_off inum + 64 <= 512)%nat.
Proof. intros Hi. unfold dinode_off, sizeof_dinode. change IPB with 8. zlia. Qed.

Lemma dinode_off_apart i j :
  0 <= i -> 0 <= j -> i `mod` IPB <> j `mod` IPB ->
  (dinode_off i + 64 <= dinode_off j \/ dinode_off j + 64 <= dinode_off i)%nat.
Proof. intros Hi Hj. unfold dinode_off, sizeof_dinode. change IPB with 8. zlia. Qed.

Lemma load_dinode_frame lo hi d d' o j :
  frame lo hi d d' -> (o + 64 <= lo \/ hi <= o)%nat -> load_dinode d' o j = load_dinode d o j.
Proof.
  intros F Ho. unfold load_dinode, dinode_addrs.
  rewrite !(get16_frame _ _ _ _ _ F) by lia. rewrite (get32_frame _ _ _ _ _ F) by lia.
  f_equal. apply list_fmap_ext. intros n k Hk%lookup_seq.
  apply (get32_frame _ _ _ _ _ F). lia.
Qed.

Lemma load_addrs o (a : list Z) (d : block) :
  (o + 64 <= 512)%nat -> length a = 13%nat -> Forall (fun x => 0 <= x < 4294967296) a ->
  length d = 512%nat -> dinode_addrs (put_addrs o a d) o = a.
Proof.
  intros Ho Hl Ha Hd. unfold dinode_addrs. apply list_eq_same_length with (n := 13%nat).
  - done.
  - by rewrite length_fmap, length_seq.
  - intros k x y Hk Hx Hy. apply list_lookup_fmap_Some in Hx as (k' & -> & [-> Hk']%lookup_seq).
    change (0 + k)%nat with k. change (put_addrs o a d) with (put_addrs_from o a (seq 0 13) d).
    rewrite put_addrs_get; [|apply seq13|lia|done|apply NoDup_seq].
    rewrite decide_True by (apply elem_of_seq; lia).
    rewrite (list_lookup_total_correct _ _ _ Hy). apply u32_small.
    by eapply (Forall_lookup_1 (fun x => 0 <= x < 4294967296)).
Qed.

(** What [iupdate] stores in an inode's slot of its block is what [ilock]
    loads back, field by field, and the other slots of the block are untouched. *)
Theorem dinode_roundtrip inum i d :
  inode_wf i -> 0 <= inum -> length d = 512%nat ->
  (forall j, load_dinode (store_dinode (dinode_off inum) i d) (dinode_off inum) j
     = with_meta (i_type i) (i_major i) (i_minor i) (i_nlink i) (i_size i) (i_addrs i) j)
  /\ (forall inum' j, 0 <= inum' -> inum' `mod` IPB <> inum `mod` IPB ->
     load_dinode (store_dinode (dinode_off inum) i d) (dinode_off inum') j
     = load_dinode d (dinode_off inum') j).
Proof.
  intros [W1 W2 W3 W4 W5 W6 W7] Hi Hd. pose proof (dinode_off_range inum Hi) as Ho. split.
  - intros j. set (o := dinode_off inum) in *. unfold load_dinode, store_dinode.
    set (d4 := put16 (o + 6) (i_nlink i) _). set (d5 := put32 (o + 8) (i_size i) d4).
    assert (F : frame (o + 12) (o + 64) d5 (put_addrs o (i_addrs i) d5)) by apply (put_addrs_frame _ _ _ _ seq13).
    assert (L4 : length d4 = 512%nat) by (unfold d4, put16; by rewrite !length_insert).
    assert (L5 : length d5 = 512%nat) by (unfold d5; by rewrite length_put32).
    rewrite !(get16_frame _ _ _ _ _ F) by lia. rewrite (get32_frame _ _ _ _ _ F) by lia.
    rewrite load_addrs by done. unfold d5 at 5.
    rewrite get32_put32 by lia. rewrite u32_small by done.
    unfold d5. rewrite !(get16_frame _ _ _ _ _ (frame_put32 _ _ _)) by lia.
    unfold d4. rewrite (get16_put16 (o + 6)) by (rewrite !(proj1 (frame_put16 _ _ _)); lia).
    rewrite !(get16_frame _ _ _ _ _ (frame_put16 (o + 6) _ _)) by lia.
    rewrite (get16_put16 (o + 4)) by (rewrite !(proj1 (frame_put16 _ _ _)); lia).
    rewrite !(get16_frame _ _ _ _ _ (frame_put16 (o + 4) _ _)) by lia.
    rewrite (get16_put16 (o + 2)) by (rewrite !(proj1 (frame_put16 _ _ _)); lia).
    rewrite !(get16_frame _ _ _ _ _ (frame_put16 (o + 2) _ _)) by lia.
    rewrite get16_put16 by lia. by rewrite !i16_u16.
  - intros inum' j Hi' Hne. eapply load_dinode_frame; [apply store_dinode_frame|].
    by apply dinode_off_apart.
Qed.

Definition ex_inode : inode := Inode 1 9 1 initsleeplock 1 T_FILE 0 (-3) 2 70000 (seqZ 40 13).
Lemma ex_inode_wf : inode_wf ex_inode.
Proof.
  split; cbn [ex_inode i_type i_major i_minor i_nlink i_size i_addrs]; unfold T_FILE; try lia; try done.
  apply Forall_forall. intros a Ha.
  apply elem_of_seqZ in Ha. lia.
Qed.
Lemma dinode_roundtrip_witness :
  inode_wf ex_inode
  /\ i_size (load_dinode (store_dinode (dinode_off 9) ex_inode (replicate 512 5)) (dinode_off 9) inhabitant) = 70000.
Proof.
  split; [exact ex_inode_wf|].
  destruct (dinode_roundtrip 9 ex_inode (replicate 512 5) ex_inode_wf ltac:(lia) eq_refl) as [Hr _].
  by rewrite Hr.
Defined.
