(* ===== verification/FsInode.v ===== *)
(** * The inode cache ([iget], [idup], [ilock], [iput] of [fs.c], theorems)

    No two live entries name the same inode, so that an inode in use has one
    in-memory copy; [iget] finds it or recycles the first free entry. *)
From S2P Require Import Prelude Layout Locks Sleeplock Blocks BlockMem Log Fs FsNames.

Definition live (dev inum : Z) (i : inode) : Prop := 0 < i_ref i /\ i_dev i = dev /\ i_inum i = inum.

(** The invariant of [icache.inode]. *)
Record icache_ok (l : list inode) : Prop := IcacheOk {
  ic_len : length l = Z.to_nat NINODE;
  ic_ref : forall k i, l !! k = Some i -> 0 <= i_ref i;
  ic_once : forall k k' i i', l !! k = Some i -> l !! k' = Some i' -> 0 < i_ref i ->
    live (i_dev i) (i_inum i) i' -> k = k' }.

(** What the scan of [iget] finds from index [n] on. *)
Lemma iget_scan_spec dev inum l n e :
  0 <= n -> e = NULL \/ 0 <= e ->
  (exists k i, l !! k = Some i /\ live dev inum i
     /\ (forall j x, (j < k)%nat -> l !! j = Some x -> ~ live dev inum x)
     /\ iget_scan dev inum n l e = (n + Z.of_nat k, true))
  \/ ((forall i, i ∈ l -> ~ live dev inum i) /\
      ((e <> NULL /\ iget_scan dev inum n l e = (e, false))
       \/ (e = NULL /\ exists k i, l !! k = Some i /\ i_ref i = 0
             /\ (forall j x, (j < k)%nat -> l !! j = Some x -> i_ref x <> 0)
             /\ iget_scan dev inum n l e = (n + Z.of_nat k, false))
       \/ (e = NULL /\ (forall i, i ∈ l -> i_ref i <> 0) /\ iget_scan dev inum n l e = (NULL, false)))).
Proof.
  revert n e. induction l as [|i l IH]; intros n e Hn He.
  - right. split; [by intros i ?%elem_of_nil|]. destruct He as [->|He].
    + right; right. split; [done|]. split; [by intros i ?%elem_of_nil|done].
    + left. unfold NULL. split; [lia|done].
  - cbn [iget_scan]. destruct ((i_ref i >? 0) && (i_dev i =? dev) && (i_inum i =? inum)) eqn:El.
    + left. exists 0%nat, i. split; [done|]. rewrite Z.gtb_ltb in El. split; [unfold live; lia|].
      split; [intros; lia|]. f_equal. lia.
    + assert (Hl : ~ live dev inum i) by (rewrite Z.gtb_ltb in El; unfold live; lia).
      set (e' := if (e =? NULL) && (i_ref i =? 0) then n else e).
      destruct (IH (n + 1) e') as [(k & x & Hk & Hx & Hf & E)|(Hno & Hc)].
      * lia.
      * unfold e'. destruct ((e =? NULL) && (i_ref i =? 0)); [right; lia|exact He].
      * left. exists (Datatypes.S k), x. split; [done|]. split; [done|]. split.
        -- intros [|j] y Hj Hy; [by injection Hy as <-|]. apply (Hf j); [lia|done].
        -- rewrite E. f_equal. lia.
      * right. split; [intros y [->|Hy]%elem_of_cons; auto|].
        unfold e' in Hc. destruct (e =? NULL) eqn:En, (i_ref i =? 0) eqn:Er; cbn in Hc.
        -- apply Z.eqb_eq in En, Er. right; left. split; [done|]. exists 0%nat, i.
           split; [done|]. split; [done|]. split; [intros; lia|].
           destruct Hc as [[_ E]|[[Hbad _]|[Hbad _]]]; [|unfold NULL in Hbad; lia..].
           unfold e'. cbn. rewrite E.
           f_equal. lia.
        -- apply Z.eqb_eq in En. unfold e'. cbn.
           destruct Hc as [[Hbad _]|[(_ & k & x & Hk & Hx & Hf & E)|(_ & Ha & E)]]; [done|right; left|right; right].
           ++ split; [done|]. exists (Datatypes.S k), x. split; [done|]. split; [done|]. split.
              ** intros [|j] y Hj Hy; [injection Hy as <-; lia|]. apply (Hf j); [lia|done].
              ** rewrite E. f_equal. lia.
           ++ split; [done|]. split; [|done]. intros y [->|Hy]%elem_of_cons; [lia|by apply Ha].
        -- left. apply Z.eqb_neq in En. split; [done|]. unfold e'. cbn.
           by destruct Hc as [[_ E]|[[Hbad _]|[Hbad _]]].
        -- left. apply Z.eqb_neq in En. split; [done|]. unfold e'. cbn.
           by destruct Hc as [[_ E]|[[Hbad _]|[Hbad _]]].
Qed.

Definition get_ref (i : inode) : inode := with_ref (i_ref i + 1) i.
Definition recycle (dev inum : Z) (i : inode) : inode :=
  Inode dev inum 1 (i_lock i) 0 (i_type i) (i_major i) (i_minor i) (i_nlink i) (i_size i) (i_addrs i).

Section iget.
Context {S : Type} `{BlockLayer S}.
Implicit Types s : fsst S.

Lemma with_locks_upd L ip f s :
  with_locks L (upd_inode ip f (with_locks (Licache :: L) s)) = with_locks L (upd_inode ip f s).
Proof. done. Qed.

(** Releasing [icache.lock] after an update of an entry. *)
Lemma release_icache L ip f s :
  locks_of s = L -> Licache ∉ L ->
  release Licache (upd_inode ip f (with_locks (Licache :: L) s)) = Done tt (upd_inode ip f s).
Proof.
  intros <- HL. rewrite (release_top Licache (locks_of s)) by done.
  f_equal. rewrite with_locks_upd. by destruct s as [[] ? ? ? ?].
Qed.

Lemma iget_eq dev inum s :
  Licache ∉ locks_of s ->
  iget dev inum s =
    match iget_scan dev inum 0 (fs_inode s) NULL with
    | (ip, true) => Done ip (upd_inode ip get_ref s)
    | (e, false) => if e =? NULL then Panic "iget: no inodes" else Done e (upd_inode e (recycle dev inum) s)
    end.
Proof.
  intros HL. unfold iget, iset, mbind, M_bind, gets, modify, mret, M_ret, panic.
  rewrite acquire_free by done. cbn [fs_inode set_log with_locks fsst_locks].
  destruct (iget_scan _ _ _ _ _) as [e []].
  - change (set_log (with_locks (Licache :: locks_of s) (fs_log s)) s) with (with_locks (Licache :: locks_of s) s).
    by rewrite release_icache.
  - destruct (e =? NULL); [done|].
    change (set_log (with_locks (Licache :: locks_of s) (fs_log s)) s) with (with_locks (Licache :: locks_of s) s).
    by rewrite release_icache.
Qed.

Lemma inode_of_upd ip f s :
  (Z.to_nat ip < length (fs_inode s))%nat -> inode_of (upd_inode ip f s) ip = f (inode_of s ip).
Proof. intros Hl. unfold inode_of, upd_inode. cbn. by rewrite list_lookup_total_insert_eq. Qed.

Lemma lookup_upd ip f s k :
  fs_inode (upd_inode ip f s) !! k
  = if decide (k = Z.to_nat ip) then f <$> (fs_inode s !! k) else fs_inode s !! k.
Proof.
  unfold upd_inode, inode_of; cbn. split_decide as [->|Hne].
  - destruct (fs_inode s !! Z.to_nat ip) as [i|] eqn:E; cbn.
    + rewrite list_lookup_insert_eq by (by eapply lookup_lt_Some). by rewrite (list_lookup_total_correct _ _ _ E).
    + by apply list_lookup_insert_None.
  - by rewrite list_lookup_insert_ne by congruence.
Qed.
End iget.

Lemma icache_ok_upd l l' k0 (f : inode -> inode) :
  icache_ok l -> length l' = length l ->
  (forall k, l' !! k = if decide (k = k0) then f <$> (l !! k) else l !! k) ->
  (forall i, l !! k0 = Some i -> 0 <= i_ref (f i)) ->
  (forall i, l !! k0 = Some i -> 0 < i_ref (f i) ->
     forall k x, k <> k0 -> l !! k = Some x -> ~ live (i_dev (f i)) (i_inum (f i)) x) ->
  icache_ok l'.
Proof.
  intros [H1 H2 H3] Hl Hk Hr Hu. split; [by rewrite Hl| |].
  - intros k i. rewrite Hk. split_decide as [->|Hne]; [|apply H2].
    intros (x & Hx & ->)%fmap_Some. by apply Hr.
  - intros k k' i i'. rewrite !Hk. split_decide as [->|Hne]; split_decide as [->|Hne']; try done.
    + intros (x & Hx & ->)%fmap_Some Hi' Hp Hv. by destruct (Hu _ Hx Hp k' i').
    + intros Hi (x & Hx & ->)%fmap_Some Hp (V1 & V2 & V3). destruct (Hu _ Hx V1 k i); [done|done|].
      unfold live. by rewrite V2, V3.
    + apply H3.
Qed.

(** [iget] keeps one in-memory copy per inode: a cached inode gains a
    reference and nothing else, otherwise the first free entry is recycled and
    marked invalid; it panics exactly when the inode is not cached and no entry
    is free. *)
Theorem iget_one_copy {S} `{BlockLayer S} (s : fsst S) dev inum :
  Licache ∉ locks_of s -> icache_ok (fs_inode s) ->
  match iget dev inum s with
  | Done ip s' =>
      icache_ok (fs_inode s') /\ 0 <= ip < NINODE /\ live dev inum (inode_of s' ip)
      /\ (forall k, k <> Z.to_nat ip -> fs_inode s' !! k = fs_inode s !! k)
      /\ ((live dev inum (inode_of s ip) /\ inode_of s' ip = with_ref (i_ref (inode_of s ip) + 1) (inode_of s ip))
          \/ ((forall i, i ∈ fs_inode s -> ~ live dev inum i) /\ i_ref (inode_of s ip) = 0
              /\ i_ref (inode_of s' ip) = 1 /\ i_valid (inode_of s' ip) = 0))
  | Panic m => m = "iget: no inodes" /\ forall i, i ∈ fs_inode s -> ~ live dev inum i /\ i_ref i <> 0
  | _ => False
  end.
Proof.
  intros HL Hok. rewrite iget_eq by done.
  destruct (iget_scan_spec dev inum (fs_inode s) 0 NULL) as [(k & i & Hk & Hi & _ & E)|(Hno & Hc)]; [lia|by left|..].
  - rewrite E, Z.add_0_l. pose proof (lookup_lt_Some _ _ _ Hk) as Hlt.
    assert (Ei : inode_of s (Z.of_nat k) = i) by (unfold inode_of; rewrite Nat2Z.id; by apply list_lookup_total_correct).
    split_and!.
    + eapply (icache_ok_upd _ _ k get_ref Hok); [by cbn; rewrite length_insert| | |].
      * intros k'. by rewrite lookup_upd, Nat2Z.id.
      * intros x Hx. pose proof (ic_ref _ Hok _ _ Hx). cbn. lia.
      * intros x Hx _ k' y Hne Hy Hv. rewrite Hk in Hx. injection Hx as <-.
        destruct Hi as (R & D & N). apply Hne. symmetry. by eapply (ic_once _ Hok k k').
    + lia.
    + pose proof (ic_len _ Hok). lia.
    + rewrite inode_of_upd by (rewrite Nat2Z.id; lia). rewrite Ei. destruct Hi as (R & D & N).
      unfold live, get_ref; cbn. split_and!; [lia|done|done].
    + intros k' Hne. rewrite lookup_upd. by rewrite decide_False.
    + left. rewrite inode_of_upd by (rewrite Nat2Z.id; lia). by rewrite Ei.
  - destruct Hc as [[Hbad _]|[(_ & k & i & Hk & Hi & _ & E)|(_ & Ha & E)]]; [done| |].
    + rewrite E, Z.add_0_l. pose proof (lookup_lt_Some _ _ _ Hk) as Hlt.
      replace (Z.of_nat k =? NULL) with false by (unfold NULL; lia).
      assert (Ei : inode_of s (Z.of_nat k) = i) by (unfold inode_of; rewrite Nat2Z.id; by apply list_lookup_total_correct).
      split_and!.
      * eapply (icache_ok_upd _ _ k (recycle dev inum) Hok); [by cbn; rewrite length_insert| | |].
        -- intros k'. by rewrite lookup_upd, Nat2Z.id.
        -- intros x Hx. cbn. lia.
        -- intros x Hx _ k' y Hne Hy Hv. eapply Hno; [by eapply list_elem_of_lookup_2|exact Hv].
      * lia.
      * pose proof (ic_len _ Hok). lia.
      * rewrite inode_of_upd by (rewrite Nat2Z.id; lia). unfold live; cbn. split_and!; [lia|done|done].
      * intros k' Hne. rewrite lookup_upd. by rewrite decide_False.
      * right. rewrite inode_of_upd by (rewrite Nat2Z.id; lia). by rewrite Ei.
    + rewrite E. cbn. split; [done|]. intros i Hi. split; [by apply Hno|by apply Ha].
Qed.

Definition ex_entry (dev inum ref : Z) : inode := Inode dev inum ref initsleeplock 1 T_FILE 0 0 1 0 [].
Definition ex_cache : fsst bmem :=
  Fsst (Lgst 2 LOGSIZE 1 0 1 0 (replicate 30 0) (Bmem ∅ ∅ ∅ ∅ 70) [] 0 []) (Superblock 70 10 16 30 2 32 58)
    (ex_entry 1 1 2 :: ex_entry 1 5 0 :: ex_entry 1 7 1 :: replicate 47 (ex_entry 0 0 0)) 1 0.

Lemma ex_cache_lookup k i : fs_inode ex_cache !! k = Some i ->
  (k = 0%nat /\ i = ex_entry 1 1 2) \/ i = ex_entry 1 5 0 \/ (k = 2%nat /\ i = ex_entry 1 7 1) \/ i = ex_entry 0 0 0.
Proof.
  destruct k as [|[|[|k]]]; [intros [= <-]; tauto..|].
  change (fs_inode ex_cache !! _) with (replicate 47 (ex_entry 0 0 0) !! k).
  intros [-> _]%lookup_replicate. tauto.
Qed.

Lemma ex_cache_ok : icache_ok (fs_inode ex_cache).
Proof.
  split; [done| |].
  - intros k i [[-> ->]|[->|[[-> ->]| ->]]]%ex_cache_lookup; cbn; lia.
  - intros k k' i i' [[-> ->]|[->|[[-> ->]| ->]]]%ex_cache_lookup
      [[-> ->]|[->|[[-> ->]| ->]]]%ex_cache_lookup; unfold live; cbn; lia.
Qed.

Lemma iget_one_copy_witness :
  Licache ∉ locks_of ex_cache /\ icache_ok (fs_inode ex_cache)
  /\ exists s', iget 1 7 ex_cache = Done 2 s' /\ i_ref (inode_of s' 2) = 2 /\ live 1 7 (inode_of s' 2).
Proof.
  assert (HL : Licache ∉ locks_of ex_cache) by apply not_elem_of_nil.
  split; [exact HL|]. split; [exact ex_cache_ok|].
  pose proof (iget_one_copy ex_cache 1 7 HL ex_cache_ok) as Hg.
  destruct (iget 1 7 ex_cache) as [ip s'| | | |] eqn:E; vm_compute in E; try discriminate E.
  injection E as <- <-. destruct Hg as (_ & _ & Hl & _).
  eexists. split; [reflexivity|]. split; [reflexivity|exact Hl].
Defined.
