(* ===== verification/FsData.v ===== *)
(** * Inode contents ([bmap], [readi], [writei] of [fs.c], theorems)

    The contents of a file are a function from offsets to bytes, through the
    direct and the indirect block addresses.  [readi] returns a slice of it;
    [writei] over blocks the file has replaces a slice of it and nothing else;
    reading back gives the bytes written. *)
From S2P Require Import Prelude Layout Locks Sleeplock Blocks BlockMem Log LogSpec LogCrash Fs FsSpec FsAlloc FsNames.

(** A loop whose iterations decrease a measure below its fuel. *)
Lemma wp_loop_measure {S X R} (I : X -> S -> Prop) (meas : X -> nat) fuel (body : X -> M S (X + R))
    (Q : R -> S -> Prop) x s :
  I x s -> (meas x < fuel)%nat ->
  (forall x s, I x s -> wp (body x) (fun r s' =>
     match r with inl x' => I x' s' /\ (meas x' < meas x)%nat | inr v => Q v s' end) s) ->
  wp (loop fuel body x) Q s.
Proof.
  intros HI Hf Hb. revert x s HI Hf. induction fuel as [|fuel IH]; intros x s HI Hf; [lia|].
  cbn [loop]. apply wp_bind. eapply wp_mono; [by apply Hb|].
  intros [x'|v] s'; [|done]. intros [HI' Hm]. apply IH; [done|lia].
Qed.

(** The disk block of the [k]-th block of a file, and its byte at an offset. *)
Definition blk (c : Z -> block) (i : inode) (k : Z) : Z :=
  if k <? NDIRECT then i_addrs i !!! Z.to_nat k
  else get32 (c (i_addrs i !!! Z.to_nat NDIRECT)) (Z.to_nat (4 * (k - NDIRECT))).
Definition fbyte (c : Z -> block) (i : inode) (x : Z) : Z :=
  c (blk c i (x `div` 512)) !!! Z.to_nat (x `mod` 512).
Definition fbytes (c : Z -> block) (i : inode) (off n : Z) : list Z := fbyte c i <$> seqZ off n.

(** The first [N] blocks of a file are there, free to lock, and distinct. *)
Record file_ok (v : view) (i : inode) (N : Z) : Prop := FileOk {
  fo_dev : i_dev i = 1;
  fo_max : 0 <= N <= MAXFILE;
  fo_ind : NDIRECT < N -> i_addrs i !!! Z.to_nat NDIRECT <> 0
    /\ 0 <= i_addrs i !!! Z.to_nat NDIRECT < v_size v /\ i_addrs i !!! Z.to_nat NDIRECT ∉ v_held v;
  fo_blk : forall k, 0 <= k < N -> blk (v_content v) i k <> 0
    /\ 0 <= blk (v_content v) i k < v_size v /\ blk (v_content v) i k ∉ v_held v
    /\ length (v_content v (blk (v_content v) i k)) = 512%nat;
  fo_inj : forall k k', 0 <= k < N -> 0 <= k' < N ->
    blk (v_content v) i k = blk (v_content v) i k' -> k = k';
  fo_apart : forall k, 0 <= k < N -> NDIRECT < N -> blk (v_content v) i k <> i_addrs i !!! Z.to_nat NDIRECT }.

Section data.
Context {S : Type} `{BlockLayer S}.
Implicit Types s : fsst S.

Lemma done_refl s v k : txn s v k -> done_at s s v k.
Proof. intros T. split; [apply moved_refl|]. by split. Qed.

Lemma moved_inode s s' ip : moved s s' -> inode_of s' ip = inode_of s ip.
Proof. by intros (? & ? & ? & ->). Qed.

(** [bmap] of a block the file has looks it up and changes nothing. *)
Lemma bmap_mapped s v N ip k m :
  txn s v m -> 0 <= m -> clean v -> (size (v_held v) <= 1)%nat ->
  file_ok v (inode_of s ip) N -> 0 <= k < N ->
  wp (bmap ip k) (fun a s' => a = blk (v_content v) (inode_of s ip) k /\ done_at s s' v m) s.
Proof.
  intros T Hm Hc Hs F Hk. pose proof (fo_max _ _ _ F) as HN. pose proof (fo_dev _ _ _ F) as Hd.
  destruct (fo_blk _ _ _ F k Hk) as (B1 & B2 & B3 & B4). set (i := inode_of s ip) in *.
  unfold bmap. apply wp_bind, wp_gets. fold i. unfold blk in B1 |- *. destruct (k <? NDIRECT) eqn:Ek.
  - rewrite (proj2 (Z.eqb_neq _ _) B1). apply wp_ret. split; [done|by apply done_refl].
  - assert (HND : NDIRECT < N) by lia. destruct (fo_ind _ _ _ F HND) as (I1 & I2 & I3).
    cbn zeta. change (k - NDIRECT <? NINDIRECT) with (k - 12 <? 128). change MAXFILE with 140 in HN.
    unfold NDIRECT in Ek. replace (k - 12 <? 128) with true by lia.
    rewrite (proj2 (Z.eqb_neq _ _) I1). apply wp_bind, wp_ret. rewrite Hd.
    apply wp_bind. eapply wp_bread_fs; [exact T|done|done|done|done|]. intros h b1 T1 O1 M1.
    apply wp_bind. eapply wp_bytes_of; [exact T1|exact O1|]. cbn [vhold v_content].
    rewrite (proj2 (Z.eqb_neq _ _) B1). apply wp_bind, wp_ret.
    apply wp_bind. eapply (wp_release_fs s _ _ v); [|apply moved_bl|exact T1|exact O1|done| |].
    + intros s' Hd'. by apply wp_ret.
    + split; try done; cbn. by rewrite held_back.
    + intros h' b' Hx. split; [by apply M1|]. intros ->. apply I3. by eapply owns_held; [exact T|].
Qed.

(** A slice of a block as file bytes. *)
Lemma slice_bytes c i off m :
  0 <= off -> 0 <= m -> off `mod` 512 + m <= 512 ->
  length (c (blk c i (off `div` 512))) = 512%nat ->
  take (Z.to_nat m) (drop (Z.to_nat (off `mod` 512)) (c (blk c i (off `div` 512)))) = fbytes c i off m.
Proof.
  intros Ho Hm Hr Hl. unfold fbytes. apply list_eq_same_length with (n := Z.to_nat m).
  - by rewrite length_fmap, length_seqZ.
  - rewrite length_take, length_drop, Hl. zlia.
  - intros j x y Hj Hx Hy. rewrite lookup_take_lt in Hx by lia. rewrite lookup_drop in Hx.
    apply list_lookup_fmap_Some in Hy as (z & -> & [-> Hz]%lookup_seqZ).
    unfold fbyte. replace ((off + Z.of_nat j) `div` 512) with (off `div` 512) by zlia.
    replace (Z.to_nat ((off + Z.of_nat j) `mod` 512)) with (Z.to_nat (off `mod` 512) + j)%nat by zlia.
    symmetry. by apply list_lookup_total_correct.
Qed.

Lemma fbytes_app c i off m n : 0 <= m -> 0 <= n -> fbytes c i off m ++ fbytes c i (off + m) n = fbytes c i off (m + n).
Proof. intros Hm Hn. unfold fbytes. rewrite <- fmap_app. f_equal. symmetry. by apply seqZ_app. Qed.

(** Blocks still to be visited by a transfer of [n] bytes from [off0]. *)
Definition io_left (n : Z) (tot off : Z) : nat :=
  if tot <? n then Z.to_nat ((off + (n - tot) - 1) `div` 512 - off `div` 512 + 1) else 0.

Lemma io_left_fuel n off : 0 <= off -> 0 <= n -> (io_left n 0 off < io_fuel n)%nat.
Proof. intros Ho Hn. unfold io_left, io_fuel, BSIZE. destruct (0 <? n) eqn:E; zlia. Qed.

Lemma io_left_step n tot off m :
  0 <= off -> tot < n -> m = Z.min (n - tot) (512 - off `mod` 512) ->
  io_left n tot off = Datatypes.S (io_left n (tot + m) (off + m)) /\ 0 < m.
Proof.
  intros Ho Ht Em. unfold io_left. replace (tot <? n) with true by lia.
  destruct (tot + m <? n) eqn:E; zlia.
Qed.

Lemma readi_loop s v N ip off n q :
  txn s v q -> 0 <= q -> clean v -> (size (v_held v) <= 1)%nat -> file_ok v (inode_of s ip) N ->
  0 <= off -> 0 <= n -> off + n <= N * 512 ->
  wp (loop (io_fuel n) (readi_body ip n) (0, off, []))
     (fun dst s' => dst = fbytes (v_content v) (inode_of s ip) off n /\ done_at s s' v q) s.
Proof.
  intros T Hq Hc Hs F Ho Hn HN. pose proof (fo_max _ _ _ F) as Hmax. change MAXFILE with 140 in Hmax.
  set (i := inode_of s ip) in *. set (c := v_content v) in *.
  apply (wp_loop_measure (fun x s' => let '(tot, o, dst) := x in
     0 <= tot <= n /\ o = off + tot /\ dst = fbytes c i off tot /\ done_at s s' v q)
     (fun x => let '(tot, o, _) := x in io_left n tot o)).
  - split; [lia|]. split; [lia|]. split; [done|by apply done_refl].
  - by apply io_left_fuel.
  - intros [[tot o] dst] s1 (Ht & -> & -> & Hmv & T1 & O1). unfold readi_body.
    destruct (tot <? n) eqn:E; cbn [negb].
    2: { apply wp_ret. replace tot with n by lia. split; [done|]. by split. }
    apply wp_bind, wp_gets. rewrite (moved_inode _ _ _ Hmv). fold i. rewrite (fo_dev _ _ _ F).
    set (k := (off + tot) `div` BSIZE). assert (Hk : 0 <= k < N) by (unfold k, BSIZE; zlia).
    destruct (fo_blk _ _ _ F k Hk) as (B1 & B2 & B3 & B4).
    apply wp_bind. eapply wp_mono; [apply (bmap_mapped s1 v N ip k q); try done; by rewrite (moved_inode _ _ _ Hmv)|].
    rewrite (moved_inode _ _ _ Hmv). fold i c. intros a s2 [-> (M2 & T2 & O2)].
    apply wp_bind. eapply wp_bread_fs; [exact T2|done|done|done|done|]. intros h b1 T3 O3 M3.
    apply wp_bind. eapply wp_bytes_of; [exact T3|exact O3|]. cbn [vhold v_content].
    apply wp_bind. eapply (wp_release_fs s _ _ v); [| |exact T3|exact O3|done| |].
    + intros s' Hd. apply wp_ret. unfold BSIZE.
      set (m := Z.min (n - tot) (512 - (off + tot) `mod` 512)).
      destruct (io_left_step n tot (off + tot) m) as [Hl Hm]; [lia|lia|done|].
      assert (Hb : 0 <= tot + m <= n /\ (off + tot) `mod` 512 + m <= 512) by (unfold m in *; zlia).
      rewrite !u32_small by lia. split; [|rewrite Hl; replace (off + (tot + m)) with (off + tot + m) by lia; lia].
      split; [lia|]. split; [lia|]. split; [|done].
      fold c. unfold k, BSIZE. rewrite slice_bytes; [|lia|lia|lia|exact B4]. by rewrite fbytes_app by lia.
    + eapply moved_trans; [exact Hmv|]. eapply moved_trans; [exact M2|apply moved_bl].
    + split; try done; cbn. by rewrite held_back.
    + intros h' b' Hx. split; [by apply M3, O2, O1|]. intros ->. apply B3. by eapply owns_held; [exact T|].
Qed.

(** ** Writing *)
Lemma splice_lookup o src (d : block) j :
  (o + length src <= length d)%nat ->
  splice o src d !!! j = if decide (o <= j < o + length src)%nat then src !!! (j - o)%nat else d !!! j.
Proof.
  intros Hl. unfold splice. split_decide as [[H1 H2]|Hn]; rewrite !list_lookup_total_alt; f_equal.
  - rewrite lookup_app_r by (rewrite length_take; lia). rewrite length_take, Nat.min_l by lia.
    by rewrite lookup_app_l by lia.
  - destruct (decide (j < o)%nat).
    + rewrite lookup_app_l by (rewrite length_take; lia). by rewrite lookup_take_lt by lia.
    + rewrite lookup_app_r by (rewrite length_take; lia). rewrite length_take, Nat.min_l by lia.
      rewrite lookup_app_r by lia. rewrite lookup_drop. f_equal. lia.
Qed.

Lemma length_splice o src (d : block) : (o + length src <= length d)%nat -> length (splice o src d) = length d.
Proof. intros Hl. unfold splice. rewrite !length_app, length_take, length_drop. lia. Qed.

Lemma blk_write v i N k0 d k :
  file_ok v i N -> 0 <= k0 < N -> 0 <= k < N ->
  blk (upd (v_content v) (blk (v_content v) i k0) d) i k = blk (v_content v) i k.
Proof.
  intros F H0 Hk. unfold blk at 1. destruct (k <? NDIRECT) eqn:E.
  - unfold blk. by rewrite E.
  - unfold upd. rewrite decide_False; [unfold blk; by rewrite E|].
    intros Ebad. symmetry in Ebad. revert Ebad. apply (fo_apart _ _ _ F); [done|lia].
Qed.

Lemma file_ok_write v i N k0 d :
  file_ok v i N -> 0 <= k0 < N -> length d = 512%nat ->
  file_ok (wrote_view (blk (v_content v) i k0) d v) i N.
Proof.
  intros F H0 Hd. split; cbn; try apply F.
  - intros k Hk. rewrite (blk_write v i N) by done. destruct (fo_blk _ _ _ F k Hk) as (B1 & B2 & B3 & B4).
    split_and!; try done; try lia. unfold upd. split_decide; [done|done].
  - intros k k' Hk Hk'. rewrite !(blk_write v i N) by done. by apply (fo_inj _ _ _ F).
  - intros k Hk Hn. rewrite (blk_write v i N) by done. by apply (fo_apart _ _ _ F).
Qed.

(** A write to a block that is not part of the file. *)
Lemma file_ok_other v i N b d :
  file_ok v i N -> (forall k, 0 <= k < N -> blk (v_content v) i k <> b) ->
  (NDIRECT < N -> i_addrs i !!! Z.to_nat NDIRECT <> b) ->
  file_ok (wrote_view b d v) i N
  /\ forall k, 0 <= k < N -> blk (upd (v_content v) b d) i k = blk (v_content v) i k.
Proof.
  intros F Hb Hi.
  assert (Eb : forall k, 0 <= k < N -> blk (upd (v_content v) b d) i k = blk (v_content v) i k).
  { intros k Hk. unfold blk. destruct (k <? NDIRECT) eqn:E; [done|]. unfold upd.
    rewrite decide_False; [done|]. apply Hi. lia. }
  split; [|done]. split; cbn; try apply F.
  - intros k Hk. rewrite Eb by done. destruct (fo_blk _ _ _ F k Hk) as (B1 & B2 & B3 & B4).
    split_and!; try done; try lia. unfold upd. rewrite decide_False by by apply Hb. done.
  - intros k k' Hk Hk'. rewrite !Eb by done. by apply (fo_inj _ _ _ F).
  - intros k Hk Hn. rewrite Eb by done. by apply (fo_apart _ _ _ F).
Qed.

(** The view [v'] after [tot] bytes of [src] have been written from [off] on. *)
Record wrote (i : inode) (N off : Z) (src : list Z) (v v' : view) (tot : Z) : Prop := Wrote {
  wr_file : file_ok v' i N;
  wr_clean : clean v';
  wr_held : v_held v' = v_held v;
  wr_size : v_size v' = v_size v;
  wr_blk : forall k, 0 <= k < N -> blk (v_content v') i k = blk (v_content v) i k;
  wr_bytes : forall x, 0 <= x < N * 512 -> fbyte (v_content v') i x =
    if decide (off <= x < off + tot) then src !!! Z.to_nat (x - off) else fbyte (v_content v) i x;
  wr_other : forall b, (forall k, 0 <= k < N -> blk (v_content v) i k <> b) -> v_content v' b = v_content v b }.

Lemma wrote_none i N off src v : file_ok v i N -> clean v -> wrote i N off src v v 0.
Proof. intros F Hc. split; try done. intros x Hx. rewrite decide_False; [done|lia]. Qed.

Lemma wrote_step i N off src v v1 tot m :
  let k := (off + tot) `div` 512 in
  wrote i N off src v v1 tot -> 0 <= off -> 0 <= tot -> 0 < m -> tot + m <= Z.of_nat (length src) ->
  (off + tot) `mod` 512 + m <= 512 -> 0 <= k < N ->
  wrote i N off src v
    (wrote_view (blk (v_content v) i k)
       (splice (Z.to_nat ((off + tot) `mod` 512)) (take (Z.to_nat m) (drop (Z.to_nat tot) src))
          (v_content v1 (blk (v_content v) i k))) v1) (tot + m).
Proof.
  intros k [F Hc Hh Hs Hb Hx Hot] Ho Ht Hm Hsrc Hr Hk.
  destruct (fo_blk _ _ _ F k Hk) as (B1 & B2 & B3 & B4). rewrite Hb in B1, B2, B3, B4 by done.
  set (p := take (Z.to_nat m) (drop (Z.to_nat tot) src)).
  assert (Lp : length p = Z.to_nat m) by (unfold p; rewrite length_take, length_drop; lia).
  set (d := splice _ p _).
  assert (Ld : length d = 512%nat) by (unfold d; rewrite length_splice; [done|rewrite B4, Lp; zlia]).
  rewrite <- (Hb k Hk). split.
  - by apply file_ok_write.
  - by apply clean_wrote.
  - done.
  - done.
  - intros k' Hk'. cbn. rewrite (blk_write v1 i N) by done. by apply Hb.
  - intros x Hxr. unfold fbyte. cbn [wrote_view v_content]. rewrite (blk_write v1 i N) by (try done; zlia).
    unfold upd. split_decide as [E|E].
    + apply (fo_inj _ _ _ F) in E; [|zlia|done]. unfold d. rewrite splice_lookup by (rewrite B4, Lp; zlia).
      rewrite Lp. destruct (decide (off + tot <= x < off + tot + m)) as [Hin|Hout].
      * rewrite decide_True by (unfold k in E; zlia). rewrite decide_True by lia.
        unfold p. rewrite list_lookup_total_alt, lookup_take_lt by (unfold k in E; zlia).
        rewrite lookup_drop, <- list_lookup_total_alt. f_equal. unfold k in E. zlia.
      * rewrite decide_False by (unfold k in E; zlia).
        rewrite <- (Hb k Hk), <- E. fold (fbyte (v_content v1) i x). rewrite Hx by done.
        destruct (decide (off <= x < off + tot)); [rewrite decide_True by lia|rewrite decide_False by lia]; done.
    + assert (Hne : x `div` 512 <> k) by (intros Ek; apply E; by rewrite Ek).
      fold (fbyte (v_content v1) i x). rewrite Hx by done.
      destruct (decide (off <= x < off + tot)); [rewrite decide_True by lia; done|].
      rewrite decide_False; [done|]. unfold k in Hne. zlia.
  - intros b Hnb. cbn. unfold upd. rewrite decide_False; [by apply Hot|].
    rewrite Hb by done. intros ->. by apply (Hnb k).
Qed.

Lemma writei_loop s v N ip src off n k :
  let i := inode_of s ip in
  txn s v (Z.of_nat (io_left n 0 off) + k) -> 0 <= k -> clean v -> (size (v_held v) <= 1)%nat ->
  file_ok v i N -> 0 <= off -> 0 <= n <= Z.of_nat (length src) -> off + n <= N * 512 ->
  wp (loop (io_fuel n) (writei_body ip n src) (0, off))
     (fun o s' => o = off + n /\ exists v', done_at s s' v' k /\ wrote i N off src v v' n) s.
Proof.
  intros i T Hk Hc Hs F Ho Hn HN. pose proof (fo_max _ _ _ F) as Hmax. change MAXFILE with 140 in Hmax.
  apply (wp_loop_measure (fun x s' => let '(tot, o) := x in
     0 <= tot <= n /\ o = off + tot /\ exists v', done_at s s' v' (Z.of_nat (io_left n tot o) + k)
       /\ wrote i N off src v v' tot)
     (fun x => let '(tot, o) := x in io_left n tot o)).
  - split; [lia|]. split; [lia|]. exists v. split; [by apply done_refl|by apply wrote_none].
  - apply io_left_fuel; lia.
  - intros [tot o] s1 (Ht & -> & v1 & (Hmv & T1 & O1) & W). unfold writei_body.
    destruct (tot <? n) eqn:E; cbn [negb].
    2: { apply wp_ret. assert (tot = n) as -> by lia. split; [done|]. exists v1.
         split; [split; [done|split; [|done]]|done].
         unfold io_left in T1. by rewrite E in T1. }
    set (m := Z.min (n - tot) (512 - (off + tot) `mod` 512)).
    destruct (io_left_step n tot (off + tot) m) as [Hl Hm]; [lia|lia|done|].
    assert (Hb : 0 <= tot + m <= n /\ (off + tot) `mod` 512 + m <= 512) by (unfold m in *; zlia).
    apply wp_bind, wp_gets. rewrite (moved_inode _ _ _ Hmv). fold i. rewrite (fo_dev _ _ _ F).
    change ((off + tot) `div` BSIZE) with ((off + tot) `div` 512). change ((off + tot) `mod` BSIZE) with ((off + tot) `mod` 512).
    change (BSIZE - (off + tot) `mod` 512) with (512 - (off + tot) `mod` 512). fold m.
    set (kb := (off + tot) `div` 512). assert (Hkb : 0 <= kb < N) by (unfold kb; zlia).
    destruct (fo_blk _ _ _ (wr_file _ _ _ _ _ _ _ W) kb Hkb) as (B1 & B2 & B3 & B4).
    pose proof (wr_blk _ _ _ _ _ _ _ W kb Hkb) as Eb. rewrite Eb in B1, B2, B3, B4.
    apply wp_bind. eapply wp_mono; [apply (bmap_mapped s1 v1 N ip kb _ T1)|].
    { lia. } { apply W. } { by rewrite (wr_held _ _ _ _ _ _ _ W). } { rewrite (moved_inode _ _ _ Hmv). apply W. } { done. }
    rewrite (moved_inode _ _ _ Hmv). fold i. rewrite Eb. intros a s2 [-> (M2 & T2 & O2)].
    assert (Hh1 : (size (v_held v1) <= 1)%nat) by by rewrite (wr_held _ _ _ _ _ _ _ W).
    apply wp_bind. eapply wp_bread_fs; [exact T2|lia|done|done|done|]. intros h b1 T3 O3 M3.
    apply wp_bind. eapply wp_bytes_of; [exact T3|exact O3|]. cbn [vhold v_content].
    apply wp_assoc, wp_bind.
    eapply (wp_write_fs _ _ (Z.of_nat (io_left n (tot + m) (off + tot + m)) + k));
      [|lia|exact O3|].
    { rewrite Hl in T3. replace (_ + _ + 1) with (Z.of_nat (Datatypes.S (io_left n (tot + m) (off + tot + m))) + k) by lia. exact T3. }
    intros nn bk b4 T4 M4.
    set (d := splice _ _ _) in *.
    apply wp_bind. eapply (wp_release_fs s _ _ (wrote_view (blk (v_content v) i kb) d v1)); [| |exact T4|by apply M4| | |].
    + intros s' Hd. apply wp_ret. rewrite !u32_small by lia.
      split; [|rewrite Hl; lia]. split; [lia|]. split; [lia|].
      eexists. split; [exact Hd|]. apply wrote_step; try done; lia.
    + eapply moved_trans; [exact Hmv|]. eapply moved_trans; [exact M2|].
      eapply moved_trans; [apply moved_bl|by exists nn, bk, b4].
    + apply clean_write, W.
    + split; try done; cbn. by rewrite held_back.
    + intros h' b' Hx. split; [by apply M4, M3, O2, O1|]. intros ->. apply B3.
      rewrite (wr_held _ _ _ _ _ _ _ W). by eapply owns_held; [exact T|].
Qed.
End data.

Section theorems.
Context {S : Type} `{BlockLayer S} (devs : Z -> devsw S).
Implicit Types s : fsst S.

Lemma iupdate_spec s v k ip :
  let i := inode_of s ip in let b := IBLOCK (i_inum i) (fs_sb s) in
  txn s v (k + 1) -> 0 <= k -> clean v -> (size (v_held v) <= 1)%nat -> i_dev i = 1 ->
  0 <= b < v_size v -> b ∉ v_held v ->
  wp (iupdate ip) (fun _ s' =>
    done_at s s' (wrote_view b (store_dinode (dinode_off (i_inum i)) i (v_content v b)) v) k) s.
Proof.
  intros i b T Hk Hc Hs Hd Hb Hh. unfold iupdate. apply wp_bind, wp_gets. fold i.
  apply wp_bind, wp_gets. fold b. rewrite Hd.
  apply wp_bind. eapply wp_bread_fs; [exact T|lia|done|done|done|]. intros h b1 T1 O1 M1.
  apply wp_bind. eapply wp_bytes_of; [exact T1|exact O1|]. cbn [vhold v_content].
  apply wp_assoc, wp_bind. eapply (wp_write_fs _ _ k); [exact T1|done|exact O1|]. intros n bk b2 T2 M2.
  eapply (wp_release_fs s); [intros s' Hd'; exact Hd'| |exact T2|by apply M2| | |].
  - eapply moved_trans; [apply moved_bl|by exists n, bk, b2].
  - by apply clean_write.
  - split; try done; cbn. by rewrite held_back.
  - intros h' b' Hx. split; [by apply M2, M1|]. intros ->. apply Hh. by eapply owns_held; [exact T|].
Qed.

(** A regular file whose blocks cover its size. *)
Record file_at s (v : view) (ip N : Z) : Prop := FileAt {
  fa_type : i_type (inode_of s ip) <> T_DEV;
  fa_size : 0 <= i_size (inode_of s ip) <= N * 512;
  fa_file : file_ok v (inode_of s ip) N;
  fa_held : (size (v_held v) <= 1)%nat;
  fa_clean : clean v }.

Lemma fbytes_lookup c i off n j : 0 <= j < n -> fbytes c i off n !! Z.to_nat j = Some (fbyte c i (off + j)).
Proof.
  intros Hj. unfold fbytes. apply list_lookup_fmap_Some. exists (off + j). split; [done|].
  apply lookup_seqZ. lia.
Qed.

(** The result of [readi] on a regular file. *)
Lemma readi_bytes s v ip N off n q :
  txn s v q -> 0 <= q -> file_at s v ip N -> 0 <= off < 4294967296 -> 0 <= n < 4294967296 ->
  let size := i_size (inode_of s ip) in
  let n' := Z.min n (size - off) in
  if bool_decide (off <= size /\ off + n < 4294967296)
  then exists s', readi devs ip off n s = Done (n', fbytes (v_content v) (inode_of s ip) off n') s'
    /\ done_at s s' v q
  else readi devs ip off n s = Done (-1, []) s.
Proof.
  intros T Hq [F1 F2 F3 F4 F5] Ho Hn size n'. pose proof (fo_max _ _ _ F3) as Hm. change MAXFILE with 140 in Hm.
  assert (E0 : readi devs ip off n s =
    if (off >? size) || (u32 (off + n) <? off) then Done (-1, []) s
    else (dst ← loop (io_fuel (if u32 (off + n) >? size then size - off else n))
                  (readi_body ip (if u32 (off + n) >? size then size - off else n)) (0, off, []);
          mret (i32 (if u32 (off + n) >? size then size - off else n), dst)) s).
  { unfold readi, mbind at 1, M_bind at 1, ino, gets. fold size.
    rewrite (proj2 (Z.eqb_neq _ _) F1). by destruct (_ || _). }
  rewrite E0. case_bool_decide as Hc.
  - rewrite u32_small by lia. replace ((off >? size) || (off + n <? off)) with false by (rewrite Z.gtb_ltb; lia).
    replace (if off + n >? size then size - off else n) with n' by (rewrite Z.gtb_ltb; destruct (size <? off + n) eqn:E; lia).
    destruct (wp_inv _ _ _ (readi_loop s v N ip off n' q T Hq F5 F4 F3 ltac:(lia) ltac:(lia) ltac:(lia)))
      as (dst & s' & E & -> & Hd).
    exists s'. split; [|done]. unfold mbind, M_bind. rewrite E. unfold mret, M_ret.
    rewrite i32_small by lia. done.
  - replace ((off >? size) || (u32 (off + n) <? off)) with true; [done|].
    rewrite Z.gtb_ltb. symmetry. apply orb_true_iff. destruct (decide (off <= size)); [right|left; lia].
    assert (4294967296 <= off + n) by lia. zlia.
Qed.

(** [readi] returns exactly the bytes of the file between the offset and
    the end of the file or of the request, changes no block, and fails when the
    offset is past the end or the range overflows. *)
Theorem readi_slice s v ip N off n :
  txn s v 0 -> file_at s v ip N -> 0 <= off < 4294967296 -> 0 <= n < 4294967296 ->
  let size := i_size (inode_of s ip) in
  let n' := Z.min n (size - off) in
  if bool_decide (off <= size /\ off + n < 4294967296)
  then exists s', readi devs ip off n s = Done (n', fbytes (v_content v) (inode_of s ip) off n') s'
    /\ done_at s s' v 0
  else readi devs ip off n s = Done (-1, []) s.
Proof. intros T. by apply readi_bytes. Qed.

(** What [writei] leaves: the inode with its new size, the file's bytes
    replaced in the range, and besides them only the inode's own block. *)
Record written s (v : view) (ip N off n : Z) (src : list Z) s' (v' : view) : Prop := Written {
  wt_view : txn s' v' 0;
  wt_inode : inode_of s' ip = with_size (Z.max (i_size (inode_of s ip)) (off + n)) (inode_of s ip);
  wt_file : file_at s' v' ip N;
  wt_bytes : forall x, 0 <= x < N * 512 -> fbyte (v_content v') (inode_of s' ip) x =
    if decide (off <= x < off + n) then src !!! Z.to_nat (x - off) else fbyte (v_content v) (inode_of s ip) x;
  wt_other : forall b, (forall k, 0 <= k < N -> blk (v_content v) (inode_of s ip) k <> b) ->
    b <> IBLOCK (i_inum (inode_of s ip)) (fs_sb s) -> v_content v' b = v_content v b }.

Lemma writei_written s v ip N off n src :
  let i := inode_of s ip in let ib := IBLOCK (i_inum i) (fs_sb s) in
  txn s v (Z.of_nat (io_left n 0 off) + 1) -> file_at s v ip N -> (Z.to_nat ip < length (fs_inode s))%nat ->
  0 <= off <= i_size i -> 0 < n <= Z.of_nat (length src) -> off + n <= N * 512 ->
  0 <= ib < v_size v -> ib ∉ v_held v -> (forall k, 0 <= k < N -> blk (v_content v) i k <> ib) ->
  (NDIRECT < N -> i_addrs i !!! Z.to_nat NDIRECT <> ib) ->
  exists s' v', writei devs ip src off n s = Done n s' /\ written s v ip N off n src s' v'.
Proof.
  intros i ib T [F1 F2 F3 F4 F5] Hip Ho Hn HN Hib Hih Hk1 Hk2. pose proof (fo_max _ _ _ F3) as Hm.
  change MAXFILE with 140 in Hm. fold i in F1, F2, F3.
  destruct (wp_inv _ _ _ (writei_loop s v N ip src off n 1 T ltac:(lia) F5 F4 F3 ltac:(lia) ltac:(lia) HN))
    as (o & s1 & E1 & -> & v1 & (Hmv & T1 & O1) & W).
  assert (Ei : inode_of s1 ip = i) by (rewrite (moved_inode _ _ _ Hmv); done).
  assert (Esb : fs_sb s1 = fs_sb s) by by apply moved_sb.
  assert (E0 : writei devs ip src off n s =
    (when ((n >? 0) && (off + n >? i_size i)) (iset ip (with_size (off + n)) ;; iupdate ip) ;; mret (i32 n)) s1).
  { unfold writei, mbind at 1, M_bind at 1, ino, gets. fold i. rewrite (proj2 (Z.eqb_neq _ _) F1).
    rewrite u32_small by lia. replace ((off >? i_size i) || (off + n <? off)) with false by (rewrite Z.gtb_ltb; lia).
    change (MAXFILE * BSIZE) with 71680. replace (off + n >? 71680) with false by (rewrite Z.gtb_ltb; lia).
    unfold mbind at 1, M_bind at 1. rewrite E1. unfold mbind at 1, M_bind at 1, ino, gets. by rewrite Ei. }
  destruct W as [W1 W2 W3 W4 W5 W6 W7].
  rewrite E0, i32_small by lia. replace (n >? 0) with true by (rewrite Z.gtb_ltb; lia). cbn [andb].
  destruct (off + n >? i_size i) eqn:Es; rewrite Z.gtb_ltb in Es.
  - set (s2 := upd_inode ip (with_size (off + n)) s1).
    assert (Hip1 : (Z.to_nat ip < length (fs_inode s1))%nat) by (destruct Hmv as (?&?&?&->); done).
    assert (Ei2 : inode_of s2 ip = with_size (off + n) i).
    { unfold s2, inode_of, upd_inode; cbn. rewrite list_lookup_total_insert_eq by done. by fold (inode_of s1 ip); rewrite Ei. }
    assert (T2 : txn s2 v1 (0 + 1)) by (destruct T1; by split).
    pose proof (iupdate_spec s2 v1 0 ip T2 (Z.le_refl 0) W2) as Hu. rewrite Ei2 in Hu. cbn in Hu. change (fs_sb s2) with (fs_sb s1) in Hu.
    rewrite Esb in Hu. fold ib in Hu. rewrite W3, W4 in Hu.
    specialize (Hu F4 (fo_dev _ _ _ F3) Hib Hih). apply wp_inv in Hu as ([] & s3 & E3 & M3 & T3 & O3).
    set (v3 := wrote_view ib _ v1) in *.
    destruct (file_ok_other v1 i N ib (store_dinode (dinode_off (i_inum i)) (with_size (off + n) i) (v_content v1 ib)))
      as [F3' B3]; [done| |done|].
    { intros k Hk. rewrite W5 by done. by apply Hk1. }
    assert (Ei3 : inode_of s3 ip = with_size (off + n) i) by (rewrite (moved_inode _ _ _ M3); done).
    exists s3, v3. split.
    + unfold when, mbind, M_bind, iset, modify. fold s2. by rewrite E3.
    + split.
      * done.
      * rewrite Ei3. fold i. by rewrite Z.max_r by lia.
      * split; rewrite ?Ei3; [done|cbn; lia| |by cbn; rewrite W3|by apply clean_wrote].
        destruct F3' as [G1 G2 G3 G4 G5 G6]. by split.
      * intros x Hx. rewrite Ei3. change (fbyte (v_content v3) (with_size (off + n) i) x) with (fbyte (v_content v3) i x).
        unfold fbyte. cbn [v3 wrote_view v_content]. rewrite B3 by zlia.
        unfold upd. rewrite decide_False by (rewrite W5 by zlia; apply Hk1; zlia). apply W6. done.
      * intros b Hb Hne. cbn. unfold upd. rewrite decide_False by done. by apply W7.
  - exists s1, v1. split; [done|]. split.
    + eapply txn_weaken; [exact T1|lia].
    + rewrite Ei. fold i. rewrite Z.max_l by lia. by destruct i.
    + split; rewrite ?Ei; try done. by rewrite W3.
    + rewrite Ei. exact W6.
    + intros b Hb _. by apply W7.
Qed.

(** (C4) [writei] inside the blocks of a file replaces exactly the bytes of the
    range, grows the size when the range passes the end, touches no block
    outside the file but the inode's, and [readi] of the range gives the bytes
    back. *)
Theorem writei_readi_roundtrip s v ip N off n src :
  let i := inode_of s ip in let ib := IBLOCK (i_inum i) (fs_sb s) in
  txn s v (Z.of_nat (io_left n 0 off) + 1) -> file_at s v ip N -> (Z.to_nat ip < length (fs_inode s))%nat ->
  0 <= off <= i_size i -> 0 < n <= Z.of_nat (length src) -> off + n <= N * 512 ->
  0 <= ib < v_size v -> ib ∉ v_held v -> (forall k, 0 <= k < N -> blk (v_content v) i k <> ib) ->
  (NDIRECT < N -> i_addrs i !!! Z.to_nat NDIRECT <> ib) ->
  exists s' v', writei devs ip src off n s = Done n s' /\ written s v ip N off n src s' v'
    /\ exists s2, readi devs ip off n s' = Done (n, take (Z.to_nat n) src) s2.
Proof.
  intros i ib T F Hip Ho Hn HN Hib Hih Hk1 Hk2.
  destruct (writei_written s v ip N off n src T F Hip Ho Hn HN Hib Hih Hk1 Hk2) as (s' & v' & E & W).
  exists s', v'. split; [done|]. split; [done|]. destruct W as [W1 W2 W3 W4 _].
  pose proof (fo_max _ _ _ (fa_file _ _ _ _ F)) as Hm. change MAXFILE with 140 in Hm.
  pose proof (readi_bytes s' v' ip N off n 0 W1 (Z.le_refl 0) W3 ltac:(lia) ltac:(lia)) as Hr. cbn zeta in Hr.
  assert (Esz : i_size (inode_of s' ip) = Z.max (i_size i) (off + n)) by by rewrite W2.
  rewrite Esz in Hr. rewrite bool_decide_true in Hr by lia.
  destruct Hr as (s2 & Er & _). exists s2. rewrite Er. replace (n `min` _) with n by lia.
  do 2 f_equal. apply list_eq_same_length with (n := Z.to_nat n).
  - rewrite length_take. lia.
  - unfold fbytes. by rewrite length_fmap, length_seqZ.
  - intros j x y Hj Hx Hy. assert (Hj' : 0 <= Z.of_nat j < n) by lia.
    pose proof (fbytes_lookup (v_content v') (inode_of s' ip) off n _ Hj') as Hl. rewrite Nat2Z.id in Hl.
    rewrite Hl in Hx. injection Hx as <-. rewrite W4 by lia. rewrite decide_True by lia.
    rewrite lookup_take_lt in Hy by lia. replace (Z.to_nat (off + Z.of_nat j - off)) with j by lia.
    by apply list_lookup_total_correct.
Qed.
End theorems.

(** ** An instance: a file of 700 bytes in the blocks 61 and 62 *)
Definition ex_fdisk : gmap Z block :=
  {[ 32 := replicate 512 0; 61 := replicate 512 7; 62 := replicate 512 8 ]}.
Definition ex_fino : inode := Inode 1 3 1 initsleeplock 1 T_FILE 0 0 1 700 (61 :: 62 :: replicate 11 0).
Definition ex_file : fsst bmem :=
  Fsst (Lgst 2 LOGSIZE 1 0 1 0 (replicate 30 0) (Bmem ex_fdisk ex_fdisk ∅ ∅ 70) [] 0 [])
    (Superblock 70 10 16 30 2 32 58) [ex_fino] 1 0.
Definition ex_fview : view := mem_view (Bmem ex_fdisk ex_fdisk ∅ ∅ 70).
Definition ex_nodev (_ : Z) : devsw bmem := Devsw None None.

Lemma ex_ftxn k : 0 <= k <= 20 -> txn ex_file ex_fview k.
Proof.
  intros Hk. split; cbn [ex_file fs_log lg_bl lg_held lg_n lg_size lg_outstanding lg_block ex_fview mem_view v_pinned bm_pinned];
    unfold NBUF, LOGSIZE, MAXOPBLOCKS; try done; try lia.
  - rewrite size_empty. lia.
  - intros _. apply not_elem_of_nil.
Qed.

Lemma ex_fblk k : 0 <= k < 2 -> blk (v_content ex_fview) ex_fino k = 61 + k.
Proof. intros Hk. assert (k = 0 \/ k = 1) as [-> | ->] by lia; done. Qed.

Lemma ex_file_at : file_at ex_file ex_fview 0 2.
Proof.
  assert (F : file_ok ex_fview ex_fino 2); [|split; change (inode_of ex_file 0) with ex_fino; try (cbn; lia); try done].
  2: { change (v_held ex_fview) with (∅ : gset Z). rewrite size_empty. lia. }
  split; try done; try (unfold NDIRECT; lia).
  - intros k Hk. rewrite ex_fblk by done. split_and!; [lia|cbn; lia|cbn; lia|cbn; set_solver|].
    assert (k = 0 \/ k = 1) as [-> | ->] by lia; done.
  - intros k k' Hk Hk'. rewrite !ex_fblk by done. lia.
Qed.

Lemma readi_slice_witness :
  file_at ex_file ex_fview 0 2
  /\ exists s', readi ex_nodev 0 510 1000 ex_file = Done (190, [7; 7] ++ replicate 188 8) s'.
Proof.
  split; [exact ex_file_at|].
  destruct (readi_slice ex_nodev ex_file ex_fview 0 2 510 1000 (ex_ftxn 0 ltac:(lia)) ex_file_at ltac:(lia) ltac:(lia))
    as (s' & E & _). exists s'. rewrite E. reflexivity.
Defined.

Lemma writei_readi_roundtrip_witness :
  file_at ex_file ex_fview 0 2
  /\ exists s' v', writei ex_nodev 0 [1; 2; 3; 4] 510 4 ex_file = Done 4 s'
    /\ written ex_file ex_fview 0 2 510 4 [1; 2; 3; 4] s' v'.
Proof.
  split; [exact ex_file_at|].
  assert (Hk : forall k, 0 <= k < 2 -> blk (v_content ex_fview) (inode_of ex_file 0) k <> IBLOCK (i_inum (inode_of ex_file 0)) (fs_sb ex_file)).
  { intros k Hk. change (inode_of ex_file 0) with ex_fino. rewrite ex_fblk by done.
    change (IBLOCK _ _) with 32. lia. }
  destruct (writei_readi_roundtrip ex_nodev ex_file ex_fview 0 2 510 4 [1; 2; 3; 4] (ex_ftxn 3 ltac:(lia)) ex_file_at)
    as (s' & v' & E & W & _).
  - cbn. lia.
  - change (i_size (inode_of ex_file 0)) with 700. lia.
  - cbn. lia.
  - lia.
  - change (IBLOCK _ _) with 32. cbn. lia.
  - cbn. set_solver.
  - exact Hk.
  - unfold NDIRECT. lia.
  - exists s', v'. split; [exact E|exact W].
Defined.
