(* ===== verification/FsDir.v ===== *)
(** * Directories ([dirlookup], [dirlink] of [fs.c], theorems)

    A directory is the list of its entries, each an inode number and 14 name
    bytes.  [dirlookup] searches the list, [dirlink] puts an entry into the first
    free place, and a name linked is found again. *)
From S2P Require Import Prelude Layout Locks Sleeplock Blocks BlockMem Log LogSpec LogCrash Fs FsSpec FsAlloc FsNames FsData.

Abbreviation dentry := (Z * list Z)%type.

(** ** The list of entries *)
Definition entry_bytes (c : Z -> block) (i : inode) (k : Z) : list Z := fbytes c i (16 * k) 16.
Definition entry_at (c : Z -> block) (i : inode) (k : Z) : dentry :=
  (de_inum (entry_bytes c i k), de_name (entry_bytes c i k)).
Definition entries_from (c : Z -> block) (i : inode) (k : Z) (m : nat) : list dentry :=
  entry_at c i <$> seqZ k (Z.of_nat m).
Definition dir_of (c : Z -> block) (i : inode) : list dentry := entries_from c i 0 (Z.to_nat (i_size i `div` 16)).

Definition hit (name : list Z) (e : dentry) : bool := (e.1 !=? 0) && (namecmp name e.2 =? 0).
(** The first entry of that name: its inode number and its index. *)
Fixpoint dir_find (k : Z) (l : list dentry) (name : list Z) : option (Z * Z) :=
  match l with
  | [] => None
  | e :: l' => if hit name e then Some (e.1, k) else dir_find (k + 1) l' name
  end.
(** An entry in the first free place, or at the end. *)
Fixpoint dir_put (e : dentry) (l : list dentry) : list dentry :=
  match l with
  | [] => [e]
  | x :: l' => if x.1 =? 0 then e :: l' else x :: dir_put e l'
  end.
Fixpoint dir_free (k : Z) (l : list dentry) : Z :=
  match l with
  | [] => k
  | x :: l' => if x.1 =? 0 then k else dir_free (k + 1) l'
  end.


(** ** Names: [namecmp] is equality of the 14 bytes [strncpy] makes of them *)
Lemma strncmp_canon n p q : strncmp_bytes n p q = 0 <-> strncpy_bytes n p = strncpy_bytes n q.
Proof.
  revert p q. induction n as [|n IH]; intros p q; [done|]. cbn [strncmp_bytes strncpy_bytes]. unfold truth.
  destruct (Z.eqb_spec (hd 0 p) 0) as [Ep|Np]; destruct (Z.eqb_spec (hd 0 q) 0) as [Eq|Nq]; cbn [negb andb].
  - rewrite Ep, Eq. split; done.
  - rewrite Ep. cbn [replicate]. split; [lia|]. intros [= E _]. congruence.
  - destruct (Z.eqb_spec (hd 0 p) (hd 0 q)) as [E|_]; [congruence|]. cbn [replicate]. split; [lia|]. intros [= E _]. congruence.
  - destruct (Z.eqb_spec (hd 0 p) (hd 0 q)) as [E|N].
    + rewrite IH, E. split; [by intros ->|by intros [= H]].
    + split; [lia|]. intros [= E _]. congruence.
Qed.

Lemma strncpy_zeroes n m : strncpy_bytes n (replicate m 0) = replicate n 0.
Proof. destruct n; [done|]. cbn. by destruct m. Qed.

Lemma strncpy_idem n p : strncpy_bytes n (strncpy_bytes n p) = strncpy_bytes n p.
Proof.
  revert p. induction n as [|n IH]; intros p; [done|]. cbn [strncpy_bytes]. unfold truth.
  destruct (Z.eqb_spec (hd 0 p) 0) as [Ep|Np]; cbn [negb].
  - done.
  - cbn [hd]. rewrite (proj2 (Z.eqb_neq _ _) Np). cbn [negb]. f_equal. apply IH.
Qed.

Definition canon (name : list Z) : list Z := strncpy_bytes (Z.to_nat DIRSIZ) name.
Lemma namecmp_canon p q : namecmp p q = 0 <-> canon p = canon q.
Proof. apply strncmp_canon. Qed.
Lemma canon_idem p : canon (canon p) = canon p.
Proof. apply strncpy_idem. Qed.

Lemma hit_canon name name' e : canon name = canon name' -> hit name e = hit name' e.
Proof.
  intros E. unfold hit. f_equal. apply Bool.eq_iff_eq_true. rewrite !Z.eqb_eq, !namecmp_canon. by rewrite E.
Qed.

(** The search after an insertion. *)
Lemma dir_find_put name name' inum k l :
  inum <> 0 -> dir_find k l name = None ->
  dir_find k (dir_put (inum, canon name) l) name' =
    if bool_decide (canon name' = canon name) then Some (inum, dir_free k l) else dir_find k l name'.
Proof.
  intros Hi. assert (Hnew : hit name' (inum, canon name) = bool_decide (canon name' = canon name)).
  { unfold hit; cbn. rewrite (proj2 (Z.eqb_neq _ _) Hi). cbn.
    apply Bool.eq_iff_eq_true. rewrite Z.eqb_eq, namecmp_canon, canon_idem. by rewrite bool_decide_eq_true. }
  revert k. induction l as [|x l IH]; intros k Hnone; cbn [dir_put dir_find dir_free] in *.
  - rewrite Hnew. by case_bool_decide.
  - destruct (hit name x) eqn:Hh; [done|]. destruct (x.1 =? 0) eqn:E; cbn [dir_find].
    + rewrite Hnew. case_bool_decide; [done|]. unfold hit. by rewrite E.
    + rewrite IH by done. case_bool_decide as Hc; [|done]. by rewrite <- (hit_canon _ _ x (eq_sym Hc)), Hh.
Qed.

Section dir.
Context {S : Type} `{BlockLayer S} (devs : Z -> devsw S).
Implicit Types s : fsst S.

(** A locked directory of [n] entries. *)
Record dir_at s (v : view) (dp N n : Z) : Prop := DirAt {
  da_file : file_at s v dp N;
  da_type : i_type (inode_of s dp) = T_DIR;
  da_size : i_size (inode_of s dp) = 16 * n }.

Lemma dir_bounds s v dp N n : dir_at s v dp N n -> 0 <= n <= 4480 /\ 16 * n <= N * 512.
Proof.
  intros [[F1 F2 F3 _ _] _ Es]. pose proof (fo_max _ _ _ F3) as Hm. change MAXFILE with 140 in Hm. lia.
Qed.

Lemma file_moved s s' v ip N : moved s s' -> file_at s v ip N -> file_at s' v ip N.
Proof. intros M [F1 F2 F3 F4 F5]. split; try done; by rewrite (moved_inode _ _ _ M). Qed.

Lemma dir_moved s s' v dp N n : moved s s' -> dir_at s v dp N n -> dir_at s' v dp N n.
Proof. intros M [D1 D2 D3]. split; [by eapply file_moved|by rewrite (moved_inode _ _ _ M)..]. Qed.

Lemma done_step s s1 s2 v q : done_at s s1 v q -> done_at s1 s2 v q -> done_at s s2 v q.
Proof. apply done_trans. Qed.

Lemma entry_read s v q dp N n k :
  txn s v q -> 0 <= q -> dir_at s v dp N n -> 0 <= k < n ->
  exists s', readi devs dp (16 * k) 16 s = Done (16, entry_bytes (v_content v) (inode_of s dp) k) s' /\ done_at s s' v q.
Proof.
  intros T Hq D Hk. destruct (dir_bounds _ _ _ _ _ D) as [Hn _].
  pose proof (readi_bytes devs s v dp N (16 * k) 16 q T Hq (da_file _ _ _ _ _ D) ltac:(lia) ltac:(lia)) as Hr.
  cbn zeta in Hr. rewrite (da_size _ _ _ _ _ D) in Hr. rewrite bool_decide_true in Hr by lia.
  by replace (16 `min` (16 * n - 16 * k)) with 16 in Hr by lia.
Qed.

Lemma entries_cons c i k m : entries_from c i k (Datatypes.S m) = entry_at c i k :: entries_from c i (k + 1) m.
Proof.
  unfold entries_from. rewrite seqZ_cons by lia. cbn [fmap list_fmap]. f_equal. f_equal. f_equal; lia.
Qed.

Lemma dir_of_eq s v dp N n c : dir_at s v dp N n -> dir_of c (inode_of s dp) = entries_from c (inode_of s dp) 0 (Z.to_nat n).
Proof. intros D. unfold dir_of. rewrite (da_size _ _ _ _ _ D). by rewrite Z.mul_comm, Z.div_mul. Qed.

(** One pass of a scan over the entries: what the three loops have in common. *)
Lemma scan_entry s0 s v q dp N n k :
  done_at s0 s v q -> 0 <= q -> dir_at s0 v dp N n -> 0 <= k <= n ->
  ino dp s = Done (inode_of s0 dp) s
  /\ (16 * k <? i_size (inode_of s0 dp)) = (k <? n)
  /\ (k < n -> exists s', readi devs dp (16 * k) sizeof_dirent s = Done (16, entry_bytes (v_content v) (inode_of s0 dp) k) s' /\ done_at s0 s' v q)
  /\ u32 (16 * k + sizeof_dirent) = 16 * (k + 1).
Proof.
  intros (M & T & O) Hq D Hk. destruct (dir_bounds _ _ _ _ _ D) as [Hn _]. split_and!.
  - unfold ino, gets. by rewrite (moved_inode _ _ _ M).
  - rewrite (da_size _ _ _ _ _ D). lia.
  - intros Hlt. destruct (entry_read s v q dp N n k T Hq (dir_moved _ _ _ _ _ _ M D) ltac:(lia)) as (s' & E & Hd).
    exists s'. rewrite (moved_inode _ _ _ M) in E. split; [exact E|]. eapply done_step; [|exact Hd]. by split.
  - unfold sizeof_dirent. rewrite u32_small by lia. lia.
Qed.

Lemma dirlookup_loop s0 v q dp N n name m : forall fuel k s,
  0 <= q -> dir_at s0 v dp N n -> (m < fuel)%nat -> k + Z.of_nat m = n -> 0 <= k -> done_at s0 s v q ->
  exists s', done_at s0 s' v q /\ loop fuel (dirlookup_body devs dp name) (16 * k) s =
    match dir_find k (entries_from (v_content v) (inode_of s0 dp) k m) name with
    | Some (inum, j) => (ip ← iget 1 inum; mret (Some (ip, 16 * j))) s'
    | None => Done None s'
    end.
Proof.
  induction m as [|m IH]; intros fuel k s Hq D Hf Hkm Hk Hd; (destruct fuel as [|fuel]; [lia|]);
    destruct (scan_entry s0 s v q dp N n k Hd Hq D ltac:(lia)) as (Ei & Es & Er & Eo);
    cbn [loop].
  - exists s. split; [done|]. rewrite (bind_Done _ _ _ (inr None) s); [done|].
    unfold dirlookup_body. rewrite (bind_Done _ _ _ _ _ Ei), Es. by replace (k <? n) with false by lia.
  - destruct (Er ltac:(lia)) as (s1 & E1 & Hd1). rewrite entries_cons. cbn [dir_find].
    unfold hit at 1. unfold entry_at at 1 2 3. cbn [fst snd].
    destruct Hd1 as (M1 & T1 & O1).
    assert (Ei1 : ino dp s1 = Done (inode_of s0 dp) s1) by (unfold ino, gets; by rewrite (moved_inode _ _ _ M1)).
    destruct (de_inum _ =? 0) eqn:E0; cbn [negb andb]; [|destruct (namecmp name _ =? 0) eqn:En].
    + destruct (IH fuel (k + 1) s1 Hq D ltac:(lia) ltac:(lia) ltac:(lia) ltac:(by split)) as (s' & Hd' & E').
      exists s'. split; [done|]. rewrite (bind_Done _ _ _ (inl (16 * (k + 1))) s1); [exact E'|].
      unfold dirlookup_body. rewrite (bind_Done _ _ _ _ _ Ei), Es. replace (k <? n) with true by lia. cbn [negb].
      rewrite (bind_Done _ _ _ _ _ E1). by rewrite E0, Eo.
    + exists s1. split; [by split|]. 
      assert (Eb : dirlookup_body devs dp name (16 * k) s = (ip ← iget 1 (de_inum (entry_bytes (v_content v) (inode_of s0 dp) k)); mret (inr (Some (ip, 16 * k)))) s1).
      { unfold dirlookup_body. rewrite (bind_Done _ _ _ _ _ Ei), Es. replace (k <? n) with true by lia. cbn [negb].
      rewrite (bind_Done _ _ _ _ _ E1). change (16 !=? sizeof_dirent) with false. cbv beta iota. rewrite E0, En. rewrite (bind_Done _ _ _ _ _ Ei1).
      rewrite (fo_dev _ _ _ (fa_file _ _ _ _ (da_file _ _ _ _ _ D))). done. }
      unfold mbind, M_bind in Eb |- *. rewrite Eb. by destruct (iget 1 _ s1).
    + destruct (IH fuel (k + 1) s1 Hq D ltac:(lia) ltac:(lia) ltac:(lia) ltac:(by split)) as (s' & Hd' & E').
      exists s'. split; [done|]. rewrite (bind_Done _ _ _ (inl (16 * (k + 1))) s1); [exact E'|].
      unfold dirlookup_body. rewrite (bind_Done _ _ _ _ _ Ei), Es. replace (k <? n) with true by lia. cbn [negb].
      rewrite (bind_Done _ _ _ _ _ E1). by rewrite E0, En, Eo.
Qed.

Lemma dirlink_loop s0 v q dp N n m : forall fuel k s,
  0 <= q -> dir_at s0 v dp N n -> (m < fuel)%nat -> k + Z.of_nat m = n -> 0 <= k -> done_at s0 s v q ->
  exists s', done_at s0 s' v q /\ loop fuel (dirlink_body devs dp) (16 * k) s =
    Done (16 * dir_free k (entries_from (v_content v) (inode_of s0 dp) k m)) s'.
Proof.
  induction m as [|m IH]; intros fuel k s Hq D Hf Hkm Hk Hd; (destruct fuel as [|fuel]; [lia|]);
    destruct (scan_entry s0 s v q dp N n k Hd Hq D ltac:(lia)) as (Ei & Es & Er & Eo);
    cbn [loop].
  - exists s. split; [done|]. rewrite (bind_Done _ _ _ (inr (16 * k)) s); [done|].
    unfold dirlink_body. rewrite (bind_Done _ _ _ _ _ Ei), Es. by replace (k <? n) with false by lia.
  - destruct (Er ltac:(lia)) as (s1 & E1 & Hd1). rewrite entries_cons. cbn [dir_free].
    unfold entry_at at 1. cbn [fst]. destruct (de_inum _ =? 0) eqn:E0.
    + exists s1. split; [done|]. rewrite (bind_Done _ _ _ (inr (16 * k)) s1); [done|].
      unfold dirlink_body. rewrite (bind_Done _ _ _ _ _ Ei), Es. replace (k <? n) with true by lia. cbn [negb].
      rewrite (bind_Done _ _ _ _ _ E1). by rewrite E0.
    + destruct (IH fuel (k + 1) s1 Hq D ltac:(lia) ltac:(lia) ltac:(lia) Hd1) as (s' & Hd' & E').
      exists s'. split; [done|]. rewrite (bind_Done _ _ _ (inl (16 * (k + 1))) s1); [exact E'|].
      unfold dirlink_body. rewrite (bind_Done _ _ _ _ _ Ei), Es. replace (k <? n) with true by lia. cbn [negb].
      rewrite (bind_Done _ _ _ _ _ E1). by rewrite E0, Eo.
Qed.

Lemma dirlookup_eq s v q dp N n name :
  txn s v q -> 0 <= q -> dir_at s v dp N n ->
  exists s', done_at s s' v q /\ dirlookup devs dp name s =
    match dir_find 0 (dir_of (v_content v) (inode_of s dp)) name with
    | Some (inum, j) => (ip ← iget 1 inum; mret (Some (ip, 16 * j))) s'
    | None => Done None s'
    end.
Proof.
  intros T Hq D. destruct (dir_bounds _ _ _ _ _ D) as [Hn _]. rewrite (dir_of_eq _ _ _ _ _ _ D).
  unfold dirlookup. rewrite (bind_Done _ _ s (inode_of s dp) s) by done. rewrite (da_type _ _ _ _ _ D).
  apply (dirlookup_loop s v q dp N n name (Z.to_nat n) _ 0 s); try done; [|lia|by apply done_refl].
  rewrite (da_size _ _ _ _ _ D). unfold dir_fuel, sizeof_dirent. zlia.
Qed.

(** A directory is searched by name: [dirlookup] ends, changes no block,
    and returns the inode and the offset of the first entry in use whose 14-byte
    name matches, or nothing when there is none - as the search of the list of
    entries does. *)
Theorem dirlookup_refines s v dp N n name :
  txn s v 0 -> dir_at s v dp N n ->
  exists s', done_at s s' v 0 /\ dirlookup devs dp name s =
    match dir_find 0 (dir_of (v_content v) (inode_of s dp)) name with
    | Some (inum, j) => (ip ← iget 1 inum; mret (Some (ip, 16 * j))) s'
    | None => Done None s'
    end.
Proof. intros T D. by eapply dirlookup_eq. Qed.
End dir.

(** ** Insertion *)
Lemma dir_free_range k l : k <= dir_free k l <= k + Z.of_nat (length l).
Proof.
  revert k. induction l as [|x l IH]; intros k; cbn [dir_free length]; [lia|].
  destruct (x.1 =? 0); [lia|]. specialize (IH (k + 1)). lia.
Qed.

Lemma dir_put_lookup e k l j :
  dir_put e l !! j = if decide (Z.of_nat j = dir_free k l - k) then Some e else l !! j.
Proof.
  revert k j. induction l as [|x l IH]; intros k j; cbn [dir_put dir_free].
  - destruct j as [|j]; [by rewrite decide_True by lia|]. by rewrite decide_False by lia.
  - destruct (x.1 =? 0).
    + destruct j as [|j]; [by rewrite decide_True by lia|]. by rewrite decide_False by lia.
    + pose proof (dir_free_range (k + 1) l) as Hr. destruct j as [|j]; cbn [lookup list_lookup].
      * by rewrite decide_False by lia.
      * change (dir_put e l !! j = if decide (Z.of_nat (Datatypes.S j) = dir_free (k + 1) l - k) then Some e else l !! j).
        rewrite (IH (k + 1)). split_decide as [E|E]; split_decide as [E'|E']; first [done|lia].
Qed.

Lemma canon_length name : length (canon name) = 14%nat.
Proof.
  unfold canon. change (Z.to_nat DIRSIZ) with 14%nat. generalize 14%nat as n. intros n. revert name.
  induction n as [|n IH]; intros name; [done|]. cbn [strncpy_bytes]. destruct (truth _); cbn [length]; [by rewrite IH|].
  by rewrite length_replicate.
Qed.

(** The entry [dirlink] writes reads back as its inode number and its name. *)
Lemma mk_dirent_entry inum name :
  0 <= inum < 65536 -> de_inum (mk_dirent inum (canon name)) = inum /\ de_name (mk_dirent inum (canon name)) = canon name.
Proof.
  intros Hi. unfold mk_dirent, de_inum, de_name, u16. rewrite (Z.mod_small inum) by lia. split.
  - unfold get16. cbn [app list_lookup_total lookup_total Nat.add]. zlia.
  - change (take 14 (canon name) = canon name). apply take_ge. pose proof (canon_length name). lia.
Qed.

Section dirlink.
Context {S : Type} `{BlockLayer S} (devs : Z -> devsw S).
Implicit Types s : fsst S.

Lemma entry_at_bytes c c' i i' k :
  (forall x, 16 * k <= x < 16 * k + 16 -> fbyte c' i' x = fbyte c i x) -> entry_at c' i' k = entry_at c i k.
Proof.
  intros Hb. unfold entry_at. assert (entry_bytes c' i' k = entry_bytes c i k) as ->; [|done].
  unfold entry_bytes, fbytes. apply list_fmap_ext. intros j x Hx.
  apply list_elem_of_lookup_2, elem_of_seqZ in Hx. apply Hb. lia.
Qed.

Lemma entry_bytes_new c i k src :
  length src = 16%nat -> (forall x, 16 * k <= x < 16 * k + 16 -> fbyte c i x = src !!! Z.to_nat (x - 16 * k)) ->
  entry_bytes c i k = src.
Proof.
  intros Hl Hb. unfold entry_bytes. apply list_eq_same_length with (n := 16%nat); [done| |].
  - unfold fbytes. by rewrite length_fmap, length_seqZ.
  - intros j x y Hj Hx Hy. pose proof (fbytes_lookup c i (16 * k) 16 (Z.of_nat j) ltac:(lia)) as E.
    rewrite Nat2Z.id, Hx in E. injection E as ->. rewrite Hb by lia.
    replace (Z.to_nat (16 * k + Z.of_nat j - 16 * k)) with j by lia. by apply list_lookup_total_correct.
Qed.

Lemma entries_lookup c i m j : entries_from c i 0 m !! j = if decide (j < m)%nat then Some (entry_at c i (Z.of_nat j)) else None.
Proof.
  unfold entries_from. rewrite list_lookup_fmap. split_decide.
  - rewrite (proj2 (lookup_seqZ 0 (Z.of_nat m) j (0 + Z.of_nat j)) ltac:(lia)). done.
  - rewrite lookup_seqZ_ge by lia. done.
Qed.

(** The directory after [writei] has stored an entry in place [k]. *)
Lemma dir_of_written s v dp N n k inum name s' v' :
  let i := inode_of s dp in let l := dir_of (v_content v) i in
  dir_at s v dp N n -> 0 <= inum < 65536 -> k = dir_free 0 l -> 16 * k + 16 <= N * 512 ->
  written s v dp N (16 * k) 16 (mk_dirent inum (canon name)) s' v' ->
  dir_at s' v' dp N (Z.max n (k + 1)) /\ dir_of (v_content v') (inode_of s' dp) = dir_put (inum, canon name) l.
Proof.
  intros i l D Hi Ek HN [W1 W2 W3 W4 W5]. destruct (dir_bounds _ _ _ _ _ D) as [Hn Hn2].
  pose proof (dir_of_eq _ _ _ _ _ (v_content v) D) as El. fold i l in El.
  assert (Hll : Z.of_nat (length l) = n) by (rewrite El; unfold entries_from; rewrite length_fmap, length_seqZ; lia).
  pose proof (dir_free_range 0 l) as Hr. rewrite <- Ek in Hr. fold i in W2, W4.
  assert (Es : i_size (inode_of s' dp) = 16 * Z.max n (k + 1)).
  { rewrite W2. unfold with_size, with_meta. cbn [i_size]. pose proof (da_size _ _ _ _ _ D) as Hsz. fold i in Hsz. lia. }
  assert (D' : dir_at s' v' dp N (Z.max n (k + 1))).
  { split; [done| |done]. rewrite W2. apply (da_type _ _ _ _ _ D). }
  split; [done|]. rewrite (dir_of_eq _ _ _ _ _ (v_content v') D'). apply list_eq. intros j.
  rewrite entries_lookup, (dir_put_lookup _ 0). rewrite <- Ek, El, entries_lookup.
  destruct (decide (Z.of_nat j = k - 0)) as [E|E].
  - rewrite decide_True by lia. f_equal. unfold entry_at.
    rewrite (entry_bytes_new _ _ _ (mk_dirent inum (canon name))).
    + destruct (mk_dirent_entry inum name Hi) as [-> ->]. done.
    + unfold mk_dirent. rewrite length_app, canon_length. done.
    + intros x Hx. rewrite W4 by lia. rewrite decide_True by lia. do 2 f_equal. lia.
  - destruct (decide (j < Z.to_nat (Z.max n (k + 1)))%nat) as [Hj|Hj].
    + rewrite decide_True by lia. f_equal. apply entry_at_bytes. intros x Hx. rewrite W4 by lia.
      rewrite decide_False by lia. done.
    + by rewrite decide_False by lia.
Qed.

(** (C20) What is linked is found: given a free place or room in the blocks of
    the directory, [dirlink] of a name that is not there succeeds and puts the
    entry into the first free place.  [dirlookup] of that name then gets the inode
    linked, with [iget], and returns it with the entry's offset; every other name
    gives what the search of the old entries gives: the same inode and offset, or
    nothing. *)
Theorem dirlink_inserts s v dp N n name inum :
  let i := inode_of s dp in let l := dir_of (v_content v) i in let ib := IBLOCK (i_inum i) (fs_sb s) in
  txn s v 2 -> dir_at s v dp N n -> (Z.to_nat dp < length (fs_inode s))%nat -> 0 < inum < 65536 ->
  dir_find 0 l name = None -> 16 * dir_free 0 l + 16 <= N * 512 ->
  0 <= ib < v_size v -> ib ∉ v_held v -> (forall k, 0 <= k < N -> blk (v_content v) i k <> ib) ->
  (NDIRECT < N -> i_addrs i !!! Z.to_nat NDIRECT <> ib) ->
  exists s' v', dirlink devs dp name inum s = Done 0 s' /\ txn s' v' 0
    /\ dir_at s' v' dp N (Z.max n (dir_free 0 l + 1))
    /\ dir_of (v_content v') (inode_of s' dp) = dir_put (inum, canon name) l
    /\ forall name', exists s2, done_at s' s2 v' 0 /\ dirlookup devs dp name' s' =
         match (if bool_decide (canon name' = canon name) then Some (inum, dir_free 0 l) else dir_find 0 l name') with
         | Some (inum', j) => (ip ← iget 1 inum'; mret (Some (ip, 16 * j))) s2
         | None => Done None s2
         end.
Proof.
  intros i l ib T D Hdp Hi Hnone HN Hib Hih Hk1 Hk2. destruct (dir_bounds _ _ _ _ _ D) as [Hn _].
  pose proof (dir_of_eq _ _ _ _ _ (v_content v) D) as El. fold i l in El.
  pose proof (dir_free_range 0 l) as Hr.
  assert (Hll : Z.of_nat (length l) = n) by (rewrite El; unfold entries_from; rewrite length_fmap, length_seqZ; lia).
  destruct (dirlookup_eq devs s v 2 dp N n name T ltac:(lia) D) as (s1 & Hd1 & E1). fold i l in E1. rewrite Hnone in E1.
  assert (Ei : forall s', done_at s s' v 2 -> ino dp s' = Done i s' /\ inode_of s' dp = i).
  { intros s' (M & _). unfold ino, gets. by rewrite (moved_inode _ _ _ M). }
  destruct (dirlink_loop devs s v 2 dp N n (Z.to_nat n) (dir_fuel (i_size i)) 0 s1 ltac:(lia) D) as (s2 & Hd2 & E2);
    [|lia|lia|done|].
  { unfold i. rewrite (da_size _ _ _ _ _ D). unfold dir_fuel, sizeof_dirent. zlia. }
  fold i in E2. rewrite <- El in E2. set (k := dir_free 0 l) in *.
  destruct (Ei s2 Hd2) as [_ Ei2]. pose proof Hd2 as (M2 & T2 & _).
  assert (Esb : fs_sb s2 = fs_sb s) by by apply moved_sb.
  destruct (writei_written devs s2 v dp N (16 * k) 16 (mk_dirent inum (canon name))) as (s3 & v3 & E3 & W).
  - replace (Z.of_nat (io_left 16 0 (16 * k)) + 1) with 2; [done|]. unfold io_left. cbn [Z.ltb Z.compare]. zlia.
  - apply (file_moved s); [done|apply D].
  - destruct M2 as (? & ? & ? & ->). exact Hdp.
  - rewrite Ei2. unfold i. rewrite (da_size _ _ _ _ _ D). lia.
  - unfold mk_dirent. rewrite length_app, canon_length. cbn. lia.
  - lia.
  - by rewrite Ei2, Esb.
  - by rewrite Ei2, Esb.
  - by rewrite Ei2, Esb.
  - by rewrite Ei2, Esb.
  - assert (D2 : dir_at s2 v dp N n) by by eapply dir_moved.
    assert (Elk : dir_of (v_content v) (inode_of s2 dp) = l) by by rewrite Ei2.
    destruct (dir_of_written s2 v dp N n k inum name s3 v3 D2 ltac:(lia) ltac:(by rewrite Elk) HN W) as [D3 Eput].
    rewrite Elk in Eput. exists s3, v3. split_and!; try done; [|apply W|].
    + unfold dirlink. rewrite (bind_Done _ _ _ _ _ E1). destruct (Ei s1 Hd1) as [Ei1 _].
      rewrite (bind_Done _ _ _ _ _ Ei1). rewrite (bind_Done _ _ _ _ _ E2).
      change (strncpy_bytes (Z.to_nat DIRSIZ) name) with (canon name). by rewrite (bind_Done _ _ _ _ _ E3).
    + intros name'. destruct (dirlookup_eq devs s3 v3 0 dp N _ name' (wt_view _ _ _ _ _ _ _ _ _ W) ltac:(lia) D3) as (s4 & Hd4 & E4).
      exists s4. split; [exact Hd4|]. rewrite E4, Eput, dir_find_put by (done || lia). done.
Qed.
End dirlink.

(** ** An instance: the root directory with ["."], [".."] and a free entry *)
Definition ex_dot : list Z := 46 :: replicate 13 0.
Definition ex_dotdot : list Z := [46; 46] ++ replicate 12 0.
Definition ex_dirblk : block := mk_dirent 1 ex_dot ++ mk_dirent 1 ex_dotdot ++ replicate 480 0.
Definition ex_ddisk : gmap Z block := {[ 32 := replicate 512 0; 61 := ex_dirblk ]}.
Definition ex_dino : inode := Inode 1 1 1 initsleeplock 1 T_DIR 0 0 1 48 (61 :: replicate 12 0).
Definition ex_dirst : fsst bmem :=
  Fsst (Lgst 2 LOGSIZE 1 0 1 0 (replicate 30 0) (Bmem ex_ddisk ex_ddisk ∅ ∅ 70) [] 0 [])
    (Superblock 70 10 16 30 2 32 58) [ex_dino] 1 0.
Definition ex_dview : view := mem_view (Bmem ex_ddisk ex_ddisk ∅ ∅ 70).

Lemma ex_dtxn k : 0 <= k <= 20 -> txn ex_dirst ex_dview k.
Proof.
  intros Hk. split; cbn [ex_dirst fs_log lg_bl lg_held lg_n lg_size lg_outstanding lg_block ex_dview mem_view v_pinned bm_pinned];
    unfold NBUF, LOGSIZE, MAXOPBLOCKS; try done; try lia.
  - rewrite size_empty. lia.
  - intros _. apply not_elem_of_nil.
Qed.

Lemma ex_dir_at : dir_at ex_dirst ex_dview 0 1 3.
Proof.
  split; [|done..]. assert (F : file_ok ex_dview ex_dino 1).
  { split; try done; try (unfold NDIRECT; lia).
    intros k Hk. assert (k = 0) as -> by lia. change (blk (v_content ex_dview) ex_dino 0) with 61.
    split_and!; [lia|cbn; lia|cbn; lia|cbn; set_solver|done]. }
  split; change (inode_of ex_dirst 0) with ex_dino; try done; try (cbn; lia).
  change (v_held ex_dview) with (∅ : gset Z). rewrite size_empty. lia.
Qed.

Lemma ex_dir_list : dir_of (v_content ex_dview) ex_dino = [(1, ex_dot); (1, ex_dotdot); (0, replicate 14 0)].
Proof. vm_compute. reflexivity. Qed.

Lemma dirlookup_refines_witness :
  exists s', done_at ex_dirst s' ex_dview 0
    /\ dirlookup ex_nodev 0 [46; 46] ex_dirst = (ip ← iget 1 1; mret (Some (ip, 16))) s'.
Proof.
  destruct (dirlookup_refines ex_nodev ex_dirst ex_dview 0 1 3 [46; 46] (ex_dtxn 0 ltac:(lia)) ex_dir_at)
    as (s' & Hd & E). exists s'. split; [exact Hd|]. rewrite E.
  change (inode_of ex_dirst 0) with ex_dino. rewrite ex_dir_list. reflexivity.
Defined.

(** Linking ["a"] fills the free entry. *)
Lemma dirlink_inserts_witness :
  exists s' v', dirlink ex_nodev 0 [97] 5 ex_dirst = Done 0 s'
    /\ dir_of (v_content v') (inode_of s' 0) = [(1, ex_dot); (1, ex_dotdot); (5, canon [97])]
    /\ exists s2, dirlookup ex_nodev 0 [97] s' = (ip ← iget 1 5; mret (Some (ip, 32))) s2.
Proof.
  destruct (dirlink_inserts ex_nodev ex_dirst ex_dview 0 1 3 [97] 5 (ex_dtxn 2 ltac:(lia)) ex_dir_at)
    as (s' & v' & E & _ & _ & El & Hl).
  - cbn. lia.
  - lia.
  - change (inode_of ex_dirst 0) with ex_dino. rewrite ex_dir_list. reflexivity.
  - change (inode_of ex_dirst 0) with ex_dino. rewrite ex_dir_list. cbn. lia.
  - change (IBLOCK _ _) with 32. cbn. lia.
  - cbn. set_solver.
  - intros k Hk. assert (k = 0) as -> by lia. change (IBLOCK _ _) with 32. change (blk _ _ 0) with 61. lia.
  - unfold NDIRECT. lia.
  - exists s', v'. split; [exact E|]. split.
    + rewrite El. change (inode_of ex_dirst 0) with ex_dino. rewrite ex_dir_list. reflexivity.
    + destruct (Hl [97]) as (s2 & _ & E2). exists s2. rewrite E2. change (inode_of ex_dirst 0) with ex_dino.
      rewrite ex_dir_list. reflexivity.
Defined.
