(* ===== verification/ProcData.v ===== *)
(** * Processes: data and interfaces ([proc.h], [proc.c], [vm.c])

    The process table entry, the memory-mapping table entry, the kernel state
    the process layer works on, and [FileLayer], the interface of the file
    layer it calls ([File.v] has the instance).  Pointers to table entries are
    indexes and [NULL] is the null pointer; the trap frame and the context of a
    process live in the bytes of its kernel stack, as in the code. *)
From S2P Require Import Prelude Layout Memory Locks Kalloc Vm Fs.

Inductive procstate := UNUSED | EMBRYO | SLEEPING | RUNNABLE | RUNNING | ZOMBIE.
#[export] Instance procstate_eq_dec : EqDecision procstate.
Proof. solve_decision. Defined.

(** What a process sleeps on: the address of a process, of [ticks], or of
    another kernel object. *)
Inductive wchan := Cnone | Cproc (p : Z) | Cticks | Cobj (a : Z).
#[export] Instance wchan_eq_dec : EqDecision wchan.
Proof. solve_decision. Defined.

Record proc := Proc {
  p_sz : Z; p_pgdir : Z; p_kstack : Z; p_state : procstate; p_pid : Z; p_parent : Z;
  p_tf : Z; p_context : Z; p_chan : wchan; p_killed : Z; p_ofile : list Z; p_cwd : Z;
  p_name : list Z; p_nice : Z; p_weight : Z; p_vhigh : Z; p_vlow : Z;
  p_arun : Z; p_aprev : Z; p_slice : Z }.
Definition zero_proc : proc :=
  Proc 0 0 0 UNUSED 0 NULL 0 0 Cnone 0 (replicate (Z.to_nat NOFILE) NULL) NULL [] 0 0 0 0 0 0 0.
#[export] Instance proc_inhabited : Inhabited proc := populate zero_proc.

(** Updates of one group of fields. *)
Definition with_state (st : procstate) (p : proc) : proc :=
  Proc (p_sz p) (p_pgdir p) (p_kstack p) st (p_pid p) (p_parent p) (p_tf p) (p_context p) (p_chan p) (p_killed p)
    (p_ofile p) (p_cwd p) (p_name p) (p_nice p) (p_weight p) (p_vhigh p) (p_vlow p) (p_arun p) (p_aprev p) (p_slice p).
Definition with_chan (c : wchan) (p : proc) : proc :=
  Proc (p_sz p) (p_pgdir p) (p_kstack p) (p_state p) (p_pid p) (p_parent p) (p_tf p) (p_context p) c (p_killed p)
    (p_ofile p) (p_cwd p) (p_name p) (p_nice p) (p_weight p) (p_vhigh p) (p_vlow p) (p_arun p) (p_aprev p) (p_slice p).
Definition with_killed (k : Z) (p : proc) : proc :=
  Proc (p_sz p) (p_pgdir p) (p_kstack p) (p_state p) (p_pid p) (p_parent p) (p_tf p) (p_context p) (p_chan p) k
    (p_ofile p) (p_cwd p) (p_name p) (p_nice p) (p_weight p) (p_vhigh p) (p_vlow p) (p_arun p) (p_aprev p) (p_slice p).
Definition with_parent (q : Z) (p : proc) : proc :=
  Proc (p_sz p) (p_pgdir p) (p_kstack p) (p_state p) (p_pid p) q (p_tf p) (p_context p) (p_chan p) (p_killed p)
    (p_ofile p) (p_cwd p) (p_name p) (p_nice p) (p_weight p) (p_vhigh p) (p_vlow p) (p_arun p) (p_aprev p) (p_slice p).
Definition with_pid (i : Z) (p : proc) : proc :=
  Proc (p_sz p) (p_pgdir p) (p_kstack p) (p_state p) i (p_parent p) (p_tf p) (p_context p) (p_chan p) (p_killed p)
    (p_ofile p) (p_cwd p) (p_name p) (p_nice p) (p_weight p) (p_vhigh p) (p_vlow p) (p_arun p) (p_aprev p) (p_slice p).
Definition with_mem (sz pgdir : Z) (p : proc) : proc :=
  Proc sz pgdir (p_kstack p) (p_state p) (p_pid p) (p_parent p) (p_tf p) (p_context p) (p_chan p) (p_killed p)
    (p_ofile p) (p_cwd p) (p_name p) (p_nice p) (p_weight p) (p_vhigh p) (p_vlow p) (p_arun p) (p_aprev p) (p_slice p).
Definition with_kstack (k : Z) (p : proc) : proc :=
  Proc (p_sz p) (p_pgdir p) k (p_state p) (p_pid p) (p_parent p) (p_tf p) (p_context p) (p_chan p) (p_killed p)
    (p_ofile p) (p_cwd p) (p_name p) (p_nice p) (p_weight p) (p_vhigh p) (p_vlow p) (p_arun p) (p_aprev p) (p_slice p).
Definition with_frames (tf ctx : Z) (p : proc) : proc :=
  Proc (p_sz p) (p_pgdir p) (p_kstack p) (p_state p) (p_pid p) (p_parent p) tf ctx (p_chan p) (p_killed p)
    (p_ofile p) (p_cwd p) (p_name p) (p_nice p) (p_weight p) (p_vhigh p) (p_vlow p) (p_arun p) (p_aprev p) (p_slice p).
Definition with_ofile (fd f : Z) (p : proc) : proc :=
  Proc (p_sz p) (p_pgdir p) (p_kstack p) (p_state p) (p_pid p) (p_parent p) (p_tf p) (p_context p) (p_chan p) (p_killed p)
    (<[Z.to_nat fd := f]> (p_ofile p)) (p_cwd p) (p_name p) (p_nice p) (p_weight p) (p_vhigh p) (p_vlow p) (p_arun p) (p_aprev p) (p_slice p).
Definition with_cwd (c : Z) (p : proc) : proc :=
  Proc (p_sz p) (p_pgdir p) (p_kstack p) (p_state p) (p_pid p) (p_parent p) (p_tf p) (p_context p) (p_chan p) (p_killed p)
    (p_ofile p) c (p_name p) (p_nice p) (p_weight p) (p_vhigh p) (p_vlow p) (p_arun p) (p_aprev p) (p_slice p).
Definition with_name (n : list Z) (p : proc) : proc :=
  Proc (p_sz p) (p_pgdir p) (p_kstack p) (p_state p) (p_pid p) (p_parent p) (p_tf p) (p_context p) (p_chan p) (p_killed p)
    (p_ofile p) (p_cwd p) n (p_nice p) (p_weight p) (p_vhigh p) (p_vlow p) (p_arun p) (p_aprev p) (p_slice p).
Definition with_prio (nice weight : Z) (p : proc) : proc :=
  Proc (p_sz p) (p_pgdir p) (p_kstack p) (p_state p) (p_pid p) (p_parent p) (p_tf p) (p_context p) (p_chan p) (p_killed p)
    (p_ofile p) (p_cwd p) (p_name p) nice weight (p_vhigh p) (p_vlow p) (p_arun p) (p_aprev p) (p_slice p).
Definition with_vruntime (h l : Z) (p : proc) : proc :=
  Proc (p_sz p) (p_pgdir p) (p_kstack p) (p_state p) (p_pid p) (p_parent p) (p_tf p) (p_context p) (p_chan p) (p_killed p)
    (p_ofile p) (p_cwd p) (p_name p) (p_nice p) (p_weight p) h l (p_arun p) (p_aprev p) (p_slice p).
Definition with_runtime (a prev : Z) (p : proc) : proc :=
  Proc (p_sz p) (p_pgdir p) (p_kstack p) (p_state p) (p_pid p) (p_parent p) (p_tf p) (p_context p) (p_chan p) (p_killed p)
    (p_ofile p) (p_cwd p) (p_name p) (p_nice p) (p_weight p) (p_vhigh p) (p_vlow p) a prev (p_slice p).
Definition with_slice (t : Z) (p : proc) : proc :=
  Proc (p_sz p) (p_pgdir p) (p_kstack p) (p_state p) (p_pid p) (p_parent p) (p_tf p) (p_context p) (p_chan p) (p_killed p)
    (p_ofile p) (p_cwd p) (p_name p) (p_nice p) (p_weight p) (p_vhigh p) (p_vlow p) (p_arun p) (p_aprev p) t.

(** [struct trapframe]: offsets of the fields the kernel touches. *)
Definition sizeof_trapframe : Z := 76.
Definition tf_eax : Z := 28.
Definition tf_es : Z := 40.
Definition tf_ds : Z := 44.
Definition tf_trapno : Z := 48.
Definition tf_err : Z := 52.
Definition tf_eip : Z := 56.
Definition tf_cs : Z := 60.
Definition tf_eflags : Z := 64.
Definition tf_esp : Z := 68.
Definition tf_ss : Z := 72.
(** [struct context]: edi, esi, ebx, ebp, eip. *)
Definition sizeof_context : Z := 20.
Definition ctx_eip : Z := 16.

(** [struct mmap_area]. *)
Record mmap_area := MmapArea {
  m_f : Z; m_addr : Z; m_length : Z; m_offset : Z; m_prot : Z; m_flags : Z; m_p : Z; m_state : Z }.
Definition UNUSING : Z := 0.
Definition USING : Z := 1.
Definition zero_area : mmap_area := MmapArea NULL 0 0 0 0 0 NULL UNUSING.
#[export] Instance mmap_area_inhabited : Inhabited mmap_area := populate zero_area.

(** The file layer the process layer calls.  [fileread] gives the bytes it
    stores with its result; [fork] and [exec] take references and drop them. *)
Class FileLayer (F : Type) := {
  fl_locks :: HasLocks F;
  filedup : Z -> M F Z;
  fileclose : Z -> M F unit;
  fileread : Z -> Z -> M F (Z * list Z);
  f_readable : Z -> F -> Z;
  f_writable : Z -> F -> Z;
  f_set_off : Z -> Z -> M F unit;
  f_off : Z -> F -> Z;
  inode_dup : Z -> M F Z;
  inode_put : Z -> M F unit;
  fs_begin_op : M F unit;
  fs_end_op : M F unit;
  root_inode : M F Z;
  fs_init : M F unit }.

(** An argument of [cprintf]. *)
Inductive parg := PInt (n : Z) | PStr (l : list Z) | PLit (s : string).

Record kstate (F : Type) := Kstate {
  ks_proc : list proc;          (* ptable.proc *)
  ks_initproc : Z;
  ks_nextpid : Z;
  ks_cur : Z;                   (* c->proc *)
  ks_cr3 : Z;                   (* the page directory the CPU uses *)
  ks_first : bool;              (* forkret's static [first] *)
  ks_kst : kst;                 (* memory and the page allocator *)
  ks_fs : F;                    (* the file layer *)
  ks_maps : list mmap_area;     (* mtable.maps *)
  ks_ticks : Z;
  ks_out : list (string * list parg);   (* cprintf calls, newest first *)
  ks_held : list lock }.
Arguments Kstate {F}. Arguments ks_proc {F}. Arguments ks_initproc {F}. Arguments ks_nextpid {F}.
Arguments ks_cur {F}. Arguments ks_cr3 {F}. Arguments ks_first {F}. Arguments ks_kst {F}. Arguments ks_fs {F}.
Arguments ks_maps {F}. Arguments ks_ticks {F}. Arguments ks_out {F}. Arguments ks_held {F}.

Section state.
Context {F : Type}.
Implicit Types s : kstate F.

Definition set_procs (l : list proc) s : kstate F :=
  Kstate l (ks_initproc s) (ks_nextpid s) (ks_cur s) (ks_cr3 s) (ks_first s) (ks_kst s) (ks_fs s) (ks_maps s) (ks_ticks s) (ks_out s) (ks_held s).
Definition set_initproc (p : Z) s : kstate F :=
  Kstate (ks_proc s) p (ks_nextpid s) (ks_cur s) (ks_cr3 s) (ks_first s) (ks_kst s) (ks_fs s) (ks_maps s) (ks_ticks s) (ks_out s) (ks_held s).
Definition set_nextpid (n : Z) s : kstate F :=
  Kstate (ks_proc s) (ks_initproc s) n (ks_cur s) (ks_cr3 s) (ks_first s) (ks_kst s) (ks_fs s) (ks_maps s) (ks_ticks s) (ks_out s) (ks_held s).
Definition set_cur (p : Z) s : kstate F :=
  Kstate (ks_proc s) (ks_initproc s) (ks_nextpid s) p (ks_cr3 s) (ks_first s) (ks_kst s) (ks_fs s) (ks_maps s) (ks_ticks s) (ks_out s) (ks_held s).
Definition set_cr3 (p : Z) s : kstate F :=
  Kstate (ks_proc s) (ks_initproc s) (ks_nextpid s) (ks_cur s) p (ks_first s) (ks_kst s) (ks_fs s) (ks_maps s) (ks_ticks s) (ks_out s) (ks_held s).
Definition set_first (b : bool) s : kstate F :=
  Kstate (ks_proc s) (ks_initproc s) (ks_nextpid s) (ks_cur s) (ks_cr3 s) b (ks_kst s) (ks_fs s) (ks_maps s) (ks_ticks s) (ks_out s) (ks_held s).
Definition set_kst (k : kst) s : kstate F :=
  Kstate (ks_proc s) (ks_initproc s) (ks_nextpid s) (ks_cur s) (ks_cr3 s) (ks_first s) k (ks_fs s) (ks_maps s) (ks_ticks s) (ks_out s) (ks_held s).
Definition set_fs (f : F) s : kstate F :=
  Kstate (ks_proc s) (ks_initproc s) (ks_nextpid s) (ks_cur s) (ks_cr3 s) (ks_first s) (ks_kst s) f (ks_maps s) (ks_ticks s) (ks_out s) (ks_held s).
Definition set_maps (l : list mmap_area) s : kstate F :=
  Kstate (ks_proc s) (ks_initproc s) (ks_nextpid s) (ks_cur s) (ks_cr3 s) (ks_first s) (ks_kst s) (ks_fs s) l (ks_ticks s) (ks_out s) (ks_held s).
Definition set_ticks (t : Z) s : kstate F :=
  Kstate (ks_proc s) (ks_initproc s) (ks_nextpid s) (ks_cur s) (ks_cr3 s) (ks_first s) (ks_kst s) (ks_fs s) (ks_maps s) t (ks_out s) (ks_held s).
Definition set_out (o : list (string * list parg)) s : kstate F :=
  Kstate (ks_proc s) (ks_initproc s) (ks_nextpid s) (ks_cur s) (ks_cr3 s) (ks_first s) (ks_kst s) (ks_fs s) (ks_maps s) (ks_ticks s) o (ks_held s).
Definition set_held (L : list lock) s : kstate F :=
  Kstate (ks_proc s) (ks_initproc s) (ks_nextpid s) (ks_cur s) (ks_cr3 s) (ks_first s) (ks_kst s) (ks_fs s) (ks_maps s) (ks_ticks s) (ks_out s) L.

#[export, program] Instance kstate_locks : HasLocks (kstate F) := {| locks_of := ks_held; with_locks := set_held |}.
Next Obligation. done. Qed.
Next Obligation. done. Qed.
Next Obligation. by intros []. Qed.

(** Running the allocator and page-table code, and the file layer, on their
    parts of the state; the held locks are the CPU's.  The file layer has no view of
    the process table: the [wakeup] calls inside it (log.c, sleeplock.c, pipe.c) do not
    change a process's state here, and a [sleep] inside it ends the run as [Sleep]. *)
Definition on_k {A} (m : M kst A) : M (kstate F) A :=
  zoom (fun s => with_locks (ks_held s) (ks_kst s)) (fun k s => set_held (locks_of k) (set_kst k s)) m.
Definition on_f `{FileLayer F} {A} (m : M F A) : M (kstate F) A :=
  zoom (fun s => with_locks (ks_held s) (ks_fs s)) (fun f s => set_held (locks_of f) (set_fs f s)) m.

Definition cprintf (fmt : string) (args : list parg) : M (kstate F) unit :=
  modify (fun s => set_out ((fmt, args) :: ks_out s) s).

(** Entry [i] of the process table; [i] is never [NULL] where it is used. *)
Definition proc_at s (i : Z) : proc := ks_proc s !!! Z.to_nat i.
Definition upd_proc (i : Z) (f : proc -> proc) s : kstate F :=
  set_procs (alter f (Z.to_nat i) (ks_proc s)) s.
Definition pget (i : Z) : M (kstate F) proc :=
  if i =? NULL then undef "null process" else gets (fun s => proc_at s i).
Definition pset (i : Z) (f : proc -> proc) : M (kstate F) unit :=
  if i =? NULL then undef "null process" else modify (upd_proc i f).
Definition myproc : M (kstate F) Z := gets ks_cur.
Definition curproc : M (kstate F) proc := i ← myproc; pget i.

Definition area_at s (m : Z) : mmap_area := ks_maps s !!! Z.to_nat m.
Definition upd_area (m : Z) (f : mmap_area -> mmap_area) s : kstate F :=
  set_maps (alter f (Z.to_nat m) (ks_maps s)) s.
Definition aget (m : Z) : M (kstate F) mmap_area :=
  if m =? NULL then undef "null mmap_area" else gets (fun s => area_at s m).
Definition aset (m : Z) (f : mmap_area -> mmap_area) : M (kstate F) unit :=
  if m =? NULL then undef "null mmap_area" else modify (upd_area m f).
End state.

(** A file layer with nothing in it, to run the process table alone. *)
#[program] Definition no_files_locks : HasLocks (list lock) := {| locks_of L := L; with_locks L _ := L |}.
Next Obligation. done. Qed.
Next Obligation. done. Qed.
Next Obligation. done. Qed.
Definition no_files : FileLayer (list lock) := {|
  fl_locks := no_files_locks;
  filedup f := mret f; fileclose _ := mret tt; fileread _ _ := mret (0, []);
  f_readable _ _ := 0; f_writable _ _ := 0; f_set_off _ _ := mret tt; f_off _ _ := 0;
  inode_dup i := mret i; inode_put _ := mret tt; fs_begin_op := mret tt; fs_end_op := mret tt;
  root_inode := mret 0; fs_init := mret tt |}.
