(* ===== verification/Mmap.v ===== *)
(** * Memory mappings ([vm.c], from [mallock] to [map_fork])

    The table of mapped areas, [mmap] and [munmap], the page-fault handler that
    fills an area on demand, and the copy of the areas at [fork].  The code
    stores through the results of [mallock] and [kalloc] without testing them;
    such a store through a null pointer is [Undef] here. *)
From S2P Require Import Prelude Layout Memory Locks Kalloc Vm Fs ProcData.

Definition NMAPS : Z := 64.

(** The bytes of a list stored from an address on. *)
Definition store_bytes (a : Z) (l : list Z) (m : mem) : mem :=
  (foldl (fun am b => (am.1 + 1, wr8 am.1 b am.2)) (a, m) l).2.

Section mmap.
Context {F : Type} `{FileLayer F} (kend : Z).
Abbreviation K := (M (kstate F)).

Definition mallock : K Z :=
  acquire Lmtable ;;
  r ← for_ret (seqZ 0 NMAPS) (fun map =>
    m ← aget map;
    if m_state m =? 0 then release Lmtable ;; mret (Some map) else mret None);
  match r with
  | Some map => mret map
  | None => release Lmtable ;; mret NULL
  end.

Definition compare_prot (mmap : Z) : K bool :=
  m ← aget mmap;
  if m_f m =? NULL then undef "null file"
  else
    fs ← gets ks_fs;
    let file_flags := (if truth (f_readable (m_f m) fs) then 1 else 0)
                      ||| (if truth (f_writable (m_f m) fs) then 2 else 0) in
    mret (m_prot m <=? file_flags).

(** [page = kalloc(); memset(page, 0, PGSIZE)]. *)
Definition zeroed_page : K Z :=
  page ← on_k kalloc;
  if page =? 0 then undef "memset of a null page"
  else on_k (modify (upd_mem (memset page 0 PGSIZE))) ;; mret page.

(** [fileread(f, page, PGSIZE)]. *)
Definition read_page (f page : Z) : K unit :=
  if f =? NULL then undef "null file"
  else
    rb ← on_f (fileread f PGSIZE);
    on_k (modify (upd_mem (store_bytes page rb.2))).

(** [mmap->f->off = off]. *)
Definition set_offset (f off : Z) : K unit :=
  if f =? NULL then undef "null file" else on_f (f_set_off f (u32 off)).

Definition map_populate (mmap : Z) : K bool :=
  m ← aget mmap;
  let pte_w := if truth (m_prot m &&& PROT_WRITE) then PTE_W else 0 in
  for_each (seqZ 0 (m_length m `quot` PGSIZE)) (fun i =>
    page ← zeroed_page;
    m ← aget mmap;
    read_page (m_f m) page ;;
    set_offset (m_f m) (m_offset m) ;;
    p ← curproc;
    on_k (mappages (p_pgdir p) (u32 (m_addr m + PGSIZE * i)) PGSIZE (V2P page) (pte_w ||| PTE_U)) ;;
    mret tt) ;;
  mret true.

Definition map_populate_annonymous (mmap : Z) : K bool :=
  m ← aget mmap;
  let pte_w := if truth (m_prot m &&& PROT_WRITE) then PTE_W else 0 in
  for_each (seqZ 0 (m_length m `quot` PGSIZE)) (fun i =>
    page ← zeroed_page;
    m ← aget mmap;
    p ← curproc;
    on_k (mappages (p_pgdir p) (u32 (m_addr m + PGSIZE * i)) PGSIZE (V2P page) (pte_w ||| PTE_U)) ;;
    mret tt) ;;
  mret true.

(** The test of the fault handler: the area contains [addr] and is the caller's. *)
Definition area_covers (m : mmap_area) (addr me : Z) : bool :=
  (m_addr m <=? addr) && (u32 (m_addr m + m_length m) >? addr) && (m_p m =? me) && truth (m_state m).

Definition page_fault_handler (addr io : Z) : K Z :=
  let addr := PGROUNDDOWN addr in
  me ← myproc;
  acquire Lmtable ;;
  r ← for_ret (seqZ 0 NMAPS) (fun mmap =>
    m ← aget mmap;
    if area_covers m addr me then
      if m_prot m <? io then release Lmtable ;; mret (Some (-1))
      else
        let prot := if m_prot m >? 1 then 2 else 0 in
        if m_f m !=? NULL then
          page ← zeroed_page;
          release Lmtable ;;
          read_page (m_f m) page ;;
          m ← aget mmap;
          set_offset (m_f m) (m_offset m) ;;
          acquire Lmtable ;;
          p ← curproc;
          on_k (mappages (p_pgdir p) addr PGSIZE (V2P page) (prot ||| PTE_U)) ;;
          release Lmtable ;;
          mret (Some 1)
        else
          page ← zeroed_page;
          p ← curproc;
          on_k (mappages (p_pgdir p) addr PGSIZE (V2P page) (prot ||| PTE_U)) ;;
          release Lmtable ;;
          mret (Some 1)
    else mret None);
  match r with
  | Some v => mret v
  | None => release Lmtable ;; mret (-1)
  end.

(** The checks at the start of [mmap]. *)
Definition mmap_valid (addr length prot flags fd offset : Z) : bool :=
  (addr `mod` PGSIZE =? 0)
  && negb ((length <? 0) || (Z.rem length PGSIZE !=? 0))
  && negb ((prot !=? PROT_READ) && (prot !=? (PROT_READ ||| PROT_WRITE)))
  && (if truth (flags &&& MAP_ANONYMOUS) then negb ((fd !=? -1) || (offset !=? 0)) else negb (fd <? 0)).

(** The test of [mmap] against an area in use. *)
Definition area_taken (m : mmap_area) (a me : Z) : bool :=
  (m_addr m <=? a) && (u32 (m_addr m + m_length m) >? a) && (m_state m =? USING) && (m_p m =? me).

(** The file of [mmap->p->ofile[fd]], stored into the area with its offset. *)
Definition attach_file (mmap fd offset : Z) : K unit :=
  m ← aget mmap;
  p ← pget (m_p m);
  if (fd <? 0) || (fd >=? NOFILE) then undef "ofile"
  else
    let f := p_ofile p !!! Z.to_nat fd in
    aset mmap (fun m => MmapArea f (m_addr m) (m_length m) offset (m_prot m) (m_flags m) (m_p m) (m_state m)) ;;
    set_offset f offset.

Definition with_mstate (st : Z) (m : mmap_area) : mmap_area :=
  MmapArea (m_f m) (m_addr m) (m_length m) (m_offset m) (m_prot m) (m_flags m) (m_p m) st.

Definition mmap (addr length prot flags fd offset : Z) : K Z :=
  if negb (mmap_valid addr length prot flags fd offset) then mret 0
  else
    me ← myproc;
    acquire Lmtable ;;
    taken ← for_ret (seqZ 0 NMAPS) (fun k =>
      m ← aget k;
      if area_taken m (u32 (addr + MMAPBASE)) me then release Lmtable ;; mret (Some tt) else mret None);
    match taken with
    | Some _ => mret 0
    | None =>
        release Lmtable ;;
        mmap ← mallock;
        aset mmap (fun m => MmapArea NULL (u32 (addr + MMAPBASE)) length (m_offset m) prot flags me USING) ;;
        ok ←
          (if truth (flags &&& MAP_POPULATE) then
             if truth (flags &&& MAP_ANONYMOUS) then map_populate_annonymous mmap
             else
               attach_file mmap fd offset ;;
               c ← compare_prot mmap;
               if (c : bool) then map_populate mmap else mret false
           else attach_file mmap fd offset ;; compare_prot mmap);
        if (ok : bool) then m ← aget mmap; mret (m_addr m)
        else aset mmap (with_mstate UNUSING) ;; mret 0
    end.

(** The test of [munmap], with its [>=]. *)
Definition area_at_addr (m : mmap_area) (a me : Z) : bool :=
  (m_addr m <=? a) && (u32 (m_addr m + m_length m) >=? a) && (m_state m =? USING) && (m_p m =? me).

Definition unmap_page (m : mmap_area) (i : Z) : K unit :=
  p ← curproc;
  pte ← on_k (walkpgdir (p_pgdir p) (u32 (m_addr m + i * PGSIZE)) false);
  when (truth pte)
    (e ← on_k (load32 pte);
     when (truth (e &&& PTE_P))
       (on_k (modify (upd_mem (memset (P2V (PTE_ADDR e)) 1 PGSIZE))) ;;
        e ← on_k (load32 pte);
        on_k (kfree kend (P2V (PTE_ADDR e))) ;;
        on_k (store32 pte 0))).

Definition munmap (addr : Z) : K Z :=
  me ← myproc;
  acquire Lmtable ;;
  r ← for_ret (seqZ 0 NMAPS) (fun k =>
    m ← aget k;
    if area_at_addr m (u32 (addr + MMAPBASE)) me then
      for_each (seqZ 0 (m_length m `quot` PGSIZE)) (unmap_page m) ;;
      aset k (fun _ => zero_area) ;;
      release Lmtable ;;
      mret (Some 1)
    else mret None);
  match r with
  | Some v => mret v
  | None => release Lmtable ;; mret (-1)
  end.

(** The copy of one page of an area into the child's address space. *)
Definition fork_page (map temp np : Z) (j : Z) : K unit :=
  p ← curproc;
  m ← aget map;
  pte ← on_k (walkpgdir (p_pgdir p) (u32 (m_addr m + PGSIZE * j)) true);
  when (truth pte)
    (e ← on_k (load32 pte);
     when (truth (e &&& PTE_P))
       (page ← zeroed_page;
        t ← aget temp;
        let pte_w := if m_prot t >=? 2 then 2 else 0 in
        when (m_f m !=? NULL)
          (read_page (m_f m) page ;;
           fs ← gets ks_fs;
           set_offset (m_f m) (f_off (m_f m) fs + PGSIZE)) ;;
        c ← pget np;
        on_k (mappages (p_pgdir c) (u32 (m_addr t + PGSIZE * j)) PGSIZE (V2P page) (pte_w ||| PTE_U)) ;;
        mret tt)).

Definition map_fork (np : Z) : K Z :=
  me ← myproc;
  acquire Lmtable ;;
  for_each (seqZ 0 NMAPS) (fun map =>
    m ← aget map;
    when ((m_state m =? USING) && (m_p m =? me))
      (temp ← mallock;
       m ← aget map;
       aset temp (fun _ => MmapArea (m_f m) (m_addr m) (m_length m) (m_offset m) (m_prot m) (m_flags m) np USING) ;;
       t ← aget temp;
       when (m_f m !=? NULL) (set_offset (m_f t) (m_offset t)) ;;
       for_each (seqZ 0 (m_length m `quot` PGSIZE)) (fork_page map temp np))) ;;
  release Lmtable ;;
  mret 1.
End mmap.

(** ** Bytes stored from an address *)
Lemma store_bytes_cons a b l m : store_bytes a (b :: l) m = store_bytes (a + 1) l (wr8 a b m).
Proof. done. Qed.

Lemma rd8_store_bytes a l m x :
  rd8 (store_bytes a l m) x = if decide (a <= x < a + Z.of_nat (length l)) then u8 (l !!! Z.to_nat (x - a)) else rd8 m x.
Proof.
  revert a m. induction l as [|b l IH]; intros a m.
  - split_decide as [Hx|_]; [cbn in Hx; lia|done].
  - rewrite store_bytes_cons, IH. cbn [length]. rewrite rd8_wr8. destruct (decide (a = x)) as [->|Hne].
    + rewrite decide_False by lia. rewrite decide_True by lia. rewrite Z.sub_diag. done.
    + split_decide as [Hx|Hx]; [rewrite decide_True by lia|rewrite decide_False by lia; done].
      replace (Z.to_nat (x - a)) with (S (Z.to_nat (x - (a + 1)))) by lia. done.
Qed.
