(* ===== verification/Proc.v ===== *)
(** * Processes and the scheduler ([proc.c], [switchuvm] of [vm.c])

    The process table and its operations, with the virtual-runtime scheduler
    of this kernel.  A function that gives up the CPU is split at [sched]: the
    part before it ([sleep_enter], [yield_enter], [exit], one pass of [wait]) and
    the part after the process is scheduled again ([sleep_leave],
    [yield_leave]); [sched] itself makes its checks and [ptable.lock] stays held
    across the switch, as in the code.  Channel and pointer arguments are those
    of [ProcData.v]; [forkret], [trapret] and the initial user program are
    addresses fixed by the linker. *)
From S2P Require Import Prelude Layout Memory Locks Kalloc Vm Fs ProcData Mmap.

(** The table of load weights, by nice value. *)
Definition weights : list Z :=
  [ 88761; 71755; 56483; 46273; 36291;
    29154; 23254; 18705; 14949; 11916;
    9548; 7620; 6100; 4904; 3906;
    3121; 2501; 1991; 1586; 1277;
    1024; 820; 655; 526; 423;
    335; 272; 215; 172; 137;
    110; 87; 70; 56; 45;
    36; 29; 23; 18; 15 ].
Definition weight_of (nice : Z) : Z := weights !!! Z.to_nat nice.

(** [compare_vruntime]: whether the first process has the larger virtual runtime. *)
Definition compare_vruntime (p1 p2 : proc) : bool :=
  if p_vhigh p1 >? p_vhigh p2 then true
  else if p_vhigh p1 <? p_vhigh p2 then false
  else if p_vlow p1 >? p_vlow p2 then true
  else if p_vlow p1 <? p_vlow p2 then false
  else false.

(** The inner loop of [scheduler]: the total weight and the least process. *)
Definition pick_step (tab : list proc) (acc : Z * Z) (t : Z) : Z * Z :=
  let '(total, min_p) := acc in
  let temp_p := tab !!! Z.to_nat t in
  if decide (p_state temp_p = RUNNABLE) then
    (u32 (total + p_weight temp_p),
     if compare_vruntime (tab !!! Z.to_nat min_p) temp_p then t else min_p)
  else acc.
Definition pick (tab : list proc) (total p : Z) : Z * Z :=
  foldl (pick_step tab) (total, p) (seqZ 0 NPROC).

(** The scan of [wakeup1] for the least virtual runtime of a runnable process. *)
Definition min_vruntime (tab : list proc) : option (Z * Z) :=
  foldl (fun acc p =>
    if decide (p_state p = RUNNABLE) then
      match acc with
      | None => Some (p_vhigh p, p_vlow p)
      | Some (h, l) =>
          if h >? p_vhigh p then Some (p_vhigh p, p_vlow p)
          else if (h =? p_vhigh p) && (l >? p_vlow p) then Some (h, p_vlow p)
          else Some (h, l)
      end
    else acc) None tab.

(** The virtual runtime given to a woken process. *)
Definition woken_vruntime (m : option (Z * Z)) (p : proc) : Z * Z :=
  let '(h, l) :=
    match m with
    | Some (h, l) => (h, u32 (l - u32 (1024000 `quot` p_weight p)))
    | None => (0, 0)
    end in
  if l <? 0 then
    if h >? 0 then (u32 (h - 1), u32 (l + 1000000000)) else (h, 0)
  else (h, l).

Definition wake_proc (chan : wchan) (m : option (Z * Z)) (p : proc) : proc :=
  if decide (p_state p = SLEEPING /\ p_chan p = chan) then
    let '(h, l) := woken_vruntime m p in with_vruntime h l (with_state RUNNABLE p)
  else p.

Definition wakeup1_table (chan : wchan) (tab : list proc) : list proc :=
  wake_proc chan (min_vruntime tab) <$> tab.

Section proc.
Context {F : Type} `{FileLayer F} (kend kdata : Z).
Variables forkret_addr trapret_addr initcode_start initcode_size kpgdir : Z.
Abbreviation K := (M (kstate F)).

(** [for(p = ptable.proc; p < &ptable.proc[NPROC]; p++)] with a return. *)
Definition each_proc {A} (body : Z -> proc -> K (option A)) : K (option A) :=
  for_ret (seqZ 0 NPROC) (fun i => p ← pget i; body i p).

Definition switchuvm (i : Z) : K unit :=
  if i =? NULL then panic "switchuvm: no process"
  else
    p ← pget i;
    if p_kstack p =? 0 then panic "switchuvm: no kstack"
    else if p_pgdir p =? 0 then panic "switchuvm: no pgdir"
    else modify (set_cr3 (V2P (p_pgdir p))).
Definition switchkvm : K unit := modify (set_cr3 (V2P kpgdir)).

Definition allocproc : K Z :=
  acquire Lptable ;;
  r ← each_proc (fun i p => if decide (p_state p = UNUSED) then mret (Some i) else mret None);
  match r with
  | None => release Lptable ;; mret NULL
  | Some i =>
      pset i (with_state EMBRYO) ;;
      pid ← gets ks_nextpid;
      pset i (with_pid pid) ;;
      modify (set_nextpid (i32 (pid + 1))) ;;
      pset i (with_prio 20 (weight_of 20)) ;;
      pset i (with_vruntime 0 0) ;;
      pset i (with_runtime 0 0) ;;
      pset i (with_slice 0) ;;
      release Lptable ;;
      kstack ← on_k kalloc;
      pset i (with_kstack kstack) ;;
      if kstack =? 0 then pset i (with_state UNUSED) ;; mret NULL
      else
        let tf := kstack + KSTACKSIZE - sizeof_trapframe in
        let ctx := tf - 4 - sizeof_context in
        on_k (store32 (tf - 4) trapret_addr) ;;
        pset i (with_frames tf ctx) ;;
        on_k (modify (upd_mem (memset ctx 0 sizeof_context))) ;;
        on_k (store32 (ctx + ctx_eip) forkret_addr) ;;
        mret i
  end.

(** [p->tf->field = v] for a 32-bit field, and for a 16-bit segment register. *)
Definition tf_store (i off v : Z) : K unit :=
  p ← pget i; on_k (store32 (p_tf p + off) v).
Definition tf_store16 (i off v : Z) : K unit :=
  p ← pget i; on_k (modify (upd_mem (fun m => wr8 (p_tf p + off + 1) (v ≫ 8) (wr8 (p_tf p + off) v m)))).

Definition SEG_UCODE : Z := 3.
Definition SEG_UDATA : Z := 4.
Definition DPL_USER : Z := 3.

Definition userinit : K unit :=
  i ← allocproc;
  modify (set_initproc i) ;;
  pgdir ← on_k (setupkvm kend kdata);
  p ← pget i;
  pset i (with_mem (p_sz p) pgdir) ;;
  if pgdir =? 0 then panic "userinit: out of memory?"
  else
    on_k (inituvm pgdir initcode_start initcode_size) ;;
    pset i (with_mem PGSIZE pgdir) ;;
    p ← pget i;
    on_k (modify (upd_mem (memset (p_tf p) 0 sizeof_trapframe))) ;;
    tf_store16 i tf_cs ((SEG_UCODE ≪ 3) ||| DPL_USER) ;;
    tf_store16 i tf_ds ((SEG_UDATA ≪ 3) ||| DPL_USER) ;;
    tf_store16 i tf_es ((SEG_UDATA ≪ 3) ||| DPL_USER) ;;
    tf_store16 i tf_ss ((SEG_UDATA ≪ 3) ||| DPL_USER) ;;
    tf_store i tf_eflags FL_IF ;;
    tf_store i tf_esp PGSIZE ;;
    tf_store i tf_eip 0 ;;
    pset i (with_name [105; 110; 105; 116; 99; 111; 100; 101]) ;;
    cwd ← on_f root_inode;
    pset i (with_cwd cwd) ;;
    acquire Lptable ;;
    pset i (with_state RUNNABLE) ;;
    release Lptable.

Definition growproc (n : Z) : K Z :=
  me ← myproc;
  p ← pget me;
  let sz := p_sz p in
  r ← (if n >? 0 then
         sz' ← on_k (allocuvm kend (p_pgdir p) sz (u32 (sz + n)));
         mret (if sz' =? 0 then None else Some sz')
       else if n <? 0 then
         sz' ← on_k (deallocuvm kend (p_pgdir p) sz (u32 (sz + n)));
         mret (if sz' =? 0 then None else Some sz')
       else mret (Some sz));
  match r with
  | None => mret (-1)
  | Some sz =>
      pset me (fun p => with_mem sz (p_pgdir p) p) ;;
      switchuvm me ;;
      mret 0
  end.

Definition fork : K Z :=
  me ← myproc;
  np ← allocproc;
  if np =? NULL then mret (-1)
  else
    p ← pget me;
    pgdir ← on_k (copyuvm kend kdata (p_pgdir p) (p_sz p));
    pset np (fun c => with_mem (p_sz c) pgdir c) ;;
    if pgdir =? 0 then
      c ← pget np;
      on_k (kfree kend (p_kstack c)) ;;
      pset np (with_kstack 0) ;;
      pset np (with_state UNUSED) ;;
      mret (-1)
    else
      pset np (with_mem (p_sz p) pgdir) ;;
      pset np (with_parent me) ;;
      c ← pget np;
      on_k (modify (upd_mem (memmove (p_tf c) (p_tf p) sizeof_trapframe))) ;;
      pset np (with_vruntime (p_vhigh p) (p_vlow p)) ;;
      pset np (with_runtime 0 0) ;;
      pset np (with_prio (p_nice p) (p_weight p)) ;;
      tf_store np tf_eax 0 ;;
      for_each (seqZ 0 NOFILE) (fun i =>
        p ← pget me;
        let f := p_ofile p !!! Z.to_nat i in
        when (f !=? NULL) (f' ← on_f (filedup f); pset np (with_ofile i f'))) ;;
      cwd ← on_f (inode_dup (p_cwd p));
      pset np (with_cwd cwd) ;;
      pset np (with_name (p_name p)) ;;
      c ← pget np;
      let pid := p_pid c in
      acquire Lptable ;;
      pset np (with_state RUNNABLE) ;;
      release Lptable ;;
      map_fork np ;;
      mret pid.

(** ** Giving up the CPU

    [sched]: while a spin lock is held interrupts are off ([Spinlock.v]), so its
    last test cannot fail once the one on the number of locks has passed. *)
Definition sched : K unit :=
  me ← myproc;
  h ← holding Lptable;
  if negb h then panic "sched ptable.lock"
  else
    L ← gets ks_held;
    if negb (Nat.eqb (length L) 1) then panic "sched locks"
    else
      p ← pget me;
      if decide (p_state p = RUNNING) then panic "sched running"
      else mret tt.

Definition wakeup1 (chan : wchan) : K unit :=
  modify (fun s => set_procs (wakeup1_table chan (ks_proc s)) s).
Definition wakeup (chan : wchan) : K unit :=
  acquire Lptable ;; wakeup1 chan ;; release Lptable.

Definition yield_enter : K unit :=
  acquire Lptable ;;
  me ← myproc;
  pset me (with_state RUNNABLE) ;;
  sched.
Definition yield_leave : K unit := release Lptable.

(** [lk] is the caller's lock, [None] the null pointer. *)
Definition sleep_enter (chan : wchan) (lk : option lock) : K unit :=
  me ← myproc;
  if me =? NULL then panic "sleep"
  else match lk with
  | None => panic "sleep without lk"
  | Some lk =>
      when (negb (bool_decide (lk = Lptable))) (acquire Lptable ;; release lk) ;;
      pset me (with_chan chan) ;;
      pset me (with_state SLEEPING) ;;
      sched
  end.
Definition sleep_leave (lk : lock) : K unit :=
  me ← myproc;
  pset me (with_chan Cnone) ;;
  when (negb (bool_decide (lk = Lptable))) (release Lptable ;; acquire lk).

Definition forkret : K unit :=
  release Lptable ;;
  first ← gets ks_first;
  when first (modify (set_first false) ;; on_f fs_init).

(** The passage of a process from [scheduler] to its own code: from here the
    process runs until it calls [sched]. *)
Definition dispatch (p0 total : Z) : K Z :=
  tab ← gets ks_proc;
  let '(total, p) := pick tab total p0 in
  modify (set_cur p) ;;
  pset p (fun q => with_prio (p_nice q) (weight_of (p_nice q)) q) ;;
  switchuvm p ;;
  pset p (with_state RUNNING) ;;
  q ← pget p;
  if total =? 0 then undef "division by zero"
  else
    pset p (with_slice (u32 (10000 * u32 (u32 (p_weight q) `div` total)))) ;;
    mret p.
Definition dispatch_return : K unit := switchkvm ;; modify (set_cur NULL).

(** The scan of [scheduler] from entry [p] on, up to the next dispatch; [None]
    at the end of the table. *)
Definition scheduler_scan (p : Z) : K (option Z) :=
  for_ret (seqZ p (NPROC - p)) (fun i =>
    q ← pget i;
    if decide (p_state q = RUNNABLE) then c ← dispatch i 0; mret (Some c) else mret None).

(** ** Exit and wait *)
(** The part of [exit] under [ptable.lock], from the wake-up of the parent on. *)
Definition reparent (me initproc : Z) (i : Z) : K unit :=
  p ← pget i;
  when (p_parent p =? me)
    (pset i (with_parent initproc) ;;
     p ← pget i;
     when (bool_decide (p_state p = ZOMBIE)) (wakeup1 (Cproc initproc))).
Definition exit_locked (me initproc : Z) : K unit :=
  p ← pget me;
  wakeup1 (Cproc (p_parent p)) ;;
  for_each (seqZ 0 NPROC) (reparent me initproc) ;;
  pset me (with_state ZOMBIE) ;;
  sched.

Definition exit : K unit :=
  me ← myproc;
  initproc ← gets ks_initproc;
  if me =? initproc then panic "init exiting"
  else
    for_each (seqZ 0 NOFILE) (fun fd =>
      p ← pget me;
      let f := p_ofile p !!! Z.to_nat fd in
      when (f !=? NULL) (on_f (fileclose f) ;; pset me (with_ofile fd NULL))) ;;
    on_f fs_begin_op ;;
    p ← pget me;
    on_f (inode_put (p_cwd p)) ;;
    on_f fs_end_op ;;
    pset me (with_cwd NULL) ;;
    acquire Lptable ;;
    exit_locked me initproc.

Inductive wres := WDone (r : Z) | WSleep.

(** The scan of [wait] over the table: a reaped child, or whether there are any. *)
Definition wait_scan (me : Z) : K (option Z * bool) :=
  r ← for_ret (seqZ 0 NPROC) (fun i =>
    p ← pget i;
    if p_parent p !=? me then mret None
    else if decide (p_state p = ZOMBIE) then
      on_k (kfree kend (p_kstack p)) ;;
      pset i (with_kstack 0) ;;
      on_k (freevm kend (p_pgdir p)) ;;
      pset i (with_pid 0) ;;
      pset i (with_parent NULL) ;;
      pset i (with_name []) ;;
      pset i (with_killed 0) ;;
      pset i (with_state UNUSED) ;;
      mret (Some (p_pid p))
    else mret None);
  tab ← gets ks_proc;
  mret (r, existsb (fun p => p_parent p =? me) tab).

(** One pass of the loop of [wait], entered with [ptable.lock] held. *)
Definition wait_pass : K wres :=
  me ← myproc;
  '(r, havekids) ← wait_scan me;
  match r with
  | Some pid => release Lptable ;; mret (WDone pid)
  | None =>
      p ← pget me;
      if negb havekids || truth (p_killed p) then release Lptable ;; mret (WDone (-1))
      else sleep_enter (Cproc me) (Some Lptable) ;; mret WSleep
  end.
Definition wait : K wres := acquire Lptable ;; wait_pass.
Definition wait_resume : K wres := sleep_leave Lptable ;; wait_pass.

(** ** Operations on a process by its number *)
Definition find_proc {A} (pid : Z) (found : Z -> K A) (none : A) : K A :=
  acquire Lptable ;;
  r ← for_ret (seqZ 0 NPROC) (fun i =>
    p ← pget i;
    if p_pid p =? pid then v ← found i; release Lptable ;; mret (Some v) else mret None);
  match r with
  | Some v => mret v
  | None => release Lptable ;; mret none
  end.

Definition kill (pid : Z) : K Z :=
  find_proc pid (fun i =>
    pset i (with_killed 1) ;;
    p ← pget i;
    when (bool_decide (p_state p = SLEEPING)) (pset i (with_state RUNNABLE)) ;;
    mret 0) (-1).

Definition getpname (pid : Z) : K Z :=
  find_proc pid (fun i => p ← pget i; cprintf "%s\n" [PStr (p_name p)] ;; mret 0) (-1).

Definition getnice (pid : Z) : K Z :=
  if pid <=? 0 then mret (-1)
  else find_proc pid (fun i => p ← pget i; mret (p_nice p)) (-1).

Definition setnice (pid value : Z) : K Z :=
  if (value <? 0) || (value >? 39) || (pid <=? 0) then mret (-1)
  else find_proc pid (fun i => pset i (with_prio value (weight_of value)) ;; mret 0) (-1).

(** ** Listings *)
Definition STATE_NAME (st : procstate) : string :=
  match st with
  | UNUSED => "UNUSED" | EMBRYO => "EMBRYO" | SLEEPING => "SLEEPING"
  | RUNNABLE => "RUNNABLE" | RUNNING => "RUNNING" | ZOMBIE => "ZOMBIE"
  end.

(** The digits of an [int]; at most ten divisions reach zero. *)
Fixpoint digit_count (fuel : nat) (num count : Z) : Z :=
  match fuel with
  | O => count
  | Datatypes.S n => if num =? 0 then count else digit_count n (num `quot` 10) (count + 1)
  end.
Definition get_digit_count (num : Z) : Z := digit_count 11 num 0.

(** [while(zero_count--) cprintf("0")]: a negative count runs around the
    integers. *)
Definition pad_zeroes (zero_count : Z) : K unit :=
  for_each (seqZ 0 (u32 zero_count)) (fun _ => cprintf "0" []).

Definition print_vruntime (p : proc) : K unit :=
  if truth (p_vhigh p) then
    cprintf "%d" [PInt (i32 (p_vhigh p))] ;;
    pad_zeroes (9 - get_digit_count (i32 (p_vlow p))) ;;
    cprintf "%d\n" [PInt (i32 (p_vlow p))]
  else cprintf "%20d\n" [PInt (i32 (p_vlow p))].

Definition ps_header : K unit :=
  ticks ← gets ks_ticks;
  cprintf "%20s%20s%20s%20s%20s%20s%20s%5s%d"
    [PLit "name"; PLit "pid"; PLit "state"; PLit "priority"; PLit "runtime/weight"; PLit "runtime";
     PLit "vruntime"; PLit "tick"; PInt (i32 ticks)] ;;
  cprintf "000\n" [].

Definition ps_row (i : Z) : K unit :=
  p ← pget i;
  if p_weight p =? 0 then undef "division by zero"
  else
    cprintf "%20s%20d%20s%20d%20d%20d"
      [PStr (p_name p); PInt (p_pid p); PLit (STATE_NAME (p_state p)); PInt (p_nice p);
       PInt (i32 (p_arun p `div` u32 (p_weight p))); PInt (i32 (p_arun p))] ;;
    print_vruntime p.

Definition ps (pid : Z) : K unit :=
  if pid <? 0 then mret tt
  else
    acquire Lptable ;;
    if truth pid then
      r ← for_ret (seqZ 0 NPROC) (fun i =>
        p ← pget i;
        if (p_pid p =? pid) && negb (bool_decide (p_state p = UNUSED))
        then ps_header ;; ps_row i ;; release Lptable ;; mret (Some tt) else mret None);
      match r with Some _ => mret tt | None => release Lptable end
    else
      tab ← gets ks_proc;
      let temp := filter (fun i => p_state (tab !!! Z.to_nat i) <> UNUSED) (seqZ 0 NPROC) in
      when (negb (Nat.eqb (length temp) 0)) ps_header ;;
      for_each temp ps_row ;;
      release Lptable.
End proc.
