(* ===== verification/ProcSched.v ===== *)
(** * The scheduler and wake-ups ([proc.c], theorems)

    The process dispatched is a runnable one of least virtual runtime; the
    time slice and the virtual runtime of a woken process are what the integer
    arithmetic of the code makes of them. *)
From S2P Require Import Prelude Layout Memory Locks Kalloc Vm Fs ProcData Mmap Proc.

(** Virtual runtimes are ordered as pairs. *)
Definition vle (p q : proc) : Prop :=
  p_vhigh p < p_vhigh q \/ (p_vhigh p = p_vhigh q /\ p_vlow p <= p_vlow q).

Lemma compare_vle p q : compare_vruntime p q = false <-> vle p q.
Proof.
  unfold compare_vruntime, vle. rewrite !Z.gtb_ltb.
  destruct (p_vhigh q <? p_vhigh p) eqn:E1, (p_vhigh p <? p_vhigh q) eqn:E2,
    (p_vlow q <? p_vlow p) eqn:E3, (p_vlow p <? p_vlow q) eqn:E4; split; try done; lia.
Qed.

Lemma vle_refl p : vle p p.
Proof. unfold vle. lia. Qed.
Lemma vle_trans p q r : vle p q -> vle q r -> vle p r.
Proof. unfold vle. lia. Qed.
Lemma vle_total p q : compare_vruntime p q = true -> vle q p.
Proof.
  intros Hc. destruct (compare_vruntime q p) eqn:E; [|by apply compare_vle].
  exfalso. revert Hc E. unfold compare_vruntime. rewrite !Z.gtb_ltb.
  destruct (p_vhigh q <? p_vhigh p) eqn:E1, (p_vhigh p <? p_vhigh q) eqn:E2,
    (p_vlow q <? p_vlow p) eqn:E3, (p_vlow p <? p_vlow q) eqn:E4; try done; lia.
Qed.

Definition runnable (tab : list proc) (i : Z) : Prop := p_state (tab !!! Z.to_nat i) = RUNNABLE.
#[export] Instance runnable_dec tab i : Decision (runnable tab i).
Proof. unfold runnable. apply _. Defined.

(** The total weight of the runnable processes among [l]. *)
Definition run_weight (tab : list proc) (l : list Z) : Z :=
  foldr (fun i w => (if decide (runnable tab i) then p_weight (tab !!! Z.to_nat i) else 0) + w) 0 l.

Lemma pick_spec_from tab l total p :
  runnable tab p ->
  let '(t, m) := foldl (pick_step tab) (total, p) l in
  u32 t = u32 (total + run_weight tab l) /\ runnable tab m /\ (m = p \/ m ∈ l)
  /\ vle (tab !!! Z.to_nat m) (tab !!! Z.to_nat p)
  /\ forall i, i ∈ l -> runnable tab i -> vle (tab !!! Z.to_nat m) (tab !!! Z.to_nat i).
Proof.
  revert total p. induction l as [|i l IH]; intros total p Hp; cbn [foldl run_weight foldr].
  - rewrite Z.add_0_r. split_and!; [done|done|by left|apply vle_refl|set_solver].
  - unfold pick_step at 2. unfold runnable in *. destruct (decide (p_state (tab !!! Z.to_nat i) = RUNNABLE)) as [Hi|Hi].
    + set (q := if compare_vruntime _ _ then i else p).
      assert (Hq : p_state (tab !!! Z.to_nat q) = RUNNABLE) by (unfold q; by destruct (compare_vruntime _ _)).
      assert (Hqp : vle (tab !!! Z.to_nat q) (tab !!! Z.to_nat p) /\ vle (tab !!! Z.to_nat q) (tab !!! Z.to_nat i)).
      { unfold q. destruct (compare_vruntime _ _) eqn:E.
        - split; [by apply vle_total|apply vle_refl].
        - split; [apply vle_refl|by apply compare_vle]. }
      destruct Hqp as [Hqp Hqi].
      specialize (IH (u32 (total + p_weight (tab !!! Z.to_nat i))) q Hq).
      destruct (foldl _ _ _) as [t m]. destruct IH as (I1 & I2 & I3 & I4 & I5). split_and!.
      * rewrite I1, u32_add_l. f_equal. unfold run_weight, runnable. lia.
      * done.
      * destruct I3 as [->|I3]; [|right; by right]. unfold q. destruct (compare_vruntime _ _); [right; by left|by left].
      * by eapply vle_trans.
      * intros j [->|Hj]%elem_of_cons Hr; [by eapply vle_trans|by apply I5].
    + specialize (IH total p Hp). destruct (foldl _ _ _) as [t m]. destruct IH as (I1 & I2 & I3 & I4 & I5). split_and!.
      * rewrite I1. f_equal.
      * done.
      * destruct I3 as [->|I3]; [by left|right; by right].
      * done.
      * intros j [->|Hj]%elem_of_cons Hr; [done|by apply I5].
Qed.

Lemma weight_range n : 0 <= n <= 39 -> 15 <= weight_of n <= 88761.
Proof.
  intros Hn. assert (Hf : Forall (fun w => 15 <= w <= 88761) weights) by (repeat constructor; lia).
  unfold weight_of. eapply (Forall_lookup_1 (fun w => 15 <= w <= 88761)); [exact Hf|].
  apply list_lookup_lookup_total_lt. change (length weights) with 40%nat. lia.
Qed.

(** A process the scheduler can run: a nice value, the weight of it, and the
    memory [switchuvm] asks for. *)
Record can_run (p : proc) : Prop := CanRun {
  cr_nice : 0 <= p_nice p <= 39;
  cr_weight : p_weight p = weight_of (p_nice p);
  cr_kstack : p_kstack p <> 0;
  cr_pgdir : p_pgdir p <> 0 }.

Definition table_ok (tab : list proc) : Prop :=
  length tab = Z.to_nat NPROC /\ forall i, 0 <= i < NPROC -> runnable tab i -> can_run (tab !!! Z.to_nat i).

Lemma run_weight_bounds tab l :
  (forall i, i ∈ l -> runnable tab i -> can_run (tab !!! Z.to_nat i)) ->
  0 <= run_weight tab l <= 88761 * Z.of_nat (length l).
Proof.
  induction l as [|i l IH]; intros Hl; [done|]. cbn [run_weight foldr length].
  assert (Hl' : forall j, j ∈ l -> runnable tab j -> can_run (tab !!! Z.to_nat j)) by (intros j Hj; apply Hl; by right).
  specialize (IH Hl'). unfold run_weight in IH. split_decide as [Hr|Hr]; [|lia].
  destruct (Hl i ltac:(by left) Hr) as [H1 H2 _ _]. pose proof (weight_range _ H1). lia.
Qed.

Lemma run_weight_in tab l i :
  (forall i, i ∈ l -> runnable tab i -> can_run (tab !!! Z.to_nat i)) -> i ∈ l -> runnable tab i ->
  p_weight (tab !!! Z.to_nat i) <= run_weight tab l.
Proof.
  intros Hl Hi Hr. induction l as [|j l IH]; [by apply elem_of_nil in Hi|]. cbn [run_weight foldr].
  assert (Hl' : forall j, j ∈ l -> runnable tab j -> can_run (tab !!! Z.to_nat j)) by (intros j' Hj; apply Hl; by right).
  pose proof (run_weight_bounds tab l Hl') as Hb. apply elem_of_cons in Hi as [->|Hi].
  - rewrite decide_True by done. unfold run_weight in Hb. lia.
  - specialize (IH Hl' Hi). unfold run_weight in IH. split_decide as [Hj|Hj]; [|lia].
    destruct (Hl j ltac:(by left) Hj) as [H1 H2 _ _]. pose proof (weight_range _ H1). lia.
Qed.

(** Two different runnable processes weigh more than either. *)
Lemma run_weight_two tab l i j :
  (forall i, i ∈ l -> runnable tab i -> can_run (tab !!! Z.to_nat i)) -> NoDup l ->
  i ∈ l -> j ∈ l -> i <> j -> runnable tab i -> runnable tab j ->
  p_weight (tab !!! Z.to_nat i) < run_weight tab l.
Proof.
  intros Hl Hnd. revert i j. induction Hnd as [|k l Hk Hnd IH]; intros i j Hi Hj Hne Hri Hrj; [by apply elem_of_nil in Hi|].
  assert (Hl' : forall j, j ∈ l -> runnable tab j -> can_run (tab !!! Z.to_nat j)) by (intros j' Hj'; apply Hl; by right).
  cbn [run_weight foldr]. fold (run_weight tab l).
  assert (Hw : forall x, x ∈ k :: l -> runnable tab x -> 15 <= p_weight (tab !!! Z.to_nat x)).
  { intros x Hx Hr. destruct (Hl x Hx Hr) as [H1 H2 _ _]. pose proof (weight_range _ H1). lia. }
  pose proof (Hw i Hi Hri). pose proof (Hw j Hj Hrj).
  apply elem_of_cons in Hi as [->|Hi], Hj as [->|Hj]; [done|..].
  - rewrite decide_True by done. pose proof (run_weight_in tab l j Hl' Hj Hrj). lia.
  - rewrite decide_True by done. pose proof (run_weight_in tab l i Hl' Hi Hri). lia.
  - specialize (IH Hl' i j Hi Hj Hne Hri Hrj). split_decide as [Hr|Hr]; [|lia].
    pose proof (Hw k ltac:(by left) Hr). lia.
Qed.

(** The weight of a table with a single runnable process. *)
Lemma run_weight_one tab l i :
  NoDup l -> i ∈ l -> runnable tab i -> (forall j, j ∈ l -> runnable tab j -> j = i) ->
  run_weight tab l = p_weight (tab !!! Z.to_nat i).
Proof.
  induction 1 as [|k l Hk Hnd IH]; intros Hi Hri Ho; [by apply elem_of_nil in Hi|].
  cbn [run_weight foldr]. fold (run_weight tab l).
  assert (Hz : k = i -> run_weight tab l = 0).
  { intros ->. clear IH Hi. assert (Hn : forall j, j ∈ l -> ~ runnable tab j).
    { intros j Hj Hr. assert (j = i) as -> by (apply Ho; [by right|done]). done. }
    clear Ho Hk Hnd. induction l as [|j l IH]; [done|]. cbn [run_weight foldr]. fold (run_weight tab l).
    rewrite decide_False by (apply Hn; by left). rewrite IH; [done|]. intros x Hx. apply Hn. by right. }
  apply elem_of_cons in Hi as [->|Hi].
  - rewrite decide_True by done. rewrite Hz by done. lia.
  - rewrite decide_False. { rewrite IH; [done|done|done|]. intros j Hj. apply Ho. by right. }
    intros Hr. assert (k = i) as -> by (apply Ho; [by left|done]). done.
Qed.

Section dispatch.
Context {F : Type}.
Implicit Types s : kstate F.

Definition others_same (i : Z) s s' : Prop :=
  length (ks_proc s') = length (ks_proc s) /\ forall k, k <> Z.to_nat i -> ks_proc s' !! k = ks_proc s !! k.

Lemma pget_eq i s : i <> NULL -> pget i s = Done (proc_at s i) s.
Proof. intros Hi. unfold pget. by rewrite (proj2 (Z.eqb_neq _ _) Hi). Qed.
Lemma pset_eq i f s : i <> NULL -> pset i f s = Done tt (upd_proc i f s).
Proof. intros Hi. unfold pset. by rewrite (proj2 (Z.eqb_neq _ _) Hi). Qed.

Lemma proc_at_upd i f s : (Z.to_nat i < length (ks_proc s))%nat -> proc_at (upd_proc i f s) i = f (proc_at s i).
Proof.
  intros Hl. unfold proc_at, upd_proc; cbn. rewrite !list_lookup_total_alt, list_lookup_alter_eq.
  destruct (ks_proc s !! Z.to_nat i) eqn:E; [done|]. apply lookup_ge_None in E. lia.
Qed.
Lemma upd_others i f s : others_same i s (upd_proc i f s).
Proof.
  split; cbn; [apply length_alter|]. intros k Hk. by rewrite list_lookup_alter_ne by congruence.
Qed.
Lemma others_trans i s1 s2 s3 : others_same i s1 s2 -> others_same i s2 s3 -> others_same i s1 s3.
Proof. intros [L1 O1] [L2 O2]. split; [congruence|]. intros k Hk. by rewrite O2, O1. Qed.

(** The whole of [dispatch]. *)
Lemma dispatch_eq s p :
  table_ok (ks_proc s) -> 0 <= p < NPROC -> runnable (ks_proc s) p ->
  let tab := ks_proc s in let W := run_weight tab (seqZ 0 NPROC) in
  exists m, 0 <= m < NPROC /\ runnable tab m
    /\ (forall i, 0 <= i < NPROC -> runnable tab i -> vle (tab !!! Z.to_nat m) (tab !!! Z.to_nat i))
    /\ 0 < W < 4294967296
    /\ dispatch p 0 s = Done m
        (upd_proc m (with_slice (u32 (10000 * (p_weight (tab !!! Z.to_nat m) `div` W))))
          (upd_proc m (with_state RUNNING) (set_cr3 (V2P (p_pgdir (tab !!! Z.to_nat m)))
            (upd_proc m (fun q => with_prio (p_nice q) (weight_of (p_nice q)) q) (set_cur m s))))).
Proof.
  intros [Hlen Hok] Hp Hr tab W. unfold dispatch, pick, mbind, M_bind, gets, modify. fold tab.
  pose proof (pick_spec_from tab (seqZ 0 NPROC) 0 p Hr) as Hs.
  assert (Hin : forall i, i ∈ seqZ 0 NPROC <-> 0 <= i < NPROC) by (intros i; rewrite elem_of_seqZ; lia).
  assert (Hok' : forall i, i ∈ seqZ 0 NPROC -> runnable tab i -> can_run (tab !!! Z.to_nat i))
    by (intros i Hi; apply Hok; by apply Hin).
  pose proof (run_weight_bounds tab _ Hok') as Hb. rewrite length_seqZ in Hb. fold W in Hb.
  destruct (foldl (pick_step tab) (0, p) (seqZ 0 NPROC)) as [t m] eqn:Ep. destruct Hs as (S1 & S2 & S3 & S4 & S5).
  assert (Hm : 0 <= m < NPROC) by (destruct S3 as [->|S3]; [done|by apply Hin]).
  destruct (Hok m Hm S2) as [C1 C2 C3 C4]. pose proof (weight_range _ C1) as Cw. fold tab in C1, C2, C3, C4, Cw.
  pose proof (run_weight_in tab _ m Hok' (proj2 (Hin m) Hm) S2) as HW. fold W in HW.
  change (Z.of_nat (Z.to_nat NPROC)) with 64 in Hb.
  assert (Et : t = W).
  { rewrite Z.add_0_l in S1. fold W in S1. rewrite (u32_small W) in S1 by lia.
    enough (0 <= t < 4294967296) by (by rewrite u32_small in S1).
    revert Ep. clear. generalize (seqZ 0 NPROC). intros l.
    assert (G : forall l total p, 0 <= total < 4294967296 -> forall t m, foldl (pick_step tab) (total, p) l = (t, m) -> 0 <= t < 4294967296).
    { clear. induction l as [|i l IH]; intros total p Ht t m; cbn [foldl]; [by intros [= <- _]|].
      unfold pick_step at 2. split_decide; apply IH; [apply u32_range|done]. }
    intros Ep. by eapply G; [|exact Ep]. }
  exists m. split; [done|]. split; [done|]. split; [intros i Hi Hri; apply S5; [by apply Hin|done]|].
  split; [lia|]. assert (Hn : m <> NULL) by (unfold NULL; lia).
  assert (Hl : (Z.to_nat m < length (ks_proc s))%nat) by (rewrite Hlen; lia).
  rewrite pset_eq by done. unfold switchuvm. rewrite (proj2 (Z.eqb_neq _ _) Hn).
  unfold mbind, M_bind. rewrite pget_eq by done.
  set (s1 := upd_proc m _ (set_cur m s)).
  assert (E1 : proc_at s1 m = with_prio (p_nice (tab !!! Z.to_nat m)) (weight_of (p_nice (tab !!! Z.to_nat m))) (tab !!! Z.to_nat m))
    by (unfold s1; by rewrite proc_at_upd).
  rewrite E1. cbn [p_kstack p_pgdir with_prio].
  rewrite (proj2 (Z.eqb_neq _ _) C3), (proj2 (Z.eqb_neq _ _) C4). unfold modify.
  rewrite pset_eq, pget_eq by done.
  assert (Hl1 : (Z.to_nat m < length (ks_proc (set_cr3 (V2P (p_pgdir (tab !!! Z.to_nat m))) s1)))%nat)
    by (cbn; by rewrite length_alter).
  rewrite proc_at_upd by done. change (proc_at (set_cr3 _ s1) m) with (proc_at s1 m). rewrite E1.
  cbn [p_weight with_prio with_state]. rewrite Et. rewrite (proj2 (Z.eqb_neq W 0)) by lia.
  rewrite pset_eq by done. rewrite <- C2. rewrite (u32_small (p_weight _)) by lia.
  rewrite (u32_small (_ `div` W)); [done|].
  split; [apply Z.div_pos; lia|]. apply Z.div_lt_upper_bound; nia.
Qed.
End dispatch.

(** (C9) The scheduler runs a runnable process of least virtual runtime: it
    becomes the only one whose entry changes, is RUNNING and the CPU's current
    process with its page table loaded, and its time slice is 10000 when it is
    the only runnable process and 0 otherwise. *)
Theorem scheduler_runs_least {F} (s : kstate F) p :
  table_ok (ks_proc s) -> 0 <= p < NPROC -> runnable (ks_proc s) p ->
  exists m s', dispatch p 0 s = Done m s' /\ 0 <= m < NPROC /\ runnable (ks_proc s) m
    /\ (forall i, 0 <= i < NPROC -> runnable (ks_proc s) i -> vle (proc_at s m) (proc_at s i))
    /\ ks_cur s' = m /\ p_state (proc_at s' m) = RUNNING /\ ks_cr3 s' = V2P (p_pgdir (proc_at s m))
    /\ others_same m s s'
    /\ ((forall i, 0 <= i < NPROC -> runnable (ks_proc s) i -> i = m) -> p_slice (proc_at s' m) = 10000)
    /\ (forall i, 0 <= i < NPROC -> runnable (ks_proc s) i -> i <> m -> p_slice (proc_at s' m) = 0).
Proof.
  intros Hok Hp Hr. destruct (dispatch_eq s p Hok Hp Hr) as (m & Hm & Hrm & Hle & HW & E).
  destruct Hok as [Hlen Hok]. set (tab := ks_proc s) in *. set (W := run_weight tab (seqZ 0 NPROC)) in *.
  assert (Hin : forall i, i ∈ seqZ 0 NPROC <-> 0 <= i < NPROC) by (intros i; rewrite elem_of_seqZ; lia).
  assert (Hok' : forall i, i ∈ seqZ 0 NPROC -> runnable tab i -> can_run (tab !!! Z.to_nat i))
    by (intros i Hi; apply Hok; by apply Hin).
  assert (Hl : (Z.to_nat m < length (ks_proc s))%nat) by (fold tab; rewrite Hlen; lia).
  destruct (Hok m Hm Hrm) as [C1 C2 _ _]. pose proof (weight_range _ C1) as Cw. fold tab in C1, C2, Cw.
  assert (Esl : forall v (s0 : kstate F), (Z.to_nat m < length (ks_proc s0))%nat -> proc_at (upd_proc m (with_slice v) s0) m = with_slice v (proc_at s0 m))
    by (intros; by apply proc_at_upd).
  eexists m, _. split; [exact E|]. split; [done|]. split; [done|]. split; [exact Hle|]. split_and!; try done.
  - rewrite Esl by (cbn; rewrite !length_alter; done). cbn. rewrite proc_at_upd by (cbn; rewrite !length_alter; done). done.
  - eapply others_trans; [|apply upd_others]. eapply others_trans; [|apply upd_others].
    eapply (others_trans m s (upd_proc m _ (set_cur m s))); [|done].
    eapply (others_trans m s (set_cur m s)); [done|apply upd_others].
  - intros Ho. rewrite Esl by (cbn; rewrite !length_alter; done). cbn [p_slice with_slice].
    assert (EW : W = p_weight (tab !!! Z.to_nat m)).
    { apply run_weight_one; [apply NoDup_seqZ|by apply Hin|done|]. intros j Hj. apply Ho. by apply Hin. }
    rewrite EW, Z.div_same by lia. done.
  - intros i Hi Hri Hne. rewrite Esl by (cbn; rewrite !length_alter; done). cbn [p_slice with_slice].
    rewrite Z.div_small; [done|]. split; [lia|]. apply (run_weight_two tab _ m i); try done; try apply NoDup_seqZ; by apply Hin.
Qed.

(** ** Wake-ups *)
Definition least_runnable (tab : list proc) (h l : Z) : Prop :=
  (exists p, p ∈ tab /\ p_state p = RUNNABLE /\ p_vhigh p = h /\ p_vlow p = l)
  /\ forall p, p ∈ tab -> p_state p = RUNNABLE -> h < p_vhigh p \/ (h = p_vhigh p /\ l <= p_vlow p).

Lemma min_vruntime_snoc tab p :
  min_vruntime (tab ++ [p]) =
    (if decide (p_state p = RUNNABLE) then
       match min_vruntime tab with
       | None => Some (p_vhigh p, p_vlow p)
       | Some (h, l) =>
           if h >? p_vhigh p then Some (p_vhigh p, p_vlow p)
           else if (h =? p_vhigh p) && (l >? p_vlow p) then Some (h, p_vlow p)
           else Some (h, l)
       end
     else min_vruntime tab).
Proof. unfold min_vruntime. by rewrite foldl_snoc. Qed.

Lemma min_vruntime_spec tab :
  match min_vruntime tab with
  | Some (h, l) => least_runnable tab h l
  | None => forall p, p ∈ tab -> p_state p <> RUNNABLE
  end.
Proof.
  induction tab as [|p tab IH] using rev_ind; [by intros p Hp%elem_of_nil|].
  rewrite min_vruntime_snoc. destruct (decide (p_state p = RUNNABLE)) as [Hr|Hr].
  - destruct (min_vruntime tab) as [[h l]|].
    + destruct IH as [(q & Hq & Rq & <- & <-) Hle]. rewrite !Z.gtb_ltb.
      destruct (p_vhigh p <? p_vhigh q) eqn:E1; [|destruct ((p_vhigh q =? p_vhigh p) && (p_vlow p <? p_vlow q)) eqn:E2].
      * split; [exists p; set_solver|]. intros x [Hx|Hx%list_elem_of_singleton]%elem_of_app Rx; [|subst; lia].
        specialize (Hle x Hx Rx). lia.
      * split; [exists p; split; [set_solver|split; [done|split; [lia|done]]]|].
        intros x [Hx|Hx%list_elem_of_singleton]%elem_of_app Rx; [|subst; lia].
        specialize (Hle x Hx Rx). lia.
      * split; [exists q; set_solver|]. intros x [Hx|Hx%list_elem_of_singleton]%elem_of_app Rx; [by apply Hle|subst; lia].
    + split; [exists p; set_solver|]. intros x [Hx|Hx%list_elem_of_singleton]%elem_of_app Rx; [by destruct (IH x Hx)|].
      subst. lia.
  - destruct (min_vruntime tab) as [[h l]|].
    + destruct IH as [(q & Hq & Rq) Hle]. split; [exists q; split; [set_solver|done]|].
      intros x [Hx|Hx%list_elem_of_singleton]%elem_of_app Rx; [by apply Hle|by subst].
    + intros x [Hx|Hx%list_elem_of_singleton]%elem_of_app; [by apply IH|by subst].
Qed.

(** The fields of the table are 32-bit values. *)
Definition words_ok (tab : list proc) : Prop :=
  forall p, p ∈ tab -> 0 <= p_vhigh p < 4294967296 /\ 0 <= p_vlow p < 4294967296 /\ 15 <= p_weight p <= 88761.

Lemma least_unique tab h l h' l' : least_runnable tab h l -> least_runnable tab h' l' -> h = h' /\ l = l'.
Proof.
  intros [(p & Hp & Rp & <- & <-) Hl] [(q & Hq & Rq & <- & <-) Hl'].
  pose proof (Hl q Hq Rq). pose proof (Hl' p Hp Rp). lia.
Qed.

Section wakeup.
Context {F : Type}.
Implicit Types s : kstate F.

Lemma wakeup_eq s chan :
  Lptable ∉ ks_held s -> wakeup chan s = Done tt (set_procs (wakeup1_table chan (ks_proc s)) s).
Proof.
  intros HL. unfold wakeup, wakeup1, mbind, M_bind, modify. rewrite acquire_free by done. cbn.
  erewrite (release_top Lptable (ks_held s)) by done. by destruct s.
Qed.
End wakeup.

Lemma tick_range w : 15 <= w <= 88761 -> u32 (1024000 `quot` w) = 1024000 `div` w /\ 11 <= 1024000 `div` w <= 68266.
Proof.
  intros Hw. rewrite Z.quot_div_nonneg by lia.
  assert (11 <= 1024000 `div` w <= 68266).
  { split; [apply Z.div_le_lower_bound; lia|].
    apply Z.le_trans with (1024000 `div` 15); [apply Z.div_le_compat_l; lia|done]. }
  split; [apply u32_small; lia|lia].
Qed.

(** The virtual runtime a woken process gets, by cases. *)
Lemma woken_cases tab p :
  words_ok tab -> 15 <= p_weight p <= 88761 ->
  let d := 1024000 `div` p_weight p in
  ((forall q, q ∈ tab -> p_state q <> RUNNABLE) -> woken_vruntime (min_vruntime tab) p = (0, 0))
  /\ forall h l, least_runnable tab h l ->
       woken_vruntime (min_vruntime tab) p = (h, if decide (d <= l) then l - d else l - d + 4294967296).
Proof.
  intros Hok Hw d. destruct (tick_range _ Hw) as [Eq Hd]. fold d in Eq, Hd.
  pose proof (min_vruntime_spec tab) as Hm. destruct (min_vruntime tab) as [[h l]|]; split.
  - intros Hn. destruct Hm as [(q & Hq & Rq & _) _]. by destruct (Hn q Hq).
  - intros h' l' Hl'. destruct (least_unique _ _ _ _ _ Hm Hl') as [-> ->].
    destruct Hl' as [(q & Hq & Rq & <- & <-) _]. destruct (Hok q Hq) as (_ & Hlo & _).
    unfold woken_vruntime. rewrite Eq. pose proof (u32_range (p_vlow q - d)) as Hu.
    replace (u32 (p_vlow q - d) <? 0) with false by lia. f_equal.
    split_decide; [apply u32_small; lia|]. unfold u32. symmetry. apply Z.mod_unique with (-1); lia.
  - intros _. done.
  - intros h l [(q & Hq & Rq & _) _]. by destruct (Hm q Hq).
Qed.

(** [wakeup] makes exactly the processes asleep on the channel RUNNABLE and
    changes no other entry; with no runnable process they start at virtual
    runtime 0, otherwise at the least one of the runnable processes minus a tick
    of their own weight, before all of these as long as that does not pass zero. *)
Theorem wakeup_wakes {F} (s : kstate F) chan :
  Lptable ∉ ks_held s -> words_ok (ks_proc s) ->
  exists s', wakeup chan s = Done tt s' /\ ks_held s' = ks_held s
    /\ length (ks_proc s') = length (ks_proc s)
    /\ forall k p, ks_proc s !! k = Some p ->
       (~ (p_state p = SLEEPING /\ p_chan p = chan) -> ks_proc s' !! k = Some p)
       /\ (p_state p = SLEEPING /\ p_chan p = chan ->
           exists h l, ks_proc s' !! k = Some (with_vruntime h l (with_state RUNNABLE p))
             /\ ((forall q, q ∈ ks_proc s -> p_state q <> RUNNABLE) -> h = 0 /\ l = 0)
             /\ (forall h0 l0, least_runnable (ks_proc s) h0 l0 -> 1024000 `div` p_weight p <= l0 ->
                   h = h0 /\ l = l0 - 1024000 `div` p_weight p
                   /\ forall q, q ∈ ks_proc s -> p_state q = RUNNABLE ->
                        vle (with_vruntime h l (with_state RUNNABLE p)) q)).
Proof.
  intros HL Hok. eexists. split; [by apply wakeup_eq|]. split; [done|].
  split; [cbn; unfold wakeup1_table; by rewrite length_fmap|]. intros k p Hk. cbn. unfold wakeup1_table.
  rewrite list_lookup_fmap, Hk. cbn. unfold wake_proc. split; intros Hc.
  - by rewrite decide_False.
  - rewrite decide_True by done. destruct (woken_vruntime _ p) as [h l] eqn:E. exists h, l. split; [done|].
    assert (Hp : p ∈ ks_proc s) by by eapply list_elem_of_lookup_2.
    destruct (Hok p Hp) as (_ & _ & Hw). destruct (woken_cases (ks_proc s) p Hok Hw) as [W0 W1]. split.
    + intros Hn. rewrite (W0 Hn) in E. by injection E as <- <-.
    + intros h0 l0 Hl Hd. rewrite (W1 _ _ Hl) in E. rewrite decide_True in E by done. injection E as <- <-.
      split; [done|]. split; [done|]. intros q Hq Rq. destruct Hl as [_ Hl]. specialize (Hl q Hq Rq).
      destruct (tick_range _ Hw) as [_ Hd']. unfold vle; cbn. lia.
Qed.

(** The borrow from the high word never happens, since the test for it is
    on an unsigned value: when the least low word is smaller than a tick, the
    woken process goes behind every runnable process with the same high word
    instead of before it. *)
Theorem wakeup_borrow_lost {F} (s : kstate F) chan k p h0 l0 :
  Lptable ∉ ks_held s -> words_ok (ks_proc s) ->
  ks_proc s !! k = Some p -> p_state p = SLEEPING -> p_chan p = chan ->
  least_runnable (ks_proc s) h0 l0 -> l0 < 1024000 `div` p_weight p ->
  exists s' p', wakeup chan s = Done tt s' /\ ks_proc s' !! k = Some p' /\ p_state p' = RUNNABLE
    /\ 4294899030 <= p_vlow p'
    /\ forall q, q ∈ ks_proc s -> p_state q = RUNNABLE -> p_vhigh q = h0 -> p_vlow q < 1000000000 ->
         compare_vruntime p' q = true.
Proof.
  intros HL Hok Hk Hs Hc Hl Hd. assert (Hp : p ∈ ks_proc s) by by eapply list_elem_of_lookup_2.
  destruct (Hok p Hp) as (_ & _ & Hw). destruct (woken_cases (ks_proc s) p Hok Hw) as [_ W1].
  destruct (tick_range _ Hw) as [_ Hd'].
  assert (Hl0 : 0 <= l0) by (destruct Hl as [(q & Hq & _ & _ & <-) _]; destruct (Hok q Hq) as (_ & ? & _); lia).
  eexists _, _. split; [by apply wakeup_eq|]. cbn. unfold wakeup1_table. rewrite list_lookup_fmap, Hk. cbn.
  split; [done|]. unfold wake_proc. rewrite decide_True by done.
  rewrite (W1 _ _ Hl). rewrite decide_False by lia. cbn. split; [done|]. split; [lia|].
  intros q Hq Rq Eh Hlt. unfold compare_vruntime. cbn. rewrite Eh, Z.gtb_ltb, Z.ltb_irrefl, Z.gtb_ltb.
  by replace (_ <? _) with true by lia.
Qed.

(** ** An instance: two runnable processes and one asleep on [ticks] *)
Definition ex_proc (st : procstate) (c : wchan) (pid h l : Z) : proc :=
  Proc 4096 2147500032 2147504128 st pid NULL 0 0 c 0 (replicate 16 NULL) NULL [] 20 1024 h l 0 0 0.
Definition ex_table : list proc :=
  ex_proc RUNNABLE Cnone 1 2 500 :: ex_proc SLEEPING Cticks 2 1 7 :: ex_proc RUNNABLE Cnone 3 2 400
  :: replicate 61 (with_prio 20 1024 zero_proc).
Definition ex_kst : kst := Kst ∅ true 0 0 [].
Definition ex_ks : kstate (list lock) :=
  Kstate ex_table 0 4 NULL 0 false ex_kst [] (replicate 64 zero_area) 0 [] [].

Lemma ex_elem p : p ∈ ex_table ->
  p = ex_proc RUNNABLE Cnone 1 2 500 \/ p = ex_proc SLEEPING Cticks 2 1 7
  \/ p = ex_proc RUNNABLE Cnone 3 2 400 \/ p = with_prio 20 1024 zero_proc.
Proof.
  unfold ex_table. intros [->|[->|[->|Hp]%elem_of_cons]%elem_of_cons]%elem_of_cons; [tauto..|].
  apply elem_of_replicate in Hp as [-> _]. tauto.
Qed.

Lemma ex_runnable i : 0 <= i < NPROC -> runnable ex_table i -> i = 0 \/ i = 2.
Proof.
  intros Hi Hr. destruct (decide (i < 3)); [assert (i = 0 \/ i = 1 \/ i = 2) as [->|[->| ->]] by lia; [by left| |by right]|].
  - done.
  - exfalso. unfold runnable in Hr. replace (Z.to_nat i) with (3 + Z.to_nat (i - 3))%nat in Hr by lia.
    change (ex_table !!! (3 + Z.to_nat (i - 3))%nat) with (replicate 61 (with_prio 20 1024 zero_proc) !!! Z.to_nat (i - 3)) in Hr.
    unfold NPROC in Hi. rewrite lookup_total_replicate_2 in Hr by lia. done.
Qed.

Lemma ex_table_ok : table_ok ex_table.
Proof.
  split; [done|]. intros i Hi Hr. destruct (ex_runnable i Hi Hr) as [-> | ->]; by split.
Qed.

Lemma ex_words : words_ok (ks_proc ex_ks).
Proof. intros p [->|[->|[->| ->]]]%ex_elem; cbn; lia. Qed.

Lemma ex_least : least_runnable (ks_proc ex_ks) 2 400.
Proof.
  split; [exists (ex_proc RUNNABLE Cnone 3 2 400); split_and!; try done; by right; right; left|].
  intros p [->|[->|[->| ->]]]%ex_elem; cbn; try done; lia.
Qed.

Lemma scheduler_runs_least_witness :
  table_ok ex_table /\ runnable ex_table 0
  /\ exists s', dispatch 0 0 ex_ks = Done 2 s' /\ p_slice (proc_at s' 2) = 0.
Proof.
  split; [exact ex_table_ok|]. split; [reflexivity|].
  destruct (scheduler_runs_least ex_ks 0 ex_table_ok ltac:(unfold NPROC; lia) eq_refl)
    as (m & s' & E & Hm & Hr & Hle & _ & _ & _ & _ & _ & Hz).
  assert (m = 2) as ->.
  { destruct (ex_runnable m Hm Hr) as [->|]; [|done]. exfalso.
    pose proof (Hle 2 ltac:(unfold NPROC; lia) eq_refl) as Hv. unfold vle in Hv.
    change (p_vhigh (proc_at ex_ks 0)) with 2 in Hv. change (p_vhigh (proc_at ex_ks 2)) with 2 in Hv.
    change (p_vlow (proc_at ex_ks 0)) with 500 in Hv. change (p_vlow (proc_at ex_ks 2)) with 400 in Hv. lia. }
  exists s'. split; [exact E|]. apply (Hz 0); [unfold NPROC; lia|reflexivity|lia].
Defined.

Lemma wakeup_wakes_witness :
  words_ok (ks_proc ex_ks)
  /\ exists s', wakeup Cticks ex_ks = Done tt s' /\ length (ks_proc s') = 64%nat.
Proof.
  split; [exact ex_words|].
  destruct (wakeup_wakes ex_ks Cticks ltac:(apply not_elem_of_nil) ex_words) as (s' & E & _ & Hl & _).
  exists s'. split; [exact E|exact Hl].
Defined.

Lemma wakeup_borrow_lost_witness :
  least_runnable (ks_proc ex_ks) 2 400
  /\ exists s' p', wakeup Cticks ex_ks = Done tt s' /\ ks_proc s' !! 1%nat = Some p'
    /\ compare_vruntime p' (ex_proc RUNNABLE Cnone 1 2 500) = true.
Proof.
  split; [exact ex_least|].
  destruct (wakeup_borrow_lost ex_ks Cticks 1 (ex_proc SLEEPING Cticks 2 1 7) 2 400
    ltac:(apply not_elem_of_nil) ex_words eq_refl eq_refl eq_refl ex_least ltac:(reflexivity))
    as (s' & p' & E & Hk & _ & _ & Hb).
  exists s', p'. split; [exact E|]. split; [exact Hk|]. apply Hb; [by left|reflexivity|reflexivity|reflexivity].
Defined.
