(* ===== verification/ProcLife.v ===== *)
(** * The life of a process ([fork], [exit], [wait], [sleep], [kill]: theorems)

    The functions of [proc.c] as the steps of a transition system on one CPU,
    and the invariant of the process table they keep: one running process, no
    two live processes with the same pid, every process has a live parent, and
    no process sleeps in [wait] while a child of it is a zombie. *)
From S2P Require Import Prelude Layout Memory Locks Kalloc Vm Fs ProcData Mmap Proc ProcSched.

(** What the invariant reads of a kernel state. *)
Definition core {F} (s : kstate F) : list proc * Z * Z * Z :=
  (ks_proc s, ks_cur s, ks_initproc s, ks_nextpid s).

(** A slot in use by a process that can run again. *)
Definition alive (st : procstate) : Prop := st = SLEEPING \/ st = RUNNABLE \/ st = RUNNING.
(** A slot whose process has been started: alive or a zombie. *)
Definition started (st : procstate) : Prop := alive st \/ st = ZOMBIE.

Record life_inv (c : list proc * Z * Z * Z) : Prop := LifeInv {
  li_len : length c.1.1.1 = Z.to_nat NPROC;
  li_run : forall k p, c.1.1.1 !! k = Some p -> p_state p = RUNNING -> c.1.1.2 = Z.of_nat k;
  li_wait : forall k p j q, c.1.1.1 !! k = Some p -> c.1.1.1 !! j = Some q ->
    p_state p = SLEEPING -> p_chan p = Cproc (Z.of_nat k) -> p_parent q = Z.of_nat k -> p_state q <> ZOMBIE;
  li_init : exists k p, c.1.2 = Z.of_nat k /\ c.1.1.1 !! k = Some p /\ alive (p_state p);
  li_parent : forall j q, c.1.1.1 !! j = Some q -> started (p_state q) -> Z.of_nat j <> c.1.2 ->
    p_parent q <> Z.of_nat j
    /\ exists k p, p_parent q = Z.of_nat k /\ c.1.1.1 !! k = Some p /\ alive (p_state p);
  li_pid : forall j q, c.1.1.1 !! j = Some q -> p_state q <> UNUSED -> 0 < p_pid q < c.2
    /\ forall k p, c.1.1.1 !! k = Some p -> p_state p <> UNUSED -> p_pid p = p_pid q -> k = j }.

(** A new table with the slots changed in a way the invariant does not see. *)
Definition same_life (p p' : proc) : Prop :=
  p_pid p' = p_pid p /\ p_parent p' = p_parent p
  /\ ((p_state p' = p_state p /\ p_chan p' = p_chan p)
      \/ (p_state p = SLEEPING /\ p_state p' = RUNNABLE)).

Lemma life_map tab tab' cur ini n :
  length tab' = length tab ->
  (forall k p', tab' !! k = Some p' -> exists p, tab !! k = Some p /\ same_life p p') ->
  life_inv (tab, cur, ini, n) -> life_inv (tab', cur, ini, n).
Proof.
  intros Hl Hm [I1 I2 I3 I4 I5 I6]; cbn in *.
  assert (Hf : forall k p, tab !! k = Some p -> exists p', tab' !! k = Some p' /\ same_life p p').
  { intros k p Hk. assert (Hlt : (k < length tab')%nat) by (rewrite Hl; by eapply lookup_lt_Some).
    destruct (lookup_lt_is_Some_2 _ _ Hlt) as [p' Hk']. destruct (Hm _ _ Hk') as (p0 & Hp0 & Hs).
    rewrite Hk in Hp0. injection Hp0 as <-. eauto. }
  assert (Ha : forall p p', same_life p p' -> alive (p_state p) -> alive (p_state p')).
  { intros p p' (_ & _ & [[E _]|[E E']]) Hp; unfold alive in *; [by rewrite E|rewrite E'; tauto]. }
  split; cbn.
  - congruence.
  - intros k p' Hk Hr. destruct (Hm _ _ Hk) as (p & Hp & (_ & _ & [[E _]|[E E']])); [|congruence].
    apply (I2 k p Hp). congruence.
  - intros k p' j q' Hk Hj Hs Hc Hpar Hz. destruct (Hm _ _ Hk) as (p & Hp & (_ & _ & [[E1 E2]|[E1 E2]])); [|congruence].
    destruct (Hm _ _ Hj) as (q & Hq & (_ & Eq & [[E3 _]|[E3 E4]])); [|congruence].
    eapply (I3 k p j q); try done; congruence.
  - destruct I4 as (k & p & E & Hk & Hp). destruct (Hf _ _ Hk) as (p' & Hk' & Hs). exists k, p'. eauto.
  - intros j q' Hj Hst Hni. destruct (Hm _ _ Hj) as (q & Hq & Hsl). pose proof Hsl as (_ & Epar & Hcase).
    rewrite Epar. assert (Hst' : started (p_state q)).
    { unfold started, alive in *. destruct Hcase as [[E _]|[E _]]; [by rewrite <- E|rewrite E; tauto]. }
    destruct (I5 j q Hq Hst' Hni) as (Hne & k & p & E & Hk & Hp). split; [done|].
    destruct (Hf _ _ Hk) as (p' & Hk' & Hs). exists k, p'. eauto.
  - intros j q' Hj Hu. destruct (Hm _ _ Hj) as (q & Hq & (Ep & _ & Hcase)). rewrite Ep.
    assert (Hu' : p_state q <> UNUSED) by (destruct Hcase as [[E _]|[E _]]; congruence).
    destruct (I6 j q Hq Hu') as [Hr Huq]. split; [done|]. intros k p' Hk Hku Hpp.
    destruct (Hm _ _ Hk) as (p & Hp & (Ep' & _ & Hcase')). eapply (Huq k p); [done| |congruence].
    destruct Hcase' as [[E _]|[E _]]; congruence.
Qed.

Lemma wake_same chan m p : same_life p (wake_proc chan m p).
Proof.
  unfold wake_proc. split_decide as [[Hs _]|_]; [|by repeat split; left].
  destruct (woken_vruntime m p) as [h l]. split; [done|]. split; [done|]. by right.
Qed.

Lemma wakeup_life chan tab cur ini n :
  life_inv (tab, cur, ini, n) -> life_inv (wakeup1_table chan tab, cur, ini, n).
Proof.
  apply life_map; unfold wakeup1_table; [by rewrite length_fmap|].
  intros k p' (p & -> & Hk)%list_lookup_fmap_Some. exists p. split; [done|apply wake_same].
Qed.

(** Nobody sleeps on a channel after [wakeup1] of it. *)
Lemma wakeup_none chan tab k p :
  wakeup1_table chan tab !! k = Some p -> p_state p = SLEEPING -> p_chan p <> chan.
Proof.
  unfold wakeup1_table. intros (q & -> & Hk)%list_lookup_fmap_Some. unfold wake_proc.
  split_decide as [[Hs Hc]|Hn]; [destruct (woken_vruntime _ q); done|]. intros Hs Hc. by apply Hn.
Qed.

(** A change of one slot that the invariant does not see. *)
Lemma alter_life (f : proc -> proc) i tab cur ini n :
  (forall p, tab !! i = Some p -> same_life p (f p)) ->
  life_inv (tab, cur, ini, n) -> life_inv (alter f i tab, cur, ini, n).
Proof.
  intros Hf. apply life_map; [apply length_alter|]. intros k p' Hk.
  destruct (decide (k = i)) as [->|Hne].
  - rewrite list_lookup_alter_eq in Hk. apply fmap_Some in Hk as (p & Hp & ->). exists p. auto.
  - rewrite list_lookup_alter_ne in Hk by done. exists p'. split; [done|]. by repeat split; left.
Qed.

(** ** [exit] on the table *)
Definition rep_table (me ini : Z) (tab : list proc) (i : Z) : list proc :=
  if p_parent (tab !!! Z.to_nat i) =? me then
    let tab1 := alter (with_parent ini) (Z.to_nat i) tab in
    if decide (p_state (tab1 !!! Z.to_nat i) = ZOMBIE) then wakeup1_table (Cproc ini) tab1 else tab1
  else tab.
Definition exit_table (me ini : Z) (tab : list proc) : list proc :=
  alter (with_state ZOMBIE) (Z.to_nat me)
    (foldl (rep_table me ini) (wakeup1_table (Cproc (p_parent (tab !!! Z.to_nat me))) tab) (seqZ 0 NPROC)).

(** What holds of the table while the process [me], a child of [P], exits. *)
Record exiting (me P ini n : Z) (tab : list proc) : Prop := Exiting {
  ex_life : life_inv (tab, me, ini, n);
  ex_me : exists p, tab !! Z.to_nat me = Some p /\ p_state p = RUNNING /\ p_parent p = P;
  ex_woken : forall k p, tab !! k = Some p -> p_state p = SLEEPING -> p_chan p = Cproc (Z.of_nat k) -> Z.of_nat k <> P }.

Lemma lookup_rep me ini tab i j q :
  rep_table me ini tab i !! j = Some q ->
  exists p, tab !! j = Some p /\ p_pid q = p_pid p
    /\ p_parent q = (if decide (j = Z.to_nat i /\ p_parent p = me) then ini else p_parent p)
    /\ ((p_state q = p_state p /\ p_chan q = p_chan p) \/ (p_state p = SLEEPING /\ p_state q = RUNNABLE)).
Proof.
  unfold rep_table. destruct (p_parent (tab !!! Z.to_nat i) =? me) eqn:Ei.
  2: { intros Hj. exists q. split; [done|]. split; [done|]. split; [|by left].
       rewrite decide_False; [done|]. intros [-> Hp]. rewrite (list_lookup_total_correct _ _ _ Hj) in Ei. lia. }
  assert (Ha : forall q, alter (with_parent ini) (Z.to_nat i) tab !! j = Some q ->
    exists p, tab !! j = Some p /\ p_pid q = p_pid p
    /\ p_parent q = (if decide (j = Z.to_nat i /\ p_parent p = me) then ini else p_parent p)
    /\ p_state q = p_state p /\ p_chan q = p_chan p).
  { intros q' Hj. destruct (decide (j = Z.to_nat i)) as [->|Hne].
    - rewrite list_lookup_alter_eq in Hj. apply fmap_Some in Hj as (p & Hp & ->). exists p. split; [done|].
      rewrite (list_lookup_total_correct _ _ _ Hp) in Ei. split; [done|]. split; [|done].
      rewrite decide_True; [done|]. split; [done|lia].
    - rewrite list_lookup_alter_ne in Hj by done. exists q'. split; [done|]. split; [done|]. split; [|done].
      rewrite decide_False; [done|tauto]. }
  intros Hj. destruct (decide _); [|destruct (Ha q Hj) as (p & H1 & H2 & H3 & H4); exists p; tauto].
  unfold wakeup1_table in Hj. apply list_lookup_fmap_Some in Hj as (q' & -> & Hj).
  destruct (Ha q' Hj) as (p & H1 & H2 & H3 & H4 & H5). exists p. split; [done|].
  destruct (wake_same (Cproc ini) (min_vruntime (alter (with_parent ini) (Z.to_nat i) tab)) q') as (W1 & W2 & W3).
  split; [congruence|]. split; [congruence|]. destruct W3 as [[W3 W4]|[W3 W4]]; [left|right]; split; congruence.
Qed.

Lemma length_rep me ini tab i : length (rep_table me ini tab i) = length tab.
Proof.
  unfold rep_table. destruct (_ =? me); [|done]. cbn zeta. destruct (decide _); unfold wakeup1_table;
    by rewrite ?length_fmap, length_alter.
Qed.

Lemma lookup_rep_back me ini tab i k p :
  tab !! k = Some p -> exists q, rep_table me ini tab i !! k = Some q
    /\ (alive (p_state p) -> alive (p_state q)) /\ (p_state p <> SLEEPING -> p_state q = p_state p).
Proof.
  intros Hk. assert (Hlt : (k < length (rep_table me ini tab i))%nat) by (rewrite length_rep; by eapply lookup_lt_Some).
  destruct (lookup_lt_is_Some_2 _ _ Hlt) as [q Hq]. exists q. split; [done|].
  destruct (lookup_rep _ _ _ _ _ _ Hq) as (p' & Hp' & _ & _ & Hc). rewrite Hk in Hp'. injection Hp' as <-.
  unfold alive. destruct Hc as [[E _]|[E1 E2]]; [rewrite E; tauto|]. rewrite E2. split; [tauto|]. done.
Qed.

Lemma rep_exiting me P ini n tab i :
  0 <= me -> P <> me -> 0 <= i -> exiting me P ini n tab ->
  exiting me P ini n (rep_table me ini tab i).
Proof.
  intros Hme HP Hi [[I1 I2 I3 I4 I5 I6] (pm & Hpm & Rm & Em) Hw]; cbn in *.
  (* sleepers of the new table slept before, and not on [ini] if a zombie was given to it *)
  assert (Hsl : forall k p, rep_table me ini tab i !! k = Some p -> p_state p = SLEEPING ->
    exists p0, tab !! k = Some p0 /\ p_state p0 = SLEEPING /\ p_chan p0 = p_chan p).
  { intros k p Hk Hs. destruct (lookup_rep _ _ _ _ _ _ Hk) as (p0 & Hp0 & _ & _ & [[E1 E2]|[E1 E2]]); [|congruence].
    exists p0. split; [done|]. split; congruence. }
  split; [split; cbn|..].
  - by rewrite length_rep.
  - intros k p Hk Hr. destruct (lookup_rep _ _ _ _ _ _ Hk) as (p0 & Hp0 & _ & _ & [[E1 _]|[_ E2]]); [|congruence].
    apply (I2 k p0 Hp0). congruence.
  - intros k p j q Hk Hj Hs Hc Hpar Hz.
    destruct (Hsl _ _ Hk Hs) as (p0 & Hp0 & Hs0 & Hc0).
    destruct (lookup_rep _ _ _ _ _ _ Hj) as (q0 & Hq0 & _ & Epar & [[E1 _]|[_ E2]]); [|congruence].
    revert Epar. split_decide as [[-> Eme]|Hn]; intros Epar.
    2: { eapply (I3 k p0 j q0); try done; congruence. }
    (* the slot [i] itself: a zombie child was given to [ini], which was woken *)
    revert Hk. unfold rep_table. rewrite (list_lookup_total_correct _ _ _ Hq0). rewrite Eme, Z.eqb_refl.
    rewrite list_lookup_total_alt, list_lookup_alter_eq, Hq0. cbn. rewrite decide_True by congruence.
    intros Hk. apply (wakeup_none _ _ _ _ Hk Hs). congruence.
  - destruct I4 as (k & p & E & Hk & Hp). destruct (lookup_rep_back me ini tab i k p Hk) as (q & Hq & Ha & _).
    exists k, q. auto.
  - intros j q Hj Hst Hni. destruct (lookup_rep _ _ _ _ _ _ Hj) as (q0 & Hq0 & _ & Epar & Hcase).
    assert (Hst0 : started (p_state q0)).
    { unfold started, alive in *. destruct Hcase as [[E _]|[E _]]; [by rewrite <- E|rewrite E; tauto]. }
    destruct (I5 j q0 Hq0 Hst0 Hni) as (Hne & k & p & E & Hk & Hp).
    rewrite Epar. split_decide as [[-> Eme]|Hn].
    + destruct I4 as (k' & p' & E' & Hk' & Hp'). split; [done|].
      destruct (lookup_rep_back me ini tab i k' p' Hk') as (x & Hx & Hax & _). exists k', x. auto.
    + split; [done|]. destruct (lookup_rep_back me ini tab i k p Hk) as (x & Hx & Hax & _). exists k, x. auto.
  - intros j q Hj Hu. destruct (lookup_rep _ _ _ _ _ _ Hj) as (q0 & Hq0 & Ep & _ & Hcase). rewrite Ep.
    assert (Hu0 : p_state q0 <> UNUSED) by (destruct Hcase as [[E _]|[E _]]; congruence).
    destruct (I6 j q0 Hq0 Hu0) as [Hr Huq]. split; [done|]. intros k p Hk Hku Hpp.
    destruct (lookup_rep _ _ _ _ _ _ Hk) as (p0 & Hp0 & Ep0 & _ & Hcase0). eapply (Huq k p0); [done| |congruence].
    destruct Hcase0 as [[E _]|[E _]]; congruence.
  - destruct (lookup_rep_back me ini tab i _ _ Hpm) as (q & Hq & _ & Hsame). exists q. split; [done|].
    split; [rewrite Hsame by congruence; done|].
    destruct (lookup_rep _ _ _ _ _ _ Hq) as (q0 & Hq0 & _ & Epar & _). rewrite Hpm in Hq0. injection Hq0 as <-.
    rewrite Epar. rewrite decide_False; [done|]. intros [_ Hbad]. congruence.
  - intros k p Hk Hs Hc. destruct (Hsl _ _ Hk Hs) as (p0 & Hp0 & Hs0 & Hc0). apply (Hw k p0 Hp0 Hs0). congruence.
Qed.

(** After the loop no process has [me] as its parent. *)
Lemma reps_exiting me P ini n l tab :
  0 <= me -> P <> me -> ini <> me -> (forall i, i ∈ l -> 0 <= i) -> exiting me P ini n tab ->
  exiting me P ini n (foldl (rep_table me ini) tab l)
  /\ forall j q, foldl (rep_table me ini) tab l !! j = Some q -> Z.of_nat j ∈ l -> p_parent q <> me.
Proof.
  intros Hme HP Hini. induction l as [|i l IH] using rev_ind; intros Hl Hex.
  - split; [done|]. intros j q _ Hj%elem_of_nil. done.
  - rewrite foldl_snoc. destruct IH as [IH1 IH2]; [intros x Hx; apply Hl; set_solver|done|].
    assert (Hi : 0 <= i) by (apply Hl; set_solver). split; [by apply rep_exiting|].
    intros j q Hj Hin. destruct (lookup_rep _ _ _ _ _ _ Hj) as (q0 & Hq0 & _ & -> & _).
    split_decide as [_|Hn]; [done|]. apply elem_of_app in Hin as [Hin|Hin%list_elem_of_singleton].
    + by apply (IH2 j q0).
    + intros Ep. apply Hn. split; [lia|done].
Qed.

Lemma exit_table_life tab me ini n :
  life_inv (tab, me, ini, n) -> 0 <= me < NPROC -> me <> ini -> p_state (tab !!! Z.to_nat me) = RUNNING ->
  life_inv (exit_table me ini tab, NULL, ini, n)
  /\ p_state (exit_table me ini tab !!! Z.to_nat me) = ZOMBIE
  /\ (forall j q, exit_table me ini tab !! j = Some q -> p_parent q <> me)
  /\ (forall k p, exit_table me ini tab !! k = Some p -> p_state p = SLEEPING -> p_chan p = Cproc (Z.of_nat k) ->
       Z.of_nat k <> p_parent (tab !!! Z.to_nat me)).
Proof.
  intros Hlife Hme Hini Hrun. unfold NPROC in Hme.
  assert (Hlen : length tab = 64%nat) by apply (li_len _ Hlife).
  destruct (lookup_lt_is_Some_2 tab (Z.to_nat me)) as [pm Hpm]; [lia|].
  rewrite (list_lookup_total_correct _ _ _ Hpm) in Hrun. unfold exit_table.
  rewrite !(list_lookup_total_correct _ _ _ Hpm). set (P := p_parent pm).
  assert (HP : P <> me).
  { destruct (li_parent _ Hlife (Z.to_nat me) pm Hpm) as [Hne _]; [left; unfold alive; tauto|cbn; lia|]. unfold P. lia. }
  assert (Hex : exiting me P ini n (wakeup1_table (Cproc P) tab)).
  { split; [by apply wakeup_life|..].
    - exists pm. split; [|done]. unfold wakeup1_table. rewrite list_lookup_fmap, Hpm. cbn. unfold wake_proc.
      rewrite decide_False; [done|]. intros [? _]. congruence.
    - intros k p Hk Hs Hc E. apply (wakeup_none _ _ _ _ Hk Hs). by rewrite Hc, E. }
  pose proof (reps_exiting me P ini n (seqZ 0 NPROC) _ ltac:(lia) HP ltac:(done) ltac:(intros i Hi%elem_of_seqZ; lia) Hex) as Hl.
  revert Hl. generalize (foldl (rep_table me ini) (wakeup1_table (Cproc P) tab) (seqZ 0 NPROC)).
  clear Hex. intros t2 [[[I1 I2 I3 I4 I5 I6] (qm & Hqm & Rqm & Pqm) Hw] Hnone]; cbn in I1, I2, I3, I4, I5, I6.
  assert (Hno : forall j q, t2 !! j = Some q -> p_parent q <> me).
  { intros j q Hj. apply (Hnone j q Hj). apply elem_of_seqZ. apply lookup_lt_Some in Hj. rewrite I1 in Hj.
    unfold NPROC in *. lia. }
  assert (Hlk : forall j q, alter (with_state ZOMBIE) (Z.to_nat me) t2 !! j = Some q ->
    exists q0, t2 !! j = Some q0 /\ p_pid q = p_pid q0 /\ p_parent q = p_parent q0 /\ p_chan q = p_chan q0
      /\ p_state q = (if decide (j = Z.to_nat me) then ZOMBIE else p_state q0)).
  { intros j q Hj. destruct (decide (j = Z.to_nat me)) as [->|Hne].
    - rewrite list_lookup_alter_eq in Hj. apply fmap_Some in Hj as (q0 & Hq0 & ->). by exists q0.
    - rewrite list_lookup_alter_ne in Hj by done. by exists q. }
  assert (Hback : forall k p, t2 !! k = Some p -> k <> Z.to_nat me -> alter (with_state ZOMBIE) (Z.to_nat me) t2 !! k = Some p).
  { intros k p Hk Hne. by rewrite list_lookup_alter_ne by done. }
  split; [split; cbn|split; [|split]].
  - by rewrite length_alter.
  - intros k p Hk Hr. destruct (Hlk _ _ Hk) as (p0 & Hp0 & _ & _ & _ & Es). rewrite Es in Hr.
    revert Hr. split_decide as [->|Hne]; [done|]. intros Hr. specialize (I2 k p0 Hp0 Hr). lia.
  - intros k p j q Hk Hj Hs Hc Hpar Hz. destruct (Hlk _ _ Hk) as (p0 & Hp0 & _ & _ & Ec & Es).
    destruct (Hlk _ _ Hj) as (q0 & Hq0 & _ & Eq & _ & Esq). rewrite Es in Hs. revert Hs.
    split_decide as [->|Hne]; [done|]. intros Hs. rewrite Esq in Hz. revert Hz. split_decide as [->|Hnej]; intros Hz.
    + rewrite Hqm in Hq0. injection Hq0 as <-. apply (Hw k p0 Hp0 Hs); congruence.
    + eapply (I3 k p0 j q0); try done; congruence.
  - destruct I4 as (k & p & E & Hk & Hp). exists k, p. split; [done|]. split; [|done]. apply Hback; [done|lia].
  - intros j q Hj Hst Hni. destruct (Hlk _ _ Hj) as (q0 & Hq0 & _ & Eq & _ & Es). rewrite Eq.
    assert (Hst0 : started (p_state q0)).
    { rewrite Es in Hst. revert Hst. split_decide as [->|]; [|done]. intros _. rewrite Hqm in Hq0.
      injection Hq0 as <-. left. unfold alive. tauto. }
    destruct (I5 j q0 Hq0 Hst0 Hni) as (Hne & k & p & E & Hk & Hp). split; [done|].
    exists k, p. split; [done|]. split; [|done]. apply Hback; [done|]. intros ->.
    apply (Hno j q0 Hq0). lia.
  - intros j q Hj Hu. destruct (Hlk _ _ Hj) as (q0 & Hq0 & Ep & _ & _ & Es). rewrite Ep.
    assert (Hu0 : p_state q0 <> UNUSED).
    { rewrite Es in Hu. revert Hu. split_decide as [->|]; [|done]. intros _. rewrite Hqm in Hq0. injection Hq0 as <-. congruence. }
    destruct (I6 j q0 Hq0 Hu0) as [Hr Huq]. split; [done|]. intros k p Hk Hku Hpp.
    destruct (Hlk _ _ Hk) as (p0 & Hp0 & Ep0 & _ & _ & Es0). eapply (Huq k p0); [done| |congruence].
    rewrite Es0 in Hku. revert Hku. split_decide as [->|]; [|done]. intros _. rewrite Hqm in Hp0. injection Hp0 as <-. congruence.
  - rewrite list_lookup_total_alt, list_lookup_alter_eq, Hqm. done.
  - intros j q Hj. destruct (Hlk _ _ Hj) as (q0 & Hq0 & _ & Eq & _). rewrite Eq. by apply (Hno j).
  - intros k p Hk Hs Hc. destruct (Hlk _ _ Hk) as (p0 & Hp0 & _ & _ & Ec & Es). rewrite Es in Hs. revert Hs.
    split_decide as [_|_]; [done|]. intros Hs. apply (Hw k p0 Hp0 Hs). congruence.
Qed.

(** One slot moves between two states of a process that can run. *)
Lemma alter_alive (f : proc -> proc) i p tab cur cur' ini n :
  tab !! i = Some p -> alive (p_state p) -> alive (p_state (f p)) ->
  p_pid (f p) = p_pid p -> p_parent (f p) = p_parent p ->
  (p_state (f p) = SLEEPING -> p_chan (f p) = Cproc (Z.of_nat i) ->
     forall j q, tab !! j = Some q -> p_parent q = Z.of_nat i -> p_state q <> ZOMBIE) ->
  (p_state (f p) = RUNNING -> cur' = Z.of_nat i) ->
  (forall k q, k <> i -> tab !! k = Some q -> p_state q = RUNNING -> cur' = Z.of_nat k) ->
  life_inv (tab, cur, ini, n) -> life_inv (alter f i tab, cur', ini, n).
Proof.
  intros Hi Ha Ha' Epid Epar Hsl Hr1 Hr2 [I1 I2 I3 I4 I5 I6]; cbn in I1, I2, I3, I4, I5, I6.
  assert (Hlk : forall k q, alter f i tab !! k = Some q -> exists q0, tab !! k = Some q0
    /\ p_pid q = p_pid q0 /\ p_parent q = p_parent q0
    /\ ((k = i /\ q0 = p /\ q = f p) \/ (k <> i /\ q = q0))).
  { intros k q Hk. destruct (decide (k = i)) as [->|Hne].
    - rewrite list_lookup_alter_eq, Hi in Hk. injection Hk as <-. exists p. split_and!; try done. by left.
    - rewrite list_lookup_alter_ne in Hk by done. exists q. split_and!; try done. by right. }
  assert (Hback : forall k q, tab !! k = Some q -> alive (p_state q) ->
    exists q', alter f i tab !! k = Some q' /\ alive (p_state q')).
  { intros k q Hk Hq. destruct (decide (k = i)) as [->|Hne].
    - exists (f p). by rewrite list_lookup_alter_eq, Hi.
    - exists q. by rewrite list_lookup_alter_ne. }
  split; cbn.
  - by rewrite length_alter.
  - intros k q Hk Hr. destruct (Hlk _ _ Hk) as (q0 & Hq0 & _ & _ & [(-> & -> & ->)|(Hne & ->)]); [auto|eauto].
  - intros k q j x Hk Hj Hs Hc Hpar Hz.
    destruct (Hlk _ _ Hj) as (x0 & Hx0 & _ & Ex & Hx).
    assert (Hz0 : p_state x0 = ZOMBIE).
    { destruct Hx as [(-> & -> & ->)|(_ & ->)]; [|done]. unfold alive in Ha'. rewrite Hz in Ha'. by destruct Ha' as [|[|]]. }
    destruct (Hlk _ _ Hk) as (q0 & Hq0 & _ & _ & [(-> & -> & ->)|(Hne & ->)]).
    + apply (Hsl Hs Hc j x0 Hx0); [congruence|done].
    + eapply (I3 k q0 j x0); try done; congruence.
  - destruct I4 as (k & q & E & Hk & Hq). destruct (Hback k q Hk Hq) as (q' & ? & ?). exists k, q'. auto.
  - intros j q Hj Hst Hni. destruct (Hlk _ _ Hj) as (q0 & Hq0 & _ & -> & Hc).
    assert (Hst0 : started (p_state q0)) by (destruct Hc as [(-> & -> & ->)|(_ & ->)]; [by left|done]).
    destruct (I5 j q0 Hq0 Hst0 Hni) as (Hne & k & x & E & Hk & Hx). split; [done|].
    destruct (Hback k x Hk Hx) as (x' & ? & ?). exists k, x'. auto.
  - intros j q Hj Hu. destruct (Hlk _ _ Hj) as (q0 & Hq0 & -> & _ & Hc).
    assert (Hal : forall st, alive st -> st <> UNUSED) by (intros st [->|[->| ->]]; done).
    assert (Hu0 : p_state q0 <> UNUSED) by (destruct Hc as [(-> & -> & ->)|(_ & ->)]; auto).
    destruct (I6 j q0 Hq0 Hu0) as [Hr Huq]. split; [done|]. intros k x Hk Hku Hpp.
    destruct (Hlk _ _ Hk) as (x0 & Hx0 & Ex & _ & Hcx). eapply (Huq k x0); [done| |congruence].
    destruct Hcx as [(-> & -> & ->)|(_ & ->)]; auto.
Qed.

(** A zombie child is reaped. *)
Lemma reap_life (f : proc -> proc) i p tab cur ini n :
  tab !! i = Some p -> p_state p = ZOMBIE -> p_state (f p) = UNUSED ->
  life_inv (tab, cur, ini, n) -> life_inv (alter f i tab, cur, ini, n).
Proof.
  intros Hi Hz Hu [I1 I2 I3 I4 I5 I6]; cbn in I1, I2, I3, I4, I5, I6.
  assert (Hlk : forall k q, alter f i tab !! k = Some q -> p_state q <> UNUSED -> k <> i /\ tab !! k = Some q).
  { intros k q Hk Hq. destruct (decide (k = i)) as [->|Hne].
    - rewrite list_lookup_alter_eq, Hi in Hk. injection Hk as <-. congruence.
    - by rewrite list_lookup_alter_ne in Hk. }
  assert (Hback : forall k q, tab !! k = Some q -> alive (p_state q) -> alter f i tab !! k = Some q).
  { intros k q Hk Hq. rewrite list_lookup_alter_ne; [done|]. intros ->. rewrite Hi in Hk. injection Hk as <-.
    unfold alive in Hq. rewrite Hz in Hq. by destruct Hq as [|[|]]. }
  split; cbn.
  - by rewrite length_alter.
  - intros k q Hk Hr. destruct (Hlk k q Hk) as [_ Hq]; [congruence|eauto].
  - intros k q j x Hk Hj Hs Hc Hpar Hzx. destruct (Hlk k q Hk) as [_ Hq]; [congruence|].
    destruct (Hlk j x Hj) as [_ Hx]; [congruence|]. by apply (I3 k q j x).
  - destruct I4 as (k & q & E & Hk & Hq). exists k, q. auto.
  - intros j q Hj Hst Hni. destruct (Hlk j q Hj) as [_ Hq].
    { unfold started, alive in Hst. intros E. rewrite E in Hst. by destruct Hst as [[|[|]]|]. }
    destruct (I5 j q Hq Hst Hni) as (Hne & k & x & E & Hk & Hx). split; [done|]. exists k, x. auto.
  - intros j q Hj Hq. destruct (Hlk j q Hj Hq) as [Hne Hq']. destruct (I6 j q Hq' Hq) as [Hr Huq].
    split; [done|]. intros k x Hk Hxu Ex. destruct (Hlk k x Hk Hxu) as [_ Hx]. by apply (Huq k x).
Qed.

(** A free slot gets a pid. *)
Lemma embryo_life (f : proc -> proc) i p tab cur ini n :
  tab !! i = Some p -> p_state p = UNUSED -> p_state (f p) = EMBRYO -> p_pid (f p) = n -> 0 < n ->
  life_inv (tab, cur, ini, n) -> life_inv (alter f i tab, cur, ini, n + 1).
Proof.
  intros Hi Hu He Hp Hn [I1 I2 I3 I4 I5 I6]; cbn in I1, I2, I3, I4, I5, I6.
  assert (Hlk : forall k q, alter f i tab !! k = Some q -> (k = i /\ q = f p) \/ (k <> i /\ tab !! k = Some q)).
  { intros k q Hk. destruct (decide (k = i)) as [->|Hne].
    - rewrite list_lookup_alter_eq, Hi in Hk. injection Hk as <-. by left.
    - rewrite list_lookup_alter_ne in Hk by done. by right. }
  assert (Hback : forall k q, tab !! k = Some q -> alive (p_state q) -> alter f i tab !! k = Some q).
  { intros k q Hk Hq. rewrite list_lookup_alter_ne; [done|]. intros ->. rewrite Hi in Hk. injection Hk as <-.
    unfold alive in Hq. rewrite Hu in Hq. by destruct Hq as [|[|]]. }
  split; cbn.
  - by rewrite length_alter.
  - intros k q Hk Hr. destruct (Hlk k q Hk) as [[-> ->]|[_ Hq]]; [congruence|eauto].
  - intros k q j x Hk Hj Hs Hc Hpar Hz. destruct (Hlk k q Hk) as [[-> ->]|[_ Hq]]; [congruence|].
    destruct (Hlk j x Hj) as [[-> ->]|[_ Hx]]; [congruence|]. by apply (I3 k q j x).
  - destruct I4 as (k & q & E & Hk & Hq). exists k, q. auto.
  - intros j q Hj Hst Hni. destruct (Hlk j q Hj) as [[-> ->]|[_ Hq]].
    { unfold started, alive in Hst. rewrite He in Hst. by destruct Hst as [[|[|]]|]. }
    destruct (I5 j q Hq Hst Hni) as (Hne & k & x & E & Hk & Hx). split; [done|]. exists k, x. auto.
  - intros j q Hj Hq. destruct (Hlk j q Hj) as [[-> ->]|[Hne Hq']].
    + rewrite Hp. split; [lia|]. intros k x Hk Hxu Ex. destruct (Hlk k x Hk) as [[-> _]|[_ Hx]]; [done|].
      destruct (I6 k x Hx Hxu) as [Hr _]. lia.
    + destruct (I6 j q Hq' Hq) as [Hr Huq]. split; [lia|]. intros k x Hk Hxu Ex.
      destruct (Hlk k x Hk) as [[-> ->]|[_ Hx]]; [lia|]. by apply (Huq k x).
Qed.

(** A slot that is being set up. *)
Lemma setup_life (f : proc -> proc) i p tab cur ini n :
  tab !! i = Some p -> p_state p = EMBRYO ->
  (p_state (f p) = UNUSED
   \/ p_state (f p) = EMBRYO /\ p_pid (f p) = p_pid p
   \/ p_state (f p) = RUNNABLE /\ p_pid (f p) = p_pid p /\ p_parent (f p) <> Z.of_nat i /\
      exists k q, p_parent (f p) = Z.of_nat k /\ tab !! k = Some q /\ alive (p_state q)) ->
  life_inv (tab, cur, ini, n) -> life_inv (alter f i tab, cur, ini, n).
Proof.
  intros Hi He Hf [I1 I2 I3 I4 I5 I6]; cbn in I1, I2, I3, I4, I5, I6.
  assert (Hlk : forall k q, alter f i tab !! k = Some q -> (k = i /\ q = f p) \/ (k <> i /\ tab !! k = Some q)).
  { intros k q Hk. destruct (decide (k = i)) as [->|Hne].
    - rewrite list_lookup_alter_eq, Hi in Hk. injection Hk as <-. by left.
    - rewrite list_lookup_alter_ne in Hk by done. by right. }
  assert (Hback : forall k q, tab !! k = Some q -> alive (p_state q) -> alter f i tab !! k = Some q).
  { intros k q Hk Hq. rewrite list_lookup_alter_ne; [done|]. intros ->. rewrite Hi in Hk. injection Hk as <-.
    unfold alive in Hq. rewrite He in Hq. by destruct Hq as [|[|]]. }
  assert (Hns : p_state (f p) <> RUNNING /\ p_state (f p) <> SLEEPING /\ p_state (f p) <> ZOMBIE)
    by (destruct Hf as [->|[[-> _]|[-> _]]]; done).
  destruct Hns as (Hn1 & Hn2 & Hn3). split; cbn.
  - by rewrite length_alter.
  - intros k q Hk Hr. destruct (Hlk k q Hk) as [[-> ->]|[_ Hq]]; [done|eauto].
  - intros k q j x Hk Hj Hs Hc Hpar Hz. destruct (Hlk k q Hk) as [[-> ->]|[_ Hq]]; [done|].
    destruct (Hlk j x Hj) as [[-> ->]|[_ Hx]]; [done|]. by apply (I3 k q j x).
  - destruct I4 as (k & q & E & Hk & Hq). exists k, q. auto.
  - intros j q Hj Hst Hni. destruct (Hlk j q Hj) as [[-> ->]|[_ Hq]].
    + unfold started, alive in Hst.
      destruct Hf as [E|[[E _]|(E & _ & Hne & k & x & Ex & Hk & Hx)]]; [rewrite E in Hst; by destruct Hst as [[|[|]]|]..|].
      split; [done|]. exists k, x. auto.
    + destruct (I5 j q Hq Hst Hni) as (Hne & k & x & E & Hk & Hx). split; [done|]. exists k, x. auto.
  - intros j q Hj Hq.
    assert (Hpu : p_state p <> UNUSED) by congruence. destruct (I6 i p Hi Hpu) as [Hrp Hup].
    assert (Hfp : p_state (f p) <> UNUSED -> p_pid (f p) = p_pid p)
      by (destruct Hf as [->|[[_ ->]|(_ & -> & _)]]; done).
    destruct (Hlk j q Hj) as [[-> ->]|[Hne Hq']].
    + rewrite Hfp by done. split; [done|]. intros k x Hk Hxu Ex.
      destruct (Hlk k x Hk) as [[-> _]|[_ Hx]]; [done|]. by apply (Hup k x).
    + destruct (I6 j q Hq' Hq) as [Hr Huq]. split; [done|]. intros k x Hk Hxu Ex.
      destruct (Hlk k x Hk) as [[-> ->]|[_ Hx]]; [|by apply (Huq k x)].
      apply (Huq i p Hi Hpu). rewrite <- Hfp by done. done.
Qed.
