(* ===== verification/ProcSteps.v ===== *)
(** * The kernel as a transition system on processes ([proc.c], theorems)

    Each operation of [Proc.v] that a process or the scheduler runs is a step;
    every reachable state satisfies the invariant of [ProcLife.v]. *)
From S2P Require Import Prelude Layout Memory Locks Kalloc Vm Fs ProcData Mmap Proc ProcSched ProcLife.

(** One step of symbolic execution of a [wlp] goal. *)
Ltac wlp_step :=
  first [ apply wlp_bind | apply wlp_ret | apply wlp_gets | apply wlp_modify ]; cbn beta.
Ltac wlp_steps := repeat wlp_step.

(** The first command of a sequence, by a tactic that proves its [wlp]. *)
Ltac through tac := apply wlp_bind; eapply wlp_mono; [tac|]; cbn beta.

(** ** Code that does not touch the process table *)
Section core_rules.
Context {F : Type} `{FileLayer F}.
Implicit Types s : kstate F.

Definition keeps_core {A} (m : M (kstate F) A) : Prop := forall c, preserves (fun s => core s = c) m.

Lemma wlp_core {A} (m : M (kstate F) A) (Q : A -> kstate F -> Prop) s :
  keeps_core m -> (forall a s', core s' = core s -> Q a s') -> wlp m Q s.
Proof. intros Hm HQ. eapply wlp_mono; [by apply (Hm (core s))|]. cbn. eauto. Qed.

Lemma kc_ret {A} (a : A) : keeps_core (mret a).
Proof. intros c. auto with pres. Qed.
Lemma kc_bind {A B} (m : M (kstate F) A) (k : A -> M (kstate F) B) :
  keeps_core m -> (forall a, keeps_core (k a)) -> keeps_core (m ≫= k).
Proof. intros Hm Hk c. apply pres_bind; [apply Hm|intros a; apply Hk]. Qed.
Lemma kc_gets {A} (f : kstate F -> A) : keeps_core (gets f).
Proof. intros c. auto with pres. Qed.
Lemma kc_panic {A} msg : keeps_core (A := A) (panic msg).
Proof. intros c. auto with pres. Qed.
Lemma kc_undef {A} w : keeps_core (A := A) (undef w).
Proof. intros c. auto with pres. Qed.
Lemma kc_when b m : keeps_core m -> keeps_core (when b m).
Proof. intros Hm c. apply pres_when, Hm. Qed.
Lemma kc_for_each {A} (l : list A) body : (forall x, keeps_core (body x)) -> keeps_core (for_each l body).
Proof. intros Hb c. apply pres_for_each. intros x. apply Hb. Qed.
Lemma kc_for_ret {A R} (l : list A) (body : A -> M (kstate F) (option R)) :
  (forall x, keeps_core (body x)) -> keeps_core (for_ret l body).
Proof. intros Hb c. apply pres_for_ret. intros x. apply Hb. Qed.
Lemma kc_if {A} (b : bool) (m m' : M (kstate F) A) : keeps_core m -> keeps_core m' -> keeps_core (if b then m else m').
Proof. by destruct b. Qed.
Lemma kc_decide {A} P `{Decision P} (m m' : M (kstate F) A) :
  keeps_core m -> keeps_core m' -> keeps_core (if decide P then m else m').
Proof. by destruct (decide P). Qed.
Lemma kc_acquire l : keeps_core (acquire l).
Proof. intros c s Hs. unfold acquire, wlp. by destruct (decide _). Qed.
Lemma kc_release l : keeps_core (release l).
Proof. intros c s Hs. unfold release, wlp. by destruct (decide _). Qed.
Lemma kc_holding l : keeps_core (holding l).
Proof. apply kc_gets. Qed.
Lemma kc_on_k {A} (m : M kst A) : keeps_core (on_k m).
Proof. intros c s Hs. unfold on_k, zoom, wlp. by destruct (m _). Qed.
Lemma kc_on_f {A} (m : M F A) : keeps_core (on_f m).
Proof. intros c s Hs. unfold on_f, zoom, wlp. by destruct (m _). Qed.
Lemma kc_cprintf f a : keeps_core (cprintf f a).
Proof. by intros c s. Qed.
Lemma kc_pget i : keeps_core (pget i).
Proof. unfold pget. apply kc_if; [apply kc_undef|apply kc_gets]. Qed.
Lemma kc_aget i : keeps_core (aget i).
Proof. unfold aget. apply kc_if; [apply kc_undef|apply kc_gets]. Qed.
Lemma kc_aset i f : keeps_core (aset i f).
Proof. unfold aset. apply kc_if; [apply kc_undef|by intros c s]. Qed.
Lemma kc_myproc : keeps_core myproc.
Proof. apply kc_gets. Qed.
Lemma kc_set_cr3 v : keeps_core (modify (set_cr3 v)).
Proof. by intros c s. Qed.
Lemma kc_set_first v : keeps_core (modify (set_first v)).
Proof. by intros c s. Qed.
End core_rules.

Create HintDb kc.
#[export] Hint Resolve kc_ret kc_bind kc_gets kc_panic kc_undef kc_when kc_for_each kc_for_ret kc_if kc_decide
  kc_acquire kc_release kc_holding kc_on_k kc_on_f kc_cprintf kc_pget kc_aget kc_aset kc_myproc kc_set_cr3 kc_set_first : kc.

(** Proves [keeps_core] of a program built from the constructors above. *)
Ltac kc_step :=
  match goal with
  | |- keeps_core (let '(_, _) := ?x in _) => destruct x
  | |- keeps_core (match ?x with _ => _ end) => destruct x
  | |- keeps_core (_ ≫= _) => apply kc_bind; [|intros ?]
  | |- keeps_core (when _ _) => apply kc_when
  | |- keeps_core (for_each _ _) => apply kc_for_each; intros ?
  | |- keeps_core (for_ret _ _) => apply kc_for_ret; intros ?
  | |- keeps_core _ => solve [auto with kc nocore]
  end.
Ltac kc := repeat (cbn zeta; kc_step).

Section kc_ops.
Context {F : Type} `{FileLayer F} (kend kdata kpgdir : Z).

Lemma kc_curproc : keeps_core (F := F) curproc.
Proof. unfold curproc. kc. Qed.
Lemma kc_switchuvm i : keeps_core (F := F) (switchuvm i).
Proof. unfold switchuvm. kc. Qed.
Lemma kc_switchkvm : keeps_core (F := F) (switchkvm kpgdir).
Proof. unfold switchkvm. kc. Qed.
Lemma kc_sched : keeps_core (F := F) sched.
Proof. unfold sched. kc. Qed.
Lemma kc_tf_store i off v : keeps_core (F := F) (tf_store i off v).
Proof. unfold tf_store. kc. Qed.
Lemma kc_tf_store16 i off v : keeps_core (F := F) (tf_store16 i off v).
Proof. unfold tf_store16. kc. Qed.
Lemma kc_map_fork np : keeps_core (F := F) (map_fork np).
Proof.
  assert (keeps_core (F := F) zeroed_page) by (unfold zeroed_page; kc).
  assert (forall f p, keeps_core (F := F) (read_page f p)) by (intros; unfold read_page; kc).
  assert (forall f p, keeps_core (F := F) (set_offset f p)) by (intros; unfold set_offset; kc).
  assert (keeps_core (F := F) mallock) by (unfold mallock; kc).
  assert (keeps_core (F := F) curproc) by apply kc_curproc.
  unfold map_fork, fork_page. kc.
Qed.
End kc_ops.
#[export] Hint Resolve kc_curproc kc_switchuvm kc_switchkvm kc_sched kc_tf_store kc_tf_store16 kc_map_fork : kc.

(** ** Updates of the table *)
Section table.
Context {F : Type}.
Implicit Types s : kstate F.

(** The table and the rest of the core with one slot changed. *)
Lemma core_upd i f s : core (upd_proc i f s) = (alter f (Z.to_nat i) (ks_proc s), ks_cur s, ks_initproc s, ks_nextpid s).
Proof. done. Qed.

Lemma alter_twice (f g : proc -> proc) i (l : list proc) : alter g i (alter f i l) = alter (g ∘ f) i l.
Proof. revert i. induction l as [|p l IH]; intros [|i]; cbn; try done. by rewrite IH. Qed.

Lemma upd_proc_compose i f g s : upd_proc i g (upd_proc i f s) = upd_proc i (g ∘ f) s.
Proof. unfold upd_proc, set_procs; cbn. by rewrite alter_twice. Qed.

Lemma wlp_pset i f (Q : unit -> kstate F -> Prop) s :
  (i <> NULL -> Q tt (upd_proc i f s)) -> wlp (pset i f) Q s.
Proof. intros HQ. unfold pset. destruct (i =? NULL) eqn:E; [done|]. apply HQ. lia. Qed.

Lemma wlp_pget i (Q : proc -> kstate F -> Prop) s :
  (i <> NULL -> Q (proc_at s i) s) -> wlp (pget i) Q s.
Proof. intros HQ. unfold pget. destruct (i =? NULL) eqn:E; [done|]. apply HQ. lia. Qed.

(** Two updates of a slot in a row are one. *)
Lemma wlp_pset_pset {A} i f g (k : unit -> M (kstate F) A) Q s :
  wlp (pset i (g ∘ f) ≫= k) Q s -> wlp (pset i f ≫= (fun _ => pset i g ≫= k)) Q s.
Proof.
  unfold wlp, mbind, M_bind, pset. destruct (i =? NULL); [done|]. cbn. by rewrite upd_proc_compose.
Qed.

Lemma proc_at_Some s i : life_inv (core s) -> 0 <= i < NPROC -> ks_proc s !! Z.to_nat i = Some (proc_at s i).
Proof.
  intros Hl Hi. pose proof (li_len _ Hl) as Hlen. cbn in Hlen. apply list_lookup_lookup_total_lt. rewrite Hlen. unfold NPROC in *. lia.
Qed.

Lemma proc_at_Some_inv s k p : ks_proc s !! k = Some p -> proc_at s (Z.of_nat k) = p.
Proof. intros Hk. unfold proc_at. rewrite Nat2Z.id. by apply list_lookup_total_correct. Qed.

Lemma life_len_lt s k p : life_inv (core s) -> ks_proc s !! k = Some p -> 0 <= Z.of_nat k < NPROC.
Proof. intros Hl Hk%lookup_lt_Some. pose proof (li_len _ Hl) as Hlen. cbn in Hlen. rewrite Hlen in Hk. unfold NPROC in *. lia. Qed.
End table.

(** The process [me] runs. *)
Record running {F} (me : Z) (s : kstate F) : Prop := Running {
  rn_life : life_inv (core s);
  rn_cur : ks_cur s = me;
  rn_me : 0 <= me < NPROC;
  rn_state : p_state (proc_at s me) = RUNNING }.
(** The scheduler runs. *)
Record idle {F} (s : kstate F) : Prop := Idle { id_life : life_inv (core s); id_cur : ks_cur s = NULL }.
(** A process has left the CPU, the scheduler has not taken over yet. *)
Definition switched {F} (s : kstate F) : Prop := life_inv (ks_proc s, NULL, ks_initproc s, ks_nextpid s).

Section moves.
Context {F : Type}.
Implicit Types s : kstate F.

Lemma running_core me s s' : core s' = core s -> running me s -> running me s'.
Proof.
  intros E [H1 H2 H3 H4]. unfold core in E. injection E as Ep Ec Ei En.
  split; [unfold core; by rewrite Ep, Ec, Ei, En|congruence|done|]. unfold proc_at in *. by rewrite Ep.
Qed.

(** Nothing else runs, so the scheduler finds no running process. *)
Lemma switched_no_running s k p : switched s -> ks_proc s !! k = Some p -> p_state p <> RUNNING.
Proof. intros Hs Hk Hr. pose proof (li_run _ Hs k p Hk Hr) as E. cbn in E. unfold NULL in E. lia. Qed.

Lemma life_free_cur tab ini n cur :
  life_inv (tab, NULL, ini, n) -> life_inv (tab, cur, ini, n).
Proof.
  intros [I1 I2 I3 I4 I5 I6]; cbn in *. split; cbn; try done. intros k p Hk Hr.
  specialize (I2 k p Hk Hr). unfold NULL in I2. lia.
Qed.

(** A change of one slot that leaves the running process running. *)
Lemma running_upd me i f s :
  running me s ->
  life_inv (alter f (Z.to_nat i) (ks_proc s), ks_cur s, ks_initproc s, ks_nextpid s) ->
  (0 <= i -> i = me -> p_state (f (proc_at s me)) = RUNNING) -> 0 <= i ->
  running me (upd_proc i f s).
Proof.
  intros [H1 H2 H3 H4] Hl Hf Hi. split; [by rewrite core_upd|done|done|].
  pose proof (proc_at_Some s me H1 H3) as Hme. unfold proc_at at 1; cbn.
  destruct (decide (i = me)) as [->|Hne].
  - erewrite list_lookup_total_correct; [apply Hf; lia|]. by rewrite list_lookup_alter_eq, Hme.
  - erewrite list_lookup_total_correct; [exact H4|]. rewrite list_lookup_alter_ne by lia. exact Hme.
Qed.

(** A change the invariant does not see. *)
Lemma running_same me i f s :
  running me s -> 0 <= i -> (forall p, p_state (f p) = p_state p /\ p_chan (f p) = p_chan p /\ p_pid (f p) = p_pid p /\ p_parent (f p) = p_parent p) ->
  running me (upd_proc i f s).
Proof.
  intros Hr Hi Hf. apply running_upd; [done| | |done].
  - apply alter_life; [|apply Hr]. intros p _. destruct (Hf p) as (E1 & E2 & E3 & E4). split_and!; try done. by left.
  - intros _ _. destruct (Hf (proc_at s me)) as [-> _]. apply Hr.
Qed.

(** The running process changes its own state. *)
Lemma running_leave me f s :
  running me s ->
  (p_state (f (proc_at s me)) = RUNNABLE \/ p_state (f (proc_at s me)) = SLEEPING) ->
  p_pid (f (proc_at s me)) = p_pid (proc_at s me) -> p_parent (f (proc_at s me)) = p_parent (proc_at s me) ->
  (p_state (f (proc_at s me)) = SLEEPING -> p_chan (f (proc_at s me)) = Cproc me ->
     forall j q, ks_proc s !! j = Some q -> p_parent q = me -> p_state q <> ZOMBIE) ->
  switched (upd_proc me f s).
Proof.
  intros [H1 H2 H3 H4] Hst Hpid Hpar Hsl. unfold switched; cbn.
  pose proof (proc_at_Some s me H1 H3) as Hme.
  assert (Ha : p_state (f (proc_at s me)) <> RUNNING) by (destruct Hst; congruence).
  eapply alter_alive; try done.
  - rewrite H4. unfold alive. tauto.
  - unfold alive. tauto.
  - rewrite Z2Nat.id by lia. exact Hsl.
  - intros k q Hk Hq Hr. destruct Hk. pose proof (li_run _ H1 k q Hq Hr) as E. cbn in E. lia.
Qed.
End moves.

(** ** The operations *)
Section ops.
Context {F : Type} `{FileLayer F} (kend kdata kpgdir forkret_addr trapret_addr : Z).
Implicit Types s : kstate F.

Lemma wlp_keep {A} me (m : M (kstate F) A) (Q : A -> kstate F -> Prop) s :
  keeps_core m -> running me s -> (forall a s', running me s' -> core s' = core s -> Q a s') -> wlp m Q s.
Proof. intros Hm Hr HQ. apply wlp_core; [done|]. intros a s' E. apply HQ; [by eapply running_core|done]. Qed.

Lemma pres_keep {A} me (m : M (kstate F) A) : keeps_core m -> preserves (running me) m.
Proof. intros Hm s Hs. by eapply wlp_keep. Qed.

Lemma pres_pset_same me i f :
  0 <= i ->
  (forall p, p_state (f p) = p_state p /\ p_chan (f p) = p_chan p /\ p_pid (f p) = p_pid p /\ p_parent (f p) = p_parent p) ->
  preserves (running (F := F) me) (pset i f).
Proof. intros Hi Hf s Hs. apply wlp_pset. intros _. by apply running_same. Qed.

Lemma switched_core s s' : core s' = core s -> switched s -> switched s'.
Proof. unfold switched, core. intros [= -> _ -> ->]. done. Qed.

Lemma wlp_sched s : switched s -> wlp sched (fun _ => switched) s.
Proof. intros Hs. apply wlp_core; [apply kc_sched|]. intros _ s' E. by eapply switched_core. Qed.

Lemma yield_ok me s : running me s -> wlp yield_enter (fun _ => switched) s.
Proof.
  intros Hr. unfold yield_enter. apply wlp_bind. eapply wlp_keep; [apply kc_acquire|done|].
  intros _ s1 H1 _. unfold myproc. wlp_steps. rewrite (rn_cur _ _ H1). apply wlp_pset. intros _. apply wlp_sched.
  apply (running_leave me); auto.
Qed.

Lemma sleep_ok me chan lk s :
  running me s ->
  (chan = Cproc me -> forall j q, ks_proc s !! j = Some q -> p_parent q = me -> p_state q <> ZOMBIE) ->
  wlp (sleep_enter chan lk) (fun _ => switched) s.
Proof.
  intros Hr Hz. unfold sleep_enter, myproc. wlp_steps. rewrite (rn_cur _ _ Hr).
  destruct (me =? NULL) eqn:E; [done|]. destruct lk as [lk|]; [|done]. apply wlp_bind.
  apply (wlp_keep me); [kc|done|]. intros _ s1 H1 E1. apply wlp_pset_pset, wlp_bind, wlp_pset. intros _.
  apply wlp_sched. apply (running_leave me); [done|by right|done|done|]. cbn. intros _ Hc.
  injection E1 as -> _ _ _. by apply Hz.
Qed.

Lemma dispatch_return_ok s : switched s -> wlp (dispatch_return kpgdir) (fun _ => idle) s.
Proof.
  intros Hs. unfold dispatch_return. apply wlp_bind, wlp_core; [apply kc_switchkvm|].
  intros _ s1 E. apply wlp_modify. pose proof (switched_core _ _ E Hs). split; done.
Qed.

Lemma sleep_leave_ok me lk s : running me s -> wlp (sleep_leave lk) (fun _ => running me) s.
Proof.
  intros Hr. unfold sleep_leave, myproc. wlp_steps. rewrite (rn_cur _ _ Hr).
  apply wlp_pset. intros _. apply pres_keep; [kc|]. apply running_upd; [done| | |apply Hr].
  - destruct Hr as [H1 H2 H3 H4]. pose proof (proc_at_Some s me H1 H3) as Hme.
    eapply (alter_alive _ _ (proc_at s me) _ me); cbn; rewrite ?H4; unfold alive; auto; try done.
    + intros _. lia.
    + intros k q _ Hk Hq. pose proof (li_run _ H1 k q Hk Hq) as E. cbn in E. lia.
    + by rewrite <- H2.
  - intros _ _. apply Hr.
Qed.

Lemma wakeup_ok me chan s : running me s -> wlp (wakeup chan) (fun _ => running me) s.
Proof.
  intros Hr. unfold wakeup. apply wlp_bind. eapply wlp_keep; [apply kc_acquire|done|]. intros _ s1 H1 _.
  unfold wakeup1. apply wlp_bind, wlp_modify. apply pres_keep; [apply kc_release|].
  destruct H1 as [H1 H2 H3 H4]. pose proof (proc_at_Some _ _ H1 H3) as Hme. split; cbn; try done.
  - unfold core; cbn. by apply wakeup_life.
  - unfold proc_at; cbn. erewrite list_lookup_total_correct; [|unfold wakeup1_table; rewrite list_lookup_fmap, Hme; done].
    unfold wake_proc. rewrite decide_False; [done|]. intros [E _]. congruence.
Qed.

(** A scan for a pid that changes the slot found. *)
Lemma find_proc_ok {A} me pid (found : Z -> M (kstate F) A) none s :
  (forall i, 0 <= i -> preserves (running me) (found i)) -> running me s ->
  wlp (find_proc pid found none) (fun _ => running me) s.
Proof.
  intros Hf Hr. unfold find_proc. apply wlp_bind. eapply wlp_keep; [apply kc_acquire|done|]. intros _ s1 H1 _.
  apply wlp_bind. eapply (wlp_for_ret _ _ (fun _ => running me)); [exact H1| |].
  - intros k i s2 Hk H2. apply list_elem_of_lookup_2, elem_of_seqZ in Hk.
    apply wlp_bind, wlp_pget. intros _. destruct (p_pid _ =? pid); [|by apply wlp_ret].
    apply wlp_bind. eapply wlp_mono; [apply Hf; [lia|done]|]. intros a s3 H3.
    apply wlp_bind. eapply wlp_keep; [apply kc_release|exact H3|]. intros _ s4 H4 _. apply wlp_ret.
    by apply wlp_ret.
  - intros s2 H2. apply wlp_bind. eapply wlp_keep; [apply kc_release|done|]. intros _ s4 H4 _. by apply wlp_ret.
Qed.

Lemma kill_ok me pid s : running me s -> wlp (kill pid) (fun _ => running me) s.
Proof.
  apply find_proc_ok. intros i Hi. apply pres_bind; [by apply pres_pset_same|]. intros _ s1 H1.
  apply wlp_bind, wlp_pget. intros _. apply wlp_bind. eapply (wlp_mono _ (fun _ => running me)); [|done].
  apply wlp_when; [|done]. intros Hs%bool_decide_eq_true. apply wlp_pset. intros _.
  destruct (decide (i = me)) as [->|Hne]; [destruct H1; congruence|].
  apply running_upd; [done| |done|done]. apply alter_life; [|apply H1]. intros p Hp.
  assert (E : proc_at s1 i = p) by by apply list_lookup_total_correct.
  split_and!; try done. right. split; [congruence|done].
Qed.

Lemma setnice_ok me pid v s : running me s -> wlp (setnice pid v) (fun _ => running me) s.
Proof.
  intros Hr. unfold setnice. destruct (_ || _); [done|]. apply find_proc_ok; [|done]. intros i Hi.
  apply pres_bind; [by apply pres_pset_same|]. intros _. apply pres_ret.
Qed.
End ops.

(** ** [exit] *)
Section exit.
Context {F : Type} `{FileLayer F}.
Implicit Types s : kstate F.

Lemma reparent_table me ini i s :
  0 <= i -> wlp (reparent me ini i) (fun _ s' => s' = set_procs (rep_table me ini (ks_proc s) i) s) s.
Proof.
  intros Hi. unfold reparent. apply wlp_bind, wlp_pget. intros _. unfold rep_table, proc_at.
  destruct (p_parent (ks_proc s !!! Z.to_nat i) =? me); [|by destruct s].
  apply wlp_when; [|done]. intros _. apply wlp_bind, wlp_pset. intros _. apply wlp_bind, wlp_pget. intros _.
  unfold proc_at, upd_proc; cbn. rewrite bool_decide_decide. cbn zeta. by destruct (decide _).
Qed.

(** [exit] under [ptable.lock] turns the table into [exit_table] and leaves the
    rest of the core as it is. *)
Lemma exit_locked_core me ini s :
  wlp (exit_locked me ini)
    (fun _ s' => core s' = (exit_table me ini (ks_proc s), ks_cur s, ks_initproc s, ks_nextpid s)) s.
Proof.
  unfold exit_locked. apply wlp_bind, wlp_pget. intros _. unfold wakeup1. apply wlp_bind, wlp_modify, wlp_bind.
  set (t0 := wakeup1_table _ _). eapply wlp_mono.
  - apply (wlp_for_each _ _ (fun k s' => s' = set_procs (foldl (rep_table me ini) t0 (take k (seqZ 0 NPROC))) s)); [done|].
    intros k i s' Hk ->. pose proof Hk as Hi. apply list_elem_of_lookup_2, elem_of_seqZ in Hi.
    eapply wlp_mono; [apply reparent_table; lia|]. intros _ s2 ->. cbn.
    by rewrite (take_S_r _ _ i Hk), foldl_snoc.
  - intros _ s2 ->. rewrite firstn_all. apply wlp_bind, wlp_pset. intros _.
    apply wlp_core; [apply kc_sched|]. intros _ s3 E. rewrite E, core_upd. unfold exit_table, t0, proc_at.
    generalize (seqZ 0 NPROC). reflexivity.
Qed.

Lemma exit_ok me s : running me s -> wlp exit (fun _ => switched) s.
Proof.
  intros Hr. unfold exit, myproc. wlp_steps. rewrite (rn_cur _ _ Hr).
  destruct (me =? ks_initproc s) eqn:Ei; [done|].
  pose (I := fun s' => running me s' /\ ks_initproc s' = ks_initproc s).
  assert (HI : forall A (m : M (kstate F) A), keeps_core m -> preserves I m).
  { intros A m Hm s' [H1 H2]. eapply wlp_keep; [done|exact H1|]. intros _ s2 H3 E. split; [done|].
    unfold core in E. injection E as _ _ E _. congruence. }
  assert (Hs : forall (f : proc -> proc), (forall p, p_state (f p) = p_state p /\ p_chan (f p) = p_chan p /\ p_pid (f p) = p_pid p /\ p_parent (f p) = p_parent p) ->
    preserves I (pset me f)).
  { intros f Hf s' [H1 H2]. apply wlp_pset. intros _. split; [apply running_same; [done|apply H1|done]|done]. }
  through ltac:(apply (pres_for_each I); [|by split]); [|intros _ s1 H1].
  { intros fd. apply pres_bind; [apply HI; kc|]. intros p. apply pres_when.
    apply pres_bind; [apply HI; kc|]. intros _. by apply Hs. }
  through ltac:(apply (HI _ _ (kc_on_f _)), H1). intros _ s2 H2.
  through ltac:(apply (HI _ _ (kc_pget _)), H2). intros p s3 H3.
  through ltac:(apply (HI _ _ (kc_on_f _)), H3). intros _ s4 H4.
  through ltac:(apply (HI _ _ (kc_on_f _)), H4). intros _ s5 H5.
  through ltac:(by apply (Hs (with_cwd NULL)), H5). intros _ s6 H6.
  through ltac:(apply (HI _ _ (kc_acquire _)), H6). intros _ s7 [[H7 Hc Hm Hst] E7].
  eapply wlp_mono; [apply exit_locked_core|]. cbn. intros _ s8 [= E1 E2 E3 E4].
  unfold switched. rewrite E1, E3, E4, E7. apply exit_table_life; [|done|lia|done].
  unfold core in H7. by rewrite Hc, E7 in H7.
Qed.
End exit.

(** ** The scheduler and [wait] *)
Section sched.
Context {F : Type} `{FileLayer F} (kend : Z).
Implicit Types s : kstate F.

Lemma dispatch_ok i s :
  idle s -> 0 <= i < NPROC -> p_state (proc_at s i) = RUNNABLE ->
  wlp (dispatch i 0) (fun p s' => running p s') s.
Proof.
  intros [H1 H2] Hi Hrun. unfold dispatch. apply wlp_bind, wlp_gets.
  pose proof (pick_spec_from (ks_proc s) (seqZ 0 NPROC) 0 i Hrun) as Hpick. unfold pick.
  revert Hpick. generalize (foldl (pick_step (ks_proc s)) (0, i) (seqZ 0 NPROC)). intros [t p] (_ & Hp & Hin & _).
  assert (Hr : 0 <= p < NPROC) by (destruct Hin as [->|Hin%elem_of_seqZ]; lia).
  apply wlp_bind, wlp_modify, wlp_bind, wlp_pset. intros _.
  set (s1 := upd_proc p _ (set_cur p s)).
  pose proof H1 as Hl. unfold core in Hl. rewrite H2 in Hl.
  assert (Hl1 : life_inv (ks_proc s1, NULL, ks_initproc s1, ks_nextpid s1)).
  { cbn. apply alter_life; [|done]. intros q _. split_and!; try done. by left. }
  assert (Hp1 : p_state (proc_at s1 p) = RUNNABLE).
  { pose proof (proc_at_Some s p H1 Hr) as Hq. unfold proc_at; cbn.
    erewrite list_lookup_total_correct; [|rewrite list_lookup_alter_eq, Hq; done]. exact Hp. }
  apply wlp_bind, wlp_core; [apply kc_switchuvm|]. intros _ s2 E. unfold core in E. injection E as E1 E2 E3 E4.
  apply wlp_bind, wlp_pset. intros _. set (s3 := upd_proc p _ s2).
  assert (H3 : running p s3).
  { assert (Hq : ks_proc s2 !! Z.to_nat p = Some (proc_at s1 p)).
    { rewrite E1. apply list_lookup_lookup_total_lt. pose proof (li_len _ Hl1) as Hlen. cbn [fst] in Hlen. rewrite Hlen.
      unfold NPROC in *. lia. }
    split; [|cbn; by rewrite E2|done|].
    - unfold s3. rewrite core_upd, E1, E2, E3, E4. eapply alter_alive; try exact Hl1; try done.
      + by rewrite <- E1.
      + rewrite Hp1. unfold alive. tauto.
      + unfold alive. tauto.
      + intros _. cbn. lia.
      + intros k q Hk Hq' Hr'. pose proof (li_run _ Hl1 k q Hq' Hr') as E. cbn [fst snd] in E. unfold NULL in E. lia.
    - unfold proc_at; cbn. erewrite list_lookup_total_correct; [|rewrite list_lookup_alter_eq, Hq; done]. done. }
  apply wlp_bind, wlp_pget. intros _. destruct (t =? 0); [done|].
  apply wlp_bind, wlp_pset. intros _. apply wlp_ret. apply running_same; [done|lia|done].
Qed.

Lemma scheduler_scan_ok p s :
  idle s -> 0 <= p ->
  wlp (scheduler_scan p) (fun r s' => match r with Some c => running c s' | None => idle s' end) s.
Proof.
  intros Hs Hp. unfold scheduler_scan. apply (wlp_for_ret _ _ (fun _ => idle)); [done| |done].
  intros k i s' Hk Hi. apply list_elem_of_lookup_2, elem_of_seqZ in Hk.
  apply wlp_bind, wlp_pget. intros _. split_decide as [Hr|_]; [|done].
  apply wlp_bind. eapply wlp_mono; [apply dispatch_ok; [done|lia|done]|]. intros c s2 H2. by apply wlp_ret.
Qed.

(** The scan of [wait]: it reaps a zombie child, or there is none. *)
Lemma wait_scan_ok me s :
  running me s ->
  wlp (wait_scan kend me) (fun r s' => running me s' /\
    (r.1 = None -> forall j q, ks_proc s' !! j = Some q -> p_parent q = me -> p_state q <> ZOMBIE)) s.
Proof.
  intros Hr. unfold wait_scan.
  pose (I := fun n s' => running me s' /\ forall j q, (j < n)%nat -> ks_proc s' !! j = Some q -> p_parent q = me -> p_state q <> ZOMBIE).
  pose (Q := fun (r : option Z) s' => running me s' /\
    (r = None -> forall j q, ks_proc s' !! j = Some q -> p_parent q = me -> p_state q <> ZOMBIE)).
  apply wlp_bind. apply (wlp_mono _ Q); [|by intros r s' HQ].
  apply (wlp_for_ret _ _ I); [split; [done|lia]| |].
  - intros k i s1 Hk [H1 Hz]. apply lookup_seqZ in Hk as [-> Hk]. rewrite Z.add_0_l.
    assert (Hi : 0 <= Z.of_nat k < NPROC) by (unfold NPROC in *; lia).
    pose proof (proc_at_Some s1 _ (rn_life _ _ H1) Hi) as Hki. rewrite Nat2Z.id in Hki.
    apply wlp_bind, wlp_pget. intros _.
    assert (Hnext : (p_parent (proc_at s1 (Z.of_nat k)) = me -> p_state (proc_at s1 (Z.of_nat k)) <> ZOMBIE) -> I (Datatypes.S k) s1).
    { intros Hn. split; [done|]. intros j q Hj Hq. destruct (decide (j = k)) as [->|Hne]; [|apply (Hz j q); [lia|done]].
      rewrite Hki in Hq. injection Hq as <-. exact Hn. }
    destruct (p_parent _ =? me) eqn:Ep; cbn [negb]; [|apply wlp_ret, Hnext; lia].
    split_decide as [Hzk|Hzk]; [|by apply wlp_ret, Hnext].
    assert (Hne : Z.of_nat k <> me) by (intros E; rewrite E in Hzk; destruct H1; congruence).
    set (pk := proc_at s1 (Z.of_nat k)) in *.
    pose (J := fun s' => running me s' /\ p_state (proc_at s' (Z.of_nat k)) = ZOMBIE).
    assert (HJ : forall s', core s' = core s1 -> J s').
    { intros s' E. split; [by eapply running_core|]. unfold core in E. injection E as E _ _ _. unfold proc_at. by rewrite E. }
    assert (HJk : forall s' s2, core s2 = core s' -> J s' -> J s2).
    { intros s' s2 E [J1 J2]. split; [by eapply running_core|]. unfold core in E. injection E as E _ _ _. unfold proc_at. by rewrite E. }
    apply wlp_bind, wlp_core; [apply kc_on_k|]. intros _ s2 E2. pose proof (HJ s2 E2) as J2.
    apply wlp_bind, wlp_pset. intros _.
    assert (J3 : J (upd_proc (Z.of_nat k) (with_kstack 0) s2)).
    { split; [apply running_same; [apply J2|lia|done]|]. unfold proc_at; cbn. rewrite Nat2Z.id.
      pose proof (proc_at_Some s2 _ (rn_life _ _ (proj1 J2)) Hi) as Hq. rewrite Nat2Z.id in Hq.
      erewrite list_lookup_total_correct; [|rewrite list_lookup_alter_eq, Hq; done]. apply J2. }
    apply wlp_bind, wlp_core; [apply kc_on_k|]. intros _ s4 E4. pose proof (HJk _ _ E4 J3) as [H4 Z4].
    do 4 apply wlp_pset_pset. apply wlp_bind, wlp_pset. intros _. apply wlp_ret. split; [|done].
    pose proof (proc_at_Some s4 _ (rn_life _ _ H4) Hi) as Hq. rewrite Nat2Z.id in Hq.
    apply running_upd; [done| |lia|lia]. rewrite Nat2Z.id. eapply reap_life; try done. apply H4.
  - intros s' [H1 Hz]. split; [done|]. intros _ j q Hj. apply (Hz j q); [|done].
    apply lookup_lt_Some in Hj. pose proof (li_len _ (rn_life _ _ H1)) as Hlen. cbn in Hlen. rewrite Hlen in Hj.
    by rewrite length_seqZ.
Qed.

Lemma wait_pass_ok me s :
  running me s -> wlp (wait_pass kend) (fun r s' => match r with WDone _ => running me s' | WSleep => switched s' end) s.
Proof.
  intros Hr. unfold wait_pass, myproc. apply wlp_bind, wlp_gets. rewrite (rn_cur _ _ Hr).
  through ltac:(by apply wait_scan_ok). intros [[pid|] hk] s1 [H1 Hz].
  - apply wlp_bind. eapply wlp_keep; [apply kc_release|done|]. intros _ s2 H2 _. by apply wlp_ret.
  - apply wlp_bind, wlp_pget. intros _. destruct (negb hk || _).
    + apply wlp_bind. eapply wlp_keep; [apply kc_release|done|]. intros _ s2 H2 _. by apply wlp_ret.
    + through ltac:(apply (sleep_ok me); [done|]; intros _; by apply Hz). intros _ s2 H2. by apply wlp_ret.
Qed.

Lemma wait_ok me s :
  running me s -> wlp (wait kend) (fun r s' => match r with WDone _ => running me s' | WSleep => switched s' end) s.
Proof.
  intros Hr. unfold wait. apply wlp_bind. eapply wlp_keep; [apply kc_acquire|done|]. intros _ s1 H1 _. by apply wait_pass_ok.
Qed.

Lemma wait_resume_ok me s :
  running me s -> wlp (wait_resume kend) (fun r s' => match r with WDone _ => running me s' | WSleep => switched s' end) s.
Proof.
  intros Hr. unfold wait_resume. through ltac:(by apply (sleep_leave_ok me)). intros _ s1 H1. by apply wait_pass_ok.
Qed.
End sched.

(** ** [allocproc], [fork], [growproc] *)
(** The process [me] runs and sets up slot [i], whose parent is set when [b]. *)
Record setup {F} (me i : Z) (b : bool) (s : kstate F) : Prop := Setup {
  su_run : running me s;
  su_ix : 0 <= i < NPROC;
  su_state : p_state (proc_at s i) = EMBRYO;
  su_parent : b = true -> p_parent (proc_at s i) = me }.

Section fork.
Context {F : Type} `{FileLayer F} (kend kdata forkret_addr trapret_addr : Z).
Implicit Types s : kstate F.

Lemma setup_core me i b s s' : core s' = core s -> setup me i b s -> setup me i b s'.
Proof.
  intros E [H1 H2 H3 H4]. split; [by eapply running_core|done|..];
    unfold core in E; injection E as E _ _ _; unfold proc_at in *; by rewrite E.
Qed.

Lemma setup_ne me i b s : setup me i b s -> i <> me.
Proof. intros [[_ _ _ H1] _ H2 _] ->. congruence. Qed.

Lemma wlp_setup {A} me i b (m : M (kstate F) A) (Q : A -> kstate F -> Prop) s :
  keeps_core m -> setup me i b s -> (forall a s', setup me i b s' -> Q a s') -> wlp m Q s.
Proof. intros Hm Hs HQ. apply wlp_core; [done|]. intros a s' E. apply HQ. by eapply setup_core. Qed.

Lemma pres_setup {A} me i b (m : M (kstate F) A) : keeps_core m -> preserves (setup me i b) m.
Proof. intros Hm s Hs. by eapply wlp_setup. Qed.

(** The slot with [f] applied. *)
Lemma setup_lookup me i b f s : setup me i b s -> proc_at (upd_proc i f s) i = f (proc_at s i).
Proof.
  intros [H1 H2 _ _]. pose proof (proc_at_Some s i (rn_life _ _ H1) H2) as Hq. unfold proc_at at 1; cbn.
  apply list_lookup_total_correct. by rewrite list_lookup_alter_eq, Hq.
Qed.

Lemma setup_upd me i b b' f s :
  setup me i b s ->
  (forall p, p_state (f p) = p_state p /\ p_pid (f p) = p_pid p) ->
  (b' = true -> p_parent (f (proc_at s i)) = me) ->
  setup me i b' (upd_proc i f s).
Proof.
  intros Hs Hf Hb. pose proof (setup_ne _ _ _ _ Hs) as Hne. pose proof (setup_lookup _ _ _ f _ Hs) as Hl.
  destruct Hs as [H1 H2 H3 H4]. split; [|done|rewrite Hl; by rewrite (proj1 (Hf _))|by rewrite Hl].
  apply running_upd; [done| |done|lia].
  eapply setup_life; [apply proc_at_Some; [apply H1|done]|done| |apply H1].
  right. left. destruct (Hf (proc_at s i)) as [-> ->]. done.
Qed.

Lemma pres_setup_pset me i b f :
  (forall p, p_state (f p) = p_state p /\ p_pid (f p) = p_pid p /\ p_parent (f p) = p_parent p) ->
  preserves (setup (F := F) me i b) (pset i f).
Proof.
  intros Hf s Hs. apply wlp_pset. intros _. eapply setup_upd; [done|intros p; by destruct (Hf p) as (-> & -> & _)|].
  intros ->. destruct (Hf (proc_at s i)) as (_ & _ & ->). by apply (su_parent _ _ _ _ Hs).
Qed.

(** The slot is given up. *)
Lemma setup_drop me i b s : setup me i b s -> wlp (pset i (with_state UNUSED)) (fun _ => running me) s.
Proof.
  intros Hs. pose proof (setup_ne _ _ _ _ Hs) as Hne. destruct Hs as [H1 H2 H3 H4]. apply wlp_pset. intros _.
  apply running_upd; [done| |done|lia]. eapply setup_life; [apply proc_at_Some; [apply H1|done]|done| |apply H1]. by left.
Qed.

(** The slot becomes a process. *)
Lemma setup_ready me i s : setup me i true s -> wlp (pset i (with_state RUNNABLE)) (fun _ => running me) s.
Proof.
  intros Hs. pose proof (setup_ne _ _ _ _ Hs) as Hne. destruct Hs as [H1 H2 H3 H4]. apply wlp_pset. intros _.
  apply running_upd; [done| |done|lia]. eapply setup_life; [apply proc_at_Some; [apply H1|done]|done| |apply H1].
  right. right. cbn. rewrite (H4 eq_refl). split_and!; try done; [lia|]. destruct H1 as [I1 I2 I3 I4].
  exists (Z.to_nat me), (proc_at s me). split; [lia|]. split; [by apply proc_at_Some|]. rewrite I4. unfold alive. tauto.
Qed.

Lemma allocproc_ok me s :
  running me s -> ks_nextpid s < 2147483647 ->
  wlp (allocproc forkret_addr trapret_addr) (fun i s' => if i =? NULL then running me s' else setup me i false s') s.
Proof.
  intros Hr Hn. unfold allocproc. apply wlp_bind. eapply wlp_keep; [apply kc_acquire|done|]. intros _ s1 H1 E1.
  pose (I := fun s' => running me s' /\ ks_nextpid s' < 2147483647).
  pose (Q := fun (r : option Z) s' => I s' /\
    match r with None => True | Some i => 0 <= i < NPROC /\ p_state (proc_at s' i) = UNUSED end).
  unfold each_proc. apply wlp_bind. eapply (wlp_mono _ Q).
  { apply (wlp_for_ret _ _ (fun _ => I)); [split; [done|]; unfold core in E1; injection E1 as _ _ _ E1; lia| |by intros s' Hs'; split].
    intros k i s2 Hk H2. apply list_elem_of_lookup_2, elem_of_seqZ in Hk. apply wlp_bind, wlp_pget. intros _.
    split_decide as [Hu|_]; [|done]. apply wlp_ret. split; [done|]. split; [lia|done]. }
  intros [i|] s2 [[H2 Hn2] Hi].
  2: { apply wlp_bind. eapply wlp_keep; [apply kc_release|done|]. intros _ s3 H3 _. by apply wlp_ret. }
  destruct Hi as [Hi Hu]. apply wlp_bind, wlp_pset. intros _. apply wlp_bind, wlp_gets.
  apply wlp_bind, wlp_pset. intros _. apply wlp_bind, wlp_modify. set (s3 := set_nextpid _ _).
  assert (H3 : setup me i false s3).
  { destruct H2 as [I1 I2 I3 I4]. pose proof (proc_at_Some s2 i I1 Hi) as Hp.
    assert (Hne : i <> me) by (intros ->; congruence).
    assert (Hpos : 0 < ks_nextpid s2).
    { destruct (li_init _ I1) as (k & p & E & Hk & Ha). cbn [fst snd] in Hk.
      destruct (li_pid _ I1 k p Hk) as [Hpid _]; [unfold alive in Ha; intros Eu; rewrite Eu in Ha; by destruct Ha as [|[|]]|].
      cbn [fst snd core] in Hpid. lia. }
    assert (Et : ks_proc s3 = alter (with_pid (ks_nextpid s2) ∘ with_state EMBRYO) (Z.to_nat i) (ks_proc s2)).
    { cbn. by rewrite alter_twice. }
    split; [split; [|done|done|]|done| |done].
    - unfold core. rewrite Et. cbn. rewrite i32_small by lia. eapply embryo_life; [exact Hp|done..|exact I1].
    - pose proof (proc_at_Some s2 me I1 I3) as Hm. unfold proc_at. rewrite Et.
      erewrite list_lookup_total_correct; [exact I4|]. rewrite list_lookup_alter_ne by lia. exact Hm.
    - unfold proc_at. rewrite Et. erewrite list_lookup_total_correct; [|rewrite list_lookup_alter_eq, Hp; done]. done. }
  do 4 (through ltac:(by apply (pres_setup_pset me i false)); clear dependent s3; intros _ s3 H3).
  apply wlp_bind. eapply wlp_setup; [apply kc_release|done|]. intros _ s4 H4.
  apply wlp_bind. eapply wlp_setup; [apply kc_on_k|done|]. intros kstack s5 H5.
  through ltac:(by apply (pres_setup_pset me i false)). intros _ s6 H6.
  assert (Hni : (i =? NULL) = false) by (unfold NULL; lia).
  destruct (kstack =? 0).
  - through ltac:(by eapply setup_drop). intros _ s7 H7. by apply wlp_ret.
  - cbn zeta. apply wlp_bind. eapply wlp_setup; [apply kc_on_k|done|]. intros _ s7 H7.
    through ltac:(by apply (pres_setup_pset me i false)). intros _ s8 H8.
    apply wlp_bind. eapply wlp_setup; [apply kc_on_k|done|]. intros _ s9 H9.
    apply wlp_bind. eapply wlp_setup; [apply kc_on_k|done|]. intros _ s10 H10.
    apply wlp_ret. by rewrite Hni.
Qed.

Lemma fork_ok me s :
  running me s -> ks_nextpid s < 2147483647 ->
  wlp (fork kend kdata forkret_addr trapret_addr) (fun _ => running me) s.
Proof.
  intros Hr Hn. unfold fork, myproc. apply wlp_bind, wlp_gets. rewrite (rn_cur _ _ Hr).
  through ltac:(by apply (allocproc_ok me)). intros np s1 H1. destruct (np =? NULL); [by apply wlp_ret|].
  apply wlp_bind. eapply wlp_setup; [apply kc_pget|done|]. intros p s2 H2.
  apply wlp_bind. eapply wlp_setup; [apply kc_on_k|done|]. intros pgdir s3 H3.
  through ltac:(by apply (pres_setup_pset me np false)). intros _ s4 H4. destruct (pgdir =? 0).
  - apply wlp_bind. eapply wlp_setup; [apply kc_pget|done|]. intros c s5 H5.
    apply wlp_bind. eapply wlp_setup; [apply kc_on_k|done|]. intros _ s6 H6.
    through ltac:(by apply (pres_setup_pset me np false)). intros _ s7 H7.
    through ltac:(by eapply setup_drop). intros _ s8 H8. by apply wlp_ret.
  - through ltac:(by apply (pres_setup_pset me np false)). intros _ s5 H5.
    apply wlp_bind, wlp_pset. intros _. assert (H6 : setup me np true (upd_proc np (with_parent me) s5)).
    { by eapply setup_upd. }
    revert H6. generalize (upd_proc np (with_parent me) s5). clear. intros s6 H6.
    apply wlp_bind. eapply wlp_setup; [apply kc_pget|done|]. intros c s7 H7.
    apply wlp_bind. eapply wlp_setup; [apply kc_on_k|done|]. intros _ s8 H8.
    do 3 (through ltac:(by apply (pres_setup_pset me np true)); clear dependent s8; intros _ s8 H8).
    apply wlp_bind. eapply wlp_setup; [apply kc_tf_store|done|]. intros _ s9 H9.
    through ltac:(apply (pres_for_each (setup me np true)); [|done]); [|intros _ s10 H10].
    { intros i. apply pres_bind; [apply pres_setup; kc|]. intros q. apply pres_when.
      apply pres_bind; [apply pres_setup; kc|]. intros f'. by apply pres_setup_pset. }
    apply wlp_bind. eapply wlp_setup; [apply kc_on_f|done|]. intros cwd s11 H11.
    do 2 (through ltac:(by apply (pres_setup_pset me np true)); clear dependent s11; intros _ s11 H11).
    apply wlp_bind. eapply wlp_setup; [apply kc_pget|done|]. intros c2 s12 H12.
    apply wlp_bind. eapply wlp_setup; [apply kc_acquire|done|]. intros _ s13 H13.
    through ltac:(by apply setup_ready). intros _ s14 H14.
    apply wlp_bind. eapply wlp_keep; [apply kc_release|done|]. intros _ s15 H15 _.
    apply wlp_bind. eapply wlp_keep; [apply kc_map_fork|done|]. intros _ s16 H16 _. by apply wlp_ret.
Qed.

Lemma growproc_ok me n s : running me s -> wlp (growproc kend n) (fun _ => running me) s.
Proof.
  intros Hr. unfold growproc, myproc. apply wlp_bind, wlp_gets. rewrite (rn_cur _ _ Hr).
  apply wlp_bind. eapply wlp_keep; [apply kc_pget|done|]. intros p s1 H1 _. cbn zeta.
  apply wlp_bind. eapply (wlp_keep me); [|done|].
  { destruct (n >? 0); [kc|]. destruct (n <? 0); kc. }
  intros [sz|] s2 H2 _; [|by apply wlp_ret].
  through ltac:(apply (pres_pset_same me); [apply Hr|done|done]). intros _ s3 H3.
  apply wlp_bind. eapply wlp_keep; [apply kc_switchuvm|done|]. intros _ s4 H4 _. by apply wlp_ret.
Qed.
End fork.

(** ** The transition system *)
Section steps.
Context {F : Type} `{FileLayer F} (kend kdata kpgdir forkret_addr trapret_addr : Z).
Abbreviation K := (M (kstate F)).

(** What the process on the CPU calls and returns from. *)
Inductive call :=
| c_fork | c_growproc (n : Z) | c_kill (pid : Z) | c_setnice (pid v : Z) | c_wakeup (chan : wchan)
| c_sleep_leave (lk : lock).
Definition run_call (c : call) : K unit :=
  match c with
  | c_fork => fork kend kdata forkret_addr trapret_addr ;; mret tt
  | c_growproc n => growproc kend n ;; mret tt
  | c_kill pid => kill pid ;; mret tt
  | c_setnice pid v => setnice pid v ;; mret tt
  | c_wakeup chan => wakeup chan
  | c_sleep_leave lk => sleep_leave lk
  end.

(** How it leaves the CPU; [exit], [yield] and [sleep] do not come back before
    the scheduler dispatches the process again. *)
Inductive leave := l_exit | l_yield | l_sleep (chan : wchan) (lk : option lock).
Definition run_leave (l : leave) : K unit :=
  match l with
  | l_exit => exit
  | l_yield => yield_enter
  | l_sleep chan lk => sleep_enter chan lk
  end.

(** One step of the machine: the scheduler dispatches a process, or the process
    on the CPU makes a call, waits, or leaves; [step_other] is any code that
    writes neither the process table nor [c->proc], the rest of the kernel and
    the user programs among it. *)
Inductive life_step : kstate F -> kstate F -> Prop :=
| step_dispatch p s c s' :
    ks_cur s = NULL -> 0 <= p -> scheduler_scan p s = Done (Some c) s' -> life_step s s'
| step_call c s s' :
    ks_cur s <> NULL -> ks_nextpid s < 2147483647 -> run_call c s = Done tt s' -> life_step s s'
| step_wait (resumed : bool) r s s' :
    ks_cur s <> NULL -> (if resumed then wait_resume kend else wait kend) s = Done (WDone r) s' -> life_step s s'
| step_wait_sleep (resumed : bool) s s1 s2 :
    ks_cur s <> NULL -> (if resumed then wait_resume kend else wait kend) s = Done WSleep s1 ->
    dispatch_return kpgdir s1 = Done tt s2 -> life_step s s2
| step_leave l s s1 s2 :
    ks_cur s <> NULL -> (forall chan lk p, l = l_sleep chan lk -> chan <> Cproc p) ->
    run_leave l s = Done tt s1 -> dispatch_return kpgdir s1 = Done tt s2 -> life_step s s2
| step_other s s' : core s' = core s -> life_step s s'.

(** Nothing runs but the process [c->proc] names. *)
Definition good (s : kstate F) : Prop := if ks_cur s =? NULL then idle s else running (ks_cur s) s.

Lemma good_idle s : ks_cur s = NULL -> good s -> idle s.
Proof. unfold good. by intros ->. Qed.
Lemma good_running s : ks_cur s <> NULL -> good s -> running (ks_cur s) s.
Proof. unfold good. intros Hn. by destruct (Z.eqb_spec (ks_cur s) NULL). Qed.
Lemma idle_good s : idle s -> good s.
Proof. intros Hi. unfold good. by rewrite (id_cur _ Hi). Qed.
Lemma running_good me s : running me s -> good s.
Proof.
  intros Hr. unfold good. destruct Hr as [H1 H2 H3 H4]. rewrite H2.
  destruct (Z.eqb_spec me NULL) as [E|_]; [unfold NULL in E; lia|done].
Qed.

Lemma run_call_ok me c s :
  running me s -> ks_nextpid s < 2147483647 -> wlp (run_call c) (fun _ => running me) s.
Proof.
  intros Hr Hn. destruct c; cbn [run_call];
    first [ by apply wakeup_ok | by apply sleep_leave_ok
          | through ltac:(first [by apply (fork_ok _ _ _ _ me)|by apply (growproc_ok _ me)|by apply (kill_ok me)|by apply (setnice_ok me)]);
            intros ? s1 H1; by apply wlp_ret ].
Qed.

Lemma life_step_good s t : good s -> life_step s t -> good t.
Proof.
  intros Hg Hst. destruct Hst as [p s c s' Hc Hp E|c s s' Hc Hn E|b r s s' Hc E|b s s1 s2 Hc E1 E2|l s s1 s2 Hc Hl E1 E2|s s' E].
  - apply (running_good c), (wlp_Done _ _ _ _ _ (scheduler_scan_ok p s (good_idle s Hc Hg) Hp) E).
  - apply (running_good (ks_cur s)), (wlp_Done _ _ _ _ _ (run_call_ok _ c s (good_running s Hc Hg) Hn) E).
  - apply (running_good (ks_cur s)). pose proof (good_running s Hc Hg) as Hr. destruct b.
    + apply (wlp_Done _ _ _ _ _ (wait_resume_ok kend _ s Hr) E).
    + apply (wlp_Done _ _ _ _ _ (wait_ok kend _ s Hr) E).
  - apply idle_good. pose proof (good_running s Hc Hg) as Hr.
    refine (wlp_Done _ _ _ _ _ (dispatch_return_ok kpgdir s1 _) E2). destruct b.
    + apply (wlp_Done _ _ _ _ _ (wait_resume_ok kend _ s Hr) E1).
    + apply (wlp_Done _ _ _ _ _ (wait_ok kend _ s Hr) E1).
  - apply idle_good. pose proof (good_running s Hc Hg) as Hr.
    refine (wlp_Done _ _ _ _ _ (dispatch_return_ok kpgdir s1 _) E2).
    destruct l as [| |chan lk]; cbn [run_leave] in E1.
    + apply (wlp_Done _ _ _ _ _ (exit_ok _ s Hr) E1).
    + apply (wlp_Done _ _ _ _ _ (yield_ok _ s Hr) E1).
    + refine (wlp_Done _ _ _ _ _ (sleep_ok _ chan lk s Hr _) E1). intros Hch. by destruct (Hl chan lk (ks_cur s) eq_refl).
  - pose proof E as E'. unfold core in E'. injection E' as _ Ec _ _. unfold good in *. rewrite Ec.
    destruct (Z.eqb_spec (ks_cur s) NULL) as [Hc|Hc]; [|by eapply running_core].
    destruct Hg as [H1 H2]. split; [by rewrite E|congruence].
Qed.
End steps.
