(* ===== verification/ProcTheorems.v ===== *)
(** * Processes: the theorems on their life ([proc.c])

    The invariant of every reachable state, what [exit] does for the children
    and the parent, the outcomes of [wait] and [kill]. *)
From S2P Require Import Prelude Layout Memory Locks Kalloc Vm Fs ProcData Mmap Proc ProcSched ProcLife ProcSteps.

(** ** The invariant of reachable states *)
Section invariant.
Context {F : Type} `{FileLayer F} (kend kdata kpgdir forkret_addr trapret_addr : Z).

(** (C<n>) Whatever the processes and the scheduler do, in every state between
    two steps: only the process [c->proc] names is RUNNING; two slots in use
    have different pids; every started process other than [initproc] has a live
    parent, which is not itself; and no process sleeps in [wait] while one of
    its children is a zombie (a wake-up is never lost). *)
Theorem process_table_invariant (s t : kstate F) :
  good s -> star (life_step kend kdata kpgdir forkret_addr trapret_addr) s t ->
  (forall k p, ks_proc t !! k = Some p -> p_state p = RUNNING -> ks_cur t = Z.of_nat k)
  /\ (forall j k p q, ks_proc t !! j = Some p -> ks_proc t !! k = Some q ->
        p_state p <> UNUSED -> p_state q <> UNUSED -> p_pid p = p_pid q -> j = k)
  /\ (forall j q, ks_proc t !! j = Some q -> started (p_state q) -> Z.of_nat j <> ks_initproc t ->
        p_parent q <> Z.of_nat j
        /\ exists k p, p_parent q = Z.of_nat k /\ ks_proc t !! k = Some p /\ alive (p_state p))
  /\ (forall k p j q, ks_proc t !! k = Some p -> ks_proc t !! j = Some q ->
        p_state p = SLEEPING -> p_chan p = Cproc (Z.of_nat k) -> p_parent q = Z.of_nat k ->
        p_state q <> ZOMBIE).
Proof.
  intros Hg Hst.
  assert (Ht : good t) by (eapply star_invariant; [apply life_step_good|exact Hg|exact Hst]).
  assert (Hl : life_inv (core t)).
  { unfold good in Ht. destruct (ks_cur t =? NULL); apply Ht. }
  destruct Hl as [I1 I2 I3 I4 I5 I6]; cbn in *. split_and!; [exact I2| |exact I5|exact I3].
  intros j k p q Hj Hk Hp Hq E. destruct (I6 k q Hk Hq) as [_ Hu]. by apply (Hu j p).
Qed.
End invariant.

(** ** [exit] *)
Section exit.
Context {F : Type} `{FileLayer F}.
Implicit Types s : kstate F.

Lemma reparent_eq me ini i s : 0 <= i -> reparent me ini i s = Done tt (set_procs (rep_table me ini (ks_proc s) i) s).
Proof.
  intros Hi. unfold reparent, pget, pset, mbind, M_bind, gets, modify, rep_table, proc_at.
  assert ((i =? NULL) = false) as -> by (unfold NULL; lia).
  destruct (p_parent _ =? me); [|by destruct s]. cbn. rewrite bool_decide_decide. cbn zeta.
  unfold proc_at, upd_proc; cbn. by destruct (decide _).
Qed.

Lemma reparents_eq me ini l s :
  (forall i, i ∈ l -> 0 <= i) -> for_each l (reparent me ini) s = Done tt (set_procs (foldl (rep_table me ini) (ks_proc s) l) s).
Proof.
  revert s. induction l as [|i l IH]; intros s Hl; [by destruct s|]. cbn [for_each foldl].
  unfold mbind, M_bind. rewrite reparent_eq by (apply Hl; set_solver). rewrite IH by (intros x Hx; apply Hl; set_solver). done.
Qed.

Lemma exit_locked_eq me ini s :
  0 <= me -> exit_locked me ini s = sched (set_procs (exit_table me ini (ks_proc s)) s).
Proof.
  intros Hme. unfold exit_locked, pget, pset, mbind, M_bind, gets, modify, wakeup1.
  assert ((me =? NULL) = false) as -> by (unfold NULL; lia). cbn.
  rewrite reparents_eq by (intros i Hi%elem_of_seqZ; lia). unfold exit_table, upd_proc, proc_at. cbn.
  generalize (seqZ 0 NPROC). done.
Qed.

(** [sched] returns when its caller has only [ptable.lock] and has changed its state. *)
Lemma sched_eq s :
  ks_held s = [Lptable] -> ks_cur s <> NULL -> p_state (proc_at s (ks_cur s)) <> RUNNING -> sched s = Done tt s.
Proof.
  intros HL Hc Hst. unfold sched, myproc, holding, pget, mbind, M_bind, gets; cbn. rewrite HL.
  rewrite bool_decide_eq_true_2 by set_solver. cbn. rewrite HL. cbn.
  assert ((ks_cur s =? NULL) = false) as -> by lia. by rewrite decide_False.
Qed.

(** The children of [me] after the loop of [exit]. *)
Lemma reps_parent me ini l tab j q :
  ini <> me -> foldl (rep_table me ini) tab l !! j = Some q ->
  exists p, tab !! j = Some p /\ (p_parent q = p_parent p \/ (p_parent p = me /\ p_parent q = ini)).
Proof.
  intros Hne. revert q. induction l as [|i l IH] using rev_ind; intros q; [intros Hj; exists q; auto|].
  rewrite foldl_snoc. intros Hj. destruct (lookup_rep _ _ _ _ _ _ Hj) as (q0 & Hq0 & _ & Epar & _).
  destruct (IH q0 Hq0) as (p & Hp & Hc). exists p. split; [done|]. revert Epar.
  split_decide as [[_ E]|_]; intros ->; [|done]. right. split; [|done]. destruct Hc as [Hc|[_ Hc]]; congruence.
Qed.

Lemma exit_table_parent me ini tab j q :
  ini <> me -> exit_table me ini tab !! j = Some q ->
  exists p, tab !! j = Some p /\ (p_parent q = p_parent p \/ (p_parent p = me /\ p_parent q = ini)).
Proof.
  intros Hne. unfold exit_table. generalize (seqZ 0 NPROC). intros l Hj.
  assert (exists q0, foldl (rep_table me ini) (wakeup1_table (Cproc (p_parent (tab !!! Z.to_nat me))) tab) l !! j = Some q0
    /\ p_parent q = p_parent q0) as (q0 & Hq0 & ->).
  { destruct (decide (j = Z.to_nat me)) as [->|Hn].
    - rewrite list_lookup_alter_eq in Hj. apply fmap_Some in Hj as (q0 & Hq0 & ->). by exists q0.
    - rewrite list_lookup_alter_ne in Hj by done. by exists q. }
  destruct (reps_parent _ _ _ _ _ _ Hne Hq0) as (p1 & Hp1 & Hc).
  unfold wakeup1_table in Hp1. apply list_lookup_fmap_Some in Hp1 as (p & -> & Hp). exists p. split; [done|].
  destruct (wake_same (Cproc (p_parent (tab !!! Z.to_nat me))) (min_vruntime tab) p) as (_ & Ew & _).
  by rewrite Ew in Hc.
Qed.

(** (C<n>) The end of [exit] gives up the CPU with the process a zombie, none
    of its children left without a parent (each has become [initproc]'s, and
    every other process keeps its own), and the parent not asleep in [wait]. *)
Theorem exit_hands_over me s :
  running me s -> me <> ks_initproc s -> ks_held s = [Lptable] ->
  exists s', exit_locked me (ks_initproc s) s = Done tt s'
    /\ p_state (proc_at s' me) = ZOMBIE
    /\ (forall j q, ks_proc s' !! j = Some q -> exists p, ks_proc s !! j = Some p
          /\ p_parent q = (if p_parent p =? me then ks_initproc s else p_parent p))
    /\ (forall k p, ks_proc s' !! k = Some p -> Z.of_nat k = p_parent (proc_at s me) ->
          p_state p = SLEEPING -> p_chan p <> Cproc (Z.of_nat k)).
Proof.
  intros Hr Hne HL. pose proof Hr as [H1 H2 H3 H4]. rewrite exit_locked_eq by lia.
  destruct (exit_table_life (ks_proc s) me (ks_initproc s) (ks_nextpid s)) as (_ & Hz & Hpar & Hwake);
    [by rewrite <- H2 at 1|done|done|done|].
  pose proof (fun j q => exit_table_parent me (ks_initproc s) (ks_proc s) j q (not_eq_sym Hne)) as Hkeep.
  revert Hz Hpar Hwake Hkeep. generalize (exit_table me (ks_initproc s) (ks_proc s)). intros tab Hz Hpar Hwake Hkeep.
  exists (set_procs tab s). split; [|split; [exact Hz|split]].
  - apply sched_eq; [done|cbn; unfold NULL; lia|]. unfold proc_at; cbn. rewrite H2, Hz. done.
  - intros j q Hj. destruct (Hkeep j q Hj) as (p & Hp & Hc). exists p. split; [done|]. pose proof (Hpar j q Hj).
    destruct (Z.eqb_spec (p_parent p) me) as [E|E]; destruct Hc as [Hc|[Hc1 Hc2]]; congruence.
  - intros k p Hk E Hs Hc. by apply (Hwake k p).
Qed.
End exit.

(** ** [wait] and [kill] *)
Section wait_kill.
Context {F : Type} `{FileLayer F} (kend : Z).
Implicit Types s : kstate F.

Lemma seqZ_split i : 0 <= i < NPROC -> seqZ 0 NPROC = seqZ 0 i ++ i :: seqZ (i + 1) (NPROC - i - 1).
Proof.
  intros Hi. transitivity (seqZ 0 (i + (NPROC - i))); [f_equal; lia|]. rewrite seqZ_app by lia. f_equal.
  rewrite (seqZ_cons (0 + i)) by lia. f_equal; f_equal; lia.
Qed.

Definition killed_proc (p : proc) : proc :=
  if decide (p_state p = SLEEPING) then with_state RUNNABLE (with_killed 1 p) else with_killed 1 p.

Lemma kill_found s i pid :
  ks_held s = [] -> length (ks_proc s) = 64%nat -> 0 <= i < NPROC -> p_pid (proc_at s i) = pid ->
  (forall j, 0 <= j < i -> p_pid (proc_at s j) <> pid) ->
  kill pid s = Done 0 (upd_proc i killed_proc s).
Proof.
  intros HL Hlen Hi Hp Hj. unfold kill, find_proc. rewrite (seqZ_split i Hi).
  assert (Hf : Lptable ∉ locks_of s) by (cbn; rewrite HL; apply not_elem_of_nil).
  rewrite (bind_Done _ _ _ _ _ (acquire_free Lptable s Hf)).
  change (with_locks _ s) with (set_held (Lptable :: ks_held s) s). rewrite HL. set (s1 := set_held [Lptable] s).
  assert (Hat : forall j, proc_at s1 j = proc_at s j) by done.
  erewrite bind_Done; [|apply (for_ret_at _ i _ _ 0)].
  - done.
  - intros j Hin%elem_of_seqZ. unfold mbind, M_bind. rewrite pget_eq by (unfold NULL; lia). rewrite Hat.
    by destruct (Z.eqb_spec (p_pid (proc_at s j)) pid) as [E|E]; [destruct (Hj j); [lia|]|].
  - unfold mbind, M_bind. rewrite pget_eq by (unfold NULL; lia). rewrite Hat, Hp, Z.eqb_refl, pset_eq by (unfold NULL; lia). cbn.
    assert (Hki : ks_proc s !! Z.to_nat i = Some (proc_at s i)) by (apply list_lookup_lookup_total_lt; unfold NPROC in Hi; lia).
    assert (E : proc_at (upd_proc i (with_killed 1) s1) i = with_killed 1 (proc_at s i)).
    { unfold proc_at at 1; cbn. erewrite list_lookup_total_correct; [done|]. by rewrite list_lookup_alter_eq, Hki. }
    rewrite pget_eq by (unfold NULL; lia). rewrite E. cbn. unfold when. rewrite bool_decide_decide.
    assert (Ek : killed_proc (proc_at s i) = if decide (p_state (proc_at s i) = SLEEPING) then with_state RUNNABLE (with_killed 1 (proc_at s i)) else with_killed 1 (proc_at s i)) by done.
    destruct (decide (p_state (proc_at s i) = SLEEPING)) as [Hs|Hs].
    + rewrite pset_eq by (unfold NULL; lia). cbn. rewrite (release_top Lptable []) by first [done|apply not_elem_of_nil]. cbn.
      rewrite upd_proc_compose. f_equal. unfold upd_proc, set_procs, set_held; cbn. rewrite HL. f_equal.
      apply list_alter_ext; [|done]. intros p Hpi. rewrite Hki in Hpi. injection Hpi as <-. by rewrite Ek.
    + cbn. rewrite (release_top Lptable []) by first [done|apply not_elem_of_nil]. cbn.
      f_equal. unfold upd_proc, set_procs, set_held; cbn. rewrite HL. f_equal.
      apply list_alter_ext; [|done]. intros p Hpi. rewrite Hki in Hpi. injection Hpi as <-. by rewrite Ek.
Qed.

Lemma set_held_same s : ks_held s = [] -> with_locks [] (set_held [Lptable] s) = s.
Proof. intros HL. destruct s; cbn in *. by rewrite HL. Qed.

Lemma kill_missing s pid :
  ks_held s = [] -> (forall j, 0 <= j < NPROC -> p_pid (proc_at s j) <> pid) -> kill pid s = Done (-1) s.
Proof.
  intros HL Hj. unfold kill, find_proc.
  assert (Hf : Lptable ∉ locks_of s) by (cbn; rewrite HL; apply not_elem_of_nil).
  rewrite (bind_Done _ _ _ _ _ (acquire_free Lptable s Hf)).
  change (with_locks _ s) with (set_held (Lptable :: ks_held s) s). rewrite HL. set (s1 := set_held [Lptable] s).
  erewrite bind_Done; [|apply for_ret_none].
  - unfold mbind, M_bind. rewrite (release_top Lptable []) by first [done|apply not_elem_of_nil].
    unfold s1. by rewrite set_held_same.
  - intros j Hin%elem_of_seqZ. unfold mbind, M_bind. rewrite pget_eq by (unfold NULL; lia).
    change (proc_at s1 j) with (proc_at s j).
    by destruct (Z.eqb_spec (p_pid (proc_at s j)) pid) as [E|E]; [destruct (Hj j); [lia|]|].
Qed.

(** [kill] marks the first slot with the pid, wakes that process if it
    sleeps, and returns 0; when no slot has the pid it returns -1 and changes
    nothing. *)
Theorem kill_outcome pid s :
  ks_held s = [] -> length (ks_proc s) = 64%nat ->
  (exists i, 0 <= i < NPROC /\ p_pid (proc_at s i) = pid /\ (forall j, 0 <= j < i -> p_pid (proc_at s j) <> pid)
     /\ kill pid s = Done 0 (upd_proc i killed_proc s))
  \/ ((forall j, 0 <= j < NPROC -> p_pid (proc_at s j) <> pid) /\ kill pid s = Done (-1) s).
Proof.
  intros HL Hlen. destruct (decide (Exists (fun j => p_pid (proc_at s j) = pid) (seqZ 0 NPROC))) as [Hex%Exists_exists|Hno].
  - left. assert (Hm : forall n i, Z.to_nat i = n -> 0 <= i < NPROC -> p_pid (proc_at s i) = pid ->
      exists i', 0 <= i' < NPROC /\ p_pid (proc_at s i') = pid /\ forall j, 0 <= j < i' -> p_pid (proc_at s j) <> pid).
    { induction n as [n IH] using lt_wf_ind. intros i En Hi Ei.
      destruct (decide (Exists (fun j => p_pid (proc_at s j) = pid) (seqZ 0 i))) as [(j & Hj%elem_of_seqZ & Ej)%Exists_exists|Hn].
      - apply (IH (Z.to_nat j) ltac:(lia) j eq_refl); [lia|done].
      - exists i. split_and!; try done; try lia. intros j Hj Ej. apply Hn, Exists_exists. exists j. split; [|done]. apply elem_of_seqZ. lia. }
    destruct Hex as (j & Hj%elem_of_seqZ & Ej). destruct (Hm _ j eq_refl ltac:(lia) Ej) as (i & Hi & Ei & Hlt).
    exists i. split_and!; try done; try lia. by apply kill_found.
  - right. assert (Hj : forall j, 0 <= j < NPROC -> p_pid (proc_at s j) <> pid).
    { intros j Hj E. apply Hno, Exists_exists. exists j. split; [|done]. apply elem_of_seqZ. lia. }
    split; [done|]. by apply kill_missing.
Qed.

(** When no child of the caller is a zombie, [wait] returns -1 and leaves
    the state as it was if there is no child or the caller was killed; otherwise
    the caller goes to sleep on its own slot with [ptable.lock] held and nothing
    else changed. *)
Theorem wait_without_zombie me s :
  running me s -> ks_held s = [] ->
  (forall j q, ks_proc s !! j = Some q -> p_parent q = me -> p_state q <> ZOMBIE) ->
  wait kend s =
    if negb (existsb (fun p => p_parent p =? me) (ks_proc s)) || truth (p_killed (proc_at s me))
    then Done (WDone (-1)) s
    else Done WSleep (upd_proc me (with_state SLEEPING ∘ with_chan (Cproc me)) (set_held [Lptable] s)).
Proof.
  intros Hr HL Hz. pose proof Hr as [H1 H2 H3 H4]. unfold wait.
  assert (Hf : Lptable ∉ locks_of s) by (cbn; rewrite HL; apply not_elem_of_nil).
  rewrite (bind_Done _ _ _ _ _ (acquire_free Lptable s Hf)).
  change (with_locks _ s) with (set_held (Lptable :: ks_held s) s). rewrite HL. set (s1 := set_held [Lptable] s).
  assert (Hc : myproc s1 = Done me s1) by (unfold myproc, gets; cbn; by rewrite H2).
  unfold wait_pass. rewrite (bind_Done _ _ _ _ _ Hc).
  assert (Hscan : wait_scan kend me s1 = Done (None, existsb (fun p => p_parent p =? me) (ks_proc s)) s1).
  { unfold wait_scan. erewrite bind_Done; [|apply for_ret_none]; [done|]. intros j Hin%elem_of_seqZ.
    rewrite (bind_Done _ _ _ _ _ (pget_eq j s1 ltac:(unfold NULL; lia))). change (proc_at s1 j) with (proc_at s j).
    pose proof (proc_at_Some s j H1 ltac:(lia)) as Hj.
    destruct (Z.eqb_spec (p_parent (proc_at s j)) me) as [E|E]; [|done]. cbn [negb].
    rewrite decide_False; [done|]. by apply (Hz _ _ Hj). }
  rewrite (bind_Done _ _ _ _ _ Hscan). cbn beta iota.
  rewrite (bind_Done _ _ _ _ _ (pget_eq me s1 ltac:(unfold NULL; lia))). change (proc_at s1 me) with (proc_at s me).
  destruct (negb _ || _).
  - unfold mbind, M_bind. rewrite (release_top Lptable []) by first [done|apply not_elem_of_nil].
    unfold s1. by rewrite set_held_same.
  - unfold sleep_enter. erewrite bind_Done; [reflexivity|]. rewrite (bind_Done _ _ _ _ _ Hc).
    assert ((me =? NULL) = false) as -> by (unfold NULL; lia).
    erewrite (bind_Done (when _ _)) by done. rewrite (bind_Done _ _ _ _ _ (pset_eq me _ s1 ltac:(unfold NULL; lia))).
    rewrite (bind_Done _ _ _ _ _ (pset_eq me _ _ ltac:(unfold NULL; lia))), upd_proc_compose.
    apply sched_eq; [done|cbn; unfold NULL; lia|].
    pose proof (proc_at_Some s me H1 H3) as Hme. cbn. rewrite H2. unfold proc_at; cbn.
    erewrite list_lookup_total_correct; [|rewrite list_lookup_alter_eq, Hme; done]. done.
Qed.

(** No operation of [allocproc] writes [killed]. *)
Lemma allocproc_killed ra rt l :
  preserves (fun s => p_killed <$> ks_proc s = l) (allocproc ra rt).
Proof.
  assert (Hp : forall i f, (forall p, p_killed (f p) = p_killed p) -> preserves (fun s => p_killed <$> ks_proc s = l) (pset i f)).
  { intros i f Hf s Hs. apply wlp_pset. intros _. rewrite <- Hs. cbn. apply list_eq. intros k.
    rewrite !list_lookup_fmap. destruct (decide (k = Z.to_nat i)) as [->|Hn].
    - rewrite list_lookup_alter_eq. destruct (ks_proc s !! Z.to_nat i); cbn; [by rewrite Hf|done].
    - by rewrite list_lookup_alter_ne. }
  assert (Hk : forall A (m : M (kstate F) A), keeps_core m -> preserves (fun s => p_killed <$> ks_proc s = l) m).
  { intros A m Hm s Hs. apply wlp_core; [done|]. intros a s' E. unfold core in E. injection E as -> _ _ _. done. }
  unfold allocproc. apply pres_bind; [apply Hk; kc|]. intros _. apply pres_bind; [apply Hk; unfold each_proc; kc|].
  intros [i|]; [|apply Hk; kc].
  repeat (apply pres_bind; [first [by apply Hp | solve [apply Hk; kc] | by intros s Hs]|intros ?]).
  destruct (_ =? 0); [apply pres_bind; [by apply Hp|intros _; apply pres_ret]|].
  cbn zeta. repeat (apply pres_bind; [first [by apply Hp | solve [apply Hk; kc]]|intros ?]). apply pres_ret.
Qed.

(** [kill(0)] finds a free slot (its pid is 0), marks it and returns 0;
    the next process allocated there is born killed, since neither [allocproc]
    nor [fork] clears the mark. *)
Theorem kill_zero_marks_free_slot i s :
  ks_held s = [] -> length (ks_proc s) = 64%nat -> 0 <= i < NPROC ->
  p_state (proc_at s i) = UNUSED -> p_pid (proc_at s i) = 0 ->
  (forall j, 0 <= j < i -> p_pid (proc_at s j) <> 0) ->
  exists s', kill 0 s = Done 0 s' /\ p_state (proc_at s' i) = UNUSED
    /\ forall ra rt s2, allocproc ra rt s' = Done i s2 -> p_killed (proc_at s2 i) = 1.
Proof.
  intros HL Hlen Hi Hu Hp Hj. eexists. split; [by apply kill_found|].
  assert (Hki : ks_proc s !! Z.to_nat i = Some (proc_at s i)) by (apply list_lookup_lookup_total_lt; unfold NPROC in Hi; lia).
  assert (E : proc_at (upd_proc i killed_proc s) i = with_killed 1 (proc_at s i)).
  { unfold proc_at at 1; cbn. erewrite list_lookup_total_correct; [|by rewrite list_lookup_alter_eq, Hki].
    unfold killed_proc. by rewrite decide_False by congruence. }
  rewrite E. split; [done|]. intros ra rt s2 E2.
  pose proof (wlp_Done _ _ _ _ _ (allocproc_killed ra rt _ _ eq_refl) E2) as Hk. cbn beta in Hk.
  assert (Hlk : p_killed <$> (ks_proc s2 !! Z.to_nat i) = Some 1).
  { rewrite <- list_lookup_fmap, Hk, list_lookup_fmap. cbn. by rewrite list_lookup_alter_eq, Hki; cbn;
      unfold killed_proc; rewrite decide_False by congruence. }
  apply fmap_Some in Hlk as (p & Hp2 & ->). unfold proc_at. by rewrite (list_lookup_total_correct _ _ _ Hp2).
Qed.
End wait_kill.

(** ** An instance: [init] (slot 0) sleeps in [wait], its child (slot 1) runs and
    has a zombie child (slot 2) *)
Definition ex_slot (st : procstate) (c : wchan) (pid parent : Z) : proc :=
  Proc 4096 2147500032 2147504128 st pid parent 0 0 c 0 (replicate 16 NULL) NULL [] 20 1024 0 0 0 0 0.
Definition ex_with (z : proc) : kstate (list lock) :=
  Kstate (ex_slot SLEEPING (Cproc 0) 1 NULL :: ex_slot RUNNING Cnone 2 0 :: z :: replicate 61 zero_proc) 0 4 1 0 false
    (Kst ∅ true 2147508224 1 []) [] (replicate 64 zero_area) 0 [] [].
Definition ex_life : kstate (list lock) := ex_with (ex_slot ZOMBIE Cnone 3 1).

Lemma ex_slots z k p : ks_proc (ex_with z) !! k = Some p ->
  (k = 0%nat /\ p = ex_slot SLEEPING (Cproc 0) 1 NULL) \/ (k = 1%nat /\ p = ex_slot RUNNING Cnone 2 0)
  \/ (k = 2%nat /\ p = z) \/ p = zero_proc.
Proof.
  destruct k as [|[|[|k]]]; [intros [= <-]; tauto..|]. intros Hk.
  change (replicate 61 zero_proc !! k = Some p) in Hk. apply list_elem_of_lookup_2, elem_of_replicate in Hk as [-> _]. tauto.
Qed.

Lemma ex_good z : z = ex_slot ZOMBIE Cnone 3 1 \/ z = zero_proc -> running 1 (ex_with z).
Proof.
  intros Hz. split; [|done|unfold NPROC; cbn; lia|done].
  assert (Hs : forall k p, ks_proc (ex_with z) !! k = Some p ->
    (k = 0%nat /\ p = ex_slot SLEEPING (Cproc 0) 1 NULL) \/ (k = 1%nat /\ p = ex_slot RUNNING Cnone 2 0)
    \/ (k = 2%nat /\ p = ex_slot ZOMBIE Cnone 3 1) \/ p = zero_proc).
  { intros k p Hk. destruct (ex_slots z k p Hk) as [|[|[[-> ->]|]]]; tauto. }
  split; cbn [core fst snd].
  - done.
  - intros k p Hk Hr. by destruct (Hs k p Hk) as [[-> ->]|[[-> ->]|[[-> ->]| ->]]].
  - intros k p j q Hk Hj Hsl Hc Hp Hzq.
    destruct (Hs k p Hk) as [[-> ->]|[[-> ->]|[[-> ->]| ->]]]; try done.
    by destruct (Hs j q Hj) as [[-> ->]|[[-> ->]|[[-> ->]| ->]]].
  - exists 0%nat, (ex_slot SLEEPING (Cproc 0) 1 NULL). split_and!; try done. by left.
  - intros j q Hj Hst Hne. destruct (Hs j q Hj) as [[-> ->]|[[-> ->]|[[-> ->]| ->]]]; try done.
    + split; [done|]. exists 0%nat, (ex_slot SLEEPING (Cproc 0) 1 NULL). split_and!; try done. by left.
    + split; [done|]. exists 1%nat, (ex_slot RUNNING Cnone 2 0). split_and!; try done. right. by right.
    + by destruct Hst as [[|[|]]|].
  - intros j q Hj Hu. destruct (Hs j q Hj) as [[-> ->]|[[-> ->]|[[-> ->]| ->]]]; try done;
      (split; [cbn; lia|]; intros k p Hk Hku E;
       by destruct (Hs k p Hk) as [[-> ->]|[[-> ->]|[[-> ->]| ->]]]).
Qed.

Lemma ex_life_good : good ex_life.
Proof. apply (running_good 1), ex_good. by left. Qed.

#[local] Existing Instance no_files.

(** The child exits and the scheduler takes over. *)
Lemma ex_exit_step : exists t, life_step 0 0 2147483648 0 0 ex_life t.
Proof.
  destruct (run_leave l_exit ex_life) as [[] s1|m| | |] eqn:E1; [|by vm_compute in E1..].
  exists (set_cur NULL (set_cr3 (V2P 2147483648) s1)). eapply (step_leave _ _ _ _ _ l_exit); [done|done|exact E1|done].
Qed.

Lemma process_table_invariant_witness :
  exists t, life_step 0 0 2147483648 0 0 ex_life t
    /\ forall k p, ks_proc t !! k = Some p -> p_state p = RUNNING -> ks_cur t = Z.of_nat k.
Proof.
  destruct ex_exit_step as [t Ht]. exists t. split; [exact Ht|].
  apply (process_table_invariant 0 0 2147483648 0 0 ex_life t ex_life_good (star_one _ _ _ Ht)).
Defined.

Lemma exit_hands_over_witness :
  exists s', exit_locked 1 0 (set_held [Lptable] ex_life) = Done tt s' /\ p_state (proc_at s' 1) = ZOMBIE.
Proof.
  destruct (exit_hands_over 1 (set_held [Lptable] ex_life)) as (s' & E & Hz & _);
    [exact (running_core 1 ex_life (set_held [Lptable] ex_life) eq_refl (ex_good _ (or_introl eq_refl)))|done|reflexivity|]. by exists s'.
Defined.

Lemma kill_outcome_witness :
  ks_held ex_life = [] /\ exists s', kill 2 ex_life = Done 0 s' \/ kill 2 ex_life = Done (-1) s'.
Proof.
  split; [reflexivity|].
  destruct (kill_outcome 2 ex_life eq_refl eq_refl) as [(i & _ & _ & _ & E)|[_ E]]; rewrite E; eauto.
Defined.

Lemma wait_without_zombie_witness :
  wait 0 (ex_with zero_proc) = Done (WDone (-1)) (ex_with zero_proc).
Proof.
  refine (wait_without_zombie 0 1 (ex_with zero_proc) (ex_good _ (or_intror eq_refl)) eq_refl _).
  intros j q Hj _. by destruct (ex_slots _ j q Hj) as [[-> ->]|[[-> ->]|[[-> ->]| ->]]].
Defined.

Lemma kill_zero_marks_free_slot_witness :
  exists s', kill 0 ex_life = Done 0 s' /\ p_state (proc_at s' 3) = UNUSED
    /\ match allocproc 0 0 s' with Done i _ => i = 3 | _ => False end.
Proof.
  destruct (kill_zero_marks_free_slot 3 ex_life eq_refl eq_refl ltac:(unfold NPROC; lia) eq_refl eq_refl) as (s' & E & Hu & _).
  - intros j Hj. assert (j = 0 \/ j = 1 \/ j = 2) as [->|[->| ->]] by lia; done.
  - exists s'. split; [exact E|]. split; [exact Hu|].
    assert (Hc : match kill 0 ex_life with Done _ s1 => match allocproc 0 0 s1 with Done i _ => i | _ => 0 end | _ => 0 end = 3)
      by (vm_compute; reflexivity).
    rewrite E in Hc. destruct (allocproc 0 0 s') as [i s2| | | |]; done.
Defined.
