(* ===== verification/MmapTheorems.v ===== *)
(** * Memory mappings (theorems on [mmap], the fault handler and [map_fork])

    Which requests and faults are refused, what a fault on an anonymous area
    maps, and why a process with a mapping cannot fork. *)
From S2P Require Import Prelude Layout Memory Locks Kalloc Vm VmSpec VmUser VmTheorems Fs ProcData Mmap ProcSched.

Section mmap.
Context {F : Type} `{FileLayer F} (kend : Z).
Implicit Types s : kstate F.

Lemma bind_panic_at {A C} (m : M (kstate F) A) (k : A -> M (kstate F) C) s msg : m s = Panic msg -> (m ≫= k) s = Panic msg.
Proof. unfold mbind, M_bind. by intros ->. Qed.

Lemma aget_eq k s : k <> NULL -> aget k s = Done (area_at s k) s.
Proof. intros Hk. unfold aget. by rewrite (proj2 (Z.eqb_neq _ _) Hk). Qed.

Lemma locks_round l s : l ∉ ks_held s -> release l (with_locks (l :: ks_held s) s) = Done tt s.
Proof.
  intros Hl. rewrite (release_top l (ks_held s)) by done. rewrite with_locks_with.
  f_equal. by destruct s.
Qed.

(** The first index of an interval with a property, or none. *)
Lemma first_index (P : Z -> Prop) `{forall x, Decision (P x)} n :
  (exists k, 0 <= k < n /\ P k /\ forall j, 0 <= j < k -> ~ P j) \/ (forall j, 0 <= j < n -> ~ P j).
Proof.
  destruct (decide (Exists P (seqZ 0 n))) as [Hex|Hno].
  - left. apply Exists_exists in Hex as (j & Hj%elem_of_seqZ & Pj).
    assert (Hm : forall m i, Z.to_nat i = m -> 0 <= i < n -> P i -> exists k, 0 <= k < n /\ P k /\ forall j, 0 <= j < k -> ~ P j).
    { induction m as [m IH] using lt_wf_ind. intros i Em Hi Pi.
      destruct (decide (Exists P (seqZ 0 i))) as [(x & Hx%elem_of_seqZ & Px)%Exists_exists|Hn].
      - apply (IH (Z.to_nat x) ltac:(lia) x eq_refl); [lia|done].
      - exists i. split_and!; try done; try lia. intros x Hx Px. apply Hn, Exists_exists. exists x.
        split; [apply elem_of_seqZ; lia|done]. }
    apply (Hm _ j eq_refl); [lia|done].
  - right. intros j Hj Pj. apply Hno, Exists_exists. exists j. split; [apply elem_of_seqZ; lia|done].
Qed.

Lemma maps_split i : 0 <= i < NMAPS -> seqZ 0 NMAPS = seqZ 0 i ++ i :: seqZ (i + 1) (NMAPS - i - 1).
Proof.
  intros Hi. transitivity (seqZ 0 (i + (NMAPS - i))); [f_equal; lia|]. rewrite seqZ_app by lia. f_equal.
  rewrite (seqZ_cons (0 + i)) by lia. f_equal; f_equal; lia.
Qed.

(** ** [map_fork] *)
Definition mine s (k : Z) : bool := (m_state (area_at s k) =? USING) && (m_p (area_at s k) =? ks_cur s).

Lemma for_each_skip {A} (l : list A) (body : A -> M (kstate F) unit) s :
  (forall x, x ∈ l -> body x s = Done tt s) -> for_each l body s = Done tt s.
Proof.
  induction l as [|x l IH]; intros Hb; [done|]. cbn [for_each]. unfold mbind, M_bind.
  rewrite Hb by set_solver. apply IH. intros y Hy. apply Hb. set_solver.
Qed.

Lemma for_each_panic {A} (l1 : list A) x l2 (body : A -> M (kstate F) unit) s msg :
  (forall y, y ∈ l1 -> body y s = Done tt s) -> body x s = Panic msg -> for_each (l1 ++ x :: l2) body s = Panic msg.
Proof.
  intros Hb Hx. induction l1 as [|y l1 IH]; cbn [for_each app]; unfold mbind, M_bind; [by rewrite Hx|].
  rewrite Hb by set_solver. apply IH. intros z Hz. apply Hb. set_solver.
Qed.

(** (C<n>) A process with a mapping cannot fork: [map_fork] asks for a free area
    while it holds the lock of the table, and the second [acquire] panics.
    Without a mapping it changes nothing and returns 1. *)
Theorem map_fork_outcomes np s :
  Lmtable ∉ ks_held s ->
  ((exists k, 0 <= k < NMAPS /\ mine s k = true) -> map_fork np s = Panic "acquire")
  /\ ((forall k, 0 <= k < NMAPS -> mine s k = false) -> map_fork np s = Done 1 s).
Proof.
  intros HL. unfold map_fork, myproc. rewrite (bind_Done _ _ s (ks_cur s) s) by done.
  assert (Hf : Lmtable ∉ locks_of s) by exact HL.
  rewrite (bind_Done _ _ _ _ _ (acquire_free Lmtable s Hf)). set (s1 := with_locks _ s).
  match goal with |- context [for_each _ ?b] => set (body := b) end.
  assert (Hskip : forall k, 0 <= k -> mine s k = false -> body k s1 = Done tt s1).
  { intros k Hk Hm. unfold body. rewrite (bind_Done _ _ _ _ _ (aget_eq k s1 ltac:(unfold NULL; lia))).
    change (area_at s1 k) with (area_at s k). unfold mine in Hm. by rewrite Hm. }
  split.
  - intros (k0 & Hk0 & Hm0).
    destruct (first_index (fun k => mine s k = true) NMAPS) as [(k & Hk & Hm & Hbefore)|Hno]; [|by destruct (Hno k0 Hk0)].
    rewrite (maps_split k Hk). apply bind_panic_at, for_each_panic.
    + intros j Hj%elem_of_seqZ. apply Hskip; [lia|]. destruct (mine s j) eqn:E; [|done]. destruct (Hbefore j); [lia|done].
    + unfold body. rewrite (bind_Done _ _ _ _ _ (aget_eq k s1 ltac:(unfold NULL; lia))).
      change (area_at s1 k) with (area_at s k). unfold mine in Hm. rewrite Hm. cbn [when]. apply bind_panic_at.
      unfold mallock. apply bind_panic_at. apply acquire_held. cbn. set_solver.
  - intros Hno. rewrite (bind_Done _ _ s1 tt s1).
    + rewrite (bind_Done _ _ _ _ _ (locks_round Lmtable s HL)). done.
    + apply for_each_skip. intros k Hk%elem_of_seqZ. apply Hskip; [lia|]. apply Hno. lia.
Qed.

(** ** The fault handler *)
Definition covers s (addr k : Z) : bool := area_covers (area_at s k) (PGROUNDDOWN addr) (ks_cur s).

(** The body of the handler's scan runs on the first area that covers the address. *)
Lemma scan_first {R} (body : Z -> M (kstate F) (option R)) (P : Z -> bool) k v s s' :
  0 <= k < NMAPS -> (forall j, 0 <= j < k -> P j = false) ->
  (forall j, 0 <= j -> P j = false -> body j s = Done None s) -> body k s = Done (Some v) s' ->
  for_ret (seqZ 0 NMAPS) body s = Done (Some v) s'.
Proof.
  intros Hk Hb Hn Hbody. rewrite (maps_split k Hk). apply for_ret_at; [|done].
  intros j Hj%elem_of_seqZ. apply Hn; [lia|]. apply Hb. lia.
Qed.

(** A fault outside every area of the process, or with an access its
    first area does not allow, is refused: the handler returns -1 and changes
    nothing. *)
Theorem page_fault_refused addr io s :
  Lmtable ∉ ks_held s ->
  ((forall k, 0 <= k < NMAPS -> covers s addr k = false)
   \/ exists k, 0 <= k < NMAPS /\ covers s addr k = true /\ m_prot (area_at s k) < io
        /\ forall j, 0 <= j < k -> covers s addr j = false) ->
  page_fault_handler addr io s = Done (-1) s.
Proof.
  intros HL Hcase. unfold page_fault_handler, myproc. cbn zeta. rewrite (bind_Done _ _ s (ks_cur s) s) by done.
  assert (Hf : Lmtable ∉ locks_of s) by exact HL.
  rewrite (bind_Done _ _ _ _ _ (acquire_free Lmtable s Hf)). set (s1 := with_locks _ s).
  match goal with |- context [for_ret _ ?b] => set (body := b) end.
  assert (Hmiss : forall k, 0 <= k -> covers s addr k = false -> body k s1 = Done None s1).
  { intros k Hk Hm. unfold body. rewrite (bind_Done _ _ _ _ _ (aget_eq k s1 ltac:(unfold NULL; lia))).
    change (area_at s1 k) with (area_at s k). unfold covers in Hm. by rewrite Hm. }
  destruct Hcase as [Hno|(k & Hk & Hc & Hp & Hb)].
  - rewrite (bind_Done _ _ s1 None s1).
    + by rewrite (bind_Done _ _ _ _ _ (locks_round Lmtable s HL)).
    + apply for_ret_none. intros k Hk%elem_of_seqZ. apply Hmiss; [lia|]. apply Hno. lia.
  - rewrite (bind_Done _ _ s1 (Some (-1)) s); [done|]. apply (scan_first _ (covers s addr) k); try done.
    unfold body. rewrite (bind_Done _ _ _ _ _ (aget_eq k s1 ltac:(unfold NULL; lia))).
    change (area_at s1 k) with (area_at s k). unfold covers in Hc. rewrite Hc.
    rewrite (proj2 (Z.ltb_lt _ _) Hp). by rewrite (bind_Done _ _ _ _ _ (locks_round Lmtable s HL)).
Qed.

Lemma on_k_Done {A} (m : M kst A) s a k :
  m (with_locks (ks_held s) (ks_kst s)) = Done a k -> on_k m s = Done a (set_held (locks_of k) (set_kst k s)).
Proof. unfold on_k, zoom. by intros ->. Qed.

(** (C29) A fault in a writable anonymous area: the first free page, zeroed, is
    mapped writable at the address and nothing else of the address space changes
    ([grown] with result 0).  This is so whenever the page table of the address is
    there or a second page is free to become it.  Only when both fail
    ([map_result] is -1) is no entry made; the handler returns 1 all the same: the
    page is taken from the free list, no entry names it, and the process faults
    again. *)
Theorem anonymous_fault_maps addr io k q l s :
  let me := ks_cur s in let m := area_at s k in let a := PGROUNDDOWN addr in
  let pgdir := p_pgdir (proc_at s me) in
  let K := with_locks (Lmtable :: ks_held s) (ks_kst s) in
  KERNBASE < kend ->
  Lmtable ∉ ks_held s -> Lkmem ∉ ks_held s -> me <> NULL ->
  0 <= k < NMAPS -> covers s addr k = true -> (forall j, 0 <= j < k -> covers s addr j = false) ->
  m_f m = NULL -> 1 < m_prot m -> io <= m_prot m ->
  aspace kend K pgdir (q :: l) -> 0 <= a < KERNBASE -> ~ present (pt_entry (k_mem K) pgdir a) ->
  exists k2 l2, page_fault_handler addr io s = Done 1 (set_kst k2 s)
    /\ grown kend pgdir a q K l (map_result K pgdir a l) k2 l2
    /\ (l <> [] \/ pte_addr (k_mem K) pgdir a <> None ->
          pt_entry (k_mem k2) pgdir a = mk_pte (V2P q) (PTE_W ||| PTE_U)
          /\ forall b, in_page b q -> rd8 (k_mem k2) b = 0).
Proof.
  intros me m a pgdir K Hkend HL HLk Hme Hk Hc Hb Hf Hp Hio Has Ha Hnp.
  assert (Ham : a `mod` 4096 = 0) by (unfold a; rewrite PGROUNDDOWN_eq; zlia).
  destruct (grow_page kend Hkend pgdir a K q l Has Ha Ham Hnp) as (r & k2 & l2 & Em & Hg).
  pose proof (grow_page_result kend Hkend pgdir a K q l r k2 Has Ha Ham Hnp Em) as Hr.
  exists k2, l2. split; [|rewrite <- Hr; split; [exact Hg|]].
  2: { intros Hroom. split; [|apply (gr_zero _ _ _ _ _ _ _ _ _ Hg)].
       rewrite (gr_entry _ _ _ _ _ _ _ _ _ Hg a Ha), decide_True; [done|]. split; [|done].
       rewrite Hr. unfold map_result. rewrite decide_False; [done|]. tauto. }
  assert (Hfree : k_freelist K = q) by apply (as_kinv _ _ _ _ Has).
  assert (Hq0 : q <> 0).
  { pose proof (kinv_pages _ _ _ (as_kinv _ _ _ _ Has)) as Hkp. apply Forall_cons in Hkp as [Hkp _].
    by apply (kpage_nonzero kend). }
  unfold page_fault_handler, myproc. cbn zeta. rewrite (bind_Done _ _ s me s) by done.
  assert (Hfl : Lmtable ∉ locks_of s) by exact HL.
  rewrite (bind_Done _ _ _ _ _ (acquire_free Lmtable s Hfl)). set (s1 := with_locks _ s).
  match goal with |- context [for_ret _ ?b] => set (body := b) end.
  rewrite (bind_Done _ _ s1 (Some 1) (set_kst k2 s)); [done|]. apply (scan_first _ (covers s addr) k); try done.
  { intros j Hj Hm. unfold body. rewrite (bind_Done _ _ _ _ _ (aget_eq j s1 ltac:(unfold NULL; lia))).
    change (area_at s1 j) with (area_at s j). unfold covers in Hm. fold me in Hm. by rewrite Hm. }
  unfold body. rewrite (bind_Done _ _ _ _ _ (aget_eq k s1 ltac:(unfold NULL; lia))).
  change (area_at s1 k) with m. unfold covers in Hc. fold m me in Hc. rewrite Hc.
  rewrite (proj2 (Z.ltb_ge _ _) Hio). rewrite Hf. change (NULL !=? NULL) with false. cbv iota.
  assert (Ekal : on_k kalloc s1 = Done q (set_held (Lmtable :: ks_held s) (set_kst (kalloc_post K) s1))).
  { rewrite <- Hfree at 1. apply (on_k_Done kalloc s1 (k_freelist K) (kalloc_post K)), (kalloc_eq K). cbn. set_solver. }
  set (s2 := set_held (Lmtable :: ks_held s) (set_kst (kalloc_post K) s1)) in Ekal.
  assert (Ez : zeroed_page s1 = Done q (set_kst (upd_mem (memset q 0 PGSIZE) (kalloc_post K)) s1)).
  { unfold zeroed_page. rewrite (bind_Done _ _ _ _ _ Ekal). rewrite (proj2 (Z.eqb_neq _ _) Hq0).
    erewrite bind_Done by (apply on_k_Done; reflexivity). reflexivity. }
  rewrite (bind_Done _ _ _ _ _ Ez). set (s3 := set_kst _ s1).
  rewrite (bind_Done _ _ s3 (proc_at s me) s3).
  2: { unfold curproc, myproc. rewrite (bind_Done _ _ s3 me s3) by done. unfold pget. by rewrite (proj2 (Z.eqb_neq _ _) Hme). }
  assert (Eprot : ((if m_prot m >? 1 then 2 else 0) ||| PTE_U) = (PTE_W ||| PTE_U)).
  { assert ((m_prot m >? 1) = true) as -> by lia. done. }
  rewrite Eprot. fold pgdir a.
  assert (Emap : on_k (mappages pgdir a PGSIZE (V2P q) (PTE_W ||| PTE_U)) s3 = Done r (set_held (locks_of k2) (set_kst k2 s3)))
    by (apply on_k_Done; exact Em).
  rewrite (bind_Done _ _ _ _ _ Emap).
  assert (Hk2 : locks_of k2 = Lmtable :: ks_held s) by (destruct (gr_frame _ _ _ _ _ _ _ _ _ Hg) as [_ E]; exact E).
  set (s4 := set_held _ _). rewrite (bind_Done _ _ s4 tt (set_kst k2 s)); [done|].
  rewrite (release_top Lmtable (ks_held s)) by (first [exact Hk2|exact HL]). by destruct s.
Qed.
End mmap.

(** ** An instance: process 0, with one writable anonymous area and no page of it
    mapped yet *)
#[local] Existing Instance no_files.

Definition ex_area : mmap_area := MmapArea NULL MMAPBASE 4096 0 3 1 0 USING.
Definition ex_proc0 : proc :=
  Proc 4096 ex_dir 2147504128 RUNNING 1 NULL 0 0 Cnone 0 (replicate 16 NULL) NULL [] 20 1024 0 0 0 0 0.
Definition ex_mapped : kstate (list lock) :=
  Kstate (ex_proc0 :: replicate 63 zero_proc) 0 2 0 0 false (ex_state 3) [] (ex_area :: replicate 63 zero_area) 0 [] [].

Lemma map_fork_outcomes_witness :
  mine ex_mapped 0 = true /\ map_fork 1 ex_mapped = Panic "acquire".
Proof.
  split; [reflexivity|]. apply (proj1 (map_fork_outcomes 1 ex_mapped ltac:(apply not_elem_of_nil))).
  exists 0. split; [unfold NMAPS; lia|reflexivity].
Defined.

Lemma page_fault_refused_witness :
  page_fault_handler MMAPBASE 4 ex_mapped = Done (-1) ex_mapped.
Proof.
  refine (page_fault_refused MMAPBASE 4 ex_mapped ltac:(apply not_elem_of_nil) _).
  right. exists 0. split; [unfold NMAPS; lia|]. split; [reflexivity|]. split; [reflexivity|]. intros j Hj. lia.
Defined.

Lemma ex_mapped_aspace :
  aspace ex_end (with_locks [Lmtable] (ex_state 3)) ex_dir (ex_page :: pages (ex_page + 4096) 2).
Proof.
  destruct ex_aspace3 as [[K1 K2 K3 K4] W U]. split; [|exact W|exact U]. split; [exact K1|exact K2|exact K3|].
  cbn. set_solver.
Qed.

Lemma anonymous_fault_maps_witness :
  exists k2 l2, page_fault_handler (MMAPBASE + 5) 2 ex_mapped = Done 1 (set_kst k2 ex_mapped)
    /\ grown ex_end ex_dir MMAPBASE ex_page (with_locks [Lmtable] (ex_state 3)) (pages (ex_page + 4096) 2) 0 k2 l2
    /\ pt_entry (k_mem k2) ex_dir MMAPBASE = mk_pte (V2P ex_page) (PTE_W ||| PTE_U).
Proof.
  assert (Hl : pages (ex_page + 4096) 2 <> []) by discriminate.
  edestruct (anonymous_fault_maps ex_end (MMAPBASE + 5) 2 0 ex_page (pages (ex_page + 4096) 2) ex_mapped)
    as (k2 & l2 & E & Hg & Hroom);
    [..|exists k2, l2; split; [exact E|]; split; [|exact (proj1 (Hroom (or_introl Hl)))]].
  - reflexivity.
  - apply not_elem_of_nil.
  - apply not_elem_of_nil.
  - discriminate.
  - unfold NMAPS. lia.
  - reflexivity.
  - intros j Hj. lia.
  - reflexivity.
  - reflexivity.
  - discriminate.
  - exact ex_mapped_aspace.
  - vm_compute. split; [discriminate|reflexivity].
  - change (~ present (pt_entry (k_mem (ex_state 3)) ex_dir (PGROUNDDOWN (MMAPBASE + 5)))).
    rewrite ex_entry. by intros [].
  - unfold map_result in Hg. rewrite decide_False in Hg by (intros [? _]; done). exact Hg.
Defined.
