(* ===== verification/File.v ===== *)
(** * Open files ([file.c]) and their layer ([FileLayer] of [ProcData.v])

    The table of open files over the file system of [Fs.v] and the pipes of
    [Pipe.v].  A pipe is named by the address of its page, a file by its index
    in [ftable.file].  [fileread] gives the bytes it stores with its result.
    A read or write that waits for the other end of a pipe ends in [Sleep]; the
    call then runs again from its loop test ([Pipe.v]). *)
From S2P Require Import Prelude Layout Locks Sleeplock Pipe Blocks BlockMem Log Fs ProcData.

Inductive filetype := FD_NONE | FD_PIPE | FD_INODE.
#[export] Instance filetype_eq_dec : EqDecision filetype.
Proof. solve_decision. Defined.

Record file := File {
  fl_type : filetype; fl_ref : Z; fl_readable : Z; fl_writable : Z; fl_pipe : Z; fl_ip : Z; fl_off : Z }.
#[export] Instance file_inhabited : Inhabited file := populate (File FD_NONE 0 0 0 0 NULL 0).

Definition with_fref (r : Z) (f : file) : file :=
  File (fl_type f) r (fl_readable f) (fl_writable f) (fl_pipe f) (fl_ip f) (fl_off f).
Definition with_ftype (t : filetype) (f : file) : file :=
  File t (fl_ref f) (fl_readable f) (fl_writable f) (fl_pipe f) (fl_ip f) (fl_off f).
Definition with_foff (o : Z) (f : file) : file :=
  File (fl_type f) (fl_ref f) (fl_readable f) (fl_writable f) (fl_pipe f) (fl_ip f) o.

(** The file system, [ftable.file], the pipes, the wake-ups issued on them and
    [myproc()->killed]. *)
Record flst (S : Type) := Flst {
  fs_of : fsst S; fs_files : list file; fs_pipes : gmap Z pipe; fs_pwakes : list (Z * chan); fs_killed : Z }.
Arguments Flst {S}. Arguments fs_of {S}. Arguments fs_files {S}. Arguments fs_pipes {S}. Arguments fs_pwakes {S}.
Arguments fs_killed {S}.

#[export] Instance pipe_inhabited : Inhabited pipe := populate (Pipe [] 0 0 0 0).

Section file.
Context {S : Type} `{BlockLayer S} (devs : Z -> devsw S).
Implicit Types s : flst S.
Abbreviation L := (M (flst S)).

Definition set_fsst (x : fsst S) s : flst S := Flst x (fs_files s) (fs_pipes s) (fs_pwakes s) (fs_killed s).
Definition set_files (l : list file) s : flst S := Flst (fs_of s) l (fs_pipes s) (fs_pwakes s) (fs_killed s).

#[export, program] Instance flst_locks : HasLocks (flst S) := {|
  locks_of s := locks_of (fs_of s);
  with_locks L s := set_fsst (with_locks L (fs_of s)) s |}.
Next Obligation. done. Qed.
Next Obligation. done. Qed.
Next Obligation. by intros [[[] ? ? ? ?] ? ? ? ?]. Qed.

Definition on_fs {A} (m : M (fsst S) A) : L A := zoom fs_of set_fsst m.
Definition file_at s (f : Z) : file := fs_files s !!! Z.to_nat f.
Definition fget (f : Z) : L file := if f =? NULL then undef "null file" else gets (fun s => file_at s f).
Definition fset (f : Z) (g : file -> file) : L unit :=
  if f =? NULL then undef "null file"
  else modify (fun s => set_files (alter g (Z.to_nat f) (fs_files s)) s).

(** Running the code of [pipe.c] on the pipe at [p]; a freed page is gone. *)
Definition on_pipe {A} (p : Z) (m : M pst A) : L A :=
  zoom (fun s => Pst (fs_pipes s !!! p) false [] [] (locks_of s))
       (fun t s => with_locks (ps_held t)
          (Flst (fs_of s) (fs_files s)
             (if ps_freed t then delete p (fs_pipes s) else <[p := ps_pipe t]> (fs_pipes s))
             (((fun c => (p, c)) <$> ps_wakes t) ++ fs_pwakes s) (fs_killed s))) m.

Definition filealloc : L Z :=
  acquire Lftable ;;
  r ← for_ret (seqZ 0 NFILE) (fun f =>
    x ← fget f;
    if fl_ref x =? 0 then fset f (with_fref 1) ;; release Lftable ;; mret (Some f) else mret None);
  match r with
  | Some f => mret f
  | None => release Lftable ;; mret NULL
  end.

Definition filedup (f : Z) : L Z :=
  acquire Lftable ;;
  x ← fget f;
  if fl_ref x <? 1 then panic "filedup"
  else fset f (fun x => with_fref (i32 (fl_ref x + 1)) x) ;; release Lftable ;; mret f.

(** [begin_op]; a wait for log space ends the run. *)
Definition begin_op_ : L unit :=
  ok ← on_fs (on_log begin_op_run);
  if (ok : bool) then mret tt else sleep_on "log".
Definition end_op_ : L unit := on_fs (on_log end_op).

Definition fileclose (f : Z) : L unit :=
  acquire Lftable ;;
  x ← fget f;
  if fl_ref x <? 1 then panic "fileclose"
  else
    fset f (fun x => with_fref (fl_ref x - 1) x) ;;
    ff ← fget f;
    if fl_ref ff >? 0 then release Lftable
    else
      fset f (with_fref 0) ;;
      fset f (with_ftype FD_NONE) ;;
      release Lftable ;;
      match fl_type ff with
      | FD_PIPE => on_pipe (fl_pipe ff) (pipeclose (Lpipe (fl_pipe ff)) (truth (fl_writable ff)))
      | FD_INODE => begin_op_ ;; on_fs (iput (fl_ip ff)) ;; end_op_
      | FD_NONE => mret tt
      end.

Definition filestat (f : Z) : L (Z * option stat) :=
  x ← fget f;
  match fl_type x with
  | FD_INODE =>
      on_fs (ilock (fl_ip x)) ;;
      st ← on_fs (stati (fl_ip x));
      on_fs (iunlock (fl_ip x)) ;;
      mret (0, Some st)
  | _ => mret (-1, None)
  end.

(** A run of [piperead] and the bytes it stored. *)
Definition read_pipe (p n : Z) : L (Z * list Z) :=
  k ← gets fs_killed;
  r ← on_pipe p (o ← piperead_run (Lpipe p) (truth k) n; out ← gets ps_out; mret (o, out));
  match r with
  | (PRet v, out) => mret (v, out)
  | (PSleep _ _, _) => sleep_on "pipe"
  end.

Definition fileread (f n : Z) : L (Z * list Z) :=
  x ← fget f;
  if fl_readable x =? 0 then mret (-1, [])
  else match fl_type x with
  | FD_PIPE => read_pipe (fl_pipe x) n
  | FD_INODE =>
      on_fs (ilock (fl_ip x)) ;;
      rb ← on_fs (readi devs (fl_ip x) (fl_off x) (u32 n));
      when (rb.1 >? 0) (fset f (fun x => with_foff (u32 (fl_off x + rb.1)) x)) ;;
      on_fs (iunlock (fl_ip x)) ;;
      mret rb
  | FD_NONE => panic "fileread"
  end.

Definition write_pipe (p : Z) (addr : list Z) (n : Z) : L Z :=
  k ← gets fs_killed;
  r ← on_pipe p (pipewrite (Lpipe p) (truth k) (fun i => addr !!! Z.to_nat i) n);
  match r with
  | PRet v => mret v
  | PSleep _ _ => sleep_on "pipe"
  end.

Definition max_write : Z := ((MAXOPBLOCKS - 1 - 1 - 2) `quot` 2) * 512.

(** One transaction of [filewrite]. *)
Definition filewrite_body (f : Z) (addr : list Z) (n : Z) (i : Z) : L (Z + Z) :=
  if negb (i <? n) then mret (inr i)
  else
    let n1 := if n - i >? max_write then max_write else n - i in
    begin_op_ ;;
    x ← fget f;
    on_fs (ilock (fl_ip x)) ;;
    r ← on_fs (writei devs (fl_ip x) (drop (Z.to_nat i) addr) (fl_off x) (u32 n1));
    when (r >? 0) (fset f (fun x => with_foff (u32 (fl_off x + r)) x)) ;;
    on_fs (iunlock (fl_ip x)) ;;
    end_op_ ;;
    if r <? 0 then mret (inr i)
    else if r !=? n1 then panic "short filewrite"
    else mret (inl (i + r)).

Definition filewrite (f : Z) (addr : list Z) (n : Z) : L Z :=
  x ← fget f;
  if fl_writable x =? 0 then mret (-1)
  else match fl_type x with
  | FD_PIPE => write_pipe (fl_pipe x) addr n
  | FD_INODE =>
      i ← loop (Z.to_nat (n `div` max_write) + 2) (filewrite_body f addr n) 0;
      mret (if i =? n then n else -1)
  | FD_NONE => panic "filewrite"
  end.

(** The interface the process layer is written against. *)
#[export] Instance files : FileLayer (flst S) := {|
  fl_locks := flst_locks;
  ProcData.filedup := filedup;
  ProcData.fileclose := fileclose;
  ProcData.fileread := fileread;
  f_readable f s := fl_readable (file_at s f);
  f_writable f s := fl_writable (file_at s f);
  f_set_off f o := fset f (with_foff o);
  f_off f s := fl_off (file_at s f);
  inode_dup ip := on_fs (idup ip);
  inode_put ip := on_fs (iput ip);
  fs_begin_op := begin_op_;
  fs_end_op := end_op_;
  root_inode := on_fs (namei devs [slash]);
  fs_init := on_fs (iinit ROOTDEV ;; on_log (initlog ROOTDEV)) |}.
End file.
