(* ===== verification/FileTheorems.v ===== *)
(** * Open files (theorems)

    The life of an entry of the file table: which entry [filealloc] hands out,
    and when the last [fileclose] lets go of the pipe or inode behind it. *)
From S2P Require Import Prelude Layout Locks Sleeplock Pipe Blocks BlockMem Log Fs FsSpec ProcData File.

Section files.
Context {S : Type} `{BlockLayer S}.
Implicit Types s : flst S.

Lemma fget_eq f s : f <> NULL -> fget f s = Done (file_at s f) s.
Proof. intros Hf. unfold fget. by rewrite (proj2 (Z.eqb_neq _ _) Hf). Qed.
Lemma fset_eq f g s : f <> NULL -> fset f g s = Done tt (set_files (alter g (Z.to_nat f) (fs_files s)) s).
Proof. intros Hf. unfold fset. by rewrite (proj2 (Z.eqb_neq _ _) Hf). Qed.

Lemma files_round s : Lftable ∉ locks_of s -> release Lftable (with_locks (Lftable :: locks_of s) s) = Done tt s.
Proof.
  intros HL. rewrite (release_top Lftable (locks_of s)) by (first [done|apply locks_of_with]).
  by rewrite with_locks_with, with_locks_of.
Qed.

(** Releasing the lock taken on entry after a change of the table. *)
Lemma files_release l s :
  Lftable ∉ locks_of s ->
  release Lftable (set_files l (with_locks (Lftable :: locks_of s) s)) = Done tt (set_files l s).
Proof.
  intros HL. rewrite (release_top Lftable (locks_of s)) by (first [done|apply locks_of_with]).
  by destruct s as [[[] ? ? ? ?] ? ? ? ?].
Qed.

Lemma filealloc_eq s :
  Lftable ∉ locks_of s ->
  wp filealloc (fun r s' =>
    (0 <= r < NFILE /\ fl_ref (file_at s r) = 0 /\ (forall j, 0 <= j < r -> fl_ref (file_at s j) <> 0)
       /\ s' = set_files (alter (with_fref 1) (Z.to_nat r) (fs_files s)) s)
    \/ (r = NULL /\ s' = s /\ forall j, 0 <= j < NFILE -> fl_ref (file_at s j) <> 0)) s.
Proof.
  intros HL. unfold filealloc. apply wp_bind, wp_acquire; [done|]. set (s1 := with_locks _ s). apply wp_bind.
  apply (wp_for_ret_find (fun x => x = s1) (fun j => fl_ref (file_at s j) =? 0)); [done|..].
  - intros x s' Hx%elem_of_seqZ -> Hp. apply wp_bind. eapply wp_Done; [apply fget_eq; unfold NULL; lia|].
    change (file_at s1 x) with (file_at s x). rewrite Hp. by apply wp_ret.
  - intros pre x post s' El Hpre Hp ->. assert (Hx : x ∈ seqZ 0 NFILE) by (rewrite El; set_solver).
    apply elem_of_seqZ in Hx. apply wp_bind. eapply wp_Done; [apply fget_eq; unfold NULL; lia|].
    change (file_at s1 x) with (file_at s x). rewrite Hp. apply wp_bind.
    eapply wp_Done; [apply fset_eq; unfold NULL; lia|]. apply wp_bind. eapply wp_Done; [by apply files_release|].
    apply wp_ret. exists x. split; [done|]. apply wp_ret. left. split; [lia|]. split; [lia|]. split; [|done].
    intros j Hj E. rewrite Forall_forall in Hpre.
    assert (Hjp : j ∈ pre) by (eapply seqZ_before; [exact El|lia]). specialize (Hpre j Hjp). lia.
  - intros Hall s' ->. apply wp_bind. eapply wp_Done; [by apply files_round|]. apply wp_ret. right.
    split; [done|]. split; [done|]. intros j Hj E. rewrite Forall_forall in Hall.
    assert (Hin : j ∈ seqZ 0 NFILE) by (apply elem_of_seqZ; lia). specialize (Hall j Hin). cbn in Hall. lia.
Qed.

(** What the last [fileclose] of a file does once the entry is free. *)
Definition let_go (x : file) : M (flst S) unit :=
  match fl_type x with
  | FD_PIPE => on_pipe (fl_pipe x) (pipeclose (Lpipe (fl_pipe x)) (truth (fl_writable x)))
  | FD_INODE => begin_op_ ;; on_fs (iput (fl_ip x)) ;; end_op_
  | FD_NONE => mret tt
  end.

(** [filealloc] gives out the first entry without a reference, with one
    reference, or NULL when there is none; [filedup] adds a reference and
    [fileclose] takes one away, both stopping the kernel on an entry without
    one; only the last [fileclose] frees the entry, before it closes the end of
    the pipe or gives back the inode, with the table's lock released. *)
Theorem file_references f s :
  Lftable ∉ locks_of s -> length (fs_files s) = Z.to_nat NFILE -> 0 <= f < NFILE -> fl_ref (file_at s f) < 2147483647 ->
  (exists r s', filealloc s = Done r s' /\
    ((0 <= r < NFILE /\ fl_ref (file_at s r) = 0 /\ (forall j, 0 <= j < r -> fl_ref (file_at s j) <> 0)
       /\ s' = set_files (alter (with_fref 1) (Z.to_nat r) (fs_files s)) s)
     \/ (r = NULL /\ s' = s /\ forall j, 0 <= j < NFILE -> fl_ref (file_at s j) <> 0)))
  /\ filedup f s = (if fl_ref (file_at s f) <? 1 then Panic "filedup"
       else Done f (set_files (alter (with_fref (fl_ref (file_at s f) + 1)) (Z.to_nat f) (fs_files s)) s))
  /\ fileclose f s = (if fl_ref (file_at s f) <? 1 then Panic "fileclose"
       else if fl_ref (file_at s f) >? 1
       then Done tt (set_files (alter (with_fref (fl_ref (file_at s f) - 1)) (Z.to_nat f) (fs_files s)) s)
       else let_go (file_at s f) (set_files (alter (fun x => with_ftype FD_NONE (with_fref 0 x)) (Z.to_nat f) (fs_files s)) s)).
Proof.
  intros HL Hlen Hf Hmax. assert (Hn : f <> NULL) by (unfold NULL; lia).
  assert (Hk : fs_files s !! Z.to_nat f = Some (file_at s f)) by (apply list_lookup_lookup_total_lt; lia).
  assert (Hext : forall g h, g (file_at s f) = h (file_at s f) ->
    alter g (Z.to_nat f) (fs_files s) = alter h (Z.to_nat f) (fs_files s)).
  { intros g h E. apply list_alter_ext; [|done]. intros x Hx. rewrite Hk in Hx. by injection Hx as <-. }
  assert (Htw : forall (g h : file -> file) (l : list file), alter g (Z.to_nat f) (alter h (Z.to_nat f) l) = alter (fun x => g (h x)) (Z.to_nat f) l).
  { intros g h l. generalize (Z.to_nat f). induction l as [|x l IH]; intros [|n]; cbn; try done. by rewrite IH. }
  split; [apply wp_inv; by apply filealloc_eq|]. split.
  - unfold filedup. rewrite (bind_Done _ _ _ _ _ (acquire_free Lftable s HL)). set (s1 := with_locks _ s).
    rewrite (bind_Done _ _ _ _ _ (fget_eq f s1 Hn)). change (file_at s1 f) with (file_at s f).
    destruct (fl_ref (file_at s f) <? 1) eqn:E; [done|]. rewrite (bind_Done _ _ _ _ _ (fset_eq f _ s1 Hn)).
    rewrite (bind_Done _ _ _ _ _ (files_release _ s HL)). unfold mret, M_ret. f_equal. f_equal.
    apply Hext. by rewrite i32_small by lia.
  - unfold fileclose. rewrite (bind_Done _ _ _ _ _ (acquire_free Lftable s HL)). set (s1 := with_locks _ s).
    rewrite (bind_Done _ _ _ _ _ (fget_eq f s1 Hn)). change (file_at s1 f) with (file_at s f).
    destruct (fl_ref (file_at s f) <? 1) eqn:E; [done|]. rewrite (bind_Done _ _ _ _ _ (fset_eq f _ s1 Hn)).
    set (s2 := set_files _ s1). rewrite (bind_Done _ _ _ _ _ (fget_eq f s2 Hn)).
    assert (E2 : file_at s2 f = with_fref (fl_ref (file_at s f) - 1) (file_at s f)).
    { unfold file_at at 1. unfold s2. cbn. apply list_lookup_total_correct. by rewrite list_lookup_alter_eq, Hk. }
    rewrite E2. cbn [fl_ref with_fref fl_type fl_pipe fl_writable fl_ip].
    destruct (fl_ref (file_at s f) >? 1) eqn:E3.
    + assert ((fl_ref (file_at s f) - 1 >? 0) = true) as -> by lia. unfold s2. change (fs_files s1) with (fs_files s).
      rewrite (files_release _ s HL). f_equal. f_equal. by apply Hext.
    + assert ((fl_ref (file_at s f) - 1 >? 0) = false) as -> by lia.
      rewrite (bind_Done _ _ _ _ _ (fset_eq f _ s2 Hn)). set (s3 := set_files _ s2).
      rewrite (bind_Done _ _ _ _ _ (fset_eq f _ s3 Hn)).
      assert (E4 : set_files (alter (with_ftype FD_NONE) (Z.to_nat f) (fs_files s3)) s3
        = set_files (alter (fun x => with_ftype FD_NONE (with_fref 0 x)) (Z.to_nat f) (fs_files s)) s1).
      { unfold s3, s2. cbn. rewrite !Htw. unfold set_files. cbn. f_equal. }
      rewrite E4, (bind_Done _ _ _ _ _ (files_release _ s HL)). done.
Qed.
End files.

(** ** An instance: two files, the first with one reference to nothing *)
Definition ex_files : flst bmem :=
  Flst (Fsst (Lgst 0 0 0 0 1 0 [] (Bmem ∅ ∅ ∅ ∅ 0) [] 0 []) (Superblock 0 0 0 0 0 0 0) [] 1 0)
    (File FD_NONE 1 0 0 0 NULL 0 :: replicate 99 (File FD_NONE 0 0 0 0 NULL 0)) ∅ [] 0.

Lemma file_references_witness :
  (exists s', filealloc ex_files = Done 1 s') /\ exists s', fileclose 0 ex_files = Done tt s' /\ fl_ref (file_at s' 0) = 0.
Proof.
  destruct (file_references 0 ex_files ltac:(apply not_elem_of_nil) eq_refl ltac:(unfold NFILE; lia) eq_refl)
    as ((r & s' & E & Hr) & _ & Ec).
  split; [|eexists; split; [exact Ec|reflexivity]].
  exists s'. rewrite E. f_equal. destruct Hr as [(Hr1 & Hr0 & Hlt & _)|(_ & _ & Hall)].
  - destruct (decide (r = 0)) as [->|]; [done|]. destruct (decide (r = 1)) as [|Hne]; [done|].
    exfalso. exact (Hlt 1 ltac:(lia) eq_refl).
  - exfalso. exact (Hall 1 ltac:(unfold NFILE; lia) eq_refl).
Defined.
