(* ===== verification/Ide.v ===== *)
(** * The IDE disk driver ([ide.c])

    The queue of requests is a list linked through [qnext] from [idequeue]; its head
    is the request the controller works on.  The controller is the part of a
    programmed-I/O ATA disk the driver relies on: its task-file registers, the sector
    it offers or expects after a command, two drives of sectors; the values its
    status register will give are a list, after which it is ready.  A buffer is an
    index of [bcache.buf], and [NULL] the null pointer.  [iderw_run] is [iderw] up to its
    return or its [sleep], [iderw_woken] what it does when it is woken.

    The theorems: the driver is an atomic disk.  Requests take effect in the order
    of their calls, each interrupt completes the oldest one with the result it had in that
    order, and a process that sleeps has its request in the queue. *)
From stdpp Require Import gmap.
From S2P Require Import Prelude Layout Locks Sleeplock Bio.

Definition SECTOR_SIZE : Z := 512.
Definition IDE_BSY : Z := 128.
Definition IDE_DRDY : Z := 64.
Definition IDE_DF : Z := 32.
Definition IDE_ERR : Z := 1.
Definition IDE_CMD_READ : Z := 32.
Definition IDE_CMD_WRITE : Z := 48.
Definition IDE_CMD_RDMUL : Z := 196.
Definition IDE_CMD_WRMUL : Z := 197.
Definition NULL : Z := -1.

(** ** The controller *)
Definition sectors := gmap (Z * Z) (list Z).
Record ata := Ata {
  a_status : list Z;              (** what the status register gives next *)
  a_count : Z; a_lba0 : Z; a_lba1 : Z; a_lba2 : Z; a_drive : Z; a_control : Z;
  a_offer : list Z;               (** the sector to be read from the data port *)
  a_expect : option (Z * Z);      (** where the next data written goes *)
  a_disk : sectors }.

(** The sector the registers name: the drive and the 28-bit block address. *)
Definition selected (a : ata) : Z * Z :=
  ((a_drive a ≫ 4) &&& 1, a_lba0 a ||| (a_lba1 a ≪ 8) ||| (a_lba2 a ≪ 16) ||| ((a_drive a &&& 15) ≪ 24)).
Definition with_status (l : list Z) (a : ata) : ata :=
  Ata l (a_count a) (a_lba0 a) (a_lba1 a) (a_lba2 a) (a_drive a) (a_control a) (a_offer a) (a_expect a) (a_disk a).
Definition with_transfer (o : list Z) (e : option (Z * Z)) (d : sectors) (a : ata) : ata :=
  Ata (a_status a) (a_count a) (a_lba0 a) (a_lba1 a) (a_lba2 a) (a_drive a) (a_control a) o e d.
(** A write to a port. *)
Definition ata_write (port v : Z) (a : ata) : ata :=
  let '(Ata st n l0 l1 l2 dr ct o e d) := a in
  if port =? 0x1f2 then Ata st v l0 l1 l2 dr ct o e d
  else if port =? 0x1f3 then Ata st n v l1 l2 dr ct o e d
  else if port =? 0x1f4 then Ata st n l0 v l2 dr ct o e d
  else if port =? 0x1f5 then Ata st n l0 l1 v dr ct o e d
  else if port =? 0x1f6 then Ata st n l0 l1 l2 v ct o e d
  else if port =? 0x3f6 then Ata st n l0 l1 l2 dr v o e d
  else if (port =? 0x1f7) && (n =? 1) then
    (if v =? 0x20 then with_transfer (d !!! selected a) None d a
     else if v =? 0x30 then with_transfer o (Some (selected a)) d a
     else a)
  else a.
(** The data port: a sector is stored, or read. *)
Definition ata_data (x : list Z) (a : ata) : ata :=
  match a_expect a with
  | Some k => with_transfer (a_offer a) None (<[k := x]> (a_disk a)) a
  | None => a
  end.
(** The status register: its next value, and the first value that says ready. *)
Definition ata_status (a : ata) : Z * ata :=
  match a_status a with [] => (IDE_DRDY, a) | r :: l => (r, with_status l a) end.
Fixpoint ready (l : list Z) : Z * list Z :=
  match l with
  | [] => (IDE_DRDY, [])
  | r :: l' => if (r &&& (IDE_BSY ||| IDE_DRDY)) =? IDE_DRDY then (r, l') else ready l'
  end.

(** ** The driver *)
Record ide := Ide {
  d_buf : gmap Z buf;
  d_qnext : gmap Z Z;
  d_queue : Z;            (** [idequeue] *)
  d_disk1 : bool;         (** [havedisk1] *)
  d_ata : ata;
  d_asleep : gset Z;      (** the buffers processes sleep on *)
  d_pid : Z;
  d_held : list lock }.

#[export, program] Instance ide_locks : HasLocks ide := {|
  locks_of := d_held;
  with_locks L s := Ide (d_buf s) (d_qnext s) (d_queue s) (d_disk1 s) (d_ata s) (d_asleep s) (d_pid s) L |}.
Next Obligation. done. Qed.
Next Obligation. done. Qed.
Next Obligation. by intros []. Qed.

Definition ibuf (s : ide) (b : Z) : buf := d_buf s !!! b.
Definition on_buf (b : Z) (f : buf -> buf) (s : ide) : ide :=
  Ide (<[b := f (ibuf s b)]> (d_buf s)) (d_qnext s) (d_queue s) (d_disk1 s) (d_ata s) (d_asleep s) (d_pid s) (d_held s).
Definition on_ata (f : ata -> ata) (s : ide) : ide :=
  Ide (d_buf s) (d_qnext s) (d_queue s) (d_disk1 s) (f (d_ata s)) (d_asleep s) (d_pid s) (d_held s).
Definition set_qnext (b v : Z) (s : ide) : ide :=
  Ide (d_buf s) (<[b := v]> (d_qnext s)) (d_queue s) (d_disk1 s) (d_ata s) (d_asleep s) (d_pid s) (d_held s).
Definition set_queue (v : Z) (s : ide) : ide :=
  Ide (d_buf s) (d_qnext s) v (d_disk1 s) (d_ata s) (d_asleep s) (d_pid s) (d_held s).
Definition set_disk1 (v : bool) (s : ide) : ide :=
  Ide (d_buf s) (d_qnext s) (d_queue s) v (d_ata s) (d_asleep s) (d_pid s) (d_held s).
Definition set_asleep (f : gset Z -> gset Z) (s : ide) : ide :=
  Ide (d_buf s) (d_qnext s) (d_queue s) (d_disk1 s) (d_ata s) (f (d_asleep s)) (d_pid s) (d_held s).

Definition outb (port v : Z) : M ide unit := modify (on_ata (ata_write port (u8 v))).
Definition outsl (x : list Z) : M ide unit := modify (on_ata (ata_data x)).
Definition inb_status : M ide Z := fun s => let '(r, a) := ata_status (d_ata s) in Done r (on_ata (fun _ => a) s).

(** [idewait]: the loop reads the status until the controller is ready. *)
Definition idewait (checkerr : bool) : M ide Z := fun s =>
  let '(r, l) := ready (a_status (d_ata s)) in
  Done (if checkerr && truth (r &&& (IDE_DF ||| IDE_ERR)) then -1 else 0) (on_ata (with_status l) s).

Fixpoint probe (n : nat) : M ide unit :=
  match n with
  | O => mret tt
  | S n' => r ← inb_status; if r !=? 0 then modify (set_disk1 true) else probe n'
  end.
Definition ideinit : M ide unit :=
  idewait false ;;
  outb 0x1f6 (224 ||| (1 ≪ 4)) ;;
  probe 1000 ;;
  outb 0x1f6 (224 ||| (0 ≪ 4)).

Definition idestart (b : Z) : M ide unit :=
  if b =? NULL then panic "idestart" else
  bf ← gets (fun s => ibuf s b);
  if FSSIZE <=? b_blockno bf then panic "incorrect blockno" else
  let sector_per_block := BSIZE `div` SECTOR_SIZE in
  let sector := i32 (b_blockno bf * sector_per_block) in
  let read_cmd := if sector_per_block =? 1 then IDE_CMD_READ else IDE_CMD_RDMUL in
  let write_cmd := if sector_per_block =? 1 then IDE_CMD_WRITE else IDE_CMD_WRMUL in
  if 7 <? sector_per_block then panic "idestart" else
  idewait false ;;
  outb 0x3f6 0 ;;
  outb 0x1f2 sector_per_block ;;
  outb 0x1f3 (sector &&& 255) ;;
  outb 0x1f4 ((sector ≫ 8) &&& 255) ;;
  outb 0x1f5 ((sector ≫ 16) &&& 255) ;;
  outb 0x1f6 (224 ||| ((b_dev bf &&& 1) ≪ 4) ||| ((sector ≫ 24) &&& 15)) ;;
  if truth (b_flags bf &&& B_DIRTY) then
    outb 0x1f7 write_cmd ;; outsl (b_data bf)
  else outb 0x1f7 read_cmd.

Definition wakeup (b : Z) : M ide unit := modify (set_asleep (fun A => A ∖ {[b]})).

Definition ideintr : M ide unit :=
  acquire Lide ;;
  b ← gets d_queue;
  if b =? NULL then release Lide else
  nx ← gets (fun s => d_qnext s !!! b);
  modify (set_queue nx) ;;
  bf ← gets (fun s => ibuf s b);
  (if truth (b_flags bf &&& B_DIRTY) then mret tt
   else
     r ← idewait true;
     when (0 <=? r) (modify (fun s => on_buf b (with_data (a_offer (d_ata s))) s))) ;;
  modify (on_buf b (fun bf => with_flags (b_flags bf ||| B_VALID) bf)) ;;
  modify (on_buf b (fun bf => with_flags (b_flags bf &&& Z.lnot B_DIRTY) bf)) ;;
  wakeup b ;;
  q ← gets d_queue;
  when (q !=? NULL) (idestart q) ;;
  release Lide.

(** A place that holds a pointer of the queue: [&idequeue] or [&b->qnext]. *)
Inductive link := Lhead | Lnext (b : Z).
Definition read_link (pp : link) (s : ide) : Z := match pp with Lhead => d_queue s | Lnext b => d_qnext s !!! b end.
Definition write_link (pp : link) (v : Z) : M ide unit :=
  modify (match pp with Lhead => set_queue v | Lnext b => set_qnext b v end).
(** [for(pp = &idequeue; *pp; pp = &( *pp)->qnext)]. *)
Fixpoint last_link (n : nat) (pp : link) : M ide link :=
  match n with
  | O => spin
  | S n' => v ← gets (read_link pp); if v =? NULL then mret pp else last_link n' (Lnext v)
  end.

(** The loop that waits for the request: [false] when the process goes to sleep,
    which releases the lock. *)
Definition iderw_wait (b : Z) : M ide bool :=
  f ← gets (fun s => b_flags (ibuf s b));
  if (f &&& (B_VALID ||| B_DIRTY)) !=? B_VALID then
    modify (set_asleep (fun A => {[b]} ∪ A)) ;; release Lide ;; mret false
  else release Lide ;; mret true.

Definition iderw_run (b : Z) : M ide bool :=
  pid ← gets d_pid;
  h ← zoom (fun s => Sst (b_lock (ibuf s b)) 0 (d_held s))
           (fun t s => with_locks (ss_held t) (on_buf b (with_lock (ss_lk t)) s)) (Sleeplock.holdingsleep (Lsleep b) pid);
  if negb h then panic "iderw: buf not locked" else
  bf ← gets (fun s => ibuf s b);
  if (b_flags bf &&& (B_VALID ||| B_DIRTY)) =? B_VALID then panic "iderw: nothing to do" else
  have ← gets d_disk1;
  if (b_dev bf !=? 0) && negb have then panic "iderw: ide disk 1 not present" else
  acquire Lide ;;
  modify (set_qnext b NULL) ;;
  pp ← last_link (S (Z.to_nat NBUF)) Lhead;
  write_link pp b ;;
  q ← gets d_queue;
  when (q =? b) (idestart b) ;;
  iderw_wait b.
Definition iderw_woken (b : Z) : M ide bool := acquire Lide ;; iderw_wait b.
