(* ===== verification/IdeTheorems.v ===== *)
(** * The IDE driver is an atomic disk

    The linked queue as a list, the abstract disk whose requests take effect when they
    are made, and the simulation: [iderw] submits a request, an interrupt completes the
    oldest. *)
From stdpp Require Import gmap.
From S2P Require Import Prelude Layout Locks Sleeplock Bio Ide.

Definition dirty (bf : buf) : bool := truth (b_flags bf &&& B_DIRTY).
Definition sector_of (bf : buf) : Z * Z := (b_dev bf &&& 1, b_blockno bf).
(** The request is not served yet: [flags & (B_VALID|B_DIRTY)] is not [B_VALID]. *)
Definition unserved (bf : buf) : Prop := (b_flags bf &&& (B_VALID ||| B_DIRTY)) <> B_VALID.
Definition in_disk (bf : buf) : Prop := 0 <= b_blockno bf < FSSIZE.

(** ** The abstract disk *)
(** Sectors, and the requests not yet completed with the results they will have. *)
Record adisk := Adisk { ad_sectors : sectors; ad_queue : list (Z * list Z) }.
Definition effect (bf : buf) (D : sectors) : sectors := if dirty bf then <[sector_of bf := b_data bf]> D else D.
Definition result (bf : buf) (D : sectors) : list Z := if dirty bf then b_data bf else D !!! sector_of bf.
(** A request takes effect at once and is completed later. *)
Definition submit (b : Z) (bf : buf) (a : adisk) : adisk :=
  Adisk (effect bf (ad_sectors a)) (ad_queue a ++ [(b, result bf (ad_sectors a))]).
Definition complete (a : adisk) : adisk := Adisk (ad_sectors a) (tail (ad_queue a)).

(** ** The queue *)
Fixpoint chain (nx : gmap Z Z) (v : Z) (Q : list Z) : Prop :=
  match Q with
  | [] => v = NULL
  | b :: Q' => v = b /\ chain nx (nx !!! b) Q'
  end.
(** What the requests in the queue still do to the sectors [D]. *)
Fixpoint serve (B : Z -> buf) (Q : list Z) (D : sectors) : adisk :=
  match Q with
  | [] => Adisk D []
  | b :: Q' => let a := serve B Q' (effect (B b) D) in Adisk (ad_sectors a) ((b, result (B b) D) :: ad_queue a)
  end.
Definition abs (s : ide) (Q : list Z) : adisk := serve (ibuf s) Q (a_disk (d_ata s)).

Definition no_error (l : list Z) : Prop := Forall (fun r => truth (r &&& (IDE_DF ||| IDE_ERR)) = false) l.
(** The controller works on the request of [bf]: its data is written, or is offered. *)
Definition active (bf : buf) (a : ata) : Prop :=
  if dirty bf then a_disk a !! sector_of bf = Some (b_data bf) else a_offer a = a_disk a !!! sector_of bf.

Record ide_ok (s : ide) (Q : list Z) : Prop := IdeOk {
  io_chain : chain (d_qnext s) (d_queue s) Q;
  io_nodup : NoDup Q;
  io_bufs : forall b, b ∈ Q -> 0 <= b < NBUF /\ is_Some (d_buf s !! b) /\ unserved (ibuf s b) /\ in_disk (ibuf s b);
  io_active : match Q with [] => True | b :: _ => active (ibuf s b) (d_ata s) end;
  io_asleep : forall b, b ∈ d_asleep s -> b ∈ Q;
  io_status : no_error (a_status (d_ata s));
  io_held : d_held s = [] }.

Lemma serve_ext B B' Q D : (forall b, b ∈ Q -> B b = B' b) -> serve B Q D = serve B' Q D.
Proof.
  revert D. induction Q as [|b Q IH]; intros D H; [done|]. cbn. rewrite (H b) by (apply elem_of_cons; by left).
  rewrite IH; [done|]. intros c Hc. apply H. apply elem_of_cons. by right.
Qed.
Lemma serve_snoc B Q b D : serve B (Q ++ [b]) D = submit b (B b) (serve B Q D).
Proof. revert D. induction Q as [|c Q IH]; intros D; [done|]. cbn. by rewrite IH. Qed.
(** Serving the active request again changes nothing. *)
Lemma effect_active bf a : active bf a -> effect bf (a_disk a) = a_disk a.
Proof. unfold active, effect. destruct (dirty bf); [|done]. intros H. by apply insert_id. Qed.

Lemma chain_frame nx b v u Q : b ∉ Q -> chain nx u Q -> chain (<[b := v]> nx) u Q.
Proof.
  revert u. induction Q as [|c Q IH]; intros u Hb; [done|]. cbn. intros [-> H]. split; [done|].
  rewrite lookup_total_insert_ne by set_solver. apply IH; [set_solver|done].
Qed.

(** ** The loop over the links *)
Lemma last_link_ok s Q : forall pp n, chain (d_qnext s) (read_link pp s) Q -> (forall b, b ∈ Q -> 0 <= b) -> (length Q < n)%nat ->
  last_link n pp s = Done (match last Q with Some b => Lnext b | None => pp end) s.
Proof.
  induction Q as [|b Q IH]; intros pp n Hc Hb Hn; (destruct n as [|n]; [cbn in Hn; lia|]); cbn [last_link].
  - cbn in Hc. rewrite (bind_Done (gets (read_link pp)) _ s (read_link pp s) s eq_refl), Hc. done.
  - destruct Hc as [Hv Hc]. rewrite (bind_Done (gets (read_link pp)) _ s (read_link pp s) s eq_refl), Hv.
    assert (0 <= b) by (apply Hb, elem_of_cons; by left).
    rewrite (proj2 (Z.eqb_neq b NULL)) by (unfold NULL; lia). rewrite (IH (Lnext b) n); [|done| |cbn in Hn; lia].
    + destruct Q as [|c Q]; [done|]. by rewrite last_cons_cons, (last_cons c Q); destruct (last Q).
    + intros c Hc'. apply Hb. apply elem_of_cons. by right.
Qed.

Lemma chain_snoc nx u Q b : chain nx u Q -> NoDup Q -> b ∉ Q -> nx !!! b = NULL ->
  match last Q with
  | Some c => chain (<[c := b]> nx) u (Q ++ [b])
  | None => chain nx b (Q ++ [b])
  end.
Proof.
  intros Hc Hn Hb Hx. destruct (last Q) as [c|] eqn:El.
  2: { apply last_None in El as ->. cbn. done. }
  apply last_Some in El as [P ->]. revert u Hc. induction P as [|d P IH]; intros u Hc; cbn in *.
  - destruct Hc as [-> Hc]. split; [done|]. rewrite lookup_total_insert_eq. split; [done|].
    rewrite lookup_total_insert_ne by set_solver. done.
  - destruct Hc as [-> Hc]. apply NoDup_cons in Hn as [Hd Hn]. split; [done|].
    rewrite lookup_total_insert_ne by set_solver. apply IH; (done || set_solver).
Qed.

(** ** Starting a request *)
(** What the registers hold names the sector of the buffer. *)
Lemma registers_select (d bno : Z) : 0 <= bno < FSSIZE -> (d = 0 \/ d = 1) -> forall st n ct o e D,
  selected (Ata st n (u8 (bno &&& 255)) (u8 ((bno ≫ 8) &&& 255)) (u8 ((bno ≫ 16) &&& 255)) (u8 (224 ||| (d ≪ 4) ||| ((bno ≫ 24) &&& 15))) ct o e D) = (d, bno).
Proof.
  intros Hb Hd st n ct o e D. unfold selected. cbn [a_drive a_lba0 a_lba1 a_lba2].
  assert (H : forallb (fun x => bool_decide (
    ((u8 (224 ||| (d ≪ 4) ||| ((x ≫ 24) &&& 15)) ≫ 4) &&& 1,
     u8 (x &&& 255) ||| (u8 ((x ≫ 8) &&& 255) ≪ 8) ||| (u8 ((x ≫ 16) &&& 255) ≪ 16) ||| ((u8 (224 ||| (d ≪ 4) ||| ((x ≫ 24) &&& 15)) &&& 15) ≪ 24)) = (d, x)))
    (seqZ 0 FSSIZE) = true) by (destruct Hd as [-> | ->]; vm_compute; reflexivity).
  rewrite forallb_forall in H. specialize (H bno). rewrite <- list_elem_of_In in H.
  specialize (H ltac:(apply elem_of_seqZ; lia)). by apply bool_decide_eq_true in H.
Qed.

Lemma ready_no_error l : no_error l -> no_error (ready l).2 /\ truth ((ready l).1 &&& (IDE_DF ||| IDE_ERR)) = false.
Proof.
  induction l as [|r l IH]; intros H; [done|]. apply Forall_cons in H as [Hr Hl]. cbn [ready].
  destruct (_ =? _); [done|by apply IH].
Qed.
Lemma idewait_eq c s : no_error (a_status (d_ata s)) ->
  idewait c s = Done 0 (on_ata (with_status (ready (a_status (d_ata s))).2) s).
Proof.
  intros H. apply ready_no_error in H as [_ H]. unfold idewait. destruct (ready _) as [r l]. cbn in H. by rewrite H, andb_false_r.
Qed.

Lemma on_ata_twice f g s : on_ata f (on_ata g s) = on_ata (fun a => f (g a)) s.
Proof. done. Qed.
Lemma outb_bind port v {A} (k : unit -> M ide A) s : (outb port v ≫= k) s = k tt (on_ata (ata_write port (u8 v)) s).
Proof. done. Qed.

Lemma land_one x : x &&& 1 = 0 \/ x &&& 1 = 1.
Proof. assert (H : x &&& 1 = x `mod` 2) by (change 1 with (Z.ones 1); by rewrite Z.land_ones by lia). rewrite H. zlia. Qed.

(** [idestart]: afterwards the controller works on the buffer; a write has reached
    its sector. *)
Lemma idestart_ok s b : 0 <= b -> in_disk (ibuf s b) -> no_error (a_status (d_ata s)) ->
  exists a', idestart b s = Done tt (on_ata (fun _ => a') s) /\ a_disk a' = effect (ibuf s b) (a_disk (d_ata s)) /\
    active (ibuf s b) a' /\ no_error (a_status a').
Proof.
  intros Hb Hd Hst. destruct (ready_no_error _ Hst) as [Hst' _]. set (bf := ibuf s b) in *.
  set (f := fun a => ata_write 0x1f6 (u8 (224 ||| ((b_dev bf &&& 1) ≪ 4) ||| ((b_blockno bf ≫ 24) &&& 15))) (ata_write 0x1f5 (u8 ((b_blockno bf ≫ 16) &&& 255))
     (ata_write 0x1f4 (u8 ((b_blockno bf ≫ 8) &&& 255)) (ata_write 0x1f3 (u8 (b_blockno bf &&& 255)) (ata_write 0x1f2 (u8 1) (ata_write 0x3f6 (u8 0)
       (with_status (ready (a_status (d_ata s))).2 a))))))).
  set (a6 := f (d_ata s)).
  assert (Hsel : selected a6 = sector_of bf).
  { unfold a6, f. destruct (d_ata s). cbn. apply registers_select; [exact Hd|apply land_one]. }
  assert (H6 : a_disk a6 = a_disk (d_ata s) /\ a_count a6 = 1 /\ a_status a6 = (ready (a_status (d_ata s))).2).
  { unfold a6, f. destruct (d_ata s). done. }
  destruct H6 as (H6d & H6n & H6s).
  assert (Hrun : idestart b s = (if dirty bf then outb 0x1f7 IDE_CMD_WRITE ;; outsl (b_data bf) else outb 0x1f7 IDE_CMD_READ) (on_ata f s)).
  { unfold idestart. rewrite (proj2 (Z.eqb_neq b NULL)) by (unfold NULL; lia). rewrite (bind_Done (gets (fun s => ibuf s b)) _ s bf s eq_refl).
    unfold in_disk in Hd. rewrite (proj2 (Z.leb_gt FSSIZE (b_blockno bf))) by lia.
    change (BSIZE `div` SECTOR_SIZE) with 1. cbv zeta. rewrite Z.mul_1_r, i32_small by (unfold FSSIZE in Hd; lia).
    cbn [Z.eqb Pos.eqb Z.ltb Z.compare Pos.compare Pos.compare_cont]. rewrite (bind_Done _ _ s 0 _ (idewait_eq false s Hst)).
    rewrite !outb_bind, !on_ata_twice. reflexivity. }
  assert (Hcmd : forall v a, a_count a = 1 -> ata_write 0x1f7 v a = (if v =? 0x20 then with_transfer (a_disk a !!! selected a) None (a_disk a) a
     else if v =? 0x30 then with_transfer (a_offer a) (Some (selected a)) (a_disk a) a else a)) by (intros v [] Hn; cbn in *; by subst).
  rewrite Hrun. unfold effect, active. destruct (dirty bf) eqn:Edirty.
  - exists (ata_data (b_data bf) (ata_write 0x1f7 0x30 a6)). rewrite outb_bind, on_ata_twice. split; [done|]. clearbody a6.
    rewrite (Hcmd _ _ H6n), Hsel, H6d. cbn. rewrite H6s. split; [done|]. split; [|done]. apply lookup_insert_eq.
  - exists (ata_write 0x1f7 0x20 a6). split; [done|]. clearbody a6. rewrite (Hcmd _ _ H6n), Hsel, H6d. cbn. by rewrite H6s.
Qed.

(** ** Requests *)
Definition may_request (s : ide) (Q : list Z) (b : Z) : Prop :=
  b ∉ Q /\ 0 <= b < NBUF /\ is_Some (d_buf s !! b) /\ unserved (ibuf s b) /\ in_disk (ibuf s b) /\
  slk_locked (b_lock (ibuf s b)) = 1 /\ slk_pid (b_lock (ibuf s b)) = d_pid s /\ (b_dev (ibuf s b) = 0 \/ d_disk1 s = true).

Lemma on_buf_id s b f : is_Some (d_buf s !! b) -> f (ibuf s b) = ibuf s b -> on_buf b f s = s.
Proof.
  intros [x Hx] Hf. unfold on_buf. rewrite Hf, insert_id; [by destruct s|]. unfold ibuf. by rewrite (lookup_total_correct _ _ _ Hx).
Qed.
Lemma holding_mine s b : d_held s = [] -> is_Some (d_buf s !! b) -> slk_locked (b_lock (ibuf s b)) = 1 -> slk_pid (b_lock (ibuf s b)) = d_pid s ->
  zoom (fun s => Sst (b_lock (ibuf s b)) 0 (d_held s))
    (fun t s => with_locks (ss_held t) (on_buf b (with_lock (ss_lk t)) s)) (Sleeplock.holdingsleep (Lsleep b) (d_pid s)) s = Done true s.
Proof.
  intros Hh Hd Hl Hp. unfold zoom. rewrite Sleeplock.holdingsleep_eq by (rewrite Hh; set_solver). cbn [ss_lk ss_held].
  rewrite on_buf_id; [|done|by destruct (ibuf s b)]. rewrite Hl, Hp, Z.eqb_refl. by destruct s.
Qed.

Lemma iderw_wait_sleeps s b : d_held s = [Lide] -> unserved (ibuf s b) ->
  iderw_wait b s = Done false (Ide (d_buf s) (d_qnext s) (d_queue s) (d_disk1 s) (d_ata s) ({[b]} ∪ d_asleep s) (d_pid s) []).
Proof.
  intros Hh Hu. unfold iderw_wait. rewrite (bind_Done (gets (fun s => b_flags (ibuf s b))) _ s _ s eq_refl).
  rewrite (proj2 (Z.eqb_neq _ _) Hu). cbn [negb]. unfold mbind, M_bind, modify. erewrite (release_top Lide []); [done| |set_solver]. by cbn.
Qed.

(** The queue as a list is shorter than the loop's bound. *)
Lemma queue_bound s Q : ide_ok s Q -> (length Q < S (Z.to_nat NBUF))%nat.
Proof.
  intros H. enough (length Q <= length (seqZ 0 NBUF))%nat by (rewrite length_seqZ in *; lia).
  apply NoDup_incl_length; [apply NoDup_ListNoDup, H|]. intros b Hb. apply list_elem_of_In in Hb. apply list_elem_of_In, elem_of_seqZ.
  destruct (io_bufs _ _ H b Hb). lia.
Qed.

(** The links after [b] is appended. *)
Lemma append_link s Q b : ide_ok s Q -> b ∉ Q -> 0 <= b ->
  exists nx v, (pp ← last_link (S (Z.to_nat NBUF)) Lhead; write_link pp b) (set_qnext b NULL (with_locks [Lide] s)) =
    Done tt (Ide (d_buf s) nx v (d_disk1 s) (d_ata s) (d_asleep s) (d_pid s) [Lide]) /\
    chain nx v (Q ++ [b]) /\ (v =? b) = match Q with [] => true | _ => false end.
Proof.
  intros H Hb Hb0. set (s1 := set_qnext b NULL (with_locks [Lide] s)).
  assert (Hpos : forall c, c ∈ Q -> 0 <= c) by (intros c Hc; destruct (io_bufs _ _ H c Hc); lia).
  pose proof (chain_frame _ b NULL _ _ Hb (io_chain _ _ H)) as Hc.
  rewrite (bind_Done _ _ s1 _ s1 (last_link_ok s1 Q Lhead _ Hc Hpos (queue_bound s Q H))).
  pose proof (chain_snoc _ _ Q b Hc (io_nodup _ _ H) Hb (lookup_total_insert_eq _ _ _)) as Hs.
  destruct (last Q) as [c|] eqn:El.
  - eexists _, _. split; [reflexivity|]. split; [exact Hs|]. destruct Q as [|d Q]; [done|]. destruct Hc as [Hv _].
    change (d_queue s = d) in Hv. change ((d_queue s =? b) = false). rewrite Hv. apply Z.eqb_neq. intros ->. apply Hb, elem_of_cons. by left.
  - apply last_None in El as ->. eexists _, _. split; [reflexivity|]. split; [exact Hs|apply Z.eqb_refl].
Qed.

Lemma abs_append s s' Q b a : ibuf s' = ibuf s -> d_ata s' = a ->
  (match Q with [] => a_disk a = effect (ibuf s b) (a_disk (d_ata s)) /\ active (ibuf s b) a | _ => a = d_ata s end) ->
  abs s' (Q ++ [b]) = submit b (ibuf s b) (abs s Q).
Proof.
  intros Hb Ha HQ. unfold abs. rewrite Hb, Ha, serve_snoc. destruct Q as [|c Q]; [|by rewrite HQ].
  destruct HQ as [Hd Hact]. unfold submit. cbn. rewrite (effect_active _ _ Hact), Hd. f_equal. f_equal. f_equal.
  unfold result, effect. destruct (dirty (ibuf s b)); done.
Qed.

Lemma request_ok s Q b : ide_ok s Q -> may_request s Q b ->
  exists s', iderw_run b s = Done false s' /\ ide_ok s' (Q ++ [b]) /\ abs s' (Q ++ [b]) = submit b (ibuf s b) (abs s Q) /\
    d_buf s' = d_buf s /\ d_asleep s' = {[b]} ∪ d_asleep s.
Proof.
  intros H (Hb & Hb0 & Hdom & Hu & Hd & Hl & Hp & Hdev). destruct (append_link s Q b H Hb ltac:(lia)) as (nx & v & Happ & Hc & Hv).
  set (s2 := Ide (d_buf s) nx v (d_disk1 s) (d_ata s) (d_asleep s) (d_pid s) [Lide]) in *.
  assert (Hstart : exists a', when (v =? b) (idestart b) s2 = Done tt (on_ata (fun _ => a') s2) /\ no_error (a_status a') /\
    match Q with [] => a_disk a' = effect (ibuf s b) (a_disk (d_ata s)) /\ active (ibuf s b) a' | _ => a' = d_ata s end).
  { rewrite Hv. destruct Q as [|c Q].
    - destruct (idestart_ok s2 b ltac:(lia) Hd (io_status _ _ H)) as (a' & Hr & Hdk & Hact & Hst). exists a'. by split_and!.
    - exists (d_ata s). split_and!; [done|apply H|done]. }
  destruct Hstart as (a' & Hstart & Hst & HQ).
  exists (Ide (d_buf s) nx v (d_disk1 s) a' ({[b]} ∪ d_asleep s) (d_pid s) []). split; [|split; [|split_and!; [|done|done]]].
  - unfold iderw_run. rewrite (bind_Done (gets d_pid) _ s (d_pid s) s eq_refl).
    rewrite (bind_Done _ _ s true s (holding_mine s b (io_held _ _ H) Hdom Hl Hp)). cbn [negb].
    rewrite (bind_Done (gets (fun s => ibuf s b)) _ s (ibuf s b) s eq_refl), (proj2 (Z.eqb_neq _ _) Hu).
    rewrite (bind_Done (gets d_disk1) _ s (d_disk1 s) s eq_refl).
    replace ((b_dev (ibuf s b) !=? 0) && negb (d_disk1 s)) with false by (destruct Hdev as [-> | ->]; [done|by rewrite andb_false_r]).
    rewrite (bind_Done (acquire Lide) _ s tt (with_locks [Lide] s)).
    2: { rewrite acquire_free; cbn; rewrite (io_held _ _ H); [done|set_solver]. }
    rewrite (bind_Done (modify (set_qnext b NULL)) _ _ tt (set_qnext b NULL (with_locks [Lide] s)) eq_refl).
    unfold mbind, M_bind in Happ |- *. destruct (last_link _ _ _) as [pp s3| | | |]; [|discriminate..]. rewrite Happ.
    change (gets d_queue s2) with (Done (A := Z) v s2). cbv beta iota. rewrite Hstart.
    by rewrite iderw_wait_sleeps.
  - split; cbn [d_buf d_qnext d_queue d_ata d_asleep d_held].
    + done.
    + apply NoDup_app. split; [apply H|]. split; [|apply NoDup_singleton]. intros c Hc' ->%list_elem_of_singleton. done.
    + intros c [Hc'| ->%list_elem_of_singleton]%elem_of_app; [by apply (io_bufs _ _ H)|done].
    + destruct Q as [|c Q]; [by destruct HQ|]. rewrite HQ. by apply (io_active _ _ H).
    + intros c [->%elem_of_singleton|Hc']%elem_of_union; apply elem_of_app; [right; by apply list_elem_of_singleton|left; by apply (io_asleep _ _ H)].
    + done.
    + done.
  - apply (abs_append s _ Q b a'); done.
Qed.

(** ** Interrupts *)
Lemma served_flags f : ((f ||| B_VALID) &&& Z.lnot B_DIRTY) &&& (B_VALID ||| B_DIRTY) = B_VALID.
Proof.
  change (B_VALID ||| B_DIRTY) with 6. unfold B_VALID, B_DIRTY. apply Z.bits_inj'. intros n Hn.
  rewrite !Z.land_spec, Z.lor_spec, Z.lnot_spec by done.
  assert (Hc : n = 0 \/ n = 1 \/ n = 2 \/ 3 <= n) by lia. destruct Hc as [-> | [-> | [-> | Hc]]]; cbn; rewrite ?andb_false_r, ?orb_true_r; [done..|].
  rewrite (Z.bits_above_log2 6 n), (Z.bits_above_log2 2 n), andb_false_r by (cbn; lia). done.
Qed.
Lemma on_buf_twice b f g s : on_buf b f (on_buf b g s) = on_buf b (fun x => f (g x)) s.
Proof. unfold on_buf, ibuf. cbn. by rewrite lookup_total_insert_eq, insert_insert_eq. Qed.
Lemma ibuf_on_buf b f s c : ibuf (on_buf b f s) c = if decide (c = b) then f (ibuf s b) else ibuf s c.
Proof.
  unfold ibuf, on_buf. cbn. destruct (decide (c = b)) as [->|Hc]; [by rewrite lookup_total_insert_eq|by rewrite lookup_total_insert_ne].
Qed.

Lemma with_data_id x : with_data (b_data x) x = x.
Proof. by destruct x. Qed.

(** The buffer after its interrupt. *)
Definition served (bf : buf) (data : list Z) : buf :=
  with_flags ((b_flags bf ||| B_VALID) &&& Z.lnot B_DIRTY) (with_data data bf).

(** The state before the next request is started. *)
Lemma intr_body s b Q : ide_ok s (b :: Q) ->
  exists a3, (d_asleep s ∖ {[b]}) ## {[b]} /\ a_disk a3 = a_disk (d_ata s) /\ no_error (a_status a3) /\
  let s3 := Ide (<[b := served (ibuf s b) (result (ibuf s b) (a_disk (d_ata s)))]> (d_buf s)) (d_qnext s) (d_qnext s !!! b) (d_disk1 s) a3 (d_asleep s ∖ {[b]}) (d_pid s) [Lide] in
  ideintr s = (when (d_qnext s !!! b !=? NULL) (idestart (d_qnext s !!! b)) ;; release Lide) s3.
Proof.
  intros H. destruct (io_chain _ _ H) as [Hq _]. destruct (io_bufs _ _ H b) as (Hb & Hdom & _); [apply elem_of_cons; by left|].
  pose proof (io_active _ _ H) as Hact. cbn in Hact. set (bf := ibuf s b) in *.
  set (s2 := set_queue (d_qnext s !!! b) (with_locks [Lide] s)).
  exists (if dirty bf then d_ata s else with_status (ready (a_status (d_ata s))).2 (d_ata s)).
  split; [set_solver|]. split; [by destruct (dirty bf)|].
  split; [destruct (dirty bf); [apply H|apply ready_no_error, H]|]. cbv zeta.
  unfold ideintr. rewrite (bind_Done (acquire Lide) _ s tt (with_locks [Lide] s)).
  2: { rewrite acquire_free; cbn; rewrite (io_held _ _ H); [done|set_solver]. }
  rewrite (bind_Done (gets d_queue) _ _ b (with_locks [Lide] s)) by (cbn; by rewrite <- Hq).
  rewrite (proj2 (Z.eqb_neq b NULL)) by (unfold NULL; lia).
  rewrite (bind_Done (gets (fun s => d_qnext s !!! b)) _ (with_locks [Lide] s) (d_qnext s !!! b) (with_locks [Lide] s)) by done.
  rewrite (bind_Done (modify (set_queue _)) _ (with_locks [Lide] s) tt s2 eq_refl).
  rewrite (bind_Done (gets (fun s => ibuf s b)) _ s2 bf s2 eq_refl).
  assert (Hd : (if truth (b_flags bf &&& B_DIRTY) then mret tt else
     r ← idewait true; when (0 <=? r) (modify (fun s => on_buf b (with_data (a_offer (d_ata s))) s))) s2 =
     Done tt (on_buf b (with_data (result bf (a_disk (d_ata s)))) (on_ata (fun a => if dirty bf then a else with_status (ready (a_status (d_ata s))).2 a) s2))).
  { fold (dirty bf). unfold result, active in *. destruct (dirty bf) eqn:Ed.
    - rewrite on_buf_id; [by destruct s|exact Hdom|apply with_data_id].
    - rewrite (bind_Done _ _ s2 0 _ (idewait_eq true s2 (io_status _ _ H))). cbn [Z.leb Z.compare when]. unfold modify. rewrite <- Hact. done. }
  rewrite (bind_Done _ _ _ _ _ Hd). rewrite !(bind_Done (modify _) _ _ tt _ eq_refl), !on_buf_twice.
  unfold wakeup. rewrite (bind_Done (modify _) _ _ tt _ eq_refl). rewrite (bind_Done (gets d_queue) _ _ (d_qnext s !!! b) _ eq_refl).
  destruct (dirty bf); reflexivity.
Qed.

Lemma served_data bf data : b_data (served bf data) = data /\ (b_flags (served bf data) &&& (B_VALID ||| B_DIRTY)) = B_VALID.
Proof. split; [done|]. apply served_flags. Qed.

(** What an interrupt does to the first of the queue, [b]. *)
Definition completes (s s' : ide) (b : Z) (Q : list Z) : Prop :=
  ide_ok s' Q /\ abs s' Q = complete (abs s (b :: Q)) /\ head (ad_queue (abs s (b :: Q))) = Some (b, b_data (ibuf s' b)) /\
  (b_flags (ibuf s' b) &&& (B_VALID ||| B_DIRTY)) = B_VALID /\ (forall c, c <> b -> ibuf s' c = ibuf s c) /\
  d_asleep s' = d_asleep s ∖ {[b]}.

Lemma intr_ok s b Q : ide_ok s (b :: Q) -> exists s', ideintr s = Done tt s' /\ completes s s' b Q.
Proof.
  intros H. destruct (intr_body s b Q H) as (a3 & _ & Hdk & Hst & Hrun). cbv zeta in Hrun.
  set (x := served (ibuf s b) (result (ibuf s b) (a_disk (d_ata s)))) in *.
  set (s3 := Ide _ _ _ _ _ _ _ _) in Hrun.
  pose proof (io_active _ _ H) as Hact. cbn in Hact.
  destruct (io_chain _ _ H) as [Hq Hc]. pose proof (io_nodup _ _ H) as Hn. apply NoDup_cons in Hn as [Hb Hn].
  assert (Hin : forall c, c ∈ Q -> c ∈ b :: Q) by (intros c Hc'; apply elem_of_cons; by right).
  assert (Hsame : forall c, c <> b -> ibuf s3 c = ibuf s c) by (intros c Hcb; unfold ibuf, s3; cbn; by rewrite lookup_total_insert_ne).
  assert (Hx : ibuf s3 b = x) by (unfold ibuf, s3; cbn; by rewrite lookup_total_insert_eq).
  assert (Hold : forall c, c ∈ Q -> ibuf s3 c = ibuf s c) by (intros c Hc'; apply Hsame; set_solver).
  assert (Hstart : exists a', when (d_qnext s !!! b !=? NULL) (idestart (d_qnext s !!! b)) s3 = Done tt (on_ata (fun _ => a') s3) /\ no_error (a_status a') /\
    match Q with [] => a' = a3 | c :: _ => a_disk a' = effect (ibuf s c) (a_disk a3) /\ active (ibuf s c) a' end).
  { destruct Q as [|c Q]; cbn [chain] in Hc.
    - rewrite Hc. exists a3. by split_and!.
    - destruct Hc as [Hcv _]. rewrite Hcv. destruct (io_bufs _ _ H c) as (Hc0 & _ & _ & Hcd); [apply Hin, elem_of_cons; by left|].
      rewrite (proj2 (Z.eqb_neq c NULL)) by (unfold NULL; lia). cbn [negb when].
      assert (Ec : ibuf s3 c = ibuf s c) by (apply Hold, elem_of_cons; by left).
      destruct (idestart_ok s3 c ltac:(lia) ltac:(by rewrite Ec) Hst) as (a' & Hr & Hd & Ha & Hs). rewrite Ec in *. exists a'. by split_and!. }
  destruct Hstart as (a' & Hstart & Hst' & HQ). set (s' := Ide (d_buf s3) (d_qnext s3) (d_queue s3) (d_disk1 s3) a' (d_asleep s3) (d_pid s3) []).
  assert (HB : forall c, ibuf s' c = ibuf s3 c) by done.
  exists s'. split; [|unfold completes; split_and!].
  - rewrite Hrun, (bind_Done _ _ _ _ _ Hstart). erewrite (release_top Lide []); [done|done|set_solver].
  - split; [exact Hc|exact Hn| | | |exact Hst'|done].
    + intros c Hc'. destruct (io_bufs _ _ H c (Hin c Hc')) as (? & Hd & ? & ?). rewrite HB, (Hold c Hc'). split_and!; [lia|lia| |done|done].
      cbn. rewrite lookup_insert_ne; [done|set_solver].
    + destruct Q as [|c Q]; [done|]. rewrite HB, Hold by (apply elem_of_cons; by left). by destruct HQ.
    + intros c [Hc' Hcb]%elem_of_difference. apply (io_asleep _ _ H) in Hc'. apply elem_of_cons in Hc' as [->|Hc']; [set_solver|done].
  - unfold abs, complete. cbn [serve tail ad_queue ad_sectors]. rewrite (effect_active _ _ Hact), (serve_ext (ibuf s') (ibuf s)) by (intros c Hc'; by rewrite HB, Hold).
    cbn [d_ata s']. transitivity (serve (ibuf s) Q (a_disk (d_ata s))); [|by destruct (serve _ _ _)]. destruct Q as [|c Q]; [by rewrite HQ, Hdk|].
    destruct HQ as [Hd Ha]. cbn. rewrite (effect_active _ _ Ha), Hd, Hdk. f_equal. f_equal. f_equal. unfold result, effect. by destruct (dirty (ibuf s c)).
  - rewrite HB, Hx. done.
  - rewrite HB, Hx. apply served_data.
  - intros c Hcb. rewrite HB. by apply Hsame.
  - done.
Qed.

(** (C12) The driver is an atomic disk: the linked queue, the registers of the controller
    and the buffers implement the abstract disk on which a request takes effect when it is
    made.  A call of [iderw] submits its request, starts the controller if it is
    idle, and sleeps; an interrupt completes the oldest request - its buffer holds
    the data the abstract disk promised and is valid and clean, no other buffer changes, its
    sleeper is woken and returns - and starts the next; an interrupt without a request does nothing. *)
Theorem ide_atomic_disk s Q : ide_ok s Q ->
  (forall b, may_request s Q b ->
     exists s', iderw_run b s = Done false s' /\ ide_ok s' (Q ++ [b]) /\ abs s' (Q ++ [b]) = submit b (ibuf s b) (abs s Q) /\
       d_buf s' = d_buf s /\ d_asleep s' = {[b]} ∪ d_asleep s) /\
  match Q with
  | [] => ideintr s = Done tt s
  | b :: Q' => exists s', ideintr s = Done tt s' /\ completes s s' b Q' /\ iderw_woken b s' = Done true s'
  end.
Proof.
  intros H. split; [intros b Hb; by apply request_ok|]. destruct Q as [|b Q'].
  - unfold ideintr. rewrite (bind_Done (acquire Lide) _ s tt (with_locks [Lide] s)) by (rewrite acquire_free; cbn; rewrite (io_held _ _ H); [done|set_solver]).
    pose proof (io_chain _ _ H) as Hq. cbn in Hq. rewrite (bind_Done (gets d_queue) _ _ NULL (with_locks [Lide] s)) by (unfold gets; f_equal; exact Hq).
    rewrite Z.eqb_refl. erewrite (release_top Lide []); [|done|set_solver]. rewrite <- (io_held _ _ H). f_equal. by destruct s.
  - destruct (intr_ok s b Q' H) as (s' & Hr & Hc). exists s'. split; [exact Hr|]. split; [exact Hc|].
    destruct Hc as (Hok & _ & _ & Hf & _). pose proof (io_held _ _ Hok) as Hh.
    unfold iderw_woken. rewrite (bind_Done (acquire Lide) _ s' tt (with_locks [Lide] s')) by (rewrite acquire_free; cbn; rewrite Hh; [done|set_solver]).
    unfold iderw_wait. rewrite (bind_Done (gets (fun s => b_flags (ibuf s b))) _ (with_locks [Lide] s') (b_flags (ibuf s' b)) (with_locks [Lide] s')) by done.
    rewrite Hf, Z.eqb_refl. cbn [negb]. unfold mbind, M_bind. erewrite (release_top Lide []); [|done|set_solver].
    unfold mret, M_ret. f_equal. rewrite <- Hh. by destruct s'.
Qed.

(** Two buffers, the first to be written to block 5 of disk 0, the second to be read from it. *)
Definition two_bufs : ide :=
  Ide {[0 := Buf B_DIRTY 0 5 (Sleeplock 1 3) 1 [7; 8]; 1 := Buf 0 0 5 (Sleeplock 1 3) 1 [0; 0]]} ∅ NULL false
    (Ata [IDE_BSY; IDE_DRDY] 0 0 0 0 0 0 [] None ∅) ∅ 3 [].
Lemma two_bufs_ok : ide_ok two_bufs [].
Proof.
  split; [done|constructor|by intros b Hb%not_elem_of_nil|done|intros b Hb; by apply not_elem_of_empty in Hb| |done].
  repeat constructor.
Qed.
Lemma ide_atomic_disk_witness : exists s1, iderw_run 0 two_bufs = Done false s1 /\ ide_ok s1 [0] /\
  ad_sectors (abs s1 [0]) !! (0, 5) = Some [7; 8].
Proof.
  destruct (ide_atomic_disk two_bufs [] two_bufs_ok) as [Hreq _]. destruct (Hreq 0) as (s1 & Hr & Hok & Ha & _).
  - unfold may_request. split_and!; try (by vm_compute).
    + by apply not_elem_of_nil.
    + by eexists.
    + by left.
  - exists s1. split; [exact Hr|]. split; [exact Hok|]. change ([] ++ [0]) with [0] in Ha. rewrite Ha. vm_compute. reflexivity.
Defined.

(** The write and the read of the same block, then two interrupts: the read gives the
    data written. *)
Example read_after_write :
  match (iderw_run 0 ;; iderw_run 1 ;; ideintr ;; ideintr) two_bufs with
  | Done _ s => b_data (ibuf s 1) = [7; 8] /\ d_asleep s = ∅ | _ => False end.
Proof. vm_compute. by split. Qed.
(** A read the controller reports to have failed leaves the old contents in the buffer
    and marks it valid. *)
Lemma ide_read_error_ignored :
  match (iderw_run 1 ;; modify (on_ata (with_status [IDE_DRDY ||| IDE_ERR])) ;; ideintr) two_bufs with
  | Done _ s => b_data (ibuf s 1) = [0; 0] /\ b_flags (ibuf s 1) = B_VALID | _ => False end.
Proof. vm_compute. by split. Qed.
