(* ===== verification/SwapDisk.v ===== *)
(** * The two disks of the page-replacement kernel

    That kernel's swap space is on device 0 and its file system on device 1.
    [Disks] is the block layer with the two: [dread] is [bread(dev, blockno)], and
    [dblock] numbers the blocks of both disks, so that block 7 of device 0 and
    block 7 of device 1 are different blocks of one [BlockLayer].

    Its instances are the reference layer of [BlockMem.v] and the buffer cache of
    [bio.c] over the two drives of [ide.c].  A request of the latter is taken with its
    completion: [sd_iderw] is the atomic disk that [IdeTheorems.v] shows the driver
    to be.  The laws are those of [BioLayer.v], carried over by a simulation that
    renames the blocks of the buffers. *)
From stdpp Require Import gmap.
From S2P Require Import Prelude Layout Locks Sleeplock Bio Blocks BioLayer BlockMem Ide IdeTheorems.

(** ** One number for the blocks of both disks *)

(** Block 0 of disk 0 (the boot sector) has none: an unused buffer names it. *)
Definition dblock (dev b : Z) : Z := 2 * b + dev - 1.
#[global] Arguments dblock : simpl never.
Definition disk_block (dev b : Z) : Prop := (dev = 0 /\ 1 <= b) \/ (dev = 1 /\ 0 <= b).
Definition dsector (x : Z) : Z * Z := ((x + 1) `mod` 2, (x + 1) `div` 2).

Lemma dsector_dblock dev b : disk_block dev b -> dsector (dblock dev b) = (dev, b).
Proof. intros Hb. unfold dsector, dblock, disk_block in *. f_equal; zlia. Qed.
Lemma dblock_inj dev b dev' b' :
  disk_block dev b -> disk_block dev' b' -> dblock dev b = dblock dev' b' -> dev = dev' /\ b = b'.
Proof. unfold dblock, disk_block. lia. Qed.
Lemma dsector_ok x : 0 <= x -> disk_block (dsector x).1 (dsector x).2 /\ dblock (dsector x).1 (dsector x).2 = x.
Proof. intros Hx. unfold dsector, dblock, disk_block. cbn. split; zlia. Qed.

Class Disks (S : Type) := {
  dk_layer : BlockLayer S;
  dread : Z -> Z -> M S Z;
  dread_block : forall dev b, disk_block dev b -> dread dev b = bread 1 (dblock dev b) }.

(** ** The file-system disk by itself *)

(** What the file system sees of the two disks: [bread 1 b] is block [b] of disk
    1.  Its laws hold while no buffer of the other disk is in use. *)
Definition on1 (X : gset Z) : gset Z := list_to_set ((fun x => x `div` 2) <$> filter (fun x => x `mod` 2 = 0) (elements X)).
Definition only1 (X : gset Z) : Prop := forall x, x ∈ X -> x `mod` 2 = 0.

Lemma elem_on1 X b : b ∈ on1 X <-> dblock 1 b ∈ X.
Proof.
  unfold on1, dblock. rewrite elem_of_list_to_set, list_elem_of_fmap. split.
  - intros (x & -> & [Hx Hin]%list_elem_of_filter). apply elem_of_elements in Hin.
    by replace (2 * (x `div` 2) + 1 - 1) with x by zlia.
  - intros Hb. exists (2 * b + 1 - 1). split; [zlia|]. apply list_elem_of_filter.
    split; [zlia|by apply elem_of_elements].
Qed.
Lemma on1_size X : only1 X -> size X = size (on1 X).
Proof.
  intros Ho. unfold on1. rewrite size_list_to_set.
  - rewrite length_fmap. assert (filter (fun x => x `mod` 2 = 0) (elements X) = elements X) as ->; [|done].
    assert (Hall : forall x, x ∈ elements X -> x `mod` 2 = 0) by (intros x Hx; by apply Ho, elem_of_elements).
    induction (elements X) as [|x l IH]; [done|]. rewrite filter_cons_True by (apply Hall; by left).
    f_equal. apply IH. intros y Hy. apply Hall. by right.
  - apply NoDup_fmap_2_strong; [|apply NoDup_filter, NoDup_elements].
    intros x y [Hx _]%list_elem_of_filter [Hy _]%list_elem_of_filter E. zlia.
Qed.

Section one_disk.
Context {S : Type} `{Disks S}.
#[local] Existing Instance dk_layer.
Implicit Types s : S.

Definition fs_view s : view :=
  let v := bl_view s in
  View (fun b => v_content v (dblock 1 b)) (fun b => v_disk v (dblock 1 b))
    (on1 (v_held v)) (on1 (v_pinned v)) ((v_size v + 1) `div` 2).
Definition fs_ok s : Prop := bl_ok s /\ only1 (v_held (bl_view s)) /\ only1 (v_pinned (bl_view s)).
Definition fs_owns s (h b : Z) : Prop := bl_owns s h (dblock 1 b).

Lemma dblock1_eq b x : dblock 1 x = dblock 1 b <-> x = b.
Proof. unfold dblock. lia. Qed.
Lemma dblock1_even b : dblock 1 b `mod` 2 = 0.
Proof. unfold dblock. zlia. Qed.
Lemma dblock1_range b n : 0 <= dblock 1 b < n <-> 0 <= b < (n + 1) `div` 2.
Proof. unfold dblock. zlia. Qed.
Lemma on1_union X Y : on1 (X ∪ Y) = on1 X ∪ on1 Y.
Proof. apply set_eq. intros b. by rewrite elem_of_union, !elem_on1, elem_of_union. Qed.
Lemma on1_diff X Y : on1 (X ∖ Y) = on1 X ∖ on1 Y.
Proof. apply set_eq. intros b. by rewrite elem_of_difference, !elem_on1, elem_of_difference. Qed.
Lemma on1_single b : on1 {[ dblock 1 b ]} = {[ b ]}.
Proof. apply set_eq. intros x. rewrite elem_on1, !elem_of_singleton. apply dblock1_eq. Qed.
Lemma upd_dblock f b d x : upd f (dblock 1 b) d (dblock 1 x) = upd (fun y => f (dblock 1 y)) b d x.
Proof.
  unfold upd. destruct (decide (x = b)) as [->|Hne]; [by rewrite decide_True|].
  rewrite decide_False; [done|]. by rewrite dblock1_eq.
Qed.

(** A law of the two disks, seen from disk 1. *)
Lemma fs_state s v :
  bl_ok s -> veq (bl_view s) v -> only1 (v_held v) -> only1 (v_pinned v) ->
  fs_ok s /\ veq (fs_view s) (View (fun b => v_content v (dblock 1 b)) (fun b => v_disk v (dblock 1 b))
    (on1 (v_held v)) (on1 (v_pinned v)) ((v_size v + 1) `div` 2)).
Proof.
  intros Hok [V1 V2 V3 V4 V5] Hh Hp. split; [split; [done|]; by rewrite V3, V4|].
  split; cbn; intros; rewrite ?V1, ?V2, ?V3, ?V4, ?V5; done.
Qed.

#[program] Definition fs_layer : BlockLayer S := {|
  bread := dread;
  brelse := brelse;
  bwrite := bwrite;
  bdata := bdata;
  bstore := bstore;
  bpin := bpin;
  bblockno h s := bblockno h s `div` 2;
  bl_ok := fs_ok;
  bl_view := fs_view;
  bl_owns := fs_owns |}.
Next Obligation.
  intros s h b (Hok & _) Ho. destruct (bl_data s h _ Hok Ho) as (E1 & E2 & Hh & Hr).
  split; [exact E1|]. split; [rewrite E2; unfold dblock; zlia|]. split; [by apply elem_on1|].
  by apply dblock1_range.
Qed.
Next Obligation.
  intros s b (Hok & Hh1 & Hp1) Hb Hh Hroom. cbn in Hb, Hh, Hroom. rewrite elem_on1 in Hh. rewrite elem_on1 in Hroom.
  destruct (bl_bread s (dblock 1 b) Hok) as (h & s' & E & Hok' & Ho & V); [by apply dblock1_range|done| |].
  { destruct Hroom as [Hroom|Hroom]; [by left|right]. rewrite on1_size, on1_union; [done|].
    intros x [Hx|Hx]%elem_of_union; auto. }
  destruct (fs_state s' _ Hok' V) as [Hf Vf]; [|done|].
  { intros x [->%elem_of_singleton|Hx]%elem_of_union; [apply dblock1_even|auto]. }
  exists h, s'. split; [rewrite dread_block; [exact E|right; lia]|]. split; [exact Hf|].
  split; [intros h' b'; unfold fs_owns; by rewrite Ho, dblock1_eq|].
  etrans; [exact Vf|]. split; cbn; try done. by rewrite on1_union, on1_single.
Qed.
Next Obligation.
  intros s h b d (Hok & Hh1 & Hp1) Ho. destruct (bl_bstore s h _ d Hok Ho) as (s' & E & Hok' & Ho' & V).
  destruct (fs_state s' _ Hok' V Hh1 Hp1) as [Hf Vf]. exists s'. split; [exact E|]. split; [exact Hf|].
  split; [intros h' b'; apply Ho'|]. etrans; [exact Vf|]. split; cbn; try done. intros x. apply upd_dblock.
Qed.
Next Obligation.
  intros s h b (Hok & Hh1 & Hp1) Ho. destruct (bl_bwrite s h _ Hok Ho) as (s' & E & Hok' & Ho' & V).
  destruct (fs_state s' _ Hok' V Hh1) as [Hf Vf]; [by intros x [Hx _]%elem_of_difference; apply Hp1|].
  exists s'. split; [exact E|]. split; [exact Hf|]. split; [intros h' b'; apply Ho'|].
  etrans; [exact Vf|]. split; cbn; try done; [intros x; apply upd_dblock|]. by rewrite on1_diff, on1_single.
Qed.
Next Obligation.
  intros s h b (Hok & Hh1 & Hp1) Ho. destruct (bl_bpin s h _ Hok Ho) as (s' & E & Hok' & Ho' & V).
  destruct (fs_state s' _ Hok' V Hh1) as [Hf Vf].
  { intros x [->%elem_of_singleton|Hx]%elem_of_union; [apply dblock1_even|auto]. }
  exists s'. split; [exact E|]. split; [exact Hf|]. split; [intros h' b'; apply Ho'|].
  etrans; [exact Vf|]. split; cbn; try done. by rewrite on1_union, on1_single.
Qed.
Next Obligation.
  intros s h b (Hok & Hh1 & Hp1) Ho Hc. cbn in Hc. rewrite elem_on1 in Hc.
  destruct (bl_brelse s h _ Hok Ho Hc) as (s' & E & Hok' & Ho' & V).
  destruct (fs_state s' _ Hok' V) as [Hf Vf]; [by intros x [Hx _]%elem_of_difference; apply Hh1|exact Hp1|].
  exists s'. split; [exact E|]. split; [exact Hf|]. split.
  - intros h' b'. unfold fs_owns. by rewrite Ho', dblock1_eq.
  - etrans; [exact Vf|]. split; cbn; try done. by rewrite on1_diff, on1_single.
Qed.
End one_disk.

(** The reference layer. *)
#[export, program] Instance mem_disks : Disks bmem := {|
  dk_layer := mem_layer;
  dread dev b := bread 1 (dblock dev b) |}.
Next Obligation. done. Qed.

(** ** The buffer cache over two drives *)

(** [FSSIZE] of this kernel's [param.h]. *)
Definition SWAP_FSSIZE : Z := 100000.

(** The buffer cache (its own disk is not used), the drives, [havedisk1]. *)
Record dst := Dst { ds_cache : bst; ds_sectors : sectors; ds_disk1 : bool }.
Definition set_cache (c : bst) (s : dst) : dst := Dst c (ds_sectors s) (ds_disk1 s).
Definition set_sectors (D : sectors) (s : dst) : dst := Dst (ds_cache s) D (ds_disk1 s).
Definition cache {A} (m : M bst A) : M dst A := zoom ds_cache set_cache m.

(** [iderw] of [ide.c], up to the interrupt that completes the request. *)
Definition sd_iderw (i : Z) : M dst unit :=
  h ← cache (Bio.holdingsleep i);
  if negb h then panic "iderw: buf not locked"
  else
    b ← gets (fun s => bufs (ds_cache s) i);
    if (b_flags b &&& (B_VALID ||| B_DIRTY)) =? B_VALID then panic "iderw: nothing to do"
    else
      d1 ← gets ds_disk1;
      if (b_dev b !=? 0) && negb d1 then panic "iderw: ide disk 1 not present"
      else if SWAP_FSSIZE <=? b_blockno b then panic "incorrect blockno"
      else
        D ← gets ds_sectors;
        modify (set_sectors (effect b D)) ;;
        cache (modify (set_buf i (with_data (result b D)))) ;;
        cache (modify (set_buf i (fun b => with_flags ((b_flags b ||| B_VALID) &&& Z.lnot B_DIRTY) b))).

Definition sd_bread (dev blockno : Z) : M dst Z :=
  b ← cache (bget dev blockno);
  x ← gets (fun s => bufs (ds_cache s) b);
  when ((b_flags x &&& B_VALID) =? 0) (sd_iderw b) ;;
  mret b.

Definition sd_bwrite (b : Z) : M dst unit :=
  h ← cache (Bio.holdingsleep b);
  if negb h then panic "bwrite"
  else
    cache (modify (set_buf b (fun x => with_flags (b_flags x ||| B_DIRTY) x))) ;;
    sd_iderw b.

(** ** Renaming the blocks *)
Definition DSIZE : Z := 2 * SWAP_FSSIZE - 1.

Definition flat_buf (b : buf) : buf :=
  if (b_dev b =? 0) && (b_blockno b =? 0) then b
  else Buf (b_flags b) 1 (dblock (b_dev b) (b_blockno b)) (b_lock b) (b_refcnt b) (b_data b).
Definition flat_disk (n : Z) (D : sectors) : gmap Z block :=
  list_to_map ((fun x => (x, D !!! dsector x)) <$> seqZ 0 n).
(** The cache with its buffers renamed, over the disk [D]. *)
Definition flat_on (D : gmap Z block) (c : bst) : bst :=
  Bst (flat_buf <$> bc_buf c) (bc_prev c) (bc_next c) D DSIZE (bc_pid c) (bc_held c).
Definition flat (s : dst) : bst := flat_on (flat_disk DSIZE (ds_sectors s)) (ds_cache s).

Definition buf_named (b : buf) : Prop := (b_dev b = 0 \/ b_dev b = 1) /\ 0 <= b_blockno b.
Definition named (c : bst) : Prop := forall i, buf_named (bufs c i).

Lemma flat_disk_in n D x : 0 <= x < n -> flat_disk n D !! x = Some (D !!! dsector x).
Proof.
  intros Hx. unfold flat_disk. apply elem_of_list_to_map_1.
  - rewrite <- list_fmap_compose. apply NoDup_fmap_2_strong; [by intros ? ? _ _|apply NoDup_seqZ].
  - apply list_elem_of_fmap. exists x. split; [done|]. apply elem_of_seqZ. lia.
Qed.
Lemma flat_disk_out n D x : ~ 0 <= x < n -> flat_disk n D !! x = None.
Proof.
  intros Hx. unfold flat_disk. apply not_elem_of_list_to_map_1. intros (y & -> & Hy)%list_elem_of_fmap.
  apply list_elem_of_fmap in Hy as (z & -> & Hz%elem_of_seqZ). cbn in Hx. lia.
Qed.
Lemma flat_disk_insert n D x d : 0 <= x < n ->
  flat_disk n (<[dsector x := d]> D) = <[x := d]> (flat_disk n D).
Proof.
  intros Hx. apply map_eq. intros y. destruct (decide (0 <= y < n)) as [Hy|Hy].
  - rewrite flat_disk_in by done. destruct (decide (x = y)) as [->|Hne].
    + rewrite lookup_insert_eq. f_equal. apply lookup_total_insert_eq.
    + rewrite lookup_insert_ne, flat_disk_in by done. f_equal. apply lookup_total_insert_ne.
      intros E. apply Hne. destruct (dsector_ok x), (dsector_ok y); [lia..|]. congruence.
  - rewrite lookup_insert_ne, !flat_disk_out by (done || lia). done.
Qed.

Lemma flat_bufs D c i : bufs (flat_on D c) i = flat_buf (bufs c i).
Proof.
  unfold bufs, lookup_total, map_lookup_total. cbn. rewrite lookup_fmap.
  by destruct (bc_buf c !! i).
Qed.
Lemma flat_set_buf D c i f g :
  f (flat_buf (bufs c i)) = flat_buf (g (bufs c i)) ->
  set_buf i f (flat_on D c) = flat_on D (set_buf i g c).
Proof.
  intros E. unfold set_buf at 1. rewrite flat_bufs, E. unfold flat_on, set_buf; cbn.
  by rewrite fmap_insert.
Qed.
Lemma named_set_buf c i g : named c -> buf_named (g (bufs c i)) -> named (set_buf i g c).
Proof.
  intros Hc Hg j. destruct (decide (j = i)) as [->|Hne]; [by rewrite bufs_same|by rewrite bufs_other].
Qed.

(** What renaming leaves alone. *)
Lemma flat_buf_same b : b_flags (flat_buf b) = b_flags b /\ b_lock (flat_buf b) = b_lock b
  /\ b_refcnt (flat_buf b) = b_refcnt b /\ b_data (flat_buf b) = b_data b.
Proof. unfold flat_buf. by destruct (_ && _). Qed.
Lemma flat_with_flags v b : with_flags v (flat_buf b) = flat_buf (with_flags v b).
Proof. unfold flat_buf, with_flags. cbn. by destruct (_ && _). Qed.
Lemma flat_with_refcnt v b : with_refcnt v (flat_buf b) = flat_buf (with_refcnt v b).
Proof. unfold flat_buf, with_refcnt. cbn. by destruct (_ && _). Qed.
Lemma flat_with_lock v b : with_lock v (flat_buf b) = flat_buf (with_lock v b).
Proof. unfold flat_buf, with_lock. cbn. by destruct (_ && _). Qed.
Lemma flat_with_data v b : with_data v (flat_buf b) = flat_buf (with_data v b).
Proof. unfold flat_buf, with_data. cbn. by destruct (_ && _). Qed.

(** A buffer holds a block exactly when the renamed one holds its number. *)
Lemma flat_hit b dev blockno : buf_named b -> disk_block dev blockno ->
  (b_dev (flat_buf b) =? 1) && (b_blockno (flat_buf b) =? dblock dev blockno)
  = (b_dev b =? dev) && (b_blockno b =? blockno).
Proof.
  intros [Hd Hb] Hblk. unfold flat_buf, dblock, disk_block in *.
  destruct (Z.eqb_spec (b_dev b) 0), (Z.eqb_spec (b_blockno b) 0); cbn; lia.
Qed.

(** ** The cache does the same under other names *)
Section sim.
Context (D : gmap Z block).

Definition sim {A} (m m' : M bst A) : Prop := forall c a t,
  named c -> m (flat_on D c) = Done a t -> exists c', m' c = Done a c' /\ t = flat_on D c' /\ named c'.

Lemma sim_ret {A} (a : A) : sim (mret a) (mret a).
Proof. intros c b t Hc [= <- <-]. eauto. Qed.
Lemma sim_bind {A R} (m m' : M bst A) (k k' : A -> M bst R) :
  sim m m' -> (forall a, sim (k a) (k' a)) -> sim (m ≫= k) (m' ≫= k').
Proof.
  intros Hm Hk c r t Hc. unfold mbind, M_bind.
  destruct (m (flat_on D c)) as [a t1| | | |] eqn:E; try done. intros Ek.
  destruct (Hm c a t1 Hc E) as (c1 & -> & -> & Hc1). by eapply Hk.
Qed.
Lemma sim_panic {A} msg (m : M bst A) : sim (panic msg) m.
Proof. intros c a t _ [=]. Qed.
Lemma sim_sleep {A} ch (m : M bst A) : sim (sleep_on ch) m.
Proof. intros c a t _ [=]. Qed.
Lemma sim_gets {A} (f : bst -> A) : (forall c, f (flat_on D c) = f c) -> sim (gets f) (gets f).
Proof. intros Hf c a t Hc [= <- <-]. exists c. unfold gets. by rewrite Hf. Qed.
Lemma sim_modify (f f' : bst -> bst) :
  (forall c, named c -> f (flat_on D c) = flat_on D (f' c) /\ named (f' c)) -> sim (modify f) (modify f').
Proof. intros Hf c a t Hc [= <- <-]. destruct (Hf c Hc) as [-> ?]. eauto. Qed.
Lemma sim_loop {X R} n (f f' : X -> M bst (X + R)) x :
  (forall x, sim (f x) (f' x)) -> sim (loop n f x) (loop n f' x).
Proof.
  intros Hf. revert x. induction n as [|n IH]; intros x; [by intros c a t _ [=]|]. cbn [loop].
  apply sim_bind; [apply Hf|]. intros [y|r]; [apply IH|apply sim_ret].
Qed.
Lemma sim_when (b : bool) m m' : sim m m' -> sim (when b m) (when b m').
Proof. destruct b; [done|]. intros _. apply sim_ret. Qed.
Lemma sim_acquire l : sim (acquire l) (acquire l).
Proof.
  intros c a t Hc. unfold acquire. cbn. case_decide; [done|]. intros [= <- <-].
  eexists. split; [done|]. split; done.
Qed.
Lemma sim_release l : sim (release l) (release l).
Proof.
  intros c a t Hc. unfold release. cbn. case_decide; [|done]. intros [= <- <-].
  eexists. split; [done|]. split; done.
Qed.

(** Reading a buffer, and changing what renaming leaves alone. *)
Lemma sim_buf {R} i (k k' : buf -> M bst R) :
  (forall b, buf_named b -> sim (k (flat_buf b)) (k' b)) ->
  sim (gets (fun s => bufs s i) ≫= k) (gets (fun s => bufs s i) ≫= k').
Proof.
  intros Hk c r t Hc. unfold mbind, M_bind, gets. rewrite flat_bufs. by apply Hk.
Qed.
Lemma sim_set_buf i (f g : buf -> buf) :
  (forall b, buf_named b -> f (flat_buf b) = flat_buf (g b) /\ buf_named (g b)) ->
  sim (modify (set_buf i f)) (modify (set_buf i g)).
Proof.
  intros Hf. apply sim_modify. intros c Hc. destruct (Hf (bufs c i) (Hc i)).
  split; [by apply flat_set_buf|by apply named_set_buf].
Qed.
Lemma sim_on_lock {A} i (m : M sst A) : sim (on_lock i m) (on_lock i m).
Proof.
  intros c a t Hc. unfold on_lock, zoom. rewrite flat_bufs, (proj1 (proj2 (flat_buf_same _))).
  change (bc_held (flat_on D c)) with (bc_held c). destruct (m _) as [b u| | | |]; try done. intros [= <- <-]. eexists. split; [done|].
  split.
  { exact (f_equal (with_locks (ss_held u)) (flat_set_buf D c i _ (with_lock (ss_lk u)) (flat_with_lock _ _))). }
  apply (named_set_buf c i (with_lock (ss_lk u)) Hc). apply Hc.
Qed.

Lemma sim_holding i : sim (Bio.holdingsleep i) (Bio.holdingsleep i).
Proof. apply sim_bind; [by apply sim_gets|]. intros pid. apply sim_on_lock. Qed.
Lemma sim_acquiresleep i : sim (Bio.acquiresleep i) (Bio.acquiresleep i).
Proof.
  apply sim_bind; [by apply sim_gets|]. intros pid. apply sim_bind; [apply sim_on_lock|].
  intros [|]; [apply sim_ret|apply sim_sleep].
Qed.

Lemma sim_cached dev blockno b : disk_block dev blockno ->
  sim (bget_cached 1 (dblock dev blockno) b) (bget_cached dev blockno b).
Proof.
  intros Hblk. unfold bget_cached. destruct (b =? HEAD); [apply sim_ret|]. apply sim_buf. intros x Hx.
  rewrite flat_hit by done. destruct (_ && _).
  - apply sim_bind.
    { apply sim_set_buf. intros y Hy. rewrite (proj1 (proj2 (proj2 (flat_buf_same y)))).
      by rewrite flat_with_refcnt. }
    intros _. apply sim_bind; [apply sim_release|]. intros _.
    apply sim_bind; [apply sim_acquiresleep|]. intros _. apply sim_ret.
  - apply sim_bind; [by apply sim_gets|]. intros n. apply sim_ret.
Qed.

Lemma sim_recycle dev blockno b : disk_block dev blockno ->
  sim (bget_recycle 1 (dblock dev blockno) b) (bget_recycle dev blockno b).
Proof.
  intros Hblk. unfold bget_recycle. destruct (b =? HEAD); [apply sim_ret|]. apply sim_buf. intros x Hx.
  destruct (flat_buf_same x) as (-> & _ & -> & _). destruct (_ && _).
  - apply sim_bind.
    { apply sim_set_buf. intros y Hy. destruct (flat_buf_same y) as (_ & -> & _ & ->).
      unfold flat_buf, buf_named, disk_block in *. cbn.
      replace ((dev =? 0) && (blockno =? 0)) with false by lia. split; [done|lia]. }
    intros _. apply sim_bind; [apply sim_release|]. intros _.
    apply sim_bind; [apply sim_acquiresleep|]. intros _. apply sim_ret.
  - apply sim_bind; [by apply sim_gets|]. intros n. apply sim_ret.
Qed.

Lemma sim_bget dev blockno : disk_block dev blockno ->
  sim (bget 1 (dblock dev blockno)) (bget dev blockno).
Proof.
  intros Hblk. unfold bget. apply sim_bind; [apply sim_acquire|]. intros _.
  apply sim_bind; [by apply sim_gets|]. intros b0.
  apply sim_bind; [apply sim_loop; intros; by apply sim_cached|].
  intros [b|]; [apply sim_ret|]. apply sim_bind; [by apply sim_gets|]. intros b1.
  apply sim_bind; [apply sim_loop; intros; by apply sim_recycle|]. intros [b|]; [apply sim_ret|apply sim_panic].
Qed.

Lemma sim_brelse b : sim (Bio.brelse b) (Bio.brelse b).
Proof.
  unfold Bio.brelse. apply sim_bind; [apply sim_holding|]. intros [|]; cbn [negb]; [|apply sim_panic].
  apply sim_bind; [apply sim_on_lock|]. intros _. apply sim_bind; [apply sim_acquire|]. intros _.
  apply sim_bind.
  { apply sim_set_buf. intros y Hy. rewrite (proj1 (proj2 (proj2 (flat_buf_same y)))).
    by rewrite flat_with_refcnt. }
  intros _. apply sim_buf. intros x Hx. destruct (flat_buf_same x) as (_ & _ & -> & _).
  apply sim_bind; [|intros _; apply sim_release]. apply sim_when.
  repeat first [apply sim_bind; [first [by apply sim_gets | by apply sim_modify]|intros ?] | by apply sim_modify].
Qed.

Lemma sim_store i d : sim (store_data i d) (store_data i d).
Proof. apply sim_set_buf. intros b Hb. by rewrite flat_with_data. Qed.
Lemma sim_pin i : sim (pin_dirty i) (pin_dirty i).
Proof. apply sim_set_buf. intros b Hb. by rewrite (proj1 (flat_buf_same b)), flat_with_flags. Qed.
End sim.

(** ** The operations over the drives *)
Definition drives_ok (s : dst) : Prop := named (ds_cache s) /\ ds_disk1 s = true.
Definition fsim {A} (m : M bst A) (m' : M dst A) : Prop := forall s a t,
  drives_ok s -> m (flat s) = Done a t -> exists s', m' s = Done a s' /\ t = flat s' /\ drives_ok s'.

Lemma fsim_cache {A} (m m' : M bst A) : (forall D, sim D m m') -> fsim m (cache m').
Proof.
  intros Hm s a t [Hs Hd] E. destruct (Hm _ _ _ _ Hs E) as (c & Ec & -> & Hc).
  exists (set_cache c s). unfold cache, zoom. by rewrite Ec.
Qed.
Lemma cache_Done {A} (m : M bst A) s a s' :
  cache m s = Done a s' -> exists c, m (ds_cache s) = Done a c /\ s' = set_cache c s.
Proof. unfold cache, zoom. destruct (m (ds_cache s)); try done. intros [= <- <-]. eauto. Qed.
Lemma fsim_ret {A} (a : A) : fsim (mret a) (mret a).
Proof. intros s b t Hs [= <- <-]. eauto. Qed.
Lemma fsim_bind {A R} (m : M bst A) m' (k : A -> M bst R) k' :
  fsim m m' -> (forall a, fsim (k a) (k' a)) -> fsim (m ≫= k) (m' ≫= k').
Proof.
  intros Hm Hk s r t Hs. unfold mbind, M_bind.
  destruct (m (flat s)) as [a t1| | | |] eqn:E; try done. intros Ek.
  destruct (Hm s a t1 Hs E) as (s1 & -> & -> & Hs1). by eapply Hk.
Qed.
Lemma fsim_panic {A} msg (m : M dst A) : fsim (panic msg) m.
Proof. intros s a t _ [=]. Qed.
Lemma fsim_when (b : bool) m m' : fsim m m' -> fsim (when b m) (when b m').
Proof. destruct b; [done|]. intros _. apply fsim_ret. Qed.
Lemma fsim_buf {R} i (k : buf -> M bst R) k' :
  (forall b, buf_named b -> fsim (k (flat_buf b)) (k' b)) ->
  fsim (gets (fun s => bufs s i) ≫= k) (gets (fun s => bufs (ds_cache s) i) ≫= k').
Proof.
  intros Hk s r t [Hs Hd]. unfold mbind, M_bind, gets. unfold flat at 1. rewrite flat_bufs. by apply Hk.
Qed.

(** The flags after a request: valid and not dirty, whichever is set first. *)
Lemma flags_served f : (f &&& Z.lnot B_DIRTY) ||| B_VALID = (f ||| B_VALID) &&& Z.lnot B_DIRTY.
Proof. by rewrite Z.land_lor_distr_l. Qed.
Lemma flags_clean f : truth (f &&& B_DIRTY) = false -> f ||| B_VALID = (f ||| B_VALID) &&& Z.lnot B_DIRTY.
Proof.
  intros Hf. apply negb_false_iff, Z.eqb_eq in Hf. rewrite <- flags_served. f_equal.
  apply Z.bits_inj'. intros n Hn. rewrite Z.land_spec, Z.lnot_spec by done.
  apply (f_equal (fun y => Z.testbit y n)) in Hf. rewrite Z.land_spec, Z.bits_0 in Hf.
  by destruct (Z.testbit f n), (Z.testbit B_DIRTY n).
Qed.

(** The sector a renamed buffer names. *)
Lemma flat_sector b : buf_named b -> b_dev (flat_buf b) = 1 ->
  0 <= b_blockno (flat_buf b) /\ dsector (b_blockno (flat_buf b)) = sector_of b
  /\ b_blockno (flat_buf b) = dblock (b_dev b) (b_blockno b).
Proof.
  intros [Hd Hb]. unfold flat_buf. destruct (Z.eqb_spec (b_dev b) 0), (Z.eqb_spec (b_blockno b) 0); cbn; intros H1; try lia.
  all: rewrite dsector_dblock by (unfold disk_block; lia); unfold sector_of, dblock.
  all: split; [lia|]; split; [|done]; f_equal; destruct Hd as [-> | ->]; done.
Qed.

(** The state after a request on the renamed disk is the renamed state after it. *)
Lemma flat_request i s b f :
  b = bufs (ds_cache s) i -> buf_named b -> b_dev (flat_buf b) = 1 -> b_blockno (flat_buf b) < DSIZE ->
  let s1 := set_sectors (effect b (ds_sectors s)) s in
  let bf := flat_buf b in
  let x := b_blockno bf in
  let D := flat_disk DSIZE (ds_sectors s) in
  set_buf i (with_flags f) (set_buf i (with_data (if dirty b then b_data b else D !!! x))
    (if dirty b then set_disk x (b_data b) (flat s) else flat s))
  = flat (set_cache (set_buf i (with_flags f) (set_buf i (with_data (result b (ds_sectors s))) (ds_cache s1))) s1).
Proof.
  intros Eb Hn H1 Hx s1 bf x D. destruct (flat_sector b Hn H1) as (H0 & Hs & _). fold bf x in H0, Hs, Hx.
  assert (Hdx : D !!! x = ds_sectors s !!! sector_of b).
  { unfold lookup_total at 1, map_lookup_total. unfold D. rewrite flat_disk_in by lia. by rewrite Hs. }
  assert (Hdisk : (if dirty b then set_disk x (b_data b) (flat s) else flat s) = flat s1).
  { unfold s1, effect. destruct (dirty b); [|by destruct s]. unfold flat; cbn [ds_sectors set_sectors ds_cache].
    rewrite <- Hs, flat_disk_insert by lia. done. }
  rewrite Hdisk. unfold result. rewrite Hdx. unfold flat; cbn [ds_sectors set_cache ds_cache].
  change (ds_cache s1) with (ds_cache s). set (d := if dirty b then _ else _).
  rewrite (flat_set_buf _ (ds_cache s) i (with_data d) (with_data d)) by apply flat_with_data.
  by rewrite (flat_set_buf _ _ i (with_flags f) (with_flags f)) by apply flat_with_flags.
Qed.

Lemma set_disk_buf x d i f s : set_disk x d (set_buf i f s) = set_buf i f (set_disk x d s).
Proof. done. Qed.
Lemma bufs_set_disk x d i s : bufs (set_disk x d s) i = bufs s i.
Proof. done. Qed.

Lemma fsim_iderw i : fsim (Bio.iderw i) (sd_iderw i).
Proof.
  unfold Bio.iderw, sd_iderw. apply fsim_bind; [apply fsim_cache; intros D; apply sim_holding|].
  intros [|]; cbn [negb]; [|apply fsim_panic]. intros s [] t [Hs Hd].
  unfold mbind, M_bind, cache, zoom, gets, modify. cbn beta iota.
  assert (Hb : bufs (flat s) i = flat_buf (bufs (ds_cache s) i)) by apply flat_bufs. rewrite Hb.
  pose proof (Hs i) as Hn. set (b := bufs (ds_cache s) i) in *.
  destruct (flat_buf_same b) as (-> & _ & _ & ->). destruct (_ =? B_VALID); [done|].
  rewrite Hd, andb_false_r. destruct (Z.eqb_spec (b_dev (flat_buf b)) 1) as [H1|_]; cbn [negb]; [|done].
  change (bc_disksize (flat s)) with DSIZE. rewrite Z.geb_leb.
  destruct (Z.leb_spec DSIZE (b_blockno (flat_buf b))) as [|Hx]; [done|].
  destruct (flat_sector b Hn H1) as (_ & _ & Hx'). rewrite (proj2 (Z.leb_gt SWAP_FSSIZE (b_blockno b))).
  2:{ destruct Hn. unfold DSIZE, dblock in *. lia. }
  intros E. eexists. split; [reflexivity|]. split.
  - pose proof (flat_request i s b ((b_flags b ||| B_VALID) &&& Z.lnot B_DIRTY) eq_refl Hn H1 Hx) as R.
    cbv zeta in R.
    transitivity (set_buf i (with_flags ((b_flags b ||| B_VALID) &&& Z.lnot B_DIRTY))
      (set_buf i (with_data (if dirty b then b_data b else flat_disk DSIZE (ds_sectors s) !!! b_blockno (flat_buf b)))
        (if dirty b then set_disk (b_blockno (flat_buf b)) (b_data b) (flat s) else flat s))).
    + unfold dirty in *. destruct (truth (b_flags b &&& B_DIRTY)) eqn:Ed; injection E as <-.
      * rewrite set_disk_buf, !set_buf_twice. apply set_buf_ext. rewrite bufs_set_disk, Hb.
        rewrite <- flags_served. destruct (flat_buf_same b) as (Ef & _ & _ & Edt).
        unfold with_flags, with_data. cbn. by rewrite Ef, Edt.
      * rewrite !set_buf_twice. apply set_buf_ext. rewrite Hb. rewrite <- flags_clean by done.
        destruct (flat_buf_same b) as (Ef & _ & _ & _). unfold with_flags, with_data. cbn. by rewrite Ef.
    + rewrite R. f_equal. unfold set_cache. cbn [ds_cache set_sectors]. f_equal.
      rewrite !set_buf_twice. by apply set_buf_ext.
  - split; [|done]. cbn [ds_cache set_cache set_sectors]. rewrite set_buf_twice. apply named_set_buf; [done|]. exact Hn.
Qed.

Lemma fsim_bread dev blockno : disk_block dev blockno ->
  fsim (Bio.bread 1 (dblock dev blockno)) (sd_bread dev blockno).
Proof.
  intros Hb. unfold Bio.bread, sd_bread.
  apply fsim_bind; [apply fsim_cache; intros D; by apply sim_bget|]. intros b. apply fsim_buf. intros x Hx.
  rewrite (proj1 (flat_buf_same x)). apply fsim_bind; [apply fsim_when, fsim_iderw|]. intros _. apply fsim_ret.
Qed.

Lemma fsim_bwrite b : fsim (Bio.bwrite b) (sd_bwrite b).
Proof.
  unfold Bio.bwrite, sd_bwrite. apply fsim_bind; [apply fsim_cache; intros D; apply sim_holding|].
  intros [|]; cbn [negb]; [|apply fsim_panic]. apply fsim_bind; [|intros _; apply fsim_iderw].
  apply fsim_cache. intros D. apply (sim_pin D b).
Qed.

(** ** The block layer of the two drives *)
Definition drives_bread (x : Z) : M dst Z := let '(dev, b) := dsector x in sd_bread dev b.

Lemma fsim_drives_bread x : 0 <= x -> fsim (Bio.bread 1 x) (drives_bread x).
Proof.
  intros Hx. unfold drives_bread. destruct (dsector_ok x Hx) as [Hb E].
  destruct (dsector x) as [dev b]; cbn in *. rewrite <- E. by apply fsim_bread.
Qed.

Section laws.
Implicit Types s : dst.
Definition drives_inv s : Prop := drives_ok s /\ bl_ok (flat s).
Definition drives_view s : view := bl_view (flat s).
Definition drives_owns s (h b : Z) : Prop := bl_owns (flat s) h b.

(** A law of the cache, carried over. *)
Lemma drives_law {A} (m : M bst A) (m' : M dst A) s a t :
  fsim m m' -> drives_inv s -> m (flat s) = Done a t -> bl_ok t ->
  exists s', m' s = Done a s' /\ drives_inv s' /\ t = flat s'.
Proof.
  intros Hm [Hs _] E Ht. destruct (Hm s a t Hs E) as (s' & E' & -> & Hs'). by exists s'.
Qed.

Lemma drives_bufs s h : bufs (flat s) h = flat_buf (bufs (ds_cache s) h).
Proof. apply flat_bufs. Qed.
End laws.

#[export, program] Instance drives_layer : BlockLayer dst := {|
  bread _ x := drives_bread x;
  brelse h := cache (Bio.brelse h);
  bwrite := sd_bwrite;
  bdata h s := b_data (bufs (ds_cache s) h);
  bstore h d := cache (store_data h d);
  bpin h := cache (pin_dirty h);
  bblockno h s := b_blockno (flat_buf (bufs (ds_cache s) h));
  bl_ok := drives_inv;
  bl_view := drives_view;
  bl_owns := drives_owns |}.
Next Obligation.
  intros s h b [_ Hok] Ho. destruct (bl_data _ h b Hok Ho) as (E1 & E2 & R). cbn in E1, E2.
  rewrite drives_bufs in E1, E2. split; [|by split]. etransitivity; [|exact E1]. symmetry. apply flat_buf_same.
Qed.
Next Obligation.
  intros s b [Hs Hok] Hb Hh Hroom. destruct (bl_bread _ b Hok Hb Hh Hroom) as (h & t & E & Ht & Ho & V).
  destruct (drives_law _ _ s h t (fsim_drives_bread b ltac:(lia)) (conj Hs Hok) E Ht) as (s' & E' & Hi & ->).
  exists h, s'. split; [exact E'|]. split; [exact Hi|]. split; [exact Ho|exact V].
Qed.
Next Obligation.
  intros s h b d [Hs Hok] Ho. destruct (bl_bstore _ h b d Hok Ho) as (t & E & Ht & Ho' & V).
  destruct (drives_law _ _ s tt t (fsim_cache _ _ (fun D => sim_store D h d)) (conj Hs Hok) E Ht) as (s' & E' & Hi & ->).
  exists s'. split; [exact E'|]. split; [exact Hi|]. split; [exact Ho'|exact V].
Qed.
Next Obligation.
  intros s h b [Hs Hok] Ho. destruct (bl_bwrite _ h b Hok Ho) as (t & E & Ht & Ho' & V).
  destruct (drives_law _ _ s tt t (fsim_bwrite h) (conj Hs Hok) E Ht) as (s' & E' & Hi & ->).
  exists s'. split; [exact E'|]. split; [exact Hi|]. split; [exact Ho'|exact V].
Qed.
Next Obligation.
  intros s h b [Hs Hok] Ho. destruct (bl_bpin _ h b Hok Ho) as (t & E & Ht & Ho' & V).
  destruct (drives_law _ _ s tt t (fsim_cache _ _ (fun D => sim_pin D h)) (conj Hs Hok) E Ht) as (s' & E' & Hi & ->).
  exists s'. split; [exact E'|]. split; [exact Hi|]. split; [exact Ho'|exact V].
Qed.
Next Obligation.
  intros s h b [Hs Hok] Ho Hc. destruct (bl_brelse _ h b Hok Ho Hc) as (t & E & Ht & Ho' & V).
  destruct (drives_law _ _ s tt t (fsim_cache _ _ (fun D => sim_brelse D h)) (conj Hs Hok) E Ht) as (s' & E' & Hi & ->).
  exists s'. split; [exact E'|]. split; [exact Hi|]. split; [exact Ho'|exact V].
Qed.

#[export, program] Instance drives : Disks dst := {| dk_layer := drives_layer; dread := sd_bread |}.
Next Obligation.
  intros dev b Hb. change (bread 1 (dblock dev b)) with (drives_bread (dblock dev b)).
  unfold drives_bread. by rewrite dsector_dblock.
Qed.

(** ** The drives after boot *)
Lemma sim_for_each D {X} (l : list X) (f : X -> M bst unit) :
  (forall x, sim D (f x) (f x)) -> sim D (for_each l f) (for_each l f).
Proof.
  intros Hf. induction l as [|x l IH]; [apply sim_ret|]. cbn [for_each]. apply sim_bind; [apply Hf|done].
Qed.
Lemma sim_binit D : sim D binit binit.
Proof.
  unfold binit. do 2 (apply sim_bind; [by apply sim_modify|intros _]). apply sim_for_each. intros b.
  unfold binit_body.
  repeat first [apply sim_bind; [first [by apply sim_gets | by apply sim_modify
    | apply sim_set_buf; intros x Hx; by rewrite flat_with_lock]|intros ?] | by apply sim_modify].
Qed.

Definition zero_buf : buf := Buf 0 0 0 (Sleeplock 0 0) 0 (replicate 512 0).
Lemma boot_buf i : bufs ex_boot i = zero_buf.
Proof.
  unfold bufs, lookup_total, map_lookup_total. destruct (bc_buf ex_boot !! i) as [b|] eqn:E; [|done].
  cbn in E. by apply lookup_gset_to_gmap_Some in E as [_ <-].
Qed.

Definition unused (b : buf) : bool :=
  (b_flags b =? 0) && (b_dev b =? 0) && (b_blockno b =? 0) && (b_refcnt b =? 0) && (slk_locked (b_lock b) =? 0).
Lemma boot_unused c i : binit ex_boot = Done tt c -> 0 <= i < NBUF -> unused (bufs c i) = true.
Proof.
  intros E Hi. assert (Hf : forallb (fun i => unused (bufs c i)) (seqZ 0 NBUF) = true).
  { revert E. vm_compute. by intros [= <-]. }
  rewrite forallb_forall in Hf. apply Hf, list_elem_of_In, elem_of_seqZ. lia.
Qed.
Lemma flat_unused b : unused b = true -> flat_buf b = b.
Proof. unfold unused, flat_buf. intros H. by replace ((b_dev b =? 0) && (b_blockno b =? 0)) with true by lia. Qed.

Lemma boot_bss D : bss (flat_on D ex_boot).
Proof.
  split; [|exact (bs_free _ ex_bss)]. intros i Hi. split.
  - cbn [bc_buf flat_on]. rewrite lookup_fmap, fmap_is_Some. by apply (bs_dom _ ex_bss).
  - rewrite flat_bufs, boot_buf. done.
Qed.

(** Nothing is cached: every block is what its sector holds. *)
Lemma drives_boot D : exists c,
  binit ex_boot = Done tt c
  /\ let s := Dst c D true in
     bl_ok s /\ (forall b, v_content (bl_view s) b = v_disk (bl_view s) b)
     /\ (forall dev b, disk_block dev b -> dblock dev b < v_size (bl_view s) ->
           v_disk (bl_view s) (dblock dev b) = D !!! (dev, b))
     /\ v_held (bl_view s) = ∅ /\ v_pinned (bl_view s) = ∅ /\ v_size (bl_view s) = DSIZE.
Proof.
  set (s0 := Dst ex_boot D true).
  assert (Hn : drives_ok s0).
  { split; [|done]. intros i. cbn [ds_cache s0]. rewrite boot_buf. by split; [left|]. }
  destruct (binit_correct (flat s0) (boot_bss _)) as (t & E & HI & Hc).
  destruct (fsim_cache _ _ sim_binit s0 tt t Hn E) as (s' & E' & -> & Hs').
  assert (Hcb : exists c, binit ex_boot = Done tt c /\ s' = set_cache c s0).
  { exact (cache_Done binit s0 tt s' E'). }
  destruct Hcb as (c & Ec & ->). exists c. split; [exact Ec|].
  change (set_cache c s0) with (Dst c D true) in *. set (s := Dst c D true) in *. cbv zeta.
  assert (Hu : forall i, 0 <= i < NBUF -> bufs (flat s) i = bufs c i /\ unused (bufs c i) = true).
  { intros i Hi. pose proof (boot_unused c i Ec Hi) as Hu. split; [|done].
    rewrite drives_bufs. by apply flat_unused. }
  assert (Hr : forall i, i ∈ reverse (seqZ 0 NBUF) -> 0 <= i < NBUF).
  { intros i. rewrite elem_of_reverse, elem_of_seqZ. lia. }
  split.
  { split; [exact Hs'|]. eexists. split; [exact HI|]. intros i Hi%Hr _.
    destruct (Hu i Hi) as [-> Hi']. unfold unused in Hi'. lia. }
  split.
  { intros b. change (content (flat s) b = diskblk (flat s) b). apply (content_none _ _ HI).
    intros i Hi%Hr [Hd _]. destruct (Hu i Hi) as [E1 Hi']. rewrite E1 in Hd. unfold unused in Hi'. lia. }
  split.
  { intros dev b Hb Hlt. change (v_size (bl_view s)) with DSIZE in Hlt.
    change (diskblk (flat s) (dblock dev b) = D !!! (dev, b)).
    change (flat_disk DSIZE D !!! dblock dev b = D !!! (dev, b)).
    assert (Hx : 0 <= dblock dev b < DSIZE) by (clear -Hb Hlt; unfold disk_block, dblock in *; lia).
    unfold lookup_total at 1, map_lookup_total. rewrite flat_disk_in by exact Hx.
    by rewrite dsector_dblock. }
  split; [|split; [|done]].
  - change (locked_set (flat s) = ∅). apply set_eq. intros x. rewrite elem_locked_set.
    split; [|by intros []%not_elem_of_empty].
    intros (i & Hi & Hd & _). destruct (Hu i Hi) as [E1 Hi']. rewrite E1 in Hd. unfold unused in Hi'. lia.
  - change (dirty_set (flat s) = ∅). apply set_eq. intros x. rewrite elem_dirty_set.
    split; [|by intros []%not_elem_of_empty].
    intros (i & Hi & Hd & _). destruct (Hu i Hi) as [E1 Hi']. rewrite E1 in Hd.
    change (Z.lor B_VALID B_DIRTY) with 6 in Hd. unfold unused in Hi'. lia.
Qed.
