(* ===== verification/Swap.v ===== *)
(** * Page replacement (the [src/page-replacement] kernel: [kalloc.c], [vm.c],
    [swapread]/[swapwrite] of [fs.c], [page_fault_hadler] of [trap.c])

    The swap bitmap, the circular LRU list of pages, [reclaim] with its clock
    scan and the allocator that calls it, and the page-table code over that
    allocator.  A page descriptor is named by its index in [pages], [NULL] is
    the null pointer.  The allocator's lock, free list and memory are those of
    [Kalloc.v] (this kernel keeps no count of free pages, the field of [kst] is
    unused); [bread] and the buffers are any block layer
    of the two disks ([SwapDisk.v]).  [cprintf] only writes
    to the console and is left out. *)
From S2P Require Import Prelude Layout Memory Locks Kalloc Vm Blocks SwapDisk Fs Mmap.

Definition SWAPBASE : Z := 500.
Definition SWAPMAX : Z := 100000 - SWAPBASE.
Definition BITMAP_SIZE : Z := 4096.
Definition PTE_A : Z := 32.
Definition NPAGES : Z := PHYSTOP `quot` PGSIZE.

(** [struct page]. *)
Record page := Page { g_next : Z; g_prev : Z; g_pgdir : Z; g_vaddr : Z }.
#[export] Instance page_inhabited : Inhabited page := populate (Page NULL NULL 0 0).

Record swst (B : Type) := Swst {
  sw_k : kst;
  sw_bl : B;
  sw_pages : gmap Z page;
  sw_head : Z;                  (* page_lru_head *)
  sw_nlru : Z;                  (* num_lru_pages *)
  sw_bitmap : list Z;           (* char bitmap[BITMAP_SIZE] *)
  sw_cr3 : Z;
  sw_pgdir : Z;                 (* myproc()->pgdir *)
  sw_nread : Z;
  sw_nwrite : Z }.
Arguments Swst {B}. Arguments sw_k {B}. Arguments sw_bl {B}. Arguments sw_pages {B}. Arguments sw_head {B}.
Arguments sw_nlru {B}. Arguments sw_bitmap {B}. Arguments sw_cr3 {B}. Arguments sw_pgdir {B}. Arguments sw_nread {B}.
Arguments sw_nwrite {B}.

Section swap.
Context {B : Type} `{Disks B} (kend kdata : Z).
#[local] Existing Instance dk_layer.
Implicit Types s : swst B.
Abbreviation W := (M (swst B)).

Definition set_k (k : kst) s : swst B :=
  Swst k (sw_bl s) (sw_pages s) (sw_head s) (sw_nlru s) (sw_bitmap s) (sw_cr3 s) (sw_pgdir s) (sw_nread s) (sw_nwrite s).
Definition set_sbl (b : B) s : swst B :=
  Swst (sw_k s) b (sw_pages s) (sw_head s) (sw_nlru s) (sw_bitmap s) (sw_cr3 s) (sw_pgdir s) (sw_nread s) (sw_nwrite s).
Definition set_pages (p : gmap Z page) s : swst B :=
  Swst (sw_k s) (sw_bl s) p (sw_head s) (sw_nlru s) (sw_bitmap s) (sw_cr3 s) (sw_pgdir s) (sw_nread s) (sw_nwrite s).
Definition set_head (h : Z) s : swst B :=
  Swst (sw_k s) (sw_bl s) (sw_pages s) h (sw_nlru s) (sw_bitmap s) (sw_cr3 s) (sw_pgdir s) (sw_nread s) (sw_nwrite s).
Definition upd_nlru (f : Z -> Z) s : swst B :=
  Swst (sw_k s) (sw_bl s) (sw_pages s) (sw_head s) (i32 (f (sw_nlru s))) (sw_bitmap s) (sw_cr3 s) (sw_pgdir s) (sw_nread s) (sw_nwrite s).
Definition set_bitmap (l : list Z) s : swst B :=
  Swst (sw_k s) (sw_bl s) (sw_pages s) (sw_head s) (sw_nlru s) l (sw_cr3 s) (sw_pgdir s) (sw_nread s) (sw_nwrite s).
Definition set_cr3 (c : Z) s : swst B :=
  Swst (sw_k s) (sw_bl s) (sw_pages s) (sw_head s) (sw_nlru s) (sw_bitmap s) c (sw_pgdir s) (sw_nread s) (sw_nwrite s).
Definition count_read s : swst B :=
  Swst (sw_k s) (sw_bl s) (sw_pages s) (sw_head s) (sw_nlru s) (sw_bitmap s) (sw_cr3 s) (sw_pgdir s) (i32 (sw_nread s + 1)) (sw_nwrite s).
Definition count_write s : swst B :=
  Swst (sw_k s) (sw_bl s) (sw_pages s) (sw_head s) (sw_nlru s) (sw_bitmap s) (sw_cr3 s) (sw_pgdir s) (sw_nread s) (i32 (sw_nwrite s + 1)).

#[export, program] Instance swst_locks : HasLocks (swst B) := {|
  locks_of s := k_held (sw_k s);
  with_locks L s := set_k (with_locks L (sw_k s)) s |}.
Next Obligation. done. Qed.
Next Obligation. done. Qed.
Next Obligation. by intros [[]]. Qed.

Definition kk {A} (m : M kst A) : W A := zoom sw_k set_k m.
Definition bb {A} (m : M B A) : W A := zoom sw_bl set_sbl m.

(** ** The swap bitmap: an array of [char] *)
Definition bitmap_get (index : Z) : W Z :=
  let i := Z.quot index 8 in
  if (0 <=? i) && (i <? BITMAP_SIZE) then gets (fun s => sw_bitmap s !!! Z.to_nat i)
  else undef "bitmap index".
Definition bitmap_put (index v : Z) : W unit :=
  let i := Z.quot index 8 in
  if (0 <=? i) && (i <? BITMAP_SIZE)
  then modify (fun s => set_bitmap (<[Z.to_nat i := i8 v]> (sw_bitmap s)) s)
  else undef "bitmap index".
Definition bit_of (index : Z) : Z := 1 ≪ Z.rem index 8.

Definition set_bit (index : Z) : W unit :=
  b ← bitmap_get index; bitmap_put index (b ||| bit_of index).
Definition clear_bit (index : Z) : W unit :=
  b ← bitmap_get index; bitmap_put index (b &&& Z.lnot (bit_of index)).
Definition check_bit (index : Z) : W Z :=
  b ← bitmap_get index; mret (b &&& bit_of index).
Definition find_free_swap_index : W Z :=
  r ← for_ret (seqZ 0 BITMAP_SIZE) (fun i =>
    c ← check_bit i;
    mret (if truth c then None else Some i));
  mret (default (-1) r).

(** ** The LRU list *)
Definition gget (i : Z) : W page :=
  if i =? NULL then undef "null page"
  else if (0 <=? i) && (i <? NPAGES) then gets (fun s => sw_pages s !!! i) else undef "page index".
Definition gset' (i : Z) (f : page -> page) : W unit :=
  if i =? NULL then undef "null page"
  else if (0 <=? i) && (i <? NPAGES)
  then modify (fun s => set_pages (<[i := f (sw_pages s !!! i)]> (sw_pages s)) s) else undef "page index".
Definition with_next (n : Z) (p : page) : page := Page n (g_prev p) (g_pgdir p) (g_vaddr p).
Definition with_prev (n : Z) (p : page) : page := Page (g_next p) n (g_pgdir p) (g_vaddr p).
Definition with_owner (d va : Z) (p : page) : page := Page (g_next p) (g_prev p) d va.

Definition append_lru (pgdir va pa : Z) : W unit :=
  let newPage := pa `div` PGSIZE in
  acquire Llru ;;
  gset' newPage (with_owner pgdir va) ;;
  n ← gets sw_nlru;
  (if n =? 1 then
     modify (set_head newPage) ;;
     gset' newPage (with_prev newPage) ;;
     gset' newPage (with_next newPage)
   else
     h ← gets sw_head;
     hp ← gget h;
     gset' newPage (with_prev (g_prev hp)) ;;
     gset' newPage (with_next h) ;;
     hp ← gget h;
     gset' (g_prev hp) (with_next newPage) ;;
     gset' h (with_prev newPage)) ;;
  modify (upd_nlru (fun n => n + 1)) ;;
  release Llru.

Definition pop_lru (pa : Z) : W unit :=
  let deletePage := pa `div` PGSIZE in
  acquire Llru ;;
  h ← gets sw_head;
  (if deletePage =? h then modify (set_head NULL)
   else
     d ← gget deletePage;
     gset' (g_prev d) (with_next (g_next d)) ;;
     d ← gget deletePage;
     gset' (g_next d) (with_prev (g_prev d)) ;;
     gset' deletePage (with_next NULL) ;;
     gset' deletePage (with_prev NULL) ;;
     gset' deletePage (with_owner 0 0)) ;;
  modify (upd_nlru (fun n => n - 1)) ;;
  release Llru.

(** ** Swap space *)
Definition BLKS_PER_PG : Z := PGSIZE `quot` BSIZE.
Definition swap_bad (blkno : Z) : bool := (blkno <? 0) || (blkno >=? SWAPMAX `quot` BLKS_PER_PG).

(** The kernel address of a virtual address of the running page directory, as
    the hardware translates it; kernel addresses are mapped to themselves. *)
Definition translate (va : Z) : W Z :=
  if va >=? KERNBASE then mret va
  else
    d ← gets sw_cr3;
    e ← kk (load32 (P2V d + 4 * PDX va));
    if negb (truth (e &&& PTE_P)) then undef "page fault in the kernel"
    else
      e ← kk (load32 (P2V (PTE_ADDR e) + 4 * PTX va));
      if negb (truth (e &&& PTE_P)) then undef "page fault in the kernel"
      else mret (P2V (PTE_ADDR e) + va `mod` PGSIZE).

Definition load_bytes (a : Z) (n : nat) (m : mem) : list Z :=
  (fun i => rd8 m (a + i)) <$> seqZ 0 (Z.of_nat n).

(** One block of a page; [swapread] and [swapwrite] do the [BLKS_PER_PG] of it. *)
Definition swapread_blk (ptr blkno i : Z) : W unit :=
  modify count_read ;;
  bp ← bb (dread 0 (SWAPBASE + BLKS_PER_PG * blkno + i));
  d ← bb (gets (bdata bp));
  a ← translate (ptr + i * BSIZE);
  kk (modify (upd_mem (store_bytes a d))) ;;
  bb (brelse bp).
Definition swapread (ptr blkno : Z) : W unit :=
  if swap_bad blkno then panic "swapread: blkno exceeded range"
  else for_each (seqZ 0 BLKS_PER_PG) (swapread_blk ptr blkno).

Definition swapwrite_blk (ptr blkno i : Z) : W unit :=
  modify count_write ;;
  bp ← bb (dread 0 (SWAPBASE + BLKS_PER_PG * blkno + i));
  a ← translate (ptr + i * BSIZE);
  m ← kk (gets k_mem);
  bb (bstore bp (load_bytes a (Z.to_nat BSIZE) m)) ;;
  bb (bwrite bp) ;;
  bb (brelse bp).
Definition swapwrite (ptr blkno : Z) : W unit :=
  if swap_bad blkno then panic "swapwrite: blkno exceeded range"
  else for_each (seqZ 0 BLKS_PER_PG) (swapwrite_blk ptr blkno).

(** [flush]: reloads [CR3] with the page directory of the process. *)
Definition flush : W unit :=
  modify (fun s => set_cr3 (V2P (sw_pgdir s)) s).

(** ** The allocator *)
Definition kfree (v : Z) : W unit :=
  if kfree_bad kend v then panic "kfree"
  else
    kk (modify (upd_mem (memset v 1 PGSIZE))) ;;
    ul ← gets (fun s => k_use_lock (sw_k s));
    when ul (acquire Lkmem) ;;
    fl ← gets (fun s => k_freelist (sw_k s));
    kk (store32 v fl) ;;
    kk (modify (upd_freelist v)) ;;
    ul ← gets (fun s => k_use_lock (sw_k s));
    when ul (release Lkmem).

(** [walkpgdir] with [alloc = 0]: it allocates nothing. *)
Definition findpte (pgdir va : Z) : W Z := kk (walkpgdir pgdir va false).

(** The part of [reclaim] for a page not referenced recently. *)
Definition evict (targetPte : Z) : W Z :=
  targetPage ← gets sw_head;
  t ← gget targetPage;
  modify (set_head (g_next t)) ;;
  h ← gets sw_head;
  gset' h (with_prev (g_prev t)) ;;
  t ← gget targetPage;
  gset' (g_prev t) (with_next h) ;;
  when (h =? targetPage) (modify (set_head NULL)) ;;
  swap_index ← find_free_swap_index;
  if swap_index <? 0 then release Llru ;; mret 0
  else
    t ← gget targetPage;
    swapwrite (g_vaddr t) swap_index ;;
    set_bit swap_index ;;
    e ← kk (load32 targetPte);
    let flags := PTE_FLAGS e in
    kk (store32 targetPte (e &&& Z.lnot 4294963200)) ;;
    kk (store32 targetPte (u32 (swap_index ≪ 12) ||| flags)) ;;
    e ← kk (load32 targetPte);
    kk (store32 targetPte (e &&& Z.lnot PTE_P)) ;;
    flush ;;
    release Lkmem ;;
    e ← kk (load32 targetPte);
    kfree (P2V (PTE_ADDR e)) ;;
    release Llru ;;
    mret 1.

(** One turn of the clock. *)
Definition reclaim_body (_ : unit) : W (unit + Z) :=
  h ← gets sw_head;
  hp ← gget h;
  targetPte ← findpte (g_pgdir hp) (PGROUNDDOWN (g_vaddr hp));
  if targetPte =? 0 then undef "null pte"
  else
    e ← kk (load32 targetPte);
    if truth (e &&& PTE_A) then
      kk (store32 targetPte (e &&& Z.lnot PTE_A)) ;;
      hp ← gget h;
      modify (set_head (g_next hp)) ;;
      mret (inl tt)
    else r ← evict targetPte; mret (inr r).

(** A round over all page descriptors clears every reference bit. *)
Definition reclaim : W Z :=
  acquire Llru ;;
  n ← gets sw_nlru;
  if n =? 0 then release Llru ;; mret 0
  else loop (Z.to_nat NPAGES + 1) reclaim_body tt.

(** The [goto try_again] follows a [reclaim] that freed a page. *)
Definition kalloc_try (_ : unit) : W (unit + Z) :=
  ul ← gets (fun s => k_use_lock (sw_k s));
  when ul (acquire Lkmem) ;;
  r ← gets (fun s => k_freelist (sw_k s));
  again ← (if r =? 0 then c ← reclaim; mret (truth c) else mret false);
  if (again : bool) then mret (inl tt)
  else
    when (truth r) (next ← kk (load32 r); kk (modify (upd_freelist next))) ;;
    ul ← gets (fun s => k_use_lock (sw_k s));
    when ul (release Lkmem) ;;
    mret (inr r).
Definition kalloc : W Z := loop 2 kalloc_try tt.

Definition freerange_body (vend p : Z) : W (Z + unit) :=
  if p + PGSIZE <=? vend then kfree p ;; mret (inl (p + PGSIZE)) else mret (inr tt).
Definition freerange (vstart vend : Z) : W unit :=
  loop (Datatypes.S (Z.to_nat (vend `div` PGSIZE))) (freerange_body vend) (PGROUNDUP vstart).
Definition kinit1 (vstart vend : Z) : W unit :=
  kk (modify (upd_use_lock false)) ;;
  freerange vstart vend ;;
  modify (set_bitmap (replicate (Z.to_nat BITMAP_SIZE) 0)).
Definition kinit2 (vstart vend : Z) : W unit :=
  freerange vstart vend ;; kk (modify (upd_use_lock true)).

(** ** Page tables over this allocator *)
Definition walkpgdir (pgdir va : Z) : W Z :=
  let pde := pgdir + 4 * PDX va in
  e ← kk (load32 pde);
  if truth (e &&& PTE_P) then mret (P2V (PTE_ADDR e) + 4 * PTX va)
  else
    pgtab ← kalloc;
    if pgtab =? 0 then mret 0
    else
      kk (modify (upd_mem (memset pgtab 0 PGSIZE))) ;;
      kk (store32 pde (V2P pgtab ||| PTE_P ||| PTE_W ||| PTE_U)) ;;
      mret (pgtab + 4 * PTX va).

Definition mappages_body (pgdir last perm : Z) (apa : Z * Z) : W (Z * Z + Z) :=
  let '(a, pa) := apa in
  pte ← walkpgdir pgdir a;
  if pte =? 0 then mret (inr (-1))
  else
    e ← kk (load32 pte);
    if truth (e &&& PTE_P) then panic "remap"
    else
      kk (store32 pte (pa ||| perm ||| PTE_P)) ;;
      if a =? last then mret (inr 0)
      else mret (inl (u32 (a + PGSIZE), u32 (pa + PGSIZE))).
Definition mappages (pgdir va size pa perm : Z) : W Z :=
  let a := PGROUNDDOWN (u32 va) in
  let last := PGROUNDDOWN (u32 (va + size - 1)) in
  loop (Datatypes.S (Z.to_nat (u32 (last - a) `div` PGSIZE)))
    (mappages_body pgdir last perm) (a, u32 pa).

(** The walk over the LRU list for the descriptor of a page being freed; it can
    go round the ring twice when the head is the page itself. *)
Definition unlist_body (pgdir a pa : Z) (targetPage : Z) : W (Z + unit) :=
  if targetPage =? NULL then mret (inr tt)
  else
    t ← gget targetPage;
    when ((g_vaddr t =? a) && (g_pgdir t =? pgdir)) (pop_lru pa) ;;
    t ← gget targetPage;
    h ← gets sw_head;
    mret (if g_next t =? h then inr tt else inl (g_next t)).
Definition unlist (pgdir a pa : Z) : W unit :=
  h ← gets sw_head;
  loop (2 * Z.to_nat NPAGES + 1) (unlist_body pgdir a pa) h.

Definition deallocuvm_body (pgdir oldsz : Z) (a : Z) : W (Z + unit) :=
  if negb (a <? oldsz) then mret (inr tt)
  else
    pte ← findpte pgdir a;
    if pte =? 0
    then mret (inl (u32 (u32 (PGADDR (PDX a + 1) 0 0 - PGSIZE) + PGSIZE)))
    else
      e ← kk (load32 pte);
      when (truth (e &&& PTE_P) || truth e)
        (let pa := PTE_ADDR e in
         (if pa =? 0 then clear_bit (PTE_ADDR e ≫ 12)
          else unlist pgdir a pa ;; kfree (P2V pa)) ;;
         kk (store32 pte 0)) ;;
      mret (inl (u32 (a + PGSIZE))).
Definition deallocuvm (pgdir oldsz newsz : Z) : W Z :=
  if newsz >=? oldsz then mret oldsz
  else
    loop (Datatypes.S (Z.to_nat (oldsz `div` PGSIZE + 1))) (deallocuvm_body pgdir oldsz) (PGROUNDUP newsz) ;;
    mret newsz.

Definition freevm (pgdir : Z) : W unit :=
  if pgdir =? 0 then panic "freevm: no pgdir"
  else
    deallocuvm pgdir KERNBASE 0 ;;
    for_each (seqZ 0 NPDENTRIES) (fun i =>
      e ← kk (load32 (pgdir + 4 * i));
      when (truth (e &&& PTE_P))
        (e ← kk (load32 (pgdir + 4 * i)); kfree (P2V (PTE_ADDR e)))) ;;
    kfree pgdir.

Definition setupkvm : W Z :=
  pgdir ← kalloc;
  if pgdir =? 0 then mret 0
  else
    kk (modify (upd_mem (memset pgdir 0 PGSIZE))) ;;
    (if P2V PHYSTOP >? DEVSPACE then panic "PHYSTOP too high" else mret tt) ;;
    r ← for_ret (kmap kdata) (fun k =>
      let '(virt, phys_start, phys_end, perm) := k in
      r ← mappages pgdir virt (u32 (phys_end - phys_start)) phys_start perm;
      if r <? 0 then freevm pgdir ;; mret (Some 0) else mret None);
    mret (default pgdir r).

Definition inituvm (pgdir init sz : Z) : W unit :=
  if sz >=? PGSIZE then panic "inituvm: more than a page"
  else
    mem ← kalloc;
    if mem =? 0 then undef "memset of a null page" else
    kk (modify (upd_mem (memset mem 0 PGSIZE))) ;;
    mappages pgdir 0 PGSIZE (V2P mem) (PTE_W ||| PTE_U) ;;
    kk (modify (upd_mem (memmove mem init sz))).

Definition allocuvm_body (pgdir oldsz newsz : Z) (a : Z) : W (Z + Z) :=
  if negb (a <? newsz) then mret (inr newsz)
  else
    mem ← kalloc;
    if mem =? 0 then
      deallocuvm pgdir newsz oldsz ;; mret (inr 0)
    else
      kk (modify (upd_mem (memset mem 0 PGSIZE))) ;;
      r ← mappages pgdir a PGSIZE (V2P mem) (PTE_W ||| PTE_U);
      if r <? 0 then
        deallocuvm pgdir newsz oldsz ;; kfree mem ;; mret (inr 0)
      else mret (inl (u32 (a + PGSIZE))).
Definition allocuvm (pgdir oldsz newsz : Z) : W Z :=
  if newsz >=? KERNBASE then mret 0
  else if newsz <? oldsz then mret oldsz
  else loop (Datatypes.S (Z.to_nat (newsz `div` PGSIZE + 1))) (allocuvm_body pgdir oldsz newsz) (PGROUNDUP oldsz).

(** One page of [copyuvm], present or swapped out. *)
Definition copyuvm_body (pgdir sz d : Z) (i : Z) : W (Z + Z) :=
  if negb (i <? sz) then mret (inr d)
  else
    pte ← findpte pgdir i;
    if pte =? 0 then panic "copyuvm: pte should exist"
    else
      e ← kk (load32 pte);
      if negb (truth (e &&& PTE_P)) then
        mem ← kalloc;
        if mem =? 0 then freevm d ;; mret (inr 0)
        else
          e ← kk (load32 pte);
          swapread mem (e ≫ 12) ;;
          e ← kk (load32 pte);
          r ← mappages d i PGSIZE (V2P mem) (PTE_FLAGS e ||| PTE_P);
          if r <? 0 then kfree mem ;; freevm d ;; mret (inr 0)
          else append_lru d i (V2P mem) ;; mret (inl (u32 (i + PGSIZE)))
      else
        let pa := PTE_ADDR e in
        let flags := PTE_FLAGS e in
        mem ← kalloc;
        if mem =? 0 then freevm d ;; mret (inr 0)
        else
          kk (modify (upd_mem (memmove mem (P2V pa) PGSIZE))) ;;
          r ← mappages d i PGSIZE (V2P mem) flags;
          if r <? 0 then kfree mem ;; freevm d ;; mret (inr 0)
          else append_lru d i (V2P mem) ;; mret (inl (u32 (i + PGSIZE))).
Definition copyuvm (pgdir sz : Z) : W Z :=
  d ← setupkvm;
  if d =? 0 then mret 0
  else loop (Datatypes.S (Z.to_nat (sz `div` PGSIZE + 1))) (copyuvm_body pgdir sz d) 0.

Definition page_fault_hadler (pgdir vaddr : Z) : W Z :=
  pte ← findpte pgdir (PGROUNDDOWN vaddr);
  if pte =? 0 then undef "null pte"
  else
    e ← kk (load32 pte);
    if e =? 0 then mret 0
    else
      new_page ← kalloc;
      if new_page =? 0 then mret 0
      else
        let pa := V2P new_page in
        e ← kk (load32 pte);
        let swap_index := e ≫ 12 in
        swapread new_page swap_index ;;
        clear_bit swap_index ;;
        e ← kk (load32 pte);
        kk (store32 pte (pa ||| PTE_FLAGS e ||| PTE_P)) ;;
        flush ;;
        mret 1.

(** [clearpteu], [uva2ka] and [copyout] only follow the page table, so they are those of
    [Vm.v]; a page in swap space is not present for them. *)
Definition clearpteu (pgdir uva : Z) : W unit := kk (Vm.clearpteu pgdir uva).
Definition uva2ka (pgdir uva : Z) : W Z := kk (Vm.uva2ka pgdir uva).
Definition copyout (pgdir va p len : Z) : W Z := kk (Vm.copyout pgdir va p len).
End swap.
