(* ===== verification/SwapSpace.v ===== *)
(** * Swap space ([swapread], [swapwrite], the bitmap of [kalloc.c] in the
    page-replacement kernel: theorems)

    A page written to a swap slot is read back from it, and the bitmap of slots
    behaves as a set of slot numbers. *)
From S2P Require Import Prelude Layout Memory Locks Kalloc Vm Blocks BlockMem SwapDisk LogSpec Fs FsSpec Mmap Swap.

Lemma length_load_bytes a n m : length (load_bytes a n m) = n.
Proof. unfold load_bytes. rewrite length_fmap, length_seqZ. lia. Qed.

Lemma lookup_load_bytes a n m k : (k < n)%nat -> load_bytes a n m !!! k = rd8 m (a + Z.of_nat k).
Proof.
  intros Hk. unfold load_bytes. apply list_lookup_total_correct. rewrite list_lookup_fmap.
  rewrite (proj2 (lookup_seqZ 0 (Z.of_nat n) k (Z.of_nat k))) by lia. done.
Qed.

(** ** One block *)
Section layer.
Context {B : Type} `{Disks B}.
#[local] Existing Instance dk_layer.
Implicit Types l : B.

(** The number of a block of the swap disk, and one block written and read. *)
Abbreviation swb x := (dblock 0 x).

Definition swap_out (b : Z) (d : block) : M B unit :=
  bp ← dread 0 b; bstore bp d ;; bwrite bp ;; brelse bp.
Definition swap_in (b : Z) : M B block :=
  bp ← dread 0 b; d ← gets (bdata bp); brelse bp ;; mret d.

(** The buffers are free: none is owned and there is room for one more. *)
Definition free_view (v : view) : Prop := v_held v = ∅ /\ (size (v_pinned v) < Z.to_nat NBUF)%nat.

Lemma bread0 l v b :
  at_view l v -> free_view v -> 1 <= b -> swb b < v_size v ->
  exists h l', dread 0 b l = Done h l' /\ bl_owns l' h (swb b)
    /\ at_view l' (View (v_content v) (v_disk v) {[ swb b ]} (v_pinned v) (v_size v)).
Proof.
  intros [Hok [V1 V2 V3 V4 V5]] [Hh Hs] Hb1 Hb. rewrite dread_block by (by left).
  destruct (bl_bread l (swb b) Hok) as (h & l' & E & Hok' & Ho & [W1 W2 W3 W4 W5]);
    [rewrite V5; split; [unfold dblock; lia|done]|rewrite V3, Hh; set_solver|right; rewrite V3, Hh, V4, union_empty_l_L; done|].
  exists h, l'. split; [done|]. split; [apply Ho; by right|]. split; [done|].
  cbn in *. split; cbn; intros; rewrite ?W1, ?W2, ?W3, ?W4, ?W5; try congruence. rewrite V3, Hh. set_solver.
Qed.

Lemma swap_out_spec l v b d :
  at_view l v -> free_view v -> 1 <= b -> swb b < v_size v ->
  exists l', swap_out b d l = Done tt l'
    /\ at_view l' (View (upd (v_content v) (swb b) d) (upd (v_disk v) (swb b) d) ∅ (v_pinned v ∖ {[ swb b ]}) (v_size v)).
Proof.
  intros Hv Hf Hb1 Hb. destruct (bread0 l v b Hv Hf Hb1 Hb) as (h & l1 & E1 & O1 & [K1 V1]).
  destruct (bl_bstore l1 h (swb b) d K1 O1) as (l2 & E2 & K2 & O2 & V2).
  destruct (bl_bwrite l2 h (swb b) K2 ltac:(by apply O2)) as (l3 & E3 & K3 & O3 & V3).
  assert (Hv3 : veq (bl_view l3) (View (upd (v_content v) (swb b) d) (upd (v_disk v) (swb b) d) {[ swb b ]} (v_pinned v ∖ {[ swb b ]}) (v_size v))).
  { destruct V1, V2, V3; cbn in *. split; cbn; intros.
    - rewrite ve_content1, ve_content0. unfold upd. split_decide; [done|apply ve_content].
    - rewrite ve_disk1. unfold upd. split_decide as [->|Hn].
      + rewrite ve_content0. unfold upd. by rewrite decide_True.
      + by rewrite ve_disk0, ve_disk.
    - congruence.
    - rewrite ve_pinned1, ve_pinned0, ve_pinned. done.
    - congruence. }
  destruct (bl_brelse l3 h (swb b) K3 ltac:(by apply O3, O2)) as (l4 & E4 & K4 & _ & V4).
  { right. destruct Hv3; cbn in *. rewrite ve_content, ve_disk. unfold upd. by rewrite !decide_True by done. }
  exists l4. split; [unfold swap_out, mbind, M_bind; by rewrite E1, E2, E3, E4|]. split; [done|].
  etrans; [exact V4|]. destruct Hv3; cbn in *. split; cbn; intros; try done; rewrite ve_held; set_solver.
Qed.

Lemma swap_in_spec l v b :
  at_view l v -> free_view v -> 1 <= b -> swb b < v_size v -> v_content v (swb b) = v_disk v (swb b) ->
  exists l', swap_in b l = Done (v_content v (swb b)) l' /\ at_view l' v.
Proof.
  intros Hv Hf Hb1 Hb Hc. destruct (bread0 l v b Hv Hf Hb1 Hb) as (h & l1 & E1 & O1 & [K1 V1]).
  destruct (bl_data l1 h (swb b) K1 O1) as (Ed & _).
  destruct (bl_brelse l1 h (swb b) K1 O1) as (l2 & E2 & K2 & _ & V2).
  { right. destruct V1; cbn in *. by rewrite ve_content, ve_disk. }
  exists l2. split.
  - unfold swap_in, mbind, M_bind, gets. rewrite E1, E2, Ed. destruct V1; cbn in *. by rewrite ve_content.
  - split; [done|]. etrans; [exact V2|]. destruct V1, Hf as [Hh _]; cbn in *. split; cbn; intros; try done.
    rewrite ve_held, Hh. set_solver.
Qed.

(** ** A page *)
Implicit Types s : swst B.

(** The states of the loops: the buffers, a counter and the memory change. *)
Definition at_bl (l : B) (k : kst) (r w : Z) s : swst B :=
  Swst k l (sw_pages s) (sw_head s) (sw_nlru s) (sw_bitmap s) (sw_cr3 s) (sw_pgdir s) r w.

Lemma translate_kernel a s : KERNBASE <= a -> translate a s = Done a s.
Proof. intros Ha. unfold translate. by rewrite (proj2 (Z.geb_le _ _) Ha). Qed.

Lemma swapwrite_blk_eq ptr blkno i s l' :
  KERNBASE <= ptr + i * BSIZE ->
  swap_out (SWAPBASE + BLKS_PER_PG * blkno + i) (load_bytes (ptr + i * BSIZE) 512 (k_mem (sw_k s))) (sw_bl s) = Done tt l' ->
  swapwrite_blk ptr blkno i s = Done tt (at_bl l' (sw_k s) (sw_nread s) (i32 (sw_nwrite s + 1)) s).
Proof.
  intros Ha. unfold swapwrite_blk, swap_out, mbind, M_bind, modify, bb, zoom. cbn [sw_bl count_write].
  destruct (dread 0 _ (sw_bl s)) as [h l1| | | |]; try done. rewrite translate_kernel by done.
  cbn [sw_bl set_sbl kk zoom sw_k set_k gets].
  change (Z.to_nat BSIZE) with 512%nat.
  destruct (bstore h _ l1) as [[] l2| | | |]; try done. cbn [sw_bl set_sbl].
  destruct (bwrite h l2) as [[] l3| | | |]; try done. cbn [sw_bl set_sbl].
  destruct (brelse h l3) as [[] l4| | | |]; try done. by intros [= ->].
Qed.

Lemma swapread_blk_eq ptr blkno i s d l' :
  KERNBASE <= ptr + i * BSIZE ->
  swap_in (SWAPBASE + BLKS_PER_PG * blkno + i) (sw_bl s) = Done d l' ->
  swapread_blk ptr blkno i s
  = Done tt (at_bl l' (upd_mem (store_bytes (ptr + i * BSIZE) d) (sw_k s)) (i32 (sw_nread s + 1)) (sw_nwrite s) s).
Proof.
  intros Ha. unfold swapread_blk, swap_in, mbind, M_bind, modify, bb, zoom. cbn [sw_bl count_read].
  destruct (dread 0 _ (sw_bl s)) as [h l1| | | |]; try done. cbn [gets sw_bl set_sbl].
  rewrite translate_kernel by done. cbn [sw_bl set_sbl kk zoom sw_k set_k gets].
  destruct (brelse h l1) as [[] l4| | | |]; try done. intros [= <- ->]. reflexivity.
Qed.

(** The slot from block [base] holds the first [n] blocks of the page. *)
Record slot_view (base : Z) (D : Z -> block) (n : Z) (v w : view) : Prop := SlotView {
  sv_held : v_held w = ∅;
  sv_pinned : v_pinned w ⊆ v_pinned v;
  sv_size : v_size w = v_size v;
  sv_in : forall j, 0 <= j < n -> v_content w (swb (base + j)) = D j /\ v_disk w (swb (base + j)) = D j;
  sv_out : forall x, (forall j, 0 <= j < n -> x <> swb (base + j)) -> v_content w x = v_content v x /\ v_disk w x = v_disk v x }.

Lemma slot_view_step base D n v w :
  0 <= n -> slot_view base D n v w ->
  slot_view base D (n + 1) v
    (View (upd (v_content w) (swb (base + n)) (D n)) (upd (v_disk w) (swb (base + n)) (D n)) ∅
      (v_pinned w ∖ {[ swb (base + n) ]}) (v_size w)).
Proof.
  intros Hn [S1 S2 S3 S4 S5]. split; cbn; [done|set_solver|done|..].
  - intros j Hj. unfold upd. split_decide as [E|E]; [replace n with j by (unfold dblock in E; lia); done|].
    apply S4. destruct (decide (j = n)) as [->|]; [done|lia].
  - intros x Hx. unfold upd. rewrite !decide_False by (apply Hx; lia). apply S5. intros j Hj. apply Hx. lia.
Qed.

Lemma slot_free base D n v w : free_view v -> slot_view base D n v w -> free_view w.
Proof.
  intros [_ Hs] [S1 S2 _ _ _]. split; [done|]. pose proof (subseteq_size _ _ S2). lia.
Qed.

Lemma swap_bad_ok blkno : 0 <= blkno < 12437 -> swap_bad blkno = false.
Proof. intros Hb. unfold swap_bad. change (SWAPMAX `quot` BLKS_PER_PG) with 12437. rewrite Z.geb_leb. lia. Qed.

Lemma swapwrite_spec ptr blkno s v :
  at_view (sw_bl s) v -> free_view v -> 0 <= blkno < 12437 -> swb (SWAPBASE + 8 * blkno + 7) < v_size v -> KERNBASE <= ptr ->
  exists l w c, swapwrite ptr blkno s = Done tt (at_bl l (sw_k s) (sw_nread s) c s) /\ at_view l w
    /\ slot_view (SWAPBASE + 8 * blkno) (fun j => load_bytes (ptr + j * 512) 512 (k_mem (sw_k s))) 8 v w.
Proof.
  intros Hv Hf Hb Hsz Hp. unfold swapwrite. rewrite swap_bad_ok by done.
  set (D := fun j => load_bytes (ptr + j * 512) 512 (k_mem (sw_k s))).
  pose (I := fun n s' => exists l w c, s' = at_bl l (sw_k s) (sw_nread s) c s /\ at_view l w
    /\ slot_view (SWAPBASE + 8 * blkno) D (Z.of_nat n) v w).
  assert (Hw : wp (for_each (seqZ 0 BLKS_PER_PG) (swapwrite_blk ptr blkno)) (fun _ => I 8%nat) s).
  { apply (wp_for_each (seqZ 0 BLKS_PER_PG) (swapwrite_blk ptr blkno) I s).
    - exists (sw_bl s), v, (sw_nwrite s). split; [by destruct s|]. split; [done|]. destruct Hf as [Hh _].
      split; [done..| |]; intros; [lia|done].
    - intros n i s' Hi (l & w & c & -> & Hl & Hs). apply lookup_seqZ in Hi as [-> Hi]. change BLKS_PER_PG with 8 in Hi.
      destruct (swap_out_spec l w (SWAPBASE + BLKS_PER_PG * blkno + (0 + Z.of_nat n)) (D (Z.of_nat n)) Hl) as (l' & E & Hl').
      { by eapply slot_free. }
      { change BLKS_PER_PG with 8. unfold SWAPBASE. lia. }
      { destruct Hs. change BLKS_PER_PG with 8. unfold dblock, SWAPBASE in *. lia. }
      eapply wp_Done; [apply swapwrite_blk_eq; [unfold BSIZE; lia|exact E]|].
      eexists l', _, _. split; [reflexivity|]. split; [exact Hl'|].
      replace (Z.of_nat (S n)) with (Z.of_nat n + 1) by lia.
      change BLKS_PER_PG with 8. rewrite Z.add_0_l. apply slot_view_step; [lia|done]. }
  apply wp_inv in Hw as ([] & s' & E & (l & w & c & -> & Hl & Hs)). exists l, w, c. auto.
Qed.

Lemma swapread_spec ptr blkno D s v w :
  at_view (sw_bl s) w -> free_view v -> slot_view (SWAPBASE + 8 * blkno) D 8 v w ->
  (forall j, 0 <= j < 8 -> length (D j) = 512%nat) ->
  0 <= blkno < 12437 -> swb (SWAPBASE + 8 * blkno + 7) < v_size v -> KERNBASE <= ptr ->
  exists s', swapread ptr blkno s = Done tt s'
    /\ forall x, rd8 (k_mem (sw_k s')) x
        = if decide (ptr <= x < ptr + 4096) then u8 (D ((x - ptr) `div` 512) !!! Z.to_nat ((x - ptr) `mod` 512))
          else rd8 (k_mem (sw_k s)) x.
Proof.
  intros Hv Hf Hs HD Hb Hsz Hp. unfold swapread. rewrite swap_bad_ok by done.
  pose (I := fun n s' => exists l k r, s' = at_bl l k r (sw_nwrite s) s /\ at_view l w
    /\ forall x, rd8 (k_mem k) x
        = if decide (ptr <= x < ptr + 512 * Z.of_nat n) then u8 (D ((x - ptr) `div` 512) !!! Z.to_nat ((x - ptr) `mod` 512))
          else rd8 (k_mem (sw_k s)) x).
  assert (Hw : wp (for_each (seqZ 0 BLKS_PER_PG) (swapread_blk ptr blkno)) (fun _ => I 8%nat) s).
  { apply (wp_for_each (seqZ 0 BLKS_PER_PG) (swapread_blk ptr blkno) I s).
    - exists (sw_bl s), (sw_k s), (sw_nread s). split; [by destruct s|]. split; [done|]. intros x. by rewrite decide_False by lia.
    - intros n i s' Hi (l & k & r & -> & Hl & Hk). apply lookup_seqZ in Hi as [-> Hi]. change BLKS_PER_PG with 8 in Hi.
      rewrite Z.add_0_l. destruct (sv_in _ _ _ _ _ Hs (Z.of_nat n) ltac:(lia)) as [Ec Ed].
      destruct (swap_in_spec l w (SWAPBASE + BLKS_PER_PG * blkno + Z.of_nat n) Hl) as (l' & E & Hl').
      { by eapply slot_free. }
      { change BLKS_PER_PG with 8. unfold SWAPBASE. lia. }
      { destruct Hs. change BLKS_PER_PG with 8. unfold dblock, SWAPBASE in *. lia. }
      { change BLKS_PER_PG with 8. by rewrite Ec, Ed. }
      eapply wp_Done; [apply swapread_blk_eq; [unfold BSIZE; lia|exact E]|].
      eexists l', _, _. split; [reflexivity|]. split; [done|]. intros x. cbn. change BLKS_PER_PG with 8.
      rewrite Ec, rd8_store_bytes, (HD (Z.of_nat n)), Hk by lia. unfold BSIZE.
      destruct (decide (ptr + Z.of_nat n * 512 <= x < ptr + Z.of_nat n * 512 + Z.of_nat 512)) as [Hx|Hx].
      + rewrite decide_True by lia. f_equal.
        assert ((x - ptr) `div` 512 = Z.of_nat n) as -> by zlia.
        assert ((x - ptr) `mod` 512 = x - (ptr + Z.of_nat n * 512)) as -> by zlia. done.
      + apply decide_ext. lia. }
  apply wp_inv in Hw as ([] & s' & E & (l & k & r & -> & Hl & Hk)). eexists. split; [exact E|]. exact Hk.
Qed.

(** (C7) A page written to a swap slot is read back byte for byte, to any
    kernel page and whatever the memory holds by then.  The write puts the page
    in the slot's eight blocks of disk 0, changes no memory, and leaves every
    other block of that disk and every block of the file-system disk, its
    contents and the disk, as they were; the read changes no other memory.  The
    layer is any [Disks]; [SwapDisk.v] has the buffer cache over two drives as one. *)
Theorem swap_roundtrip ptr ptr' blkno s v :
  at_view (sw_bl s) v -> free_view v -> 0 <= blkno < 12437 -> dblock 0 (SWAPBASE + 8 * blkno + 7) < v_size v ->
  KERNBASE <= ptr -> KERNBASE <= ptr' -> bytes_ok (k_mem (sw_k s)) ->
  exists s1 w, swapwrite ptr blkno s = Done tt s1 /\ sw_k s1 = sw_k s /\ at_view (sw_bl s1) w
    /\ (forall j, 0 <= j < 8 ->
          v_disk w (dblock 0 (SWAPBASE + 8 * blkno + j)) = load_bytes (ptr + j * 512) 512 (k_mem (sw_k s)))
    /\ (forall dev b, disk_block dev b -> ~ (dev = 0 /\ SWAPBASE + 8 * blkno <= b < SWAPBASE + 8 * blkno + 8) ->
          v_content w (dblock dev b) = v_content v (dblock dev b) /\ v_disk w (dblock dev b) = v_disk v (dblock dev b))
    /\ forall k', exists s2, swapread ptr' blkno (set_k k' s1) = Done tt s2
        /\ forall x, rd8 (k_mem (sw_k s2)) x
            = if decide (ptr' <= x < ptr' + PGSIZE) then rd8 (k_mem (sw_k s)) (ptr + (x - ptr')) else rd8 (k_mem k') x.
Proof.
  intros Hv Hf Hb Hsz Hp Hp' Hm.
  destruct (swapwrite_spec ptr blkno s v Hv Hf Hb Hsz Hp) as (l & w & c & E & Hl & Hs).
  eexists _, w. split; [exact E|]. split; [done|]. split; [exact Hl|]. split; [intros j Hj; by apply (sv_in _ _ _ _ _ Hs)|]. split.
  { intros dev b Hdb Hn. apply (sv_out _ _ _ _ _ Hs). intros j Hj Ej.
    apply dblock_inj in Ej as [-> ->]; [apply Hn; lia|done|left; unfold SWAPBASE; lia]. }
  intros k'.
  destruct (swapread_spec ptr' blkno _ (set_k k' (at_bl l (sw_k s) (sw_nread s) c s)) v w Hl Hf Hs
    ltac:(intros; apply length_load_bytes) Hb Hsz Hp') as (s2 & E2 & H2).
  exists s2. split; [exact E2|]. intros x. rewrite H2. change PGSIZE with 4096.
  destruct (decide (ptr' <= x < ptr' + 4096)) as [Hx|]; [|done].
  rewrite lookup_load_bytes by zlia. rewrite u8_small by apply Hm. f_equal. zlia.
Qed.
End layer.

(** ** The bitmap as a set of slots *)
Definition slot_used (bm : list Z) (i : Z) : bool := Z.testbit (bm !!! Z.to_nat (i `div` 8)) (i `mod` 8).

Lemma i8_testbit x k : 0 <= k < 8 -> Z.testbit (i8 x) k = Z.testbit x k.
Proof.
  intros Hk. assert (Hm : Z.testbit (i8 x `mod` 2 ^ 8) k = Z.testbit (x `mod` 2 ^ 8) k).
  { f_equal. unfold i8. change (2 ^ 8) with 256. rewrite Zminus_mod_idemp_l. f_equal. lia. }
  by rewrite !Z.mod_pow2_bits_low in Hm by lia.
Qed.

Lemma one_bit k n : 0 <= k -> 0 <= n -> Z.testbit (1 ≪ k) n = bool_decide (n = k).
Proof.
  intros Hk Hn. rewrite Z.shiftl_1_l, Z.pow2_bits_eqb by done.
  destruct (Z.eqb_spec k n) as [->|Hne]; [by rewrite bool_decide_true|]. by rewrite bool_decide_false.
Qed.

Lemma bit_nonzero x k : 0 <= k -> truth (x &&& 1 ≪ k) = Z.testbit x k.
Proof.
  intros Hk. unfold truth. destruct (Z.testbit x k) eqn:E.
  - apply negb_true_iff, Z.eqb_neq. intros H0. apply (f_equal (fun y => Z.testbit y k)) in H0.
    by rewrite Z.land_spec, one_bit, E, Z.bits_0, bool_decide_true in H0 by done.
  - apply negb_false_iff, Z.eqb_eq. apply Z.bits_inj'. intros n Hn. rewrite Z.land_spec, one_bit, Z.bits_0 by done.
    case_bool_decide; subst; [by rewrite E|apply andb_false_r].
Qed.

Section bitmap.
Context {B : Type} `{Disks B}.
#[local] Existing Instance dk_layer.
Implicit Types s : swst B.

Lemma index_parts i : 0 <= i < 32768 -> Z.quot i 8 = i `div` 8 /\ Z.rem i 8 = i `mod` 8 /\ 0 <= i `div` 8 < 4096 /\ 0 <= i `mod` 8 < 8.
Proof. intros Hi. rewrite Z.quot_div_nonneg, Z.rem_mod_nonneg by lia. zlia. Qed.

Lemma bitmap_get_eq i s : 0 <= i < 32768 -> bitmap_get i s = Done (sw_bitmap s !!! Z.to_nat (i `div` 8)) s.
Proof.
  intros Hi. destruct (index_parts i Hi) as (E1 & E2 & H1 & H2). unfold bitmap_get. rewrite E1. unfold BITMAP_SIZE.
  by replace ((0 <=? i `div` 8) && (i `div` 8 <? 4096)) with true by lia.
Qed.

Lemma bitmap_put_eq i v s : 0 <= i < 32768 ->
  bitmap_put i v s = Done tt (set_bitmap (<[Z.to_nat (i `div` 8) := i8 v]> (sw_bitmap s)) s).
Proof.
  intros Hi. destruct (index_parts i Hi) as (E1 & E2 & H1 & H2). unfold bitmap_put. rewrite E1. unfold BITMAP_SIZE.
  by replace ((0 <=? i `div` 8) && (i `div` 8 <? 4096)) with true by lia.
Qed.

Lemma check_bit_eq i s : 0 <= i < 32768 -> exists c, check_bit i s = Done c s /\ truth c = slot_used (sw_bitmap s) i.
Proof.
  intros Hi. destruct (index_parts i Hi) as (E1 & E2 & H1 & H2). unfold check_bit, mbind, M_bind.
  rewrite bitmap_get_eq by done. eexists. split; [reflexivity|]. unfold bit_of. rewrite E2. apply bit_nonzero; lia.
Qed.

(** Writing the byte of slot [i] with bit operations on it. *)
Lemma slot_used_put (f : bool -> bool -> bool) v i j bm :
  0 <= i < 32768 -> 0 <= j < 32768 -> length bm = 4096%nat ->
  (forall k, 0 <= k < 8 -> Z.testbit v k = f (bool_decide (k = i `mod` 8)) (Z.testbit (bm !!! Z.to_nat (i `div` 8)) k)) ->
  (forall b, f false b = b) ->
  slot_used (<[Z.to_nat (i `div` 8) := i8 v]> bm) j = f (bool_decide (j = i)) (slot_used bm j).
Proof.
  intros Hi Hj Hl Hv Hf. destruct (index_parts i Hi) as (_ & _ & H1 & H2). destruct (index_parts j Hj) as (_ & _ & H3 & H4).
  unfold slot_used. destruct (decide (j `div` 8 = i `div` 8)) as [E|E].
  - rewrite E, list_lookup_total_insert_eq by lia. rewrite i8_testbit, Hv by done. f_equal. apply bool_decide_ext. zlia.
  - rewrite list_lookup_total_insert_ne by lia. rewrite bool_decide_false by congruence. by rewrite Hf.
Qed.

(** The bitmap is a set of swap slots: [set_bit] adds the slot,
    [clear_bit] removes it, and [find_free_swap_index] returns the least free
    slot below [BITMAP_SIZE] (only an eighth of the slots the bitmap has bits
    for), or -1 when all of those are in use. *)
Theorem bitmap_is_slot_set s i :
  0 <= i < 32768 -> length (sw_bitmap s) = 4096%nat ->
  (exists bm, set_bit i s = Done tt (set_bitmap bm s) /\ length bm = 4096%nat
     /\ forall j, 0 <= j < 32768 -> slot_used bm j = bool_decide (j = i) || slot_used (sw_bitmap s) j)
  /\ (exists bm, clear_bit i s = Done tt (set_bitmap bm s) /\ length bm = 4096%nat
     /\ forall j, 0 <= j < 32768 -> slot_used bm j = negb (bool_decide (j = i)) && slot_used (sw_bitmap s) j)
  /\ (exists r, find_free_swap_index s = Done r s
     /\ ((0 <= r < BITMAP_SIZE /\ slot_used (sw_bitmap s) r = false
          /\ forall j, 0 <= j < r -> slot_used (sw_bitmap s) j = true)
         \/ (r = -1 /\ forall j, 0 <= j < BITMAP_SIZE -> slot_used (sw_bitmap s) j = true))).
Proof.
  intros Hi Hl. destruct (index_parts i Hi) as (E1 & E2 & H1 & H2). split; [|split].
  - eexists. split; [unfold set_bit, mbind, M_bind; rewrite bitmap_get_eq, bitmap_put_eq by done; reflexivity|].
    split; [by rewrite length_insert|]. intros j Hj. apply (slot_used_put orb); try done.
    intros k Hk. unfold bit_of. rewrite E2, Z.lor_spec, one_bit by lia. apply orb_comm.
  - eexists. split; [unfold clear_bit, mbind, M_bind; rewrite bitmap_get_eq, bitmap_put_eq by done; reflexivity|].
    split; [by rewrite length_insert|]. intros j Hj. apply (slot_used_put (fun a b => negb a && b)); try done.
    intros k Hk. unfold bit_of. rewrite E2, Z.land_spec, Z.lnot_spec, one_bit by lia. apply andb_comm.
  - assert (Hw : wp find_free_swap_index (fun r s' => s' = s
       /\ ((0 <= r < BITMAP_SIZE /\ slot_used (sw_bitmap s) r = false
          /\ forall j, 0 <= j < r -> slot_used (sw_bitmap s) j = true)
         \/ (r = -1 /\ forall j, 0 <= j < BITMAP_SIZE -> slot_used (sw_bitmap s) j = true))) s).
    { unfold find_free_swap_index. apply wp_bind.
      assert (Hx : forall x, x ∈ seqZ 0 BITMAP_SIZE -> 0 <= x < 32768) by (intros x Hx%elem_of_seqZ; unfold BITMAP_SIZE in *; lia).
      apply (wp_for_ret_find (fun s' => s' = s) (fun x => negb (slot_used (sw_bitmap s) x))); [done|..].
      - intros x s' Hin -> Hp. destruct (check_bit_eq x s (Hx x Hin)) as (c & E & Ec). apply wp_bind.
        eapply wp_Done; [exact E|]. apply wp_ret. by rewrite Ec, (proj1 (negb_false_iff _) Hp).
      - intros pre x post s' El Hpre Hp ->. assert (Hin : x ∈ seqZ 0 BITMAP_SIZE) by (rewrite El; set_solver).
        destruct (check_bit_eq x s (Hx x Hin)) as (c & E & Ec). apply wp_bind. eapply wp_Done; [exact E|]. apply wp_ret.
        apply negb_true_iff in Hp. rewrite Ec, Hp. exists x. split; [done|]. apply wp_ret. split; [done|]. left.
        apply elem_of_seqZ in Hin. cbn; split; [lia|]. split; [done|]. intros j Hj.
        rewrite Forall_forall in Hpre. apply negb_false_iff, Hpre. eapply seqZ_before; [exact El|lia].
      - intros Hall s' ->. apply wp_ret. split; [done|]. right. split; [done|]. intros j Hj.
        rewrite Forall_forall in Hall. apply negb_false_iff, Hall, elem_of_seqZ. lia. }
    apply wp_inv in Hw as (r & s' & E & -> & Hr). eauto.
Qed.
End bitmap.
