(* ===== verification/SwapTheorems.v ===== *)
(** * The LRU list and page replacement (theorems)

    What [append_lru] does to the ring of pages, and what happens when the
    allocator runs out of pages or a fault hits a page that is present. *)
From S2P Require Import Prelude Layout Memory Locks Kalloc Vm VmSpec Ide Blocks BlockMem SwapDisk LogSpec Fs Mmap Swap SwapSpace.

Section lru.
Context {B : Type} `{Disks B} (kend : Z).
#[local] Existing Instance dk_layer.
Implicit Types s : swst B.

(** The list [l] of page indexes, in the order of [next] from the head, is
    doubly linked into a ring. *)
Record ring (m : gmap Z page) (l : list Z) : Prop := Ring {
  ri_nodup : NoDup l;
  ri_range : forall x, x ∈ l -> 0 <= x < NPAGES;
  ri_next : forall k x y, l !! k = Some x -> l !! S k = Some y -> g_next (m !!! x) = y /\ g_prev (m !!! y) = x;
  ri_close : forall x y, head l = Some x -> last l = Some y -> g_next (m !!! y) = x /\ g_prev (m !!! x) = y }.

Definition head_of (l : list Z) : Z := default NULL (head l).

Lemma gget_eq i s : 0 <= i < NPAGES -> gget i s = Done (sw_pages s !!! i) s.
Proof.
  intros Hi. unfold gget. rewrite (proj2 (Z.eqb_neq i NULL)) by (unfold NULL; lia).
  by replace ((0 <=? i) && (i <? NPAGES)) with true by lia.
Qed.
Lemma gset_eq i f s : 0 <= i < NPAGES ->
  gset' i f s = Done tt (set_pages (<[i := f (sw_pages s !!! i)]> (sw_pages s)) s).
Proof.
  intros Hi. unfold gset'. rewrite (proj2 (Z.eqb_neq i NULL)) by (unfold NULL; lia).
  by replace ((0 <=? i) && (i <? NPAGES)) with true by lia.
Qed.

Lemma wp_gget i (Q : page -> swst B -> Prop) s : 0 <= i < NPAGES -> Q (sw_pages s !!! i) s -> wp (gget i) Q s.
Proof. intros Hi HQ. eapply wp_Done; [by apply gget_eq|done]. Qed.
Lemma wp_gset i f (Q : unit -> swst B -> Prop) s :
  0 <= i < NPAGES -> Q tt (set_pages (<[i := f (sw_pages s !!! i)]> (sw_pages s)) s) -> wp (gset' i f) Q s.
Proof. intros Hi HQ. eapply wp_Done; [by apply gset_eq|done]. Qed.

Lemma page_set m (i j : Z) (p : page) : (<[i := p]> m : gmap Z page) !!! j = if decide (i = j) then p else m !!! j.
Proof. split_decide as [->|Hn]; [apply lookup_total_insert_eq|by apply lookup_total_insert_ne]. Qed.

(** The fields of the descriptors after [append_lru] on a ring. *)
Lemma ring_append m m' l p a b :
  ring m l -> p ∉ l -> 0 <= p < NPAGES -> head l = Some a -> last l = Some b ->
  (forall x, g_next (m' !!! x) = if decide (x = p) then a else if decide (x = b) then p else g_next (m !!! x)) ->
  (forall x, g_prev (m' !!! x) = if decide (x = p) then b else if decide (x = a) then p else g_prev (m !!! x)) ->
  ring m' (l ++ [p]).
Proof.
  intros [R1 R2 R3 R4] Hp Hr Ha Hb Hn Hv.
  assert (Hal : a ∈ l) by (destruct l; [done|]; injection Ha as ->; by left).
  rewrite last_lookup in Hb. assert (Hbl : b ∈ l) by by eapply list_elem_of_lookup_2.
  assert (Hlen : (length l <> 0)%nat) by (by destruct l).
  split.
  - apply NoDup_app. split; [done|]. split; [|apply NoDup_singleton]. intros x Hx ->%list_elem_of_singleton. done.
  - intros x [Hx| ->%list_elem_of_singleton]%elem_of_app; [by apply R2|done].
  - intros k x y Hx Hy. destruct (decide (S k < length l)%nat) as [Hk|Hk].
    + rewrite lookup_app_l in Hx, Hy by lia.
      assert (Hxl : x ∈ l) by by eapply list_elem_of_lookup_2. assert (Hyl : y ∈ l) by by eapply list_elem_of_lookup_2.
      destruct (R3 k x y Hx Hy) as [E1 E2]. rewrite Hn, Hv.
      rewrite !(decide_False (P := x = p)), !(decide_False (P := y = p)) by congruence.
      rewrite decide_False, decide_False; [done|..].
      * intros ->. rewrite head_lookup in Ha. pose proof (NoDup_lookup _ _ _ _ R1 Hy Ha). lia.
      * intros ->. pose proof (NoDup_lookup _ _ _ _ R1 Hx Hb). lia.
    + assert (k = Nat.pred (length l)) as ->.
      { apply lookup_lt_Some in Hy. rewrite length_app in Hy. cbn in Hy. lia. }
      rewrite lookup_app_l in Hx by lia. rewrite Hb in Hx. injection Hx as <-.
      replace (S (Nat.pred (length l))) with (length l) in Hy by lia. rewrite list_lookup_middle in Hy by done. injection Hy as <-.
      rewrite Hn, Hv. rewrite (decide_False (P := b = p)) by congruence. by rewrite !decide_True.
  - intros x y Hx Hy. rewrite last_snoc in Hy. injection Hy as <-.
    assert (x = a) as -> by (destruct l; [done|]; cbn in *; congruence).
    rewrite Hn, Hv. rewrite decide_True by done. rewrite (decide_False (P := a = p)) by congruence. by rewrite decide_True.
Qed.

(** The descriptors after the general case of [append_lru], store by store. *)
Definition append_pages (pgdir va p h : Z) (m : gmap Z page) : gmap Z page :=
  let m1 := <[p := with_owner pgdir va (m !!! p)]> m in
  let m2 := <[p := with_prev (g_prev (m1 !!! h)) (m1 !!! p)]> m1 in
  let m3 := <[p := with_next h (m2 !!! p)]> m2 in
  let m4 := <[g_prev (m3 !!! h) := with_next p (m3 !!! g_prev (m3 !!! h))]> m3 in
  <[h := with_prev p (m4 !!! h)]> m4.

Definition appended (m : gmap Z page) (h : Z) s : swst B := upd_nlru (fun n => n + 1) (set_head h (set_pages m s)).

Lemma append_pages_fields pgdir va p h m b x :
  p <> h -> g_prev (m !!! h) = b -> b <> p ->
  g_next (append_pages pgdir va p h m !!! x) = (if decide (x = p) then h else if decide (x = b) then p else g_next (m !!! x))
  /\ g_prev (append_pages pgdir va p h m !!! x) = (if decide (x = p) then b else if decide (x = h) then p else g_prev (m !!! x))
  /\ g_pgdir (append_pages pgdir va p h m !!! p) = pgdir /\ g_vaddr (append_pages pgdir va p h m !!! p) = va.
Proof.
  intros Hne Hb Hbp. unfold append_pages.
  set (m1 := <[p := with_owner pgdir va (m !!! p)]> m).
  assert (H1 : forall y, m1 !!! y = if decide (p = y) then with_owner pgdir va (m !!! p) else m !!! y) by (intros; apply page_set).
  assert (E1 : m1 !!! h = m !!! h) by (rewrite H1; by rewrite decide_False).
  set (m2 := <[p := with_prev (g_prev (m1 !!! h)) (m1 !!! p)]> m1).
  set (m3 := <[p := with_next h (m2 !!! p)]> m2).
  assert (H3 : forall y, m3 !!! y = if decide (p = y) then Page h b pgdir va else m !!! y).
  { intros y. unfold m3. rewrite page_set. split_decide as [<-|Hy].
    - unfold m2. rewrite page_set, decide_True by done. rewrite E1, Hb, H1, decide_True by done. done.
    - unfold m2. rewrite page_set, decide_False by done. rewrite H1. by rewrite decide_False. }
  assert (E3 : g_prev (m3 !!! h) = b) by (rewrite H3; by rewrite decide_False).
  rewrite !E3. rewrite !page_set. clearbody m3. clear m1 m2 H1 E1.
  rewrite !H3. repeat (split_decide; subst; try congruence); cbn; split_and!; congruence || done.
Qed.

Lemma wp_append_lru pgdir va pa s (Q : unit -> swst B -> Prop) :
  let p := pa `div` PGSIZE in
  Llru ∉ k_held (sw_k s) -> 0 <= p < NPAGES -> sw_nlru s <> 1 -> 0 <= sw_head s < NPAGES ->
  p <> sw_head s -> 0 <= g_prev (sw_pages s !!! sw_head s) < NPAGES ->
  Q tt (appended (append_pages pgdir va p (sw_head s) (sw_pages s)) (sw_head s) s) ->
  wp (append_lru pgdir va pa) Q s.
Proof.
  intros p HL Hp Hn Hh Hne Hq HQ. unfold append_lru. fold p. apply wp_bind, wp_acquire; [exact HL|].
  apply wp_bind, wp_gset; [done|]. cbn [sw_pages with_locks swst_locks set_k set_pages].
  set (m1 := <[p := _]> (sw_pages s)).
  assert (E1 : m1 !!! sw_head s = sw_pages s !!! sw_head s) by (unfold m1; rewrite page_set; by rewrite decide_False).
  apply wp_bind, wp_gets. cbn [sw_nlru with_locks swst_locks set_k set_pages].
  rewrite (proj2 (Z.eqb_neq _ _) Hn). apply wp_bind, wp_bind, wp_gets. cbn [sw_head with_locks swst_locks set_k set_pages].
  apply wp_bind, wp_gget; [done|]. cbn [sw_pages with_locks swst_locks set_k set_pages].
  apply wp_bind, wp_gset; [done|]. apply wp_bind, wp_gset; [done|]. cbn [sw_pages with_locks swst_locks set_k set_pages].
  set (m3 := <[p := with_next _ _]> _).
  assert (E3 : m3 !!! sw_head s = sw_pages s !!! sw_head s).
  { unfold m3. rewrite !page_set. rewrite !(decide_False (P := p = sw_head s)) by done. done. }
  apply wp_bind, wp_gget; [done|]. cbn [sw_pages with_locks swst_locks set_k set_pages].
  apply wp_bind, wp_gset; [by rewrite E3|]. cbn [sw_pages with_locks swst_locks set_k set_pages].
  apply wp_gset; [done|]. cbn [sw_pages with_locks swst_locks set_k set_pages].
  apply wp_bind, wp_modify. eapply (wp_release Llru (k_held (sw_k s))); [done|exact HL|].
  destruct s as [[] ? ? ? ? ? ? ? ? ?]. exact HQ.
Qed.

(** [append_lru] links the page in before the head, so that it is the
    last the clock reaches, when the list is not empty and does not hold exactly
    one page; with one page on the list it forgets that page and starts a new
    ring; on the empty list the kernel starts with it reads through the null
    head. *)
Theorem append_lru_outcomes pgdir va pa l s :
  Llru ∉ k_held (sw_k s) -> 0 <= pa < PHYSTOP -> -2147483648 <= sw_nlru s < 2147483647 ->
  let p := pa `div` PGSIZE in
  (p ∉ l -> l <> [] -> sw_nlru s <> 1 -> head_of l = sw_head s -> ring (sw_pages s) l ->
     exists s', append_lru pgdir va pa s = Done tt s' /\ ring (sw_pages s') (l ++ [p])
       /\ sw_head s' = sw_head s /\ sw_nlru s' = sw_nlru s + 1
       /\ g_pgdir (sw_pages s' !!! p) = pgdir /\ g_vaddr (sw_pages s' !!! p) = va)
  /\ (sw_nlru s = 1 ->
     exists s', append_lru pgdir va pa s = Done tt s' /\ ring (sw_pages s') [p] /\ sw_head s' = p /\ sw_nlru s' = 2)
  /\ (sw_nlru s <> 1 -> sw_head s = NULL -> append_lru pgdir va pa s = Undef "null page").
Proof.
  intros HL Hpa Hn p.
  assert (Hp : 0 <= p < NPAGES).
  { unfold p. change NPAGES with 57344. unfold PHYSTOP, PGSIZE in *. zlia. }
  split; [|split].
  - intros Hpl Hl H1 Hh Hr. destruct (head l) as [a|] eqn:Ha; [|by destruct l].
    destruct (last l) as [b|] eqn:Hb; [|by apply last_None in Hb]. unfold head_of in Hh. rewrite Ha in Hh. cbn in Hh.
    assert (Hal : a ∈ l) by (destruct l; [done|]; injection Ha as ->; by left).
    assert (Hbl : b ∈ l) by (rewrite last_lookup in Hb; by eapply list_elem_of_lookup_2).
    pose proof (ri_range _ _ Hr a Hal) as Har. pose proof (ri_range _ _ Hr b Hbl) as Hbr.
    destruct (ri_close _ _ Hr a b Ha Hb) as [Hcn Hcp].
    assert (Hpa' : p <> a) by congruence. assert (Hpb : b <> p) by congruence.
    assert (Hw : wp (append_lru pgdir va pa) (fun _ s' => s' = appended (append_pages pgdir va p a (sw_pages s)) a s) s).
    { rewrite Hh in *. by apply wp_append_lru; rewrite ?Hcp. }
    apply wp_inv in Hw as ([] & s' & E & ->). eexists. split; [exact E|].
    pose proof (fun x => append_pages_fields pgdir va p a (sw_pages s) b x Hpa' Hcp Hpb) as Hfld.
    split; [|split_and!].
    + apply (ring_append (sw_pages s) _ l p a b); try done; intros x; apply (Hfld x).
    + exact Hh.
    + cbn. apply i32_small. lia.
    + apply (Hfld p).
    + apply (Hfld p).
  - intros H1.
    assert (Hw : wp (append_lru pgdir va pa) (fun _ s' => ring (sw_pages s') [p] /\ sw_head s' = p /\ sw_nlru s' = 2) s).
    { unfold append_lru. fold p. apply wp_bind, wp_acquire; [exact HL|].
      apply wp_bind, wp_gset; [done|]. apply wp_bind, wp_gets. cbn [sw_nlru with_locks swst_locks set_k set_pages].
      rewrite H1. cbn [Z.eqb Pos.eqb]. apply wp_bind, wp_bind, wp_modify. apply wp_bind, wp_gset; [done|]. apply wp_gset; [done|].
      apply wp_bind, wp_modify. eapply (wp_release Llru (k_held (sw_k s))); [done|exact HL|]. cbn. rewrite H1.
      split; [|done]. split; [apply NoDup_singleton|by intros x ->%list_elem_of_singleton|by intros [|k] x y|].
      intros x y [= <-] [= <-]. rewrite !page_set, !decide_True by done. done. }
    apply wp_inv in Hw as ([] & s' & E & Hs). eauto.
  - intros H1 Hh. unfold append_lru. fold p. unfold mbind, M_bind.
    rewrite acquire_free by exact HL. rewrite gset_eq by done. cbn. rewrite (proj2 (Z.eqb_neq _ _) H1). cbn. by rewrite Hh.
Qed.
End lru.

(** ** Running out of pages *)
Section evict.
Context {B : Type} `{Disks B} (kend : Z).
#[local] Existing Instance dk_layer.
Implicit Types s : swst B.

Lemma bind_Panic {S A C} (m : M S A) (k : A -> M S C) (s : S) msg : m s = Panic msg -> (m ≫= k) s = Panic msg.
Proof. unfold mbind, M_bind. by intros ->. Qed.

Lemma kk_load a s : kk (load32 a) s = Done (rd32 (k_mem (sw_k s)) a) s.
Proof. unfold kk, zoom, load32, gets. by destruct s as [[] ? ? ? ? ? ? ? ? ?]. Qed.
Lemma kk_store a v s : kk (store32 a v) s = Done tt (set_k (upd_mem (wr32 a v) (sw_k s)) s).
Proof. done. Qed.

(** An entry reduced to its flags names frame 0. *)
Lemma flags_addr x : 0 <= x < 4096 -> PTE_ADDR (u32 (u32 x &&& Z.lnot PTE_P)) = 0.
Proof.
  intros Hx. rewrite (u32_small x) by lia. rewrite <- Z.ldiff_land.
  change PTE_P with (Z.ones 1). rewrite Z.ldiff_ones_r, Z.shiftl_mul_pow2, Z.shiftr_div_pow2 by lia.
  change (2 ^ 1) with 2. rewrite PTE_ADDR_eq, u32_idemp, u32_small by zlia. rewrite Z.mod_small by zlia. lia.
Qed.

Lemma no_swap_flags e : 0 <= u32 (0 ≪ 12) ||| PTE_FLAGS e < 4096.
Proof. rewrite Z.shiftl_0_l. change (u32 0) with 0. rewrite Z.lor_0_l, PTE_FLAGS_eq. apply Z.mod_pos_bound. lia. Qed.

(** The page can be written to the first swap slot from the state of the
    allocator, the disk and the address space of [s]. *)
Definition writable va s : Prop := forall s0,
  sw_k s0 = sw_k s -> sw_bl s0 = sw_bl s -> sw_cr3 s0 = sw_cr3 s ->
  exists s1, swapwrite va 0 s0 = Done tt s1 /\ sw_k s1 = sw_k s0 /\ sw_bitmap s1 = sw_bitmap s0.

Lemma evict_panics pte s :
  KERNBASE < kend -> length (sw_bitmap s) = 4096%nat -> slot_used (sw_bitmap s) 0 = false ->
  Lkmem ∈ k_held (sw_k s) -> 0 <= sw_head s < NPAGES ->
  0 <= g_next (sw_pages s !!! sw_head s) < NPAGES -> 0 <= g_prev (sw_pages s !!! sw_head s) < NPAGES ->
  writable (g_vaddr (sw_pages s !!! sw_head s)) s ->
  evict kend pte s = Panic "kfree".
Proof.
  intros Hk Hl Hb HL Hh Hn Hp Hw. unfold evict. rewrite (bind_Done _ _ s (sw_head s) s) by done.
  set (h := sw_head s) in *. set (t := sw_pages s !!! h) in *.
  rewrite (bind_Done _ _ _ _ _ (gget_eq h s Hh)).
  rewrite (bind_Done _ _ s tt (set_head (g_next t) s)) by done. set (s1 := set_head (g_next t) s).
  rewrite (bind_Done _ _ s1 (g_next t) s1) by done.
  rewrite (bind_Done _ _ _ _ _ (gset_eq (g_next t) (with_prev (g_prev t)) s1 Hn)). set (s2 := set_pages _ s1).
  rewrite (bind_Done _ _ _ _ _ (gget_eq h s2 Hh)).
  assert (E2 : g_prev (sw_pages s2 !!! h) = g_prev t /\ g_vaddr (sw_pages s2 !!! h) = g_vaddr t).
  { unfold s2. cbn. rewrite page_set. split_decide as [->|_]; done. }
  destruct E2 as [E2 Ev2]. rewrite E2.
  rewrite (bind_Done _ _ _ _ _ (gset_eq (g_prev t) (with_next (g_next t)) s2 Hp)). set (s3 := set_pages _ s2).
  assert (Ev3 : g_vaddr (sw_pages s3 !!! h) = g_vaddr t).
  { unfold s3. cbn [sw_pages set_pages]. rewrite page_set. split_decide as [->|_]; done. }
  assert (exists s4, when (g_next t =? h) (modify (set_head NULL)) s3 = Done tt s4
    /\ sw_pages s4 = sw_pages s3 /\ sw_k s4 = sw_k s /\ sw_bl s4 = sw_bl s /\ sw_cr3 s4 = sw_cr3 s /\ sw_bitmap s4 = sw_bitmap s)
    as (s4 & E4 & Ep4 & Ek4 & Eb4 & Ec4 & Em4) by (unfold when; destruct (g_next t =? h); eexists; split_and!; done).
  rewrite (bind_Done _ _ _ _ _ E4). clear E4.
  destruct (bitmap_is_slot_set s4 0 ltac:(lia) ltac:(by rewrite Em4)) as (_ & _ & (r & Ef & Hr)).
  assert (r = 0) as ->.
  { rewrite Em4 in Hr. destruct Hr as [(Hr & _ & Hlt)|[_ Hall]].
    - destruct (decide (r = 0)) as [|Hne]; [done|]. specialize (Hlt 0 ltac:(lia)). congruence.
    - specialize (Hall 0 ltac:(unfold BITMAP_SIZE; lia)). congruence. }
  rewrite (bind_Done _ _ _ _ _ Ef). change (0 <? 0) with false. cbv iota.
  rewrite (bind_Done _ _ _ _ _ (gget_eq h s4 Hh)). rewrite Ep4, Ev3.
  destruct (Hw s4 Ek4 Eb4 Ec4) as (s5 & E5 & Ek5 & Em5). rewrite (bind_Done _ _ _ _ _ E5). clear E5 Hw Ef.
  destruct (bitmap_is_slot_set s5 0 ltac:(lia) ltac:(by rewrite Em5, Em4)) as ((bm & Es & _) & _).
  rewrite (bind_Done _ _ _ _ _ Es). set (s6 := set_bitmap bm s5).
  rewrite (bind_Done _ _ _ _ _ (kk_load pte s6)). set (e := rd32 _ _).
  rewrite (bind_Done _ _ _ _ _ (kk_store pte _ s6)). set (s7 := set_k _ s6).
  rewrite (bind_Done _ _ _ _ _ (kk_store pte _ s7)). set (s8 := set_k _ s7).
  rewrite (bind_Done _ _ _ _ _ (kk_load pte s8)).
  assert (E8 : rd32 (k_mem (sw_k s8)) pte = u32 (u32 (0 ≪ 12) ||| PTE_FLAGS e)) by (unfold s8; cbn; by rewrite rd32_wr32_eq).
  rewrite E8, (bind_Done _ _ _ _ _ (kk_store pte _ s8)). set (s9 := set_k _ s8).
  rewrite (bind_Done _ _ s9 tt (set_cr3 (V2P (sw_pgdir s9)) s9)) by done. set (s10 := set_cr3 _ s9).
  assert (HL10 : Lkmem ∈ locks_of s10) by (cbn; by rewrite Ek5, Ek4).
  assert (Er : release Lkmem s10 = Done tt (with_locks (filter (fun x : lock => x <> Lkmem) (locks_of s10)) s10))
    by (unfold release; by rewrite decide_True).
  rewrite (bind_Done _ _ _ _ _ Er). set (s11 := with_locks _ s10).
  rewrite (bind_Done _ _ _ _ _ (kk_load pte s11)).
  assert (E11 : rd32 (k_mem (sw_k s11)) pte = u32 (u32 (u32 (0 ≪ 12) ||| PTE_FLAGS e) &&& Z.lnot PTE_P)) by (cbn; by rewrite rd32_wr32_eq).
  rewrite E11, flags_addr by apply no_swap_flags. apply bind_Panic. unfold kfree.
  assert (kfree_bad kend (P2V 0) = true) as ->; [|done].
  unfold kfree_bad. rewrite !orb_true_iff. left. right. unfold P2V. rewrite u32_small by (unfold KERNBASE; lia). lia.
Qed.

(** Page replacement never succeeds on a fresh system: when the free list
    is empty and the clock's first page was not referenced since, [kalloc] takes
    the page off the list and writes it to slot 0, then panics, because it frees
    the page at the swap slot's number instead of the frame the entry named. *)
Theorem swap_out_panics pte s :
  let t := sw_pages s !!! sw_head s in
  KERNBASE < kend -> length (sw_bitmap s) = 4096%nat -> slot_used (sw_bitmap s) 0 = false ->
  k_use_lock (sw_k s) = true -> k_held (sw_k s) = [] -> k_freelist (sw_k s) = 0 -> sw_nlru s <> 0 ->
  0 <= sw_head s < NPAGES -> 0 <= g_next t < NPAGES -> 0 <= g_prev t < NPAGES ->
  (forall s0, k_mem (sw_k s0) = k_mem (sw_k s) -> findpte (g_pgdir t) (PGROUNDDOWN (g_vaddr t)) s0 = Done pte s0) ->
  pte <> 0 -> rd32 (k_mem (sw_k s)) pte &&& PTE_A = 0 ->
  (forall L, writable (g_vaddr t) (with_locks L s)) ->
  kalloc kend s = Panic "kfree".
Proof.
  intros t Hk Hl Hb Hu HL Hfl Hn Hh Hnx Hpv Hf Hp0 Ha Hw. unfold kalloc. cbn [loop]. apply bind_Panic. unfold kalloc_try.
  rewrite (bind_Done _ _ s true s) by (unfold gets; by rewrite Hu). cbn [when].
  assert (Hf1 : Lkmem ∉ locks_of s) by (cbn; rewrite HL; apply not_elem_of_nil).
  rewrite (bind_Done _ _ _ _ _ (acquire_free Lkmem s Hf1)). set (s1 := with_locks _ s).
  rewrite (bind_Done _ _ s1 0 s1) by (unfold gets; cbn; by rewrite Hfl). rewrite Z.eqb_refl.
  apply bind_Panic, bind_Panic. unfold reclaim.
  assert (Hf2 : Llru ∉ locks_of s1) by (cbn; rewrite HL; set_solver).
  rewrite (bind_Done _ _ _ _ _ (acquire_free Llru s1 Hf2)). set (s2 := with_locks _ s1).
  rewrite (bind_Done _ _ s2 (sw_nlru s) s2) by done. rewrite (proj2 (Z.eqb_neq _ _) Hn).
  replace (Z.to_nat NPAGES + 1)%nat with (S (Z.to_nat NPAGES)) by lia. cbn [loop]. apply bind_Panic. unfold reclaim_body.
  rewrite (bind_Done _ _ s2 (sw_head s) s2) by done. rewrite (bind_Done _ _ _ _ _ (gget_eq (sw_head s) s2 Hh)).
  change (sw_pages s2 !!! sw_head s) with t. rewrite (bind_Done _ _ _ _ _ (Hf s2 eq_refl)).
  rewrite (proj2 (Z.eqb_neq _ _) Hp0). rewrite (bind_Done _ _ _ _ _ (kk_load pte s2)).
  change (k_mem (sw_k s2)) with (k_mem (sw_k s)). rewrite Ha. cbn [truth Z.eqb negb].
  apply bind_Panic, evict_panics; try done; [cbn; rewrite HL; set_solver|]. apply (Hw (Llru :: Lkmem :: k_held (sw_k s))).
Qed.

(** A page off the free list, as in the other kernel. *)
Lemma kalloc_takes s :
  k_use_lock (sw_k s) = true -> Lkmem ∉ k_held (sw_k s) -> k_freelist (sw_k s) <> 0 ->
  kalloc kend s = Done (k_freelist (sw_k s)) (set_k (upd_freelist (rd32 (k_mem (sw_k s)) (k_freelist (sw_k s))) (sw_k s)) s).
Proof.
  intros Hu HL Hn. unfold kalloc. cbn [loop].
  assert (E : kalloc_try kend tt s = Done (inr (k_freelist (sw_k s)))
    (set_k (upd_freelist (rd32 (k_mem (sw_k s)) (k_freelist (sw_k s))) (sw_k s)) s)); [|by rewrite (bind_Done _ _ _ _ _ E)].
  unfold kalloc_try. rewrite (bind_Done _ _ s true s) by (unfold gets; by rewrite Hu). cbn [when].
  assert (Hf : Lkmem ∉ locks_of s) by exact HL.
  rewrite (bind_Done _ _ _ _ _ (acquire_free Lkmem s Hf)). set (s1 := with_locks _ s).
  rewrite (bind_Done _ _ s1 (k_freelist (sw_k s)) s1) by done. rewrite (proj2 (Z.eqb_neq _ _) Hn).
  rewrite (bind_Done _ _ s1 false s1) by done. cbv iota. unfold truth. rewrite (proj2 (Z.eqb_neq _ _) Hn). cbn [negb when].
  set (s2 := set_k (upd_freelist (rd32 (k_mem (sw_k s)) (k_freelist (sw_k s))) (sw_k s1)) s1).
  rewrite (bind_Done _ _ s1 tt s2).
  2: { rewrite (bind_Done _ _ _ _ _ (kk_load _ s1)). done. }
  rewrite (bind_Done _ _ s2 true s2) by (unfold gets; cbn; by rewrite Hu). cbn [when].
  rewrite (bind_Done _ _ s2 tt (with_locks (k_held (sw_k s)) s2)); [done|]. by apply release_top.
Qed.

(** A fault on a page that is present (a write to a read-only page or
    any access to the guard page below the stack) is taken for a swapped-out
    page: the handler allocates a page and asks for the swap slot of the
    frame's number, which stops the kernel for every frame from 12437 on; the
    allocator hands out the highest frames (up to 57343) first. *)
Theorem protection_fault_panics pgdir vaddr pte s :
  k_use_lock (sw_k s) = true -> Lkmem ∉ k_held (sw_k s) -> k_freelist (sw_k s) <> 0 ->
  findpte pgdir (PGROUNDDOWN vaddr) s = Done pte s -> pte <> 0 ->
  12437 * 4096 <= PTE_ADDR (rd32 (k_mem (sw_k s)) pte) ->
  page_fault_hadler kend pgdir vaddr s = Panic "swapread: blkno exceeded range".
Proof.
  intros Hu HL Hn Hf Hp Hfr. unfold page_fault_hadler. rewrite (bind_Done _ _ _ _ _ Hf), (proj2 (Z.eqb_neq _ _) Hp).
  rewrite (bind_Done _ _ _ _ _ (kk_load pte s)).
  set (e := rd32 (k_mem (sw_k s)) pte) in *. pose proof (rd32_range (k_mem (sw_k s)) pte) as Hr. fold e in Hr.
  rewrite PTE_ADDR_eq, u32_small in Hfr by done.
  assert (Hsh : 12437 <= e ≫ 12) by (rewrite Z.shiftr_div_pow2 by lia; change (2 ^ 12) with 4096; zlia).
  assert ((e =? 0) = false) as -> by zlia.
  rewrite (bind_Done _ _ _ _ _ (kalloc_takes s Hu HL Hn)), (proj2 (Z.eqb_neq _ _) Hn).
  set (s1 := set_k _ s). cbn zeta. rewrite (bind_Done _ _ _ _ _ (kk_load pte s1)).
  change (rd32 (k_mem (sw_k s1)) pte) with e. apply bind_Panic. unfold swapread.
  assert (swap_bad (e ≫ 12) = true) as ->; [|done].
  unfold swap_bad. change (SWAPMAX `quot` BLKS_PER_PG) with 12437. rewrite Z.geb_leb. lia.
Qed.
End evict.

(** [copyout] gives up at a page that has been swapped out: it looks at the page table only, and
    nothing faults; [exec] then fails when the stack it builds is evicted meanwhile. *)
Lemma copyout_swapped_out {B} `{Disks B} pgdir va p len pte (s : swst B) : 0 < len ->
  pte_addr (k_mem (sw_k s)) pgdir (PGROUNDDOWN va) = Some pte -> pte <> 0 -> rd32 (k_mem (sw_k s)) pte &&& PTE_P = 0 ->
  copyout pgdir va p len s = Done (-1) s.
Proof.
  intros Hlen Hp Hne He. assert (Hc : Vm.copyout pgdir va p len (sw_k s) = Done (-1) (sw_k s)); [|unfold copyout, kk, zoom; rewrite Hc; by destruct s].
  assert (Hu : Vm.uva2ka pgdir (PGROUNDDOWN va) (sw_k s) = Done 0 (sw_k s)).
  { unfold Vm.uva2ka. rewrite (bind_Done _ _ _ _ _ (walk_false _ _ _)), Hp. change (default 0 (Some pte)) with pte. rewrite (proj2 (Z.eqb_neq pte 0) Hne).
    unfold load32. rewrite (bind_Done (gets _) _ (sw_k s) _ (sw_k s) eq_refl), He. done. }
  assert (Hb : copyout_body pgdir (va, p, len) (sw_k s) = Done (inr (-1)) (sw_k s)).
  { unfold copyout_body. rewrite (Z.gtb_ltb len 0), (proj2 (Z.ltb_lt 0 len) Hlen). cbn [negb]. cbv zeta. by rewrite (bind_Done _ _ _ _ _ Hu). }
  unfold Vm.copyout. cbn [loop]. by rewrite (bind_Done _ _ _ _ _ Hb).
Qed.

(** ** An instance: a page at [va], mapped by the page table at [ex_pt] of the
    directory [ex_pgdir], alone on the LRU list, the swap disk empty *)
Definition ex_pgdir : Z := 2147487744.
Definition ex_pt : Z := 2147491840.
Definition ex_va : Z := 2147504128.
Definition ex_mem (e : Z) : mem :=
  wr32 (ex_pt + 4 * PTX ex_va) e (wr32 (ex_pgdir + 4 * PDX ex_va) (V2P ex_pt ||| PTE_P ||| PTE_W) ∅).
Definition ex_disk : bmem := Bmem ∅ ∅ ∅ ∅ 2000.
Definition ex_sw (e fl : Z) (pages : gmap Z page) (h n : Z) : swst bmem :=
  Swst (Kst (ex_mem e) true fl 0 []) ex_disk pages h n (replicate 4096 0) (V2P ex_pgdir) ex_pgdir 0 0.

Lemma ex_view : at_view ex_disk (mem_view ex_disk).
Proof. split; [|done]. intros b Hb. cbn in Hb. set_solver. Qed.
Lemma ex_free : free_view (mem_view ex_disk).
Proof. split; [done|]. cbn. rewrite size_empty. unfold NBUF, MAXOPBLOCKS. lia. Qed.

Lemma ex_bytes e : bytes_ok (ex_mem e).
Proof.
  unfold ex_mem. do 2 apply wr32_bytes_ok. intros a. unfold rd8. rewrite lookup_empty. cbn. lia.
Qed.

(** The same over the buffer cache and two drives, after boot: the page at
    [ex_va] goes out to the first swap slot and comes back at [ex_pt]; a sector
    of the file-system disk with the same number as one of the slot is kept. *)
Definition ex_sectors : sectors := {[ (1, 500) := replicate 512 7 ]}.

Lemma swap_roundtrip_witness : exists (s s1 : swst dst) (w : view),
  swapwrite ex_va 0 s = Done tt s1 /\ at_view (sw_bl s1) w
  /\ v_disk w (dblock 0 500) = load_bytes ex_va 512 (k_mem (sw_k s))
  /\ v_disk w (dblock 1 500) = replicate 512 7
  /\ exists s2, swapread ex_pt 0 s1 = Done tt s2
       /\ rd8 (k_mem (sw_k s2)) (ex_pt + 20) = rd8 (ex_mem 8199) (ex_va + 20).
Proof.
  destruct (drives_boot ex_sectors) as (c & _ & Hok & _ & Hd & Hh & Hp & Hsz).
  set (l := Dst c ex_sectors true) in *.
  destruct (swap_roundtrip (B := dst) ex_va ex_pt 0
    (Swst (Kst (ex_mem 8199) true 0 0 []) l ∅ NULL 0 (replicate 4096 0) (V2P ex_pgdir) ex_pgdir 0 0) (bl_view l))
    as (s1 & w & E & _ & Hw & Hin & Hout & Hr).
  - by split.
  - split; [exact Hh|]. rewrite Hp, size_empty. unfold NBUF, MAXOPBLOCKS. lia.
  - lia.
  - rewrite Hsz. unfold dblock, SWAPBASE, DSIZE, SWAP_FSSIZE. lia.
  - unfold ex_va, KERNBASE. lia.
  - unfold ex_pt, KERNBASE. lia.
  - apply ex_bytes.
  - eexists _, s1, w. split; [exact E|]. split; [exact Hw|]. split; [apply (Hin 0); lia|]. split.
    + rewrite (proj2 (Hout 1 500 ltac:(by right) ltac:(lia))).
      rewrite (Hd 1 500); [reflexivity|by right|rewrite Hsz; unfold dblock, DSIZE, SWAP_FSSIZE; lia].
    + destruct (Hr (sw_k s1)) as (s2 & E2 & Hm). exists s2. split; [by destruct s1|].
      rewrite Hm. rewrite decide_True by (unfold PGSIZE, ex_pt; lia). f_equal.
Defined.

Lemma append_lru_outcomes_witness :
  append_lru 0 0 36864 (ex_sw 0 0 ∅ NULL 0) = Undef "null page".
Proof.
  apply (append_lru_outcomes 0 0 36864 [] (ex_sw 0 0 ∅ NULL 0));
    [apply not_elem_of_nil|unfold PHYSTOP; lia|cbn; lia|cbn; lia|reflexivity].
Defined.

Lemma ex_findpte (s0 : swst bmem) : k_mem (sw_k s0) = ex_mem 8199 -> findpte ex_pgdir (PGROUNDDOWN ex_va) s0 = Done (ex_pt + 4 * PTX ex_va) s0.
Proof.
  destruct s0 as [[m u fl fm h] bl pg hd nl bm c pgd r w]. cbn [k_mem sw_k]. intros ->.
  unfold findpte, walkpgdir, kk, zoom, mbind, M_bind, load32, gets. cbn [k_mem sw_k].
  replace (rd32 (ex_mem 8199) (ex_pgdir + 4 * PDX (PGROUNDDOWN ex_va))) with 8195 by (vm_compute; reflexivity).
  change (truth (8195 &&& PTE_P)) with true. cbv iota beta.
  replace (P2V (PTE_ADDR 8195) + 4 * PTX (PGROUNDDOWN ex_va)) with (ex_pt + 4 * PTX ex_va) by (vm_compute; reflexivity).
  reflexivity.
Qed.

Lemma ex_writable L : writable ex_va (with_locks L (ex_sw 8199 0 {[ 3 := Page 3 3 ex_pgdir ex_va ]} 3 2)).
Proof.
  intros s0 Ek Eb _.
  destruct (swapwrite_spec (B := bmem) ex_va 0 s0 (mem_view ex_disk)) as (l & w & c & E & _).
  - rewrite Eb. exact ex_view.
  - exact ex_free.
  - lia.
  - unfold SWAPBASE, dblock. cbn. lia.
  - unfold ex_va, KERNBASE. lia.
  - eexists. split; [exact E|]. done.
Qed.

Lemma swap_out_panics_witness :
  kalloc 2148616192 (ex_sw 8199 0 {[ 3 := Page 3 3 ex_pgdir ex_va ]} 3 2) = Panic "kfree".
Proof.
  refine (swap_out_panics 2148616192 (ex_pt + 4 * PTX ex_va) (ex_sw 8199 0 {[ 3 := Page 3 3 ex_pgdir ex_va ]} 3 2)
    _ _ _ _ _ _ _ _ _ _ _ _ _ _).
  - vm_compute. reflexivity.
  - vm_compute. reflexivity.
  - vm_compute. reflexivity.
  - reflexivity.
  - reflexivity.
  - reflexivity.
  - discriminate.
  - vm_compute. split; [discriminate|reflexivity].
  - vm_compute. split; [discriminate|reflexivity].
  - vm_compute. split; [discriminate|reflexivity].
  - intros s0 Hm. exact (ex_findpte s0 Hm).
  - vm_compute. discriminate.
  - vm_compute. reflexivity.
  - exact ex_writable.
Defined.

Lemma protection_fault_panics_witness :
  page_fault_hadler 2148616192 ex_pgdir ex_va (ex_sw (57000 * 4096 + 3) 2148700160 ∅ NULL 0)
  = Panic "swapread: blkno exceeded range".
Proof.
  refine (protection_fault_panics 2148616192 ex_pgdir ex_va (ex_pt + 4 * PTX ex_va)
    (ex_sw (57000 * 4096 + 3) 2148700160 ∅ NULL 0) eq_refl _ _ _ _ _).
  - apply not_elem_of_nil.
  - discriminate.
  - vm_compute. reflexivity.
  - vm_compute. discriminate.
  - vm_compute. discriminate.
Defined.
