(* ===== verification/Syscall.v ===== *)
(** * System calls ([syscall.c], [sysproc.c])

    How arguments are fetched from the caller's memory and checked, the
    handlers of [sysproc.c] and the dispatch.  The handlers of [sysfile.c] are
    an argument of the dispatch.  [exit] and the waits leave the CPU inside a
    handler: the result then says so, and the rest of the handler is the
    definition that resumes it. *)
From S2P Require Import Prelude Layout Memory Locks Kalloc Vm Fs ProcData Mmap Proc.

(** What a handler comes to: a result, the end of the process, or a wait. *)
Inductive sres := SRet (v : Z) | SExit | SWait.

Definition SYS_fork : Z := 1.
Definition SYS_exit : Z := 2.
Definition SYS_wait : Z := 3.
Definition SYS_kill : Z := 6.
Definition SYS_getpid : Z := 11.
Definition SYS_sbrk : Z := 12.
Definition SYS_sleep : Z := 13.
Definition SYS_uptime : Z := 14.
Definition SYS_getpname : Z := 22.
Definition SYS_getnice : Z := 23.
Definition SYS_setnice : Z := 24.
Definition SYS_ps : Z := 25.
Definition SYS_mmap : Z := 26.
Definition SYS_munmap : Z := 27.
Definition SYS_freemem : Z := 28.
Definition NSYSCALLS : Z := 29.

Section syscall.
Context {F : Type} `{FileLayer F} (kend kdata forkret_addr trapret_addr : Z).
Abbreviation K := (M (kstate F)).

(** A byte of the address space in [CR3], as the hardware translates it. *)
Definition user_byte (va : Z) : K Z :=
  d ← gets ks_cr3;
  pde ← on_k (load32 (P2V d + 4 * PDX va));
  if negb (truth (pde &&& PTE_P)) then undef "page fault in the kernel"
  else
    pte ← on_k (load32 (P2V (PTE_ADDR pde) + 4 * PTX va));
    if negb (truth (pte &&& PTE_P)) then undef "page fault in the kernel"
    else gets (fun s => rd8 (k_mem (ks_kst s)) (P2V (PTE_ADDR pte) + va `mod` PGSIZE)).
Definition user_word (va : Z) : K Z :=
  b0 ← user_byte va; b1 ← user_byte (u32 (va + 1)); b2 ← user_byte (u32 (va + 2)); b3 ← user_byte (u32 (va + 3));
  mret (b0 + 256 * b1 + 65536 * b2 + 16777216 * b3).

(** [None] is the error return. *)
Definition fetchint (addr : Z) : K (option Z) :=
  p ← curproc;
  if (addr >=? p_sz p) || (u32 (addr + 4) >? p_sz p) then mret None
  else v ← user_word addr; mret (Some (i32 v)).

Definition fetchstr_body (pp ep : Z) (s : Z) : K (Z + option (Z * Z)) :=
  if negb (s <? ep) then mret (inr None)
  else
    c ← user_byte s;
    if c =? 0 then mret (inr (Some (pp, s - pp))) else mret (inl (s + 1)).
(** The string and its length. *)
Definition fetchstr (addr : Z) : K (option (Z * Z)) :=
  p ← curproc;
  if addr >=? p_sz p then mret None
  else loop (Datatypes.S (Z.to_nat (p_sz p - addr))) (fetchstr_body addr (p_sz p)) addr.

Definition argint (n : Z) : K (option Z) :=
  p ← curproc;
  esp ← on_k (load32 (p_tf p + tf_esp));
  fetchint (u32 (esp + 4 + 4 * n)).

Definition argptr (n size : Z) : K (option Z) :=
  p ← curproc;
  r ← argint n;
  match r with
  | None => mret None
  | Some i =>
      if (size <? 0) || (u32 i >=? p_sz p) || (u32 (u32 i + size) >? p_sz p) then mret None
      else mret (Some (u32 i))
  end.

Definition argstr (n : Z) : K (option (Z * Z)) :=
  r ← argint n;
  match r with
  | None => mret None
  | Some addr => fetchstr (u32 addr)
  end.

(** [if(argint(n, &x) < 0) return -1; k(x)]. *)
Definition with_arg (n : Z) (k : Z -> K sres) : K sres :=
  r ← argint n;
  match r with None => mret (SRet (-1)) | Some x => k x end.
Definition ret (m : K Z) : K sres := v ← m; mret (SRet v).

(** ** [sysproc.c] *)
Definition sys_fork : K sres := ret (fork kend kdata forkret_addr trapret_addr).
Definition sys_exit : K sres := exit ;; mret SExit.
Definition sys_wait : K sres :=
  r ← wait kend; match r with WDone v => mret (SRet v) | WSleep => mret SWait end.
Definition sys_kill : K sres := with_arg 0 (fun pid => ret (kill pid)).
Definition sys_getpid : K sres := p ← curproc; mret (SRet (p_pid p)).
Definition sys_sbrk : K sres :=
  with_arg 0 (fun n =>
    p ← curproc;
    let addr := i32 (p_sz p) in
    r ← growproc kend n;
    mret (SRet (if r <? 0 then -1 else addr))).

(** The loop of [sys_sleep], entered with [tickslock]. *)
Definition sleep_test (n ticks0 : Z) : K sres :=
  ticks ← gets ks_ticks;
  if u32 (ticks - ticks0) <? u32 n then
    p ← curproc;
    if truth (p_killed p) then release Lticks ;; mret (SRet (-1))
    else sleep_enter Cticks (Some Lticks) ;; mret SWait
  else release Lticks ;; mret (SRet 0).
Definition sys_sleep : K sres :=
  with_arg 0 (fun n => acquire Lticks ;; ticks0 ← gets ks_ticks; sleep_test n ticks0).
Definition sys_sleep_resume (n ticks0 : Z) : K sres := sleep_leave Lticks ;; sleep_test n ticks0.

Definition sys_uptime : K sres :=
  acquire Lticks ;; xticks ← gets ks_ticks; release Lticks ;; mret (SRet (i32 xticks)).
Definition sys_getpname : K sres := with_arg 0 (fun pid => ret (getpname pid)).
Definition sys_getnice : K sres := with_arg 0 (fun pid => ret (getnice pid)).
Definition sys_setnice : K sres := with_arg 0 (fun pid => with_arg 1 (fun value => ret (setnice pid value))).
Definition sys_ps : K sres := with_arg 0 (fun pid => ps pid ;; mret (SRet 0)).
Definition sys_mmap : K sres :=
  with_arg 0 (fun addr => with_arg 1 (fun length => with_arg 2 (fun prot => with_arg 3 (fun flags =>
    fd ← argint 4;
    offset ← argint 5;
    v ← mmap (u32 addr) length prot flags (default (-1) fd) (default 0 offset);
    mret (SRet (i32 v)))))).
Definition sys_munmap : K sres := with_arg 0 (fun addr => ret (munmap kend (u32 addr))).
Definition sys_freemem : K sres := ret (on_k freemem).

(** ** The dispatch *)
Definition proc_call (num : Z) : option (K sres) :=
  if num =? SYS_fork then Some sys_fork else if num =? SYS_exit then Some sys_exit
  else if num =? SYS_wait then Some sys_wait else if num =? SYS_kill then Some sys_kill
  else if num =? SYS_getpid then Some sys_getpid else if num =? SYS_sbrk then Some sys_sbrk
  else if num =? SYS_sleep then Some sys_sleep else if num =? SYS_uptime then Some sys_uptime
  else if num =? SYS_getpname then Some sys_getpname else if num =? SYS_getnice then Some sys_getnice
  else if num =? SYS_setnice then Some sys_setnice else if num =? SYS_ps then Some sys_ps
  else if num =? SYS_mmap then Some sys_mmap else if num =? SYS_munmap then Some sys_munmap
  else if num =? SYS_freemem then Some sys_freemem else None.

(** [file_calls num]: the handler of [sysfile.c] for the number. *)
Variable file_calls : Z -> K sres.

Definition set_eax (me v : Z) : K unit :=
  p ← pget me; on_k (store32 (p_tf p + tf_eax) v).

Definition syscall : K sres :=
  me ← myproc;
  p ← pget me;
  num ← on_k (load32 (p_tf p + tf_eax));
  let num := i32 num in
  if (num >? 0) && (num <? NSYSCALLS) then
    r ← default (file_calls num) (proc_call num);
    match r with
    | SRet v => set_eax me v ;; mret (SRet v)
    | _ => mret r
    end
  else
    cprintf "%d %s: unknown sys call %d\n" [PInt (p_pid p); PStr (p_name p); PInt num] ;;
    set_eax me (-1) ;;
    mret (SRet (-1)).
End syscall.
