(* ===== verification/Trap.v ===== *)
(** * Traps ([trap.c])

    The interrupt and exception handler: system calls, the clock with its
    accounting of virtual runtime, page faults, and the end of a killed process.
    The drivers' handlers are arguments.  A process that exits, waits or yields
    inside [trap] leaves the CPU; [trap_resume] is the rest after a yield. *)
From S2P Require Import Prelude Layout Memory Locks Kalloc Vm Fs ProcData Mmap Proc Syscall.

Definition T_SYSCALL : Z := 64.
Definition T_PGFLT : Z := 14.
Definition T_IRQ0 : Z := 32.
Definition IRQ_TIMER : Z := 0.
Definition IRQ_KBD : Z := 1.
Definition IRQ_COM1 : Z := 4.
Definition IRQ_IDE : Z := 14.
Definition IRQ_SPURIOUS : Z := 31.

Inductive tout := TRet | TExit | TWait | TYield.

(** The accounting of one tick of a process of load [weight]: the time it has
    run, the time since it was dispatched, its virtual runtime. *)
Definition tick_proc (p : proc) : proc :=
  let arun := u32 (p_arun p + 1000) in
  let low := u32 (p_vlow p + 1024000 `quot` p_weight p) in
  let p := with_runtime arun (p_aprev p) p in
  if truth (low `div` 1000000000) then with_vruntime (u32 (p_vhigh p + 1)) (low `mod` 1000000000) p
  else with_vruntime (p_vhigh p) low p.
Definition tick_elapsed (p : proc) : Z := u32 (u32 (p_arun p + 1000) - p_aprev p).

Section trap.
Context {F : Type} `{FileLayer F} (kend kdata forkret_addr trapret_addr : Z).
Abbreviation K := (M (kstate F)).
Variables (file_calls : Z -> K sres) (ideintr kbdintr uartintr : K unit) (cpuid : Z).

Definition tf_field (tf off : Z) : K Z := on_k (load32 (tf + off)).

Definition clock_tick : K unit :=
  when (cpuid =? 0)
    (acquire Lticks ;;
     modify (fun s => set_ticks (u32 (ks_ticks s + 1)) s) ;;
     wakeup Cticks ;;
     release Lticks).

Definition spurious (tf : Z) : K unit :=
  cs ← tf_field tf tf_cs;
  eip ← tf_field tf tf_eip;
  cprintf "cpu%d: spurious interrupt at %x:%x\n" [PInt cpuid; PInt (u16 cs); PInt eip].

(** An exception nothing else handles. *)
Definition bad_trap (tf trapno cr2 : Z) : K unit :=
  me ← myproc;
  cs ← tf_field tf tf_cs;
  eip ← tf_field tf tf_eip;
  if (me =? NULL) || ((cs &&& 3) =? 0) then
    cprintf "unexpected trap %d from cpu %d eip %x (cr2=0x%x)\n" [PInt trapno; PInt cpuid; PInt eip; PInt cr2] ;;
    panic "trap"
  else
    p ← pget me;
    err ← tf_field tf tf_err;
    cprintf "pid %d %s: trap %d err %d on cpu %d eip 0x%x addr 0x%x--kill proc\n"
      [PInt (p_pid p); PStr (p_name p); PInt trapno; PInt err; PInt cpuid; PInt eip; PInt cr2] ;;
    pset me (with_killed 1).

(** The [switch] on the trap number. *)
Definition trap_switch (tf trapno cr2 : Z) : K unit :=
  if trapno =? T_IRQ0 + IRQ_TIMER then clock_tick
  else if trapno =? T_IRQ0 + IRQ_IDE then ideintr
  else if trapno =? T_IRQ0 + IRQ_IDE + 1 then mret tt
  else if trapno =? T_IRQ0 + IRQ_KBD then kbdintr
  else if trapno =? T_IRQ0 + IRQ_COM1 then uartintr
  else if trapno =? T_PGFLT then
    err ← tf_field tf tf_err;
    r ← page_fault_handler cr2 (if truth (err &&& 2) then 2 else 1);
    if r !=? -1 then mret tt else spurious tf
  else if (trapno =? T_IRQ0 + 7) || (trapno =? T_IRQ0 + IRQ_SPURIOUS) then spurious tf
  else bad_trap tf trapno cr2.

(** [if(myproc() && myproc()->killed && (tf->cs & 3) == DPL_USER) exit();] *)
Definition killed_in_user (tf : Z) : K bool :=
  me ← myproc;
  if me =? NULL then mret false
  else
    p ← pget me;
    cs ← tf_field tf tf_cs;
    mret (truth (p_killed p) && ((cs &&& 3) =? DPL_USER)).

Definition trap_end (tf : Z) : K tout :=
  k ← killed_in_user tf;
  if (k : bool) then exit ;; mret TExit else mret TRet.
Definition trap_resume (tf : Z) : K tout := yield_leave ;; trap_end tf.

(** The clock's share of the end of [trap]. *)
Definition charge_tick (me : Z) : K bool :=
  p ← pget me;
  if p_weight p =? 0 then undef "division by zero"
  else
    pset me tick_proc ;;
    if tick_elapsed p >=? p_slice p then
      pset me (fun p => with_runtime (p_arun p) (p_arun p) p) ;;
      mret true
    else mret false.

Definition trap (tf cr2 : Z) : K tout :=
  trapno ← tf_field tf tf_trapno;
  me ← myproc;
  if trapno =? T_SYSCALL then
    p ← pget me;
    if truth (p_killed p) then exit ;; mret TExit
    else
      pset me (fun p => with_frames tf (p_context p) p) ;;
      r ← syscall kend kdata forkret_addr trapret_addr file_calls;
      match r with
      | SExit => mret TExit
      | SWait => mret TWait
      | SRet _ =>
          p ← pget me;
          if truth (p_killed p) then exit ;; mret TExit else mret TRet
      end
  else
    trap_switch tf trapno cr2 ;;
    k ← killed_in_user tf;
    if (k : bool) then exit ;; mret TExit
    else
      me ← myproc;
      timer ← (if (me =? NULL) || (trapno !=? T_IRQ0 + IRQ_TIMER) then mret false
               else p ← pget me; mret (bool_decide (p_state p = RUNNING)));
      if (timer : bool) then
        y ← charge_tick me;
        if (y : bool) then yield_enter ;; mret TYield else trap_end tf
      else trap_end tf.
End trap.
