(* ===== verification/TrapTheorems.v ===== *)
(** * Traps and system calls (theorems on [syscall.c] and [trap.c])

    The checks on the arguments of system calls, the invariant of the process
    table across a whole trap, the accounting of a clock tick, and a page fault
    that is refused. *)
From S2P Require Import Prelude Layout Memory Locks Kalloc Vm VmSpec VmUser VmTheorems Fs ProcData Mmap Proc ProcSched ProcLife ProcSteps ProcTheorems Syscall Trap.

(** ** Arguments of system calls *)
Section args.
Context {F : Type}.
Implicit Types s : kstate F.

(** The allocator's view of the held locks is the CPU's. *)
Definition settled s : Prop := locks_of (ks_kst s) = ks_held s.

Lemma on_k_read {A} (m : M kst A) a s :
  settled s -> m (ks_kst s) = Done a (ks_kst s) -> on_k m s = Done a s.
Proof.
  intros Hs Hm. unfold on_k, zoom. unfold settled in Hs. cbn in Hs. rewrite <- Hs.
  replace (with_locks _ (ks_kst s)) with (ks_kst s) by by destruct s as [? ? ? ? ? ? [] ? ? ? ? ?].
  rewrite Hm. f_equal. cbn. destruct s; cbn in *. by subst.
Qed.

Lemma curproc_eq s : ks_cur s <> NULL -> curproc s = Done (proc_at s (ks_cur s)) s.
Proof. intros Hi. unfold curproc, myproc. rewrite (bind_Done _ _ s (ks_cur s) s) by done. by apply pget_eq. Qed.

(** The byte at a user address, as the caller's page table gives it. *)
Definition readable s (va c : Z) : Prop := user_byte va s = Done c s.

(** (C30) The pointers a system call takes are safe: [argptr] accepts the
    argument it fetched exactly when the whole buffer lies below the size of
    the process (no wrap-around lets a larger one through), and then returns
    it unchanged. *)
Theorem argptr_exact n size i s :
  let p := proc_at s (ks_cur s) in
  ks_cur s <> NULL -> 0 <= p_sz p <= KERNBASE -> size < 2147483648 ->
  argint n s = Done (Some i) s ->
  argptr n size s =
    Done (if bool_decide (0 <= size /\ u32 i < p_sz p /\ u32 i + size <= p_sz p) then Some (u32 i) else None) s.
Proof.
  intros p Hc Hsz Hsize Ha. unfold argptr. rewrite (bind_Done _ _ _ _ _ (curproc_eq s Hc)). fold p.
  rewrite (bind_Done _ _ _ _ _ Ha). pose proof (u32_range i) as Hi. unfold KERNBASE in Hsz.
  revert Hi. generalize (u32 i). intros a Hi.
  case_bool_decide as Hb.
  - assert ((size <? 0) || (a >=? p_sz p) || (u32 (a + size) >? p_sz p) = false) as ->; [|done].
    rewrite u32_small by lia. lia.
  - assert ((size <? 0) || (a >=? p_sz p) || (u32 (a + size) >? p_sz p) = true) as ->; [|done].
    destruct (Z.ltb_spec size 0); [done|]. destruct (Z.geb_spec a (p_sz p)); [done|].
    cbn. rewrite u32_small by lia. lia.
Qed.

(** The scan of [fetchstr], from a string without NUL so far. *)
Lemma fetchstr_loop addr sz n fuel x s :
  n = Z.to_nat (sz - x) -> (n < fuel)%nat -> 0 <= addr <= x ->
  (forall a, x <= a < sz -> exists c, readable s a c) ->
  (forall a, addr <= a < x -> exists c, readable s a c /\ c <> 0) ->
  exists r, loop fuel (fetchstr_body addr sz) x s = Done r s
    /\ match r with
       | Some (pp, len) => pp = addr /\ 0 <= len /\ addr + len < sz /\ readable s (addr + len) 0
           /\ forall a, addr <= a < addr + len -> exists c, readable s a c /\ c <> 0
       | None => forall a, addr <= a < sz -> exists c, readable s a c /\ c <> 0
       end.
Proof.
  revert fuel x. induction n as [|n IH]; intros fuel x En Hf Hx Hr Hnz; (destruct fuel as [|fuel]; [lia|]);
    cbn [loop].
  - exists None. split; [rewrite (bind_Done _ _ _ (inr None) s); [done|]; unfold fetchstr_body; by assert ((x <? sz) = false) as -> by lia|].
    intros a Ha. apply Hnz. lia.
  - assert (Hlt : (x <? sz) = true) by lia.
    destruct (Hr x ltac:(lia)) as [c Hc]. destruct (Z.eqb_spec c 0) as [->|Hne].
    + exists (Some (addr, x - addr)). split; [rewrite (bind_Done _ _ _ (inr (Some (addr, x - addr))) s); [done|]; unfold fetchstr_body; rewrite Hlt; cbn [negb]; rewrite (bind_Done _ _ _ _ _ Hc); reflexivity|]. cbn.
      split_and!; [done|lia|lia| |]; replace (addr + (x - addr)) with x by lia; done.
    + destruct (IH fuel (x + 1) ltac:(lia) ltac:(lia) ltac:(lia)) as (r & E & Hres).
      { intros a Ha. apply Hr. lia. }
      { intros a Ha. destruct (decide (a = x)) as [->|]; [by exists c|]. apply Hnz. lia. }
      exists r. split; [|done]. rewrite (bind_Done _ _ _ (inl (x + 1)) s); [exact E|]. unfold fetchstr_body. rewrite Hlt. cbn [negb].
      rewrite (bind_Done _ _ _ _ _ Hc). by rewrite (proj2 (Z.eqb_neq _ _) Hne).
Qed.

(** [fetchstr] terminates on every address: given that the pages below
    the size of the process are mapped, it returns the length of the string
    that starts there, whose NUL is the first one and lies below the size, or
    fails because the address is outside or no NUL follows before the end. *)
Theorem fetchstr_finds_nul addr s :
  let sz := p_sz (proc_at s (ks_cur s)) in
  ks_cur s <> NULL -> 0 <= addr -> (forall a, addr <= a < sz -> exists c, readable s a c) ->
  exists r, fetchstr addr s = Done r s
    /\ match r with
       | Some (pp, len) => pp = addr /\ 0 <= len /\ addr + len < sz /\ readable s (addr + len) 0
           /\ forall a, addr <= a < addr + len -> exists c, readable s a c /\ c <> 0
       | None => sz <= addr \/ forall a, addr <= a < sz -> exists c, readable s a c /\ c <> 0
       end.
Proof.
  intros sz Hc Ha Hr. unfold fetchstr. rewrite (bind_Done _ _ _ _ _ (curproc_eq s Hc)). fold sz.
  destruct (Z.geb_spec addr sz) as [Hge|Hlt].
  - exists None. split; [done|]. by left.
  - destruct (fetchstr_loop addr sz (Z.to_nat (sz - addr)) (Datatypes.S (Z.to_nat (sz - addr))) addr s eq_refl)
      as (r & E & Hres); [lia|lia|done|intros; lia|].
    exists r. split; [exact E|]. destruct r as [[pp len]|]; [done|by right].
Qed.
End args.

(** ** The process table across a trap *)
Section trap.
Context {F : Type} `{FileLayer F} (kend kdata forkret_addr trapret_addr : Z).
Context (file_calls : Z -> M (kstate F) sres) (ideintr kbdintr uartintr : M (kstate F) unit) (cpuid : Z).
Implicit Types s : kstate F.

(** The caller still runs, or it has left the CPU. *)
Definition sres_ok (me : Z) (r : sres) s : Prop := match r with SRet _ => running me s | _ => switched s end.
Definition tout_ok (me : Z) (r : tout) s : Prop := match r with TRet => running me s | _ => switched s end.

Lemma kc_user_byte va : keeps_core (F := F) (user_byte va).
Proof. unfold user_byte. kc. Qed.
Lemma kc_fetchint a : keeps_core (F := F) (fetchint a).
Proof.
  assert (forall va, keeps_core (F := F) (user_byte va)) by apply kc_user_byte.
  unfold fetchint, user_word. kc.
Qed.
Lemma kc_argint n : keeps_core (F := F) (argint n).
Proof. assert (forall a, keeps_core (F := F) (fetchint a)) by apply kc_fetchint. unfold argint. kc. Qed.
Lemma kc_set_eax me v : keeps_core (F := F) (set_eax me v).
Proof. unfold set_eax. kc. Qed.
Lemma kc_tf_field tf off : keeps_core (F := F) (tf_field tf off).
Proof. apply kc_on_k. Qed.
#[local] Hint Resolve kc_argint kc_set_eax kc_tf_field : kc.

Lemma kc_mmap addr length prot flags fd offset : keeps_core (F := F) (mmap addr length prot flags fd offset).
Proof.
  assert (keeps_core (F := F) zeroed_page) by (unfold zeroed_page; kc).
  assert (forall f p, keeps_core (F := F) (read_page f p)) by (intros; unfold read_page; kc).
  assert (forall f p, keeps_core (F := F) (set_offset f p)) by (intros; unfold set_offset; kc).
  assert (keeps_core (F := F) mallock) by (unfold mallock; kc).
  assert (forall m, keeps_core (F := F) (map_populate m)) by (intros; unfold map_populate; kc).
  assert (forall m, keeps_core (F := F) (map_populate_annonymous m)) by (intros; unfold map_populate_annonymous; kc).
  assert (forall m fd o, keeps_core (F := F) (attach_file m fd o)) by (intros; unfold attach_file; kc).
  assert (forall m, keeps_core (F := F) (compare_prot m)) by (intros; unfold compare_prot; kc).
  unfold mmap. kc.
Qed.
Lemma kc_munmap addr : keeps_core (F := F) (munmap kend addr).
Proof. assert (forall m i, keeps_core (F := F) (unmap_page kend m i)) by (intros; unfold unmap_page; kc). unfold munmap. kc. Qed.
Lemma kc_page_fault_handler addr io : keeps_core (F := F) (page_fault_handler addr io).
Proof.
  assert (keeps_core (F := F) zeroed_page) by (unfold zeroed_page; kc).
  assert (forall f p, keeps_core (F := F) (read_page f p)) by (intros; unfold read_page; kc).
  assert (forall f p, keeps_core (F := F) (set_offset f p)) by (intros; unfold set_offset; kc).
  unfold page_fault_handler. kc.
Qed.
Lemma kc_find_proc {A} pid found (none : A) :
  (forall i, keeps_core (F := F) (found i)) -> keeps_core (F := F) (find_proc pid found none).
Proof. intros Hf. unfold find_proc. kc. Qed.
Lemma kc_ps pid : keeps_core (F := F) (ps pid).
Proof.
  assert (keeps_core (F := F) ps_header) by (unfold ps_header; kc).
  assert (forall n, keeps_core (F := F) (pad_zeroes n)) by (intros; unfold pad_zeroes; kc).
  assert (forall p, keeps_core (F := F) (print_vruntime p)) by (intros; unfold print_vruntime; kc).
  assert (forall i, keeps_core (F := F) (ps_row i)) by (intros; unfold ps_row; kc).
  unfold ps. kc.
Qed.
#[local] Hint Resolve kc_mmap kc_munmap kc_page_fault_handler kc_ps : kc.

(** The handlers of [sysproc.c]. *)
Lemma ret_ok me (m : M (kstate F) Z) s :
  wlp m (fun _ => running me) s -> wlp (ret m) (sres_ok me) s.
Proof. intros Hm. unfold ret. through ltac:(exact Hm). intros v s1 H1. by apply wlp_ret. Qed.

Lemma with_arg_ok me n (k : Z -> M (kstate F) sres) s :
  running me s -> (forall x s1, running me s1 -> ks_nextpid s1 = ks_nextpid s -> wlp (k x) (sres_ok me) s1) ->
  wlp (with_arg n k) (sres_ok me) s.
Proof.
  intros Hr Hk. unfold with_arg. apply wlp_bind. eapply wlp_keep; [apply kc_argint|done|].
  intros [x|] s1 H1 E; [|by apply wlp_ret]. apply Hk; [done|]. by injection E.
Qed.

Lemma sleep_test_ok me n t0 s : running me s -> wlp (sleep_test n t0) (sres_ok me) s.
Proof.
  intros Hr. unfold sleep_test. apply wlp_bind, wlp_gets. destruct (_ <? _).
  - apply wlp_bind. eapply wlp_keep; [apply kc_curproc|done|]. intros p s1 H1 _. destruct (truth _).
    + apply wlp_bind. eapply wlp_keep; [apply kc_release|done|]. intros _ s2 H2 _. by apply wlp_ret.
    + through ltac:(by apply (sleep_ok me)). intros _ s2 H2. by apply wlp_ret.
  - apply wlp_bind. eapply wlp_keep; [apply kc_release|done|]. intros _ s2 H2 _. by apply wlp_ret.
Qed.

Lemma sys_sleep_ok me s : running me s -> wlp sys_sleep (sres_ok me) s.
Proof.
  intros Hr. apply with_arg_ok; [done|]. intros n s1 H1 _. apply wlp_bind.
  eapply wlp_keep; [apply kc_acquire|done|]. intros _ s2 H2 _. apply wlp_bind, wlp_gets. by apply sleep_test_ok.
Qed.

Lemma sys_wait_ok me s : running me s -> wlp (sys_wait kend) (sres_ok me) s.
Proof.
  intros Hr. unfold sys_wait. through ltac:(by apply (wait_ok kend me)). intros [v|] s1 H1; by apply wlp_ret.
Qed.

Lemma ret_keep_ok me (m : M (kstate F) Z) s : keeps_core m -> running me s -> wlp (ret m) (sres_ok me) s.
Proof. intros Hm Hr. apply ret_ok. eapply wlp_keep; [done|done|]. done. Qed.

Lemma sres_keep_ok me (m : M (kstate F) sres) s :
  keeps_core m -> running me s -> wlp m (fun r _ => exists v, r = SRet v) s -> wlp m (sres_ok me) s.
Proof.
  intros Hm Hr Hv. pose proof (Hm (core s) s eq_refl) as Hc. unfold wlp in *. destruct (m s); try done.
  destruct Hv as [v ->]. by eapply running_core.
Qed.

Lemma proc_call_ok me num m s :
  proc_call kend kdata forkret_addr trapret_addr num = Some m ->
  running me s -> ks_nextpid s < 2147483647 -> wlp m (sres_ok me) s.
Proof.
  intros E Hr Hn. unfold proc_call in E.
  repeat (match type of E with (if ?b then _ else _) = _ => destruct b end;
    [injection E as <-|]); [..|discriminate].
  - apply ret_ok. by apply fork_ok.
  - unfold sys_exit. through ltac:(by apply (exit_ok me)). intros _ s1 H1. by apply wlp_ret.
  - by apply sys_wait_ok.
  - apply with_arg_ok; [done|]. intros x s1 H1 _. apply ret_ok. by apply (kill_ok me).
  - unfold sys_getpid. apply wlp_bind. eapply wlp_keep; [apply kc_curproc|done|]. intros p s1 H1 _. by apply wlp_ret.
  - apply with_arg_ok; [done|]. intros x s1 H1 _. apply wlp_bind. eapply wlp_keep; [apply kc_curproc|done|].
    intros p s2 H2 _. cbn zeta. through ltac:(by apply (growproc_ok kend me)). intros r s3 H3. by apply wlp_ret.
  - by apply sys_sleep_ok.
  - apply sres_keep_ok; [unfold sys_uptime; kc|done|]. unfold sys_uptime.
    apply wlp_bind, wlp_core; [apply kc_acquire|]. intros _ s1 _. apply wlp_bind, wlp_gets.
    apply wlp_bind, wlp_core; [apply kc_release|]. intros _ s2 _. apply wlp_ret. eauto.
  - apply with_arg_ok; [done|]. intros x s1 H1 _. apply ret_keep_ok; [|done].
    apply kc_find_proc. intros i. kc.
  - apply with_arg_ok; [done|]. intros x s1 H1 _. apply ret_keep_ok; [|done].
    unfold getnice. apply kc_if; [kc|]. apply kc_find_proc. intros i. kc.
  - apply with_arg_ok; [done|]. intros x s1 H1 _. apply with_arg_ok; [done|]. intros y s2 H2 _.
    apply ret_ok. by apply (setnice_ok me).
  - apply with_arg_ok; [done|]. intros x s1 H1 _. apply wlp_bind. eapply wlp_keep; [apply kc_ps|done|].
    intros _ s2 H2 _. by apply wlp_ret.
  - do 4 (apply with_arg_ok; [done|]; clear Hr; let x := fresh in let s' := fresh "s" in let E := fresh in
      intros x s' Hr E; clear E).
    apply wlp_bind. eapply wlp_keep; [apply kc_argint|done|]. intros fd t1 T1 _.
    apply wlp_bind. eapply wlp_keep; [apply kc_argint|done|]. intros off t2 T2 _.
    apply wlp_bind. eapply wlp_keep; [apply kc_mmap|done|]. intros v t3 T3 _. by apply wlp_ret.
  - apply with_arg_ok; [done|]. intros x s1 H1 _. apply ret_keep_ok; [|done]. apply kc_munmap.
  - apply ret_keep_ok; [apply kc_on_k|done].
Qed.

(** What the code outside these files promises: a handler of [sysfile.c]
    returns with its caller still on the CPU, or leaves it properly; the
    interrupt handlers of the drivers return to the process they interrupted. *)
Context (Hfile : forall me num s, running me s -> wlp (file_calls num) (sres_ok me) s).
Context (Hdev : forall me m s, m ∈ [ideintr; kbdintr; uartintr] -> running me s -> wlp m (fun _ => running me) s).

Lemma syscall_ok me s :
  running me s -> ks_nextpid s < 2147483647 ->
  wlp (syscall kend kdata forkret_addr trapret_addr file_calls) (sres_ok me) s.
Proof.
  intros Hr Hn. unfold syscall, myproc. apply wlp_bind, wlp_gets. rewrite (rn_cur _ _ Hr).
  apply wlp_bind. eapply wlp_keep; [apply kc_pget|done|]. intros p s1 H1 E1.
  apply wlp_bind. eapply wlp_keep; [apply kc_on_k|done|]. intros w s2 H2 E2. cbn zeta.
  assert (Hn2 : ks_nextpid s2 < 2147483647) by (rewrite E1 in E2; injection E2; lia). destruct (_ && _).
  - through ltac:(idtac).
    + destruct (proc_call _ _ _ _ _) as [m|] eqn:E; cbn; [by eapply proc_call_ok|by apply Hfile].
    + intros [v| |] s3 H3; [|by apply wlp_ret..]. apply wlp_bind.
      eapply wlp_keep; [apply kc_set_eax|done|]. intros _ s4 H4 _. by apply wlp_ret.
  - apply wlp_bind. eapply wlp_keep; [apply kc_cprintf|done|]. intros _ s3 H3 _. apply wlp_bind.
    eapply wlp_keep; [apply kc_set_eax|done|]. intros _ s4 H4 _. by apply wlp_ret.
Qed.

Lemma clock_tick_ok me s : running me s -> wlp (clock_tick cpuid) (fun _ => running me) s.
Proof.
  intros Hr. unfold clock_tick. apply wlp_when; [|done]. intros _. apply wlp_bind.
  eapply wlp_keep; [apply kc_acquire|done|]. intros _ s1 H1 _. apply wlp_bind, wlp_modify.
  assert (H2 : running me (set_ticks (u32 (ks_ticks s1 + 1)) s1)) by by apply (running_core me s1).
  through ltac:(by apply (wakeup_ok me)). intros _ s3 H3. by apply (pres_keep me); [apply kc_release|].
Qed.

Lemma kc_spurious tf : keeps_core (F := F) (spurious cpuid tf).
Proof. unfold spurious. kc. Qed.

Lemma bad_trap_ok me tf trapno cr2 s : running me s -> wlp (bad_trap cpuid tf trapno cr2) (fun _ => running me) s.
Proof.
  intros Hr. unfold bad_trap, myproc. apply wlp_bind, wlp_gets. rewrite (rn_cur _ _ Hr).
  apply wlp_bind. eapply wlp_keep; [apply kc_tf_field|done|]. intros cs s1 H1 _.
  apply wlp_bind. eapply wlp_keep; [apply kc_tf_field|done|]. intros eip s2 H2 _. destruct (_ || _); [done|].
  apply wlp_bind. eapply wlp_keep; [apply kc_pget|done|]. intros p s3 H3 _.
  apply wlp_bind. eapply wlp_keep; [apply kc_tf_field|done|]. intros err s4 H4 _.
  apply wlp_bind. eapply wlp_keep; [apply kc_cprintf|done|]. intros _ s5 H5 _.
  by apply (pres_pset_same me me (with_killed 1)); [apply Hr|..].
Qed.

Lemma trap_switch_ok me tf trapno cr2 s :
  running me s -> wlp (trap_switch ideintr kbdintr uartintr cpuid tf trapno cr2) (fun _ => running me) s.
Proof.
  intros Hr. unfold trap_switch.
  destruct (_ =? _); [by apply clock_tick_ok|]. destruct (_ =? _); [apply Hdev; [set_solver|done]|].
  destruct (_ =? _); [by apply wlp_ret|]. destruct (_ =? _); [apply Hdev; [set_solver|done]|].
  destruct (_ =? _); [apply Hdev; [set_solver|done]|]. destruct (_ =? _).
  - apply wlp_bind. eapply wlp_keep; [apply kc_tf_field|done|]. intros err s1 H1 _.
    apply wlp_bind. eapply wlp_keep; [apply kc_page_fault_handler|done|]. intros r s2 H2 _.
    destruct (_ !=? _); [by apply wlp_ret|]. by apply (pres_keep me); [apply kc_spurious|].
  - destruct (_ || _); [by apply (pres_keep me); [apply kc_spurious|]|by apply bad_trap_ok].
Qed.

Lemma kc_killed_in_user tf : keeps_core (F := F) (killed_in_user tf).
Proof. unfold killed_in_user. kc. Qed.

Lemma exit_out_ok me s : running me s -> wlp (exit ;; mret TExit) (tout_ok me) s.
Proof. intros Hr. through ltac:(by apply (exit_ok me)). intros _ s1 H1. by apply wlp_ret. Qed.

Lemma trap_end_ok me tf s : running me s -> wlp (trap_end tf) (tout_ok me) s.
Proof.
  intros Hr. unfold trap_end. apply wlp_bind. eapply wlp_keep; [apply kc_killed_in_user|done|].
  intros [] s1 H1 _; [by apply exit_out_ok|by apply wlp_ret].
Qed.

Lemma charge_tick_ok me s : running me s -> wlp (charge_tick me) (fun _ => running me) s.
Proof.
  intros Hr. unfold charge_tick. apply wlp_bind. eapply wlp_keep; [apply kc_pget|done|]. intros p s1 H1 _.
  destruct (_ =? 0); [done|]. through ltac:(apply (pres_pset_same me me tick_proc); [apply Hr| |done]).
  { intros q. unfold tick_proc. cbn zeta. by destruct (truth _). }
  intros _ s2 H2. destruct (_ >=? _); [|by apply wlp_ret].
  through ltac:(apply (pres_pset_same me me); [apply Hr|done|done]). intros _ s3 H3. by apply wlp_ret.
Qed.

Lemma yield_out_ok me s : running me s -> wlp (yield_enter ;; mret TYield) (tout_ok me) s.
Proof. intros Hr. through ltac:(by apply (yield_ok me)). intros _ s1 H1. by apply wlp_ret. Qed.

Lemma syscall_trap_ok me tf s :
  running me s -> ks_nextpid s < 2147483647 ->
  wlp (p ← pget me;
       if truth (p_killed p) then exit ;; mret TExit
       else
         pset me (fun p => with_frames tf (p_context p) p) ;;
         r ← syscall kend kdata forkret_addr trapret_addr file_calls;
         match r with
         | SExit => mret TExit
         | SWait => mret TWait
         | SRet _ => p ← pget me; if truth (p_killed p) then exit ;; mret TExit else mret TRet
         end) (tout_ok me) s.
Proof.
  intros Hr Hn. apply wlp_bind. eapply wlp_keep; [apply kc_pget|done|]. intros p s1 H1 E1.
  assert (Hn1 : ks_nextpid s1 < 2147483647) by (injection E1; lia).
  destruct (truth _); [by apply exit_out_ok|].
  apply wlp_bind, wlp_pset. intros _.
  assert (H2 : running me (upd_proc me (fun p => with_frames tf (p_context p) p) s1)) by (apply running_same; [done|apply Hr|done]).
  through ltac:(by apply (syscall_ok me)). intros [v| |] s3 H3; [|by apply wlp_ret..].
  apply wlp_bind. eapply wlp_keep; [apply kc_pget|done|]. intros p2 s4 H4 _.
  destruct (truth _); [by apply exit_out_ok|by apply wlp_ret].
Qed.

(** A trap keeps the invariant of the process table: whatever the
    trap - any system call, an interrupt, a page fault, an exception - and
    whatever it comes to, either the interrupted process is still the one
    RUNNING, on the CPU, or it has left it in a state from which the scheduler
    may go on (no process RUNNING, the invariant intact).  The same holds of
    the end of the trap, run when the process gets the CPU back after a yield. *)
Theorem trap_keeps_table me tf cr2 s :
  running me s -> ks_nextpid s < 2147483647 ->
  wlp (trap kend kdata forkret_addr trapret_addr file_calls ideintr kbdintr uartintr cpuid tf cr2) (tout_ok me) s
  /\ wlp (trap_resume tf) (tout_ok me) s.
Proof.
  intros Hr Hn. split.
  - unfold trap, myproc. apply wlp_bind. eapply wlp_keep; [apply kc_tf_field|done|]. intros trapno s1 H1 E1.
    apply wlp_bind, wlp_gets. rewrite (rn_cur _ _ H1).
    destruct (_ =? _); [apply syscall_trap_ok; [done|injection E1; lia]|].
    through ltac:(by apply (trap_switch_ok me)). intros _ s2 H2.
    apply wlp_bind. eapply wlp_keep; [apply kc_killed_in_user|done|]. intros k s3 H3 _.
    destruct k; [by apply exit_out_ok|]. apply wlp_bind, wlp_gets. rewrite (rn_cur _ _ H3).
    apply wlp_bind. eapply (wlp_keep me); [destruct (_ || _); kc|done|]. intros timer s4 H4 _.
    destruct timer; [|by apply trap_end_ok]. through ltac:(by apply (charge_tick_ok me)).
    intros y s5 H5. destruct y; [by apply yield_out_ok|by apply trap_end_ok].
  - unfold trap_resume. apply wlp_bind. eapply (wlp_keep me); [unfold yield_leave; kc|done|].
    intros _ s1 H1 _. by apply trap_end_ok.
Qed.
End trap.

(** ** The clock's charge *)
Definition vruntime (p : proc) : Z := p_vhigh p * 1000000000 + p_vlow p.

Lemma tick_share w : 15 <= w <= 88761 -> 11 <= 1024000 `quot` w <= 68266.
Proof.
  intros Hw. rewrite Z.quot_div_nonneg by lia. split; [apply Z.div_le_lower_bound; lia|].
  apply Z.lt_succ_r, Z.div_lt_upper_bound; lia.
Qed.

Lemma tick_proc_vruntime p :
  15 <= p_weight p <= 88761 -> 0 <= p_vlow p < 1000000000 -> 0 <= p_vhigh p < 4294967295 ->
  vruntime (tick_proc p) = vruntime p + 1024000 `quot` p_weight p /\ 0 <= p_vlow (tick_proc p) < 1000000000.
Proof.
  intros Hw Hl Hh. pose proof (tick_share _ Hw) as Hq. unfold tick_proc, vruntime. cbn zeta.
  cbn [with_runtime p_vlow p_vhigh p_weight]. revert Hq. generalize (1024000 `quot` p_weight p). intros d Hd. assert (Hb : 0 <= p_vlow p + d < 4294967296) by lia.
  rewrite (u32_small (p_vlow p + d)) by exact Hb. unfold truth.
  destruct (decide (p_vlow p + d < 1000000000)) as [Hs|Hs].
  - rewrite Z.div_small by lia. cbn. lia.
  - assert (E : (p_vlow p + d) `div` 1000000000 = 1) by (symmetry; apply (Z.div_unique _ _ _ (p_vlow p + d - 1000000000)); lia).
    assert (Em : (p_vlow p + d) `mod` 1000000000 = p_vlow p + d - 1000000000) by (symmetry; apply (Z.mod_unique _ _ 1); lia).
    rewrite E, Em. cbn. rewrite u32_small by lia. lia.
Qed.

Section tick.
Context {F : Type}.
Implicit Types s : kstate F.

(** (C<n>) A clock tick charges the running process in proportion to its
    weight: its virtual runtime, high word and low word read as one number,
    grows by exactly 1024000 / weight (between 11 and 68266), the low word stays
    below 10^9, its runtime grows by 1000, and the process is to yield exactly
    when the time since its dispatch has reached its slice - that time then
    starts again.  No other process and nothing else of the process changes. *)
Theorem tick_charges_by_weight me p s :
  ks_proc s !! Z.to_nat me = Some p -> me <> NULL ->
  15 <= p_weight p <= 88761 -> 0 <= p_vlow p < 1000000000 -> 0 <= p_vhigh p < 4294967295 ->
  exists b q, charge_tick me s = Done b (upd_proc me (fun _ => q) s)
    /\ vruntime q = vruntime p + 1024000 `quot` p_weight p
    /\ 11 <= 1024000 `quot` p_weight p <= 68266
    /\ 0 <= p_vlow q < 1000000000
    /\ p_arun q = u32 (p_arun p + 1000)
    /\ b = (u32 (p_arun q - p_aprev p) >=? p_slice p)
    /\ p_aprev q = (if b then p_arun q else p_aprev p)
    /\ with_vruntime (p_vhigh p) (p_vlow p) (with_runtime (p_arun p) (p_aprev p) q) = p.
Proof.
  intros Hp Hme Hw Hl Hh.
  assert (Ep : proc_at s me = p) by by apply list_lookup_total_correct.
  destruct (tick_proc_vruntime p Hw Hl Hh) as [Hv Hlow]. pose proof (tick_share _ Hw) as Hsh.
  assert (Hq : forall f, upd_proc me f s = upd_proc me (fun _ => f p) s).
  { intros f. unfold upd_proc. f_equal. apply list_eq. intros j. destruct (decide (j = Z.to_nat me)) as [->|Hj].
    - by rewrite !list_lookup_alter_eq, Hp.
    - by rewrite !list_lookup_alter_ne. }
  assert (Hf : p_arun (tick_proc p) = u32 (p_arun p + 1000) /\ p_aprev (tick_proc p) = p_aprev p
    /\ with_vruntime (p_vhigh p) (p_vlow p) (with_runtime (p_arun p) (p_aprev p) (tick_proc p)) = p).
  { unfold tick_proc. cbn zeta. destruct (truth _); (split_and!; [done|done|by destruct p]). }
  destruct Hf as (Ha & Hprev & Hrest).
  set (b := tick_elapsed p >=? p_slice p).
  exists b, (if b then with_runtime (p_arun (tick_proc p)) (p_arun (tick_proc p)) (tick_proc p) else tick_proc p).
  split.
  - unfold charge_tick. rewrite (bind_Done _ _ _ _ _ (pget_eq me s Hme)), Ep.
    assert ((p_weight p =? 0) = false) as -> by lia. unfold pset. rewrite (proj2 (Z.eqb_neq _ _) Hme).
    rewrite (bind_Done _ _ s tt (upd_proc me tick_proc s)) by done. fold b. destruct b.
    + rewrite (bind_Done _ _ _ tt (upd_proc me (fun _ => with_runtime (p_arun (tick_proc p)) (p_arun (tick_proc p)) (tick_proc p)) s)); [done|].
      unfold modify. rewrite upd_proc_compose. by rewrite Hq.
    + by rewrite Hq.
  - assert (Eb : b = (u32 (u32 (p_arun p + 1000) - p_aprev p) >=? p_slice p)) by done. clearbody b.
    destruct b; cbn [with_runtime p_arun p_aprev p_vlow p_vhigh p_weight];
      rewrite ?Ha, ?Hprev; (split_and!; try done; try lia).
Qed.
End tick.

(** ** A page fault that is refused *)
Section refused.
Context {F : Type} `{FileLayer F} (kend kdata forkret_addr trapret_addr : Z).
Context (file_calls : Z -> M (kstate F) sres) (ideintr kbdintr uartintr : M (kstate F) unit) (cpuid : Z).
Implicit Types s : kstate F.

Definition tf_word s (tf off : Z) : Z := rd32 (k_mem (ks_kst s)) (tf + off).

Lemma tf_field_eq tf off s : settled s -> tf_field tf off s = Done (tf_word s tf off) s.
Proof. intros Hs. by apply on_k_read. Qed.

Lemma spurious_eq tf s :
  settled s ->
  spurious cpuid tf s = Done tt (set_out (("cpu%d: spurious interrupt at %x:%x\n"%string,
    [PInt cpuid; PInt (u16 (tf_word s tf tf_cs)); PInt (tf_word s tf tf_eip)]) :: ks_out s) s).
Proof.
  intros Hs. unfold spurious. rewrite (bind_Done _ _ _ _ _ (tf_field_eq tf tf_cs s Hs)).
  by rewrite (bind_Done _ _ _ _ _ (tf_field_eq tf tf_eip s Hs)).
Qed.

Lemma trap_end_alive tf s :
  settled s -> ks_cur s <> NULL -> p_killed (proc_at s (ks_cur s)) = 0 ->
  killed_in_user tf s = Done false s /\ trap_end tf s = Done TRet s.
Proof.
  intros Hs Hc Hk. assert (E : killed_in_user tf s = Done false s).
  { unfold killed_in_user, myproc. rewrite (bind_Done _ _ s (ks_cur s) s) by done.
    rewrite (proj2 (Z.eqb_neq _ _) Hc). rewrite (bind_Done _ _ _ _ _ (pget_eq _ s Hc)).
    rewrite (bind_Done _ _ _ _ _ (tf_field_eq tf tf_cs s Hs)). by rewrite Hk. }
  split; [done|]. unfold trap_end. by rewrite (bind_Done _ _ _ _ _ E).
Qed.

(** A process whose page fault is refused is not killed: the case of the
    page fault falls into the one of the spurious interrupts, so [trap] prints
    a line and returns to the instruction that faulted, with the process and
    its memory unchanged - it faults again, for ever. *)
Theorem refused_fault_returns tf cr2 s :
  settled s -> ks_cur s <> NULL -> p_killed (proc_at s (ks_cur s)) = 0 ->
  tf_word s tf tf_trapno = T_PGFLT ->
  page_fault_handler cr2 (if truth (tf_word s tf tf_err &&& 2) then 2 else 1) s = Done (-1) s ->
  trap kend kdata forkret_addr trapret_addr file_calls ideintr kbdintr uartintr cpuid tf cr2 s =
    Done TRet (set_out (("cpu%d: spurious interrupt at %x:%x\n"%string,
      [PInt cpuid; PInt (u16 (tf_word s tf tf_cs)); PInt (tf_word s tf tf_eip)]) :: ks_out s) s).
Proof.
  intros Hs Hc Hk Ht Hf. unfold trap. rewrite (bind_Done _ _ _ _ _ (tf_field_eq tf tf_trapno s Hs)), Ht.
  unfold myproc at 1. rewrite (bind_Done _ _ s (ks_cur s) s) by done.
  change (T_PGFLT =? T_SYSCALL) with false. cbv iota. set (s' := set_out _ s).
  assert (Esw : trap_switch ideintr kbdintr uartintr cpuid tf T_PGFLT cr2 s = Done tt s').
  { unfold trap_switch. 
    do 5 (match goal with |- context [T_PGFLT =? ?n] => change (T_PGFLT =? n) with false; cbv iota end).
    rewrite Z.eqb_refl. rewrite (bind_Done _ _ _ _ _ (tf_field_eq tf tf_err s Hs)). rewrite (bind_Done _ _ _ _ _ Hf). cbn [negb Z.eqb Pos.eqb].
    by rewrite spurious_eq. }
  rewrite (bind_Done _ _ _ _ _ Esw).
  destruct (trap_end_alive tf s' Hs Hc Hk) as [Ek Ee]. rewrite (bind_Done _ _ _ _ _ Ek).
  unfold myproc. rewrite (bind_Done _ _ s' (ks_cur s') s') by done.
  rewrite (bind_Done _ _ s' false s'); [exact Ee|]. by rewrite orb_true_r.
Qed.
End refused.

(** ** Instances: the running process of [ProcTheorems], with a user stack mapped
    at 0 and a trap frame at [ex_tf] *)
#[local] Existing Instance no_files.

Definition ex_tf : Z := 2147512320.
Definition ex_trap (m : mem) : kstate (list lock) :=
  Kstate [zero_proc; Proc 4096 2147500032 2147504128 RUNNING 2 0 ex_tf 0 Cnone 0 (replicate 16 NULL) NULL [] 20 1024 0 0 0 0 0]
    0 4 1 16384 false (Kst m true 2147508224 1 []) [] (replicate 64 zero_area) 0 [] [].

(** Page directory at 0x4000 with one table, which maps page 0 to frame 0x6000;
    the stack pointer is 16, the first argument 32, where a string starts. *)
Definition ex_args : kstate (list lock) :=
  ex_trap (wr32 2147508256 6513249 (wr32 2147508244 32 (wr32 (ex_tf + tf_esp) 16
    (wr32 2147504128 24583 (wr32 2147500032 20487 ∅))))).

Lemma ex_argint : argint 0 ex_args = Done (Some 32) ex_args.
Proof. vm_compute. reflexivity. Qed.

Lemma argptr_exact_witness :
  argptr 0 4064 ex_args = Done (Some 32) ex_args /\ argptr 0 4065 ex_args = Done None ex_args.
Proof.
  split; refine (argptr_exact 0 _ 32 ex_args _ _ _ ex_argint);
    first [discriminate|reflexivity|vm_compute; split; discriminate].
Defined.

(** The example with a process of 36 bytes. *)
Definition ex_str : kstate (list lock) := upd_proc 1 (with_mem 36 2147500032) ex_args.

Lemma ex_str_readable : forall a, 32 <= a < 36 -> exists c, readable ex_str a c.
Proof.
  intros a Ha. assert (a = 32 \/ a = 33 \/ a = 34 \/ a = 35) as [->|[->|[->| ->]]] by lia.
  - exists 97. vm_compute. reflexivity.
  - exists 98. vm_compute. reflexivity.
  - exists 99. vm_compute. reflexivity.
  - exists 0. vm_compute. reflexivity.
Qed.

Lemma fetchstr_finds_nul_witness :
  exists r, fetchstr 32 ex_str = Done r ex_str /\ match r with Some (_, len) => 32 + len < 36 | None => True end.
Proof.
  destruct (fetchstr_finds_nul 32 ex_str ltac:(discriminate) ltac:(discriminate) ex_str_readable) as (r & E & Hr).
  exists r. split; [exact E|]. destruct r as [[pp len]|]; [|exact I]. exact (proj1 (proj2 (proj2 Hr))).
Defined.

Lemma tick_charges_by_weight_witness :
  exists b q, charge_tick 1 ex_args = Done b (upd_proc 1 (fun _ => q) ex_args) /\ vruntime q = 1000.
Proof.
  destruct (tick_charges_by_weight 1 (proc_at ex_args 1) ex_args) as (b & q & E & Hv & _);
    [reflexivity|discriminate|vm_compute; split; discriminate|vm_compute; split; [discriminate|reflexivity]..|].
  exists b, q. split; [exact E|]. rewrite Hv. reflexivity.
Defined.

Definition ex_fault : kstate (list lock) := ex_trap (wr32 (ex_tf + tf_trapno) T_PGFLT ∅).
Definition no_calls (num : Z) : M (kstate (list lock)) sres := mret (SRet (-1)).

Lemma refused_fault_returns_witness :
  exists o, trap 0 0 0 0 no_calls (mret tt) (mret tt) (mret tt) 0 ex_tf 1073741824 ex_fault = Done TRet (set_out o ex_fault).
Proof.
  eexists. apply (refused_fault_returns 0 0 0 0 no_calls (mret tt) (mret tt) (mret tt) 0 ex_tf 1073741824 ex_fault).
  - reflexivity.
  - discriminate.
  - reflexivity.
  - vm_compute. reflexivity.
  - vm_compute. reflexivity.
Defined.

(** The process of [ex_life], interrupted by the clock. *)
Definition ex_tick : kstate (list lock) := set_kst (Kst (wr32 (ex_tf + tf_trapno) 32 ∅) true 2147508224 1 []) ex_life.

Lemma ex_tick_running : running 1 ex_tick.
Proof. apply (running_core 1 ex_life); [reflexivity|]. apply ex_good. by left. Qed.
