(* ===== verification/Exec.v ===== *)
(** * Loading a program ([exec.c], [loaduvm] of [vm.c])

    [exec] over the open-file layer: the ELF header and the program headers are
    read from the inode, each segment is allocated and filled from the file,
    the arguments are pushed on the new stack, and only then is the old address
    space given up.  A string the caller passes is the list of its bytes; what
    the kernel stores in the new address space goes through its page table. *)
From S2P Require Import Prelude Layout Memory Locks Sleeplock Kalloc Vm Blocks Log Fs ProcData Mmap Proc File.

Definition ELF_MAGIC : Z := 1179403647.
Definition ELF_PROG_LOAD : Z := 1.
Definition sizeof_elfhdr : Z := 52.
Definition sizeof_proghdr : Z := 32.

(** The fields of the headers the code reads. *)
Record elfhdr := Elfhdr { elf_magic : Z; elf_entry : Z; elf_phoff : Z; elf_phnum : Z }.
Definition load_elfhdr (b : list Z) : elfhdr := Elfhdr (get32 b 0) (get32 b 24) (get32 b 28) (get16 b 44).
Record proghdr := Proghdr { ph_type : Z; ph_off : Z; ph_vaddr : Z; ph_filesz : Z; ph_memsz : Z }.
Definition load_proghdr (b : list Z) : proghdr :=
  Proghdr (get32 b 0) (get32 b 4) (get32 b 8) (get32 b 16) (get32 b 20).

(** The bytes of a word, and of an array of words. *)
Definition word_bytes (v : Z) : list Z := 
  [v `mod` 256; (v `div` 256) `mod` 256; (v `div` 65536) `mod` 256; (v `div` 16777216) `mod` 256].

(** [copyout] of the bytes of an array in the kernel or of the caller. *)
Definition copyout_bytes_body (pgdir : Z) (x : Z * list Z) : M kst (Z * list Z + Z) :=
  let '(va, buf) := x in
  let len := Z.of_nat (length buf) in
  if negb (len >? 0) then mret (inr 0)
  else
    let va0 := PGROUNDDOWN va in
    pa0 ← uva2ka pgdir va0;
    if pa0 =? 0 then mret (inr (-1))
    else
      let n := PGSIZE - (va - va0) in
      let n := if n >? len then len else n in
      modify (upd_mem (store_bytes (pa0 + (va - va0)) (take (Z.to_nat n) buf))) ;;
      mret (inl (u32 (va0 + PGSIZE), drop (Z.to_nat n) buf)).
Definition copyout_bytes (pgdir va : Z) (buf : list Z) : M kst Z :=
  loop (Datatypes.S (length buf)) (copyout_bytes_body pgdir) (va, buf).

(** The part of a path after its last slash. *)
Fixpoint last_elem (s last : list Z) : list Z :=
  match s with
  | [] => last
  | c :: s' => last_elem s' (if c =? slash then s' else last)
  end.

Section exec.
Context {S : Type} `{BlockLayer S} (devs : Z -> devsw S) (kend kdata : Z).
Abbreviation K := (M (kstate (flst S))).
#[local] Instance file_layer : FileLayer (flst S) := files devs.

(** What [fs.c] and [file.c] read of [myproc()]. *)
Definition set_ctx (pid cwd killed : Z) (s : flst S) : flst S :=
  Flst (Fsst (fs_log (fs_of s)) (fs_sb (fs_of s)) (fs_inode (fs_of s)) pid cwd)
    (fs_files s) (fs_pipes s) (fs_pwakes s) killed.
(** Running the file layer on behalf of the current process; its wake-ups stay in
    the file layer, as with [on_f]. *)
Definition on_file {A} (m : M (flst S) A) : K A :=
  p ← curproc;
  on_f (modify (set_ctx (p_pid p) (p_cwd p) (p_killed p)) ;; m).

(** [readi(ip, dst, off, n)]: its result, and the bytes for [dst]. *)
Definition readi_k (ip off n : Z) : K (Z * list Z) := on_file (on_fs (readi devs ip off n)).

(** [P2V(pa)] receives what the file holds at each page. *)
Definition loaduvm_body (pgdir addr ip offset sz : Z) (i : Z) : K (Z + Z) :=
  if negb (i <? sz) then mret (inr 0)
  else
    pte ← on_k (walkpgdir pgdir (u32 (addr + i)) false);
    if pte =? 0 then panic "loaduvm: address should exist"
    else
      e ← on_k (load32 pte);
      let pa := PTE_ADDR e in
      let n := if u32 (sz - i) <? PGSIZE then u32 (sz - i) else PGSIZE in
      '(r, b) ← readi_k ip (u32 (offset + i)) n;
      on_k (modify (upd_mem (store_bytes (P2V pa) b))) ;;
      if u32 r !=? n then mret (inr (-1))
      else mret (inl (u32 (i + PGSIZE))).

Definition loaduvm (pgdir addr ip offset sz : Z) : K Z :=
  if u32 addr `mod` PGSIZE !=? 0 then panic "loaduvm: addr must be page aligned"
  else loop (Datatypes.S (Z.to_nat (sz `div` PGSIZE + 1))) (loaduvm_body pgdir addr ip offset sz) 0.

(** The program headers from [off] on: the size reached, or [None] for [goto bad]. *)
Fixpoint load_segments (n : nat) (pgdir ip off sz : Z) : K (option Z) :=
  match n with
  | O => mret (Some sz)
  | Datatypes.S n' =>
      '(r, b) ← readi_k ip (u32 off) sizeof_proghdr;
      if u32 r !=? sizeof_proghdr then mret None
      else
        let ph := load_proghdr b in
        let off' := i32 (u32 off + sizeof_proghdr) in
        if ph_type ph !=? ELF_PROG_LOAD then load_segments n' pgdir ip off' sz
        else if ph_memsz ph <? ph_filesz ph then mret None
        else if u32 (ph_vaddr ph + ph_memsz ph) <? ph_vaddr ph then mret None
        else
          sz ← on_k (allocuvm kend pgdir sz (u32 (ph_vaddr ph + ph_memsz ph)));
          if sz =? 0 then mret None
          else if ph_vaddr ph `mod` PGSIZE !=? 0 then mret None
          else
            r ← loaduvm pgdir (ph_vaddr ph) ip (ph_off ph) (ph_filesz ph);
            if r <? 0 then mret None else load_segments n' pgdir ip off' sz
  end.

(** The argument strings, pushed in order: the stack pointer reached and the
    addresses of the strings. *)
Fixpoint push_args (pgdir : Z) (argv : list (list Z)) (argc sp : Z) (ustack : list Z) : K (option (Z * list Z)) :=
  match argv with
  | [] => mret (Some (sp, ustack))
  | arg :: rest =>
      if argc >=? MAXARG then mret None
      else
        let len := Z.of_nat (length arg) + 1 in
        let sp := u32 (sp - len) &&& 4294967292 in
        r ← on_k (copyout_bytes pgdir sp (arg ++ [0]));
        if r <? 0 then mret None else push_args pgdir rest (argc + 1) sp (ustack ++ [sp])
  end.

(** The label [bad]; [ip] is [NULL] once the inode has been given up. *)
Definition exec_bad (pgdir ip : Z) : K Z :=
  when (truth pgdir) (on_k (freevm kend pgdir)) ;;
  when (ip !=? NULL) (on_file (on_fs (iunlockput ip) ;; end_op_)) ;;
  mret (-1).

(** The stack of the new image: its two pages, the strings and the array
    [ustack]; the size and the stack pointer. *)
Definition exec_stack (pgdir sz : Z) (argv : list (list Z)) : K (option (Z * Z)) :=
  let sz := PGROUNDUP sz in
  sz ← on_k (allocuvm kend pgdir sz (u32 (sz + 2 * PGSIZE)));
  if sz =? 0 then mret None
  else
    on_k (clearpteu pgdir (u32 (sz - 2 * PGSIZE))) ;;
    args ← push_args pgdir argv 0 sz [];
    match args with
    | None => mret None
    | Some (sp, strs) =>
        let argc := Z.of_nat (length argv) in
        let ustack := [4294967295; argc; u32 (sp - (argc + 1) * 4)] ++ strs ++ [0] in
        let sp := u32 (sp - (3 + argc + 1) * 4) in
        r ← on_k (copyout_bytes pgdir sp (mjoin (word_bytes <$> ustack)));
        mret (if r <? 0 then None else Some (sz, sp))
    end.

(** [safestrcpy(curproc->name, last, ...)] and the switch to the new image. *)
Definition exec_commit (path : list Z) (elf : elfhdr) (pgdir sz sp : Z) : K Z :=
  me ← myproc;
  pset me (with_name (take 15 (last_elem path path))) ;;
  p ← pget me;
  pset me (with_mem sz pgdir) ;;
  tf_store me tf_eip (elf_entry elf) ;;
  tf_store me tf_esp sp ;;
  switchuvm me ;;
  on_k (freevm kend (p_pgdir p)) ;;
  mret 0.

(** [argv] holds the strings before the null pointer. *)
Definition exec (path : list Z) (argv : list (list Z)) : K Z :=
  on_file begin_op_ ;;
  ip ← on_file (on_fs (namei devs path));
  if ip =? NULL then on_file end_op_ ;; cprintf "exec: fail
" [] ;; mret (-1)
  else
    on_file (on_fs (ilock ip)) ;;
    '(r, b) ← readi_k ip 0 sizeof_elfhdr;
    let elf := load_elfhdr b in
    if u32 r !=? sizeof_elfhdr then exec_bad 0 ip
    else if elf_magic elf !=? ELF_MAGIC then exec_bad 0 ip
    else
      pgdir ← on_k (setupkvm kend kdata);
      if pgdir =? 0 then exec_bad 0 ip
      else
        r ← load_segments (Z.to_nat (elf_phnum elf)) pgdir ip (i32 (elf_phoff elf)) 0;
        match r with
        | None => exec_bad pgdir ip
        | Some sz =>
            on_file (on_fs (iunlockput ip) ;; end_op_) ;;
            r ← exec_stack pgdir sz argv;
            match r with
            | None => exec_bad pgdir NULL
            | Some (sz, sp) => exec_commit path elf pgdir sz sp
            end
        end.
End exec.
