(* ===== verification/ExecImage.v ===== *)
(** * What a successful [exec] has done ([exec.c], [loaduvm] of [vm.c])

    The image of a program, described without the code's loops: which bytes of the
    file each page of a segment receives, which headers are loaded and which
    passed over, where the arguments go on the new stack.  The runs of
    [loaduvm], [load_segments], [push_args], [exec_stack] and [exec] that
    succeed have built exactly this; a step that fails ends in [bad]. *)
From S2P Require Import Prelude Layout Memory Locks Sleeplock Kalloc Vm VmSpec VmUser Blocks Log Fs ProcData Mmap Proc File Exec.

(** A step of a run, with its equation. *)
Lemma wlp_bind_eq {S A B} (m : M S A) (k : A -> M S B) Q s :
  (forall a s', m s = Done a s' -> wlp (k a) Q s') -> wlp (m ≫= k) Q s.
Proof. intros H. apply wlp_bind. unfold wlp. destruct (m s) eqn:E; try done. by apply H. Qed.
Lemma wlp_eq {S A} (m : M S A) (Q : A -> S -> Prop) s :
  (forall a s', m s = Done a s' -> Q a s') -> wlp m Q s.
Proof. unfold wlp. destruct (m s); naive_solver. Qed.

Section image.
Context {S : Type} `{BlockLayer S} (devs : Z -> devsw S) (kend kdata : Z).
Implicit Types s : kstate (flst S).

Abbreviation mem_of s := (k_mem (ks_kst s)).

(** The [n] bytes [b] at [off] of the inode, all of them there. *)
Definition read_full (ip off n : Z) (b : list Z) s s' : Prop :=
  exists r, readi_k devs ip off n s = Done (r, b) s' /\ u32 r = n.

(** ** A segment *)

(** The page at [addr + i] has an entry; the frame it names receives the bytes of
    the file from [offset + i] on, to the end of the page or of the segment.
    Nothing else of the memory changes. *)
Definition page_loaded (pgdir addr ip offset sz i : Z) (b : list Z) s s' : Prop :=
  exists pte s0 s1,
    pte_addr (mem_of s) pgdir (u32 (addr + i)) = Some pte
    /\ mem_of s0 = mem_of s /\ ks_fs s0 = ks_fs s
    /\ read_full ip (u32 (offset + i)) (Z.min (u32 (sz - i)) PGSIZE) b s0 s1
    /\ mem_of s' = store_bytes (P2V (PTE_ADDR (rd32 (mem_of s) pte))) b (mem_of s) /\ ks_fs s' = ks_fs s1.

(** All pages from [i] to the end of the segment, with the bytes of each. *)
Inductive pages_loaded (pgdir addr ip offset sz : Z) : Z -> list (list Z) -> kstate (flst S) -> kstate (flst S) -> Prop :=
| pl_end i s : sz <= i -> pages_loaded pgdir addr ip offset sz i [] s s
| pl_page i b bs s s1 s' :
    i < sz -> page_loaded pgdir addr ip offset sz i b s s1 ->
    pages_loaded pgdir addr ip offset sz (u32 (i + PGSIZE)) bs s1 s' ->
    pages_loaded pgdir addr ip offset sz i (b :: bs) s s'.

Lemma on_k_inv {A} (m : M kst A) s a s' : on_k m s = Done a s' ->
  exists k, m (with_locks (ks_held s) (ks_kst s)) = Done a k /\ ks_kst s' = k /\ ks_fs s' = ks_fs s.
Proof. unfold on_k, zoom. destruct (m _) as [b k| | | |]; try done. intros [= <- <-]. by exists k. Qed.

Lemma readi_mem ip off n s r b s' : readi_k devs ip off n s = Done (r, b) s' -> mem_of s' = mem_of s.
Proof.
  unfold readi_k, on_file, mbind, M_bind. destruct (curproc s) as [p s1| | | |] eqn:Ec; try done.
  assert (s1 = s) as ->.
  { unfold curproc, myproc, mbind, M_bind, gets, pget in Ec. destruct (_ =? NULL); [done|]. by injection Ec. }
  unfold on_f, zoom. destruct (modify _ _) as [[] f| | | |]; try done. destruct (on_fs _ f); try done.
  by intros [= _ <-].
Qed.

Lemma loaduvm_page pgdir addr ip offset sz i s :
  i < sz ->
  wlp (loaduvm_body devs pgdir addr ip offset sz i)
    (fun o s' => o = inr (-1) \/ (o = inl (u32 (i + PGSIZE)) /\ exists b, page_loaded pgdir addr ip offset sz i b s s')) s.
Proof.
  intros Hi. unfold loaduvm_body. rewrite (proj2 (Z.ltb_lt _ _) Hi). cbn [negb].
  apply wlp_bind_eq. intros pte s0 (k0 & E0 & K0 & F0)%on_k_inv. rewrite walk_false in E0. injection E0 as Ep Ek. subst k0.
  destruct (Z.eqb_spec pte 0) as [|Hz]; [done|].
  assert (Hm0 : mem_of s0 = mem_of s) by (by rewrite K0).
  apply wlp_bind_eq. intros e s1 (k1 & E1 & K1 & F1)%on_k_inv. injection E1 as Ee Ek. subst k1.
  assert (Hm1 : mem_of s1 = mem_of s) by (by rewrite K1).
  cbv zeta. set (n := if _ <? PGSIZE then _ else _).
  assert (Hn : n = Z.min (u32 (sz - i)) PGSIZE) by (unfold n; destruct (Z.ltb_spec (u32 (sz - i)) PGSIZE); lia).
  apply wlp_bind_eq. intros [r b] s2 E2. pose proof (readi_mem _ _ _ _ _ _ _ E2) as Hm2.
  apply wlp_bind_eq. intros [] s3 (k3 & E3 & K3 & F3)%on_k_inv. injection E3 as Ek. subst k3.
  destruct (Z.eqb_spec (u32 r) n) as [Hr|_]; cbn [negb]; [|by left].
  right. split; [done|]. exists b, pte, s1, s2. split.
  { cbn in Ep. destruct (pte_addr _ _ _); cbn in Ep; congruence. }
  split; [done|]. split; [congruence|]. split; [exists r; rewrite <- Hn; by split|]. split; [|congruence].
  rewrite K3. cbn in *. by rewrite Hm2, Hm1, <- Ee, Hm0.
Qed.

(** [loaduvm] returns 0 only when every page has been read in full. *)
Lemma loaduvm_loaded pgdir addr ip offset sz s :
  wlp (loaduvm devs pgdir addr ip offset sz)
    (fun r s' => r = -1 \/ (r = 0 /\ exists bs, pages_loaded pgdir addr ip offset sz 0 bs s s')) s.
Proof.
  unfold loaduvm. destruct (_ !=? 0); [done|]. generalize (Datatypes.S (Z.to_nat (sz `div` PGSIZE + 1))) as fuel.
  enough (forall fuel i s, wlp (loop fuel (loaduvm_body devs pgdir addr ip offset sz) i)
    (fun r s' => r = -1 \/ (r = 0 /\ exists bs, pages_loaded pgdir addr ip offset sz i bs s s')) s) by eauto.
  clear s. induction fuel as [|fuel IH]; intros i s; [done|]. cbn [loop].
  destruct (decide (i < sz)) as [Hi|Hi].
  - apply wlp_bind. eapply wlp_mono; [by apply loaduvm_page|]. intros o s1 [->|(-> & b & Hb)]; [by left|].
    eapply wlp_mono; [apply IH|]. intros r s' [->|(-> & bs & Hs)]; [by left|]. right. split; [done|].
    exists (b :: bs). by econstructor.
  - unfold loaduvm_body. rewrite (proj2 (Z.ltb_ge i sz)) by lia. cbn [negb]. right. split; [done|].
    exists []. constructor. lia.
Qed.

(** ** What the user finds at the addresses of a segment *)
Section user.
Context (pgdir : Z) (l : list Z).

(** A page table and its user pages, in memory [m]. *)
Definition uspace (m : mem) : Prop := ptwf kend m pgdir l /\ uwf kend m pgdir l.

(** Bytes stored into the frame of a user page leave the page table alone. *)
Lemma store_frame m va b :
  uspace m -> 0 <= va < KERNBASE -> present (pt_entry m pgdir va) -> (length b <= 4096)%nat ->
  let m' := store_bytes (frame (pt_entry m pgdir va)) b m in
  (forall va', pt_entry m' pgdir va' = pt_entry m pgdir va') /\ uspace m'.
Proof.
  intros [Hwf [U1 U2 U3 U4 U5]] Hva Hp Hb m'. set (f := frame _) in m'.
  assert (Hf : kpage kend f) by by apply U1.
  assert (Hsame : forall p a, table_page m pgdir p -> in_page a p -> rd8 m' a = rd8 m a).
  { intros p a Ht Ha. unfold m'. rewrite rd8_store_bytes, decide_False; [done|]. intros Hin.
    assert (kpage kend p /\ p <> f) as [Hkp Hne].
    { destruct Ht as [->|(d & Hd & Ht)].
      - split; [apply (wf_dir _ _ _ _ Hwf)|]. intros E. by apply (U3 va Hva Hp).
      - split; [by apply (wf_tab _ _ _ _ Hwf d)|]. intros E. by apply (U4 va d p Hva Hp Hd Ht). }
    apply (kpages_disjoint kend a p f Hkp Hf Hne Ha). unfold in_page. lia. }
  pose proof (outside_entry pgdir m m' Hsame) as He. split; [exact He|]. split.
  - by apply (outside_ptwf kend pgdir m m' l Hwf Hsame l).
  - split; intros va'; rewrite ?He; [apply U1|apply U2|apply U3| |].
    + intros d tab Hv Hpr Hd. rewrite (outside_pde pgdir m m' Hsame) by done. by apply U4.
    + intros va2 Hv Hv2. rewrite !He. by apply U5.
Qed.

(** A segment of mapped pages is in memory: byte [j] of page [k] of the segment
    is byte [j] of what was read for that page, through the page table. *)
Lemma pages_loaded_bytes addr ip offset sz i bs s s' :
  pages_loaded pgdir addr ip offset sz i bs s s' ->
  0 <= addr -> addr `mod` PGSIZE = 0 -> 0 <= i -> i `mod` PGSIZE = 0 -> addr + sz <= KERNBASE ->
  uspace (mem_of s) -> (forall va, addr <= va < addr + sz -> present (pt_entry (mem_of s) pgdir va)) ->
  Forall (fun b => length b <= 4096)%nat bs ->
  (forall va, pt_entry (mem_of s') pgdir va = pt_entry (mem_of s) pgdir va)
  /\ uspace (mem_of s')
  /\ (forall p a, kpage kend p -> in_page a p ->
        (forall va, addr + i <= va < addr + sz -> frame (pt_entry (mem_of s) pgdir va) <> p) ->
        rd8 (mem_of s') a = rd8 (mem_of s) a)
  /\ forall k b j, bs !! k = Some b -> (j < length b)%nat ->
       rd8 (mem_of s') (frame (pt_entry (mem_of s') pgdir (addr + i + PGSIZE * Z.of_nat k)) + Z.of_nat j) = u8 (b !!! j).
Proof.
  intros Hl Haddr Ham. induction Hl as [i s Hend|i b bs s s1 s' Hi Hpl Hl IH]; intros H0 Him Hk Hu Hp Hb; [done|].
  apply Forall_cons in Hb as [Hb Hbs]. unfold KERNBASE in Hk. change PGSIZE with 4096 in *.
  destruct Hpl as (pte & s0 & sr & Hpte & _ & _ & _ & Hm & _). rewrite u32_small in Hpte by lia.
  change (P2V (PTE_ADDR (rd32 (mem_of s) pte))) with (frame (rd32 (mem_of s) pte)) in Hm.
  rewrite <- (pt_entry_at _ pgdir (addr + i)) in Hm by done. set (f := frame (pt_entry (mem_of s) pgdir (addr + i))) in *.
  assert (Hpi : present (pt_entry (mem_of s) pgdir (addr + i))) by (apply Hp; lia).
  assert (Hkf : kpage kend f) by (apply (uw_page _ _ _ _ (proj2 Hu)); [unfold KERNBASE; lia|done]).
  destruct (store_frame (mem_of s) (addr + i) b Hu ltac:(unfold KERNBASE; lia) Hpi Hb) as [He Hu1].
  fold f in He, Hu1. rewrite <- Hm in He, Hu1. rewrite u32_small in IH by lia.
  assert (Hp1 : forall va, addr <= va < addr + sz -> present (pt_entry (mem_of s1) pgdir va)) by (intros va Hva; rewrite He; by apply Hp).
  destruct (IH ltac:(lia) ltac:(zlia) ltac:(unfold KERNBASE; lia) Hu1 Hp1 Hbs) as (Ie & Iu & If & Ib).
  split; [intros va; by rewrite Ie, He|]. split; [exact Iu|].
  assert (Hother : forall p a, kpage kend p -> in_page a p -> p <> f -> rd8 (mem_of s1) a = rd8 (mem_of s) a).
  { intros p a Hkp Ha Hne. rewrite Hm, rd8_store_bytes, decide_False; [done|]. intros Hin.
    apply (kpages_disjoint kend a p f Hkp Hkf Hne Ha). unfold in_page. lia. }
  split.
  - intros p a Hkp Ha Hout. rewrite (If p a Hkp Ha) by (intros va Hva; rewrite He; apply Hout; lia).
    apply (Hother p); [done|done|]. intros ->. by apply (Hout (addr + i)); [lia|].
  - intros [|k] b' j Hlk Hj.
    + injection Hlk as <-. rewrite Z.mul_0_r, Z.add_0_r, Ie, He. fold f.
      rewrite (If f); [|exact Hkf|unfold in_page; lia|].
      2: { intros va Hva Ef. rewrite He in Ef. apply (uw_inj _ _ _ _ (proj2 Hu)) in Ef;
             [|unfold KERNBASE; lia..|apply Hp; lia|done].
           unfold same_page in Ef. rewrite !u32_small in Ef by lia. clear -Ef Hva Ham Him. zlia. }
      rewrite Hm, rd8_store_bytes, decide_True by lia. do 2 f_equal. lia.
    + cbn in Hlk. specialize (Ib k b' j Hlk Hj).
      replace (addr + i + 4096 * Z.of_nat (Datatypes.S k)) with (addr + (i + 4096) + 4096 * Z.of_nat k) by lia. exact Ib.
Qed.
End user.

(** ** The program headers *)

(** From the [n] headers at [off], with the size [sz] so far: a header of
    another type is passed over; for a segment to load the address space has
    been grown to its end and its [filesz] bytes have been loaded. *)
Inductive segments_loaded (pgdir ip : Z) : nat -> Z -> Z -> Z -> kstate (flst S) -> kstate (flst S) -> Prop :=
| sl_none off sz s : segments_loaded pgdir ip 0 off sz sz s s
| sl_skip n off sz sz' b s s1 s' :
    read_full ip (u32 off) sizeof_proghdr b s s1 ->
    ph_type (load_proghdr b) <> ELF_PROG_LOAD ->
    segments_loaded pgdir ip n (i32 (u32 off + sizeof_proghdr)) sz sz' s1 s' ->
    segments_loaded pgdir ip (Datatypes.S n) off sz sz' s s'
| sl_load n off sz sz1 sz' b bs s s1 s2 s3 s' :
    let ph := load_proghdr b in
    read_full ip (u32 off) sizeof_proghdr b s s1 ->
    ph_type ph = ELF_PROG_LOAD ->
    ph_filesz ph <= ph_memsz ph -> ph_vaddr ph <= u32 (ph_vaddr ph + ph_memsz ph) -> ph_vaddr ph `mod` PGSIZE = 0 ->
    on_k (allocuvm kend pgdir sz (u32 (ph_vaddr ph + ph_memsz ph))) s1 = Done sz1 s2 -> sz1 <> 0 ->
    pages_loaded pgdir (ph_vaddr ph) ip (ph_off ph) (ph_filesz ph) 0 bs s2 s3 ->
    segments_loaded pgdir ip n (i32 (u32 off + sizeof_proghdr)) sz1 sz' s3 s' ->
    segments_loaded pgdir ip (Datatypes.S n) off sz sz' s s'.

Lemma load_segments_loaded n pgdir ip off sz s :
  wlp (load_segments devs kend n pgdir ip off sz)
    (fun r s' => match r with Some sz' => segments_loaded pgdir ip n off sz sz' s s' | None => True end) s.
Proof.
  revert off sz s. induction n as [|n IH]; intros off sz s; cbn [load_segments]; [constructor|].
  apply wlp_bind_eq. intros [r b] s1 E1. destruct (Z.eqb_spec (u32 r) sizeof_proghdr) as [Hr|_]; cbn [negb]; [|done].
  assert (Hb : read_full ip (u32 off) sizeof_proghdr b s s1) by by exists r.
  cbn zeta. destruct (Z.eqb_spec (ph_type (load_proghdr b)) ELF_PROG_LOAD) as [Ht|Ht]; cbn [negb].
  2: { eapply wlp_mono; [apply IH|]. intros [sz'|] s' Hs; [|done]. by eapply sl_skip. }
  destruct (Z.ltb_spec (ph_memsz (load_proghdr b)) (ph_filesz (load_proghdr b))) as [|Hm]; [done|].
  destruct (Z.ltb_spec (u32 (ph_vaddr (load_proghdr b) + ph_memsz (load_proghdr b))) (ph_vaddr (load_proghdr b))) as [|Hv]; [done|].
  apply wlp_bind_eq. intros sz1 s2 E2. destruct (Z.eqb_spec sz1 0) as [|Hz]; [done|].
  destruct (Z.eqb_spec (ph_vaddr (load_proghdr b) `mod` PGSIZE) 0) as [Ha|]; cbn [negb]; [|done].
  apply wlp_bind. eapply wlp_mono; [apply loaduvm_loaded|]. intros r2 s3 [->|(-> & bs & Hs)]; [done|].
  change (0 <? 0) with false. cbv iota.
  eapply wlp_mono; [apply IH|]. intros [sz'|] s' Hs'; [|done]. by eapply sl_load.
Qed.

(** ** The stack *)

(** The strings, each with its NUL below the one before, on a word boundary. *)
Inductive args_pushed (pgdir : Z) : list (list Z) -> Z -> Z -> list Z -> kstate (flst S) -> kstate (flst S) -> Prop :=
| ap_none sp s : args_pushed pgdir [] sp sp [] s s
| ap_arg arg argv sp sp' strs r s s1 s' :
    let at_ := u32 (sp - (Z.of_nat (length arg) + 1)) &&& 4294967292 in
    on_k (copyout_bytes pgdir at_ (arg ++ [0])) s = Done r s1 -> 0 <= r ->
    args_pushed pgdir argv at_ sp' strs s1 s' ->
    args_pushed pgdir (arg :: argv) sp sp' (at_ :: strs) s s'.

Lemma push_args_pushed pgdir argv argc sp us s :
  0 <= argc ->
  wlp (push_args (S := S) pgdir argv argc sp us)
    (fun r s' => match r with
                 | Some (sp', us') => exists strs, us' = us ++ strs /\ (argv <> [] -> argc + Z.of_nat (length argv) <= MAXARG)
                     /\ args_pushed pgdir argv sp sp' strs s s'
                 | None => True
                 end) s.
Proof.
  revert argc sp us s. induction argv as [|arg argv IH]; intros argc sp us s Hc; cbn [push_args].
  - exists []. split; [by rewrite app_nil_r|]. split; [done|constructor].
  - rewrite Z.geb_leb. destruct (Z.leb_spec MAXARG argc) as [|Hm]; [done|]. cbn zeta.
    apply wlp_bind_eq. intros r s1 E1. destruct (Z.ltb_spec r 0) as [|Hr]; [done|].
    eapply wlp_mono; [apply IH; lia|]. intros [[sp' us']|] s' Hs; [|done].
    destruct Hs as (strs & -> & Hl & Hp). eexists (_ :: strs). split; [by rewrite <- app_assoc|]. split.
    + intros _. cbn [length]. destruct argv as [|a argv]; [cbn; lia|]. specialize (Hl ltac:(done)). lia.
    + eapply ap_arg; [exact E1|done|exact Hp].
Qed.

(** Two pages above the program, the lower one out of the user's reach; the
    strings from the top of the other; below them the return address, [argc],
    the address of [argv] and [argv] itself. *)
Definition stack_built (pgdir sz : Z) (argv : list (list Z)) (sz' sp : Z) s s' : Prop :=
  exists s1 s2 s3 strs sp1 r,
    let argc := Z.of_nat (length argv) in
    on_k (allocuvm kend pgdir (PGROUNDUP sz) (u32 (PGROUNDUP sz + 2 * PGSIZE))) s = Done sz' s1 /\ sz' <> 0
    /\ on_k (clearpteu pgdir (u32 (sz' - 2 * PGSIZE))) s1 = Done tt s2
    /\ args_pushed pgdir argv sz' sp1 strs s2 s3 /\ argc <= MAXARG
    /\ sp = u32 (sp1 - (3 + argc + 1) * 4)
    /\ on_k (copyout_bytes pgdir sp (mjoin (word_bytes <$>
         [4294967295; argc; u32 (sp1 - (argc + 1) * 4)] ++ strs ++ [0]))) s3 = Done r s' /\ 0 <= r.

Lemma exec_stack_built pgdir sz argv s :
  wlp (exec_stack (S := S) kend pgdir sz argv)
    (fun r s' => match r with Some (sz', sp) => stack_built pgdir sz argv sz' sp s s' | None => True end) s.
Proof.
  unfold exec_stack. cbn zeta. apply wlp_bind_eq. intros sz' s1 E1. destruct (Z.eqb_spec sz' 0) as [|Hz]; [done|].
  apply wlp_bind_eq. intros [] s2 E2. apply wlp_bind. eapply wlp_mono; [by apply push_args_pushed|].
  intros [[sp1 us]|] s3 Hp; [|done]. destruct Hp as (strs & -> & Hl & Hp). rewrite app_nil_l.
  apply wlp_bind_eq. intros r s4 E4. apply wlp_ret. destruct (Z.ltb_spec r 0) as [|Hr]; [done|].
  exists s1, s2, s3, strs, sp1, r. cbn zeta. split_and!; try done.
  destruct argv; [cbn; unfold MAXARG; lia|]. specialize (Hl ltac:(done)). lia.
Qed.

(** ** The whole program *)

(** All that comes before the switch: the file has been opened and its header
    read and checked, the address space built, every segment loaded, the file
    given up, the stack built. *)
Definition image_built (path : list Z) (argv : list (list Z)) (entry pgdir sz sp : Z) s s' : Prop :=
  exists ip b sz0 s1 s2 s3 s4 s5 s6 s7,
    on_file devs begin_op_ s = Done tt s1 /\ on_file devs (on_fs (namei devs path)) s1 = Done ip s2 /\ ip <> NULL
    /\ on_file devs (on_fs (ilock ip)) s2 = Done tt s3
    /\ read_full ip 0 sizeof_elfhdr b s3 s4 /\ elf_magic (load_elfhdr b) = ELF_MAGIC
    /\ entry = elf_entry (load_elfhdr b)
    /\ on_k (setupkvm kend kdata) s4 = Done pgdir s5 /\ pgdir <> 0
    /\ segments_loaded pgdir ip (Z.to_nat (elf_phnum (load_elfhdr b))) (i32 (elf_phoff (load_elfhdr b))) 0 sz0 s5 s6
    /\ on_file devs (on_fs (iunlockput ip) ;; end_op_) s6 = Done tt s7
    /\ stack_built pgdir sz0 argv sz sp s7 s'.

(** The switch: the entry point and the stack pointer are stored in the trap
    frame at [tf], and the old address space is freed. *)
Definition image_entered (tf oldpgdir entry sp : Z) s s' : Prop :=
  exists s1, mem_of s1 = wr32 (tf + tf_esp) sp (wr32 (tf + tf_eip) entry (mem_of s))
    /\ on_k (freevm kend oldpgdir) s1 = Done tt s'.
End image.
