(* ===== verification/SysFile.v ===== *)
(** * System calls on files ([sysfile.c], [pipealloc] of [pipe.c])

    The handlers the dispatch of [Syscall.v] takes as an argument, over the
    open-file layer of [File.v].  Strings are fetched as their bytes; buffers
    are read and written through the page table of the caller.  The array
    [name] that [nameiparent] fills is on the stack of its caller: the bytes it
    holds before are the argument [junk]. *)
From S2P Require Import Prelude Layout Memory Locks Sleeplock Kalloc Vm Pipe Blocks Log Fs ProcData Mmap Proc File Syscall Exec.

Definition sizeof_stat : Z := 20.
Definition SYS_pipe : Z := 4.
Definition SYS_read : Z := 5.
Definition SYS_exec : Z := 7.
Definition SYS_fstat : Z := 8.
Definition SYS_chdir : Z := 9.
Definition SYS_dup : Z := 10.
Definition SYS_open : Z := 15.
Definition SYS_write : Z := 16.
Definition SYS_mknod : Z := 17.
Definition SYS_unlink : Z := 18.
Definition SYS_link : Z := 19.
Definition SYS_mkdir : Z := 20.
Definition SYS_close : Z := 21.
(** [struct pipe]: the lock, then [data]. *)
Definition pipe_data_off : Z := 52.

(** ** The caller's memory *)
Section user.
Context {F : Type}.
Abbreviation K := (M (kstate F)).

(** A store by the kernel, which the write protection of pages also binds. *)
Definition user_put (va b : Z) : K unit :=
  d ← gets ks_cr3;
  pde ← on_k (load32 (P2V d + 4 * PDX va));
  if negb (truth (pde &&& PTE_P) && truth (pde &&& PTE_W)) then undef "page fault in the kernel"
  else
    pte ← on_k (load32 (P2V (PTE_ADDR pde) + 4 * PTX va));
    if negb (truth (pte &&& PTE_P) && truth (pte &&& PTE_W)) then undef "page fault in the kernel"
    else on_k (modify (upd_mem (wr8 (P2V (PTE_ADDR pte) + va `mod` PGSIZE) b))).
Fixpoint user_store (va : Z) (l : list Z) : K unit :=
  match l with
  | [] => mret tt
  | b :: l' => user_put va b ;; user_store (u32 (va + 1)) l'
  end.
Fixpoint user_load (va : Z) (n : nat) : K (list Z) :=
  match n with
  | O => mret []
  | Datatypes.S n' => b ← user_byte va; l ← user_load (u32 (va + 1)) n'; mret (b :: l)
  end.

(** [argstr] and the bytes of the string. *)
Definition argpath (n : Z) : K (option (list Z)) :=
  r ← argstr n;
  match r with
  | None => mret None
  | Some (pp, len) => l ← user_load pp (Z.to_nat len); mret (Some l)
  end.

(** ** Descriptors *)
Definition argfd (n : Z) : K (option (Z * Z)) :=
  r ← argint n;
  match r with
  | None => mret None
  | Some fd =>
      if (fd <? 0) || (fd >=? NOFILE) then mret None
      else
        p ← curproc;
        let f := p_ofile p !!! Z.to_nat fd in
        if f =? NULL then mret None else mret (Some (fd, f))
  end.

Definition fdalloc (f : Z) : K Z :=
  me ← myproc;
  r ← for_ret (seqZ 0 NOFILE) (fun fd =>
    p ← pget me;
    if p_ofile p !!! Z.to_nat fd =? NULL then pset me (with_ofile fd f) ;; mret (Some fd) else mret None);
  mret (default (-1) r).
End user.

(** ** Directories and files, as the handlers compose them *)
Section paths.
Context {S : Type} `{BlockLayer S} (devs : Z -> devsw S) (junk : list Z).
Abbreviation L := (M (flst S)).

Definition isdirempty_body (dp : Z) (off : Z) : M (fsst S) (Z + bool) :=
  i ← ino dp;
  if negb (off <? i_size i) then mret (inr true)
  else
    '(r, de) ← readi devs dp off sizeof_dirent;
    if r !=? sizeof_dirent then panic "isdirempty: readi"
    else if de_inum de !=? 0 then mret (inr false)
    else mret (inl (u32 (off + sizeof_dirent))).
Definition isdirempty (dp : Z) : M (fsst S) bool :=
  i ← ino dp;
  loop (dir_fuel (i_size i)) (isdirempty_body dp) (2 * sizeof_dirent).

Definition add_nlink (ip d : Z) : M (fsst S) unit := iset ip (fun i => with_nlink (i16 (i_nlink i + d)) i).

(** [sys_link] from [begin_op] on; [link_bad] is its label [bad]. *)
Definition link_bad (ip : Z) : L Z :=
  on_fs (ilock ip ;; add_nlink ip (-1) ;; iupdate ip ;; iunlockput ip) ;;
  end_op_ ;;
  mret (-1).
Definition link_paths (old new : list Z) : L Z :=
  begin_op_ ;;
  ip ← on_fs (namei devs old);
  if ip =? NULL then end_op_ ;; mret (-1)
  else
    on_fs (ilock ip) ;;
    i ← on_fs (ino ip);
    if i_type i =? T_DIR then on_fs (iunlockput ip) ;; end_op_ ;; mret (-1)
    else
      on_fs (add_nlink ip 1 ;; iupdate ip ;; iunlock ip) ;;
      '(dp, name) ← on_fs (nameiparent devs new junk);
      if dp =? NULL then link_bad ip
      else
        on_fs (ilock dp) ;;
        i ← on_fs (ino ip);
        d ← on_fs (ino dp);
        bad ← (if i_dev d !=? i_dev i then mret true
               else r ← on_fs (dirlink devs dp name (i_inum i)); mret (r <? 0));
        if (bad : bool) then on_fs (iunlockput dp) ;; link_bad ip
        else on_fs (iunlockput dp ;; iput ip) ;; end_op_ ;; mret 0.

(** [sys_unlink] from [begin_op] on; [unlink_bad] is its label [bad]. *)
Definition unlink_bad (dp : Z) : L Z := on_fs (iunlockput dp) ;; end_op_ ;; mret (-1).
Definition unlink_entry (dp ip off : Z) : M (fsst S) bool :=
  ilock ip ;;
  i ← ino ip;
  if i_nlink i <? 1 then panic "unlink: nlink < 1"
  else
    full ← (if i_type i =? T_DIR then e ← isdirempty ip; mret (negb e) else mret false);
    if (full : bool) then iunlockput ip ;; mret false
    else
      r ← writei devs dp (replicate (Z.to_nat sizeof_dirent) 0) off sizeof_dirent;
      if r !=? sizeof_dirent then panic "unlink: writei"
      else
        i ← ino ip;
        when (i_type i =? T_DIR) (add_nlink dp (-1) ;; iupdate dp) ;;
        iunlockput dp ;;
        add_nlink ip (-1) ;;
        iupdate ip ;;
        iunlockput ip ;;
        mret true.
Definition dot : list Z := [46].
Definition dotdot : list Z := [46; 46].
Definition unlink_path (path : list Z) : L Z :=
  begin_op_ ;;
  '(dp, name) ← on_fs (nameiparent devs path junk);
  if dp =? NULL then end_op_ ;; mret (-1)
  else
    on_fs (ilock dp) ;;
    if (namecmp name dot =? 0) || (namecmp name dotdot =? 0) then unlink_bad dp
    else
      found ← on_fs (dirlookup devs dp name);
      match found with
      | None => unlink_bad dp
      | Some (ip, off) =>
          ok ← on_fs (unlink_entry dp ip off);
          if (ok : bool) then end_op_ ;; mret 0 else unlink_bad dp
      end.

(** The new inode of [create] in the directory [dp]. *)
Definition create_new (dp : Z) (name : list Z) (type major minor : Z) : M (fsst S) Z :=
  d ← ino dp;
  ip ← ialloc (i_dev d) type;
  if ip =? NULL then panic "create: ialloc"
  else
    ilock ip ;;
    iset ip (fun i => with_meta (i_type i) major minor 1 (i_size i) (i_addrs i) i) ;;
    iupdate ip ;;
    i ← ino ip;
    d ← ino dp;
    when (type =? T_DIR)
      (add_nlink dp 1 ;;
       iupdate dp ;;
       r ← dirlink devs ip dot (i_inum i);
       if r <? 0 then panic "create dots"
       else
         r ← dirlink devs ip dotdot (i_inum d);
         if r <? 0 then panic "create dots" else mret tt) ;;
    r ← dirlink devs dp name (i_inum i);
    if r <? 0 then panic "create: dirlink"
    else iunlockput dp ;; mret ip.

Definition create (path : list Z) (type major minor : Z) : M (fsst S) Z :=
  '(dp, name) ← nameiparent devs path junk;
  if dp =? NULL then mret NULL
  else
    ilock dp ;;
    found ← dirlookup devs dp name;
    match found with
    | Some (ip, _) =>
        iunlockput dp ;;
        ilock ip ;;
        i ← ino ip;
        if (type =? T_FILE) && (i_type i =? T_FILE) then mret ip
        else iunlockput ip ;; mret NULL
    | None => create_new dp name type major minor
    end.

(** [sys_open] up to the locked inode; [NULL] when it returns -1 there. *)
Definition open_inode (path : list Z) (omode : Z) : L Z :=
  begin_op_ ;;
  if truth (omode &&& O_CREATE) then
    ip ← on_fs (create path T_FILE 0 0);
    if ip =? NULL then end_op_ ;; mret NULL else mret ip
  else
    ip ← on_fs (namei devs path);
    if ip =? NULL then end_op_ ;; mret NULL
    else
      on_fs (ilock ip) ;;
      i ← on_fs (ino ip);
      if (i_type i =? T_DIR) && (omode !=? O_RDONLY) then on_fs (iunlockput ip) ;; end_op_ ;; mret NULL
      else mret ip.

Definition opened (ip omode : Z) (f : file) : file :=
  File FD_INODE (fl_ref f) (b2z (negb (truth (omode &&& O_WRONLY))))
    (b2z (truth (omode &&& O_WRONLY) || truth (omode &&& O_RDWR))) (fl_pipe f) ip 0.
End paths.

(** ** The handlers *)
Section sysfile.
Context {S : Type} `{BlockLayer S} (devs : Z -> devsw S) (junk : list Z) (kend kdata : Z).
Abbreviation K := (M (kstate (flst S))).
#[local] Instance sys_files : FileLayer (flst S) := files devs.

(** [if(argfd(n, &fd, &f) < 0) return -1; ...] and the same for the others. *)
Definition with_fd (n : Z) (k : Z -> Z -> K sres) : K sres :=
  r ← argfd n; match r with None => mret (SRet (-1)) | Some (fd, f) => k fd f end.
Definition with_ptr (n size : Z) (k : Z -> K sres) : K sres :=
  r ← argptr n size; match r with None => mret (SRet (-1)) | Some p => k p end.
Definition with_path (n : Z) (k : list Z -> K sres) : K sres :=
  r ← argpath n; match r with None => mret (SRet (-1)) | Some path => k path end.
Definition on_file_ {A} (m : M (flst S) A) : K A := on_file devs m.

Definition sys_dup : K sres :=
  with_fd 0 (fun _ f =>
    fd ← fdalloc f;
    if fd <? 0 then mret (SRet (-1)) else on_file_ (File.filedup f) ;; mret (SRet fd)).

Definition sys_read : K sres :=
  with_fd 0 (fun _ f => with_arg 2 (fun n => with_ptr 1 n (fun p =>
    '(r, b) ← on_file_ (File.fileread devs f n);
    user_store p b ;;
    mret (SRet r)))).

(** The buffer is read as a whole; [argptr] has shown it to be the caller's. *)
Definition sys_write : K sres :=
  with_fd 0 (fun _ f => with_arg 2 (fun n => with_ptr 1 n (fun p =>
    b ← user_load p (Z.to_nat n);
    ret (on_file_ (filewrite devs f b n))))).

Definition sys_close : K sres :=
  with_fd 0 (fun fd f =>
    me ← myproc;
    pset me (with_ofile fd NULL) ;;
    on_file_ (File.fileclose f) ;;
    mret (SRet 0)).

(** The stores of [stati] into [st]. *)
Definition store_stat (p : Z) (st : stat) : K unit :=
  user_store p (take 2 (word_bytes (u16 (st_type st)))) ;;
  user_store (u32 (p + 4)) (word_bytes (u32 (st_dev st))) ;;
  user_store (u32 (p + 8)) (word_bytes (st_ino st)) ;;
  user_store (u32 (p + 12)) (take 2 (word_bytes (u16 (st_nlink st)))) ;;
  user_store (u32 (p + 16)) (word_bytes (st_size st)).
Definition sys_fstat : K sres :=
  with_fd 0 (fun _ f => with_ptr 1 sizeof_stat (fun p =>
    '(r, st) ← on_file_ (filestat f);
    match st with
    | Some st => store_stat p st ;; mret (SRet r)
    | None => mret (SRet r)
    end)).

Definition sys_link : K sres :=
  with_path 0 (fun old => with_path 1 (fun new => ret (on_file_ (link_paths devs junk old new)))).
Definition sys_unlink : K sres := with_path 0 (fun path => ret (on_file_ (unlink_path devs junk path))).

(** The failure of [sys_open] once the inode is locked. *)
Definition open_fail (ip : Z) : K sres := on_file_ (on_fs (iunlockput ip) ;; end_op_) ;; mret (SRet (-1)).
Definition sys_open : K sres :=
  with_path 0 (fun path => with_arg 1 (fun omode =>
    ip ← on_file_ (open_inode devs junk path omode);
    if ip =? NULL then mret (SRet (-1))
    else
      f ← on_file_ File.filealloc;
      if f =? NULL then open_fail ip
      else
        fd ← fdalloc f;
        if fd <? 0 then on_file_ (File.fileclose f) ;; open_fail ip
        else
          on_file_ (on_fs (iunlock ip) ;; end_op_ ;; fset f (opened ip omode)) ;;
          mret (SRet fd))).

(** [sys_mkdir] and [sys_mknod] fetch their arguments inside the transaction. *)
Definition end_fail : K sres := on_file_ end_op_ ;; mret (SRet (-1)).
Definition make_node (path : list Z) (type major minor : Z) : K sres :=
  ip ← on_file_ (on_fs (create devs junk path type major minor));
  if ip =? NULL then end_fail else on_file_ (on_fs (iunlockput ip) ;; end_op_) ;; mret (SRet 0).
Definition sys_mkdir : K sres :=
  on_file_ begin_op_ ;;
  path ← argpath 0;
  match path with
  | None => end_fail
  | Some path => make_node path T_DIR 0 0
  end.
Definition sys_mknod : K sres :=
  on_file_ begin_op_ ;;
  path ← argpath 0;
  match path with
  | None => end_fail
  | Some path =>
      major ← argint 1;
      match major with
      | None => end_fail
      | Some major =>
          minor ← argint 2;
          match minor with
          | None => end_fail
          | Some minor => make_node path T_DEV (i16 major) (i16 minor)
          end
      end
  end.

Definition sys_chdir : K sres :=
  me ← myproc;
  on_file_ begin_op_ ;;
  path ← argpath 0;
  match path with
  | None => end_fail
  | Some path =>
      ip ← on_file_ (on_fs (namei devs path));
      if ip =? NULL then end_fail
      else
        on_file_ (on_fs (ilock ip)) ;;
        i ← on_file_ (on_fs (ino ip));
        if i_type i !=? T_DIR then on_file_ (on_fs (iunlockput ip) ;; end_op_) ;; mret (SRet (-1))
        else
          on_file_ (on_fs (iunlock ip)) ;;
          p ← pget me;
          on_file_ (on_fs (iput (p_cwd p)) ;; end_op_) ;;
          pset me (with_cwd ip) ;;
          mret (SRet 0)
  end.

(** The strings of [argv], up to the null pointer. *)
Fixpoint fetch_argv (n : nat) (uargv i : Z) : K (option (list (list Z))) :=
  match n with
  | O => mret None
  | Datatypes.S n' =>
      uarg ← fetchint (u32 (uargv + 4 * i));
      match uarg with
      | None => mret None
      | Some uarg =>
          if uarg =? 0 then mret (Some [])
          else
            s ← fetchstr (u32 uarg);
            match s with
            | None => mret None
            | Some (pp, len) =>
                arg ← user_load pp (Z.to_nat len);
                rest ← fetch_argv n' uargv (i + 1);
                match rest with None => mret None | Some l => mret (Some (arg :: l)) end
            end
      end
  end.
Definition sys_exec : K sres :=
  with_path 0 (fun path => with_arg 1 (fun uargv =>
    argv ← fetch_argv (Z.to_nat MAXARG) (u32 uargv) 0;
    match argv with
    | None => mret (SRet (-1))
    | Some argv => ret (exec devs kend kdata path argv)
    end)).

(** [pipealloc]: the pipe takes its bytes from the page as the allocator left it. *)
Definition page_bytes (p n : Z) : K (list Z) :=
  gets (fun s => (fun k => rd8 (k_mem (ks_kst s)) (p + k)) <$> seqZ 0 n).
Definition pipealloc_bad (f0 f1 : Z) : K (option (Z * Z)) :=
  when (f0 !=? NULL) (on_file_ (File.fileclose f0)) ;;
  when (f1 !=? NULL) (on_file_ (File.fileclose f1)) ;;
  mret None.
Definition pipe_file (p : Z) (wr : bool) (f : file) : file :=
  File FD_PIPE (fl_ref f) (b2z (negb wr)) (b2z wr) p (fl_ip f) (fl_off f).
Definition pipealloc : K (option (Z * Z)) :=
  f0 ← on_file_ File.filealloc;
  if f0 =? NULL then pipealloc_bad NULL NULL
  else
    f1 ← on_file_ File.filealloc;
    if f1 =? NULL then pipealloc_bad f0 NULL
    else
      p ← on_k kalloc;
      if p =? 0 then pipealloc_bad f0 f1
      else
        data ← page_bytes (p + pipe_data_off) PIPESIZE;
        on_file_
          (modify (fun s => Flst (fs_of s) (fs_files s) (<[p := pipe_init (Pipe data 0 0 0 0)]> (fs_pipes s)) (fs_pwakes s) (fs_killed s)) ;;
           fset f0 (pipe_file p false) ;;
           fset f1 (pipe_file p true)) ;;
        mret (Some (f0, f1)).

Definition sys_pipe : K sres :=
  with_ptr 0 8 (fun fd =>
    r ← pipealloc;
    match r with
    | None => mret (SRet (-1))
    | Some (rf, wf) =>
        fd0 ← fdalloc rf;
        fd1 ← (if fd0 <? 0 then mret (-1) else fdalloc wf);
        if fd1 <? 0 then
          me ← myproc;
          when (fd0 >=? 0) (pset me (with_ofile fd0 NULL)) ;;
          on_file_ (File.fileclose rf) ;;
          on_file_ (File.fileclose wf) ;;
          mret (SRet (-1))
        else
          user_store fd (word_bytes fd0) ;;
          user_store (u32 (fd + 4)) (word_bytes fd1) ;;
          mret (SRet 0)
    end).

(** The rest of the table [syscalls]. *)
Definition file_call (num : Z) : K sres :=
  if num =? SYS_pipe then sys_pipe else if num =? SYS_read then sys_read
  else if num =? SYS_exec then sys_exec else if num =? SYS_fstat then sys_fstat
  else if num =? SYS_chdir then sys_chdir else if num =? SYS_dup then sys_dup
  else if num =? SYS_open then sys_open else if num =? SYS_write then sys_write
  else if num =? SYS_mknod then sys_mknod else if num =? SYS_unlink then sys_unlink
  else if num =? SYS_link then sys_link else if num =? SYS_mkdir then sys_mkdir
  else if num =? SYS_close then sys_close else undef "null handler".
End sysfile.
