(* ===== verification/SysFileTheorems.v ===== *)
(** * System calls on files (theorems on [sysfile.c] and [exec.c])

    The handlers keep the process table, so that every trap of the kernel does;
    a call that fails leaves the process's image and descriptors as they were;
    which directories count as empty. *)
From S2P Require Import Prelude Layout Memory Locks Sleeplock Kalloc Vm VmSpec VmUser VmTheorems Pipe Blocks BlockMem Log Fs FsSpec FsAlloc FsNames FsData FsDir ProcData Mmap MmapTheorems Proc ProcSched ProcLife ProcSteps ProcTheorems Syscall Trap TrapTheorems File Exec ExecImage SysFile.

(** ** Code that leaves the process table alone *)
Section keeps.
Context {F : Type}.

Lemma kc_user_store va l : keeps_core (F := F) (user_store va l).
Proof.
  revert va. induction l as [|b l IH]; intros va; cbn [user_store]; [kc|].
  apply kc_bind; [unfold user_put; kc|]. intros _. apply IH.
Qed.
Lemma kc_user_load va n : keeps_core (F := F) (user_load va n).
Proof.
  revert va. induction n as [|n IH]; intros va; cbn [user_load]; [kc|].
  apply kc_bind; [apply kc_user_byte|]. intros b. apply kc_bind; [apply IH|]. intros l. kc.
Qed.
Lemma kc_loop {X R} fuel (body : X -> M (kstate F) (X + R)) x :
  (forall x, keeps_core (body x)) -> keeps_core (loop fuel body x).
Proof. intros Hb c. apply pres_loop. intros y. apply Hb. Qed.
Lemma kc_fetchstr addr : keeps_core (F := F) (fetchstr addr).
Proof.
  unfold fetchstr. apply kc_bind; [apply kc_curproc|]. intros p. destruct (_ >=? _); [kc|].
  apply kc_loop. intros x. unfold fetchstr_body. destruct (negb _); [kc|]. apply kc_bind; [apply kc_user_byte|]. intros b. kc.
Qed.
Lemma kc_argstr n : keeps_core (F := F) (argstr n).
Proof. unfold argstr. apply kc_bind; [apply kc_argint|]. intros [a|]; [apply kc_fetchstr|kc]. Qed.
Lemma kc_argpath n : keeps_core (F := F) (argpath n).
Proof.
  unfold argpath. apply kc_bind; [apply kc_argstr|]. intros [[pp len]|]; [|kc].
  apply kc_bind; [apply kc_user_load|]. intros l. kc.
Qed.
Lemma kc_argptr n size : keeps_core (F := F) (argptr n size).
Proof. unfold argptr. apply kc_bind; [apply kc_curproc|]. intros p. apply kc_bind; [apply kc_argint|]. intros a. kc. Qed.
Lemma kc_argfd n : keeps_core (F := F) (argfd n).
Proof.
  unfold argfd. apply kc_bind; [apply kc_argint|]. intros [fd|]; [|kc]. destruct (_ || _); [kc|].
  apply kc_bind; [apply kc_curproc|]. intros p. kc.
Qed.
End keeps.
#[export] Hint Resolve kc_user_store kc_user_load kc_fetchint kc_fetchstr kc_argint kc_argstr kc_argpath kc_argptr kc_argfd : kc.

Section handlers.
Context {S : Type} `{BlockLayer S} (devs : Z -> devsw S) (junk : list Z) (kend kdata : Z).
Abbreviation K := (M (kstate (flst S))).
Implicit Types s : kstate (flst S).

Lemma kc_fetch_argv n uargv i : keeps_core (fetch_argv (S := S) n uargv i).
Proof.
  revert i. induction n as [|n IH]; intros i; cbn [fetch_argv]; [kc|].
  apply kc_bind; [apply kc_fetchint|]. intros [a|]; [|kc]. destruct (a =? 0); [kc|].
  apply kc_bind; [apply kc_fetchstr|]. intros [[pp len]|]; [|kc].
  apply kc_bind; [apply kc_user_load|]. intros arg. apply kc_bind; [apply IH|]. intros l. kc.
Qed.
Lemma kc_page_bytes p n : keeps_core (page_bytes (S := S) p n).
Proof. apply kc_gets. Qed.
Lemma kc_on_file {A} (m : M (flst S) A) : keeps_core (on_file devs m).
Proof. unfold on_file. kc. Qed.
Lemma kc_store_stat p st : keeps_core (store_stat (S := S) p st).
Proof. unfold store_stat. kc. Qed.
#[local] Hint Resolve kc_fetch_argv kc_page_bytes kc_on_file kc_store_stat : kc.

(** What a continuation may rely on after code that keeps the table. *)
Lemma keep_ok {A} me (m : M (kstate (flst S)) A) (k : A -> M (kstate (flst S)) sres) s :
  keeps_core m -> running me s -> (forall a s', running me s' -> wlp (k a) (sres_ok me) s') ->
  wlp (m ≫= k) (sres_ok me) s.
Proof. intros Hm Hr Hk. apply wlp_bind. eapply wlp_keep; [exact Hm|exact Hr|]. intros a s' H1 _. by apply Hk. Qed.

Lemma ret_run_ok me v s : running me s -> wlp (mret (SRet v)) (sres_ok me) s.
Proof. intros Hr. by apply wlp_ret. Qed.

Lemma pset_ok me f (k : unit -> M (kstate (flst S)) sres) s :
  running me s ->
  (forall p, p_state (f p) = p_state p /\ p_chan (f p) = p_chan p /\ p_pid (f p) = p_pid p /\ p_parent (f p) = p_parent p) ->
  (forall s', running me s' -> wlp (k tt) (sres_ok me) s') -> wlp (pset me f ≫= k) (sres_ok me) s.
Proof.
  intros Hr Hf Hk. through ltac:(apply (pres_pset_same me me f); [apply Hr|exact Hf|exact Hr]).
  intros [] s' H1. by apply Hk.
Qed.

Lemma with_fd_ok me n k s :
  running me s -> (forall fd f s', running me s' -> wlp (k fd f) (sres_ok me) s') -> wlp (with_fd n k) (sres_ok me) s.
Proof. intros Hr Hk. unfold with_fd. apply keep_ok; [kc|done|]. intros [[fd f]|] s1 H1; [by apply Hk|by apply ret_run_ok]. Qed.
Lemma with_ptr_ok me n size k s :
  running me s -> (forall p s', running me s' -> wlp (k p) (sres_ok me) s') -> wlp (with_ptr n size k) (sres_ok me) s.
Proof. intros Hr Hk. unfold with_ptr. apply keep_ok; [kc|done|]. intros [p|] s1 H1; [by apply Hk|by apply ret_run_ok]. Qed.
Lemma with_path_ok me n k s :
  running me s -> (forall p s', running me s' -> wlp (k p) (sres_ok me) s') -> wlp (with_path n k) (sres_ok me) s.
Proof. intros Hr Hk. unfold with_path. apply keep_ok; [kc|done|]. intros [p|] s1 H1; [by apply Hk|by apply ret_run_ok]. Qed.
Lemma with_arg_run_ok me n (k : Z -> K sres) s :
  running me s -> (forall x s', running me s' -> wlp (k x) (sres_ok me) s') -> wlp (with_arg n k) (sres_ok me) s.
Proof. intros Hr Hk. unfold with_arg. apply keep_ok; [kc|done|]. intros [p|] s1 H1; [by apply Hk|by apply ret_run_ok]. Qed.

(** ** Descriptors *)
(** Which descriptor is the least free one of a process. *)
Definition least_free (p : proc) (fd : Z) : Prop :=
  0 <= fd < NOFILE /\ p_ofile p !!! Z.to_nat fd = NULL /\ forall j, 0 <= j < fd -> p_ofile p !!! Z.to_nat j <> NULL.
Definition all_used (p : proc) : Prop := forall j, 0 <= j < NOFILE -> p_ofile p !!! Z.to_nat j <> NULL.

Lemma fd_split i : 0 <= i < NOFILE -> seqZ 0 NOFILE = seqZ 0 i ++ i :: seqZ (i + 1) (NOFILE - i - 1).
Proof.
  intros Hi. transitivity (seqZ 0 (i + (NOFILE - i))); [f_equal; lia|]. rewrite seqZ_app by lia. f_equal.
  rewrite (seqZ_cons (0 + i)) by lia. f_equal; f_equal; lia.
Qed.

Lemma fdalloc_eq f s :
  let me := ks_cur s in let p := proc_at s me in
  me <> NULL ->
  (all_used p /\ fdalloc f s = Done (-1) s)
  \/ exists fd, least_free p fd /\ fdalloc f s = Done fd (upd_proc me (with_ofile fd f) s).
Proof.
  intros me p Hme. unfold fdalloc, myproc. rewrite (bind_Done _ _ s me s) by done.
  set (body := fun fd : Z => _).
  assert (Hb : forall fd, body fd s = if p_ofile p !!! Z.to_nat fd =? NULL
                then Done (Some fd) (upd_proc me (with_ofile fd f) s) else Done None s).
  { intros fd. unfold body. rewrite (bind_Done _ _ _ _ _ (pget_eq me s Hme)). fold p.
    destruct (_ =? NULL); [|done]. unfold pset. by rewrite (proj2 (Z.eqb_neq _ _) Hme). }
  destruct (first_index (fun fd => p_ofile p !!! Z.to_nat fd = NULL) NOFILE) as [(fd & Hfd & E & Hbefore)|Hno].
  - right. exists fd. split; [done|]. rewrite (fd_split fd Hfd).
    rewrite (bind_Done _ _ _ (Some fd) (upd_proc me (with_ofile fd f) s)); [done|].
    apply for_ret_at.
    + intros j Hj%elem_of_seqZ. rewrite Hb. rewrite (proj2 (Z.eqb_neq _ _)); [done|]. apply Hbefore. lia.
    + rewrite Hb, E. done.
  - left. split; [exact Hno|]. rewrite (bind_Done _ _ s None s); [done|]. apply for_ret_none.
    intros j Hj%elem_of_seqZ. rewrite Hb. rewrite (proj2 (Z.eqb_neq _ _)); [done|]. apply Hno. lia.
Qed.

Lemma fdalloc_ok me f (k : Z -> K sres) s :
  running me s -> (forall fd s', running me s' -> wlp (k fd) (sres_ok me) s') -> wlp (fdalloc f ≫= k) (sres_ok me) s.
Proof.
  intros Hr Hk. apply wlp_bind. unfold wlp. pose proof (rn_cur _ _ Hr) as Hc.
  assert (Hme : ks_cur s <> NULL) by (pose proof (rn_me _ _ Hr); unfold NULL; lia).
  destruct (fdalloc_eq f s Hme) as [[_ ->]|(fd & _ & ->)].
  - by apply Hk.
  - apply Hk. rewrite Hc. apply running_same; [done|apply Hr|done].
Qed.

(** ** [exec] *)
Lemma kc_copyout pgdir va buf : keeps_core (F := flst S) (on_k (copyout_bytes pgdir va buf)).
Proof. apply kc_on_k. Qed.
Lemma kc_loaduvm pgdir addr ip offset sz : keeps_core (loaduvm devs pgdir addr ip offset sz).
Proof.
  unfold loaduvm. destruct (_ !=? 0); [kc|]. apply kc_loop. intros i. unfold loaduvm_body, readi_k. kc.
Qed.
Lemma kc_load_segments n pgdir ip off sz : keeps_core (load_segments devs kend n pgdir ip off sz).
Proof.
  revert off sz. induction n as [|n IH]; intros off sz; cbn [load_segments]; [kc|].
  apply kc_bind; [unfold readi_k; kc|]. intros [r b]. destruct (_ !=? _); [kc|]. cbn zeta.
  destruct (_ !=? _); [apply IH|]. destruct (_ <? _); [kc|]. destruct (_ <? _); [kc|].
  apply kc_bind; [kc|]. intros sz'. destruct (_ =? 0); [kc|]. destruct (_ !=? 0); [kc|].
  apply kc_bind; [apply kc_loaduvm|]. intros r'. destruct (_ <? 0); [kc|apply IH].
Qed.
Lemma kc_push_args pgdir argv argc sp l : keeps_core (push_args (S := S) pgdir argv argc sp l).
Proof.
  revert argc sp l. induction argv as [|a argv IH]; intros argc sp l; cbn [push_args]; [kc|].
  destruct (_ >=? _); [kc|]. cbn zeta. apply kc_bind; [kc|]. intros r. destruct (_ <? 0); [kc|apply IH].
Qed.
Lemma kc_exec_stack pgdir sz argv : keeps_core (exec_stack (S := S) kend pgdir sz argv).
Proof.
  unfold exec_stack. cbn zeta. apply kc_bind; [kc|]. intros sz'. destruct (_ =? 0); [kc|].
  apply kc_bind; [kc|]. intros _. apply kc_bind; [apply kc_push_args|]. intros [[sp strs]|]; kc.
Qed.
Lemma kc_exec_bad pgdir ip : keeps_core (exec_bad devs kend pgdir ip).
Proof. unfold exec_bad. kc. Qed.

(** The process table after a successful [exec]. *)
Definition new_image (me sz pgdir : Z) (path : list Z) (l : list proc) : list proc :=
  alter (fun p => with_mem sz pgdir (with_name (take 15 (last_elem path path)) p)) (Z.to_nat me) l.
(** What [exec] comes to: nothing, or the whole of a new image for the process. *)
Definition exec_outcome (path : list Z) (argv : list (list Z)) s (r : Z) s' : Prop :=
  let old := proc_at s (ks_cur s) in
  (r = -1 /\ core s' = core s)
  \/ (r = 0 /\ exists entry sz pgdir sp s1,
      image_built devs kend kdata path argv entry pgdir sz sp s s1
      /\ image_entered kend (p_tf old) (p_pgdir old) entry sp s1 s'
      /\ ks_proc s' = new_image (ks_cur s) sz pgdir path (ks_proc s)
      /\ ks_cur s' = ks_cur s /\ ks_initproc s' = ks_initproc s /\ ks_nextpid s' = ks_nextpid s
      /\ ks_cr3 s' = V2P pgdir).

Lemma wlp_core_eq {A} (m : M (kstate (flst S)) A) (Q : A -> kstate (flst S) -> Prop) s :
  keeps_core m -> (forall a s', m s = Done a s' -> core s' = core s -> Q a s') -> wlp m Q s.
Proof.
  intros Hm HQ. assert (Hw : wlp m (fun _ s' => core s' = core s) s) by by apply wlp_core.
  unfold wlp in *. destruct (m s); try done. by apply HQ.
Qed.

Lemma exec_bad_outcome path argv s s0 pgdir ip :
  core s = core s0 -> wlp (exec_bad devs kend pgdir ip) (exec_outcome path argv s0) s.
Proof.
  intros E. unfold exec_bad. apply wlp_bind, wlp_core; [kc|]. intros _ s1 E1.
  apply wlp_bind, wlp_core; [kc|]. intros _ s2 E2. apply wlp_ret. left. split; [done|congruence].
Qed.

Lemma proc_at_core s s' i : core s' = core s -> proc_at s' i = proc_at s i.
Proof. unfold core, proc_at. by intros [= -> _ _ _]. Qed.

(** [p->tf->field = v] of the process at [me]. *)
Lemma wlp_tf_store me off v (Q : unit -> kstate (flst S) -> Prop) s :
  (forall s', core s' = core s -> ks_cr3 s' = ks_cr3 s ->
     k_mem (ks_kst s') = wr32 (p_tf (proc_at s me) + off) v (k_mem (ks_kst s)) -> Q tt s') ->
  wlp (tf_store me off v) Q s.
Proof. intros HQ. unfold tf_store. apply wlp_bind, wlp_pget. intros _. by apply HQ. Qed.

Lemma exec_commit_outcome path elf pgdir sz sp s s0 :
  let old := proc_at s0 (ks_cur s0) in
  core s = core s0 -> 0 <= ks_cur s0 < Z.of_nat (length (ks_proc s0)) ->
  wlp (exec_commit kend path elf pgdir sz sp) (fun r s' => r = 0
      /\ image_entered kend (p_tf old) (p_pgdir old) (elf_entry elf) sp s s'
      /\ ks_proc s' = new_image (ks_cur s0) sz pgdir path (ks_proc s0)
      /\ ks_cur s' = ks_cur s0 /\ ks_initproc s' = ks_initproc s0 /\ ks_nextpid s' = ks_nextpid s0
      /\ ks_cr3 s' = V2P pgdir) s.
Proof.
  intros old E Hc. unfold exec_commit, myproc. apply wlp_bind, wlp_gets.
  assert (Ec : ks_cur s = ks_cur s0) by (injection E; done). rewrite Ec. set (me := ks_cur s0) in *.
  assert (Hold : ks_proc s !! Z.to_nat me = Some old).
  { injection E as P _ _ _. rewrite P. apply list_lookup_lookup_total_lt. lia. }
  assert (Hat : forall f, proc_at (upd_proc me f s) me = f old).
  { intros f. unfold proc_at. cbn. apply list_lookup_total_correct. by rewrite list_lookup_alter_eq, Hold. }
  apply wlp_bind, wlp_pset. intros Hme. apply wlp_bind, wlp_pget. intros _. rewrite Hat.
  apply wlp_bind, wlp_pset. intros _. rewrite upd_proc_compose. set (s1 := upd_proc me _ s).
  apply wlp_bind, wlp_tf_store. intros s2 E2 _ M2. apply wlp_bind, wlp_tf_store. intros s3 E3 _ M3.
  rewrite E2 in E3. assert (Hat2 : forall s', core s' = core s1 -> proc_at s' me = proc_at s1 me) by (intros; by apply proc_at_core).
  apply wlp_bind. unfold switchuvm. rewrite (proj2 (Z.eqb_neq _ _) Hme).
  apply wlp_bind, wlp_pget. intros _. destruct (_ =? 0); [done|]. destruct (_ =? 0); [done|]. apply wlp_modify.
  apply wlp_bind_eq. intros [] s4 E4'. assert (E4 : core s4 = core (set_cr3 (V2P (p_pgdir (proc_at s3 me))) s3) /\ ks_cr3 s4 = V2P (p_pgdir (proc_at s3 me))).
  { revert E4'. unfold on_k, zoom. destruct (freevm _ _ _); try done. by intros [= _ <-]. }
  destruct E4 as [E4 Ecr]. apply wlp_ret. split; [done|]. split.
  { exists (set_cr3 (V2P (p_pgdir (proc_at s3 me))) s3). split; [|exact E4'].
    change (k_mem (ks_kst s3) = wr32 (p_tf old + tf_esp) sp (wr32 (p_tf old + tf_eip) (elf_entry elf) (k_mem (ks_kst s)))).
    rewrite M3, M2, (Hat2 s2 E2). unfold s1. rewrite Hat. done. }
  pose proof (Hat2 s3 E3) as H3. injection E4 as P4 C4 I4 N4. injection E3 as P3 C3 I3 N3. injection E as P C I N.
  rewrite P4, C4, I4, N4, Ecr. cbn. rewrite P3, C3, I3, N3. unfold s1. cbn. rewrite P.
  split_and!; try congruence.
  - done.
  - f_equal. rewrite H3. unfold s1. by rewrite Hat.
Qed.

Lemma exec_outcome_ok path argv s :
  0 <= ks_cur s < Z.of_nat (length (ks_proc s)) ->
  wlp (exec devs kend kdata path argv) (exec_outcome path argv s) s.
Proof.
  intros Hc. unfold exec. apply wlp_bind, wlp_core_eq; [kc|]. intros [] s1 Q1 E1.
  apply wlp_bind, wlp_core_eq; [kc|]. intros ip s2 Q2 E2. destruct (Z.eqb_spec ip NULL) as [Hip|Hip].
  { apply wlp_bind, wlp_core; [kc|]. intros _ s3 E3. apply wlp_bind, wlp_core; [kc|]. intros _ s4 E4.
    apply wlp_ret. left. split; [done|congruence]. }
  apply wlp_bind, wlp_core_eq; [kc|]. intros [] s3 Q3 E3. apply wlp_bind, wlp_core_eq; [unfold readi_k; kc|].
  intros [r b] s4 Q4 E4. cbn zeta. destruct (Z.eqb_spec (u32 r) sizeof_elfhdr) as [Hr|_]; cbn [negb]; [|apply exec_bad_outcome; congruence].
  destruct (Z.eqb_spec (elf_magic (load_elfhdr b)) ELF_MAGIC) as [Hm|_]; cbn [negb]; [|apply exec_bad_outcome; congruence].
  apply wlp_bind, wlp_core_eq; [kc|]. intros pgdir s5 Q5 E5. destruct (Z.eqb_spec pgdir 0) as [|Hpg]; [apply exec_bad_outcome; congruence|].
  apply wlp_bind, wlp_core_eq; [apply kc_load_segments|]. intros [sz|] s6 Q6 E6; [|apply exec_bad_outcome; congruence].
  apply wlp_bind, wlp_core_eq; [kc|]. intros [] s7 Q7 E7.
  apply wlp_bind, wlp_core_eq; [apply kc_exec_stack|]. intros [[sz' sp]|] s8 Q8 E8; [|apply exec_bad_outcome; congruence].
  pose proof (wlp_Done _ _ _ _ _ (load_segments_loaded devs kend _ pgdir ip _ 0 s5) Q6) as Hseg. cbn beta iota in Hseg.
  pose proof (wlp_Done _ _ _ _ _ (exec_stack_built kend pgdir sz argv s7) Q8) as Hstk. cbn beta iota in Hstk.
  eapply wlp_mono; [apply (exec_commit_outcome path (load_elfhdr b) pgdir sz' sp s8 s); [congruence|done]|].
  intros r' s' (-> & Hent & Ht). right. split; [done|]. exists (elf_entry (load_elfhdr b)), sz', pgdir, sp, s8.
  split; [|split; [exact Hent|exact Ht]].
  exists ip, b, sz, s1, s2, s3, s4, s5, s6, s7. split_and!; try done. by exists r.
Qed.

Lemma exec_run_ok me path argv s : running me s -> wlp (exec devs kend kdata path argv) (fun _ => running me) s.
Proof.
  intros Hr. pose proof (rn_cur _ _ Hr) as Hc. pose proof (rn_me _ _ Hr) as Hm.
  pose proof (lookup_lt_Some _ _ _ (proc_at_Some s me (rn_life _ _ Hr) Hm)) as Hl.
  eapply wlp_mono; [apply exec_outcome_ok; rewrite Hc; lia|]. intros r s' [[_ E]|(_ & en & sz & pgdir & sp & s1 & _ & _ & P & C & I & N & _)].
  - by eapply running_core.
  - set (f := fun p => with_mem sz pgdir (with_name (take 15 (last_elem path path)) p)).
    apply (running_core me (upd_proc me f s)); [|apply running_same; [done|lia|done]].
    rewrite core_upd. unfold core. by rewrite P, C, I, N, Hc.
Qed.

(** ** Every handler leaves its caller on the CPU *)
Lemma ret_file_ok me m s : running me s -> wlp (ret (on_file_ devs m)) (sres_ok me) s.
Proof. intros Hr. apply ret_keep_ok; [unfold on_file_; kc|done]. Qed.
Lemma end_fail_ok me s : running me s -> wlp (end_fail devs) (sres_ok me) s.
Proof. intros Hr. unfold end_fail. apply keep_ok; [unfold on_file_; kc|done|]. intros _ s1 H1. by apply ret_run_ok. Qed.
Lemma open_fail_ok me ip s : running me s -> wlp (open_fail devs ip) (sres_ok me) s.
Proof. intros Hr. unfold open_fail. apply keep_ok; [unfold on_file_; kc|done|]. intros _ s1 H1. by apply ret_run_ok. Qed.
Lemma make_node_ok me path type major minor s : running me s -> wlp (make_node devs junk path type major minor) (sres_ok me) s.
Proof.
  intros Hr. unfold make_node. apply keep_ok; [unfold on_file_; kc|done|]. intros ip s1 H1.
  destruct (_ =? NULL); [by apply end_fail_ok|]. apply keep_ok; [unfold on_file_; kc|done|].
  intros _ s2 H2. by apply ret_run_ok.
Qed.
Lemma kc_pipealloc_bad f0 f1 : keeps_core (pipealloc_bad devs f0 f1).
Proof. unfold pipealloc_bad, on_file_. kc. Qed.
Lemma kc_pipealloc : keeps_core (pipealloc devs).
Proof.
  assert (forall f0 f1, keeps_core (pipealloc_bad devs f0 f1)) by apply kc_pipealloc_bad.
  unfold pipealloc, on_file_. kc.
Qed.

(** One command of a handler. *)
Ltac handler_step :=
  match goal with
  | |- wlp (mret (SRet _)) _ _ => apply ret_run_ok; assumption
  | |- wlp (with_fd _ _) _ _ => apply with_fd_ok; [assumption|intros ? ? ? ?]
  | |- wlp (with_ptr _ _ _) _ _ => apply with_ptr_ok; [assumption|intros ? ? ?]
  | |- wlp (with_path _ _) _ _ => apply with_path_ok; [assumption|intros ? ? ?]
  | |- wlp (with_arg _ _) _ _ => apply with_arg_run_ok; [assumption|intros ? ? ?]
  | |- wlp (fdalloc _ ≫= _) _ _ => apply fdalloc_ok; [assumption|intros ? ? ?]
  | |- wlp (end_fail _) _ _ => apply end_fail_ok; assumption
  | |- wlp (open_fail _ _) _ _ => apply open_fail_ok; assumption
  | |- wlp (make_node _ _ _ _ _ _) _ _ => apply make_node_ok; assumption
  | |- wlp (ret (on_file_ _ _)) _ _ => apply ret_file_ok; assumption
  | H : running ?me ?s |- wlp (myproc ≫= _) _ ?s => apply wlp_bind, wlp_gets; rewrite (rn_cur _ _ H)
  | |- wlp (pset _ _ ≫= _) _ _ => apply pset_ok; [assumption|done|intros ? ?]
  | |- wlp (if ?b then _ else _) _ _ => destruct b
  | |- wlp (match ?x with _ => _ end) _ _ => destruct x
  | |- wlp (_ ≫= _) _ _ => apply keep_ok; [unfold on_file_; kc|assumption|intros ? ? ?]; cbn beta
  end.
Ltac handler := repeat handler_step.

Lemma sys_exec_ok me s : running me s -> wlp (sys_exec devs kend kdata) (sres_ok me) s.
Proof. intros Hr. unfold sys_exec. handler. apply ret_ok. by apply exec_run_ok. Qed.

Lemma sys_pipe_ok me s : running me s -> wlp (sys_pipe devs) (sres_ok me) s.
Proof.
  intros Hr. unfold sys_pipe. apply with_ptr_ok; [done|]. intros p s1 H1. apply keep_ok; [apply kc_pipealloc|done|].
  intros [[rf wf]|] s2 H2; [|by apply ret_run_ok]. apply fdalloc_ok; [done|]. intros fd0 s3 H3.
  assert (Hrest : forall fd1 s', running me s' ->
    wlp (if fd1 <? 0 then
           me ← myproc;
           when (fd0 >=? 0) (pset me (with_ofile fd0 NULL)) ;;
           on_file_ devs (File.fileclose rf) ;; on_file_ devs (File.fileclose wf) ;; mret (SRet (-1))
         else user_store p (word_bytes fd0) ;; user_store (u32 (p + 4)) (word_bytes fd1) ;; mret (SRet 0)) (sres_ok me) s').
  { intros fd1 s' H'. destruct (_ <? 0); [|handler]. handler_step.
    through ltac:(apply wlp_when; [intros _; apply (pres_pset_same me me); [apply H'|done|exact H']|intros _; exact H']).
    intros _ s4 H4. handler. }
  destruct (fd0 <? 0); [apply wlp_bind, wlp_ret; by apply Hrest|by apply fdalloc_ok].
Qed.

Lemma file_call_ok me num s : running me s -> wlp (file_call devs junk kend kdata num) (sres_ok me) s.
Proof.
  intros Hr. unfold file_call.
  destruct (num =? SYS_pipe); [by apply sys_pipe_ok|].
  destruct (num =? SYS_read); [unfold sys_read; handler|].
  destruct (num =? SYS_exec); [by apply sys_exec_ok|].
  destruct (num =? SYS_fstat); [unfold sys_fstat; handler|].
  destruct (num =? SYS_chdir); [unfold sys_chdir; handler|].
  destruct (num =? SYS_dup); [unfold sys_dup; handler|].
  destruct (num =? SYS_open); [unfold sys_open; handler|].
  destruct (num =? SYS_write); [unfold sys_write; handler|].
  destruct (num =? SYS_mknod); [unfold sys_mknod; handler|].
  destruct (num =? SYS_unlink); [unfold sys_unlink; handler|].
  destruct (num =? SYS_link); [unfold sys_link; handler|].
  destruct (num =? SYS_mkdir); [unfold sys_mkdir; handler|].
  destruct (num =? SYS_close); [unfold sys_close; handler|].
  done.
Qed.

(** ** Failed calls *)
(** The process table with descriptor [fd] of the current process set. *)
Definition with_fd_set (fd f : Z) s : kstate (flst S) := upd_proc (ks_cur s) (with_ofile fd f) s.

Lemma core_fd s s' fd f : core s' = core s -> core (with_fd_set fd f s') = core (with_fd_set fd f s).
Proof. unfold with_fd_set. rewrite !core_upd. unfold core. by intros [= -> -> -> ->]. Qed.

(** [fdalloc] in a state whose table is that of [s]. *)
Lemma wlp_fdalloc f (Q : Z -> kstate (flst S) -> Prop) s s1 :
  core s1 = core s -> ks_cur s <> NULL ->
  (all_used (proc_at s (ks_cur s)) -> Q (-1) s1) ->
  (forall fd s', least_free (proc_at s (ks_cur s)) fd -> core s' = core (with_fd_set fd f s) -> Q fd s') ->
  wlp (fdalloc f) Q s1.
Proof.
  intros E Hme Hno Hyes. assert (Ec : ks_cur s1 = ks_cur s) by (injection E; done).
  unfold wlp. destruct (fdalloc_eq f s1 ltac:(by rewrite Ec)) as [[Ha ->]|(fd & Hfd & ->)].
  - apply Hno. by rewrite <- Ec, <- (proc_at_core s s1) by done.
  - apply Hyes; [by rewrite <- Ec, <- (proc_at_core s s1) by done|]. by apply core_fd.
Qed.

(** A new descriptor, or nothing. *)
Definition one_fd s (r : sres) s' : Prop :=
  (r = SRet (-1) /\ core s' = core s)
  \/ exists fd f, r = SRet fd /\ least_free (proc_at s (ks_cur s)) fd /\ core s' = core (with_fd_set fd f s).
Definition two_fds s (r : sres) s' : Prop :=
  (r = SRet (-1) /\ core s' = core s)
  \/ exists fd0 fd1 f0 f1, r = SRet 0 /\ least_free (proc_at s (ks_cur s)) fd0
      /\ least_free (proc_at (with_fd_set fd0 f0 s) (ks_cur s)) fd1
      /\ core s' = core (with_fd_set fd1 f1 (with_fd_set fd0 f0 s)).

Lemma with_fd_core n k (Q : sres -> kstate (flst S) -> Prop) s :
  (forall s', core s' = core s -> Q (SRet (-1)) s') ->
  (forall fd f s', core s' = core s -> wlp (k fd f) Q s') -> wlp (with_fd n k) Q s.
Proof. intros H0 Hk. unfold with_fd. apply wlp_bind, wlp_core; [kc|]. intros [[fd f]|] s1 E; [by apply Hk|apply wlp_ret; by apply H0]. Qed.
Lemma with_path_core n k (Q : sres -> kstate (flst S) -> Prop) s :
  (forall s', core s' = core s -> Q (SRet (-1)) s') ->
  (forall p s', core s' = core s -> wlp (k p) Q s') -> wlp (with_path n k) Q s.
Proof. intros H0 Hk. unfold with_path. apply wlp_bind, wlp_core; [kc|]. intros [p|] s1 E; [by apply Hk|apply wlp_ret; by apply H0]. Qed.

Lemma sys_dup_outcome s : ks_cur s <> NULL -> wlp (sys_dup devs) (one_fd s) s.
Proof.
  intros Hme. unfold sys_dup. apply with_fd_core; [by left|]. intros _ f s1 E1.
  apply wlp_bind, (wlp_fdalloc f _ s s1 E1 Hme).
  - intros _. apply wlp_ret. by left.
  - intros fd s2 Hfd E2. destruct (Z.ltb_spec fd 0) as [Hlt|_]; [destruct Hfd as ((?&?)&_); lia|].
    apply wlp_bind, wlp_core; [unfold on_file_; kc|]. intros _ s3 E3. apply wlp_ret. right. exists fd, f.
    split_and!; [done|done|congruence].
Qed.

Lemma sys_open_outcome s : ks_cur s <> NULL -> wlp (sys_open devs junk) (one_fd s) s.
Proof.
  intros Hme. unfold sys_open. apply with_path_core; [by left|]. intros path s1 E1.
  unfold with_arg. apply wlp_bind, wlp_core; [kc|]. intros [omode|] s2 E2; [|apply wlp_ret; left; split; [done|congruence]].
  apply wlp_bind, wlp_core; [unfold on_file_; kc|]. intros ip s3 E3.
  destruct (_ =? NULL); [apply wlp_ret; left; split; [done|congruence]|].
  assert (Hfail : forall s', core s' = core s -> wlp (open_fail devs ip) (one_fd s) s').
  { intros s' E'. unfold open_fail. apply wlp_bind, wlp_core; [unfold on_file_; kc|]. intros _ s4 E4.
    apply wlp_ret. left. split; [done|congruence]. }
  apply wlp_bind, wlp_core; [unfold on_file_; kc|]. intros f s4 E4.
  destruct (f =? NULL); [apply Hfail; congruence|].
  apply wlp_bind, (wlp_fdalloc f _ s s4 ltac:(congruence) Hme).
  - intros _. cbn [Z.ltb Z.compare]. apply wlp_bind, wlp_core; [unfold on_file_; kc|]. intros _ s5 E5. apply Hfail. congruence.
  - intros fd s5 Hfd E5. destruct (Z.ltb_spec fd 0) as [Hlt|_]; [destruct Hfd as ((?&?)&_); lia|].
    apply wlp_bind, wlp_core; [unfold on_file_; kc|]. intros _ s6 E6. apply wlp_ret. right. exists fd, f.
    split_and!; [done|done|congruence].
Qed.

(** Taking a descriptor and giving it back. *)
Lemma fd_back s fd f :
  p_ofile (proc_at s (ks_cur s)) !!! Z.to_nat fd = NULL ->
  core (upd_proc (ks_cur s) (with_ofile fd NULL) (with_fd_set fd f s)) = core s.
Proof.
  intros Hf. unfold with_fd_set. rewrite upd_proc_compose, core_upd. unfold core. do 3 f_equal.
  apply list_eq. intros j. destruct (decide (j = Z.to_nat (ks_cur s))) as [->|Hj]; [|by rewrite list_lookup_alter_ne].
  rewrite list_lookup_alter_eq. destruct (ks_proc s !! _) as [p|] eqn:Ep; [|done]. cbn. f_equal.
  assert (E : proc_at s (ks_cur s) = p) by by apply list_lookup_total_correct. rewrite E in Hf.
  destruct p as [sz pgdir kst st pid par tf ctx ch kl ofile cwd nm ni we vh vl ar ap sl].
  unfold with_ofile; cbn in *. f_equal. rewrite list_insert_insert_eq. apply list_insert_id'. intros Hlt.
  apply list_lookup_lookup_total_lt in Hlt. by rewrite Hlt, Hf.
Qed.

(** The end of [sys_pipe] that gives everything back. *)
Lemma pipe_rollback s s1 fd0 rf wf :
  (fd0 < 0 /\ core s1 = core s)
  \/ (0 <= fd0 /\ p_ofile (proc_at s (ks_cur s)) !!! Z.to_nat fd0 = NULL /\ core s1 = core (with_fd_set fd0 rf s)) ->
  wlp (me ← myproc;
       when (fd0 >=? 0) (pset me (with_ofile fd0 NULL)) ;;
       on_file_ devs (File.fileclose rf) ;; on_file_ devs (File.fileclose wf) ;; mret (SRet (-1))) (two_fds s) s1.
Proof.
  intros Hcase. unfold myproc. apply wlp_bind, wlp_gets.
  assert (Ec : ks_cur s1 = ks_cur s) by (by destruct Hcase as [[_ E]|(_ & _ & E)]; injection E).
  assert (Hend : forall s2, core s2 = core s ->
    wlp (on_file_ devs (File.fileclose rf) ;; on_file_ devs (File.fileclose wf) ;; mret (SRet (-1))) (two_fds s) s2).
  { intros s2 E2. apply wlp_bind, wlp_core; [unfold on_file_; kc|]. intros _ s3 E3.
    apply wlp_bind, wlp_core; [unfold on_file_; kc|]. intros _ s4 E4. apply wlp_ret. left. split; [done|congruence]. }
  apply wlp_bind. destruct Hcase as [[Hn E]|(Hp & Hf & E)].
  - replace (fd0 >=? 0) with false by lia. apply wlp_ret. by apply Hend.
  - replace (fd0 >=? 0) with true by lia. apply wlp_pset. intros _. apply Hend. rewrite Ec.
    rewrite <- (fd_back s fd0 rf Hf). rewrite !core_upd. unfold core in E. injection E as -> -> -> ->. done.
Qed.

Lemma sys_pipe_outcome s : ks_cur s <> NULL -> wlp (sys_pipe devs) (two_fds s) s.
Proof.
  intros Hme. unfold sys_pipe, with_ptr. apply wlp_bind, wlp_core; [kc|].
  intros [p|] s1 E1; [|apply wlp_ret; by left]. apply wlp_bind, wlp_core; [apply kc_pipealloc|].
  intros [[rf wf]|] s2 E2; [|apply wlp_ret; left; split; [done|congruence]].
  apply wlp_bind, (wlp_fdalloc rf _ s s2 ltac:(congruence) Hme).
  - intros _. cbn [Z.ltb Z.compare]. apply wlp_bind, wlp_ret. cbn [Z.ltb Z.compare].
    apply pipe_rollback. left. split; [lia|congruence].
  - intros fd0 s3 Hfd0 E3. pose proof Hfd0 as ((H1 & H2) & H3 & H4).
    destruct (Z.ltb_spec fd0 0) as [Hlt|_]; [lia|].
    apply wlp_bind, (wlp_fdalloc wf _ (with_fd_set fd0 rf s) s3 E3 Hme).
    + intros _. cbn [Z.ltb Z.compare]. apply pipe_rollback. right. done.
    + intros fd1 s4 Hfd1 E4. destruct (Z.ltb_spec fd1 0) as [Hlt|_]; [destruct Hfd1 as ((?&?)&_); lia|].
      apply wlp_bind, wlp_core; [kc|]. intros _ s5 E5. apply wlp_bind, wlp_core; [kc|]. intros _ s6 E6.
      apply wlp_ret. right. exists fd0, fd1, rf, wf. split_and!; [done|done|done|congruence].
Qed.


(** (C32) [exec] replaces the whole image or none of it.  When it returns -1,
    from whichever of its failures, the process table is unchanged - size, page
    table, name and all, the wake-ups inside the file layer apart.  It returns 0 only when every step has succeeded
    ([image_built]): the ELF header and each program header read in full and
    accepted, the address space grown to the end of each segment and all pages of
    its file part loaded with bytes read in full, the stack and the arguments
    copied out.  Then exactly the size, the page table and the name of the calling
    process have changed (the name is the last part of the path cut to 15 bytes),
    the trap frame has the entry point of the header and the new stack pointer,
    the CPU runs on the new page table and the old address space has been freed.
    The pages of a loaded segment are in memory: through the page table the user
    finds the bytes of the file at its addresses. *)
Theorem exec_all_or_nothing path argv s :
  (0 <= ks_cur s < Z.of_nat (length (ks_proc s)) ->
   wlp (exec devs kend kdata path argv) (exec_outcome path argv s) s)
  /\ forall pgdir l addr ip offset sz bs s1 s2,
       pages_loaded devs pgdir addr ip offset sz 0 bs s1 s2 ->
       0 <= addr -> addr `mod` PGSIZE = 0 -> addr + sz <= KERNBASE ->
       uspace kend pgdir l (k_mem (ks_kst s1)) ->
       (forall va, addr <= va < addr + sz -> present (pt_entry (k_mem (ks_kst s1)) pgdir va)) ->
       Forall (fun b => length b <= 4096)%nat bs ->
       forall k b j, bs !! k = Some b -> (j < length b)%nat ->
         rd8 (k_mem (ks_kst s2)) (VmUser.frame (pt_entry (k_mem (ks_kst s2)) pgdir (addr + PGSIZE * Z.of_nat k)) + Z.of_nat j)
         = u8 (b !!! j).
Proof.
  split; [apply exec_outcome_ok|]. intros pgdir l addr ip offset sz bs s1 s2 Hl H0 Ha Hk Hu Hp Hb k b j Hlk Hj.
  destruct (pages_loaded_bytes devs kend pgdir l addr ip offset sz 0 bs s1 s2 Hl H0 Ha ltac:(lia) eq_refl Hk Hu Hp Hb) as (_ & _ & _ & H1).
  specialize (H1 k b j Hlk Hj). by rewrite Z.add_0_r in H1.
Qed.

#[local] Instance kernel_files : FileLayer (flst S) := files devs.

(** (C<n>) Every trap keeps the invariant of the process table: a system call of
    either half of the table of calls, an interrupt, a page fault or an
    exception, whatever it comes to, leaves the interrupted process RUNNING and
    on the CPU, or has taken it off in a state from which the scheduler may go
    on (the invariant intact, no process RUNNING).  The same holds of the end
    of the trap, run when the process gets the CPU back after a yield.  Of the
    drivers it is asked that their interrupt handlers return to the process. *)
Theorem kernel_trap_keeps_table forkret_addr trapret_addr ideintr kbdintr uartintr cpuid me tf cr2 s :
  (forall me m s, m ∈ [ideintr; kbdintr; uartintr] -> running me s -> wlp m (fun _ => running me) s) ->
  running me s -> ks_nextpid s < 2147483647 ->
  wlp (trap kend kdata forkret_addr trapret_addr (file_call devs junk kend kdata) ideintr kbdintr uartintr cpuid tf cr2)
    (tout_ok me) s
  /\ wlp (trap_resume tf) (tout_ok me) s.
Proof. intros Hdev Hr Hn. apply trap_keeps_table; [|done..]. intros me' num s'. apply file_call_ok. Qed.
End handlers.

(** ** Empty directories *)
Section isdirempty.
Context {S : Type} `{BlockLayer S} (devs : Z -> devsw S).
Implicit Types s : fsst S.

Lemma isdirempty_loop s0 v q dp N n m : forall fuel k s,
  0 <= q -> dir_at s0 v dp N n -> (m < fuel)%nat -> k + Z.of_nat m = n -> 0 <= k -> done_at s0 s v q ->
  exists s', done_at s0 s' v q /\ loop fuel (isdirempty_body devs dp) (16 * k) s =
    Done (forallb (fun e => e.1 =? 0) (entries_from (v_content v) (inode_of s0 dp) k m)) s'.
Proof.
  induction m as [|m IH]; intros fuel k s Hq D Hf Hkm Hk Hd; (destruct fuel as [|fuel]; [lia|]);
    destruct (scan_entry devs s0 s v q dp N n k Hd Hq D ltac:(lia)) as (Ei & Es & Er & Eo);
    cbn [loop].
  - exists s. split; [done|]. rewrite (bind_Done _ _ _ (inr true) s); [done|].
    unfold isdirempty_body. rewrite (bind_Done _ _ _ _ _ Ei), Es. by replace (k <? n) with false by lia.
  - destruct (Er ltac:(lia)) as (s1 & E1 & Hd1). rewrite entries_cons. cbn [forallb].
    unfold entry_at at 1. cbn [fst]. destruct (de_inum _ =? 0) eqn:E0; cbn [andb].
    + destruct (IH fuel (k + 1) s1 Hq D ltac:(lia) ltac:(lia) ltac:(lia) Hd1) as (s' & Hd' & E').
      exists s'. split; [done|]. rewrite (bind_Done _ _ _ (inl (16 * (k + 1))) s1); [exact E'|].
      unfold isdirempty_body. rewrite (bind_Done _ _ _ _ _ Ei), Es. replace (k <? n) with true by lia. cbn [negb].
      rewrite (bind_Done _ _ _ _ _ E1). by rewrite E0, Eo.
    + exists s1. split; [done|]. rewrite (bind_Done _ _ _ (inr false) s1); [done|].
      unfold isdirempty_body. rewrite (bind_Done _ _ _ _ _ Ei), Es. replace (k <? n) with true by lia. cbn [negb].
      rewrite (bind_Done _ _ _ _ _ E1). by rewrite E0.
Qed.

Lemma entries_drop c i m : drop 2 (entries_from c i 0 (2 + m)) = entries_from c i 2 m.
Proof. change (2 + m)%nat with (Datatypes.S (Datatypes.S m)). by rewrite !entries_cons. Qed.

(** [unlink] may remove a directory exactly when it is empty: [isdirempty]
    ends, changes no block, and returns 1 if and only if every entry after the
    first two is free. *)
Theorem isdirempty_exact s v dp N n :
  txn s v 0 -> dir_at s v dp N n ->
  exists s', done_at s s' v 0 /\ isdirempty devs dp s =
    Done (forallb (fun e => e.1 =? 0) (drop 2 (dir_of (v_content v) (inode_of s dp)))) s'.
Proof.
  intros T D. destruct (dir_bounds _ _ _ _ _ D) as [Hn _]. rewrite (dir_of_eq _ _ _ _ _ _ D).
  unfold isdirempty. rewrite (bind_Done _ _ s (inode_of s dp) s) by done.
  pose proof (da_size _ _ _ _ _ D) as Hsz. destruct (decide (n < 2)) as [Hlt|Hge].
  - exists s. split; [by apply done_refl|]. unfold dir_fuel. rewrite drop_ge.
    2: { unfold entries_from. rewrite length_fmap, length_seqZ. lia. }
    rewrite Hsz. unfold sizeof_dirent. replace (Z.to_nat ((16 * n) `div` 16 + 3)) with (Datatypes.S (Z.to_nat ((16 * n) `div` 16 + 2))) by zlia.
    cbn [loop]. rewrite (bind_Done _ _ _ (inr true) s); [done|]. unfold isdirempty_body.
    rewrite (bind_Done _ _ s (inode_of s dp) s) by done. rewrite Hsz. replace (2 * 16 <? 16 * n) with false by lia. reflexivity.
  - destruct (isdirempty_loop s v 0 dp N n (Z.to_nat (n - 2)) (dir_fuel (i_size (inode_of s dp))) 2 s) as (s' & Hd & E);
      [lia|done| |lia|lia|by apply done_refl|].
    { rewrite Hsz. unfold dir_fuel, sizeof_dirent. zlia. }
    exists s'. split; [done|]. change (2 * sizeof_dirent) with (16 * 2). rewrite E.
    replace (Z.to_nat n) with (2 + Z.to_nat (n - 2))%nat by lia. by rewrite entries_drop.
Qed.
End isdirempty.

(** ** Instances: a process that runs in the root directory of [FsDir] with one
    open file, whose first argument is 3 *)
Definition ex_files : flst bmem := Flst ex_dirst (File FD_INODE 1 1 0 0 0 0 :: replicate 99 inhabitant) ∅ [] 0.
Definition ex_mem : mem :=
  wr32 2147508244 3 (wr32 (ex_tf + tf_esp) 16 (wr32 2147504128 24583 (wr32 2147500032 20487 ∅))).
Definition ex_call : kstate (flst bmem) :=
  Kstate [zero_proc; Proc 4096 2147500032 2147504128 RUNNING 2 0 ex_tf 0 Cnone 0 (<[3%nat := 0]> (replicate 16 NULL)) 0 [] 20 1024 0 0 0 0 0]
    0 4 1 16384 false (Kst ex_mem true 2147508224 1 []) ex_files (replicate 64 zero_area) 0 [] [].

(** The result of a run, as a value that evaluates. *)
Definition result {St A} (o : outcome St A) : option A := match o with Done a _ => Some a | _ => None end.
Lemma result_Done {St A} (o : outcome St A) a : result o = Some a -> exists s, o = Done a s.
Proof. destruct o as [b s| | | |]; cbn; try done. intros [= ->]. by exists s. Qed.

Lemma ex_dup : exists s', sys_dup ex_nodev ex_call = Done (SRet 0) s'.
Proof. apply result_Done. vm_compute. reflexivity. Qed.


Lemma ex_exec : exists s', exec ex_nodev 0 0 [120] [] ex_call = Done (-1) s'.
Proof. apply result_Done. vm_compute. reflexivity. Qed.

(** A program of one segment, 8 bytes of which are in the file: its inode, and a
    kernel with an empty page directory and three free pages. *)
Definition ex_elf : list Z :=
  word_bytes ELF_MAGIC ++ replicate 20 0 ++ word_bytes 4 ++ word_bytes 52 ++ replicate 12 0 ++ [1; 0] ++ replicate 6 0
  ++ word_bytes ELF_PROG_LOAD ++ word_bytes 84 ++ word_bytes 0 ++ word_bytes 0 ++ word_bytes 8 ++ word_bytes 12 ++ replicate 8 0
  ++ [11; 22; 33; 44; 55; 66; 77; 88].
Definition ex_elfdisk : gmap Z block := {[ 61 := ex_elf ++ replicate 420 0 ]}.
Definition ex_elfino : inode := Inode 1 2 1 initsleeplock 1 T_FILE 0 0 1 92 (61 :: replicate 12 0).
Definition ex_elffiles : flst bmem :=
  Flst (Fsst (Lgst 2 LOGSIZE 1 0 1 0 (replicate 30 0) (Bmem ex_elfdisk ex_elfdisk ∅ ∅ 70) [] 0 [])
    (Superblock 70 10 16 30 2 32 58) [ex_elfino] 1 0) (replicate 100 inhabitant) ∅ [] 0.
Definition ex_elfst : kstate (flst bmem) :=
  Kstate (ks_proc ex_call) 0 4 1 16384 false (ex_state 3) ex_elffiles (replicate 64 zero_area) 0 [] [].

(** The run of [load_segments] on it: the size, and the bytes at addresses 0 to 8. *)
Lemma ex_load : exists s',
  load_segments ex_nodev ex_end 1 ex_dir 0 52 0 ex_elfst = Done (Some 12) s'
  /\ (let m := k_mem (ks_kst s') in
      (fun x => rd8 m (VmUser.frame (pt_entry m ex_dir 0) + x)) <$> seqZ 0 9 = [11; 22; 33; 44; 55; 66; 77; 88; 0]).
Proof.
  assert (E : match load_segments ex_nodev ex_end 1 ex_dir 0 52 0 ex_elfst with
    | Done r s' => r = Some 12 /\ (let m := k_mem (ks_kst s') in
        (fun x => rd8 m (VmUser.frame (pt_entry m ex_dir 0) + x)) <$> seqZ 0 9 = [11; 22; 33; 44; 55; 66; 77; 88; 0])
    | _ => False
    end) by (vm_compute; done).
  destruct (load_segments _ _ _ _ _ _ _ _) as [r s'| | | |]; try done. destruct E as [-> E]. by exists s'.
Qed.

(** A run that fails and changes nothing; a segment that is loaded. *)
Lemma exec_all_or_nothing_witness :
  (exists s', exec ex_nodev 0 0 [120] [] ex_call = Done (-1) s' /\ exec_outcome ex_nodev 0 0 [120] [] ex_call (-1) s')
  /\ exists s', segments_loaded ex_nodev ex_end ex_dir 0 1 52 0 12 ex_elfst s'.
Proof.
  split.
  - destruct ex_exec as [s' E]. exists s'. split; [exact E|].
    refine (wlp_Done _ _ _ _ _ (proj1 (exec_all_or_nothing ex_nodev 0 0 [120] [] ex_call) _) E). cbn. lia.
  - destruct ex_load as (s' & E & _). exists s'.
    exact (wlp_Done _ _ _ _ _ (load_segments_loaded ex_nodev ex_end 1 ex_dir 0 52 0 ex_elfst) E).
Defined.

Definition ex_clock : kstate (flst bmem) :=
  Kstate (ks_proc ex_life) 0 4 1 0 false (Kst (wr32 (ex_tf + tf_trapno) 32 ∅) true 2147508224 1 []) ex_files
    (replicate 64 zero_area) 0 [] [].

Lemma ex_clock_running : running 1 ex_clock.
Proof. destruct ex_tick_running as [H1 H2 H3 H4]. split; [exact H1|reflexivity|exact H3|exact H4]. Qed.

#[local] Instance ex_layer : FileLayer (flst bmem) := files ex_nodev.
Abbreviation ex_trap_run :=
  (trap 0 0 0 0 (file_call ex_nodev [] 0 0) (mret tt) (mret tt) (mret tt) 0 ex_tf 0 ex_clock).

Lemma ex_clock_yields : exists s', ex_trap_run = Done TYield s'.
Proof. apply result_Done. vm_compute. reflexivity. Qed.

Lemma kernel_trap_keeps_table_witness :
  exists s', ex_trap_run = Done TYield s' /\ switched s'.
Proof.
  destruct ex_clock_yields as [s' E]. exists s'. split; [exact E|].
  refine (wlp_Done _ _ _ _ _ (proj1 (kernel_trap_keeps_table ex_nodev [] 0 0 0 0 (mret tt) (mret tt) (mret tt) 0 1 ex_tf 0 ex_clock _ ex_clock_running eq_refl)) E).
  intros me m s Hm Hr. apply list_elem_of_In in Hm as [<-|[<-|[<-|[]]]]; by apply wlp_ret.
Defined.

Lemma isdirempty_exact_witness :
  exists s', done_at ex_dirst s' ex_dview 0 /\ isdirempty ex_nodev 0 ex_dirst = Done true s'.
Proof.
  destruct (isdirempty_exact ex_nodev ex_dirst ex_dview 0 1 3 (ex_dtxn 0 ltac:(lia)) ex_dir_at) as (s' & Hd & E).
  exists s'. split; [exact Hd|]. rewrite E. change (inode_of ex_dirst 0) with ex_dino. rewrite ex_dir_list. reflexivity.
Defined.
