(* ===== verification/Digits.v ===== *)
(** * Numbers as text ([printint] of [printf.c] and of [console.c])

    Both [printint] functions build the digits of a number least significant
    first in a buffer and print the buffer backwards; they differ in the alphabet
    and in what they print after the digits.  The part they share is here, with
    the positional value of a string of digits. *)
From S2P Require Import Prelude.

Definition MINUS : Z := 45.
Definition BUFSZ : Z := 16.

(** [do { buf[i++] = digits[x % base]; } while((x /= base) != 0);] the bytes stored
    in [buf], in the order of their indexes. *)
Fixpoint digit_loop (fuel : nat) (digits : list Z) (base x : Z) : list Z :=
  match fuel with
  | O => []
  | S n => nth (Z.to_nat (x `mod` base)) digits 0 ::
           (if x `div` base =? 0 then [] else digit_loop n digits base (x `div` base))
  end.

(** The contents of [buf] before the printing loop, for the word [xx]. *)
Definition int_buf (digits : list Z) (xx base : Z) (sgn : bool) : list Z :=
  let neg := sgn && (i32 xx <? 0) in
  let x := if neg then u32 (- i32 xx) else u32 xx in
  digit_loop 32 digits base x ++ (if neg then [MINUS] else []).

(** The alphabets of the two functions. *)
Definition digits_upper : list Z := [48; 49; 50; 51; 52; 53; 54; 55; 56; 57; 65; 66; 67; 68; 69; 70].
Definition digits_lower : list Z := [48; 49; 50; 51; 52; 53; 54; 55; 56; 57; 97; 98; 99; 100; 101; 102].

(** ** What a string of digits means *)
Definition digit_value (c : Z) : Z := if c <? 58 then c - 48 else if c <? 91 then c - 55 else c - 87.
Definition value (base : Z) (l : list Z) : Z := foldl (fun n c => n * base + digit_value c) 0 l.

Lemma value_snoc base l c : value base (l ++ [c]) = value base l * base + digit_value c.
Proof. unfold value. by rewrite foldl_app. Qed.

(** The decimal digits. *)
Definition isdigit (c : Z) : Prop := 48 <= c <= 57.
Lemma digit_char_value c : isdigit c -> digit_value c = c - 48.
Proof. unfold isdigit, digit_value. intros Hc. by rewrite (proj2 (Z.ltb_lt c 58)) by lia. Qed.
Lemma foldl_digits_ge l n : 0 <= n -> Forall isdigit l -> n <= foldl (fun n c => n * 10 + digit_value c) n l.
Proof.
  revert n. induction l as [|c l IH]; intros n Hn Hl; cbn [foldl]; [lia|]. apply Forall_cons in Hl as [Hc Hl].
  rewrite digit_char_value by done. unfold isdigit in Hc. etrans; [|apply IH; [lia|done]]. lia.
Qed.

(** An alphabet: sixteen characters that stand for their index, none a minus sign. *)
Definition alphabet (digits : list Z) : Prop :=
  forall d, 0 <= d < 16 -> let c := nth (Z.to_nat d) digits 0 in digit_value c = d /\ 48 <= c < 128 /\ (d < 10 -> c = 48 + d).

Lemma alphabet_check digits :
  forallb (fun d => let c := nth (Z.to_nat d) digits 0 in
    (digit_value c =? d) && (48 <=? c) && (c <? 128) && ((10 <=? d) || (c =? 48 + d))) (seqZ 0 16) = true -> alphabet digits.
Proof.
  intros H d Hd. rewrite forallb_forall in H. specialize (H d).
  rewrite <- list_elem_of_In, elem_of_seqZ in H. specialize (H Hd). cbn zeta in *.
  rewrite !andb_true_iff, orb_true_iff in H. lia.
Qed.
Lemma upper_alphabet : alphabet digits_upper.
Proof. by apply alphabet_check. Qed.
Lemma lower_alphabet : alphabet digits_lower.
Proof. by apply alphabet_check. Qed.
#[export] Hint Resolve upper_alphabet lower_alphabet : core.

Section digits.
Context (digits : list Z) (Hd : alphabet digits) (base : Z) (Hb : 2 <= base <= 16).

Lemma digit_split x : 0 <= x -> x = x `div` base * base + x `mod` base /\ 0 <= x `mod` base < base /\ 0 <= x `div` base.
Proof.
  intros Hx. pose proof (Z.div_mod x base ltac:(lia)). pose proof (Z.mod_pos_bound x base ltac:(lia)).
  pose proof (Z.div_pos x base Hx ltac:(lia)). split_and!; lia.
Qed.
Lemma digit_shrinks x n : 0 <= x < base ^ Z.of_nat (S n) -> 0 <= x `div` base < base ^ Z.of_nat n.
Proof.
  intros Hx. rewrite Nat2Z.inj_succ, Z.pow_succ_r in Hx by lia. split; [apply digit_split; lia|].
  apply Z.div_lt_upper_bound; lia.
Qed.
Lemma digit_shrinks_nonzero x n : 0 <= x < base ^ Z.of_nat (S n) -> x `div` base <> 0 -> n <> 0%nat.
Proof. intros Hx Hz ->. apply digit_shrinks in Hx. cbn in Hx. lia. Qed.

Lemma digit_loop_value fuel x :
  0 <= x < base ^ Z.of_nat fuel -> fuel <> 0%nat ->
  value base (rev (digit_loop fuel digits base x)) = x.
Proof.
  revert x. induction fuel as [|n IH]; intros x Hx Hn; [done|].
  destruct (digit_split x ltac:(lia)) as (Hs & Hm & Hq).
  cbn [digit_loop rev]. rewrite value_snoc.
  destruct (Hd (x `mod` base) ltac:(lia)) as [-> _].
  destruct (Z.eqb_spec (x `div` base) 0) as [E|E]; [cbn; lia|].
  rewrite IH; [lia|by apply digit_shrinks|by eapply digit_shrinks_nonzero].
Qed.

(** The loop stores one digit per power of the base the number reaches. *)
Lemma digit_loop_length fuel x k :
  0 <= x < base ^ Z.of_nat k -> k <> 0%nat -> (length (digit_loop fuel digits base x) <= k)%nat.
Proof.
  revert x k. induction fuel as [|n IH]; intros x k Hx Hk; cbn [digit_loop length]; [lia|].
  destruct k as [|k]; [done|].
  destruct (Z.eqb_spec (x `div` base) 0) as [E|E]; [cbn; lia|].
  apply le_n_S, IH; [by apply digit_shrinks|by eapply digit_shrinks_nonzero].
Qed.

Lemma digit_loop_chars fuel x : 0 <= x ->
  Forall (fun c => 48 <= c < 128 /\ (base = 10 -> c < 58)) (digit_loop fuel digits base x).
Proof.
  revert x. induction fuel as [|n IH]; intros x Hx; cbn [digit_loop]; [constructor|].
  destruct (digit_split x Hx) as (_ & Hm & Hq). constructor.
  - destruct (Hd (x `mod` base) ltac:(lia)) as (_ & Hc & Hl). split; [done|]. intros ->. specialize (Hl ltac:(lia)). lia.
  - destruct (_ =? _); [constructor|]. by apply IH.
Qed.

(** No leading zero: the most significant digit of a positive number is not 0. *)
Lemma digit_loop_canonical fuel x :
  0 < x < base ^ Z.of_nat fuel ->
  exists l c, digit_loop fuel digits base x = l ++ [c] /\ c <> 48.
Proof.
  revert x. induction fuel as [|n IH]; intros x Hx; [cbn in Hx; lia|]. cbn [digit_loop].
  destruct (digit_split x ltac:(lia)) as (Hs & Hm & Hq).
  destruct (Z.eqb_spec (x `div` base) 0) as [E|E].
  - exists [], (nth (Z.to_nat (x `mod` base)) digits 0). split; [done|].
    destruct (Hd (x `mod` base) ltac:(lia)) as (Hv & _). intros Hc. rewrite Hc in Hv. cbn in Hv. lia.
  - destruct (IH (x `div` base)) as (l & c & -> & Hc); [pose proof (digit_shrinks x n ltac:(lia)); lia|].
    by exists (nth (Z.to_nat (x `mod` base)) digits 0 :: l), c.
Qed.
End digits.

(** The text of the word [xx] in base 10 is read back as the signed number it
    holds; it fits the buffer, whichever the word is. *)
Definition read_int (l : list Z) : Z :=
  match l with c :: l' => if c =? MINUS then - value 10 l' else value 10 l | [] => 0 end.

Lemma int_buf_decimal digits xx : alphabet digits -> read_int (rev (int_buf digits xx 10 true)) = i32 xx.
Proof.
  intros Hd. unfold int_buf. pose proof (i32_range xx). cbn [andb].
  assert (Hp : 10 ^ Z.of_nat 32 > 4294967296) by (vm_compute; done).
  destruct (Z.ltb_spec (i32 xx) 0) as [Hn|Hn].
  - rewrite rev_app_distr. cbn [rev app read_int]. rewrite Z.eqb_refl, digit_loop_value; [|done|lia| |done].
    + unfold u32. rewrite Z.mod_small; lia.
    + pose proof (u32_range (- i32 xx)). lia.
  - rewrite app_nil_r. assert (Hx : u32 xx = i32 xx) by (rewrite <- u32_i32; apply u32_small; lia).
    rewrite Hx. pose proof (digit_loop_value digits Hd 10 ltac:(lia) 32 (i32 xx) ltac:(lia) ltac:(done)) as Hv.
    pose proof (digit_loop_chars digits Hd 10 ltac:(lia) 32 (i32 xx) ltac:(lia)) as Hc.
    apply Forall_rev in Hc.
    destruct (rev _) as [|c l]; [done|]. inversion Hc as [|? ? [Hc1 _]]; subst. unfold read_int.
    destruct (Z.eqb_spec c MINUS) as [->|]; [unfold MINUS in Hc1; lia|]. done.
Qed.

Lemma int_buf_hex digits xx : alphabet digits -> value 16 (rev (int_buf digits xx 16 false)) = u32 xx.
Proof.
  intros Hd. unfold int_buf. cbn [andb]. rewrite app_nil_r. pose proof (u32_range xx).
  apply digit_loop_value; [done|lia| |done].
  assert (16 ^ Z.of_nat 32 > 4294967296) by (vm_compute; done). lia.
Qed.

Lemma int_buf_length digits xx base sgn : 8 <= base <= 16 -> Z.of_nat (length (int_buf digits xx base sgn)) < BUFSZ.
Proof.
  intros Hb. unfold int_buf, BUFSZ. rewrite length_app.
  assert (forall x, (length (digit_loop 32 digits base (u32 x)) <= 11)%nat).
  { intros x. apply digit_loop_length; [lia| |done].
    pose proof (u32_range x). assert (8 ^ Z.of_nat 11 <= base ^ Z.of_nat 11) by (apply Z.pow_le_mono_l; lia).
    assert (8 ^ Z.of_nat 11 > 4294967296) by (vm_compute; done). lia. }
  destruct (_ && _); cbn [length]; pose proof (H (- i32 xx)); pose proof (H xx); lia.
Qed.

(** ** The numeral of a number

    What a number looks like in print, said without the loop that builds it: digits of
    the base, small letters past nine, whose positional value is the number, and no zero
    in front of another digit. *)
Definition lower_digit (base c : Z) : Prop := (48 <= c <= 57 /\ c < 48 + base) \/ (97 <= c /\ c < 87 + base).
Definition unpadded (l : list Z) : Prop := head l <> Some 48.
Definition numeral (base v : Z) (l : list Z) : Prop :=
  Forall (lower_digit base) l /\ value base l = v /\ (l = [48] \/ (l <> [] /\ unpadded l)).
(** A negative number has a minus sign before the numeral of its absolute value. *)
Definition signed_numeral (base v : Z) (l : list Z) : Prop :=
  if v <? 0 then exists l', l = MINUS :: l' /\ numeral base (- v) l' else numeral base v l.

Section numerals.
Context (base : Z) (Hb : 2 <= base <= 16).

Lemma lower_digit_value c : lower_digit base c -> 0 <= digit_value c < base /\ (digit_value c = 0 -> c = 48).
Proof. unfold lower_digit, digit_value. intros Hc. destruct (Z.ltb_spec c 58), (Z.ltb_spec c 91); lia. Qed.
Lemma lower_digit_inj c c' : lower_digit base c -> lower_digit base c' -> digit_value c = digit_value c' -> c = c'.
Proof.
  unfold lower_digit, digit_value. intros Hc Hc'.
  destruct (Z.ltb_spec c 58), (Z.ltb_spec c 91), (Z.ltb_spec c' 58), (Z.ltb_spec c' 91); lia.
Qed.
Lemma foldl_value_ge l n : 0 <= n -> Forall (lower_digit base) l -> n <= foldl (fun n c => n * base + digit_value c) n l.
Proof.
  intros Hn Hl. revert n Hn. induction Hl as [|c l Hc Hl IH]; intros n Hn; cbn [foldl]; [lia|].
  apply lower_digit_value in Hc as [Hc _]. etrans; [|apply IH]; nia.
Qed.
Lemma value_pos l : Forall (lower_digit base) l -> l <> [] -> unpadded l -> 0 < value base l.
Proof.
  intros Hl Hne Hz. destruct Hl as [|c l Hc Hl]; [done|]. unfold value. cbn [foldl].
  apply lower_digit_value in Hc as [Hc Hc0]. assert (digit_value c <> 0) by (intros E; by apply Hz; rewrite (Hc0 E)).
  pose proof (foldl_value_ge l (0 * base + digit_value c) ltac:(lia) Hl). lia.
Qed.
Lemma unpadded_snoc l c : unpadded (l ++ [c]) -> unpadded l.
Proof. by destruct l. Qed.
Lemma unpadded_unique l : Forall (lower_digit base) l -> unpadded l ->
  forall l', Forall (lower_digit base) l' -> unpadded l' -> value base l = value base l' -> l = l'.
Proof.
  induction l as [|c l IH] using rev_ind; intros Hl Hu l' Hl' Hu' Hv.
  - destruct l' as [|c' l']; [done|]. pose proof (value_pos _ Hl' ltac:(done) Hu'). change (value base []) with 0 in Hv. lia.
  - destruct l' as [|c' l' _] using rev_ind.
    { pose proof (value_pos _ Hl ltac:(by destruct l) Hu). change (value base []) with 0 in Hv. lia. }
    apply Forall_app in Hl as [Hl [Hc _]%Forall_cons], Hl' as [Hl' [Hc' _]%Forall_cons]. rewrite !value_snoc in Hv.
    pose proof (proj1 (lower_digit_value c Hc)). pose proof (proj1 (lower_digit_value c' Hc')).
    assert (Eq : value base l = value base l' /\ digit_value c = digit_value c') by (apply (Z.div_mod_unique base); lia). destruct Eq as [E1 E2].
    f_equal; [apply IH; eauto using unpadded_snoc|f_equal; by apply lower_digit_inj].
Qed.

(** A number has one numeral only. *)
Lemma numeral_unique v l l' : numeral base v l -> numeral base v l' -> l = l'.
Proof.
  intros (Hl & Hv & Hc) (Hl' & Hv' & Hc'). subst v. destruct Hc as [->|[Hn Hu]], Hc' as [->|[Hn' Hu']]; try done.
  - pose proof (value_pos _ Hl' Hn' Hu'). change (value base [48]) with (0 * base + 0) in Hv'. lia.
  - pose proof (value_pos _ Hl Hn Hu). change (value base [48]) with (0 * base + 0) in Hv'. lia.
  - by apply unpadded_unique.
Qed.
Lemma signed_numeral_unique v l l' : signed_numeral base v l -> signed_numeral base v l' -> l = l'.
Proof.
  unfold signed_numeral. case_match; [|apply numeral_unique].
  intros (m & -> & Hm) (m' & -> & Hm'). f_equal. by eapply numeral_unique.
Qed.

Lemma lower_digit_nth d : 0 <= d < base -> lower_digit base (nth (Z.to_nat d) digits_lower 0).
Proof.
  intros Hd. assert (Hc : forallb (fun d => nth (Z.to_nat d) digits_lower 0 =? (if d <? 10 then 48 + d else 87 + d)) (seqZ 0 16) = true) by reflexivity.
  rewrite forallb_forall in Hc. specialize (Hc d). rewrite <- list_elem_of_In, elem_of_seqZ in Hc.
  apply Z.eqb_eq in Hc as ->; [|lia]. unfold lower_digit. destruct (Z.ltb_spec d 10); lia.
Qed.
Lemma digit_loop_lower fuel x : 0 <= x -> Forall (lower_digit base) (digit_loop fuel digits_lower base x).
Proof.
  revert x. induction fuel as [|n IH]; intros x Hx; cbn [digit_loop]; [constructor|].
  destruct (digit_split base Hb x Hx) as (_ & Hm & Hq). constructor; [by apply lower_digit_nth|]. destruct (_ =? 0); [constructor|]. by apply IH.
Qed.
(** The bytes the loop of [printint] leaves, read backwards, are the numeral. *)
Lemma digit_loop_numeral x : 0 <= x < 4294967296 -> numeral base x (rev (digit_loop 32 digits_lower base x)).
Proof.
  intros Hx. assert (Hp : x < base ^ Z.of_nat 32).
  { assert (2 ^ Z.of_nat 32 <= base ^ Z.of_nat 32) by (apply Z.pow_le_mono_l; lia). change (2 ^ Z.of_nat 32) with 4294967296 in *. lia. }
  split_and!; [apply Forall_rev, digit_loop_lower; lia|by apply digit_loop_value; [apply lower_alphabet|..|lia|]|].
  destruct (decide (x = 0)) as [->|Hne]; [left; cbn [digit_loop]; by rewrite Z.mod_0_l, Z.div_0_l by lia|right].
  destruct (digit_loop_canonical digits_lower lower_alphabet base Hb 32 x ltac:(lia)) as (l & c & -> & Hc).
  rewrite rev_app_distr. split; [done|]. intros [= E]. by apply Hc.
Qed.
Lemma int_buf_signed xx : signed_numeral base (i32 xx) (rev (int_buf digits_lower xx base true)).
Proof.
  unfold signed_numeral, int_buf. pose proof (i32_range xx). cbn [andb]. destruct (Z.ltb_spec (i32 xx) 0).
  - eexists. rewrite rev_app_distr. split; [reflexivity|]. rewrite u32_small by lia. apply digit_loop_numeral. lia.
  - rewrite app_nil_r. assert (Hx : u32 xx = i32 xx) by (rewrite <- u32_i32; apply u32_small; lia). rewrite Hx. apply digit_loop_numeral. lia.
Qed.
Lemma int_buf_unsigned xx : numeral base (u32 xx) (rev (int_buf digits_lower xx base false)).
Proof. unfold int_buf. cbn [andb]. rewrite app_nil_r. apply digit_loop_numeral, u32_range. Qed.
End numerals.
