(* ===== verification/Ulib.v ===== *)
(** * The library of user programs ([ulib.c], [printf.c])

    The string and memory routines over the byte memory of the program, [gets]
    over the results of its calls of [read], and [printf], which writes its bytes
    one by one to a descriptor: the state of its monad is what was written. *)
From S2P Require Import Prelude Layout Memory Digits.

(** ** ulib.c *)

Fixpoint strcpy (s t : Z) (fuel : nat) (m : mem) : option mem :=
  match fuel with
  | O => None
  | S f => let c := rd8 m t in
           let m := wr8 s c m in
           if truth c then strcpy (s + 1) (t + 1) f m else Some m
  end.

Fixpoint strcmp (m : mem) (p q : Z) (fuel : nat) : option Z :=
  match fuel with
  | O => None
  | S f => if truth (rd8 m p) && (rd8 m p =? rd8 m q) then strcmp m (p + 1) (q + 1) f
           else Some (u8 (rd8 m p) - u8 (rd8 m q))
  end.

Definition strlen (m : mem) (s : Z) (fuel : nat) : option Z := strlen_from m s fuel 0.

Definition memset (dst c n : Z) (m : mem) : mem := stosb dst c (Z.to_nat n) m.

(** The null pointer is 0; it is the result when the character does not occur. *)
Fixpoint strchr (m : mem) (s c : Z) (fuel : nat) : option Z :=
  match fuel with
  | O => None
  | S f => if negb (truth (rd8 m s)) then Some 0
           else if rd8 m s =? c then Some s else strchr m (s + 1) c f
  end.

(** [gets]: the input is the list of the results of [read(0, &c, 1)], [None] for a
    result below 1; what is left of it is returned with the memory. *)
Fixpoint gets_loop (inp : list (option Z)) (buf max i : Z) (m : mem) : list (option Z) * Z * mem :=
  match inp with
  | x :: inp' =>
      if i + 1 <? max then
        match x with
        | Some c => let m := wr8 (buf + i) c m in
                    if (c =? 10) || (c =? 13) then (inp', i + 1, m)
                    else gets_loop inp' buf max (i + 1) m
        | None => (inp', i, m)
        end
      else (inp, i, m)
  | [] => ([], i, m)
  end.
Definition gets (inp : list (option Z)) (buf max : Z) (m : mem) : list (option Z) * mem :=
  let '(inp', i, m') := gets_loop inp buf max 0 m in (inp', wr8 (buf + i) 0 m').

Fixpoint atoi_loop (m : mem) (s n : Z) (fuel : nat) : option Z :=
  match fuel with
  | O => None
  | S f => if (48 <=? rd8 m s) && (rd8 m s <=? 57)
           then atoi_loop m (s + 1) (i32 (i32 (n * 10) + rd8 m s - 48)) f
           else Some n
  end.
Definition atoi (m : mem) (s : Z) (fuel : nat) : option Z := atoi_loop m s 0 fuel.

(** [while(n-- > 0) *dst++ = *src++]: upwards only. *)
Definition memmove (vdst vsrc n : Z) (m : mem) : mem := copy_up vdst vsrc (Z.to_nat n) m.

(** [stat]: the system calls are parameters; [fstat] fills a structure. *)
Section stat.
Context {St Sb : Type} (open : M St Z) (fstat : Z -> M St (Z * Sb)) (close : Z -> M St Z).
Definition stat : M St (Z * option Sb) :=
  fd ← open;
  if fd <? 0 then mret (-1, None) else
  r ← fstat fd;
  close fd ;;
  mret (r.1, Some r.2).
End stat.

(** ** printf.c *)
Definition PERCENT : Z := 37.
Definition null_text : list Z := [40; 110; 117; 108; 108; 41].

Definition putc (c : Z) : M (list Z) unit := modify (fun o => o ++ [u8 c]).
Definition printint (xx base : Z) (sgn : bool) : M (list Z) unit :=
  for_each (rev (int_buf digits_upper xx base sgn)) putc.

(** The next word of the variable arguments. *)
Definition next_arg (ap : list Z) : M (list Z) Z :=
  match ap with a :: _ => mret a | [] => undef "argument" end.

Section printf.
Context (m : mem) (fuel : nat).

Fixpoint puts (n : nat) (s : Z) : M (list Z) unit :=
  match n with
  | O => spin
  | S n' => if truth (rd8 m s) then putc (rd8 m s) ;; puts n' (s + 1) else mret tt
  end.

(** One character of the format after a percent sign; the arguments left. *)
Definition directive (c : Z) (ap : list Z) : M (list Z) (list Z) :=
  if c =? 100 then a ← next_arg ap; printint a 10 true ;; mret (tail ap)
  else if (c =? 120) || (c =? 112) then a ← next_arg ap; printint a 16 false ;; mret (tail ap)
  else if c =? 115 then
    s ← next_arg ap;
    (if s =? 0 then for_each null_text putc else puts fuel s) ;; mret (tail ap)
  else if c =? 99 then a ← next_arg ap; putc a ;; mret (tail ap)
  else if c =? PERCENT then putc c ;; mret ap
  else putc PERCENT ;; putc c ;; mret ap.

(** The loop over the format; [pct] is [state == '%']. *)
Fixpoint printf_loop (fmt : list Z) (pct : bool) (ap : list Z) : M (list Z) unit :=
  match fmt with
  | [] => mret tt
  | c :: fmt' =>
      if negb pct then
        if c =? PERCENT then printf_loop fmt' true ap else putc c ;; printf_loop fmt' false ap
      else ap' ← directive c ap; printf_loop fmt' false ap'
  end.
Definition printf (fmt : list Z) (ap : list Z) : M (list Z) unit := printf_loop fmt false ap.
End printf.

(** ** Strings *)

(** The first occurrence of a character in a string, as an independent scan of the
    list of its bytes. *)
Definition find_char (c : Z) (l : list Z) : option nat := fst <$> list_find (fun x => x = c) l.

Lemma strchr_spec m s l c fuel :
  cstr m s l -> (length l < fuel)%nat ->
  strchr m s c fuel = Some (match find_char c l with Some i => s + Z.of_nat i | None => 0 end).
Proof.
  unfold find_char. revert s fuel. induction l as [|x l IH]; intros s [|f] Hs Hf; cbn in Hf; try lia; cbn [strchr list_find].
  - apply cstr_nil in Hs as ->. done.
  - apply cstr_cons in Hs as (-> & Hz & Hs). unfold truth. apply Z.eqb_neq in Hz as ->. cbn [negb].
    destruct (Z.eqb_spec x c) as [->|Hne]; [rewrite decide_True by done; cbn; f_equal; lia|].
    rewrite decide_False by done. rewrite (IH (s + 1) f Hs) by lia. f_equal.
    destruct (list_find _ l) as [[i y]|]; cbn; lia.
Qed.

(** [strcmp] is zero exactly on equal strings, and otherwise the difference of the
    first bytes that differ, the NUL included. *)
Lemma strcmp_spec m p q l1 l2 fuel :
  bytes_ok m -> cstr m p l1 -> cstr m q l2 -> (length l1 < fuel)%nat ->
  exists l a b, strcmp m p q fuel = Some (a - b) /\ (a = b -> l1 = l2) /\
    exists r1 r2, l1 ++ [0] = l ++ a :: r1 /\ l2 ++ [0] = l ++ b :: r2.
Proof.
  intros Hb. revert p q l2 fuel. induction l1 as [|c l1 IH]; intros p q l2 [|f] H1 H2 Hf; cbn in Hf; try lia;
    cbn [strcmp]; rewrite !u8_small by apply Hb.
  - apply cstr_nil in H1 as ->. cbn. destruct l2 as [|d l2].
    + apply cstr_nil in H2 as ->. exists [], 0, 0. split_and!; [done|done|]. by exists [], [].
    + apply cstr_cons in H2 as (-> & Hd & _). exists [], 0, d. split_and!; [done|congruence|]. by exists [], (l2 ++ [0]).
  - apply cstr_cons in H1 as (-> & Hc & H1). unfold truth. apply Z.eqb_neq in Hc as Hc'. rewrite Hc'. cbn [negb andb].
    destruct l2 as [|d l2].
    + apply cstr_nil in H2 as ->. rewrite Hc'. exists [], c, 0. split_and!; [done|congruence|]. by exists (l1 ++ [0]), [].
    + apply cstr_cons in H2 as (-> & Hd & H2). destruct (Z.eqb_spec c d) as [->|Hne].
      * destruct (IH (p + 1) (q + 1) l2 f H1 H2 ltac:(lia)) as (l & a & b & Hr & He & r1 & r2 & E1 & E2).
        exists (d :: l), a, b. split_and!; [done|intros E; f_equal; auto|]. exists r1, r2. cbn. by rewrite E1, E2.
      * exists [], c, d. split_and!; [done|congruence|]. by exists (l1 ++ [0]), (l2 ++ [0]).
Qed.

(** [strcpy] copies the string with its NUL and writes nothing else, when the two
    areas do not overlap. *)
Lemma strcpy_spec m s t l fuel :
  bytes_ok m -> cstr m t l -> (length l < fuel)%nat ->
  t + Z.of_nat (length l) < s \/ s + Z.of_nat (length l) < t ->
  exists m', strcpy s t fuel m = Some m' /\ cstr m' s l /\
    forall a, a < s \/ s + Z.of_nat (length l) < a -> rd8 m' a = rd8 m a.
Proof.
  revert m s t fuel. induction l as [|c l IH]; intros m s t [|f] Hb Ht Hf Hd; cbn in Hf, Hd; try lia; cbn [strcpy].
  - apply cstr_nil in Ht as ->. cbn. eexists. split; [done|]. split; [apply cstr_nil, rd8_wr8_eq|].
    intros a Ha. rewrite rd8_wr8_ne; [done|lia].
  - apply cstr_cons in Ht as (Hc & Hz & Ht). rewrite Hc. unfold truth. apply Z.eqb_neq in Hz as Hz'. rewrite Hz'. cbn [negb].
    assert (Hu : u8 c = c) by (rewrite <- Hc; apply u8_small, Hb).
    destruct (IH (wr8 s c m) (s + 1) (t + 1) f) as (m' & -> & Hm & Ho); [by apply wr8_bytes_ok| |lia|lia|].
    { destruct Ht as [H1 H2]. split.
      - intros i d Hi. pose proof (lookup_lt_Some _ _ _ Hi). rewrite rd8_wr8_ne by lia. by apply H1.
      - by rewrite rd8_wr8_ne by lia. }
    exists m'. split; [done|]. cbn [length]. split.
    + apply cstr_cons. rewrite Ho by lia. by rewrite rd8_wr8_eq.
    + intros a Ha. rewrite Ho by lia. by rewrite rd8_wr8_ne by lia.
Qed.

(** ** atoi and printf *)

(** [holds m s l]: the bytes at [s] are [l]. *)
Definition holds (m : mem) (s : Z) (l : list Z) : Prop := forall i c, l !! i = Some c -> rd8 m (s + Z.of_nat i) = c.
Lemma holds_cons m s c l : holds m s (c :: l) <-> rd8 m s = c /\ holds m (s + 1) l.
Proof.
  unfold holds. split.
  - intros H. split; [by rewrite <- (H 0%nat c eq_refl), Z.add_0_r|].
    intros i d Hi. rewrite <- (H (S i) d Hi). f_equal. lia.
  - intros [H1 H2] [|i] d Hi; cbn in Hi; [simplify_eq; by rewrite Z.add_0_r|].
    rewrite <- (H2 i d Hi). f_equal. lia.
Qed.

(** [atoi] reads the digits up to the first other character; its value is exact
    when it fits an [int]. *)
Lemma atoi_loop_spec m s l n fuel :
  holds m s l -> Forall isdigit l -> ~ isdigit (rd8 m (s + Z.of_nat (length l))) -> (length l < fuel)%nat ->
  0 <= n -> foldl (fun n c => n * 10 + digit_value c) n l < 2147483648 ->
  atoi_loop m s n fuel = Some (foldl (fun n c => n * 10 + digit_value c) n l).
Proof.
  revert s n fuel. induction l as [|c l IH]; intros s n [|f] Hs Hl He Hf Hn Hm; cbn in Hf; try lia; cbn [atoi_loop foldl].
  - cbn in He. rewrite Z.add_0_r in He. unfold isdigit in He.
    destruct (Z.leb_spec 48 (rd8 m s)), (Z.leb_spec (rd8 m s) 57); cbn; try done. lia.
  - apply holds_cons in Hs as [Hc Hs]. apply Forall_cons in Hl as [Hd Hl]. rewrite Hc. pose proof Hd as Hd'. unfold isdigit in Hd'.
    rewrite (proj2 (Z.leb_le 48 c)), (proj2 (Z.leb_le c 57)) by lia. cbn [andb].
    pose proof (digit_char_value c Hd) as Hv. cbn [foldl] in Hm. rewrite Hv in *. pose proof (foldl_digits_ge l (n * 10 + (c - 48)) ltac:(lia) Hl).
    rewrite (i32_small (n * 10)), i32_small by lia. replace (n * 10 + c - 48) with (n * 10 + (c - 48)) by lia.
    apply IH; [done|done| |lia|lia|done]. cbn [length] in He. by replace (s + 1 + Z.of_nat (length l)) with (s + Z.of_nat (S (length l))) by lia.
Qed.

Lemma for_each_putc l o : Forall (fun c => 0 <= c < 256) l -> for_each l putc o = Done tt (o ++ l).
Proof.
  revert o. induction l as [|c l IH]; intros o Hl; cbn [for_each]; [by rewrite app_nil_r|].
  apply Forall_cons in Hl as [Hc Hl]. unfold mbind, M_bind, putc at 1, modify. rewrite u8_small by done.
  by rewrite (IH _ Hl), <- app_assoc.
Qed.

Lemma int_buf_bytes digits xx base sgn : alphabet digits -> 2 <= base <= 16 -> Forall (fun c => 0 <= c < 256) (rev (int_buf digits xx base sgn)).
Proof.
  intros Hd Hb. apply Forall_rev. unfold int_buf. apply Forall_app. split.
  - eapply Forall_impl; [apply digit_loop_chars; [done|done|]|].
    + destruct (_ && _); apply u32_range.
    + cbn. lia.
  - destruct (_ && _); [|done]. repeat constructor; unfold MINUS; lia.
Qed.

Lemma printint_out xx base sgn o : 2 <= base <= 16 ->
  printint xx base sgn o = Done tt (o ++ rev (int_buf digits_upper xx base sgn)).
Proof. intros. apply for_each_putc, int_buf_bytes; [apply upper_alphabet|done]. Qed.

Lemma decimal_digits x : 0 <= x < 2147483648 ->
  Forall isdigit (rev (int_buf digits_upper x 10 true)) /\ value 10 (rev (int_buf digits_upper x 10 true)) = x.
Proof.
  intros Hx. unfold int_buf. rewrite i32_small by lia. cbn [andb]. rewrite (proj2 (Z.ltb_ge x 0)) by lia.
  rewrite app_nil_r, u32_small by lia. split.
  - apply Forall_rev. eapply Forall_impl; [apply digit_loop_chars; [apply upper_alphabet|lia|lia]|].
    intros c [Hc Hl]. specialize (Hl eq_refl). unfold isdigit. lia.
  - apply digit_loop_value; [apply upper_alphabet|lia| |done]. assert (10 ^ Z.of_nat 32 > 4294967296) by (vm_compute; done). lia.
Qed.

(** (C34) What [printf] prints with the directive for integers, [atoi] reads back:
    for every nonnegative [int], [printf(fd, "%d", x)] appends digits, at most ten,
    and [atoi] of a memory that holds them, followed by anything but a digit,
    returns [x]. *)
Theorem printf_atoi_roundtrip m fuel x out :
  0 <= x < 2147483648 ->
  exists l, printf m fuel [PERCENT; 100] [x] out = Done tt (out ++ l) /\ (length l <= 15)%nat /\
    forall m' s, holds m' s l -> ~ isdigit (rd8 m' (s + Z.of_nat (length l))) -> atoi m' s 16 = Some x.
Proof.
  intros Hx. exists (rev (int_buf digits_upper x 10 true)). destruct (decimal_digits x Hx) as [Hd Hv].
  assert (Hl : (length (rev (int_buf digits_upper x 10 true)) <= 15)%nat)
    by (rewrite length_rev; pose proof (int_buf_length digits_upper x 10 true ltac:(lia)); unfold BUFSZ in *; lia).
  split; [|split; [done|]].
  - unfold printf. cbn [printf_loop negb]. change (PERCENT =? PERCENT) with true. cbn [negb].
    unfold directive, next_arg. change (100 =? 100) with true. cbn iota.
    unfold mbind, M_bind, mret, M_ret. by rewrite printint_out by lia.
  - intros m' s Hm He. unfold atoi. rewrite (atoi_loop_spec m' s _ 0 16 Hm Hd He); [|lia|lia|].
    + unfold value in Hv. by rewrite Hv.
    + unfold value in Hv. rewrite Hv. lia.
Qed.

Example printf_atoi_roundtrip_witness :
  exists l, printf ∅ 1 [PERCENT; 100] [2026] [] = Done tt ([] ++ l) /\ (length l <= 15)%nat /\
    forall m' s, holds m' s l -> ~ isdigit (rd8 m' (s + Z.of_nat (length l))) -> atoi m' s 16 = Some 2026.
Proof. apply (printf_atoi_roundtrip ∅ 1 2026 []). lia. Defined.
Example printf_example : printf ∅ 1 [PERCENT; 100; 32; PERCENT; 120; 32; PERCENT; PERCENT; 10] [4294967254; 255] [] =
  Done tt [45; 52; 50; 32; 70; 70; 32; 37; 10].
Proof. reflexivity. Qed.

(** ** memmove *)

(** The user [memmove] copies upwards only: a move to a higher address inside the
    source repeats the first [dst - src] bytes instead of moving them. *)
Lemma memmove_overlap m src k n i :
  bytes_ok m -> 0 < k -> 0 <= i < n ->
  rd8 (memmove (src + k) src n m) (src + k + i) = rd8 m (src + i `mod` k).
Proof.
  intros Hb Hk Hi. unfold memmove. destruct Hi as [Hi0 Hi]. rewrite <- (Z2Nat.id n) in Hi by lia.
  set (c := Z.to_nat n) in *. clearbody c. clear n.
  assert (Hgen : forall n m s, (forall j, 0 <= j < k -> 0 <= rd8 m (s + j) < 256) ->
     (forall a, a < s + k -> rd8 (copy_up (s + k) s n m) a = rd8 m a) /\
     (forall j, 0 <= j < Z.of_nat n -> rd8 (copy_up (s + k) s n m) (s + k + j) = rd8 m (s + j `mod` k))).
  { clear - Hk. intros n. induction n as [|n IH]; intros m s Hb; cbn [copy_up]; [split; [done|lia]|].
    replace (s + k + 1) with (s + 1 + k) by lia.
    destruct (IH (wr8 (s + k) (rd8 m s) m) (s + 1)) as [IH1 IH2].
    { intros j Hj. rewrite rd8_wr8. case_decide; [apply u8_range|].
      replace (s + 1 + j) with (s + (1 + j)) by lia. apply Hb. lia. }
    assert (Hs : u8 (rd8 m s) = rd8 m s) by (apply u8_small; specialize (Hb 0); rewrite Z.add_0_r in Hb; apply Hb; lia).
    split.
    - intros a Ha. rewrite IH1 by lia. by rewrite rd8_wr8_ne by lia.
    - intros j Hj. destruct (decide (j = 0)) as [->|Hj0].
      + rewrite Z.add_0_r, IH1, rd8_wr8_eq, Hs by lia. by rewrite Z.mod_0_l, Z.add_0_r by lia.
      + replace (s + k + j) with (s + 1 + k + (j - 1)) by lia. rewrite IH2 by lia.
        pose proof (Z.mod_pos_bound (j - 1) k ltac:(lia)). rewrite rd8_wr8. case_decide as Hd.
        * rewrite Hs. assert (Em : j `mod` k = 0); [|by rewrite Em, Z.add_0_r].
          pose proof (Z.div_mod (j - 1) k ltac:(lia)). symmetry. apply (Z.mod_unique j k ((j - 1) `div` k + 1) 0); [left; lia|lia].
        * f_equal. pose proof (Z.div_mod (j - 1) k ltac:(lia)).
          rewrite <- (Z.mod_unique j k ((j - 1) `div` k) ((j - 1) `mod` k + 1)); [lia|left; lia|lia]. }
  apply Hgen; [|lia]. intros j _. apply Hb.
Qed.

(** ** gets *)
Definition line_end (c : Z) : bool := (c =? 10) || (c =? 13).
(** How the loop stopped, after the characters [line] and with [rest] unread. *)
Definition gets_stop (inp : list (option Z)) (line : list Z) (rest : list (option Z)) (room : Z) : Prop :=
  (exists l, inp = (Some <$> line) ++ l /\
    ((l = rest /\ Z.of_nat (length line) = room) \/
     (l = rest /\ exists line' c, line = line' ++ [c] /\ line_end c = true) \/
     l = None :: rest \/ (l = [] /\ rest = []))) /\
  forall i c, line !! i = Some c -> (S i < length line)%nat -> line_end c = false.

Lemma gets_loop_spec inp buf max i m :
  0 <= i < max ->
  exists line rest m', gets_loop inp buf max i m = (rest, i + Z.of_nat (length line), m') /\
    gets_stop inp line rest (max - 1 - i) /\ i + Z.of_nat (length line) < max /\
    holds m' (buf + i) (u8 <$> line) /\
    forall a, a < buf + i \/ buf + i + Z.of_nat (length line) <= a -> rd8 m' a = rd8 m a.
Proof.
  revert i m. induction inp as [|x inp IH]; intros i m Hi; cbn [gets_loop].
  { exists [], [], m. cbn. rewrite Z.add_0_r. split_and!; [done| |lia|done|done].
    split; [exists []; naive_solver|done]. }
  destruct (Z.ltb_spec (i + 1) max) as [Hlt|Hge].
  2:{ exists [], (x :: inp), m. cbn. rewrite Z.add_0_r. split_and!; [done| |lia|done|done].
      split; [|done]. exists (x :: inp). split; [done|]. left. split; [done|cbn; lia]. }
  destruct x as [c|].
  2:{ exists [], inp, m. cbn. rewrite Z.add_0_r. split_and!; [done| |lia|done|done].
      split; [exists (None :: inp); naive_solver|done]. }
  cbn zeta. fold (line_end c). destruct (line_end c) eqn:Ec.
  - exists [c], inp, (wr8 (buf + i) c m). split_and!; [done| |cbn; lia| |].
    + split; [exists inp; split; [done|]; right; left; split; [done|by exists [], c]|].
      intros [|j] d; cbn; [lia|done].
    + apply holds_cons. by rewrite rd8_wr8_eq.
    + intros a Ha. cbn in Ha. rewrite rd8_wr8_ne by lia. done.
  - destruct (IH (i + 1) (wr8 (buf + i) c m)) as (line & rest & m' & -> & [(l & -> & Hs) Hn] & Hlt' & Hh & Ho); [lia|].
    exists (c :: line), rest, m'. cbn [length fmap list_fmap]. split_and!; [f_equal; f_equal; lia| |lia| |].
    + split.
      * exists l. split; [done|]. destruct Hs as [[-> Hs]|[(-> & line' & d & -> & Hd)|Hs]].
        -- left. split; [done|]. cbn. lia.
        -- right. left. split; [done|]. by exists (c :: line'), d.
        -- by right; right.
      * intros [|j] d; cbn; [by intros [= <-]|]. intros Hj Hlen. apply (Hn j); [done|lia].
    + apply holds_cons. split; [rewrite Ho by lia; apply rd8_wr8_eq|]. by rewrite <- Z.add_assoc.
    + intros a Ha. rewrite Ho by lia. by rewrite rd8_wr8_ne by lia.
Qed.

(** [gets] stores one line, its end included, up to [max - 1] characters, and a NUL
    after it, inside the [max] bytes of the buffer; what it did not use stays unread. *)
Lemma gets_line inp buf max m :
  0 < max ->
  exists line rest m', gets inp buf max m = (rest, m') /\ gets_stop inp line rest (max - 1) /\
    holds m' buf ((u8 <$> line) ++ [0]) /\ Z.of_nat (length line) < max /\
    forall a, a < buf \/ buf + max <= a -> rd8 m' a = rd8 m a.
Proof.
  intros Hm. unfold gets.
  destruct (gets_loop_spec inp buf max 0 m ltac:(lia)) as (line & rest & m' & -> & Hs & Hlt & Hh & Ho).
  rewrite Z.sub_0_r in Hs. rewrite Z.add_0_r in *. exists line, rest, (wr8 (buf + (0 + Z.of_nat (length line))) 0 m').
  split_and!; [done|done| |lia|].
  - intros i c Hi. apply lookup_app_Some in Hi as [Hi|[Hi Hc]].
    + pose proof (lookup_lt_Some _ _ _ Hi) as Hl. rewrite length_fmap in Hl. rewrite rd8_wr8_ne by lia. by apply Hh.
    + rewrite length_fmap in *. apply list_lookup_singleton_Some in Hc as [Hc <-].
      replace (Z.of_nat i) with (0 + Z.of_nat (length line)) by lia. by rewrite rd8_wr8_eq.
  - intros a Ha. rewrite rd8_wr8_ne by lia. apply Ho. lia.
Qed.

(** ** What printf prints *)

(** A format as a list of pieces: what each contributes to the format, to the
    arguments and to the output. *)
Inductive piece := Lit (c : Z) | Percent | Dec (x : Z) | Hex (x : Z) | Str (s : Z) (l : list Z) | Null | Chr (x : Z) | Unknown (c : Z).
Definition piece_fmt (p : piece) : list Z :=
  match p with
  | Lit c => [c] | Percent => [PERCENT; PERCENT] | Dec _ => [PERCENT; 100] | Hex _ => [PERCENT; 120]
  | Str _ _ | Null => [PERCENT; 115] | Chr _ => [PERCENT; 99] | Unknown c => [PERCENT; c]
  end.
Definition piece_arg (p : piece) : list Z :=
  match p with Dec x | Hex x | Chr x => [x] | Str s _ => [s] | Null => [0] | _ => [] end.
Definition piece_text (p : piece) : list Z :=
  match p with
  | Lit c => [u8 c] | Percent => [PERCENT] | Dec x => rev (int_buf digits_upper x 10 true)
  | Hex x => rev (int_buf digits_upper x 16 false) | Str _ l => l | Null => null_text | Chr x => [u8 x] | Unknown c => [PERCENT; u8 c]
  end.
Definition piece_ok (m : mem) (fuel : nat) (p : piece) : Prop :=
  match p with
  | Lit c => c <> PERCENT
  | Str s l => s <> 0 /\ cstr m s l /\ (length l < fuel)%nat
  | Unknown c => c ∉ [100; 120; 112; 115; 99; PERCENT]
  | _ => True
  end.

Lemma puts_out m n s l o : bytes_ok m -> cstr m s l -> (length l < n)%nat -> puts m n s o = Done tt (o ++ l).
Proof.
  intros Hb. revert s n o. induction l as [|c l IH]; intros s [|n] o Hs Hn; cbn in Hn; try lia; cbn [puts].
  - apply cstr_nil in Hs as ->. cbn. by rewrite app_nil_r.
  - apply cstr_cons in Hs as (Hc & Hz & Hs). rewrite Hc. unfold truth. apply Z.eqb_neq in Hz as ->. cbn [negb].
    unfold mbind, M_bind, putc at 1, modify. rewrite u8_small by (rewrite <- Hc; apply Hb).
    rewrite (IH (s + 1) n) by (done || lia). by rewrite <- app_assoc.
Qed.

Lemma printf_piece m fuel p fmt ap o : bytes_ok m -> piece_ok m fuel p ->
  printf_loop m fuel (piece_fmt p ++ fmt) false (piece_arg p ++ ap) o = printf_loop m fuel fmt false ap (o ++ piece_text p).
Proof.
  intros Hb Hp. destruct p as [c| |x|x|s l| |x|c]; cbn [piece_fmt piece_arg piece_text app printf_loop negb].
  - cbn in Hp. apply Z.eqb_neq in Hp as ->. done.
  - done.
  - change (PERCENT =? PERCENT) with true. cbn iota. unfold directive, next_arg. change (100 =? 100) with true. cbn iota.
    unfold mbind, M_bind, mret, M_ret. by rewrite printint_out by lia.
  - change (PERCENT =? PERCENT) with true. cbn iota. unfold directive, next_arg. change (120 =? 100) with false. cbn [orb].
    change (120 =? 120) with true. cbn iota. cbn [orb]. unfold mbind, M_bind, mret, M_ret. by rewrite printint_out by lia.
  - destruct Hp as (Hs & Hc & Hl). change (PERCENT =? PERCENT) with true. cbn iota. unfold directive, next_arg.
    change (115 =? 100) with false. change (115 =? 120) with false. change (115 =? 112) with false. change (115 =? 115) with true. cbn [orb].
    unfold mbind, M_bind, mret, M_ret. apply Z.eqb_neq in Hs as ->. by rewrite (puts_out m fuel s l o Hb Hc Hl).
  - assert (Hn : for_each null_text putc o = Done tt (o ++ null_text)) by (apply for_each_putc; unfold null_text; repeat (constructor; [lia|]); constructor).
    change (PERCENT =? PERCENT) with true. cbn iota. change (directive m fuel 115 (0 :: ap)) with (for_each null_text putc ;; mret (M := M (list Z)) ap).
    unfold mbind, M_bind. by rewrite Hn.
  - done.
  - cbn in Hp. rewrite !not_elem_of_cons in Hp. destruct Hp as (H1 & H2 & H3 & H4 & H5 & H6 & _).
    change (PERCENT =? PERCENT) with true. cbn iota. unfold directive.
    rewrite !(proj2 (Z.eqb_neq c _)) by done. cbn [orb]. unfold mbind, M_bind, mret, M_ret, putc, modify.
    rewrite <- app_assoc. done.
Qed.

(** [printf] prints, for every format made of pieces and their arguments, the texts
    of the pieces in their order. *)
Lemma printf_renders m fuel ps o : bytes_ok m -> Forall (piece_ok m fuel) ps ->
  printf m fuel (concat (map piece_fmt ps)) (concat (map piece_arg ps)) o = Done tt (o ++ concat (map piece_text ps)).
Proof.
  intros Hb. unfold printf. revert o. induction ps as [|p ps IH]; intros o Hps; cbn [map concat]; [by rewrite app_nil_r|].
  apply Forall_cons in Hps as [Hp Hps]. rewrite printf_piece, IH by done. by rewrite app_assoc.
Qed.
