(* ===== verification/Filters.v ===== *)
(** * Programs that read a stream ([grep.c], [wc.c], [cat.c])

    The matcher of [grep] for patterns with the operators caret, dot, star and
    dollar, against an independent definition of what a pattern means, and the
    loop that selects the lines of its input; the counts of [wc]; [cat].  The
    input is the list of the pieces that become available one after the other: a
    file is one piece, a pipe or the console may deliver any.  A C string is the
    list of its bytes before the NUL; a buffer is the list of its bytes in use. *)
From S2P Require Import Prelude Layout Memory Digits Ulib.

Definition STAR : Z := 42.
Definition DOLLAR : Z := 36.
Definition DOT : Z := 46.
Definition CARET : Z := 94.
Definition NL : Z := 10.

(** ** The matcher *)

(** Tries the rest of the pattern here, then after each character that is [c] (or
    after any character, when [c] is a dot). *)
Fixpoint matchstar (here : list Z -> bool) (c : Z) (text : list Z) : bool :=
  if here text then true
  else match text with
       | [] => false
       | t :: text' => if (t =? c) || (c =? DOT) then matchstar here c text' else false
       end.

Fixpoint matchhere (re text : list Z) : bool :=
  match re with
  | [] => true
  | c :: re1 =>
      let one :=
        if (c =? DOLLAR) && bool_decide (re1 = []) then bool_decide (text = [])
        else match text with
             | t :: text' => if (c =? DOT) || (c =? t) then matchhere re1 text' else false
             | [] => false
             end in
      match re1 with
      | s :: re2 => if s =? STAR then matchstar (matchhere re2) c text else one
      | [] => one
      end
  end.

(** The [do] loop of [match]: tries every position, the end of the text included. *)
Fixpoint match_from (re text : list Z) : bool :=
  if matchhere re text then true
  else match text with [] => false | _ :: text' => match_from re text' end.
Definition match_ (re text : list Z) : bool :=
  match re with
  | c :: re1 => if c =? CARET then matchhere re1 text else match_from re text
  | [] => match_from re text
  end.

(** ** What a pattern means *)
Inductive atom := One (c : Z) | Many (c : Z).
(** The atoms of a pattern, and whether it ends in [$]. *)
Fixpoint parse (re : list Z) : list atom * bool :=
  match re with
  | [] => ([], false)
  | c :: re1 =>
      let one := if (c =? DOLLAR) && bool_decide (re1 = []) then ([], true)
                 else let (l, e) := parse re1 in (One c :: l, e) in
      match re1 with
      | s :: re2 => if s =? STAR then let (l, e) := parse re2 in (Many c :: l, e) else one
      | [] => one
      end
  end.

(** The characters a pattern character stands for, and the strings of an atom
    and of a list of atoms. *)
Definition stands (c t : Z) : Prop := c = DOT \/ t = c.
Definition atom_lang (a : atom) (w : list Z) : Prop :=
  match a with
  | One c => exists t, w = [t] /\ stands c t
  | Many c => Forall (stands c) w
  end.
Fixpoint lang (l : list atom) (w : list Z) : Prop :=
  match l with
  | [] => w = []
  | a :: l' => exists u v, w = u ++ v /\ atom_lang a u /\ lang l' v
  end.
(** A pattern matches at the start of a text: some prefix is in its language, the
    whole text when it ends in [$]. *)
Definition here_spec (re text : list Z) : Prop :=
  exists u v, text = u ++ v /\ lang (parse re).1 u /\ ((parse re).2 = true -> v = []).

Lemma stands_test c t : ((c =? DOT) || (c =? t)) = true <-> stands c t.
Proof. unfold stands. rewrite orb_true_iff, !Z.eqb_eq. intuition congruence. Qed.
Lemma stands_test' c t : ((t =? c) || (c =? DOT)) = true <-> stands c t.
Proof. unfold stands. rewrite orb_true_iff, !Z.eqb_eq. intuition congruence. Qed.

(** [matchstar] tries the rest of the pattern after every run of characters [c]
    stands for. *)
Lemma matchstar_spec here c text :
  matchstar here c text = true <-> exists u v, text = u ++ v /\ Forall (stands c) u /\ here v = true.
Proof.
  induction text as [|t text IH]; cbn [matchstar].
  - destruct (here []) eqn:E.
    + split; [|done]. intros _. by exists [], [].
    + split; [done|]. intros (u & v & Hu & _ & Hv). symmetry in Hu. apply app_nil in Hu as [-> ->]. congruence.
  - destruct (here (t :: text)) eqn:E.
    + split; [|done]. intros _. by exists [], (t :: text).
    + destruct (((t =? c) || (c =? DOT))) eqn:Et.
      * rewrite IH. split.
        -- intros (u & v & -> & Hu & Hv). exists (t :: u), v. split_and!; [done| |done].
           constructor; [by apply stands_test'|done].
        -- intros (u & v & Huv & Hu & Hv). destruct u as [|x u]; [cbn in Huv; congruence|].
           injection Huv as -> ->. exists u, v. split_and!; [done| |done]. by inversion Hu.
      * split; [done|]. intros (u & v & Huv & Hu & Hv). destruct u as [|x u]; [cbn in Huv; congruence|].
        injection Huv as -> ->. inversion Hu as [|? ? Hx _]; subst. apply stands_test' in Hx. congruence.
Qed.

Lemma lang_cons_One c l text e :
  (exists u v, text = u ++ v /\ lang (One c :: l) u /\ (e = true -> v = [])) <->
  exists t text', text = t :: text' /\ stands c t /\ exists u v, text' = u ++ v /\ lang l u /\ (e = true -> v = []).
Proof.
  cbn [lang atom_lang]. split.
  - intros (u & v & -> & (w & u' & -> & (t & -> & Ht) & Hl) & He).
    exists t, (u' ++ v). split_and!; [done|done|]. by exists u', v.
  - intros (t & text' & -> & Ht & u & v & -> & Hl & He).
    exists (t :: u), v. split_and!; [done| |done]. exists [t], u. split_and!; [done|by exists t|done].
Qed.

Lemma matchhere_here re text : matchhere re text = true <-> here_spec re text.
Proof.
  remember (length re) as n eqn:En. revert re En text.
  induction (lt_wf n) as [n _ IH]. intros re -> text. destruct re as [|c re1].
  - cbn. split; [|done]. intros _. by exists [], text.
  - assert (Hone : (if (c =? DOLLAR) && bool_decide (re1 = []) then bool_decide (text = [])
        else match text with
             | t :: text' => if (c =? DOT) || (c =? t) then matchhere re1 text' else false
             | [] => false
             end) = true <->
      let one := if (c =? DOLLAR) && bool_decide (re1 = []) then ([], true)
                 else let (l, e) := parse re1 in (One c :: l, e) in
      exists u v, text = u ++ v /\ lang one.1 u /\ (one.2 = true -> v = [])).
    { destruct ((c =? DOLLAR) && bool_decide (re1 = [])) eqn:Ed; cbn zeta.
      - rewrite bool_decide_eq_true. cbn [fst snd lang]. split.
        + intros ->. by exists [], [].
        + intros (u & v & -> & -> & Hv). by rewrite Hv.
      - specialize (IH (length re1) ltac:(cbn; lia) re1 eq_refl). unfold here_spec in IH.
        destruct (parse re1) as [l e]. cbn [fst snd] in *. rewrite lang_cons_One.
        destruct text as [|t text']; [split; [done|intros (? & ? & ? & _); done]|].
        destruct ((c =? DOT) || (c =? t)) eqn:Et.
        + rewrite IH. split.
          * intros H. exists t, text'. split_and!; [done|by apply stands_test|done].
          * intros (? & ? & [= <- <-] & _ & H). done.
        + split; [done|]. intros (? & ? & [= <- <-] & Hs & _). apply stands_test in Hs. congruence. }
    unfold here_spec. cbn [matchhere parse]. destruct re1 as [|s re2]; [exact Hone|].
    destruct (s =? STAR) eqn:Es; [|exact Hone].
    rewrite matchstar_spec. specialize (IH (length re2) ltac:(cbn; lia) re2 eq_refl). unfold here_spec in IH.
    destruct (parse re2) as [l e]. cbn [fst snd lang atom_lang] in *. split.
    + intros (u & v & -> & Hu & Hv). apply IH in Hv as (u' & v' & -> & Hl & He).
      exists (u ++ u'), v'. split_and!; [by rewrite app_assoc| |done]. by exists u, u'.
    + intros (w & v & -> & (u & u' & -> & Hu & Hl) & He). exists u, (u' ++ v).
      split_and!; [by rewrite app_assoc|done|]. apply IH. by exists u', v.
Qed.

Lemma match_from_here re text :
  match_from re text = true <-> exists pre rest, text = pre ++ rest /\ here_spec re rest.
Proof.
  induction text as [|t text IH]; cbn [match_from]; destruct (matchhere re _) eqn:E.
  - split; [|done]. intros _. exists [], []. split; [done|]. by apply matchhere_here.
  - split; [done|]. intros (pre & rest & Hp & Hh). symmetry in Hp. apply app_nil in Hp as [-> ->].
    apply matchhere_here in Hh. congruence.
  - split; [|done]. intros _. exists [], (t :: text). split; [done|]. by apply matchhere_here.
  - rewrite IH. split.
    + intros (pre & rest & -> & Hh). by exists (t :: pre), rest.
    + intros (pre & rest & Hp & Hh). destruct pre as [|x pre].
      * cbn in Hp. subst rest. apply matchhere_here in Hh. congruence.
      * injection Hp as -> ->. by exists pre, rest.
Qed.

(** What a whole pattern means: a caret anchors it at the start of the line, a
    dollar at its end. *)
Definition anchored (re : list Z) : bool := match re with c :: _ => c =? CARET | [] => false end.
Definition body (re : list Z) : list Z := if anchored re then tail re else re.

(** (C33) The matcher is correct for every pattern and line: [match] answers true
    exactly if the line splits in three, where the middle part is in the language
    of the pattern's atoms (a character, a dot, or a starred one), nothing comes
    before it when the pattern starts with a caret, and nothing after it when the
    pattern ends with a dollar. *)
Theorem match_spec re text :
  match_ re text = true <->
  exists pre mid post, text = pre ++ mid ++ post /\ lang (parse (body re)).1 mid /\
    (anchored re = true -> pre = []) /\ ((parse (body re)).2 = true -> post = []).
Proof.
  assert (Hf : forall r, match_from r text = true <-> exists pre mid post, text = pre ++ mid ++ post /\ lang (parse r).1 mid /\
    (false = true -> pre = []) /\ ((parse r).2 = true -> post = [])).
  { intros r. rewrite match_from_here. unfold here_spec. naive_solver. }
  unfold match_, body, anchored. destruct re as [|c re1]; [apply Hf|].
  destruct (c =? CARET) eqn:Ec; [|apply Hf]. rewrite matchhere_here. unfold here_spec. cbn [tail]. split.
  - intros (u & v & -> & Hl & He). exists [], u, v. by split_and!.
  - intros (pre & u & v & -> & Hl & Hp & He). rewrite (Hp eq_refl). by exists u, v.
Qed.

(** ** Reading *)

(** A call of [read] for [n] bytes: a part of the first piece, or the piece; the
    result is 0 at the end and for an empty piece. *)
Definition read (n : Z) (inp : list (list Z)) : list Z * list (list Z) :=
  match inp with
  | [] => ([], [])
  | c :: inp' => if Z.of_nat (length c) <=? n then (c, inp') else (take (Z.to_nat n) c, drop (Z.to_nat n) c :: inp')
  end.

Lemma read_concat n inp r inp' : read n inp = (r, inp') -> concat inp = r ++ concat inp'.
Proof.
  unfold read. destruct inp as [|c inp]; [intros [= <- <-]; done|].
  case_match; intros [= <- <-]; cbn [concat]; [done|]. by rewrite app_assoc, take_drop.
Qed.

(** ** grep *)
Definition BUFLEN : Z := 1024.

Fixpoint upto_nul (l : list Z) : list Z :=
  match l with [] => [] | c :: l' => if c =? 0 then [] else c :: upto_nul l' end.

(** The loop over the lines of the buffer from [p]: what it writes, and the rest of
    the buffer. *)
Fixpoint grep_scan (fuel : nat) (pattern p : list Z) : list Z * list Z :=
  match fuel with
  | O => ([], p)
  | S f =>
      match find_char NL (upto_nul p) with
      | Some q => let (out, rest) := grep_scan f pattern (drop (S q) p) in
                  ((if match_ pattern (take q p) then take (S q) p else []) ++ out, rest)
      | None => ([], p)
      end
  end.

Fixpoint grep_loop (fuel : nat) (pattern : list Z) (inp : list (list Z)) (buf : list Z) : option (list Z) :=
  match fuel with
  | O => None
  | S f =>
      let (r, inp') := read (BUFLEN - Z.of_nat (length buf) - 1) inp in
      match r with
      | [] => Some []
      | _ => let buf := buf ++ r in
             let (out, rest) := grep_scan (length buf) pattern buf in
             app out <$> grep_loop f pattern inp' (if Nat.eqb (length rest) (length buf) then [] else rest)
      end
  end.
Definition grep (pattern : list Z) (inp : list (list Z)) : option (list Z) :=
  grep_loop (S (length (concat inp))) pattern inp [].

(** [grep] reads its input to the end, whatever the pieces. *)
Lemma grep_loop_returns fuel pattern inp buf : (length (concat inp) < fuel)%nat -> is_Some (grep_loop fuel pattern inp buf).
Proof.
  revert inp buf. induction fuel as [|f IH]; intros inp buf Hf; [lia|]. cbn [grep_loop].
  destruct (read _ inp) as [r inp'] eqn:Er. destruct r as [|c r]; [done|].
  apply read_concat in Er. rewrite Er in Hf. cbn [length app] in Hf. rewrite length_app in Hf.
  destruct (grep_scan _ _ _) as [out rest]. apply fmap_is_Some, IH. lia.
Qed.

(** Lines of a file: no NUL and no newline inside, room for the newline in the
    buffer. *)
Definition line_ok (l : list Z) : Prop := (NL ∉ l) /\ (0 ∉ l) /\ Z.of_nat (length l) <= 1022.
Definition join (ls : list (list Z)) : list Z := concat (map (fun l => l ++ [NL]) ls).
Definition selected (pattern : list Z) (ls : list (list Z)) : list Z := join (filter (fun l => match_ pattern l = true) ls).

Lemma upto_nul_nl l r : NL ∉ l -> 0 ∉ l -> find_char NL (upto_nul (l ++ NL :: r)) = Some (length l).
Proof.
  unfold find_char. induction l as [|c l IH]; intros Hn Hz; cbn [app upto_nul]; [done|].
  apply not_elem_of_cons in Hn as [Hc Hn]. apply not_elem_of_cons in Hz as [Hz0 Hz].
  destruct (Z.eqb_spec c 0); [congruence|]. cbn [list_find]. rewrite decide_False by congruence.
  specialize (IH Hn Hz). cbn in IH. destruct (list_find _ _) as [[i x]|]; [|done]. cbn in *. by injection IH as ->.
Qed.
Lemma find_char_none c l : c ∉ l -> find_char c (upto_nul l) = None.
Proof.
  unfold find_char. induction l as [|x l IH]; intros Hc; cbn [upto_nul]; [done|].
  apply not_elem_of_cons in Hc as [Hx Hc]. destruct (x =? 0); [done|]. cbn [list_find].
  rewrite decide_False by congruence. specialize (IH Hc). by destruct (list_find _ _) as [[? ?]|].
Qed.

(** The scan of a buffer that holds some whole lines and the start of the rest. *)
Lemma grep_scan_lines pattern ls r fuel : Forall line_ok ls -> NL ∉ r -> (length ls <= fuel)%nat ->
  grep_scan fuel pattern (join ls ++ r) = (selected pattern ls, r).
Proof.
  intros Hls Hr. revert fuel. induction ls as [|l ls IH]; intros fuel Hf.
  { destruct fuel; cbn [grep_scan join map concat app]; [done|]. by rewrite find_char_none. }
  destruct fuel as [|f]; [cbn in Hf; lia|]. apply Forall_cons in Hls as [(Hn & Hz & _) Hls].
  cbn [grep_scan]. unfold join. cbn [map concat]. fold (join ls). rewrite <- !app_assoc. cbn [app].
  rewrite upto_nul_nl by done.
  replace (S (length l)) with (length (l ++ [NL])) by (rewrite length_app; cbn; lia).
  rewrite (take_app_length l). replace (l ++ NL :: join ls ++ r) with ((l ++ [NL]) ++ join ls ++ r) by (by rewrite <- app_assoc).
  rewrite take_app_length, drop_app_length. rewrite IH by (done || (cbn in Hf; lia)).
  unfold selected. rewrite filter_cons. destruct (match_ pattern l) eqn:E.
  - rewrite decide_True by done. unfold join. cbn [map concat]. done.
  - rewrite decide_False by done. done.
Qed.

(** Any beginning of a file is some whole lines and a part without a newline. *)
Lemma lines_prefix ls tl b src : Forall (fun l => NL ∉ l) ls -> NL ∉ tl -> b ++ src = join ls ++ tl ->
  exists ls1 ls2 r, ls = ls1 ++ ls2 /\ b = join ls1 ++ r /\ (NL ∉ r) /\ r ++ src = join ls2 ++ tl /\
    (forall l ls3, ls2 = l :: ls3 -> (length r <= length l)%nat).
Proof.
  intros Hls Htl. revert b. induction Hls as [|l ls Hl Hls IH]; intros b Hb.
  - exists [], [], b. split_and!; [done|done| |done|done]. cbn in Hb. set_solver.
  - destruct (decide (length b <= length l)%nat) as [Hlen|Hlen].
    + exists [], (l :: ls), b. split_and!; [done|done| |done|intros ? ? [= <- <-]; done].
      assert (Hp : take (length b) (b ++ src) = take (length b) (join (l :: ls) ++ tl)) by (by rewrite Hb).
      unfold join in Hp. cbn [map concat] in Hp. rewrite <- !app_assoc, take_app_length, take_app_le in Hp by lia.
      intros Hin. rewrite Hp in Hin. apply Hl. by apply (subseteq_take (length b) l).
    + unfold join in Hb. cbn [map concat] in Hb. fold (join ls) in Hb.
      assert (Hd : b = (l ++ [NL]) ++ drop (S (length l)) b).
      { assert (Hp : take (S (length l)) (b ++ src) = take (S (length l)) ((l ++ [NL]) ++ join ls ++ tl)) by (by rewrite Hb, <- app_assoc).
        rewrite take_app_le in Hp by lia. rewrite take_app_length' in Hp by (rewrite length_app; cbn; lia).
        rewrite <- Hp. by rewrite take_drop. }
      destruct (IH (drop (S (length l)) b)) as (ls1 & ls2 & r & -> & Hj & Hr).
      { rewrite Hd in Hb. rewrite <- !app_assoc in Hb. apply app_inv_head, app_inv_head in Hb. by rewrite Hb. }
      exists (l :: ls1), ls2, r. split_and!; [done| |apply Hr..].
      rewrite Hd, Hj. unfold join. cbn [map concat]. by rewrite <- !app_assoc.
Qed.

Lemma selected_app pattern ls1 ls2 : selected pattern (ls1 ++ ls2) = selected pattern ls1 ++ selected pattern ls2.
Proof. unfold selected, join. by rewrite filter_app, map_app, concat_app. Qed.

Lemma read_single n src r inp' : 0 <= n -> read n [src] = (r, inp') ->
  exists src', src = r ++ src' /\ inp' = (if bool_decide (src' = []) then [] else [src']) /\
    (Z.of_nat (length r) = n \/ src' = []) /\ Z.of_nat (length r) <= n.
Proof.
  intros Hn. unfold read. destruct (Z.leb_spec (Z.of_nat (length src)) n); intros [= <- <-].
  - exists []. rewrite app_nil_r. split_and!; [done|done|by right|done].
  - exists (drop (Z.to_nat n) src). split_and!; [by rewrite take_drop| | |].
    + rewrite bool_decide_false; [done|]. intros E. apply (f_equal length) in E. rewrite length_drop in E. cbn in E. lia.
    + left. rewrite length_take. lia.
    + rewrite length_take. lia.
Qed.

Lemma join_length ls : (length ls <= length (join ls))%nat.
Proof. unfold join. induction ls as [|l ls IH]; cbn [map concat length]; [lia|]. rewrite !length_app. cbn. lia. Qed.

(** A full buffer, or all of the input, without a newline holds no line. *)
Lemma no_line ls tl b src : Forall line_ok ls -> b ++ src = join ls ++ tl -> NL ∉ b ->
  src = [] \/ Z.of_nat (length b) = 1023 -> ls = [].
Proof.
  intros Hls Hb Hn Hf. destruct ls as [|l ls]; [done|]. apply Forall_cons in Hls as [(Hl & _ & Hlen) _]. exfalso. apply Hn.
  unfold join in Hb. cbn [map concat] in Hb. rewrite <- !app_assoc in Hb. cbn [app] in Hb.
  destruct Hf as [->|Hf]; [rewrite app_nil_r in Hb; rewrite Hb; set_solver|].
  apply (list_elem_of_lookup_2 _ (length l)). rewrite <- (lookup_app_l b src) by lia. rewrite Hb.
  rewrite lookup_app_r by lia. by rewrite Nat.sub_diag.
Qed.

Definition pieces (src : list Z) : list (list Z) := if bool_decide (src = []) then [] else [src].

Lemma grep_loop_lines pattern fuel buf src ls tl :
  Forall line_ok ls -> NL ∉ tl -> buf ++ src = join ls ++ tl -> NL ∉ buf ->
  Z.of_nat (length buf) <= 1023 -> (length src < fuel)%nat ->
  grep_loop fuel pattern (pieces src) buf = Some (selected pattern ls).
Proof.
  intros Hls Htl. revert buf src ls tl Hls Htl.
  induction fuel as [|f IH]; intros buf src ls tl Hls Htl Hb Hn Hlen Hf; [lia|]. cbn [grep_loop].
  destruct (read _ (pieces src)) as [r inp'] eqn:Er. destruct r as [|c r].
  - f_equal. enough (ls = []) as -> by done. apply (no_line ls tl buf src); [done..|].
    unfold pieces in Er. case_bool_decide; [by left|].
    apply read_single in Er as (src' & -> & _ & Hor & _); [|unfold BUFLEN; lia]. cbn in Hor. unfold BUFLEN in Hor.
    destruct Hor as [Hor| ->]; [right; lia|by left].
  - unfold pieces in Er. case_bool_decide as Hs; [done|].
    apply read_single in Er as (src' & -> & -> & Hor & Hrn); [|unfold BUFLEN; lia]. fold (pieces src').
    set (r0 := c :: r) in *. rewrite app_assoc in Hb.
    assert (Hls' : Forall (fun l => NL ∉ l) ls) by (eapply Forall_impl; [exact Hls|by intros l (? & _)]).
    destruct (lines_prefix ls tl (buf ++ r0) src' Hls' Htl Hb) as (ls1 & ls2 & r1 & -> & Hb1 & Hr1 & Hr2 & _).
    assert (Hfull : src' = [] \/ Z.of_nat (length (buf ++ r0)) = 1023)
      by (rewrite length_app; unfold BUFLEN in Hor; destruct Hor; [right; lia|by left]).
    assert (Hmax : Z.of_nat (length (buf ++ r0)) <= 1023).
    { rewrite length_app. unfold BUFLEN in Hrn. lia. }
    apply Forall_app in Hls as [Hls1 Hls2].
    rewrite Hb1, grep_scan_lines; [|done|done|rewrite length_app; pose proof (join_length ls1); lia].
    rewrite selected_app. destruct (Nat.eqb_spec (length r1) (length (join ls1 ++ r1))) as [He|He].
    + rewrite length_app in He. pose proof (join_length ls1). destruct ls1; [|cbn in *; lia].
      cbn [join map concat app] in Hb1. assert (ls2 = []) as -> by (apply (no_line ls2 tl r1 src'); [done|done|done|by rewrite <- Hb1]).
      rewrite (IH [] src' [] src'); [done|done| |done|set_solver|cbn; lia|].
      * cbn in Hr2. set_solver.
      * rewrite length_app in Hf. cbn in Hf. lia.
    + rewrite (IH r1 src' ls2 tl); [done|done|done|done|done| |].
      * rewrite Hb1, length_app in Hmax. lia.
      * rewrite length_app in Hf. cbn in Hf. lia.
Qed.

(** [grep] selects lines: on a file of lines that fit its buffer, with any text
    without a newline after them, it ends and writes exactly the lines that match
    the pattern, whole and in their order; the text after the last newline is not
    looked at. *)
Theorem grep_selects_lines pattern ls tl :
  Forall line_ok ls -> NL ∉ tl -> grep pattern [join ls ++ tl] = Some (selected pattern ls).
Proof.
  intros Hls Htl. unfold grep. destruct (decide (join ls ++ tl = [])) as [E|E].
  - rewrite E. apply app_nil in E as [E _]. destruct ls; [done|]. pose proof (join_length (l :: ls)). rewrite E in *. cbn in *. lia.
  - rewrite <- (grep_loop_lines pattern (S (length (concat [join ls ++ tl]))) [] (join ls ++ tl) ls tl); try done.
    + f_equal. unfold pieces. by rewrite bool_decide_false.
    + set_solver.
    + cbn [concat]. rewrite app_nil_r. lia.
Qed.

Example grep_selects_lines_witness :
  grep [97; STAR; 98; DOLLAR] [join [[97; 97; 98]; [99]; [98]; [98; 99]] ++ [98]] = Some (join [[97; 97; 98]; [98]]).
Proof.
  transitivity (Some (selected [97; STAR; 98; DOLLAR] [[97; 97; 98]; [99]; [98]; [98; 99]])); [|by vm_compute].
  apply grep_selects_lines; [|unfold NL; set_solver].
  repeat constructor; unfold NL; try set_solver; cbn; lia.
Defined.

(** A line that arrives in two pieces loses the first: [grep] resets its buffer after
    a read that brought no newline. *)
Lemma grep_loses_partial_line : grep [97; 98] [[97]; [98; NL]] = Some [] /\ grep [97; 98] [[97; 98; NL]] = Some [97; 98; NL].
Proof. done. Qed.

(** ** wc *)
Record counts := Counts { wl : Z; ww : Z; wch : Z; inword : bool }.
Definition blanks : list Z := [32; 13; 9; 10; 11].

(** One turn of the loop over the bytes; [strchr] of a NUL finds nothing. *)
Definition wc_byte (k : counts) (b : Z) : counts :=
  let l := if b =? 10 then i32 (wl k + 1) else wl k in
  let c := i32 (wch k + 1) in
  if find_char b blanks is Some _ then Counts l (ww k) c false
  else if negb (inword k) then Counts l (i32 (ww k + 1)) c true
  else Counts l (ww k) c (inword k).

Fixpoint wc_loop (fuel : nat) (inp : list (list Z)) (k : counts) : option counts :=
  match fuel with
  | O => None
  | S f => let (r, inp') := read 512 inp in
           match r with [] => Some k | _ => wc_loop f inp' (foldl wc_byte k r) end
  end.
Definition wc (inp : list (list Z)) : option counts := wc_loop (S (length (concat inp))) inp (Counts 0 0 0 false).

(** An independent definition: a word starts at a byte that is not a blank and has
    no such byte before it. *)
Definition blank (b : Z) : bool := bool_decide (b ∈ blanks).
Fixpoint starts (prev_blank : bool) (l : list Z) : nat :=
  match l with
  | [] => 0
  | b :: l' => (if prev_blank && negb (blank b) then 1 else 0) + starts (blank b) l'
  end%nat.

Lemma find_blank b : (if find_char b blanks is Some _ then true else false) = blank b.
Proof.
  unfold blank. generalize blanks. intros l. unfold find_char. induction l as [|x l IH]; [done|].
  cbn [list_find]. destruct (decide (x = b)) as [Hx|Hx].
  - subst. cbn. symmetry. apply bool_decide_true. set_solver.
  - transitivity (bool_decide (b ∈ l)); [rewrite <- IH; by destruct (list_find _ l) as [[? ?]|]|].
    apply bool_decide_ext. set_solver.
Qed.

Lemma wc_bytes l k : 0 <= wl k <= wch k -> 0 <= ww k <= wch k -> wch k + Z.of_nat (length l) < 2147483648 ->
  foldl wc_byte k l =
  Counts (wl k + Z.of_nat (length (filter (fun b => b = 10) l))) (ww k + Z.of_nat (starts (negb (inword k)) l))
    (wch k + Z.of_nat (length l)) (match last l with Some b => negb (blank b) | None => inword k end).
Proof.
  revert k. induction l as [|b l IH]; intros k Hl Hw Hc.
  { destruct k. cbn. f_equal; lia. }
  cbn [length] in Hc. cbn [foldl].
  assert (Hk : wc_byte k b = Counts (wl k + (if decide (b = 10) then 1 else 0))
     (ww k + (if negb (inword k) && negb (blank b) then 1 else 0)) (wch k + 1) (negb (blank b))).
  { unfold wc_byte. rewrite <- find_blank. rewrite !(i32_small (_ + 1)) by lia.
    destruct (Z.eqb_spec b 10), (decide (b = 10)); try done;
    destruct (find_char b blanks); cbn; rewrite ?andb_false_r; destruct (inword k); cbn; f_equal; lia. }
  rewrite Hk, IH; cbn [wl ww wch inword].
  - rewrite filter_cons. cbn [starts length]. f_equal.
    + destruct (decide (b = 10)); cbn [length]; lia.
    + rewrite negb_involutive. destruct (negb (inword k) && negb (blank b)); lia.
    + lia.
    + rewrite last_cons. by destruct (last l).
  - destruct (decide (b = 10)); lia.
  - destruct (_ && _); lia.
  - lia.
Qed.

Lemma wc_loop_folds fuel inp k : Forall (fun c => c <> []) inp -> (length (concat inp) < fuel)%nat ->
  wc_loop fuel inp k = Some (foldl wc_byte k (concat inp)).
Proof.
  revert inp k. induction fuel as [|f IH]; intros inp k Hne Hf; [lia|]. cbn [wc_loop].
  destruct inp as [|c inp]; [done|]. apply Forall_cons in Hne as [Hc Hne]. unfold read.
  cbn [concat] in Hf. rewrite length_app in Hf. destruct c as [|b c]; [done|].
  destruct (Z.leb_spec (Z.of_nat (length (b :: c))) 512).
  - rewrite IH; [|done|cbn in Hf; lia]. cbn [concat]. by rewrite foldl_app.
  - replace (Z.to_nat 512) with (S 511) by lia. cbn [take drop]. rewrite IH.
    + cbn [concat]. rewrite <- foldl_app. cbn [app]. by rewrite app_assoc, take_drop.
    + constructor; [|done]. intros E. apply (f_equal length) in E. rewrite length_drop in E. cbn in *. lia.
    + cbn [concat]. rewrite length_app, length_drop. cbn in Hf. lia.
Qed.

(** The counts of [wc] depend on the bytes of its input only, not on the pieces it
    arrives in: newlines, word starts and bytes. *)
Lemma wc_counts inp : Forall (fun c => c <> []) inp -> Z.of_nat (length (concat inp)) < 2147483648 ->
  exists b, wc inp = Some (Counts (Z.of_nat (length (filter (fun b => b = 10) (concat inp))))
    (Z.of_nat (starts true (concat inp))) (Z.of_nat (length (concat inp))) b).
Proof.
  intros Hne Hl. unfold wc. rewrite wc_loop_folds by (done || lia). rewrite wc_bytes by (cbn; lia). cbn. by eexists.
Qed.

(** ** cat *)

(** The loop of [cat]: [None] for the bytes [write] accepts all of; the errors make
    the program exit with a message. *)
Fixpoint cat_loop (fuel : nat) (inp : list (list Z)) (out : list Z) : option (list Z) :=
  match fuel with
  | O => None
  | S f => let (r, inp') := read 512 inp in
           match r with [] => Some out | _ => cat_loop f inp' (out ++ r) end
  end.
Definition cat (inp : list (list Z)) : option (list Z) := cat_loop (S (length (concat inp))) inp [].
