(* ===== verification/Console.v ===== *)
(** * The console ([console.c], [uart.c])

    The state is that of the kernel the driver touches: its memory, in which the
    text screen lies, the cursor registers of the display, the serial port, the
    line buffer [input], and the locks.  The echo and [cprintf] go through
    [consputc]; the interrupt handler [consoleintr] edits the line that
    [consoleread] waits for. *)
From S2P Require Import Prelude Layout Memory Locks Digits.

Definition BACKSPACE : Z := 256.
Definition CRTPORT : Z := 980.
Definition INPUT_BUF : Z := 128.
(** [C(x)]: the control characters the handler knows. *)
Definition C (x : Z) : Z := x - 64.
Definition CTRL_D : Z := C 68.
Definition CTRL_H : Z := C 72.
Definition CTRL_P : Z := C 80.
Definition CTRL_U : Z := C 85.
Definition NEWLINE : Z := 10.

(** [crt[i]] of the text screen. *)
Definition CRT : Z := P2V 753664.
Definition crt (i : Z) : Z := CRT + 2 * i.
Definition rd16 (m : mem) (a : Z) : Z := rd8 m a + 256 * rd8 m (a + 1).
Definition wr16 (a v : Z) (m : mem) : mem := wr8 (a + 1) (v ≫ 8) (wr8 a v m).

(** The display's cursor registers behind its index register; the serial port: is
    there one, the values its status register will give, what was sent. *)
Record crtc := Crtc { cr_index : Z; cr_hi : Z; cr_lo : Z }.
Record uart := Uart { u_on : bool; u_lsr : list Z; u_out : list Z }.
Record input := Input { i_buf : list Z; i_r : Z; i_w : Z; i_e : Z }.

Record con := Con {
  c_mem : mem;
  c_crtc : crtc;
  c_uart : uart;
  c_input : input;
  c_locking : bool;      (** [cons.locking] *)
  c_panicked : bool;
  c_wakes : nat;         (** calls of [wakeup(&input.r)] *)
  c_ip : bool;           (** the caller holds its inode's lock *)
  c_out : list Z;        (** bytes stored through [dst] *)
  c_held : list lock }.

#[export, program] Instance con_locks : HasLocks con := {|
  locks_of := c_held;
  with_locks L s := Con (c_mem s) (c_crtc s) (c_uart s) (c_input s) (c_locking s) (c_panicked s) (c_wakes s) (c_ip s) (c_out s) L |}.
Next Obligation. done. Qed.
Next Obligation. done. Qed.
Next Obligation. by intros []. Qed.

Definition on_mem (f : mem -> mem) : M con unit := modify (fun s =>
  Con (f (c_mem s)) (c_crtc s) (c_uart s) (c_input s) (c_locking s) (c_panicked s) (c_wakes s) (c_ip s) (c_out s) (c_held s)).
Definition on_crtc (f : crtc -> crtc) : M con unit := modify (fun s =>
  Con (c_mem s) (f (c_crtc s)) (c_uart s) (c_input s) (c_locking s) (c_panicked s) (c_wakes s) (c_ip s) (c_out s) (c_held s)).
Definition on_uart (f : uart -> uart) : M con unit := modify (fun s =>
  Con (c_mem s) (c_crtc s) (f (c_uart s)) (c_input s) (c_locking s) (c_panicked s) (c_wakes s) (c_ip s) (c_out s) (c_held s)).
Definition with_input (i : input) (s : con) : con :=
  Con (c_mem s) (c_crtc s) (c_uart s) i (c_locking s) (c_panicked s) (c_wakes s) (c_ip s) (c_out s) (c_held s).
Definition on_input (f : input -> input) : M con unit := modify (fun s => with_input (f (c_input s)) s).
Definition set_locking (b : bool) : M con unit := modify (fun s =>
  Con (c_mem s) (c_crtc s) (c_uart s) (c_input s) b (c_panicked s) (c_wakes s) (c_ip s) (c_out s) (c_held s)).
Definition set_panicked : M con unit := modify (fun s =>
  Con (c_mem s) (c_crtc s) (c_uart s) (c_input s) (c_locking s) true (c_wakes s) (c_ip s) (c_out s) (c_held s)).
Definition wakeup_input : M con unit := modify (fun s =>
  Con (c_mem s) (c_crtc s) (c_uart s) (c_input s) (c_locking s) (c_panicked s) (S (c_wakes s)) (c_ip s) (c_out s) (c_held s)).
Definition set_ip (b : bool) : M con unit := modify (fun s =>
  Con (c_mem s) (c_crtc s) (c_uart s) (c_input s) (c_locking s) (c_panicked s) (c_wakes s) b (c_out s) (c_held s)).
Definition put_out (b : Z) : M con unit := modify (fun s =>
  Con (c_mem s) (c_crtc s) (c_uart s) (c_input s) (c_locking s) (c_panicked s) (c_wakes s) (c_ip s) (c_out s ++ [b]) (c_held s)).
Definition ip_unlock : M con unit := set_ip false.
Definition ip_lock : M con unit := set_ip true.

(** ** Output *)

(** The port instructions on the display: port [CRTPORT] selects a register, the
    next port is the register. *)
Definition outb (port v : Z) : M con unit := on_crtc (fun c =>
  if port =? CRTPORT then Crtc (u8 v) (cr_hi c) (cr_lo c)
  else if cr_index c =? 14 then Crtc (cr_index c) (u8 v) (cr_lo c)
  else if cr_index c =? 15 then Crtc (cr_index c) (cr_hi c) (u8 v) else c).
Definition inb (port : Z) : M con Z := gets (fun s =>
  let c := c_crtc s in
  if port =? CRTPORT then cr_index c
  else if cr_index c =? 14 then cr_hi c else if cr_index c =? 15 then cr_lo c else 0).

(** The wait for the transmitter: at most 128 reads of the status register. *)
Fixpoint uart_wait (n : nat) (lsr : list Z) : list Z :=
  match n, lsr with
  | S n', x :: lsr' => if truth (x &&& 32) then lsr' else uart_wait n' lsr'
  | _, _ => lsr
  end.
Definition uartputc (c : Z) : M con unit := on_uart (fun u =>
  if u_on u then Uart true (uart_wait 128 (u_lsr u)) (u_out u ++ [u8 c]) else u).

(** The part of [cgaputc] that moves the cursor, and the part that scrolls. *)
Definition cga_move (c pos : Z) : M con Z :=
  if c =? NEWLINE then mret (pos + (80 - Z.rem pos 80))
  else if c =? BACKSPACE then mret (if 0 <? pos then pos - 1 else pos)
  else on_mem (wr16 (crt pos) ((c &&& 255) ||| 1792)) ;; mret (pos + 1).
Definition cga_scroll (pos : Z) : M con Z :=
  if 24 <=? Z.quot pos 80 then
    on_mem (memmove CRT (crt 80) (2 * 23 * 80)) ;;
    on_mem (memset (crt (pos - 80)) 0 (u32 (2 * (24 * 80 - (pos - 80))))) ;;
    mret (pos - 80)
  else mret pos.

Definition cgaputc (c : Z) : M con unit :=
  outb CRTPORT 14 ;;
  hi ← inb (CRTPORT + 1);
  outb CRTPORT 15 ;;
  lo ← inb (CRTPORT + 1);
  pos ← cga_move c ((hi ≪ 8) ||| lo);
  if (pos <? 0) || (25 * 80 <? pos) then panic "pos under/overflow" else
  pos ← cga_scroll pos;
  outb CRTPORT 14 ;;
  outb (CRTPORT + 1) (pos ≫ 8) ;;
  outb CRTPORT 15 ;;
  outb (CRTPORT + 1) pos ;;
  on_mem (wr16 (crt pos) (32 ||| 1792)).

(** A CPU that prints after another panicked stops for ever. *)
Definition echo_uart (c : Z) : M con unit :=
  if c =? BACKSPACE then uartputc 8 ;; uartputc 32 ;; uartputc 8 else uartputc c.
Definition consputc (c : Z) : M con unit :=
  p ← gets c_panicked;
  if (p : bool) then spin else echo_uart c ;; cgaputc c.

(** [printint] with a field width: the padding comes after the digits. *)
Definition printint (xx base : Z) (sign : bool) (width : Z) : M con unit :=
  let buf := int_buf digits_lower xx base sign in
  for_each (rev buf) consputc ;;
  for_each (replicate (Z.to_nat (width - Z.of_nat (length buf))) 32) consputc.


(** ** cprintf *)
Definition PERCENT : Z := 37.
Definition null_text : list Z := [40; 110; 117; 108; 108; 41].

(** [while(c >= '0' && c <= '9')]: the width and the format from the first other
    character on. *)
Fixpoint read_width (fmt : list Z) (width : Z) : Z * list Z :=
  match fmt with
  | c :: fmt' => if (48 <=? c) && (c <=? 57) then read_width fmt' (i32 (i32 (width * 10) + c - 48)) else (width, fmt)
  | [] => (width, [])
  end.

Definition next_arg (ap : list Z) : M con Z :=
  match ap with a :: _ => mret a | [] => undef "argument" end.

(** [for(; *s; s++) consputc( *s);] and the padding after it. *)
Fixpoint puts (n : nat) (s : Z) : M con unit :=
  match n with
  | O => spin
  | S n' => c ← gets (fun st => rd8 (c_mem st) s);
            if truth c then consputc c ;; puts n' (s + 1) else mret tt
  end.
Definition strlen_at (s : Z) (fuel : nat) : M con Z :=
  o ← gets (fun st => strlen (c_mem st) s fuel);
  match o with Some n => mret n | None => spin end.
Definition pad (width len : Z) : M con unit := for_each (replicate (Z.to_nat (width - len)) 32) consputc.

(** The [switch] on the character after the percent sign and the width. *)
Definition directive (fuel : nat) (c width : Z) (ap : list Z) : M con (list Z) :=
  if c =? 100 then a ← next_arg ap; printint a 10 true width ;; mret (tail ap)
  else if (c =? 120) || (c =? 112) then a ← next_arg ap; printint a 16 false width ;; mret (tail ap)
  else if c =? 115 then
    s ← next_arg ap;
    (if s =? 0 then for_each null_text consputc ;; pad width (Z.of_nat (length null_text))
     else len ← strlen_at s fuel; puts fuel s ;; pad width len) ;;
    mret (tail ap)
  else if c =? PERCENT then consputc PERCENT ;; mret ap
  else consputc PERCENT ;; consputc c ;; mret ap.

(** The loop over the format; a format that ends inside a directive stops it. *)
Fixpoint cprintf_loop (n fuel : nat) (fmt : list Z) (ap : list Z) : M con unit :=
  match n, fmt with
  | S n', c :: fmt' =>
      if c !=? PERCENT then consputc c ;; cprintf_loop n' fuel fmt' ap
      else match read_width fmt' 0 with
           | (width, d :: fmt'') => ap' ← directive fuel d width ap; cprintf_loop n' fuel fmt'' ap'
           | (_, []) => mret tt
           end
  | _, _ => mret tt
  end.

Definition cprintf (fuel : nat) (fmt : list Z) (ap : list Z) : M con unit :=
  locking ← gets c_locking;
  when locking (acquire Lcons) ;;
  cprintf_loop (length fmt) fuel fmt ap ;;
  when locking (release Lcons).

(** [panic]: what it does before its endless loop; [lapicid] and the return
    addresses come from the hardware and the stack. *)
Definition panic_prefix : list Z := map (fun a => Z.of_N (Ascii.N_of_ascii a)) (String.list_ascii_of_string "lapicid %d: panic: ").
Definition panic_run (fuel : nat) (lapicid : Z) (s : list Z) (pcs : list Z) : M con unit :=
  set_locking false ;;
  cprintf fuel panic_prefix [lapicid] ;;
  cprintf fuel s [] ;;
  cprintf fuel [NEWLINE] [] ;;
  for_each pcs (fun pc => cprintf fuel [32; PERCENT; 112] [pc]) ;;
  set_panicked.

(** ** Input *)
Definition byte_at (i : input) (k : Z) : Z := i_buf i !!! Z.to_nat (k `mod` INPUT_BUF).

(** [case C('U')]: back to the previous newline or the start of the line. *)
Fixpoint kill_line (n : nat) : M con unit :=
  match n with
  | O => spin
  | S n' =>
      i ← gets c_input;
      if (i_e i !=? i_w i) && (byte_at i (u32 (i_e i - 1)) !=? NEWLINE) then
        on_input (fun i => Input (i_buf i) (i_r i) (i_w i) (u32 (i_e i - 1))) ;;
        consputc BACKSPACE ;;
        kill_line n'
      else mret tt
  end.

(** [input.buf[input.e++ % INPUT_BUF] = c] *)
Definition store (c : Z) (i : input) : input :=
  Input (<[Z.to_nat (i_e i `mod` INPUT_BUF) := u8 c]> (i_buf i)) (i_r i) (i_w i) (u32 (i_e i + 1)).

(** One turn of the loop of [consoleintr]; true for a process listing. *)
Definition console_char (c : Z) : M con bool :=
  if c =? CTRL_P then mret true
  else if c =? CTRL_U then kill_line 129 ;; mret false
  else if (c =? CTRL_H) || (c =? 127) then
    i ← gets c_input;
    when (i_e i !=? i_w i)
      (on_input (fun i => Input (i_buf i) (i_r i) (i_w i) (u32 (i_e i - 1))) ;; consputc BACKSPACE) ;;
    mret false
  else
    i ← gets c_input;
    when ((c !=? 0) && (u32 (i_e i - i_r i) <? INPUT_BUF))
      (let c := if c =? 13 then NEWLINE else c in
       on_input (store c) ;;
       consputc c ;;
       i ← gets c_input;
       when ((c =? NEWLINE) || (c =? CTRL_D) || (i_e i =? u32 (i_r i + INPUT_BUF)))
         (on_input (fun i => Input (i_buf i) (i_r i) (i_e i) (i_e i)) ;; wakeup_input)) ;;
    mret false.

(** [consoleintr]: the characters [getc] gives until it has none; the result tells
    whether [procdump] is called after the lock is released. *)
Fixpoint console_chars (cs : list Z) : M con bool :=
  match cs with
  | [] => mret false
  | c :: cs' => d ← console_char c; d' ← console_chars cs'; mret (d || d')
  end.
Definition consoleintr (cs : list Z) : M con bool :=
  acquire Lcons ;;
  d ← console_chars cs;
  release Lcons ;;
  mret d.

(** How a run of [consoleread] ends: with a result, or asleep on [&input.r] with
    [n] bytes still wanted. *)
Inductive cout := CRet (r : Z) | CSleep (n : Z).

Fixpoint read_loop (fuel : nat) (killed : bool) (target n : Z) : M con cout :=
  if negb (0 <? n) then release Lcons ;; ip_lock ;; mret (CRet (target - n)) else
  match fuel with
  | O => spin
  | S f =>
      i ← gets c_input;
      if i_r i =? i_w i then
        if killed then release Lcons ;; ip_lock ;; mret (CRet (-1))
        else release Lcons ;; mret (CSleep n)
      else
        let c := i8 (byte_at i (i_r i)) in
        on_input (fun i => Input (i_buf i) (u32 (i_r i + 1)) (i_w i) (i_e i)) ;;
        if c =? CTRL_D then
          when (n <? target) (on_input (fun i => Input (i_buf i) (u32 (i_r i - 1)) (i_w i) (i_e i))) ;;
          release Lcons ;; ip_lock ;; mret (CRet (target - n))
        else
          put_out (u8 c) ;;
          if c =? NEWLINE then release Lcons ;; ip_lock ;; mret (CRet (target - (n - 1)))
          else read_loop f killed target (n - 1)
  end.
(** A run: from the call, or from the sleep with [n] bytes left. *)
Definition consoleread_run (killed : bool) (target n : Z) : M con cout :=
  acquire Lcons ;; read_loop (S (Z.to_nat n)) killed target n.
Definition consoleread (killed : bool) (n : Z) : M con cout :=
  ip_unlock ;; consoleread_run killed n n.

Definition consolewrite (buf : list Z) (n : Z) : M con Z :=
  ip_unlock ;;
  acquire Lcons ;;
  for_each buf (fun b => consputc (b &&& 255)) ;;
  release Lcons ;;
  ip_lock ;;
  mret n.

(** [consoleinit]: the fields of the driver; the entries in [devsw] and the
    interrupt controller are outside it. *)
Definition consoleinit : M con unit := set_locking true.
