(* ===== verification/ConsoleScreen.v ===== *)
(** * What the console shows

    The screen against an abstract terminal of 24 lines, and [cprintf] against the
    text its format stands for. *)
From S2P Require Import Prelude Layout Memory Locks Digits Console.

(** ** The terminal *)
Definition COLS : Z := 80.
Definition CELLS : Z := 1920.
Record term := Term { t_cells : list Z; t_pos : Z }.
Definition cell (c : Z) : Z := u8 c + 1792.
Definition cursor_cell : Z := 1824.

(** A character of output: newline goes to the next line, a backspace one cell
    back, any other character is written at the cursor; past the last line the
    lines move up; the cell under the cursor is cleared. *)
Definition term_put (c : Z) (t : term) : term :=
  let (cells, pos) :=
    if c =? NEWLINE then (t_cells t, (t_pos t `div` COLS + 1) * COLS)
    else if c =? BACKSPACE then (t_cells t, Z.max 0 (t_pos t - 1))
    else (<[Z.to_nat (t_pos t) := cell c]> (t_cells t), t_pos t + 1) in
  let (cells, pos) :=
    if pos =? CELLS then (drop (Z.to_nat COLS) cells ++ replicate (Z.to_nat COLS) 0, CELLS - COLS) else (cells, pos) in
  Term (<[Z.to_nat pos := cursor_cell]> cells) pos.

(** The terminal the driver's state stands for. *)
Definition cells_of (m : mem) : list Z := (fun i => rd16 m (crt i)) <$> seqZ 0 CELLS.
Definition cursor (c : crtc) : Z := cr_hi c * 256 + cr_lo c.
Definition term_of (s : con) : term := Term (cells_of (c_mem s)) (cursor (c_crtc s)).

Record screen_ok (s : con) : Prop := ScreenOk {
  so_bytes : bytes_ok (c_mem s);
  so_hi : 0 <= cr_hi (c_crtc s) < 256;
  so_lo : 0 <= cr_lo (c_crtc s) < 256;
  so_pos : cursor (c_crtc s) < CELLS }.

(** ** Cells of memory *)
Lemma rd16_wr16 m p v i : 0 <= v < 65536 -> rd16 (wr16 (crt p) v m) (crt i) = if decide (p = i) then v else rd16 m (crt i).
Proof.
  intros Hv. unfold rd16, wr16, crt. generalize CRT. intros C0.
  rewrite !rd8_wr8, Z.shiftr_div_pow2 by lia. change (2 ^ 8) with 256. rewrite (decide_False (P := C0 + 2 * p + 1 = C0 + 2 * i)) by lia.
  rewrite (decide_False (P := C0 + 2 * p = C0 + 2 * i + 1)) by lia. destruct (decide (p = i)) as [->|Hne].
  - rewrite !decide_True by done. unfold u8. zlia.
  - by rewrite !decide_False by lia.
Qed.
Lemma rd16_scroll m i : bytes_ok m -> 0 <= i < CELLS ->
  rd16 (memset (crt (CELLS - COLS)) 0 160 (memmove CRT (crt 80) 3680 m)) (crt i) =
  if decide (i < 1840) then rd16 m (crt (i + 80)) else 0.
Proof.
  intros Hb Hi. unfold rd16, crt, CELLS, COLS in *. generalize CRT. intros C0.
  rewrite !(rd8_memset _ _ 160), !rd8_memmove by lia. destruct (decide (i < 1840)).
  - rewrite !(decide_False (P := C0 + 2 * (1920 - 80) <= _ < _)) by lia. rewrite !decide_True, !u8_small by (lia || apply Hb).
    replace (C0 + 2 * 80 + (C0 + 2 * i - C0)) with (C0 + 2 * (i + 80)) by lia.
    by replace (C0 + 2 * 80 + (C0 + 2 * i + 1 - C0)) with (C0 + 2 * (i + 80) + 1) by lia.
  - by rewrite !decide_True by lia.
Qed.
Lemma cells_length m : length (cells_of m) = 1920%nat.
Proof. unfold cells_of. by rewrite length_fmap, length_seqZ. Qed.
Lemma cells_lookup m i : 0 <= i < CELLS -> cells_of m !! Z.to_nat i = Some (rd16 m (crt i)).
Proof.
  intros Hi. unfold cells_of. rewrite list_lookup_fmap, lookup_seqZ_lt by (unfold CELLS in *; lia). cbn. do 3 f_equal. lia.
Qed.
Lemma cells_ext m l : length l = 1920%nat ->
  (forall i, 0 <= i < CELLS -> l !! Z.to_nat i = Some (rd16 m (crt i))) -> cells_of m = l.
Proof.
  intros Hl Hi. apply list_eq. intros n. destruct (decide (n < 1920)%nat) as [Hn|Hn].
  - rewrite <- (Nat2Z.id n), cells_lookup, Hi; [done|unfold CELLS; lia..].
  - rewrite !lookup_ge_None_2; [done|lia|rewrite cells_length; lia].
Qed.

(** ** One character *)
Definition mem_move (c pos : Z) (m : mem) : mem :=
  if (c =? NEWLINE) || (c =? BACKSPACE) then m else wr16 (crt pos) (cell c) m.
Definition pos_move (c pos : Z) : Z :=
  if c =? NEWLINE then (pos `div` COLS + 1) * COLS else if c =? BACKSPACE then Z.max 0 (pos - 1) else pos + 1.
Definition mem_scroll (pos : Z) (m : mem) : mem :=
  if pos =? CELLS then memset (crt (CELLS - COLS)) 0 160 (memmove CRT (crt 80) 3680 m) else m.
Definition pos_scroll (pos : Z) : Z := if pos =? CELLS then CELLS - COLS else pos.

Lemma pos_move_range c pos : 0 <= pos < CELLS -> 0 <= pos_move c pos <= CELLS.
Proof. intros Hp. unfold pos_move, CELLS, COLS in *. repeat case_match; zlia. Qed.
Lemma pos_scroll_range pos : 0 <= pos <= CELLS -> 0 <= pos_scroll pos < CELLS.
Proof. intros Hp. unfold pos_scroll, CELLS, COLS in *. case_match; lia. Qed.

Lemma cell_or c : (c &&& 255) ||| 1792 = cell c.
Proof.
  change 255 with (Z.ones 8). rewrite Z.land_ones by lia. change (2 ^ 8) with 256. fold (u8 c).
  unfold cell. rewrite Z.lor_comm, (lor_low 8); [lia|lia|done|apply u8_range].
Qed.
Lemma cell_range c : 0 <= cell c < 65536.
Proof. unfold cell. pose proof (u8_range c). lia. Qed.

Definition new_mem (c : Z) (s : con) : mem :=
  let pos := pos_move c (cursor (c_crtc s)) in
  wr16 (crt (pos_scroll pos)) cursor_cell (mem_scroll pos (mem_move c (cursor (c_crtc s)) (c_mem s))).
Definition new_crtc (c : Z) (s : con) : crtc :=
  let pos := pos_scroll (pos_move c (cursor (c_crtc s))) in Crtc 15 (pos `div` 256) (pos `mod` 256).
Definition after_put (c : Z) (s : con) : con :=
  Con (new_mem c s) (new_crtc c s) (c_uart s) (c_input s) (c_locking s) (c_panicked s) (c_wakes s) (c_ip s) (c_out s) (c_held s).

Lemma cursor_split p : cursor (Crtc 15 (p `div` 256) (p `mod` 256)) = p.
Proof. unfold cursor. cbn. zlia. Qed.
Lemma cursor_or s : screen_ok s -> (cr_hi (c_crtc s) ≪ 8) ||| cr_lo (c_crtc s) = cursor (c_crtc s).
Proof.
  intros [_ Hh Hl _]. unfold cursor. rewrite Z.shiftl_mul_pow2 by lia.
  rewrite (lor_low 8); [done|lia|change (2 ^ 8) with 256; zlia|done].
Qed.

Definition set_mem (m : mem) (s : con) : con :=
  Con m (c_crtc s) (c_uart s) (c_input s) (c_locking s) (c_panicked s) (c_wakes s) (c_ip s) (c_out s) (c_held s).
Definition set_crtc (c : crtc) (s : con) : con :=
  Con (c_mem s) c (c_uart s) (c_input s) (c_locking s) (c_panicked s) (c_wakes s) (c_ip s) (c_out s) (c_held s).

Lemma cga_move_done c pos s : 0 <= pos -> cga_move c pos s = Done (pos_move c pos) (set_mem (mem_move c pos (c_mem s)) s).
Proof.
  intros Hp. unfold cga_move, pos_move, mem_move, COLS. destruct (c =? NEWLINE); cbn [orb].
  { rewrite Z.rem_mod_nonneg by lia. destruct s. unfold mret, M_ret, set_mem. cbn. f_equal. zlia. }
  destruct (c =? BACKSPACE); [|by rewrite <- cell_or].
  destruct s. unfold mret, M_ret, set_mem. cbn. f_equal. case_match; lia.
Qed.
Lemma cga_scroll_done pos s : 0 <= pos <= CELLS -> cga_scroll pos s = Done (pos_scroll pos) (set_mem (mem_scroll pos (c_mem s)) s).
Proof.
  intros Hp. unfold cga_scroll, pos_scroll, mem_scroll, CELLS, COLS in *. rewrite Z.quot_div_nonneg by lia.
  destruct (Z.eqb_spec pos 1920) as [->|Hne]; [done|].
  rewrite (proj2 (Z.leb_gt 24 (pos `div` 80))) by zlia. by destruct s.
Qed.
Lemma read_cursor s : screen_ok s ->
  (outb CRTPORT 14 ;; hi ← inb (CRTPORT + 1); outb CRTPORT 15 ;; lo ← inb (CRTPORT + 1); mret ((hi ≪ 8) ||| lo)) s =
  Done (cursor (c_crtc s)) (set_crtc (Crtc 15 (cr_hi (c_crtc s)) (cr_lo (c_crtc s))) s).
Proof. intros Hs. by rewrite <- cursor_or. Qed.
Lemma write_cursor pos s : 0 <= pos < 65536 ->
  (outb CRTPORT 14 ;; outb (CRTPORT + 1) (pos ≫ 8) ;; outb CRTPORT 15 ;; outb (CRTPORT + 1) pos) s =
  Done tt (set_crtc (Crtc 15 (pos `div` 256) (pos `mod` 256)) s).
Proof.
  intros Hp. rewrite Z.shiftr_div_pow2 by lia. change (2 ^ 8) with 256.
  transitivity (Done tt (set_crtc (Crtc 15 (u8 (pos `div` 256)) (u8 pos)) s)); [done|]. by rewrite u8_small by zlia.
Qed.

Lemma cgaputc_done c s : screen_ok s -> cgaputc c s = Done tt (after_put c s).
Proof.
  intros Hs. pose proof (read_cursor s Hs) as Hr. destruct Hs as [Hb Hh Hl Hp].
  assert (Hp0 : 0 <= cursor (c_crtc s)) by (unfold cursor; lia).
  pose proof (pos_move_range c (cursor (c_crtc s)) ltac:(lia)) as Hm.
  pose proof (pos_scroll_range _ Hm) as Hsc.
  unfold cgaputc. unfold mbind, M_bind, mret, M_ret in *.
  destruct (outb CRTPORT 14 s) as [[] s1| | | |]; try done.
  destruct (inb (CRTPORT + 1) s1) as [hi s2| | | |]; try done.
  destruct (outb CRTPORT 15 s2) as [[] s3| | | |]; try done.
  destruct (inb (CRTPORT + 1) s3) as [lo s4| | | |]; try done. injection Hr as -> ->.
  rewrite cga_move_done by done.
  destruct (Z.ltb_spec (pos_move c (cursor (c_crtc s))) 0) as [Hlt|_]; [lia|].
  destruct (Z.ltb_spec (25 * 80) (pos_move c (cursor (c_crtc s)))) as [Hlt|_]; [unfold CELLS in *; lia|]. cbn [orb].
  rewrite cga_scroll_done by done.
  match goal with |- context [outb CRTPORT 14 ?x] => pose proof (write_cursor (pos_scroll (pos_move c (cursor (c_crtc s)))) x ltac:(unfold CELLS in *; lia)) as Hw end.
  unfold mbind, M_bind in Hw.
  destruct (outb CRTPORT 14 _) as [[] t1| | | |]; try done.
  destruct (outb (CRTPORT + 1) _ t1) as [[] t2| | | |]; try done.
  destruct (outb CRTPORT 15 t2) as [[] t3| | | |]; try done.
  rewrite Hw. done.
Qed.

Lemma bytes_ok_wr16 a v m : bytes_ok m -> bytes_ok (wr16 a v m).
Proof. intros. unfold wr16. by repeat apply wr8_bytes_ok. Qed.

Lemma after_put_ok c s : screen_ok s -> screen_ok (after_put c s).
Proof.
  intros [Hb Hh Hl Hp]. assert (Hp0 : 0 <= cursor (c_crtc s)) by (unfold cursor; lia).
  pose proof (pos_scroll_range _ (pos_move_range c (cursor (c_crtc s)) ltac:(lia))) as Hsc.
  split; cbn.
  - unfold new_mem. apply bytes_ok_wr16. unfold mem_scroll, mem_move. 
    assert (bytes_ok (if (c =? NEWLINE) || (c =? BACKSPACE) then c_mem s else wr16 (crt (cursor (c_crtc s))) (cell c) (c_mem s)))
      by (case_match; [done|by apply bytes_ok_wr16]).
    destruct (pos_move _ _ =? CELLS); [|done]. apply memset_bytes_ok; [lia|]. apply memmove_bytes_ok; [lia|done].
  - unfold CELLS in *. zlia.
  - zlia.
  - unfold new_crtc. rewrite cursor_split. lia.
Qed.

(** The driver's screen is the terminal: a character changes both in the same way. *)
Lemma after_put_term c s : screen_ok s -> term_of (after_put c s) = term_put c (term_of s).
Proof.
  intros [Hb Hh Hl Hp]. assert (Hp0 : 0 <= cursor (c_crtc s)) by (unfold cursor; lia).
  set (pos := cursor (c_crtc s)) in *.
  pose proof (pos_move_range c pos ltac:(lia)) as Hm. pose proof (pos_scroll_range _ Hm) as Hsc.
  assert (Hcells : cells_of (mem_move c pos (c_mem s)) =
    if (c =? NEWLINE) || (c =? BACKSPACE) then cells_of (c_mem s) else <[Z.to_nat pos := cell c]> (cells_of (c_mem s))).
  { unfold mem_move. case_match; [done|]. apply cells_ext; [by rewrite length_insert, cells_length|].
    intros i Hi. rewrite rd16_wr16 by apply cell_range. destruct (decide (pos = i)) as [->|Hne].
    - by rewrite list_lookup_insert_eq by (rewrite cells_length; unfold CELLS in *; lia).
    - rewrite list_lookup_insert_ne by lia. by apply cells_lookup. }
  assert (Hmb : bytes_ok (mem_move c pos (c_mem s))) by (unfold mem_move; case_match; [done|by apply bytes_ok_wr16]).
  assert (Hs : cells_of (mem_scroll (pos_move c pos) (mem_move c pos (c_mem s))) =
    if pos_move c pos =? CELLS then drop (Z.to_nat COLS) (cells_of (mem_move c pos (c_mem s))) ++ replicate (Z.to_nat COLS) 0
    else cells_of (mem_move c pos (c_mem s))).
  { unfold mem_scroll. destruct (pos_move c pos =? CELLS); [|done]. apply cells_ext; [by rewrite length_app, length_drop, cells_length, length_replicate|].
    intros i Hi. rewrite rd16_scroll by done. unfold CELLS, COLS in *. case_decide.
    - rewrite lookup_app_l by (rewrite length_drop, cells_length; lia). rewrite lookup_drop.
      replace (Z.to_nat 80 + Z.to_nat i)%nat with (Z.to_nat (i + 80)) by lia. apply cells_lookup. unfold CELLS. lia.
    - rewrite lookup_app_r by (rewrite length_drop, cells_length; lia). apply lookup_replicate_2.
      rewrite length_drop, cells_length. lia. }
  assert (Hfin : cells_of (new_mem c s) = <[Z.to_nat (pos_scroll (pos_move c pos)) := cursor_cell]> (cells_of (mem_scroll (pos_move c pos) (mem_move c pos (c_mem s))))).
  { apply cells_ext; [by rewrite length_insert, cells_length|]. intros i Hi. unfold new_mem. fold pos.
    rewrite rd16_wr16 by (unfold cursor_cell; lia). case_decide as Hd.
    - subst i. rewrite list_lookup_insert_eq; [done|rewrite cells_length; unfold CELLS in *; lia].
    - rewrite list_lookup_insert_ne by lia. by apply cells_lookup. }
  unfold term_of, term_put. cbn [t_cells t_pos after_put c_mem c_crtc]. fold pos. rewrite Hfin, Hs, Hcells.
  assert (Hc : cursor (new_crtc c s) = pos_scroll (pos_move c pos)) by apply cursor_split.
  rewrite Hc. clear. unfold pos_scroll, pos_move.
  destruct (c =? NEWLINE); cbn [orb]; [|destruct (c =? BACKSPACE)]; match goal with |- context [?x =? CELLS] => destruct (x =? CELLS) end; done.
Qed.

(** Only the cells of the 24 lines are written. *)
Lemma after_put_mem c s a : screen_ok s -> a < CRT \/ CRT + 2 * CELLS <= a -> rd8 (c_mem (after_put c s)) a = rd8 (c_mem s) a.
Proof.
  intros [Hb Hh Hl Hp] Ha. assert (Hp0 : 0 <= cursor (c_crtc s)) by (unfold cursor; lia).
  pose proof (pos_scroll_range _ (pos_move_range c (cursor (c_crtc s)) ltac:(lia))) as Hsc.
  assert (Hw : forall p v m, 0 <= p < CELLS -> rd8 (wr16 (crt p) v m) a = rd8 m a).
  { intros p v m Hpp. unfold wr16, crt, CELLS in *. by rewrite !rd8_wr8_ne by lia. }
  cbn. unfold new_mem. rewrite Hw by done. unfold mem_scroll, mem_move.
  destruct (pos_move _ _ =? CELLS); [unfold crt, CELLS, COLS in *; rewrite rd8_memset, rd8_memmove, !decide_False by lia|];
  destruct (_ || _); (done || by apply Hw).
Qed.

(** ** Sequences of characters *)
Definition uput (c : Z) (u : uart) : uart :=
  if u_on u then Uart true (uart_wait 128 (u_lsr u)) (u_out u ++ [u8 c]) else u.
Definition sent (c : Z) (u : uart) : uart := if c =? BACKSPACE then uput 8 (uput 32 (uput 8 u)) else uput c u.
Definition emit (c : Z) (s : con) : con :=
  Con (new_mem c s) (new_crtc c s) (sent c (c_uart s)) (c_input s) (c_locking s) (c_panicked s) (c_wakes s) (c_ip s) (c_out s) (c_held s).
Definition emits (cs : list Z) (s : con) : con := foldl (fun s c => emit c s) s cs.

(** The driver can print: the screen is in order and no CPU has panicked. *)
Definition can_print (s : con) : Prop := screen_ok s /\ c_panicked s = false.

Lemma consputc_done c s : can_print s -> consputc c s = Done tt (emit c s).
Proof.
  intros [Hs Hp]. unfold consputc, gets, mbind, M_bind. rewrite Hp.
  assert (Hu : echo_uart c s = Done tt (Con (c_mem s) (c_crtc s) (sent c (c_uart s)) (c_input s) (c_locking s) (c_panicked s) (c_wakes s) (c_ip s) (c_out s) (c_held s)))
    by (unfold echo_uart, sent; by destruct (c =? BACKSPACE)).
  rewrite Hu. rewrite cgaputc_done; [done|]. by destruct Hs.
Qed.
Lemma can_print_locks L s : can_print s -> can_print (with_locks L s).
Proof. intros [[] ?]. by split. Qed.
Lemma emit_ok c s : can_print s -> can_print (emit c s).
Proof. intros [Hs Hp]. split; [|done]. destruct (after_put_ok c s Hs). by split. Qed.
Lemma emits_ok cs s : can_print s -> can_print (emits cs s).
Proof. revert s. induction cs as [|c cs IH]; intros s Hs; [done|]. by apply IH, emit_ok. Qed.
Lemma for_each_consputc cs s : can_print s -> for_each cs consputc s = Done tt (emits cs s).
Proof.
  revert s. induction cs as [|c cs IH]; intros s Hs; [done|]. cbn [for_each]. unfold mbind, M_bind.
  rewrite consputc_done by done. by apply IH, emit_ok.
Qed.
Lemma emits_cons c cs s : emits (c :: cs) s = emits cs (emit c s).
Proof. done. Qed.
Lemma emits_app cs1 cs2 s : emits (cs1 ++ cs2) s = emits cs2 (emits cs1 s).
Proof. apply foldl_app. Qed.
Lemma emits_term cs s : can_print s -> term_of (emits cs s) = foldl (fun t c => term_put c t) (term_of s) cs.
Proof.
  revert s. induction cs as [|c cs IH]; intros s Hs; [done|]. rewrite emits_cons, IH by by apply emit_ok. cbn [foldl]. f_equal.
  by apply (after_put_term c s), Hs.
Qed.
Lemma emits_mem cs s a : can_print s -> a < CRT \/ CRT + 2 * CELLS <= a -> rd8 (c_mem (emits cs s)) a = rd8 (c_mem s) a.
Proof.
  revert s. induction cs as [|c cs IH]; intros s Hs Ha; [done|]. rewrite emits_cons, IH by (done || by apply emit_ok).
  by apply (after_put_mem c s), Ha; apply Hs.
Qed.
(** Printing leaves everything but the devices and the screen as it is. *)
Lemma emits_frame cs s :
  emits cs s = Con (c_mem (emits cs s)) (c_crtc (emits cs s)) (c_uart (emits cs s)) (c_input s) (c_locking s) (c_panicked s) (c_wakes s) (c_ip s) (c_out s) (c_held s).
Proof. revert s. induction cs as [|c cs IH]; intros s; [by destruct s|]. rewrite emits_cons. by rewrite IH. Qed.
Lemma emits_locks cs L s : emits cs (with_locks L s) = with_locks L (emits cs s).
Proof. revert s. induction cs as [|c cs IH]; intros s; [done|]. rewrite !emits_cons. by rewrite <- IH. Qed.

(** What the serial port receives. *)
Definition serial (c : Z) : list Z := if c =? BACKSPACE then [8; 32; 8] else [u8 c].
Lemma emits_serial cs s : u_on (c_uart s) = true ->
  u_on (c_uart (emits cs s)) = true /\ u_out (c_uart (emits cs s)) = u_out (c_uart s) ++ concat (map serial cs).
Proof.
  revert s. induction cs as [|c cs IH]; intros s Hs; [by rewrite app_nil_r|]. rewrite emits_cons. cbn [map concat].
  destruct (IH (emit c s)) as [H1 H2].
  - cbn. unfold sent, uput. by destruct (c =? BACKSPACE); cbn; rewrite !Hs.
  - split; [done|]. rewrite H2. cbn [c_uart emit]. unfold sent, uput, serial.
    destruct (c =? BACKSPACE); cbn; rewrite !Hs; cbn; by rewrite <- ?app_assoc.
Qed.

(** (C18) The screen is a terminal, whatever is printed: for every sequence of
    characters, backspaces and newlines included, [consputc] returns, without a
    panic and without leaving the 24 lines of the screen, the cursor stays on them,
    the screen is the one the abstract terminal shows after the same characters,
    the serial port has received them, and no other memory is written. *)
Theorem console_shows_terminal cs s :
  can_print s -> u_on (c_uart s) = true ->
  exists s', for_each cs consputc s = Done tt s' /\ can_print s' /\
    term_of s' = foldl (fun t c => term_put c t) (term_of s) cs /\ 0 <= t_pos (term_of s') < CELLS /\
    u_out (c_uart s') = u_out (c_uart s) ++ concat (map serial cs) /\
    (forall a, a < CRT \/ CRT + 2 * CELLS <= a -> rd8 (c_mem s') a = rd8 (c_mem s) a) /\
    c_input s' = c_input s /\ c_held s' = c_held s.
Proof.
  intros Hs Hu. exists (emits cs s). pose proof (emits_ok cs s Hs) as Hok. split_and!; [by apply for_each_consputc|apply Hok..|by apply emits_term| | |by apply emits_serial| | |].
  - destruct Hok as [[_ Hh Hl _] _]. cbn. unfold cursor. lia.
  - apply Hok.
  - intros a. by apply emits_mem.
  - by rewrite emits_frame.
  - by rewrite emits_frame.
Qed.

Definition blank_con : con := Con ∅ (Crtc 0 0 0) (Uart true [] []) (Input (replicate 128 0) 0 0 0) true false 0 false [] [].
Lemma blank_can_print : can_print blank_con.
Proof. split; [|done]. split; [apply empty_bytes_ok|cbn; lia..|vm_compute; done]. Qed.

Example console_shows_terminal_witness :
  exists s', for_each [104; 105; BACKSPACE; NEWLINE] consputc blank_con = Done tt s' /\ can_print s' /\
    term_of s' = foldl (fun t c => term_put c t) (term_of blank_con) [104; 105; BACKSPACE; NEWLINE] /\ 0 <= t_pos (term_of s') < CELLS /\
    u_out (c_uart s') = u_out (c_uart blank_con) ++ concat (map serial [104; 105; BACKSPACE; NEWLINE]) /\
    (forall a, a < CRT \/ CRT + 2 * CELLS <= a -> rd8 (c_mem s') a = rd8 (c_mem blank_con) a) /\
    c_input s' = c_input blank_con /\ c_held s' = c_held blank_con.
Proof. apply console_shows_terminal; [apply blank_can_print|done]. Defined.

(** ** cprintf *)

(** A format as a list of pieces; [ds] are the digits of a field width. *)
Inductive piece := Lit (c : Z) | Dec (ds : list Z) (x : Z) | Hex (ds : list Z) (x : Z)
  | Str (ds : list Z) (p : Z) (l : list Z) | Null (ds : list Z) | Percent (ds : list Z) | Unknown (ds : list Z) (c : Z).
Definition piece_fmt (p : piece) : list Z :=
  match p with
  | Lit c => [c]
  | Dec ds _ => PERCENT :: ds ++ [100] | Hex ds _ => PERCENT :: ds ++ [120]
  | Str ds _ _ | Null ds => PERCENT :: ds ++ [115] | Percent ds => PERCENT :: ds ++ [PERCENT] | Unknown ds c => PERCENT :: ds ++ [c]
  end.
Definition piece_arg (p : piece) : list Z :=
  match p with Dec _ x | Hex _ x => [x] | Str _ p _ => [p] | Null _ => [0] | _ => [] end.
(** The field is padded after the text: it is left-justified. *)
Definition padded (ds l : list Z) : list Z := l ++ replicate (Z.to_nat (value 10 ds - Z.of_nat (length l))) 32.
(** The text of a piece: of a number, the numeral of the [int] or of the word the
    argument holds. *)
Definition prints (p : piece) (t : list Z) : Prop :=
  match p with
  | Lit c => t = [c]
  | Dec ds x => exists l, signed_numeral 10 (i32 x) l /\ t = padded ds l
  | Hex ds x => exists l, numeral 16 (u32 x) l /\ t = padded ds l
  | Str ds _ l => t = padded ds l
  | Null ds => t = padded ds null_text
  | Percent _ => t = [PERCENT]
  | Unknown _ c => t = [PERCENT; c]
  end.
Lemma prints_unique p t t' : prints p t -> prints p t' -> t = t'.
Proof.
  destruct p as [|ds x|ds x| | | |]; cbn [prints]; [congruence| | |congruence..].
  - intros (l & Hl & ->) (l' & Hl' & ->). f_equal. by eapply (signed_numeral_unique 10 ltac:(lia)).
  - intros (l & Hl & ->) (l' & Hl' & ->). f_equal. by eapply (numeral_unique 16 ltac:(lia)).
Qed.
Lemma all_prints_unique ps ts ts' : Forall2 prints ps ts -> Forall2 prints ps ts' -> ts = ts'.
Proof.
  intros H. revert ts'. induction H as [|p t ps ts Hp _ IH]; intros ts' H'; inversion H'; subst; [done|].
  f_equal; [by eapply prints_unique|by apply IH].
Qed.
Definition width_ok (ds : list Z) : Prop := Forall isdigit ds /\ value 10 ds < 2147483648.
(** A string the screen does not overlap. *)
Definition str_ok (fuel : nat) (p : Z) (l : list Z) (m : mem) : Prop :=
  cstr m p l /\ (length l < fuel)%nat /\ (p + Z.of_nat (length l) < CRT \/ CRT + 2 * CELLS <= p).
Definition piece_ok (fuel : nat) (m : mem) (p : piece) : Prop :=
  match p with
  | Lit c => c <> PERCENT
  | Dec ds _ | Hex ds _ | Null ds | Percent ds => width_ok ds
  | Str ds p l => width_ok ds /\ p <> 0 /\ str_ok fuel p l m
  | Unknown ds c => width_ok ds /\ ~ isdigit c /\ c ∉ [100; 120; 112; 115; PERCENT]
  end.

Lemma read_width_spec ds c rest w :
  Forall isdigit ds -> ~ isdigit c -> 0 <= w -> foldl (fun n c => n * 10 + digit_value c) w ds < 2147483648 ->
  read_width (ds ++ c :: rest) w = (foldl (fun n c => n * 10 + digit_value c) w ds, c :: rest).
Proof.
  intros Hds Hc. revert w. induction Hds as [|d ds Hd Hds IH]; intros w Hw Hm; cbn [app read_width foldl].
  - unfold isdigit in Hc. destruct (Z.leb_spec 48 c), (Z.leb_spec c 57); cbn; try done; lia.
  - pose proof Hd as Hd'. unfold isdigit in Hd'. rewrite (proj2 (Z.leb_le 48 d)), (proj2 (Z.leb_le d 57)) by lia. cbn [andb].
    cbn [foldl] in Hm. rewrite (digit_char_value d Hd) in *.
    pose proof (foldl_digits_ge ds (w * 10 + (d - 48)) ltac:(lia) Hds).
    rewrite (i32_small (w * 10)), i32_small by lia. replace (w * 10 + d - 48) with (w * 10 + (d - 48)) by lia. apply IH; lia.
Qed.

Lemma cstr_emits cs s fuel p l : can_print s -> str_ok fuel p l (c_mem s) -> str_ok fuel p l (c_mem (emits cs s)).
Proof.
  intros Hs ([H1 H2] & Hf & Hd). split; [|done]. split.
  - intros i c Hi. pose proof (lookup_lt_Some _ _ _ Hi). rewrite emits_mem by (done || lia). by apply H1.
  - rewrite emits_mem by (done || lia). done.
Qed.
Lemma piece_emits cs s fuel p : can_print s -> piece_ok fuel (c_mem s) p -> piece_ok fuel (c_mem (emits cs s)) p.
Proof. intros Hs. destruct p; try done. intros (? & ? & ?). split_and!; try done. by apply cstr_emits. Qed.

Lemma puts_emits n p l s : can_print s -> str_ok n p l (c_mem s) -> puts n p s = Done tt (emits l s).
Proof.
  revert p n s. induction l as [|c l IH]; intros p [|n] s Hs (Hc & Hn & Hd); cbn in Hn; try lia; cbn [puts];
    unfold gets, mbind, M_bind.
  - apply cstr_nil in Hc as ->. done.
  - pose proof Hc as Hc'. apply cstr_cons in Hc' as (-> & Hz & Hc').
    unfold truth. apply Z.eqb_neq in Hz as ->. cbn [negb]. rewrite consputc_done by done.
    rewrite (IH (p + 1) n (emit c s)); [done|by apply emit_ok|].
    change (emit c s) with (emits [c] s). apply cstr_emits; [done|]. cbn [length] in Hd. split_and!; [done|lia|lia].
Qed.

Lemma pad_emits w n s : can_print s -> pad w n s = Done tt (emits (replicate (Z.to_nat (w - n)) 32) s).
Proof. intros. by apply for_each_consputc. Qed.
Lemma printint_emits x base sgn ds s : can_print s ->
  printint x base sgn (value 10 ds) s = Done tt (emits (padded ds (rev (int_buf digits_lower x base sgn))) s).
Proof.
  intros Hs. unfold printint, padded. rewrite emits_app, length_rev. unfold mbind, M_bind.
  rewrite for_each_consputc by done. apply for_each_consputc. by apply emits_ok.
Qed.

(** One directive. *)
Lemma directive_emits fuel p s ap c ds :
  can_print s -> piece_ok fuel (c_mem s) p -> piece_fmt p = PERCENT :: ds ++ [c] -> (forall c, p <> Lit c) ->
  width_ok ds /\ ~ isdigit c /\ exists t, prints p t /\ directive fuel c (value 10 ds) (piece_arg p ++ ap) s = Done ap (emits t s).
Proof.
  intros Hs Hp Hf Hl. assert (Hnd : ~ isdigit 100 /\ ~ isdigit 120 /\ ~ isdigit 115 /\ ~ isdigit PERCENT) by (unfold isdigit, PERCENT; lia).
  destruct p as [c0|ds0 x|ds0 x|ds0 p l|ds0|ds0|ds0 c0]; cbn [piece_fmt piece_ok piece_arg prints app] in *; [by destruct (Hl c0)|..];
    injection Hf as Hf; apply app_inj_tail in Hf as [-> <-].
  - split_and!; [done|apply Hnd|]. eexists. split; [eexists; split; [apply int_buf_signed; lia|reflexivity]|].
    change (directive fuel 100 (value 10 ds) (x :: ap)) with (printint x 10 true (value 10 ds) ;; mret (M := M con) ap).
    unfold mbind, M_bind, mret, M_ret. by rewrite printint_emits.
  - split_and!; [done|apply Hnd|]. eexists. split; [eexists; split; [apply int_buf_unsigned; lia|reflexivity]|].
    change (directive fuel 120 (value 10 ds) (x :: ap)) with (printint x 16 false (value 10 ds) ;; mret (M := M con) ap).
    unfold mbind, M_bind, mret, M_ret. by rewrite printint_emits.
  - destruct Hp as (Hw & Hz & Hstr). split_and!; [done|apply Hnd|]. eexists. split; [reflexivity|]. unfold directive, next_arg.
    change (115 =? 100) with false. change (115 =? 120) with false. change (115 =? 112) with false. change (115 =? 115) with true. cbn [orb].
    apply Z.eqb_neq in Hz as Hz'. unfold mbind, M_bind, mret, M_ret. rewrite Hz'.
    unfold strlen_at, gets, mbind, M_bind, mret, M_ret. destruct Hstr as (Hc & Hlen & Hd).
    unfold strlen. rewrite (strlen_from_spec _ _ l fuel 0) by (done || by rewrite Z.add_0_r). cbn beta iota.
    rewrite (puts_emits fuel p l s Hs) by done. rewrite pad_emits by by apply emits_ok. unfold padded. by rewrite emits_app.
  - split_and!; [done|apply Hnd|]. eexists. split; [reflexivity|].
    change (directive fuel 115 (value 10 ds) (0 :: ap)) with
      ((for_each null_text consputc ;; pad (value 10 ds) (Z.of_nat (length null_text))) ;; mret (M := M con) ap).
    unfold mbind, M_bind, mret, M_ret.
    rewrite for_each_consputc by done. rewrite pad_emits by by apply emits_ok. unfold padded. by rewrite emits_app.
  - split_and!; [done|apply Hnd|]. eexists. split; [reflexivity|]. change (directive fuel PERCENT (value 10 ds) ap) with (consputc PERCENT ;; mret (M := M con) ap).
    unfold mbind, M_bind, mret, M_ret. by rewrite consputc_done.
  - destruct Hp as (Hw & Hnc & Hin). split_and!; [done|done|]. eexists. split; [reflexivity|]. rewrite !not_elem_of_cons in Hin. destruct Hin as (H1 & H2 & H3 & H4 & H5 & _).
    unfold directive. rewrite !(proj2 (Z.eqb_neq c0 _)) by done. cbn [orb]. unfold mbind, M_bind, mret, M_ret.
    rewrite consputc_done by done. rewrite consputc_done by by apply emit_ok. done.
Qed.

Lemma cprintf_loop_emits n fuel ps s ap : can_print s -> Forall (piece_ok fuel (c_mem s)) ps ->
  (length (concat (map piece_fmt ps)) <= n)%nat ->
  exists ts, Forall2 prints ps ts /\
    cprintf_loop n fuel (concat (map piece_fmt ps)) (concat (map piece_arg ps) ++ ap) s = Done tt (emits (concat ts) s).
Proof.
  revert n s. induction ps as [|p ps IH]; intros n s Hs Hps Hn; cbn [map concat app] in *; [exists []; by destruct n|].
  apply Forall_cons in Hps as [Hp Hps]. rewrite length_app in Hn.
  assert (Hrest : forall n' t, (length (concat (map piece_fmt ps)) <= n')%nat -> exists ts, Forall2 prints ps ts /\
    cprintf_loop n' fuel (concat (map piece_fmt ps)) (concat (map piece_arg ps) ++ ap) (emits t s) = Done tt (emits (concat ts) (emits t s))).
  { intros n' t Hn'. apply IH; [by apply emits_ok| |done]. eapply Forall_impl; [exact Hps|intros q; by apply piece_emits]. }
  clear IH. assert (Hcase : (exists c, p = Lit c) \/ exists ds c, piece_fmt p = PERCENT :: ds ++ [c] /\ forall c, p <> Lit c).
  { destruct p; [left; eauto|right..]; eexists _, _; (split; [reflexivity|done]). }
  destruct Hcase as [[c ->]|(ds & c & Hf & Hl)].
  - cbn [piece_fmt piece_arg piece_ok length app] in *. destruct n as [|n]; [lia|].
    destruct (Hrest n [c] ltac:(lia)) as (ts & Hts & E). exists ([c] :: ts). split; [by constructor|]. cbn [cprintf_loop concat].
    apply Z.eqb_neq in Hp as ->. cbn [negb]. unfold mbind, M_bind. rewrite consputc_done by done.
    rewrite emits_app. exact E.
  - destruct (directive_emits fuel p s (concat (map piece_arg ps) ++ ap) c ds Hs Hp Hf Hl) as ([Hds Hv] & Hc & t & Ht & Hdir).
    rewrite Hf in *. cbn [length app] in *. destruct n as [|n]; [lia|].
    destruct (Hrest n t ltac:(lia)) as (ts & Hts & E). exists (t :: ts). split; [by constructor|].
    cbn [cprintf_loop concat]. change (PERCENT =? PERCENT) with true. cbn [negb].
    rewrite <- !app_assoc. cbn [app]. rewrite read_width_spec; [|done|done|lia|done]. fold (value 10 ds).
    unfold mbind, M_bind. rewrite Hdir, emits_app. exact E.
Qed.


