(* ===== verification/ConsoleInput.v ===== *)
(** * The line editor of the console

    The buffer [input] of [console.c], a ring of 128 bytes with three indexes that
    only grow, against an editor with two lists: what was committed and not read
    yet, and the line being edited.  The interrupt handler edits, [consoleread]
    takes committed bytes. *)
From S2P Require Import Prelude Layout Memory Locks Digits Console ConsoleScreen.

(** ** The ring *)
Definition filled (i : input) : Z := u32 (i_e i - i_r i).
Definition committed (i : input) : Z := u32 (i_w i - i_r i).
Definition whole (i : input) : list Z := (fun k => byte_at i (u32 (i_r i + k))) <$> seqZ 0 (filled i).

(** The editor: committed bytes, and the line being edited. *)
Record ed := Ed { ed_done : list Z; ed_line : list Z }.
Definition ed_of (i : input) : ed := Ed (take (Z.to_nat (committed i)) (whole i)) (drop (Z.to_nat (committed i)) (whole i)).

Record input_ok (i : input) : Prop := InputOk {
  io_buf : length (i_buf i) = 128%nat;
  io_r : 0 <= i_r i < 4294967296;
  io_w : 0 <= i_w i < 4294967296;
  io_e : 0 <= i_e i < 4294967296;
  io_cw : committed i <= filled i;
  io_len : filled i <= INPUT_BUF;
  io_full : filled i = INPUT_BUF -> committed i = filled i;
  io_line : NEWLINE ∉ ed_line (ed_of i);
  io_bytes : Forall (fun c => 0 <= c < 256) (i_buf i) }.

Lemma whole_length i : length (whole i) = Z.to_nat (filled i).
Proof. unfold whole. by rewrite length_fmap, length_seqZ. Qed.
Lemma whole_lookup i k : 0 <= k < filled i -> whole i !! Z.to_nat k = Some (byte_at i (u32 (i_r i + k))).
Proof. intros Hk. unfold whole. rewrite list_lookup_fmap, lookup_seqZ_lt by lia. cbn. do 4 f_equal. lia. Qed.
Lemma whole_ext i l : Z.of_nat (length l) = filled i ->
  (forall k, 0 <= k < filled i -> l !! Z.to_nat k = Some (byte_at i (u32 (i_r i + k)))) -> whole i = l.
Proof.
  intros Hl Hk. apply list_eq. intros n. destruct (decide (Z.of_nat n < filled i)) as [Hn|Hn].
  - rewrite <- (Nat2Z.id n), whole_lookup, Hk; [done|lia..].
  - rewrite !lookup_ge_None_2; [done|lia|rewrite whole_length; lia].
Qed.
Lemma ed_line_length i : input_ok i -> Z.of_nat (length (ed_line (ed_of i))) = filled i - committed i.
Proof.
  intros Hi. cbn. rewrite length_drop, whole_length. pose proof (io_cw i Hi). pose proof (u32_range (i_w i - i_r i)).
  unfold committed in *. lia.
Qed.
Lemma ed_done_length i : input_ok i -> Z.of_nat (length (ed_done (ed_of i))) = committed i.
Proof.
  intros Hi. cbn. rewrite length_take, whole_length. pose proof (io_cw i Hi). pose proof (u32_range (i_w i - i_r i)).
  unfold committed in *. lia.
Qed.
Lemma line_empty i : input_ok i -> (i_e i =? i_w i) = bool_decide (ed_line (ed_of i) = []).
Proof.
  intros Hi. pose proof (ed_line_length i Hi) as Hl. destruct Hi. unfold filled, committed in *.
  destruct (Z.eqb_spec (i_e i) (i_w i)) as [E|E]; symmetry.
  - apply bool_decide_true, length_zero_iff_nil. rewrite E in Hl. lia.
  - apply bool_decide_false. intros Hn. rewrite Hn in Hl. cbn in Hl. unfold u32 in *. zlia.
Qed.
Lemma done_empty i : input_ok i -> (i_r i =? i_w i) = bool_decide (ed_done (ed_of i) = []).
Proof.
  intros Hi. pose proof (ed_done_length i Hi) as Hl. destruct Hi. unfold filled, committed in *.
  destruct (Z.eqb_spec (i_r i) (i_w i)) as [E|E]; symmetry.
  - apply bool_decide_true, length_zero_iff_nil. rewrite E, Z.sub_diag in Hl. change (u32 0) with 0 in Hl. lia.
  - apply bool_decide_false. intros Hn. rewrite Hn in Hl. cbn in Hl. unfold u32 in *. zlia.
Qed.

(** The four changes of the indexes. *)
Definition erase (i : input) : input := Input (i_buf i) (i_r i) (i_w i) (u32 (i_e i - 1)).
Definition commit_line (i : input) : input := Input (i_buf i) (i_r i) (i_e i) (i_e i).
Definition consume (i : input) : input := Input (i_buf i) (u32 (i_r i + 1)) (i_w i) (i_e i).

Lemma filled_erase i : input_ok i -> committed i < filled i -> filled (erase i) = filled i - 1 /\ committed (erase i) = committed i.
Proof. intros [] Hn. unfold filled, committed, erase in *. cbn. unfold u32 in *. split; [zlia|done]. Qed.
Lemma filled_store c i : input_ok i -> filled i < INPUT_BUF -> filled (store c i) = filled i + 1 /\ committed (store c i) = committed i.
Proof. intros [] Hn. unfold filled, committed, store, INPUT_BUF in *. cbn. unfold u32 in *. split; [zlia|done]. Qed.
Lemma filled_consume i : input_ok i -> 0 < committed i -> filled (consume i) = filled i - 1 /\ committed (consume i) = committed i - 1.
Proof. intros [] Hn. unfold filled, committed, consume in *. cbn. unfold u32 in *. split; zlia. Qed.

Lemma whole_erase i : input_ok i -> committed i < filled i -> whole (erase i) = take (Z.to_nat (filled i - 1)) (whole i).
Proof.
  intros Hi Hn. destruct (filled_erase i Hi Hn) as [Hf _]. pose proof (u32_range (i_w i - i_r i)). fold (committed i) in *.
  apply whole_ext; [rewrite length_take, whole_length; lia|].
  intros k Hk. rewrite lookup_take_lt by lia. by rewrite whole_lookup by lia.
Qed.
Lemma whole_store c i : input_ok i -> filled i < INPUT_BUF -> whole (store c i) = whole i ++ [u8 c].
Proof.
  intros Hi Hn. destruct (filled_store c i Hi Hn) as [Hf _]. pose proof (u32_range (i_e i - i_r i)) as Hr. fold (filled i) in Hr.
  apply whole_ext; [rewrite length_app, whole_length; cbn; lia|].
  intros k Hk. destruct Hi. assert (He : i_e i `mod` 128 = (i_r i + filled i) `mod` 128) by (unfold filled, u32 in *; zlia).
  unfold byte_at, store, INPUT_BUF in *. cbn. destruct (decide (k = filled i)) as [->|Hne].
  - rewrite lookup_app_r by (rewrite whole_length; lia). rewrite whole_length, Nat.sub_diag. cbn.
    replace (Z.to_nat (u32 (i_r i + filled i) `mod` 128)) with (Z.to_nat (i_e i `mod` 128)) by (unfold u32; zlia).
    rewrite list_lookup_total_insert_eq; [done|rewrite io_buf0; zlia].
  - rewrite lookup_app_l by (rewrite whole_length; lia). rewrite whole_lookup by lia. f_equal. unfold byte_at, INPUT_BUF.
    rewrite list_lookup_total_insert_ne; [done|]. unfold u32 in *. zlia.
Qed.

Lemma whole_consume i : input_ok i -> 0 < committed i -> whole i = byte_at i (i_r i) :: whole (consume i).
Proof.
  intros Hi Hn. destruct (filled_consume i Hi Hn) as [Hf _]. pose proof (io_cw i Hi).
  apply whole_ext; [cbn; rewrite whole_length; lia|].
  intros k Hk. destruct Hi. destruct (decide (k = 0)) as [->|Hk0]; [cbn; by rewrite Z.add_0_r, u32_small|].
  replace (Z.to_nat k) with (S (Z.to_nat (k - 1))) by lia. cbn [lookup list_lookup].
  rewrite whole_lookup by lia. f_equal. change (byte_at (consume i)) with (byte_at i). f_equal. unfold consume, u32. cbn. zlia.
Qed.

(** ... and of the editor. *)
Lemma ed_erase i : input_ok i -> committed i < filled i ->
  ed_of (erase i) = Ed (ed_done (ed_of i)) (take (Z.to_nat (filled i - committed i - 1)) (ed_line (ed_of i))) /\ input_ok (erase i).
Proof.
  intros Hi Hn. destruct (filled_erase i Hi Hn) as [Hf Hc]. pose proof (u32_range (i_w i - i_r i)). fold (committed i) in *.
  assert (He : ed_of (erase i) = Ed (ed_done (ed_of i)) (take (Z.to_nat (filled i - committed i - 1)) (ed_line (ed_of i)))).
  { unfold ed_of. cbn. rewrite Hc, whole_erase by done. f_equal.
    - rewrite take_take. f_equal. lia.
    - rewrite take_drop_commute. do 2 f_equal. lia. }
  split; [done|]. destruct Hi. split; try done; try lia; [apply u32_range|].
  rewrite He. cbn [ed_line]. intros Hin. apply io_line0. by eapply subseteq_take.
Qed.
Lemma ed_commit i : input_ok i -> ed_of (commit_line i) = Ed (ed_done (ed_of i) ++ ed_line (ed_of i)) [] /\ input_ok (commit_line i).
Proof.
  intros Hi. assert (Hw : whole (commit_line i) = whole i) by done. assert (Hc : committed (commit_line i) = filled i) by done.
  assert (He : ed_of (commit_line i) = Ed (ed_done (ed_of i) ++ ed_line (ed_of i)) []).
  { unfold ed_of. rewrite Hw, Hc. cbn. rewrite take_drop, take_ge, drop_ge by (rewrite whole_length; lia). done. }
  split; [done|]. destruct Hi. split; try done. rewrite He. cbn. set_solver.
Qed.
Lemma ed_store c i : input_ok i -> filled i < INPUT_BUF ->
  ed_of (store c i) = Ed (ed_done (ed_of i)) (ed_line (ed_of i) ++ [u8 c]).
Proof.
  intros Hi Hn. destruct (filled_store c i Hi Hn) as [Hf Hc]. pose proof (io_cw i Hi).
  pose proof (whole_length i). unfold ed_of. cbn. rewrite Hc, whole_store by done. f_equal.
  - by rewrite take_app_le by lia.
  - by rewrite drop_app_le by lia.
Qed.
Lemma store_ok c i : input_ok i -> filled i < INPUT_BUF -> filled i <> INPUT_BUF - 1 -> u8 c <> NEWLINE -> input_ok (store c i).
Proof.
  intros Hi Hn Hne Hc. destruct (filled_store c i Hi Hn) as [Hf Hcc]. pose proof (ed_store c i Hi Hn) as He. destruct Hi.
  split; try done; try lia.
  - cbn. by rewrite length_insert.
  - apply u32_range.
  - rewrite He. cbn [ed_line]. set_solver.
  - cbn. apply Forall_insert; [done|]. apply u8_range.
Qed.
(** Storing and committing at once needs no condition on the byte. *)
Lemma store_commit_ok c i : input_ok i -> filled i < INPUT_BUF ->
  ed_of (commit_line (store c i)) = Ed (ed_done (ed_of i) ++ ed_line (ed_of i) ++ [u8 c]) [] /\ input_ok (commit_line (store c i)).
Proof.
  intros Hi Hn. destruct (filled_store c i Hi Hn) as [Hf Hcc]. pose proof (ed_store c i Hi Hn) as He.
  assert (Hed : ed_of (commit_line (store c i)) = Ed (ed_done (ed_of i) ++ ed_line (ed_of i) ++ [u8 c]) []).
  { assert (Hw : whole (commit_line (store c i)) = whole (store c i)) by done. assert (Hc : committed (commit_line (store c i)) = filled (store c i)) by done.
    injection He as E1 E2. unfold ed_of at 1. rewrite Hw, Hc, take_ge, drop_ge by (rewrite whole_length; lia).
    f_equal. rewrite <- (take_drop (Z.to_nat (committed (store c i))) (whole (store c i))), E1, E2. done. }
  split; [done|]. destruct Hi. split; try done.
  - cbn. by rewrite length_insert.
  - apply u32_range.
  - cbn. apply u32_range.
  - change (filled (commit_line (store c i))) with (filled (store c i)). lia.
  - rewrite Hed. cbn. set_solver.
  - cbn. apply Forall_insert; [done|]. apply u8_range.
Qed.
Lemma ed_consume i : input_ok i -> 0 < committed i ->
  ed_of i = Ed (byte_at i (i_r i) :: ed_done (ed_of (consume i))) (ed_line (ed_of (consume i))) /\ input_ok (consume i).
Proof.
  intros Hi Hn. destruct (filled_consume i Hi Hn) as [Hf Hc].
  assert (He : ed_of i = Ed (byte_at i (i_r i) :: ed_done (ed_of (consume i))) (ed_line (ed_of (consume i)))).
  { unfold ed_of. cbn [ed_done ed_line]. rewrite Hc, whole_consume by done.
    replace (Z.to_nat (committed i)) with (S (Z.to_nat (committed i - 1))) by lia. done. }
  split; [done|]. destruct Hi. split; try done; try lia; [apply u32_range|].
  rewrite He in io_line0. done.
Qed.

(** ** The editor *)
Definition norm (c : Z) : Z := if c =? 13 then NEWLINE else c.
(** What a character does: the editor after it, what is echoed, how many readers'
    wake-ups it makes, whether it asks for a process listing. *)
Record result := Result { r_ed : ed; r_echo : list Z; r_wakes : nat; r_list : bool }.
Definition ed_char (c : Z) (x : ed) : result :=
  if c =? CTRL_P then Result x [] 0 true
  else if c =? CTRL_U then Result (Ed (ed_done x) []) (replicate (length (ed_line x)) BACKSPACE) 0 false
  else if (c =? CTRL_H) || (c =? 127) then
    Result (Ed (ed_done x) (take (length (ed_line x) - 1) (ed_line x))) (if bool_decide (ed_line x = []) then [] else [BACKSPACE]) 0 false
  else if (c !=? 0) && (Z.of_nat (length (ed_done x ++ ed_line x)) <? INPUT_BUF) then
    let line := ed_line x ++ [norm c] in
    if (norm c =? NEWLINE) || (norm c =? CTRL_D) || (Z.of_nat (length (ed_done x ++ line)) =? INPUT_BUF)
    then Result (Ed (ed_done x ++ line) []) [norm c] 1 false
    else Result (Ed (ed_done x) line) [norm c] 0 false
  else Result x [] 0 false.
Fixpoint ed_chars (cs : list Z) (x : ed) : result :=
  match cs with
  | [] => Result x [] 0 false
  | c :: cs' =>
      let r := ed_char c x in
      let r' := ed_chars cs' (r_ed r) in
      Result (r_ed r') (r_echo r ++ r_echo r') (r_wakes r + r_wakes r') (r_list r || r_list r')
  end.

(** The driver's state after such a change. *)
Definition edited (i : input) (k : nat) (cs : list Z) (s : con) : con :=
  let t := emits cs s in
  Con (c_mem t) (c_crtc t) (c_uart t) i (c_locking s) (c_panicked s) (k + c_wakes s) (c_ip s) (c_out s) (c_held s).

Definition devices (s : con) : mem * crtc * uart := (c_mem s, c_crtc s, c_uart s).
Lemma emits_devices cs s1 s2 : devices s1 = devices s2 -> devices (emits cs s1) = devices (emits cs s2).
Proof.
  revert s1 s2. induction cs as [|c cs IH]; intros s1 s2 H; [done|]. rewrite !emits_cons. apply IH.
  injection H as H1 H2 H3. unfold devices, emit. cbn. unfold new_mem, new_crtc. by rewrite H1, H2, H3.
Qed.
Lemma edited_edited i1 k1 cs1 i2 k2 cs2 s : edited i2 k2 cs2 (edited i1 k1 cs1 s) = edited i2 (k1 + k2) (cs1 ++ cs2) s.
Proof.
  pose proof (emits_devices cs2 (edited i1 k1 cs1 s) (emits cs1 s) eq_refl) as E. injection E as E1 E2 E3.
  unfold edited at 1 3. rewrite E1, E2, E3, emits_app. cbn. f_equal. lia.
Qed.
Lemma edited_can_print i k cs s : can_print s -> can_print (edited i k cs s).
Proof. intros Hs. destruct (emits_ok cs s Hs) as [[] ?]. split; [by split|]. apply Hs. Qed.
Lemma edited_nil s : edited (c_input s) 0 [] s = s.
Proof. by destruct s. Qed.
Lemma on_input_edited f s : on_input f s = Done tt (edited (f (c_input s)) 0 [] s).
Proof. done. Qed.
Lemma consputc_edited c s : can_print s -> consputc c s = Done tt (edited (c_input s) 0 [c] s).
Proof. intros. rewrite consputc_done by done. done. Qed.
Lemma wakeup_edited s : wakeup_input s = Done tt (edited (c_input s) 1 [] s).
Proof. done. Qed.
#[local] Hint Resolve edited_can_print : core.

(** The line is erased to its start: it holds no newline. *)
Lemma kill_line_edits n s : can_print s -> input_ok (c_input s) -> (length (ed_line (ed_of (c_input s))) < n)%nat ->
  exists i', input_ok i' /\ ed_of i' = Ed (ed_done (ed_of (c_input s))) [] /\
    kill_line n s = Done tt (edited i' 0 (replicate (length (ed_line (ed_of (c_input s)))) BACKSPACE) s).
Proof.
  revert s. induction n as [|n IH]; intros s Hs Hi Hn; [lia|]. cbn [kill_line]. unfold gets at 1. unfold mbind at 1, M_bind at 1.
  rewrite (line_empty _ Hi). case_bool_decide as Hl; cbn [negb andb].
  - exists (c_input s). split_and!; [done|rewrite <- Hl; by destruct (ed_of _)|]. rewrite Hl. cbn [length replicate]. by rewrite edited_nil.
  - pose proof (ed_line_length _ Hi) as Hll.
    assert (Hlt : committed (c_input s) < filled (c_input s)).
    { destruct (ed_line (ed_of (c_input s))); [done|]. cbn [length] in Hll. lia. }
    assert (Hc : (byte_at (c_input s) (u32 (i_e (c_input s) - 1)) =? NEWLINE) = false).
    { apply Z.eqb_neq. intros E. apply (io_line _ Hi). cbn [ed_line ed_of].
      apply (list_elem_of_lookup_2 _ (Z.to_nat (filled (c_input s) - committed (c_input s) - 1))).
      rewrite lookup_drop. pose proof (u32_range (i_w (c_input s) - i_r (c_input s))) as Hw. fold (committed (c_input s)) in Hw.
      replace (Z.to_nat (committed (c_input s)) + Z.to_nat (filled (c_input s) - committed (c_input s) - 1))%nat with (Z.to_nat (filled (c_input s) - 1)) by lia.
      rewrite whole_lookup by lia. rewrite <- E. f_equal. f_equal. destruct Hi. unfold filled, u32 in *. zlia. }
    rewrite Hc. cbn [negb andb]. destruct (ed_erase _ Hi Hlt) as [He Hio].
    unfold mbind, M_bind. rewrite on_input_edited. rewrite consputc_edited by auto. rewrite edited_edited.
    set (s1 := edited _ _ _ _).
    assert (Hlen : length (ed_line (ed_of (c_input s1))) = (length (ed_line (ed_of (c_input s))) - 1)%nat).
    { change (c_input s1) with (erase (c_input s)). rewrite He. cbn [ed_line]. rewrite length_take. lia. }
    destruct (IH s1) as (i' & Hi' & Hed & Hk); [by apply edited_can_print|done|lia|].
    exists i'. split_and!; [done| |].
    + rewrite Hed. change (c_input s1) with (erase (c_input s)). by rewrite He.
    + rewrite Hk. unfold s1 at 2. rewrite edited_edited. f_equal. f_equal. rewrite Hlen.
      destruct (length (ed_line (ed_of (c_input s)))) eqn:E; [lia|]. cbn. by rewrite Nat.sub_0_r.
Qed.

(** A stored character, with the commit it may cause. *)
Lemma console_store_edits c s : can_print s -> input_ok (c_input s) -> 0 <= c < 256 -> filled (c_input s) < INPUT_BUF ->
  let x := ed_of (c_input s) in
  let last := (norm c =? NEWLINE) || (norm c =? CTRL_D) || (filled (c_input s) + 1 =? INPUT_BUF) in
  exists i', input_ok i' /\
    ed_of i' = (if last then Ed (ed_done x ++ ed_line x ++ [norm c]) [] else Ed (ed_done x) (ed_line x ++ [norm c])) /\
    (on_input (store (norm c)) ;;
     consputc (norm c) ;;
     i ← gets c_input;
     when ((norm c =? NEWLINE) || (norm c =? CTRL_D) || (i_e i =? u32 (i_r i + INPUT_BUF)))
       (on_input (fun i => Input (i_buf i) (i_r i) (i_e i) (i_e i)) ;; wakeup_input)) s
    = Done tt (edited i' (if last then 1 else 0) [norm c] s).
Proof.
  intros Hs Hi Hc Hf x last. set (d := norm c) in *.
  assert (Hd : u8 d = d) by (apply u8_small; unfold d, norm, NEWLINE; case_match; lia).
  assert (Hfull : (i_e (store d (c_input s)) =? u32 (i_r (store d (c_input s)) + INPUT_BUF)) = (filled (c_input s) + 1 =? INPUT_BUF)).
  { apply eq_true_iff_eq. rewrite !Z.eqb_eq. destruct Hi. unfold filled, store, INPUT_BUF, u32 in *. cbn. split; zlia. }
  assert (Hrun : forall Q : input -> M con unit, (on_input (store d) ;; consputc d ;; i ← gets c_input; Q i) s = Q (store d (c_input s)) (edited (store d (c_input s)) 0 [d] s)).
  { intros Q. unfold mbind, M_bind. rewrite on_input_edited. rewrite consputc_edited by auto. by rewrite edited_edited. }
  rewrite Hrun, Hfull. unfold when. subst last. destruct (_ || _) eqn:El.
  - destruct (store_commit_ok d _ Hi Hf) as [He Hok]. exists (commit_line (store d (c_input s))). split_and!; [done|by rewrite He, Hd|].
    unfold mbind, M_bind. rewrite on_input_edited, wakeup_edited, !edited_edited. done.
  - apply orb_false_iff in El as [El E3]. apply orb_false_iff in El as [E1 E2]. apply Z.eqb_neq in E1, E3.
    exists (store d (c_input s)). split_and!; [apply store_ok; try done; [unfold INPUT_BUF in *; lia|by rewrite Hd]|by rewrite ed_store, Hd|done].
Qed.

Lemma console_char_edits c s : can_print s -> input_ok (c_input s) -> 0 <= c < 256 ->
  let r := ed_char c (ed_of (c_input s)) in
  exists i', input_ok i' /\ ed_of i' = r_ed r /\ console_char c s = Done (r_list r) (edited i' (r_wakes r) (r_echo r) s).
Proof.
  intros Hs Hi Hc r. unfold console_char, r, ed_char.
  destruct (c =? CTRL_P); [exists (c_input s); cbn [r_ed r_list r_wakes r_echo]; rewrite edited_nil; by split_and!|].
  destruct (c =? CTRL_U).
  { pose proof (ed_line_length _ Hi) as Hl. pose proof (io_len _ Hi) as Hlen.
    assert (0 <= committed (c_input s)) by apply u32_range.
    destruct (kill_line_edits 129 s Hs Hi ltac:(unfold INPUT_BUF in *; lia)) as (i' & H1 & H2 & H3).
    exists i'. split_and!; [done..|]. unfold mbind, M_bind. by rewrite H3. }
  destruct ((c =? CTRL_H) || (c =? 127)).
  { unfold gets at 1. unfold mbind at 1, M_bind at 1. rewrite (line_empty _ Hi). case_bool_decide as Hl; cbn [negb r_ed r_list r_wakes r_echo].
    - exists (c_input s). split_and!; [done| |by rewrite edited_nil]. destruct (ed_of (c_input s)) as [l0 l1]. cbn in *. by subst.
    - pose proof (ed_line_length _ Hi) as Hll.
      assert (Hlt : committed (c_input s) < filled (c_input s)) by (destruct (ed_line (ed_of (c_input s))); [done|]; cbn [length] in Hll; lia).
      destruct (ed_erase _ Hi Hlt) as [He Hio]. exists (erase (c_input s)). split_and!; [done| |].
      + rewrite He. do 2 f_equal. lia.
      + unfold when, mbind, M_bind. rewrite on_input_edited. rewrite consputc_edited by auto. by rewrite edited_edited. }
  rewrite (bind_Done (gets c_input) _ s (c_input s) s eq_refl).
  assert (Hlen : Z.of_nat (length (ed_done (ed_of (c_input s)) ++ ed_line (ed_of (c_input s)))) = filled (c_input s)).
  { pose proof (ed_line_length _ Hi). pose proof (ed_done_length _ Hi). rewrite length_app. lia. }
  fold (filled (c_input s)). rewrite Hlen.
  destruct ((c !=? 0) && (filled (c_input s) <? INPUT_BUF)) eqn:Eg; cbn [r_ed r_list r_wakes r_echo].
  - apply andb_true_iff in Eg as [_ Hf%Z.ltb_lt].
    destruct (console_store_edits c s Hs Hi Hc Hf) as (i' & H1 & H2 & H3).
    replace (Z.of_nat (length (ed_done (ed_of (c_input s)) ++ ed_line (ed_of (c_input s)) ++ [norm c]))) with (filled (c_input s) + 1)
      by (rewrite app_assoc, length_app; cbn [length]; lia).
    exists i'. split; [done|]. split; [destruct (_ || _); done|].
    etrans; [eapply bind_Done; exact H3|]. destruct (_ || _); done.
  - exists (c_input s). split_and!; [done..|]. unfold when, mbind, M_bind, mret, M_ret. by rewrite edited_nil.
Qed.

Lemma console_chars_edit cs s : can_print s -> input_ok (c_input s) -> Forall (fun c => 0 <= c < 256) cs ->
  let r := ed_chars cs (ed_of (c_input s)) in
  exists i', input_ok i' /\ ed_of i' = r_ed r /\ console_chars cs s = Done (r_list r) (edited i' (r_wakes r) (r_echo r) s).
Proof.
  revert s. induction cs as [|c cs IH]; intros s Hs Hi Hcs; cbn [ed_chars console_chars].
  - exists (c_input s). cbn. split_and!; [done..|]. by rewrite edited_nil.
  - apply Forall_cons in Hcs as [Hc Hcs]. destruct (console_char_edits c s Hs Hi Hc) as (i1 & H1 & H2 & H3).
    unfold mbind, M_bind. rewrite H3. set (s1 := edited i1 _ _ s).
    destruct (IH s1 ltac:(by apply edited_can_print) H1 Hcs) as (i2 & K1 & K2 & K3).
    change (c_input s1) with i1 in K2, K3. rewrite H2 in K2, K3. exists i2. split_and!; [done|done|]. rewrite K3. cbn [r_list r_wakes r_echo].
    unfold mret, M_ret, s1. by rewrite edited_edited.
Qed.

Lemma edited_locks L i k cs s : edited i k cs (with_locks L s) = with_locks L (edited i k cs s).
Proof. unfold edited. rewrite emits_locks. done. Qed.

(** (C17) The interrupt handler is a line editor: for every sequence of characters
    the device delivers, [consoleintr] returns, with the console's lock given back;
    the ring then holds exactly the two lists the editor has after the same
    characters - erased characters and killed lines gone, a finished line (newline,
    end of file, or a full buffer) committed, carriage returns turned into newlines,
    nothing stored in a full buffer -, what it echoed is on the screen, and there was
    a wake-up of the readers for every commit. *)
Theorem consoleintr_edits cs s :
  can_print s -> input_ok (c_input s) -> Lcons ∉ c_held s -> Forall (fun c => 0 <= c < 256) cs ->
  let r := ed_chars cs (ed_of (c_input s)) in
  exists s', consoleintr cs s = Done (r_list r) s' /\ ed_of (c_input s') = r_ed r /\ input_ok (c_input s') /\ can_print s' /\
    c_wakes s' = (r_wakes r + c_wakes s)%nat /\ c_held s' = c_held s /\
    term_of s' = foldl (fun t c => term_put c t) (term_of s) (r_echo r).
Proof.
  intros Hs Hi Hl Hcs r.
  destruct (console_chars_edit cs (with_locks (Lcons :: c_held s) s) (can_print_locks _ _ Hs) Hi Hcs) as (i' & H1 & H2 & H3).
  change (c_input (with_locks (Lcons :: c_held s) s)) with (c_input s) in H2, H3. fold r in H2, H3.
  exists (edited i' (r_wakes r) (r_echo r) s). split_and!; [|done|done|by apply edited_can_print|done|done|by apply emits_term].
  unfold consoleintr, mbind, M_bind. rewrite acquire_free by done. change (locks_of s) with (c_held s). rewrite H3, edited_locks by done.
  rewrite (release_top Lcons (c_held s)); [|done|done]. unfold mret, M_ret. done.
Qed.

Lemma blank_input_ok : input_ok (c_input blank_con).
Proof.
  split; try (vm_compute; done); try (cbn; lia).
  - vm_compute. set_solver.
  - cbn. repeat (constructor; [lia|]). constructor.
Qed.
Example consoleintr_edits_witness :
  exists s', consoleintr [108; 120; 127; 115; 13; 97] blank_con = Done false s' /\ ed_of (c_input s') = Ed [108; 115; NEWLINE] [97].
Proof.
  destruct (consoleintr_edits [108; 120; 127; 115; 13; 97] blank_con blank_can_print blank_input_ok) as (s' & H1 & H2 & _).
  - cbn. set_solver.
  - repeat constructor; lia.
  - exists s'. split; [exact H1|]. rewrite H2. reflexivity.
Defined.

(** A commit is announced: a reader that sleeps because nothing is committed is
    woken when something is. *)
Lemma commit_wakes cs x : ed_done (r_ed (ed_chars cs x)) <> ed_done x -> (0 < r_wakes (ed_chars cs x))%nat.
Proof.
  revert x. induction cs as [|c cs IH]; intros x; cbn [ed_chars r_ed r_wakes]; [done|]. intros Hd.
  destruct (decide (ed_done (r_ed (ed_char c x)) = ed_done x)) as [E|E].
  - rewrite <- E in Hd. specialize (IH _ Hd). lia.
  - enough (r_wakes (ed_char c x) = 1%nat) by lia. revert E. unfold ed_char. by repeat case_match.
Qed.

(** ** consoleread *)

(** The bytes a read of [n] takes from a list: up to a newline, which is included,
    or an end of file, which is taken only if nothing was read before it ([got] is
    false); whether the read is finished. *)
Fixpoint take_line (l : list Z) (n : nat) (got : bool) {struct n} : list Z * list Z * bool :=
  match n with
  | O => ([], l, true)
  | S n' =>
      match l with
      | [] => ([], [], false)
      | c :: l' =>
          if c =? CTRL_D then ([], if got then l else l', true)
          else if c =? NEWLINE then ([c], l', true)
          else let '(a, b, f) := take_line l' n' true in (c :: a, b, f)
      end
  end.

Lemma byte_range i k : input_ok i -> 0 <= byte_at i k < 256.
Proof.
  intros Hi. unfold byte_at. pose proof (io_bytes i Hi) as Hb. rewrite Forall_lookup in Hb.
  assert (Hlt : (Z.to_nat (k `mod` INPUT_BUF) < length (i_buf i))%nat) by (rewrite (io_buf i Hi); unfold INPUT_BUF; zlia).
  apply lookup_lt_is_Some_2 in Hlt as [x Hx]. rewrite (list_lookup_total_correct _ _ _ Hx). by eapply Hb.
Qed.
Lemma i8_ctrl_d c : 0 <= c < 256 -> (i8 c =? CTRL_D) = (c =? CTRL_D) /\ (i8 c =? NEWLINE) = (c =? NEWLINE) /\ u8 (i8 c) = c.
Proof.
  intros Hc. split_and!; [apply eq_true_iff_eq; rewrite !Z.eqb_eq; unfold i8, CTRL_D, C; split; zlia
    |apply eq_true_iff_eq; rewrite !Z.eqb_eq; unfold i8, NEWLINE; split; zlia|unfold u8, i8; zlia].
Qed.

(** The state after a run of [consoleread]. *)
Definition read_state (i : input) (ip : bool) (a : list Z) (s : con) : con :=
  Con (c_mem s) (c_crtc s) (c_uart s) i (c_locking s) (c_panicked s) (c_wakes s) ip (c_out s ++ a) (c_held s).

Lemma ed_eta x : x = Ed (ed_done x) (ed_line x).
Proof. by destruct x. Qed.
Lemma unread s : input_ok (c_input s) ->
  when true (on_input (fun i => Input (i_buf i) (u32 (i_r i - 1)) (i_w i) (i_e i))) (with_input (consume (c_input s)) s) = Done tt s.
Proof.
  intros Hi. unfold when, on_input, modify, with_input, consume. cbn.
  replace (u32 (u32 (i_r (c_input s) + 1) - 1)) with (i_r (c_input s)) by (destruct Hi; unfold u32; zlia).
  by destruct s as [m ct u [b r w e] lk pk wk ip o h].
Qed.

Lemma read_loop_takes fuel killed target n s L :
  input_ok (c_input s) -> c_held s = Lcons :: L -> Lcons ∉ L -> 0 <= n <= target -> (Z.to_nat n < fuel)%nat ->
  let '(a, rest, fin) := take_line (ed_done (ed_of (c_input s))) (Z.to_nat n) (n <? target) in
  exists i', input_ok i' /\ ed_of i' = Ed rest (ed_line (ed_of (c_input s))) /\
    read_loop fuel killed target n s =
      Done (if fin then CRet (target - n + Z.of_nat (length a)) else if killed then CRet (-1) else CSleep (n - Z.of_nat (length a)))
           (with_locks L (read_state i' (fin || killed || c_ip s) a s)).
Proof.
  revert n s. induction fuel as [|f IH]; intros n s Hi HL Hl Hn Hf; [lia|].
  assert (Hrel : forall s, c_held s = Lcons :: L -> release Lcons s = Done tt (with_locks L s)) by (intros; by apply release_top).
  assert (Hself : ed_of (c_input s) = Ed (ed_done (ed_of (c_input s))) (ed_line (ed_of (c_input s)))) by by destruct (ed_of _).
  destruct (decide (n = 0)) as [->|Hn0].
  { cbn [Z.to_nat take_line read_loop]. exists (c_input s). split_and!; [done|done|]. change (negb (0 <? 0)) with true. cbn iota.
    unfold mbind, M_bind. rewrite Hrel by done. cbn. unfold mret, M_ret, with_locks, read_state. cbn. rewrite app_nil_r. f_equal. f_equal. lia. }
  replace (Z.to_nat n) with (S (Z.to_nat (n - 1))) by lia. cbn [take_line read_loop].
  rewrite (proj2 (Z.ltb_lt 0 n)) by lia. cbn [negb]. rewrite (bind_Done (gets c_input) _ s (c_input s) s eq_refl), done_empty by done.
  case_bool_decide as Hd.
  { rewrite Hd in *. exists (c_input s). cbn [length]. split_and!; [done|by rewrite Hself|].
    destruct killed; unfold mbind, M_bind; rewrite Hrel by done; unfold mret, M_ret, with_locks, read_state; cbn; rewrite app_nil_r; [done|].
    by rewrite Z.sub_0_r. }
  assert (Hpos : 0 < committed (c_input s)).
  { pose proof (ed_done_length _ Hi) as Hlen. destruct (ed_done (ed_of (c_input s))); [done|]. cbn [length] in Hlen. lia. }
  destruct (ed_consume _ Hi Hpos) as [He Hic]. rewrite He. cbn [ed_done ed_line].
  set (c := byte_at (c_input s) (i_r (c_input s))). destruct (i8_ctrl_d c (byte_range _ _ Hi)) as (E1 & E2 & E3). rewrite E1.
  assert (Hcons : on_input (fun i => Input (i_buf i) (u32 (i_r i + 1)) (i_w i) (i_e i)) s = Done tt (with_input (consume (c_input s)) s)) by done.
  rewrite (bind_Done _ _ s tt _ Hcons). destruct (c =? CTRL_D) eqn:Ec.
  - cbn [length]. destruct (n <? target).
    + exists (c_input s). split_and!; [done|by rewrite He|].
      rewrite (bind_Done _ _ _ tt s); [|by apply unread].
      unfold mbind, M_bind, mret, M_ret. rewrite Hrel by done. cbn. unfold with_locks, read_state. cbn.
      rewrite app_nil_r. f_equal. f_equal. lia.
    + exists (consume (c_input s)). split_and!; [done|apply ed_eta|]. unfold when, mbind, M_bind, mret, M_ret.
      rewrite Hrel by done. cbn. rewrite app_nil_r. f_equal. f_equal. lia.
  - assert (Hput : put_out (u8 (i8 c)) (with_input (consume (c_input s)) s) = Done tt (read_state (consume (c_input s)) (c_ip s) [c] s)) by (unfold put_out, modify; by rewrite E3).
    rewrite (bind_Done _ _ _ tt _ Hput), E2. destruct (c =? NEWLINE).
    + exists (consume (c_input s)). split_and!; [done|apply ed_eta|]. unfold mbind, M_bind, mret, M_ret.
      rewrite Hrel by done. cbn. f_equal. f_equal. lia.
    + specialize (IH (n - 1) (read_state (consume (c_input s)) (c_ip s) [c] s) Hic HL Hl ltac:(lia) ltac:(lia)).
      rewrite (proj2 (Z.ltb_lt (n - 1) target)) in IH by lia. cbn [c_input read_state] in IH.
      destruct (take_line (ed_done (ed_of (consume (c_input s)))) (Z.to_nat (n - 1)) true) as [[a rest] fin].
      destruct IH as (i' & H1 & H2 & H3). exists i'. split_and!; [done|done|]. rewrite H3. cbn [length].
      f_equal.
      * destruct fin; [f_equal; lia|]. destruct killed; [done|]. f_equal. lia.
      * unfold with_locks, read_state. cbn. by rewrite <- app_assoc.
Qed.

(** What a run of [consoleread] takes, from the call or after a sleep with [n] of
    [target] bytes still wanted: the committed bytes up to the end of a line, an end
    of file, or [n]; it then returns the number of bytes read in all runs, with the
    inode locked again; otherwise it has taken everything that was committed and
    sleeps without the inode's lock, or returns -1 when the process is killed.  The
    line being edited is not touched, and the console's lock is given back. *)
Theorem consoleread_takes_line killed target n s :
  input_ok (c_input s) -> Lcons ∉ c_held s -> 0 <= n <= target -> c_ip s = false ->
  let '(a, rest, fin) := take_line (ed_done (ed_of (c_input s))) (Z.to_nat n) (n <? target) in
  exists s', consoleread_run killed target n s =
      Done (if fin then CRet (target - n + Z.of_nat (length a)) else if killed then CRet (-1) else CSleep (n - Z.of_nat (length a))) s' /\
    ed_of (c_input s') = Ed rest (ed_line (ed_of (c_input s))) /\ input_ok (c_input s') /\
    c_out s' = c_out s ++ a /\ c_ip s' = fin || killed /\ c_held s' = c_held s.
Proof.
  intros Hi Hl Hn Hip.
  pose proof (read_loop_takes (S (Z.to_nat n)) killed target n (with_locks (Lcons :: c_held s) s) (c_held s) Hi eq_refl Hl Hn ltac:(lia)) as H.
  change (c_input (with_locks (Lcons :: c_held s) s)) with (c_input s) in H.
  destruct (take_line _ _ _) as [[a rest] fin]. destruct H as (i' & H1 & H2 & H3).
  eexists. split_and!.
  - unfold consoleread_run, mbind, M_bind. rewrite acquire_free by done. exact H3.
  - exact H2.
  - exact H1.
  - done.
  - cbn. by rewrite Hip, orb_false_r.
  - done.
Qed.

Example consoleread_takes_line_witness :
  exists s', consoleread_run false 100 100 blank_con = Done (CSleep 100) s' /\ c_ip s' = false.
Proof.
  destruct (consoleread_takes_line false 100 100 blank_con blank_input_ok) as (s' & H1 & _ & _ & _ & H2 & _);
    [cbn; set_solver|lia|done|].
  exists s'. by split.
Defined.

(** ** Typing a line and reading it *)
Definition printable (c : Z) : Prop := 32 <= c < 127.

Lemma ed_char_printable c d l : printable c -> Z.of_nat (length (d ++ l)) < 127 ->
  ed_char c (Ed d l) = Result (Ed d (l ++ [c])) [c] 0 false.
Proof.
  intros Hc Hl. unfold printable in Hc. unfold ed_char, CTRL_P, CTRL_U, CTRL_H, C. cbn [ed_done ed_line].
  rewrite !(proj2 (Z.eqb_neq c _)) by lia. cbn [orb negb andb].
  assert (Hn : norm c = c) by (unfold norm; by rewrite (proj2 (Z.eqb_neq c 13)) by lia). rewrite Hn.
  unfold NEWLINE, CTRL_D, C, INPUT_BUF. rewrite !(proj2 (Z.eqb_neq c _)) by lia. cbn [orb].
  rewrite (proj2 (Z.ltb_lt _ 128)) by lia.
  rewrite (proj2 (Z.eqb_neq _ 128)); [done|]. rewrite app_assoc, length_app. cbn [length]. lia.
Qed.
Lemma ed_chars_printable text tl d l : Forall printable text -> Z.of_nat (length d + length l + length text) < 128 ->
  ed_chars (text ++ tl) (Ed d l) = 
  let r := ed_chars tl (Ed d (l ++ text)) in Result (r_ed r) (text ++ r_echo r) (r_wakes r) (r_list r).
Proof.
  revert l. induction text as [|c text IH]; intros l Ht Hl; cbn [app].
  - rewrite app_nil_r. cbv zeta. by destruct (ed_chars tl (Ed d l)).
  - apply Forall_cons in Ht as [Hc Ht]. cbn [ed_chars]. rewrite ed_char_printable by (done || (rewrite length_app; cbn [length] in Hl; lia)).
    cbn [r_ed r_echo r_wakes r_list]. rewrite IH; [|done|rewrite length_app; cbn [length] in *; lia]. cbv zeta.
    by rewrite <- app_assoc.
Qed.
Lemma ed_char_return l : Z.of_nat (length l) < 128 -> ed_char 13 (Ed [] l) = Result (Ed (l ++ [NEWLINE]) []) [NEWLINE] 1 false.
Proof. intros Hl. unfold ed_char. cbn. unfold INPUT_BUF. by rewrite (proj2 (Z.ltb_lt _ 128)) by lia. Qed.

Lemma take_line_whole text rest n got : Forall printable text -> (length text < n)%nat ->
  take_line (text ++ NEWLINE :: rest) n got = (text ++ [NEWLINE], rest, true).
Proof.
  revert n got. induction text as [|c text IH]; intros [|n] got Ht Hn; cbn [length app] in *; try lia; cbn [take_line]; [done|].
  apply Forall_cons in Ht as [Hc Ht]. unfold printable in Hc. unfold CTRL_D, C, NEWLINE in *.
  rewrite !(proj2 (Z.eqb_neq c _)) by lia. by rewrite IH by (done || lia).
Qed.

(** What is typed is what is read: a line of up to 126 printable characters
    typed on an idle console and ended with Return is committed with one wake-up, is
    echoed, and a read that asks for more bytes than it has returns exactly that
    line with a newline, leaving the console idle again. *)
Theorem console_line_roundtrip text killed n s :
  can_print s -> input_ok (c_input s) -> Lcons ∉ c_held s -> ed_of (c_input s) = Ed [] [] ->
  Forall printable text -> Z.of_nat (length text) <= 126 -> Z.of_nat (length text) < n ->
  exists s1 s2, consoleintr (text ++ [13]) s = Done false s1 /\ c_wakes s1 = S (c_wakes s) /\
    term_of s1 = foldl (fun t c => term_put c t) (term_of s) (text ++ [NEWLINE]) /\
    consoleread killed n s1 = Done (CRet (Z.of_nat (length text) + 1)) s2 /\
    c_out s2 = c_out s1 ++ text ++ [NEWLINE] /\ ed_of (c_input s2) = Ed [] [] /\ c_ip s2 = true /\ c_held s2 = c_held s.
Proof.
  intros Hs Hi Hl He Ht Hlen Hn.
  assert (Hr : ed_chars (text ++ [13]) (Ed [] []) = Result (Ed (text ++ [NEWLINE]) []) (text ++ [NEWLINE]) 1 false).
  { rewrite ed_chars_printable; [|done|cbn; lia]. cbn [ed_chars app]. by rewrite ed_char_return by lia. }
  assert (Hb : Forall (fun c => 0 <= c < 256) (text ++ [13])).
  { apply Forall_app. split; [|by repeat constructor]. eapply Forall_impl; [exact Ht|]. unfold printable. cbn. lia. }
  destruct (console_chars_edit (text ++ [13]) (with_locks (Lcons :: c_held s) s) (can_print_locks _ _ Hs) Hi Hb) as (i1 & H1 & H2 & H3).
  change (c_input (with_locks (Lcons :: c_held s) s)) with (c_input s) in H2, H3. rewrite He, Hr in H2, H3. cbn [r_ed r_echo r_wakes r_list] in *.
  set (s1 := edited i1 1 (text ++ [NEWLINE]) s).
  assert (Hintr : consoleintr (text ++ [13]) s = Done false s1).
  { unfold consoleintr, mbind, M_bind. rewrite acquire_free by done. change (locks_of s) with (c_held s). rewrite H3, edited_locks.
    by rewrite (release_top Lcons (c_held s)). }
  set (s1' := read_state i1 false [] s1).
  pose proof (read_loop_takes (S (Z.to_nat n)) killed n n (with_locks (Lcons :: c_held s) s1') (c_held s) H1 eq_refl Hl ltac:(lia) ltac:(lia)) as H.
  change (c_input (with_locks (Lcons :: c_held s) s1')) with i1 in H. rewrite H2 in H. cbn [ed_done ed_line] in H.
  rewrite take_line_whole in H by (done || lia). destruct H as (i2 & K1 & K2 & K3).
  exists s1. eexists. split_and!; [done|done|by apply emits_term| |..].
  - unfold consoleread, consoleread_run. assert (Hiu : ip_unlock s1 = Done tt s1').
    { unfold s1', read_state, ip_unlock, set_ip, modify. by rewrite app_nil_r. }
    rewrite (bind_Done _ _ s1 tt _ Hiu). unfold mbind, M_bind. rewrite acquire_free by done. change (locks_of s1') with (c_held s).
    rewrite K3. f_equal. f_equal. rewrite length_app. cbn [length]. lia.
  - cbn. by rewrite app_nil_r.
  - exact K2.
  - done.
  - done.
Qed.

Example console_line_roundtrip_witness :
  exists s1 s2, consoleintr ([108; 115] ++ [13]) blank_con = Done false s1 /\
    consoleread false 100 s1 = Done (CRet 3) s2 /\ c_out s2 = c_out s1 ++ [108; 115; NEWLINE].
Proof.
  destruct (console_line_roundtrip [108; 115] false 100 blank_con blank_can_print blank_input_ok) as (s1 & s2 & H1 & _ & _ & H2 & H3 & _);
    [cbn; set_solver|done|repeat constructor; unfold printable; lia|cbn; lia|cbn; lia|].
  exists s1, s2. split_and!; [exact H1|exact H2|exact H3].
Defined.
