(* ===== verification/Kbd.v ===== *)
(** * The keyboard ([kbd.c], [kbd.h])

    [kbdgetc] turns the scan codes of the keyboard controller into characters with a
    word of modifier bits; [kbdintr] hands them to the line editor of the console. *)
From S2P Require Import Prelude Layout Memory Locks Digits Console ConsoleScreen ConsoleInput.

Definition SHIFT : Z := 1.
Definition CTL : Z := 2.
Definition ALT : Z := 4.
Definition CAPSLOCK : Z := 8.
Definition NUMLOCK : Z := 16.
Definition SCROLLLOCK : Z := 32.
Definition E0ESC : Z := 64.

(** An initialised array of 256 bytes: the positional elements, then those with a
    designator; the others are 0. *)
Definition table (l : list Z) (designated : list (Z * Z)) (i : Z) : Z :=
  match list_find (fun p : Z * Z => p.1 = i) designated with
  | Some (_, p) => p.2
  | None => nth (Z.to_nat i) l 0
  end.

Definition shiftcode : Z -> Z := table
  []
  [ (29, 2); (42, 1); (54, 1); (56, 4); (157, 2); (184, 4) ].
Definition togglecode : Z -> Z := table
  []
  [ (58, 8); (69, 16); (70, 32) ].
Definition normalmap : Z -> Z := table
  [ 0; 27; 49; 50; 51; 52; 53; 54; 55; 56; 57; 48; 45; 61; 8; 9;
    113; 119; 101; 114; 116; 121; 117; 105; 111; 112; 91; 93; 10; 0; 97; 115;
    100; 102; 103; 104; 106; 107; 108; 59; 39; 96; 0; 92; 122; 120; 99; 118;
    98; 110; 109; 44; 46; 47; 0; 42; 0; 32; 0; 0; 0; 0; 0; 0;
    0; 0; 0; 0; 0; 0; 0; 55; 56; 57; 45; 52; 53; 54; 43; 49;
    50; 51; 48; 46; 0; 0; 0; 0 ]
  [ (156, 10); (181, 47); (200, 226); (208, 227); (201, 230); (209, 231); (203, 228); (205, 229); (151, 224); (207, 225); (210, 232); (211, 233) ].
Definition shiftmap : Z -> Z := table
  [ 0; 27; 33; 64; 35; 36; 37; 94; 38; 42; 40; 41; 95; 43; 8; 9;
    81; 87; 69; 82; 84; 89; 85; 73; 79; 80; 123; 125; 10; 0; 65; 83;
    68; 70; 71; 72; 74; 75; 76; 58; 34; 126; 0; 124; 90; 88; 67; 86;
    66; 78; 77; 60; 62; 63; 0; 42; 0; 32; 0; 0; 0; 0; 0; 0;
    0; 0; 0; 0; 0; 0; 0; 55; 56; 57; 45; 52; 53; 54; 43; 49;
    50; 51; 48; 46; 0; 0; 0; 0 ]
  [ (156, 10); (181, 47); (200, 226); (208, 227); (201, 230); (209, 231); (203, 228); (205, 229); (151, 224); (207, 225); (210, 232); (211, 233) ].
Definition ctlmap : Z -> Z := table
  [ 0; 0; 0; 0; 0; 0; 0; 0; 0; 0; 0; 0; 0; 0; 0; 0;
    17; 23; 5; 18; 20; 25; 21; 9; 15; 16; 0; 0; 13; 0; 1; 19;
    4; 6; 7; 8; 10; 11; 12; 0; 0; 0; 0; 28; 26; 24; 3; 22;
    2; 14; 13; 0; 0; 239; 0; 0 ]
  [ (156, 13); (181, 239); (200, 226); (208, 227); (201, 230); (209, 231); (203, 228); (205, 229); (151, 224); (207, 225); (210, 232); (211, 233) ].

Definition charcode (k : Z) : Z -> Z := nth (Z.to_nat k) [normalmap; shiftmap; ctlmap; ctlmap] (fun _ => 0).

(** The [static] word of modifiers and the scan codes the controller holds: its
    status bit for data is set while there is one. *)
Record kbd := Kbd { k_shift : Z; k_data : list Z }.
Definition set_shift (f : Z -> Z) : M kbd unit := modify (fun s => Kbd (f (k_shift s)) (k_data s)).

(** The letters change case under caps lock. *)
Definition caps (shift c : Z) : Z :=
  if truth (shift &&& CAPSLOCK) then
    if (97 <=? c) && (c <=? 122) then c - 32 else if (65 <=? c) && (c <=? 90) then c + 32 else c
  else c.

Definition press (data : Z) : M kbd Z :=
  set_shift (fun s => s ||| shiftcode data) ;;
  set_shift (fun s => Z.lxor s (togglecode data)) ;;
  s ← gets k_shift;
  mret (caps s (charcode (s &&& (CTL ||| SHIFT)) data)).

Definition kbdgetc : M kbd Z := fun k =>
  match k_data k with
  | [] => Done (-1) k
  | data :: rest =>
      (if data =? 224 then set_shift (fun s => s ||| E0ESC) ;; mret 0
       else
         s ← gets k_shift;
         if truth (data &&& 128) then
           let data := if truth (s &&& E0ESC) then data else data &&& 127 in
           set_shift (fun s => s &&& Z.lnot (shiftcode data ||| E0ESC)) ;; mret 0
         else if truth (s &&& E0ESC) then
           set_shift (fun s => s &&& Z.lnot E0ESC) ;; press (data ||| 128)
         else press data) (Kbd (k_shift k) rest)
  end.

(** The characters [consoleintr] gets from [kbdgetc] until it has none: one per scan
    code. *)
Fixpoint kbd_chars (n : nat) : M kbd (list Z) :=
  match n with
  | O => mret []
  | S n' => c ← kbdgetc; if c <? 0 then mret [] else cs ← kbd_chars n'; mret (c :: cs)
  end.
Definition kbdintr (k : kbd) : M con (bool * kbd) := fun s =>
  match kbd_chars (S (length (k_data k))) k with
  | Done cs k' => match consoleintr cs s with
                  | Done d s' => Done (d, k') s'
                  | Panic m => Panic m | Sleep c s' => Sleep c s' | Undef w => Undef w | Spin => Spin
                  end
  | _ => Undef "kbd"
  end.

(** ** One scan code at a time *)
Definition press_step (st data : Z) : Z * Z :=
  let st := Z.lxor (st ||| shiftcode data) (togglecode data) in
  (caps st (charcode (st &&& (CTL ||| SHIFT)) data), st).
Definition code_step (st data : Z) : Z * Z :=
  if data =? 224 then (0, st ||| E0ESC)
  else if truth (data &&& 128) then
    (0, st &&& Z.lnot (shiftcode (if truth (st &&& E0ESC) then data else data &&& 127) ||| E0ESC))
  else if truth (st &&& E0ESC) then press_step (st &&& Z.lnot E0ESC) (data ||| 128)
  else press_step st data.
Fixpoint code_steps (st : Z) (codes : list Z) : list Z * Z :=
  match codes with
  | [] => ([], st)
  | d :: codes' => let r := code_steps (code_step st d).2 codes' in ((code_step st d).1 :: r.1, r.2)
  end.

Lemma kbdgetc_step st d rest : kbdgetc (Kbd st (d :: rest)) = Done (code_step st d).1 (Kbd (code_step st d).2 rest).
Proof.
  unfold kbdgetc, code_step. cbn [k_data k_shift]. destruct (d =? 224); [done|].
  rewrite (bind_Done (gets k_shift) _ (Kbd st rest) st (Kbd st rest) eq_refl).
  destruct (truth (d &&& 128)); [done|]. by destruct (truth (st &&& E0ESC)).
Qed.

Lemma charcode_range k d : 0 <= k < 4 -> 0 <= d < 256 -> 0 <= charcode k d < 256.
Proof.
  intros Hk Hd.
  assert (H : forallb (fun k => forallb (fun d => (0 <=? charcode k d) && (charcode k d <? 256)) (seqZ 0 256)) (seqZ 0 4) = true) by (vm_compute; done).
  rewrite forallb_forall in H. specialize (H k). rewrite <- list_elem_of_In, elem_of_seqZ in H. specialize (H ltac:(lia)).
  rewrite forallb_forall in H. specialize (H d). rewrite <- list_elem_of_In, elem_of_seqZ in H. specialize (H ltac:(lia)). lia.
Qed.
Lemma press_step_range st d : 0 <= d < 256 -> 0 <= (press_step st d).1 < 256.
Proof.
  intros Hd. unfold press_step. cbn [fst]. set (k := Z.lxor _ _ &&& _).
  assert (Hk : 0 <= k < 4).
  { unfold k. change (CTL ||| SHIFT) with (Z.ones 2). rewrite Z.land_ones by lia. change (2 ^ 2) with 4. zlia. }
  pose proof (charcode_range k d Hk Hd). unfold caps. repeat case_match; lia.
Qed.
Lemma lor128_range d : 0 <= d < 256 -> truth (d &&& 128) = false -> 0 <= d ||| 128 < 256.
Proof.
  intros Hd _. assert (H : forallb (fun d => (0 <=? d ||| 128) && (d ||| 128 <? 256)) (seqZ 0 256) = true) by (vm_compute; done).
  rewrite forallb_forall in H. specialize (H d). rewrite <- list_elem_of_In, elem_of_seqZ in H. specialize (H ltac:(lia)). lia.
Qed.
Lemma code_step_range st d : 0 <= d < 256 -> 0 <= (code_step st d).1 < 256.
Proof.
  intros Hd. unfold code_step. destruct (d =? 224); [cbn; lia|]. destruct (truth (d &&& 128)) eqn:E; [cbn; lia|].
  destruct (truth (st &&& E0ESC)); apply press_step_range; [by apply lor128_range|done].
Qed.

(** The handler takes every scan code the controller holds. *)
Lemma kbd_chars_steps codes st n : Forall (fun d => 0 <= d < 256) codes -> (length codes < n)%nat ->
  kbd_chars n (Kbd st codes) = Done (code_steps st codes).1 (Kbd (code_steps st codes).2 []).
Proof.
  revert st n. induction codes as [|d codes IH]; intros st [|n] Hc Hn; cbn [length] in Hn; try lia; cbn [kbd_chars code_steps].
  - done.
  - apply Forall_cons in Hc as [Hd Hc]. unfold mbind, M_bind. rewrite kbdgetc_step.
    pose proof (code_step_range st d Hd). rewrite (proj2 (Z.ltb_ge _ 0)) by lia. rewrite IH by (done || lia). done.
Qed.
Lemma code_steps_range codes st : Forall (fun d => 0 <= d < 256) codes -> Forall (fun c => 0 <= c < 256) (code_steps st codes).1.
Proof.
  revert st. induction codes as [|d codes IH]; intros st Hc; cbn [code_steps]; [constructor|].
  apply Forall_cons in Hc as [Hd Hc]. constructor; [by apply code_step_range|by apply IH].
Qed.
Lemma code_steps_app st l1 l2 :
  code_steps st (l1 ++ l2) = let r1 := code_steps st l1 in let r2 := code_steps r1.2 l2 in (r1.1 ++ r2.1, r2.2).
Proof.
  revert st. induction l1 as [|d l1 IH]; intros st; cbn [app code_steps]; [apply surjective_pairing|].
  rewrite IH. done.
Qed.

(** ** Letters *)

(** What a letter key gives under the modifiers: control characters, and the other
    case under shift or caps lock but not under both. *)
Definition letter (st c : Z) : Z :=
  if truth (st &&& CTL) then c - 96
  else if xorb (truth (st &&& SHIFT)) (truth (st &&& CAPSLOCK)) then c - 32 else c.

Lemma kbd_letter st d : 0 <= st < 64 -> 0 <= d < 128 -> 97 <= normalmap d <= 122 ->
  code_step st d = (letter st (normalmap d), st).
Proof.
  intros Hs Hd Hl.
  assert (H : forallb (fun st => forallb (fun d => negb ((97 <=? normalmap d) && (normalmap d <=? 122)) ||
     bool_decide (code_step st d = (letter st (normalmap d), st))) (seqZ 0 128)) (seqZ 0 64) = true) by (vm_compute; done).
  rewrite forallb_forall in H. specialize (H st). rewrite <- list_elem_of_In, elem_of_seqZ in H. specialize (H ltac:(lia)).
  rewrite forallb_forall in H. specialize (H d). rewrite <- list_elem_of_In, elem_of_seqZ in H. specialize (H ltac:(lia)).
  rewrite (proj2 (Z.leb_le _ _)), (proj2 (Z.leb_le (normalmap d) _)) in H by lia. by apply bool_decide_eq_true in H.
Qed.

(** The keys a typist presses for a letter: the key of the letter, with the left
    shift key held for a capital. *)
Definition key_of (c : Z) : Z := default 0 (snd <$> list_find (fun d => normalmap d = c) (seqZ 0 128)).
Definition upper (c : Z) : Prop := 65 <= c <= 90.
Definition lower (c : Z) : Prop := 97 <= c <= 122.
Definition typed (c : Z) : list Z :=
  if (97 <=? c) && (c <=? 122) then [key_of c; key_of c + 128] else [42; key_of (c + 32); key_of (c + 32) + 128; 170].
Definition ENTER : list Z := [28; 156].

Lemma typed_letter c : upper c \/ lower c ->
  Forall (fun d => 0 <= d < 256) (typed c) /\ (code_steps 0 (typed c)).2 = 0 /\ filter (fun x => x <> 0) (code_steps 0 (typed c)).1 = [c].
Proof.
  intros Hc.
  assert (H : forallb (fun c => negb (((65 <=? c) && (c <=? 90)) || ((97 <=? c) && (c <=? 122))) ||
     (forallb (fun d => (0 <=? d) && (d <? 256)) (typed c) && ((code_steps 0 (typed c)).2 =? 0) &&
      bool_decide (filter (fun x => x <> 0) (code_steps 0 (typed c)).1 = [c]))) (seqZ 0 128) = true) by (vm_compute; done).
  rewrite forallb_forall in H. specialize (H c). rewrite <- list_elem_of_In, elem_of_seqZ in H. unfold upper, lower in Hc. specialize (H ltac:(lia)).
  assert (Hg : (((65 <=? c) && (c <=? 90)) || ((97 <=? c) && (c <=? 122))) = true) by lia. rewrite Hg in H. cbn [negb orb] in H.
  apply andb_true_iff in H as [H H3%bool_decide_eq_true]. apply andb_true_iff in H as [H1 H2%Z.eqb_eq].
  split_and!; [|done|done]. rewrite Forall_forall. intros x Hx. rewrite forallb_forall in H1. specialize (H1 x (proj1 (list_elem_of_In _ _) Hx)). lia.
Qed.

Lemma typed_text text : Forall (fun c => upper c \/ lower c) text ->
  let codes := concat (map typed text) in
  Forall (fun d => 0 <= d < 256) codes /\ (code_steps 0 codes).2 = 0 /\ filter (fun x => x <> 0) (code_steps 0 codes).1 = text.
Proof.
  induction 1 as [|c text Hc Ht IH]; cbn [map concat]; [done|]. cbn zeta in *. destruct IH as (I1 & I2 & I3).
  destruct (typed_letter c Hc) as (T1 & T2 & T3). rewrite code_steps_app. cbn zeta. rewrite T2. cbn [fst snd].
  split_and!; [by apply Forall_app|done|]. by rewrite filter_app, T3, I3.
Qed.

(** The editor ignores the NULs that stand for keys without a character. *)
Lemma ed_chars_nul cs x : 
  let r := ed_chars cs x in let r' := ed_chars (filter (fun c => c <> 0) cs) x in
  r_ed r = r_ed r' /\ r_echo r = r_echo r' /\ r_wakes r = r_wakes r' /\ r_list r = r_list r'.
Proof.
  revert x. induction cs as [|c cs IH]; intros x; [done|]. cbn zeta in *. rewrite filter_cons. destruct (decide (c <> 0)) as [Hc|Hc].
  - cbn [ed_chars r_ed r_echo r_wakes r_list]. destruct (IH (r_ed (ed_char c x))) as (E1 & E2 & E3 & E4). by rewrite E1, E2, E3, E4.
  - assert (c = 0) as -> by lia. cbn [ed_chars r_ed r_echo r_wakes r_list].
    assert (E : ed_char 0 x = Result x [] 0 false) by done. rewrite E. cbn [r_ed r_echo r_wakes r_list app]. apply IH.
Qed.

(** From the keys to the reader: on an idle console with no modifier held, the
    scan codes of a word of letters - each key pressed and released, with the shift
    key around capitals - and of the enter key make the keyboard interrupt commit
    exactly that word and a newline, echo it, wake the readers once, and leave the
    keyboard with no modifier set. *)
Theorem keyboard_line text s :
  can_print s -> input_ok (c_input s) -> Lcons ∉ c_held s -> ed_of (c_input s) = Ed [] [] ->
  Forall (fun c => upper c \/ lower c) text -> Z.of_nat (length text) <= 126 ->
  exists s', kbdintr (Kbd 0 (concat (map typed text) ++ ENTER)) s = Done (false, Kbd 0 []) s' /\
    ed_of (c_input s') = Ed (text ++ [NEWLINE]) [] /\ c_wakes s' = S (c_wakes s) /\
    term_of s' = foldl (fun t c => term_put c t) (term_of s) (text ++ [NEWLINE]).
Proof.
  intros Hs Hi Hl He Ht Hlen. destruct (typed_text text Ht) as (T1 & T2 & T3).
  set (codes := concat (map typed text)) in *.
  assert (Hc : Forall (fun d => 0 <= d < 256) (codes ++ ENTER)) by (apply Forall_app; split; [done|repeat constructor; lia]).
  assert (Hst : (code_steps 0 (codes ++ ENTER)).2 = 0) by (rewrite code_steps_app; cbn zeta; by rewrite T2).
  assert (Hf : filter (fun x => x <> 0) (code_steps 0 (codes ++ ENTER)).1 = text ++ [NEWLINE]).
  { rewrite code_steps_app. cbn zeta. rewrite T2. cbn [fst snd]. by rewrite filter_app, T3. }
  set (cs := (code_steps 0 (codes ++ ENTER)).1) in *.
  assert (Hr : ed_chars (text ++ [NEWLINE]) (Ed [] []) = Result (Ed (text ++ [NEWLINE]) []) (text ++ [NEWLINE]) 1 false).
  { rewrite ed_chars_printable; [|eapply Forall_impl; [exact Ht|unfold upper, lower, printable; cbn; lia]|cbn; lia]. cbn [ed_chars app].
    assert (E : ed_char NEWLINE (Ed [] text) = Result (Ed (text ++ [NEWLINE]) []) [NEWLINE] 1 false); [|by rewrite E].
    unfold ed_char. cbn. unfold INPUT_BUF. by rewrite (proj2 (Z.ltb_lt _ 128)) by lia. }
  pose proof (ed_chars_nul cs (Ed [] [])) as Hn. cbn zeta in Hn. rewrite Hf, Hr in Hn. cbn [r_ed r_echo r_wakes r_list] in Hn.
  destruct Hn as (N1 & N2 & N3 & N4).
  destruct (console_chars_edit cs (with_locks (Lcons :: c_held s) s) (can_print_locks _ _ Hs) Hi) as (i' & H1 & H2 & H3); [by apply code_steps_range|].
  change (c_input (with_locks (Lcons :: c_held s) s)) with (c_input s) in H2, H3. rewrite He in H2, H3. rewrite N1 in H2. rewrite N2, N3, N4 in H3.
  exists (edited i' 1 (text ++ [NEWLINE]) s). split_and!; [|done|done|by apply emits_term].
  unfold kbdintr. cbn [k_data]. rewrite kbd_chars_steps by (done || lia). fold cs. rewrite Hst.
  unfold consoleintr, mbind, M_bind. rewrite acquire_free by done. change (locks_of s) with (c_held s). rewrite H3, edited_locks.
  by rewrite (release_top Lcons (c_held s)).
Qed.

Example keyboard_line_witness :
  exists s', kbdintr (Kbd 0 (concat (map typed [76; 115]) ++ ENTER)) blank_con = Done (false, Kbd 0 []) s' /\ ed_of (c_input s') = Ed [76; 115; NEWLINE] [].
Proof.
  destruct (keyboard_line [76; 115] blank_con blank_can_print blank_input_ok) as (s' & H1 & H2 & _);
    [cbn; set_solver|done|repeat constructor; unfold upper, lower; lia|cbn; lia|].
  exists s'. split; [exact H1|exact H2].
Defined.
