(* ===== verification/Sh.v ===== *)
(** * The parser of the shell ([sh.c])

    The command line is the list of its bytes before the NUL; pointers into it are
    offsets, and the parser's state is the offset [*ps] points to.  A word is a pair
    of offsets, the first byte and the byte after the last one, as [argv[i]] and
    [eargv[i]] are.  [panic] ends the shell's child; [malloc] gives the nodes of the
    tree, whose fields are the arguments of the constructors.  The tree of a simple
    command is built last: [parseexec] fills its words in while the redirections are
    already wrapped around it, so the redirections are kept in their order. *)
From S2P Require Import Prelude Layout Memory Digits Ulib.

Definition MAXARGS : nat := 10.
Definition whitespace : list Z := [32; 9; 13; 10; 11].
Definition symbols : list Z := [60; 124; 62; 38; 59; 40; 41].
Definition LT : Z := 60.
Definition BAR : Z := 124.
Definition GT : Z := 62.
Definition AMP : Z := 38.
Definition SEMI : Z := 59.
Definition LPAR : Z := 40.
Definition RPAR : Z := 41.

(** The tree, over the type [W] of words: spans of the buffer in the parser. *)
Definition span := (nat * nat)%type.
Inductive cmd {W : Type} :=
| EXEC (argv : list W)
| REDIR (c : cmd) (file : W) (mode fd : Z)
| PIPE (left right : cmd)
| LIST (left right : cmd)
| BACK (c : cmd).
Arguments cmd W : clear implicits.
Record redir {W : Type} := Redir { r_file : W; r_mode : Z; r_fd : Z }.
Arguments redir W : clear implicits.
Arguments Redir {W} _ _ _.
Arguments r_file {W} _.
Arguments r_mode {W} _.
Arguments r_fd {W} _.
Definition redircmd {W} (c : cmd W) (r : redir W) : cmd W := REDIR c (r_file r) (r_mode r) (r_fd r).

(** [strchr(l, c)] as a condition; it is null for a NUL. *)
Definition among (l : list Z) (c : Z) : bool := match find_char c l with Some _ => true | None => false end.

(** The bytes a loop [while(s < es && p( *s)) s++] passes. *)
Fixpoint run_length (p : Z -> bool) (l : list Z) : nat :=
  match l with c :: l' => if p c then S (run_length p l') else O | [] => O end.

Section parser.
Context (buf : list Z).
Let es : nat := length buf.
Definition char_at (s : nat) : Z := nth s buf 0.
Definition skip (p : Z -> bool) (s : nat) : nat := (s + run_length p (drop s buf))%nat.

(** [gettoken]: the token's code, its first byte and the byte after it. *)
Definition gettoken : M nat (Z * span) := fun ps =>
  let s := skip (among whitespace) ps in
  let c := char_at s in
  let '(ret, eq) :=
    if c =? 0 then (0, s)
    else if bool_decide (c ∈ [BAR; LPAR; RPAR; SEMI; AMP; LT]) then (c, S s)
    else if c =? GT then (if char_at (S s) =? GT then (43, S (S s)) else (GT, S s))
    else (97, skip (fun c => negb (among whitespace c) && negb (among symbols c)) s) in
  Done (ret, (s, eq)) (skip (among whitespace) eq).

Definition peek (toks : list Z) : M nat bool := fun ps =>
  let s := skip (among whitespace) ps in
  Done (truth (char_at s) && among toks (char_at s)) s.

(** The loop of [parseredirs]: the redirections in their order; each turn consumes
    a byte at least. *)
Fixpoint parseredirs (n : nat) : M nat (list (redir span)) :=
  match n with
  | O => spin
  | S n' =>
      b ← peek [LT; GT];
      if negb b then mret [] else
      t ← gettoken;
      q ← gettoken;
      if q.1 !=? 97 then panic "missing file for redirection" else
      rs ← parseredirs n';
      mret (if t.1 =? LT then @Redir span q.2 O_RDONLY 0 :: rs
            else if (t.1 =? GT) || (t.1 =? 43) then @Redir span q.2 (O_WRONLY ||| O_CREATE) 1 :: rs
            else rs)
  end.

(** The loop of [parseexec] over the words, with [argc] of them stored. *)
Fixpoint parsewords (n argc : nat) : M nat (list span * list (redir span)) :=
  match n with
  | O => spin
  | S n' =>
      b ← peek [BAR; RPAR; AMP; SEMI];
      if (b : bool) then mret ([], []) else
      t ← gettoken;
      if t.1 =? 0 then mret ([], []) else
      if t.1 !=? 97 then panic "syntax" else
      if (MAXARGS <=? S argc)%nat then panic "too many args" else
      rs ← parseredirs (S es);
      r ← parsewords n' (S argc);
      mret (t.2 :: r.1, rs ++ r.2)
  end.

(** [while(peek(ps, es, "&"))] of [parseline]. *)
Fixpoint parsebacks (n : nat) (c : cmd span) : M nat (cmd span) :=
  match n with
  | O => spin
  | S n' => b ← peek [AMP];
            if (b : bool) then gettoken ;; parsebacks n' (BACK c) else mret c
  end.

Fixpoint parseline (n : nat) : M nat (cmd span) :=
  match n with
  | O => spin
  | S n' =>
      c ← parsepipe n';
      c ← parsebacks (S es) c;
      b ← peek [SEMI];
      if (b : bool) then gettoken ;; r ← parseline n'; mret (LIST c r) else mret c
  end
with parsepipe (n : nat) : M nat (cmd span) :=
  match n with
  | O => spin
  | S n' =>
      c ← parseexec n';
      b ← peek [BAR];
      if (b : bool) then gettoken ;; r ← parsepipe n'; mret (PIPE c r) else mret c
  end
with parseexec (n : nat) : M nat (cmd span) :=
  match n with
  | O => spin
  | S n' =>
      b ← peek [LPAR];
      if (b : bool) then parseblock n' else
      rs ← parseredirs (S es);
      r ← parsewords (S es) 0;
      mret (foldl redircmd (EXEC r.1) (rs ++ r.2))
  end
with parseblock (n : nat) : M nat (cmd span) :=
  match n with
  | O => spin
  | S n' =>
      b ← peek [LPAR];
      if negb b then panic "parseblock" else
      gettoken ;;
      c ← parseline n';
      b ← peek [RPAR];
      if negb b then panic "syntax - missing )" else
      gettoken ;;
      rs ← parseredirs (S es);
      mret (foldl redircmd c rs)
  end.

(** [nulterminate]: the bytes after the words become NULs. *)
Fixpoint nulterminate (c : cmd span) (b : list Z) : list Z :=
  match c with
  | EXEC argv => foldl (fun b (w : span) => <[w.2 := 0]> b) b argv
  | REDIR c file _ _ => <[file.2 := 0]> (nulterminate c b)
  | PIPE l r | LIST l r => nulterminate r (nulterminate l b)
  | BACK c => nulterminate c b
  end.

(** [parsecmd], on the buffer with its NUL: the tree, and the buffer it points into. *)
Definition parsecmd : M nat (cmd span * list Z) :=
  c ← parseline (4 * es + 8);
  peek [] ;;
  s ← get;
  if bool_decide (s = es) then mret (c, nulterminate c (buf ++ [0])) else panic "syntax".
End parser.
