(* ===== verification/ShTheorems.v ===== *)
(** * What the shell's parser accepts

    The tokens of a command line, a grammar over tokens, and the correspondence: the
    parser always ends, it accepts exactly the sentences of the grammar (with the
    limit on the number of words), gives each its tree, and its words are strings of
    the buffer once [nulterminate] has run. *)
From S2P Require Import Prelude Layout Memory Digits Ulib Sh.

(** ** Tokens *)
Inductive token := TWord (w : list Z) | TSym (c : Z) | TApp.
Definition end_word (w : list Z) (ts : list token) : list token := match w with [] => ts | _ => TWord w :: ts end.

(** The tokens of a line whose current word is [w]. *)
Fixpoint lex_from (w l : list Z) : list token :=
  match l with
  | [] => end_word w []
  | c :: l' =>
      if among whitespace c then end_word w (lex_from [] l')
      else if among symbols c then
        end_word w (match l' with
                 | d :: l'' => if (c =? GT) && (d =? GT) then TApp :: lex_from [] l'' else TSym c :: lex_from [] l'
                 | [] => [TSym c]
                 end)
      else lex_from (w ++ [c]) l'
  end.
Definition lex (l : list Z) : list token := lex_from [] l.

Definition wordch (c : Z) : bool := negb (among whitespace c) && negb (among symbols c).
Definition code (t : token) : Z := match t with TWord _ => 97 | TSym c => c | TApp => 43 end.
(** The first token is one of the symbols. *)
Definition starts (toks : list Z) (ts : list token) : bool :=
  match ts with TSym c :: _ => among toks c | TApp :: _ => among toks GT | _ => false end.

Lemma among_spec l c : among l c = bool_decide (c ∈ l).
Proof.
  unfold among, find_char. induction l as [|x l IH]; [done|]. cbn [list_find]. destruct (decide (x = c)) as [->|Hx].
  - cbn. symmetry. apply bool_decide_true. set_solver.
  - transitivity (bool_decide (c ∈ l)); [rewrite <- IH; by destruct (list_find _ l) as [[? ?]|]|]. apply bool_decide_ext. set_solver.
Qed.
Lemma among_true l c : among l c = true <-> c ∈ l.
Proof. rewrite among_spec. apply bool_decide_eq_true. Qed.
Lemma among_zero : among whitespace 0 = false /\ among symbols 0 = false.
Proof. done. Qed.

Lemma run_length_le p l : (run_length p l <= length l)%nat.
Proof. induction l as [|c l IH]; cbn; [lia|]. case_match; lia. Qed.
Lemma run_take p l i c : take (run_length p l) l !! i = Some c -> p c = true.
Proof.
  revert i. induction l as [|x l IH]; intros i; cbn; [by rewrite lookup_nil|]. destruct (p x) eqn:E; cbn; [|by rewrite lookup_nil].
  destruct i; cbn; [by intros [= <-]|apply IH].
Qed.
Lemma run_drop p l c l' : drop (run_length p l) l = c :: l' -> p c = false.
Proof. induction l as [|x l IH]; cbn; [done|]. destruct (p x) eqn:E; cbn; [apply IH|]. by intros [= <- <-]. Qed.

Lemma lex_skip l : lex (drop (run_length (among whitespace) l) l) = lex l.
Proof. unfold lex. induction l as [|c l IH]; [done|]. cbn [run_length]. destruct (among whitespace c) eqn:E; cbn [drop lex_from]; [|done]. by rewrite E. Qed.
Lemma lex_word w l : w <> [] \/ run_length wordch l <> O ->
  lex_from w l = TWord (w ++ take (run_length wordch l) l) :: lex (drop (run_length wordch l) l).
Proof.
  revert w. induction l as [|c l IH]; intros w Hw; cbn [run_length].
  - cbn. rewrite app_nil_r. destruct w; [naive_solver|done].
  - destruct (wordch c) eqn:E; cbn [take drop lex_from].
    + unfold wordch in E. apply andb_true_iff in E as [E1%negb_true_iff E2%negb_true_iff]. rewrite E1, E2.
      rewrite IH by (left; by destruct w). by rewrite <- app_assoc.
    + destruct Hw as [Hw|Hw]; [|cbn [run_length] in Hw; by rewrite E in Hw]. rewrite app_nil_r. unfold lex. cbn [lex_from].
      unfold wordch in E. apply andb_false_iff in E. destruct (among whitespace c) eqn:E1; [destruct w; [done|done]|].
      destruct (among symbols c) eqn:E2; [|naive_solver]. by destruct w.
Qed.
Lemma lex_length l : (length (lex l) <= length l)%nat.
Proof.
  unfold lex. enough (H : forall n l w, (length l <= n)%nat -> (length (lex_from w l) <= length l + match w with [] => 0 | _ => 1 end)%nat)
    by (specialize (H (length l) l [] ltac:(lia)); cbv iota in H; lia).
  clear l. induction n as [|n IH]; intros l w Hl; (destruct l as [|c l]; [destruct w; cbn; lia|]); cbn [length] in Hl; [lia|].
  assert (Hfl : forall ts, length (end_word w ts) = (length ts + match w with [] => 0 | _ => 1 end)%nat) by (intros; destruct w; cbn; lia).
  cbn [lex_from]. destruct (among whitespace c); [rewrite Hfl; specialize (IH l [] ltac:(lia)); cbv iota in IH; cbn [length]; lia|].
  destruct (among symbols c).
  - rewrite Hfl. destruct l as [|d l]; [cbn; lia|]. destruct (_ && _).
    + cbn [length] in *. specialize (IH l [] ltac:(lia)). cbv iota in IH. lia.
    + specialize (IH (d :: l) [] ltac:(lia)). cbv iota in IH. cbn [length] in *. lia.
  - specialize (IH l (w ++ [c]) ltac:(lia)). destruct (w ++ [c]) eqn:E; [by destruct w|]. cbn [length]. destruct w; cbn in *; lia.
Qed.

(** ** The grammar *)

(** A redirection is its symbol and the word after it; a simple command is words with
    redirections before and after each; a block is a line in parentheses with
    redirections; then pipelines, and lines with background marks and sequences. *)
Definition gredir := (token * list Z)%type.
Definition gword := (list Z * list gredir)%type.
Inductive gline := GLast (p : gpipe) (backs : nat) | GSeq (p : gpipe) (backs : nat) (l : gline)
with gpipe := GOne (e : gexec) | GPipe (e : gexec) (p : gpipe)
with gexec := GWords (rs : list gredir) (ws : list gword) | GBlock (l : gline) (rs : list gredir).
Scheme gline_mind := Induction for gline Sort Prop
with gpipe_mind := Induction for gpipe Sort Prop
with gexec_mind := Induction for gexec Sort Prop.
Combined Scheme grammar_ind from gline_mind, gpipe_mind, gexec_mind.

(** The sentence of a tree. *)
Definition t_redirs (rs : list gredir) : list token := concat (map (fun r : gredir => [r.1; TWord r.2]) rs).
Definition t_words (ws : list gword) : list token := concat (map (fun w : gword => TWord w.1 :: t_redirs w.2) ws).
Fixpoint t_line (l : gline) : list token :=
  match l with
  | GLast p n => t_pipe p ++ replicate n (TSym AMP)
  | GSeq p n l => t_pipe p ++ replicate n (TSym AMP) ++ TSym SEMI :: t_line l
  end
with t_pipe (p : gpipe) : list token :=
  match p with GOne e => t_exec e | GPipe e p => t_exec e ++ TSym BAR :: t_pipe p end
with t_exec (e : gexec) : list token :=
  match e with
  | GWords rs ws => t_redirs rs ++ t_words ws
  | GBlock l rs => TSym LPAR :: t_line l ++ TSym RPAR :: t_redirs rs
  end.

(** The command it stands for. *)
Definition m_redir (r : gredir) : redir (list Z) :=
  if code r.1 =? LT then Redir r.2 O_RDONLY 0 else Redir r.2 (O_WRONLY ||| O_CREATE) 1.
Fixpoint backs {W} (n : nat) (c : cmd W) : cmd W := match n with O => c | S n' => BACK (backs n' c) end.
Fixpoint m_line (l : gline) : cmd (list Z) :=
  match l with
  | GLast p n => backs n (m_pipe p)
  | GSeq p n l => LIST (backs n (m_pipe p)) (m_line l)
  end
with m_pipe (p : gpipe) : cmd (list Z) :=
  match p with GOne e => m_exec e | GPipe e p => PIPE (m_exec e) (m_pipe p) end
with m_exec (e : gexec) : cmd (list Z) :=
  match e with
  | GWords rs ws => foldl redircmd (EXEC (map fst ws)) (map m_redir (rs ++ concat (map snd ws)))
  | GBlock l rs => foldl redircmd (m_line l) (map m_redir rs)
  end.

(** Sentences the shell can hold: redirection symbols before files, fewer than
    [MAXARGS] words. *)
Definition redir_ok (r : gredir) : Prop := r.1 = TSym LT \/ r.1 = TSym GT \/ r.1 = TApp.
Fixpoint line_ok (l : gline) : Prop :=
  match l with GLast p _ => pipe_ok p | GSeq p _ l => pipe_ok p /\ line_ok l end
with pipe_ok (p : gpipe) : Prop :=
  match p with GOne e => exec_ok e | GPipe e p => exec_ok e /\ pipe_ok p end
with exec_ok (e : gexec) : Prop :=
  match e with
  | GWords rs ws => Forall redir_ok rs /\ Forall (fun w : gword => Forall redir_ok w.2) ws /\ (length ws < MAXARGS)%nat
  | GBlock l rs => line_ok l /\ Forall redir_ok rs
  end.

(** Trees over other words. *)
Definition redir_map {V W} (f : V -> W) (r : redir V) : redir W := Redir (f (r_file r)) (r_mode r) (r_fd r).
Fixpoint cmd_map {V W} (f : V -> W) (c : cmd V) : cmd W :=
  match c with
  | EXEC argv => EXEC (map f argv)
  | REDIR c file mode fd => REDIR (cmd_map f c) (f file) mode fd
  | PIPE l r => PIPE (cmd_map f l) (cmd_map f r)
  | LIST l r => LIST (cmd_map f l) (cmd_map f r)
  | BACK c => BACK (cmd_map f c)
  end.
(** Every word of a tree satisfies [P], and simple commands have fewer than
    [MAXARGS] of them. *)
Fixpoint cmd_all {W} (P : W -> Prop) (c : cmd W) : Prop :=
  match c with
  | EXEC argv => Forall P argv /\ (length argv < MAXARGS)%nat
  | REDIR c file mode fd => cmd_all P c /\ P file /\ (mode = O_RDONLY /\ fd = 0 \/ mode = O_WRONLY ||| O_CREATE /\ fd = 1)
  | PIPE l r | LIST l r => cmd_all P l /\ cmd_all P r
  | BACK c => cmd_all P c
  end.

Lemma cmd_map_redirs {V W} (f : V -> W) rs c : cmd_map f (foldl redircmd c rs) = foldl redircmd (cmd_map f c) (map (redir_map f) rs).
Proof. revert c. induction rs as [|r rs IH]; intros c; [done|]. cbn. by rewrite IH. Qed.
Lemma cmd_map_backs {V W} (f : V -> W) n c : cmd_map f (backs n c) = backs n (cmd_map f c).
Proof. induction n as [|n IH]; [done|]. cbn. by rewrite IH. Qed.

Section line.
Context (buf : list Z) (Hnz : 0 ∉ buf).
Abbreviation es := (length buf).
Definition view (ps : nat) : list token := lex (drop ps buf).
Definition word_in (w : span) : list Z := take (w.2 - w.1) (drop w.1 buf).
(** A maximal run of word characters. *)
Definition span_ok (w : span) : Prop :=
  (w.1 < w.2 <= es)%nat /\ (forall i, (w.1 <= i < w.2)%nat -> wordch (char_at buf i) = true) /\
  (w.2 = es \/ wordch (char_at buf w.2) = false).

Lemma drop_cases ps : (es <= ps)%nat /\ drop ps buf = [] /\ char_at buf ps = 0 \/
  (ps < es)%nat /\ drop ps buf = char_at buf ps :: drop (S ps) buf /\ char_at buf ps <> 0.
Proof.
  unfold char_at. destruct (decide (ps < es)%nat) as [Hlt|Hge].
  - right. destruct (lookup_lt_is_Some_2 buf ps Hlt) as [c Hc]. rewrite (nth_lookup_Some _ _ _ _ Hc). split_and!; [done|by apply drop_S|].
    intros ->. apply Hnz. by eapply list_elem_of_lookup_2.
  - left. split_and!; [lia|apply drop_ge; lia|apply nth_overflow; lia].
Qed.
Lemma skip_le p ps : (ps <= es)%nat -> (ps <= skip buf p ps <= es)%nat.
Proof. intros. unfold skip. pose proof (run_length_le p (drop ps buf)) as H0. rewrite length_drop in H0. lia. Qed.
Lemma skip_stops p ps : p (char_at buf (skip buf p ps)) = false \/ (es <= skip buf p ps)%nat.
Proof.
  destruct (drop_cases (skip buf p ps)) as [(H & _)|(_ & H & _)]; [by right|]. left. unfold skip in H. rewrite <- drop_drop in H. by eapply run_drop.
Qed.
Lemma view_skip ps : view (skip buf (among whitespace) ps) = view ps.
Proof. unfold view, skip. rewrite <- drop_drop. apply lex_skip. Qed.

(** What a line of text starts with, once the blanks are skipped. *)
Lemma lex_head l :
  match l with
  | [] => lex l = []
  | c :: l' =>
      among whitespace c = false ->
      if among symbols c then
        match l' with
        | d :: l'' => lex l = if (c =? GT) && (d =? GT) then TApp :: lex l'' else TSym c :: lex l'
        | [] => lex l = [TSym c]
        end
      else lex l = TWord (take (run_length wordch l) l) :: lex (drop (run_length wordch l) l) /\ run_length wordch l <> O
  end.
Proof.
  destruct l as [|c l']; [done|]. intros Hc. destruct (among symbols c) eqn:Es.
  - destruct l' as [|d l'']; unfold lex; cbn [lex_from]; by rewrite Hc, Es.
  - assert (Hw : run_length wordch (c :: l') <> O) by (cbn; unfold wordch; by rewrite Hc, Es).
    split; [|done]. unfold lex at 1. by rewrite (lex_word [] (c :: l')) by by right.
Qed.

Lemma blank_skipped ps : among whitespace (char_at buf (skip buf (among whitespace) ps)) = false.
Proof.
  destruct (skip_stops (among whitespace) ps) as [H|H]; [done|]. unfold char_at. by rewrite nth_overflow.
Qed.

Lemma peek_spec toks ps : (forall c, among toks c = true -> among symbols c = true) -> (ps <= es)%nat ->
  exists ps', peek buf toks ps = Done (starts toks (view ps)) ps' /\ view ps' = view ps /\ (ps <= ps' <= es)%nat.
Proof.
  intros Hsub Hps. exists (skip buf (among whitespace) ps). split_and!; [|apply view_skip|apply skip_le; done..].
  unfold peek. rewrite <- (view_skip ps). pose proof (blank_skipped ps) as Hb. set (s := skip _ _ _) in *. f_equal.
  unfold view. pose proof (lex_head (drop s buf)) as Hh. destruct (drop_cases s) as [(_ & -> & ->)|(_ & Hd & Hnz0)]; [done|].
  rewrite Hd in *. set (c := char_at buf s) in *. specialize (Hh Hb). assert (Ht : truth c = true) by (unfold truth; apply negb_true_iff; by apply Z.eqb_neq).
  rewrite Ht. cbn [andb]. destruct (among symbols c) eqn:Es.
  - destruct (drop (S s) buf) as [|d l'']; rewrite Hh; [done|]. destruct ((c =? GT) && (d =? GT)) eqn:Eg; [|done].
    apply andb_true_iff in Eg as [Eg%Z.eqb_eq _]. cbn. by rewrite Eg.
  - destruct Hh as [-> _]. cbn. destruct (among toks c) eqn:Et; [|done]. apply Hsub in Et. congruence.
Qed.

Lemma symbol_cases c : among symbols c = true -> c <> 0 /\ bool_decide (c ∈ [BAR; LPAR; RPAR; SEMI; AMP; LT]) = negb (c =? GT).
Proof.
  rewrite among_true. unfold symbols. intros Hc. repeat (apply elem_of_cons in Hc as [->|Hc]; [by split; [|vm_compute]|]). by apply not_elem_of_nil in Hc.
Qed.
Lemma word_cases c : c <> 0 -> among symbols c = false ->
  bool_decide (c ∈ [BAR; LPAR; RPAR; SEMI; AMP; LT]) = false /\ (c =? GT) = false.
Proof.
  intros Hz Hc. assert (Hn : c ∉ symbols) by (intros H; apply among_true in H; congruence). unfold symbols in Hn. rewrite !not_elem_of_cons in Hn.
  split; [apply bool_decide_false; unfold BAR, LPAR, RPAR, SEMI, AMP, LT; set_solver|apply Z.eqb_neq; unfold GT; naive_solver].
Qed.

(** What the span of a token is. *)
Definition token_span (t : token) (w : span) : Prop :=
  match t with TWord l => word_in w = l /\ span_ok w | TSym c => among symbols c = true | TApp => True end.

Lemma gettoken_spec ps : (ps <= es)%nat ->
  match view ps with
  | [] => exists ps' w, gettoken buf ps = Done (0, w) ps' /\ view ps' = [] /\ (ps <= ps' <= es)%nat
  | t :: ts => exists ps' w, gettoken buf ps = Done (code t, w) ps' /\ view ps' = ts /\ (ps < ps' <= es)%nat /\ token_span t w
  end.
Proof.
  intros Hps. rewrite <- (view_skip ps). pose proof (blank_skipped ps) as Hb. pose proof (skip_le (among whitespace) ps Hps) as Hs.
  unfold gettoken. set (s := skip _ _ _) in *. cbv zeta. unfold view at 1. pose proof (lex_head (drop s buf)) as Hh.
  destruct (drop_cases s) as [(Hge & Hd & ->)|(Hlt & Hd & Hz)].
  - rewrite Hd in *. rewrite Hh. change (0 =? 0) with true. cbv iota beta. eexists _, _. split; [reflexivity|].
    rewrite view_skip. unfold view. rewrite Hd, Hh. split; [done|]. pose proof (skip_le (among whitespace) s ltac:(lia)). lia.
  - rewrite Hd in *. set (c := char_at buf s) in *. specialize (Hh Hb). rewrite (proj2 (Z.eqb_neq c 0)) by done.
    destruct (among symbols c) eqn:Es.
    + destruct (symbol_cases c Es) as [_ Hsc]. rewrite Hsc.
      assert (Hone : forall eq, (s < eq <= es)%nat -> (ps < skip buf (among whitespace) eq <= es)%nat) by (intros eq0 He; pose proof (skip_le (among whitespace) eq0 ltac:(lia)); lia).
      destruct (Z.eqb_spec c GT) as [Eg|Eg]; cbn [negb].
      * destruct (drop_cases (S s)) as [(Hge & Hd2 & Hc2)|(Hlt2 & Hd2 & Hz2)]; rewrite Hd2 in Hh |- *.
        -- rewrite Hh, Hc2. change (0 =? GT) with false. cbv iota beta. exists (skip buf (among whitespace) (S s)), (s, S s). split; [cbn; by rewrite Eg|].
           rewrite view_skip. unfold view. rewrite Hd2. split; [done|]. split; [apply Hone; lia|]. cbn. done.
        -- rewrite Hh. rewrite ?(proj2 (Z.eqb_eq c GT) Eg). cbn [andb]. destruct (char_at buf (S s) =? GT) eqn:E2.
           ++ cbv iota beta. eexists _, _. split; [reflexivity|]. rewrite view_skip. split; [done|]. split; [apply Hone; lia|done].
           ++ cbv iota beta. exists (skip buf (among whitespace) (S s)), (s, S s). split; [cbn; by rewrite Eg|]. rewrite view_skip. unfold view. rewrite Hd2. split; [done|]. split; [apply Hone; lia|done].
      * cbv iota beta. assert (Hlex : lex (c :: drop (S s) buf) = TSym c :: lex (drop (S s) buf)).
        { destruct (drop (S s) buf) as [|d l'']; [done|]. rewrite Hh. done. }
        rewrite Hlex. eexists _, _. split; [reflexivity|]. rewrite view_skip. split; [done|]. split; [apply Hone; lia|done].
    + destruct Hh as [Hh Hrl]. destruct (word_cases c Hz Es) as [-> ->]. cbv iota beta. rewrite Hh.
      set (eq := skip buf (fun c => negb (among whitespace c) && negb (among symbols c)) s).
      assert (Heq : eq = (s + run_length wordch (c :: drop (S s) buf))%nat) by (rewrite <- Hd; done).
      assert (Hle : (s < eq <= es)%nat) by (pose proof (skip_le (fun c => negb (among whitespace c) && negb (among symbols c)) s ltac:(lia)); lia).
      eexists _, _. split; [reflexivity|]. rewrite view_skip. split; [unfold view; by rewrite Heq, <- drop_drop, Hd|].
      pose proof (skip_le (among whitespace) eq ltac:(lia)). split; [lia|].
      cbn [token_span]. split; [unfold word_in; cbn [fst snd]; rewrite Hd, Heq; f_equal; lia|].
      split; [done|]. cbn [fst snd]. split.
      * intros i Hi. assert (Hl : take (run_length wordch (drop s buf)) (drop s buf) !! (i - s)%nat = Some (char_at buf i)).
        { rewrite lookup_take_lt by (rewrite Hd; lia). rewrite lookup_drop. replace (s + (i - s))%nat with i by lia.
          destruct (lookup_lt_is_Some_2 buf i ltac:(lia)) as [x Hx]. unfold char_at. by rewrite Hx, (nth_lookup_Some _ _ _ _ Hx). }
        by apply run_take in Hl.
      * destruct (skip_stops (fun c => negb (among whitespace c) && negb (among symbols c)) s) as [H1|H1]; [by right|left; unfold eq in *; lia].
Qed.

(** ** Every run ends, with a sentence of the grammar or an error *)
Definition errors : list string := ["missing file for redirection"; "syntax"; "too many args"; "syntax - missing )"].
Definition runs {A} (m : M nat A) (Q : A -> nat -> Prop) (ps : nat) : Prop :=
  match m ps with Done a ps' => Q a ps' | Panic msg => msg ∈ errors | _ => False end.
Lemma runs_bind {A B} (m : M nat A) (k : A -> M nat B) Q ps : runs m (fun a ps' => runs (k a) Q ps') ps -> runs (m ≫= k) Q ps.
Proof. unfold runs, mbind, M_bind. by destruct (m ps). Qed.
Lemma runs_mono {A} (m : M nat A) (Q Q' : A -> nat -> Prop) ps : runs m Q ps -> (forall a ps', Q a ps' -> Q' a ps') -> runs m Q' ps.
Proof. unfold runs. destruct (m ps); naive_solver. Qed.
Lemma runs_panic {A} msg (Q : A -> nat -> Prop) ps : msg ∈ errors -> runs (panic msg) Q ps.
Proof. done. Qed.

Lemma runs_peek toks ps (Q : bool -> nat -> Prop) : (forall c, among toks c = true -> among symbols c = true) -> (ps <= es)%nat ->
  (forall ps', view ps' = view ps -> (ps <= ps' <= es)%nat -> Q (starts toks (view ps)) ps') -> runs (peek buf toks) Q ps.
Proof. intros Ht Hps HQ. destruct (peek_spec toks ps Ht Hps) as (ps' & E & Hv & Hr). unfold runs. rewrite E. by apply HQ. Qed.
Lemma runs_token ps (Q : Z * span -> nat -> Prop) : (ps <= es)%nat ->
  (view ps = [] -> forall ps' w, view ps' = [] -> (ps <= ps' <= es)%nat -> Q (0, w) ps') ->
  (forall t ts, view ps = t :: ts -> forall ps' w, view ps' = ts -> (ps < ps' <= es)%nat -> token_span t w -> Q (code t, w) ps') ->
  runs (gettoken buf) Q ps.
Proof.
  intros Hps H0 H1. pose proof (gettoken_spec ps Hps) as H. unfold runs. destruct (view ps) as [|t ts].
  - destruct H as (ps' & w & -> & Hv & Hr). by apply H0.
  - destruct H as (ps' & w & -> & Hv & Hr & Ht). by eapply H1.
Qed.

(** Codes tell the tokens apart; a symbol of a line is one of the seven. *)
Definition view_ok (ts : list token) : Prop := Forall (fun t => match t with TSym c => among symbols c = true | _ => True end) ts.
Lemma lex_ok l : view_ok (lex l).
Proof.
  unfold lex. enough (H : forall n l w, (length l <= n)%nat -> view_ok (lex_from w l)) by (apply (H (length l)); lia).
  clear. assert (Hfl : forall w ts, view_ok ts -> view_ok (end_word w ts)) by (intros [|? ?] ts ?; [done|by constructor]).
  induction n as [|n IH]; intros l w Hl; (destruct l as [|c l]; [apply Hfl; constructor|]); cbn [length] in Hl; [lia|].
  cbn [lex_from]. destruct (among whitespace c); [apply Hfl, IH; lia|]. destruct (among symbols c) eqn:E; [|apply IH; lia].
  apply Hfl. destruct l as [|d l]; [by repeat constructor|]. cbn [length] in Hl.
  destruct (_ && _); constructor; try done; apply IH; cbn [length]; lia.
Qed.
Lemma view_view ps : view_ok (view ps).
Proof. apply lex_ok. Qed.
Lemma view_tail t ts ps : view ps = t :: ts -> match t with TSym c => among symbols c = true | _ => True end.
Proof. intros E. pose proof (view_view ps) as H. rewrite E in H. by inversion H. Qed.
Lemma code_word t : match t with TSym c => among symbols c = true | _ => True end -> (code t =? 97) = true -> exists l, t = TWord l.
Proof.
  destruct t as [l|c|]; cbn; [by exists l| |done]. intros Hs E%Z.eqb_eq. subst c. done.
Qed.
Lemma sub_symbols toks : forallb (among symbols) toks = true -> forall c, among toks c = true -> among symbols c = true.
Proof. intros H c Hc. rewrite forallb_forall in H. apply H. by apply list_elem_of_In, among_true. Qed.

Lemma starts_one c ts ps : view ps = ts -> starts [c] ts = true -> c <> GT -> exists ts', ts = TSym c :: ts'.
Proof.
  intros _ Hs Hc. destruct ts as [|[w|d|] ts]; try done; cbn in Hs; apply among_true, list_elem_of_singleton in Hs; [subst; by exists ts|congruence].
Qed.

Lemma t_redirs_cons r rs : t_redirs (r :: rs) = r.1 :: TWord r.2 :: t_redirs rs.
Proof. done. Qed.

Lemma redirs_run n ps : (ps <= es)%nat -> (length (view ps) < n)%nat ->
  runs (parseredirs buf n) (fun rs ps' => exists gs, view ps = t_redirs gs ++ view ps' /\ Forall redir_ok gs /\
    map (redir_map word_in) rs = map m_redir gs /\ Forall (fun r => span_ok (r_file r)) rs /\
    starts [LT; GT] (view ps') = false /\ (ps <= ps' <= es)%nat) ps.
Proof.
  revert ps. induction n as [|n IH]; intros ps Hps Hn; [lia|]. cbn [parseredirs]. apply runs_bind, runs_peek; [by apply sub_symbols|done|].
  intros ps1 Hv1 Hr1. destruct (starts [LT; GT] (view ps)) eqn:Es; cbn [negb].
  2:{ unfold runs, mret, M_ret. exists []. rewrite Hv1, Es. split_and!; try done; lia. }
  apply runs_bind, runs_token; [lia| |].
  { intros E. rewrite Hv1 in E. by rewrite E in Es. }
  intros t ts Et ps2 w2 Hv2 Hr2 Hw2. rewrite Hv1 in Et. rewrite Et in Es, Hn. cbn [length] in Hn.
  assert (Ht : t = TSym LT \/ t = TSym GT \/ t = TApp).
  { destruct t as [w|c|]; [done| |naive_solver]. cbn in Es. apply among_true in Es. set_solver. }
  apply runs_bind, runs_token; [lia| |].
  { intros _ ps3 w3 _ _. cbn [fst]. change (0 !=? 97) with true. cbv iota. apply runs_panic. vm_compute. set_solver. }
  intros t3 ts3 E3 ps3 w3 Hv3 Hr3 Hw3. cbn [fst snd]. destruct (code t3 =? 97) eqn:E97; cbn [negb]; [|apply runs_panic; vm_compute; set_solver].
  apply code_word in E97 as [l ->]; [|by eapply view_tail]. cbn [token_span] in Hw3. destruct Hw3 as [Hwl Hok].
  assert (ts = TWord l :: ts3) as -> by congruence. cbn [length] in Hn. apply runs_bind. eapply runs_mono; [apply IH; [lia|rewrite Hv3; lia]|].
  intros rs ps4 (gs & Hg & Hgok & Hmap & Hsp & Hst & Hr4). unfold runs, mret, M_ret. exists ((t, l) :: gs).
  assert (Hview : view ps = t_redirs ((t, l) :: gs) ++ view ps4) by (rewrite t_redirs_cons; cbn [fst snd app]; congruence).
  assert (Hm : redir_map word_in (if code t =? LT then Redir w3 O_RDONLY 0 else Redir w3 (O_WRONLY ||| O_CREATE) 1) = m_redir (t, l)).
  { unfold m_redir. cbn [fst snd]. destruct (code t =? LT); unfold redir_map; cbn; by rewrite Hwl. }
  destruct Ht as [-> | [-> | ->]]; cbn in Hm |- *; (split_and!; [done|constructor; [unfold redir_ok; naive_solver|done]|by rewrite Hm, Hmap|by constructor|done|lia|lia]).
Qed.

Lemma words_run n argc ps : (ps <= es)%nat -> (length (view ps) < n)%nat -> (argc < MAXARGS)%nat ->
  runs (parsewords buf n argc) (fun r ps' => exists ws, view ps = t_words ws ++ view ps' /\
    Forall (fun w : gword => Forall redir_ok w.2) ws /\ map word_in r.1 = map fst ws /\
    map (redir_map word_in) r.2 = map m_redir (concat (map snd ws)) /\
    Forall span_ok r.1 /\ Forall (fun r => span_ok (r_file r)) r.2 /\ (argc + length ws < MAXARGS)%nat /\ (ps <= ps' <= es)%nat) ps.
Proof.
  revert argc ps. induction n as [|n IH]; intros argc ps Hps Hn Ha; [lia|]. cbn [parsewords].
  assert (Hnil : forall ps', view ps' = view ps -> (ps <= ps' <= es)%nat ->
    runs (mret ([], []) : M nat (list span * list (redir span))) (fun r ps' => exists ws, view ps = t_words ws ++ view ps' /\
    Forall (fun w : gword => Forall redir_ok w.2) ws /\ map word_in r.1 = map fst ws /\
    map (redir_map word_in) r.2 = map m_redir (concat (map snd ws)) /\
    Forall span_ok r.1 /\ Forall (fun r => span_ok (r_file r)) r.2 /\ (argc + length ws < MAXARGS)%nat /\ (ps <= ps' <= es)%nat) ps').
  { intros ps' Hv Hr. unfold runs, mret, M_ret. exists []. cbn [fst snd length]. split_and!; try done; try lia. }
  apply runs_bind, runs_peek; [by apply sub_symbols|done|]. intros ps1 Hv1 Hr1.
  destruct (starts _ (view ps)) eqn:Es; [by apply Hnil|].
  apply runs_bind, runs_token; [lia| |].
  { intros E ps2 w2 Hv2 Hr2. cbn [fst]. change (0 =? 0) with true. cbv iota. apply Hnil; [congruence|lia]. }
  intros t ts Et ps2 w2 Hv2 Hr2 Hw2. cbn [fst snd]. rewrite Hv1 in Et.
  assert (Hc0 : (code t =? 0) = false).
  { apply Z.eqb_neq. pose proof (view_tail _ _ _ Et) as Hs. destruct t as [w|c|]; cbn; [done| |done]. by apply symbol_cases in Hs as [? _]. }
  rewrite Hc0. destruct (code t =? 97) eqn:E97; cbn [negb]; [|apply runs_panic; vm_compute; set_solver].
  apply code_word in E97 as [l ->]; [|by eapply view_tail]. destruct Hw2 as [Hwl Hok].
  destruct (Nat.leb_spec MAXARGS (S argc)); [apply runs_panic; vm_compute; set_solver|].
  rewrite Et in Hn. cbn [length] in Hn. apply runs_bind. pose proof (lex_length (drop ps2 buf)) as Hlen. fold (view ps2) in Hlen. rewrite length_drop in Hlen.
  eapply runs_mono; [apply redirs_run; lia|]. intros rs ps3 (gs & Hg & Hgok & Hmap & Hsp & _ & Hr3).
  assert (Hlen3 : (length (view ps3) <= length (view ps2))%nat) by (rewrite Hg, length_app; lia).
  apply runs_bind. eapply runs_mono; [apply (IH (S argc) ps3); [lia|rewrite Hv2 in Hlen3; lia|lia]|].
  intros r ps4 (ws & Hws & Hwok & Hm1 & Hm2 & Hs1 & Hs2 & Hargc & Hr4). unfold runs, mret, M_ret. exists ((l, gs) :: ws). cbn [fst snd].
  assert (Hview : view ps = t_words ((l, gs) :: ws) ++ view ps4).
  { rewrite Et. unfold t_words. cbn [map concat fst snd app]. fold (t_words ws). rewrite <- app_assoc, <- Hws, <- Hg. by rewrite Hv2. }
  split_and!; [done|by constructor|cbn; by rewrite Hwl, Hm1|cbn [map concat snd]; by rewrite !map_app, Hmap, Hm2|by constructor|by apply Forall_app|cbn [length]; lia|lia|lia].
Qed.

Lemma backs_succ {W} k (c : cmd W) : backs k (BACK c) = BACK (backs k c).
Proof. induction k as [|k IH]; [done|]. cbn. by rewrite IH. Qed.
Lemma backs_run n c ps : (ps <= es)%nat -> (length (view ps) < n)%nat ->
  runs (parsebacks buf n c) (fun c' ps' => exists k, view ps = replicate k (TSym AMP) ++ view ps' /\ c' = backs k c /\
    starts [AMP] (view ps') = false /\ (ps <= ps' <= es)%nat) ps.
Proof.
  revert c ps. induction n as [|n IH]; intros c ps Hps Hn; [lia|]. cbn [parsebacks].
  apply runs_bind, runs_peek; [by apply sub_symbols|done|]. intros ps1 Hv1 Hr1. destruct (starts [AMP] (view ps)) eqn:Es.
  2:{ unfold runs, mret, M_ret. exists O. rewrite Hv1. split_and!; try done; lia. }
  destruct (starts_one AMP (view ps) ps eq_refl Es ltac:(done)) as [ts' Ets].
  apply runs_bind, runs_token; [lia|congruence|]. intros t ts Et ps2 w2 Hv2 Hr2 _.
  assert (t = TSym AMP /\ ts = ts') as [-> ->] by (split; congruence). rewrite Ets in Hn. cbn [length] in Hn.
  eapply runs_mono; [apply (IH (BACK c) ps2); [lia|rewrite Hv2; lia]|]. intros c' ps3 (k & Hk & -> & Hst & Hr3).
  exists (S k). cbn [replicate app backs]. rewrite backs_succ. split_and!; [congruence|done|done|lia|lia].
Qed.

Definition line_post (ps : nat) (c : cmd span) (ps' : nat) : Prop := exists l,
  view ps = t_line l ++ view ps' /\ line_ok l /\ cmd_map word_in c = m_line l /\ cmd_all span_ok c /\ (ps <= ps' <= es)%nat.
Definition pipe_post (ps : nat) (c : cmd span) (ps' : nat) : Prop := exists p,
  view ps = t_pipe p ++ view ps' /\ pipe_ok p /\ cmd_map word_in c = m_pipe p /\ cmd_all span_ok c /\ (ps <= ps' <= es)%nat.
Definition exec_post (ps : nat) (c : cmd span) (ps' : nat) : Prop := exists e,
  view ps = t_exec e ++ view ps' /\ exec_ok e /\ cmd_map word_in c = m_exec e /\ cmd_all span_ok c /\ (ps <= ps' <= es)%nat.

Lemma cmd_all_redirs (c : cmd span) rs gs : cmd_all span_ok c -> Forall (fun r => span_ok (r_file r)) rs ->
  map (redir_map word_in) rs = map m_redir gs -> cmd_all span_ok (foldl redircmd c rs).
Proof.
  intros Hc Hrs. revert c gs Hc. induction Hrs as [|r rs Hr Hrs IH]; intros c [|g gs] Hc Hm; cbn [map foldl] in *; try done.
  injection Hm as Hg Hm. apply (IH _ gs); [|done]. cbn. split_and!; [done|done|].
  destruct r as [f md fd]. unfold redir_map, m_redir in Hg. cbn in Hg |- *. destruct (code g.1 =? LT); injection Hg as _ -> ->; naive_solver.
Qed.
Lemma cmd_all_backs (c : cmd span) k : cmd_all span_ok c -> cmd_all span_ok (backs k c).
Proof. induction k; cbn; auto. Qed.

Lemma view_length ps : (length (view ps) <= es - ps)%nat.
Proof. pose proof (lex_length (drop ps buf)) as H. by rewrite length_drop in H. Qed.

(** Fuel: three calls lie between two tokens at most. *)
Lemma parsers_run n :
  (forall ps, (ps <= es)%nat -> (4 * length (view ps) + 4 <= n)%nat -> runs (parseline buf n) (line_post ps) ps) /\
  (forall ps, (ps <= es)%nat -> (4 * length (view ps) + 3 <= n)%nat -> runs (parsepipe buf n) (pipe_post ps) ps) /\
  (forall ps, (ps <= es)%nat -> (4 * length (view ps) + 2 <= n)%nat -> runs (parseexec buf n) (exec_post ps) ps) /\
  (forall ps, (ps <= es)%nat -> starts [LPAR] (view ps) = true -> (4 * length (view ps) + 1 <= n)%nat -> runs (parseblock buf n) (exec_post ps) ps).
Proof.
  induction n as [|n (IHl & IHp & IHe & IHb)]; [split_and!; intros; lia|]. split_and!; intros ps Hps.
  - intros Hn. cbn [parseline]. apply runs_bind. eapply runs_mono; [apply IHp; [done|lia]|].
    intros c ps1 (p & Hp & Hpok & Hpm & Hpa & Hr1). apply runs_bind. pose proof (view_length ps1).
    eapply runs_mono; [apply backs_run; lia|]. intros c2 ps2 (k & Hk & -> & _ & Hr2).
    assert (Hm : cmd_map word_in (backs k c) = backs k (m_pipe p)) by (by rewrite cmd_map_backs, Hpm).
    apply runs_bind, runs_peek; [by apply sub_symbols|lia|]. intros ps3 Hv3 Hr3. destruct (starts [SEMI] (view ps2)) eqn:Es.
    + destruct (starts_one SEMI (view ps2) ps2 eq_refl Es ltac:(done)) as [ts' Ets].
      apply runs_bind, runs_token; [lia|congruence|]. intros t ts Et ps4 w4 Hv4 Hr4 _.
      assert (t = TSym SEMI /\ ts = ts') as [-> ->] by (split; congruence).
      assert (Hl : (length (view ps) >= S (length ts'))%nat) by (rewrite Hp, Hk, Ets, !length_app; cbn [length]; lia).
      apply runs_bind. eapply runs_mono; [apply IHl; [lia|rewrite Hv4; lia]|]. intros c5 ps5 (l & Hl5 & Hlok & Hlm & Hla & Hr5).
      unfold runs, mret, M_ret. exists (GSeq p k l). cbn [t_line line_ok m_line cmd_map cmd_all]. split_and!; try done; try lia.
      * rewrite <- !app_assoc. cbn [app]. rewrite <- Hl5, Hv4, <- Ets, <- Hk. done.
      * by rewrite Hm, Hlm.
      * by apply cmd_all_backs.
    + unfold runs, mret, M_ret. exists (GLast p k). cbn [t_line line_ok m_line]. split_and!; try done; try lia.
      * by rewrite <- app_assoc, Hv3, <- Hk.
      * by apply cmd_all_backs.
  - intros Hn. cbn [parsepipe]. apply runs_bind. eapply runs_mono; [apply IHe; [done|lia]|].
    intros c ps1 (e & He & Heok & Hem & Hea & Hr1). apply runs_bind, runs_peek; [by apply sub_symbols|lia|].
    intros ps3 Hv3 Hr3. destruct (starts [BAR] (view ps1)) eqn:Es.
    + destruct (starts_one BAR (view ps1) ps1 eq_refl Es ltac:(done)) as [ts' Ets].
      apply runs_bind, runs_token; [lia|congruence|]. intros t ts Et ps4 w4 Hv4 Hr4 _.
      assert (t = TSym BAR /\ ts = ts') as [-> ->] by (split; congruence).
      assert (Hl : (length (view ps) >= S (length ts'))%nat) by (rewrite He, Ets, !length_app; cbn [length]; lia).
      apply runs_bind. eapply runs_mono; [apply IHp; [lia|rewrite Hv4; lia]|]. intros c5 ps5 (p & Hl5 & Hlok & Hlm & Hla & Hr5).
      unfold runs, mret, M_ret. exists (GPipe e p). cbn [t_pipe pipe_ok m_pipe cmd_map cmd_all]. split_and!; try done; try lia.
      * rewrite <- !app_assoc. cbn [app]. rewrite <- Hl5, Hv4, <- Ets. done.
      * by rewrite Hem, Hlm.
    + unfold runs, mret, M_ret. exists (GOne e). cbn [t_pipe pipe_ok m_pipe]. rewrite Hv3. by split_and!; try lia.
  - intros Hn. cbn [parseexec]. apply runs_bind, runs_peek; [by apply sub_symbols|lia|]. intros ps1 Hv1 Hr1.
    destruct (starts [LPAR] (view ps)) eqn:Es.
    { eapply runs_mono; [apply IHb; [lia|by rewrite Hv1|rewrite Hv1; lia]|]. intros c ps2 (e & He & Heok & Hem & Hea & Hr2).
      exists e. rewrite <- Hv1. split_and!; try done; lia. }
    pose proof (view_length ps1). apply runs_bind. eapply runs_mono; [apply redirs_run; lia|].
    intros rs ps2 (gs & Hg & Hgok & Hmap & Hsp & _ & Hr2). pose proof (view_length ps2).
    apply runs_bind. eapply runs_mono; [apply (words_run _ 0); [lia|lia|unfold MAXARGS; lia]|].
    intros r ps3 (ws & Hws & Hwok & Hm1 & Hm2 & Hs1 & Hs2 & Hargc & Hr3). unfold runs, mret, M_ret. exists (GWords gs ws).
    cbn [t_exec exec_ok m_exec]. assert (Hm12 : map (redir_map word_in) (rs ++ r.2) = map m_redir (gs ++ concat (map snd ws))) by (by rewrite !map_app, Hmap, Hm2).
    split_and!; try done; try lia.
    + by rewrite <- app_assoc, <- Hws, <- Hg.
    + rewrite cmd_map_redirs. cbn [cmd_map]. by rewrite Hm1, Hm12.
    + eapply cmd_all_redirs; [|by apply Forall_app|exact Hm12]. cbn. split; [done|].
      apply (f_equal length) in Hm1. rewrite !length_map in Hm1. rewrite Hm1. done.
  - intros Hst Hn. cbn [parseblock]. apply runs_bind, runs_peek; [by apply sub_symbols|lia|]. intros ps1 Hv1 Hr1. rewrite Hst. cbn [negb].
    destruct (starts_one LPAR (view ps) ps eq_refl Hst ltac:(done)) as [ts' Ets].
    apply runs_bind, runs_token; [lia|congruence|]. intros t ts Et ps2 w2 Hv2 Hr2 _.
    assert (t = TSym LPAR /\ ts = ts') as [-> ->] by (split; congruence). rewrite Ets in Hn. cbn [length] in Hn.
    apply runs_bind. eapply runs_mono; [apply IHl; [lia|rewrite Hv2; lia]|]. intros c ps3 (l & Hl & Hlok & Hlm & Hla & Hr3).
    apply runs_bind, runs_peek; [by apply sub_symbols|lia|]. intros ps4 Hv4 Hr4.
    destruct (starts [RPAR] (view ps3)) eqn:Es; cbn [negb]; [|apply runs_panic; vm_compute; set_solver].
    destruct (starts_one RPAR (view ps3) ps3 eq_refl Es ltac:(done)) as [ts5 Ets5].
    apply runs_bind, runs_token; [lia|congruence|]. intros t6 ts6 Et6 ps6 w6 Hv6 Hr6 _.
    assert (t6 = TSym RPAR /\ ts6 = ts5) as [-> ->] by (split; congruence). pose proof (view_length ps6).
    apply runs_bind. eapply runs_mono; [apply redirs_run; lia|]. intros rs ps7 (gs & Hg & Hgok & Hmap & Hsp & _ & Hr7).
    unfold runs, mret, M_ret. exists (GBlock l gs). cbn [t_exec exec_ok m_exec]. split_and!; try done; try lia.
    + rewrite Ets. cbn [app]. f_equal. rewrite <- Hv2, Hl, Ets5, <- app_assoc. cbn [app]. do 2 f_equal. by rewrite <- Hv6, Hg.
    + by rewrite cmd_map_redirs, Hlm, Hmap.
    + by eapply cmd_all_redirs.
Qed.

(** ** Every sentence is accepted, with its tree *)
Lemma wp_peek toks ps (Q : bool -> nat -> Prop) : forallb (among symbols) toks = true -> (ps <= es)%nat ->
  (forall ps', view ps' = view ps -> (ps <= ps' <= es)%nat -> Q (starts toks (view ps)) ps') -> wp (peek buf toks) Q ps.
Proof. intros Ht Hps HQ. destruct (peek_spec toks ps (sub_symbols _ Ht) Hps) as (ps' & E & Hv & Hr). unfold wp. rewrite E. by apply HQ. Qed.
Lemma wp_token t ts ps (Q : Z * span -> nat -> Prop) : (ps <= es)%nat -> view ps = t :: ts ->
  (forall ps' w, view ps' = ts -> (ps < ps' <= es)%nat -> token_span t w -> Q (code t, w) ps') -> wp (gettoken buf) Q ps.
Proof.
  intros Hps Hv HQ. pose proof (gettoken_spec ps Hps) as H. rewrite Hv in H. destruct H as (ps' & w & E & Hv' & Hr & Ht).
  unfold wp. rewrite E. by apply HQ.
Qed.

(** What may come after a phrase: the end, or one of some symbols. *)
Definition Follow (toks : list Z) (ts : list token) : Prop := ts = [] \/ exists c ts', ts = TSym c :: ts' /\ c ∈ toks.
Lemma follow_starts toks toks' ts : Follow toks ts -> forallb (fun c => negb (among toks' c)) toks = true -> starts toks' ts = false.
Proof.
  intros [->|(c & ts' & -> & Hc)] H; [done|]. cbn. rewrite forallb_forall in H. apply negb_true_iff, H. by apply list_elem_of_In.
Qed.
Lemma follow_weaken toks toks' ts : Follow toks ts -> forallb (among toks') toks = true -> Follow toks' ts.
Proof.
  intros [->|(c & ts' & -> & Hc)] H; [by left|right]. exists c, ts'. split; [done|]. rewrite forallb_forall in H.
  apply among_true, H. by apply list_elem_of_In.
Qed.

Lemma redirs_parse gs rest n ps : (ps <= es)%nat -> view ps = t_redirs gs ++ rest -> Forall redir_ok gs ->
  starts [LT; GT] rest = false -> (length (view ps) < n)%nat ->
  wp (parseredirs buf n) (fun rs ps' => view ps' = rest /\ map (redir_map word_in) rs = map m_redir gs /\ (ps <= ps' <= es)%nat) ps.
Proof.
  revert n ps. induction gs as [|[k l] gs IH]; intros n ps Hps Hv Hok Hst Hn; (destruct n as [|n]; [lia|]); cbn [parseredirs];
    apply wp_bind, wp_peek; [done|done| |done|done|]; intros ps1 Hv1 Hr1.
  - cbn in Hv. rewrite Hv, Hst. cbn [negb]. apply wp_ret. split_and!; [congruence|done|lia|lia].
  - apply Forall_cons in Hok as [Hk Hok]. rewrite t_redirs_cons in Hv. cbn [fst snd app] in Hv. unfold redir_ok in Hk. cbn [fst] in Hk.
    assert (Hs : starts [LT; GT] (view ps) = true) by (rewrite Hv; by destruct Hk as [-> | [-> | ->]]). rewrite Hs. cbn [negb].
    apply wp_bind. eapply wp_token; [lia|by rewrite Hv1|]. intros ps2 w2 Hv2 Hr2 _.
    apply wp_bind. eapply wp_token; [lia|exact Hv2|]. intros ps3 w3 Hv3 Hr3 [Hw3 _]. cbn [fst snd code]. change (97 !=? 97) with false. cbv iota.
    apply wp_bind. eapply wp_mono; [apply (IH n ps3); [lia|done|done|done|rewrite Hv in Hn; cbn [length] in Hn; rewrite Hv3; lia]|].
    intros rs ps4 (Hv4 & Hm & Hr4). apply wp_ret.
    destruct Hk as [-> | [-> | ->]]; cbn [code map]; (split_and!; [done| |lia|lia]); cbn; rewrite Hm; unfold redir_map, m_redir; cbn; by rewrite Hw3.
Qed.

Lemma words_head ws rest toks toks' : Follow toks rest -> forallb (fun c => negb (among toks' c)) toks = true -> starts toks' (t_words ws ++ rest) = false.
Proof. intros Hf Ht. destruct ws as [|[l gs] ws]; [by eapply follow_starts|done]. Qed.

Lemma words_parse ws rest n argc ps : (ps <= es)%nat -> view ps = t_words ws ++ rest ->
  Forall (fun w : gword => Forall redir_ok w.2) ws -> Follow [BAR; RPAR; AMP; SEMI] rest -> (argc + length ws < MAXARGS)%nat ->
  (length (view ps) < n)%nat ->
  wp (parsewords buf n argc) (fun r ps' => view ps' = rest /\ map word_in r.1 = map fst ws /\
    map (redir_map word_in) r.2 = map m_redir (concat (map snd ws)) /\ (ps <= ps' <= es)%nat) ps.
Proof.
  revert n argc ps. induction ws as [|[l gs] ws IH]; intros n argc ps Hps Hv Hok Hf Ha Hn; (destruct n as [|n]; [lia|]); cbn [parsewords];
    apply wp_bind, wp_peek; [done|done| |done|done|]; intros ps1 Hv1 Hr1.
  - cbn in Hv. rewrite Hv. destruct Hf as [->|(c & ts' & -> & Hc)].
    + cbn [starts]. apply wp_bind. unfold wp at 1. pose proof (gettoken_spec ps1 ltac:(lia)) as Ht. rewrite Hv1, Hv in Ht.
      destruct Ht as (ps2 & w2 & -> & Hv2 & Hr2). cbn [fst]. change (0 =? 0) with true. cbv iota. apply wp_ret. split_and!; [done|done|done|lia|lia].
    + cbn [starts]. rewrite (proj2 (among_true _ _) Hc). apply wp_ret. split_and!; [congruence|done|done|lia|lia].
  - apply Forall_cons in Hok as [Hgs Hok]. unfold t_words in Hv. cbn [map concat fst snd app] in Hv. fold (t_words ws) in Hv. rewrite <- app_assoc in Hv.
    rewrite Hv. cbn [starts]. apply wp_bind. eapply wp_token; [lia|by rewrite Hv1, Hv|]. intros ps2 w2 Hv2 Hr2 [Hw2 _].
    cbn [fst snd code]. change (97 =? 0) with false. change (97 !=? 97) with false. cbv iota. cbn [length] in Ha.
    destruct (Nat.leb_spec MAXARGS (S argc)); [lia|]. apply wp_bind. pose proof (view_length ps2).
    eapply wp_mono; [apply (redirs_parse gs (t_words ws ++ rest)); [lia|exact Hv2|done|by eapply words_head|lia]|].
    intros rs ps3 (Hv3 & Hm3 & Hr3). apply wp_bind.
    assert (Hlen : (length (view ps3) < n)%nat).
    { rewrite Hv in Hn. cbn [length] in Hn. rewrite length_app in Hn. rewrite Hv3. lia. }
    eapply wp_mono; [apply (IH n (S argc) ps3); [lia|done|done|done|lia|done]|].
    intros r ps4 (Hv4 & Hm1 & Hm2 & Hr4). apply wp_ret. cbn [fst snd map concat]. split_and!; [done|by rewrite Hw2, Hm1| |lia|lia].
    by rewrite !map_app, Hm3, Hm2.
Qed.

Lemma backs_parse k rest n c ps : (ps <= es)%nat -> view ps = replicate k (TSym AMP) ++ rest -> starts [AMP] rest = false -> (length (view ps) < n)%nat ->
  wp (parsebacks buf n c) (fun c' ps' => view ps' = rest /\ c' = backs k c /\ (ps <= ps' <= es)%nat) ps.
Proof.
  revert n c ps. induction k as [|k IH]; intros n c ps Hps Hv Hst Hn; (destruct n as [|n]; [lia|]); cbn [parsebacks];
    apply wp_bind, wp_peek; [done|done| |done|done|]; intros ps1 Hv1 Hr1.
  - cbn in Hv. rewrite Hv, Hst. apply wp_ret. split_and!; [congruence|done|lia|lia].
  - cbn [replicate app] in Hv. rewrite Hv. change (starts [AMP] (TSym AMP :: replicate k (TSym AMP) ++ rest)) with true. cbv iota.
    apply wp_bind. eapply wp_token; [lia|by rewrite Hv1|]. intros ps2 w2 Hv2 Hr2 _.
    eapply wp_mono; [apply (IH n (BACK c) ps2); [lia|done|done|rewrite Hv in Hn; cbn [length] in Hn; rewrite Hv2; lia]|].
    intros c' ps3 (Hv3 & -> & Hr3). cbn [backs]. rewrite backs_succ. split_and!; [done|done|lia|lia].
Qed.

Definition parses {A B} (m : M nat A) (f : A -> B) (x : B) (rest : list token) (ps : nat) : Prop :=
  wp m (fun a ps' => view ps' = rest /\ f a = x /\ (ps <= ps' <= es)%nat) ps.

Lemma sentences_parse :
  (forall l n ps rest, line_ok l -> (ps <= es)%nat -> view ps = t_line l ++ rest -> Follow [RPAR] rest ->
     (4 * length (view ps) + 4 <= n)%nat -> parses (parseline buf n) (cmd_map word_in) (m_line l) rest ps) /\
  (forall p n ps rest, pipe_ok p -> (ps <= es)%nat -> view ps = t_pipe p ++ rest -> Follow [AMP; SEMI; RPAR] rest ->
     (4 * length (view ps) + 3 <= n)%nat -> parses (parsepipe buf n) (cmd_map word_in) (m_pipe p) rest ps) /\
  (forall e n ps rest, exec_ok e -> (ps <= es)%nat -> view ps = t_exec e ++ rest -> Follow [BAR; AMP; SEMI; RPAR] rest ->
     (4 * length (view ps) + 2 <= n)%nat -> parses (parseexec buf n) (cmd_map word_in) (m_exec e) rest ps).
Proof.
  apply grammar_ind.
  - intros p IHp k n ps rest Hok Hps Hv Hf Hn. destruct n as [|n]; [lia|]. cbn [line_ok t_line] in *. rewrite <- app_assoc in Hv.
    unfold parses. cbn [parseline]. apply wp_bind. eapply wp_mono; [apply (IHp n ps (replicate k (TSym AMP) ++ rest)); [done|done|done| |lia]|].
    { destruct k; cbn; [by eapply follow_weaken|]. right. eexists _, _. split; [done|set_solver]. }
    intros c ps1 (Hv1 & Hm1 & Hr1). apply wp_bind. pose proof (view_length ps1).
    eapply wp_mono; [apply (backs_parse k rest); [lia|done|by eapply follow_starts|lia]|]. intros c2 ps2 (Hv2 & -> & Hr2).
    apply wp_bind, wp_peek; [done|lia|]. intros ps3 Hv3 Hr3. rewrite Hv2, (follow_starts [RPAR]) by done. apply wp_ret.
    cbn [m_line]. rewrite cmd_map_backs, Hm1. split_and!; [congruence|done|lia|lia].
  - intros p IHp k l IHl n ps rest [Hok1 Hok2] Hps Hv Hf Hn. destruct n as [|n]; [lia|]. cbn [t_line] in *. rewrite <- !app_assoc in Hv. cbn [app] in Hv.
    unfold parses. cbn [parseline]. apply wp_bind. eapply wp_mono; [apply (IHp n ps (replicate k (TSym AMP) ++ TSym SEMI :: t_line l ++ rest)); [done|done|done| |lia]|].
    { right. destruct k; cbn; eexists _, _; (split; [done|set_solver]). }
    intros c ps1 (Hv1 & Hm1 & Hr1). apply wp_bind. pose proof (view_length ps1).
    eapply wp_mono; [apply (backs_parse k (TSym SEMI :: t_line l ++ rest)); [lia|done|done|lia]|]. intros c2 ps2 (Hv2 & -> & Hr2).
    apply wp_bind, wp_peek; [done|lia|]. intros ps3 Hv3 Hr3. rewrite Hv2. change (starts [SEMI] (TSym SEMI :: t_line l ++ rest)) with true. cbv iota.
    apply wp_bind. eapply wp_token; [lia|by rewrite Hv3|]. intros ps4 w4 Hv4 Hr4 _. apply wp_bind.
    eapply wp_mono; [apply (IHl n ps4 rest); [done|lia|done|done|]|].
    { rewrite Hv, !length_app in Hn. cbn [length] in Hn. rewrite Hv4. rewrite length_app in *. lia. }
    intros r ps5 (Hv5 & Hm5 & Hr5). apply wp_ret. cbn [m_line cmd_map]. rewrite cmd_map_backs, Hm1, Hm5. split_and!; [done|done|lia|lia].
  - intros e IHe n ps rest Hok Hps Hv Hf Hn. destruct n as [|n]; [lia|]. cbn [pipe_ok t_pipe] in *.
    unfold parses. cbn [parsepipe]. apply wp_bind. eapply wp_mono; [apply (IHe n ps rest); [done|done|done|by eapply follow_weaken|lia]|].
    intros c ps1 (Hv1 & Hm1 & Hr1). apply wp_bind, wp_peek; [done|lia|]. intros ps3 Hv3 Hr3. rewrite Hv1, (follow_starts [AMP; SEMI; RPAR]) by done.
    apply wp_ret. cbn [m_pipe]. split_and!; [congruence|done|lia|lia].
  - intros e IHe p IHp n ps rest [Hok1 Hok2] Hps Hv Hf Hn. destruct n as [|n]; [lia|]. cbn [t_pipe] in *. rewrite <- app_assoc in Hv. cbn [app] in Hv.
    unfold parses. cbn [parsepipe]. apply wp_bind. eapply wp_mono; [apply (IHe n ps (TSym BAR :: t_pipe p ++ rest)); [done|done|done| |lia]|].
    { right. eexists _, _. split; [done|set_solver]. }
    intros c ps1 (Hv1 & Hm1 & Hr1). apply wp_bind, wp_peek; [done|lia|]. intros ps3 Hv3 Hr3. rewrite Hv1.
    change (starts [BAR] (TSym BAR :: t_pipe p ++ rest)) with true. cbv iota.
    apply wp_bind. eapply wp_token; [lia|by rewrite Hv3|]. intros ps4 w4 Hv4 Hr4 _. apply wp_bind.
    eapply wp_mono; [apply (IHp n ps4 rest); [done|lia|done|done|]|].
    { rewrite Hv, length_app in Hn. cbn [length] in Hn. rewrite Hv4. lia. }
    intros r ps5 (Hv5 & Hm5 & Hr5). apply wp_ret. cbn [m_pipe cmd_map]. rewrite Hm1, Hm5. split_and!; [done|done|lia|lia].
  - intros gs ws n ps rest (Hok1 & Hok2 & Hlen) Hps Hv Hf Hn. destruct n as [|n]; [lia|]. cbn [t_exec] in *. rewrite <- app_assoc in Hv.
    unfold parses. cbn [parseexec]. apply wp_bind, wp_peek; [done|lia|]. intros ps1 Hv1 Hr1.
    assert (Hs : starts [LPAR] (view ps) = false).
    { rewrite Hv. destruct gs as [|[k l] gs]; [cbn [t_redirs map concat app]; by eapply words_head|].
      apply Forall_cons in Hok1 as [Hk _]. unfold redir_ok in Hk. cbn [fst] in Hk. by destruct Hk as [-> | [-> | ->]]. }
    rewrite Hs. pose proof (view_length ps1). apply wp_bind.
    eapply wp_mono; [apply (redirs_parse gs (t_words ws ++ rest)); [lia|by rewrite Hv1|done|by eapply words_head|lia]|].
    intros rs ps2 (Hv2 & Hm2 & Hr2). pose proof (view_length ps2). apply wp_bind.
    eapply wp_mono; [apply (words_parse ws rest _ 0); [lia|done|done|by eapply follow_weaken|done|lia]|].
    intros r ps3 (Hv3 & Hm3 & Hm4 & Hr3). apply wp_ret. cbn [m_exec]. rewrite cmd_map_redirs. cbn [cmd_map]. rewrite Hm3, !map_app, Hm2, Hm4.
    split_and!; [done|done|lia|lia].
  - intros l IHl gs n ps rest [Hok1 Hok2] Hps Hv Hf Hn. destruct n as [|[|n]]; [lia|lia|]. cbn [t_exec app] in *.
    unfold parses. cbn [parseexec]. apply wp_bind, wp_peek; [done|lia|]. intros ps1 Hv1 Hr1. rewrite Hv.
    change (starts [LPAR] (TSym LPAR :: (t_line l ++ TSym RPAR :: t_redirs gs) ++ rest)) with true. cbv iota. cbn [parseblock].
    apply wp_bind, wp_peek; [done|lia|]. intros ps1' Hv1' Hr1'. rewrite Hv1, Hv.
    change (starts [LPAR] (TSym LPAR :: (t_line l ++ TSym RPAR :: t_redirs gs) ++ rest)) with true. cbn [negb].
    apply wp_bind. eapply wp_token; [lia|by rewrite Hv1', Hv1, Hv|]. intros ps2 w2 Hv2 Hr2 _. rewrite <- app_assoc in Hv2. cbn [app] in Hv2.
    apply wp_bind. eapply wp_mono; [apply (IHl n ps2 (TSym RPAR :: t_redirs gs ++ rest)); [done|lia|done| |]|].
    { right. eexists _, _. split; [done|set_solver]. }
    { rewrite Hv in Hn. cbn [length] in Hn. rewrite <- app_assoc in Hn. cbn [app] in Hn. rewrite Hv2. lia. }
    intros c ps3 (Hv3 & Hm3 & Hr3). apply wp_bind, wp_peek; [done|lia|]. intros ps4 Hv4 Hr4. rewrite Hv3.
    change (starts [RPAR] (TSym RPAR :: t_redirs gs ++ rest)) with true. cbn [negb].
    apply wp_bind. eapply wp_token; [lia|by rewrite Hv4|]. intros ps6 w6 Hv6 Hr6 _. pose proof (view_length ps6). apply wp_bind.
    eapply wp_mono; [apply (redirs_parse gs rest); [lia|done|done|by eapply follow_starts|lia]|].
    intros rs ps7 (Hv7 & Hm7 & Hr7). apply wp_ret. cbn [m_exec]. rewrite cmd_map_redirs, Hm3, Hm7. split_and!; [done|done|lia|lia].
Qed.
End line.

(** ** The whole command *)
Lemma peek_end buf toks ps : 0 ∉ buf -> (ps <= length buf)%nat -> view buf ps = [] -> peek buf toks ps = Done false (length buf).
Proof.
  intros Hnz Hps Hv. rewrite <- (view_skip buf ps) in Hv. pose proof (skip_le buf (among whitespace) ps Hps) as Hs.
  pose proof (blank_skipped buf Hnz ps) as Hb. unfold peek. set (s := skip _ _ _) in *. cbv zeta.
  destruct (drop_cases buf Hnz s) as [(Hge & _ & ->)|(Hlt & Hd & Hz)]; [by replace s with (length buf) by lia|].
  exfalso. unfold view in Hv. pose proof (lex_head (drop s buf)) as Hh. rewrite Hd in *. specialize (Hh Hb).
  destruct (among symbols _); [|by destruct Hh as [Hh _]; rewrite Hh in Hv].
  destruct (drop (S s) buf); rewrite Hh in Hv; [done|]. by destruct (_ && _).
Qed.
Lemma view_zero buf : view buf 0%nat = lex buf.
Proof. done. Qed.

Lemma parsecmd_run buf : 0 ∉ buf ->
  match parsecmd buf 0%nat with
  | Done (c, b) s => s = length buf /\ b = nulterminate c (buf ++ [0]) /\
      exists l, lex buf = t_line l /\ line_ok l /\ cmd_map (word_in buf) c = m_line l /\ cmd_all (span_ok buf) c
  | Panic msg => msg ∈ errors
  | _ => False
  end.
Proof.
  intros Hnz. pose proof (proj1 (parsers_run buf Hnz (4 * length buf + 8)) 0%nat ltac:(lia)) as H.
  rewrite view_zero in H. pose proof (lex_length buf). specialize (H ltac:(lia)). unfold runs in H. unfold parsecmd, mbind, M_bind.
  destruct (parseline buf (4 * length buf + 8) 0%nat) as [c s1| | | |]; try done. destruct H as (l & Hv & Hok & Hm & Ha & Hr).
  destruct (peek_spec buf Hnz [] s1 ltac:(by intros ? ?) ltac:(lia)) as (s2 & -> & Hv2 & Hr2). unfold get. case_bool_decide as Hs.
  - unfold mret, M_ret. split_and!; [done|done|]. exists l. split_and!; [|done|done|done].
    rewrite view_zero in Hv. rewrite Hv, <- Hv2, Hs. unfold view. rewrite drop_all. by rewrite app_nil_r.
  - cbv beta iota. unfold panic. vm_compute. set_solver.
Qed.

(** (C36) The shell's parser ends on every command line: it returns a tree, having
    read the whole line, or panics with one of the four messages of a syntax error;
    the fuel of the recursion, linear in the length of the line, is never used up. *)
Theorem sh_parse_ends buf : 0 ∉ buf ->
  match parsecmd buf 0%nat with Done _ s => s = length buf | Panic msg => msg ∈ errors | _ => False end.
Proof. intros Hnz. pose proof (parsecmd_run buf Hnz) as H. destruct (parsecmd buf 0%nat) as [[c b] s| | | |]; try done. apply H. Qed.

Example sh_parse_ends_witness :
  match parsecmd [97; AMP; 98] 0%nat with Done _ s => s = length [97; AMP; 98] | Panic msg => msg ∈ errors | _ => False end.
Proof. apply sh_parse_ends. unfold AMP. set_solver. Defined.

(** A command line is a sentence of the grammar with this meaning. *)
Definition sentence (buf : list Z) (C : cmd (list Z)) : Prop := exists l, line_ok l /\ t_line l = lex buf /\ m_line l = C.
Lemma parse_sentence buf C : 0 ∉ buf ->
  (exists c b s, parsecmd buf 0%nat = Done (c, b) s /\ cmd_map (word_in buf) c = C) <-> sentence buf C.
Proof.
  unfold sentence. intros Hnz. split.
  - intros (c & b & s & E & Hc). pose proof (parsecmd_run buf Hnz) as H. rewrite E in H. destruct H as (_ & _ & l & Hl & Hok & Hm & _).
    exists l. split_and!; [done|done|congruence].
  - intros (l & Hok & Hl & <-). pose proof (lex_length buf).
    pose proof (proj1 (sentences_parse buf Hnz) l (4 * length buf + 8)%nat 0%nat []) as H0. rewrite view_zero, app_nil_r in H0.
    specialize (H0 Hok ltac:(lia) ltac:(done) ltac:(by left) ltac:(lia)). unfold parses in H0. apply wp_inv in H0 as (c & s1 & E & Hv & Hm & Hr).
    eexists c, _, _. split; [|exact Hm]. unfold parsecmd. rewrite (bind_Done _ _ _ c s1 E).
    rewrite (bind_Done _ _ _ _ _ (peek_end buf [] s1 Hnz ltac:(lia) Hv)). unfold get, mbind, M_bind. by rewrite bool_decide_true.
Qed.

(** (C13) The parser accepts exactly the sentences of the grammar, and gives each the
    command it stands for: for every command line and every command over its words,
    [parsecmd] returns a tree that reads as this command if and only if the tokens
    of the line are a sentence - a line of pipelines, background marks and
    semicolons, of words, redirections and blocks, with fewer than ten words in a
    simple command - whose meaning it is. *)
Theorem sh_parse_grammar buf C : 0 ∉ buf ->
  (exists c b s, parsecmd buf 0%nat = Done (c, b) s /\ cmd_map (word_in buf) c = C) <->
  (exists l, line_ok l /\ t_line l = lex buf /\ m_line l = C).
Proof. apply parse_sentence. Qed.

Example sh_parse_grammar_witness : exists c b s,
  parsecmd [108; 115; BAR; 119; 99; GT; 111; AMP] 0%nat = Done (c, b) s /\
  cmd_map (word_in [108; 115; BAR; 119; 99; GT; 111; AMP]) c = BACK (PIPE (EXEC [[108; 115]]) (REDIR (EXEC [[119; 99]]) [111] (O_WRONLY ||| O_CREATE) 1)).
Proof.
  apply sh_parse_grammar; [unfold BAR, GT, AMP; set_solver|].
  exists (GLast (GPipe (GWords [] [([108; 115], [])]) (GOne (GWords [] [([119; 99], [(TSym GT, [111])])]))) 1).
  split_and!; [|reflexivity|reflexivity]. cbn. unfold MAXARGS, redir_ok. split_and!; repeat constructor; cbn; auto; lia.
Defined.

(** ** The words as strings *)
Fixpoint words_of {W} (c : cmd W) : list W :=
  match c with
  | EXEC argv => argv
  | REDIR c file _ _ => words_of c ++ [file]
  | PIPE l r | LIST l r => words_of l ++ words_of r
  | BACK c => words_of c
  end.
Definition zeros (b : list Z) (ws : list span) : list Z := foldl (fun b w => <[w.2 := 0]> b) b ws.
Lemma zeros_app b ws1 ws2 : zeros b (ws1 ++ ws2) = zeros (zeros b ws1) ws2.
Proof. apply foldl_app. Qed.
Lemma zeros_cons b w ws : zeros b (w :: ws) = zeros (<[w.2 := 0]> b) ws.
Proof. done. Qed.
Lemma nulterminate_words c b : nulterminate c b = zeros b (words_of c).
Proof. revert b. induction c as [argv|c IH file md fd|l IHl r IHr|l IHl r IHr|c IH]; intros b; cbn; [done|by rewrite zeros_app, IH|by rewrite zeros_app, IHl, IHr..|done]. Qed.
Lemma cmd_all_words {W} (P : W -> Prop) c : cmd_all P c -> Forall P (words_of c).
Proof.
  induction c as [argv|c IH file md fd|l IHl r IHr|l IHl r IHr|c IH]; cbn; [by intros [? _]| |intros [? ?]; apply Forall_app; auto..|done].
  intros (H1 & H2 & _). apply Forall_app. split; [by apply IH|by constructor].
Qed.
Lemma zeros_length (ws : list span) b : length (zeros b ws) = length b.
Proof. revert b. induction ws as [|w ws IH]; intros b; [done|]. rewrite zeros_cons. by rewrite IH, length_insert. Qed.
Lemma zeros_other (ws : list span) b i : Forall (fun w : span => w.2 <> i) ws -> zeros b ws !! i = b !! i.
Proof. intros H. revert b. induction H as [|w ws Hw H IH]; intros b; [done|]. rewrite zeros_cons. by rewrite IH, list_lookup_insert_ne. Qed.
Lemma zeros_stay (ws : list span) b i : b !! i = Some 0 -> zeros b ws !! i = Some 0.
Proof.
  revert b. induction ws as [|w ws IH]; intros b Hb; [done|]. rewrite zeros_cons. apply IH. destruct (decide (w.2 = i)) as [->|Hne].
  - apply list_lookup_insert_eq. by eapply lookup_lt_Some.
  - by rewrite list_lookup_insert_ne.
Qed.
Lemma zeros_at (ws : list span) b (w : span) : w ∈ ws -> (w.2 < length b)%nat -> zeros b ws !! w.2 = Some 0.
Proof.
  revert b. induction ws as [|x ws IH]; intros b Hw Hl; [by apply not_elem_of_nil in Hw|]. rewrite zeros_cons.
  apply elem_of_cons in Hw as [->|Hw]; [apply zeros_stay; by apply list_lookup_insert_eq|]. apply IH; [done|by rewrite length_insert].
Qed.

(** The words of the tree lie in the buffer as strings. *)
Lemma words_in_buffer buf c b s : 0 ∉ buf -> parsecmd buf 0%nat = Done (c, b) s ->
  length b = S (length buf) /\
  cmd_all (fun w : span => word_in buf w <> [] /\ Forall (fun c => wordch c = true) (word_in buf w) /\
    exists rest, drop w.1 b = word_in buf w ++ 0 :: rest) c.
Proof.
  intros Hnz E. pose proof (parsecmd_run buf Hnz) as H. rewrite E in H. destruct H as (_ & -> & _ & _ & _ & _ & Ha).
  split; [rewrite nulterminate_words, zeros_length, length_app; cbn; lia|].
  pose proof (cmd_all_words _ _ Ha) as Hw. rewrite nulterminate_words.
  set (b := zeros _ _).
  assert (Hin : forall w : span, w ∈ words_of c -> word_in buf w <> [] /\ Forall (fun c => wordch c = true) (word_in buf w) /\
    exists rest, drop w.1 b = word_in buf w ++ 0 :: rest).
  { intros w Hwin. rewrite Forall_forall in Hw. destruct (Hw w Hwin) as (Hr & Hch & _).
    assert (Hlk : forall i, (w.1 <= i < w.2)%nat -> b !! i = buf !! i).
    { intros i Hi. unfold b. rewrite zeros_other.
      - by rewrite lookup_app_l by lia.
      - rewrite Forall_forall. intros x Hx Ex. destruct (Hw x Hx) as (Hxr & _ & Hxe). specialize (Hch i Hi).
        destruct Hxe as [Hxe|Hxe]; [lia|]. rewrite Ex, Hch in Hxe. done. }
    assert (Hend : b !! w.2 = Some 0) by (apply zeros_at; [done|rewrite length_app; cbn; lia]).
    assert (Hlen : length (word_in buf w) = (w.2 - w.1)%nat) by (unfold word_in; rewrite length_take, length_drop; lia).
    split_and!.
    - intros En. rewrite En in Hlen. cbn in Hlen. lia.
    - rewrite Forall_lookup. intros i x Hx. pose proof (lookup_lt_Some _ _ _ Hx). unfold word_in in Hx. rewrite lookup_take_lt, lookup_drop in Hx by lia.
      specialize (Hch (w.1 + i)%nat ltac:(lia)). unfold char_at in Hch. by rewrite (nth_lookup_Some _ _ _ _ Hx) in Hch.
    - exists (drop (S w.2) b). apply list_eq. intros i. rewrite lookup_drop.
      destruct (decide (i < w.2 - w.1)%nat).
      + rewrite lookup_app_l, Hlk by lia. unfold word_in. by rewrite lookup_take_lt, lookup_drop by lia.
      + rewrite lookup_app_r by lia. rewrite Hlen. destruct (i - (w.2 - w.1))%nat as [|j] eqn:Ej.
        * by replace (w.1 + i)%nat with w.2 by lia.
        * change ((0 :: drop (S w.2) b) !! S j) with (drop (S w.2) b !! j). rewrite lookup_drop. f_equal. lia. }
  clear -Ha Hin. revert Ha Hin. clearbody b. induction c as [argv|c IH file md fd|l IHl r IHr|l IHl r IHr|c IH]; cbn; intros Ha Hin.
  - destruct Ha as [_ Ha]. split; [|done]. by apply Forall_forall.
  - destruct Ha as (H1 & H2 & H3). split_and!; [apply IH; [done|]; intros; apply Hin; set_solver|apply Hin; set_solver..|done].
  - destruct Ha as [H1 H2]. split; [apply IHl|apply IHr]; try done; intros; apply Hin; set_solver.
  - destruct Ha as [H1 H2]. split; [apply IHl|apply IHr]; try done; intros; apply Hin; set_solver.
  - by apply IH.
Qed.

(** (C37) What the shell executes is well formed: in the tree [parsecmd] returns,
    every simple command has fewer than ten words, redirections open descriptor 0
    for reading or 1 for writing, and every word, file names included, is a nonempty
    run of bytes without blanks or symbols that is, in the buffer the tree points
    into, followed by a NUL: the C string at its first byte is exactly the word. *)
Theorem sh_words_are_strings buf c b s : 0 ∉ buf -> parsecmd buf 0%nat = Done (c, b) s ->
  length b = S (length buf) /\
  cmd_all (fun w : span => word_in buf w <> [] /\ Forall (fun c => wordch c = true) (word_in buf w) /\
    exists rest, drop w.1 b = word_in buf w ++ 0 :: rest) c.
Proof. apply words_in_buffer. Qed.

Example sh_words_are_strings_witness :
  length [97; 0; 0] = 3%nat /\ cmd_all (fun w : span => word_in [97; SEMI] w <> [] /\ Forall (fun c => wordch c = true) (word_in [97; SEMI] w) /\
    exists rest, drop w.1 [97; 0; 0] = word_in [97; SEMI] w ++ 0 :: rest) (LIST (EXEC [(0, 1)%nat]) (EXEC [])).
Proof. apply (sh_words_are_strings [97; SEMI] _ _ 2%nat); [unfold SEMI; set_solver|vm_compute; reflexivity]. Defined.

(** A command after a background mark needs a semicolon: the grammar, and so the
    shell, has no sentence where it follows directly. *)
Lemma sh_background_then_command : parsecmd [97; AMP; 98] 0%nat = Panic "syntax".
Proof. vm_compute. reflexivity. Qed.
(** [>>] opens its file exactly as [>] does. *)
Lemma sh_append_is_write : exists f1 f2 b1 b2 s1 s2, parsecmd [97; GT; 98] 0%nat = Done (REDIR (EXEC [(0, 1)%nat]) f1 (O_WRONLY ||| O_CREATE) 1, b1) s1 /\
  parsecmd [97; GT; GT; 98] 0%nat = Done (REDIR (EXEC [(0, 1)%nat]) f2 (O_WRONLY ||| O_CREATE) 1, b2) s2.
Proof. do 6 eexists. split; vm_compute; reflexivity. Qed.
