(* ===== verification/ShRun.v ===== *)
(** * Running commands ([sh.c])

    [runcmd] on the tree of the parser, in a process that has just been forked.  Its
    result is what its processes do and wait for: the programs they start, with
    their descriptor tables, in sequence where a process waits before it goes on and in
    parallel where it forks first.  The kernel's answers are parameters: whether a file opens, a program loads,
    the [n]-th fork succeeds.  Descriptors are those of [fdalloc]: the lowest free
    entry of a table of [NOFILE].

    The theorem: every program starts with exactly its standard input, output and
    error, the output of each stage of a pipeline is the input of the next, and no end of a pipe is left open
    anywhere else - so that a reader sees the end of its input. *)
From stdpp Require Import list.
From S2P Require Import Prelude Layout Memory Digits Ulib Sh ShTheorems.

(** What a descriptor refers to. *)
Inductive handle := Hconsole | Hfile (name : list Z) (mode : Z) | Hread (p : nat) | Hwrite (p : nat).
Definition table := list (option handle).

Fixpoint lowest (t : table) : option nat :=
  match t with
  | [] => None
  | None :: _ => Some O
  | Some _ :: t' => S <$> lowest t'
  end.
(** The system calls: the descriptor, or [None] for -1, and the table. *)
Definition fd_alloc (h : handle) (t : table) : option nat * table :=
  match lowest t with Some fd => (Some fd, <[fd := Some h]> t) | None => (None, t) end.
Definition close (fd : nat) (t : table) : table := <[fd := None]> t.
Definition dup (fd : nat) (t : table) : table :=
  match mjoin (t !! fd) with Some h => (fd_alloc h t).2 | None => t end.

(** What the processes of a command do. *)
Inductive job :=
| Ends
| Prog (argv : list (list Z)) (t : table)
| Says (msg : string) (arg : list Z)      (** a message, and exit *)
| Seq (a b : job)                          (** a child [a], waited for, then [b] *)
| Par (a b : job) (t : table)              (** two children, both waited for, with [t] open *)
| Fork (a b : job).                        (** a child [a], not waited for, and [b] *)

(** Forks and pipes made so far. *)
Record env := Env { e_forks : nat; e_pipes : nat }.

Section run.
Context (opens : list Z -> Z -> bool) (execs : list (list Z) -> bool) (forks : nat -> bool).

(** [fork1]: panics on failure. *)
Definition fork1 : M env bool := fun s => Done (forks (e_forks s)) (Env (S (e_forks s)) (e_pipes s)).
(** [pipe(p)]: the two descriptors, or [None] when the table has no room for them. *)
Definition pipe (t : table) : M env (option (nat * nat) * table) := fun s =>
  let n := e_pipes s in
  match fd_alloc (Hread n) t with
  | (Some r, t1) =>
      match fd_alloc (Hwrite n) t1 with
      | (Some w, t2) => Done (Some (r, w), t2) (Env (e_forks s) (S n))
      | (None, _) => Done (None, t) s
      end
  | (None, _) => Done (None, t) s
  end.

Fixpoint runcmd (c : cmd (list Z)) (t : table) : M env job :=
  match c with
  | EXEC [] => mret Ends
  | EXEC ((a :: _) as argv) => mret (if execs argv then Prog argv t else Says "exec failed" a)
  | REDIR c file mode fd =>
      let t := close (Z.to_nat fd) t in
      if opens file mode then
        match fd_alloc (Hfile file mode) t with
        | (Some _, t) => runcmd c t
        | (None, _) => mret (Says "open failed" file)
        end
      else mret (Says "open failed" file)
  | LIST l r =>
      k ← fork1;
      if negb k then mret (Says "fork" []) else
      a ← runcmd l t;
      b ← runcmd r t;
      mret (Seq a b)
  | PIPE l r =>
      p ← pipe t;
      match p with
      | (None, _) => mret (Says "pipe" [])
      | (Some (p0, p1), t) =>
          k ← fork1;
          if negb k then mret (Says "fork" []) else
          a ← runcmd l (close p1 (close p0 (dup p1 (close 1 t))));
          k ← fork1;
          if negb k then mret (Fork a (Says "fork" [])) else
          b ← runcmd r (close p1 (close p0 (dup p0 (close 0 t))));
          mret (Par a b (close p1 (close p0 t)))
      end
  | BACK c =>
      k ← fork1;
      if negb k then mret (Says "fork" []) else
      a ← runcmd c t;
      mret (Fork a Ends)
  end.

(** ** What a command means *)
(** The descriptors of a program: its input, its output, and the console for errors. *)
Definition std (i o : handle) : table := [Some i; Some o; Some Hconsole] ++ replicate 13 None.

(** The pipes are numbered from [n] on, in the order of the tree. *)
Fixpoint pipes (c : cmd (list Z)) : nat :=
  match c with
  | EXEC _ => 0
  | REDIR c file mode _ => if opens file mode then pipes c else 0
  | PIPE l r => S (pipes l + pipes r)
  | LIST l r => pipes l + pipes r
  | BACK c => pipes c
  end.
Fixpoint mean (c : cmd (list Z)) (i o : handle) (n : nat) : job :=
  match c with
  | EXEC [] => Ends
  | EXEC ((a :: _) as argv) => if execs argv then Prog argv (std i o) else Says "exec failed" a
  | REDIR c file mode fd =>
      if opens file mode then mean c (if fd =? 0 then Hfile file mode else i) (if fd =? 0 then o else Hfile file mode) n
      else Says "open failed" file
  | LIST l r => Seq (mean l i o n) (mean r i o (n + pipes l))
  | PIPE l r => Par (mean l i (Hwrite n) (S n)) (mean r (Hread n) o (S n + pipes l)) (std i o)
  | BACK c => Fork (mean c i o n) Ends
  end.

(** The table with both ends of the pipe [n], and those of its two sides. *)
Definition with_pipe (i o : handle) (n : nat) : table := [Some i; Some o; Some Hconsole; Some (Hread n); Some (Hwrite n)] ++ replicate 11 None.
Lemma pipe_std i o k n : pipe (std i o) (Env k n) = Done (Some (3, 4)%nat, with_pipe i o n) (Env k (S n)).
Proof. reflexivity. Qed.
Lemma left_table i o n : close 4 (close 3 (dup 4 (close 1 (with_pipe i o n)))) = std i (Hwrite n).
Proof. reflexivity. Qed.
Lemma right_table i o n : close 4 (close 3 (dup 3 (close 0 (with_pipe i o n)))) = std (Hread n) o.
Proof. reflexivity. Qed.
Lemma parent_table i o n : close 4 (close 3 (with_pipe i o n)) = std i o.
Proof. reflexivity. Qed.

Lemma runcmd_mean (Hforks : forall n, forks n = true) P c : cmd_all P c -> forall i o k n,
  exists k', runcmd c (std i o) (Env k n) = Done (mean c i o n) (Env k' (n + pipes c)).
Proof.
  induction c as [argv|c IH file mode fd|l IHl r IHr|l IHl r IHr|c IH]; cbn [cmd_all]; intros Hok i o k n; cbn [runcmd mean pipes].
  - rewrite Nat.add_0_r. destruct argv; by eexists.
  - destruct Hok as (Hc & _ & Hm). destruct (opens file mode); [|rewrite Nat.add_0_r; by eexists].
    destruct Hm as [[_ ->]|[_ ->]]; apply (IH Hc).
  - destruct Hok as [Hl Hr]. destruct (IHl Hl i (Hwrite n) (S k) (S n)) as (k1 & El). destruct (IHr Hr (Hread n) o (S k1) (S n + pipes l)%nat) as (k2 & Er).
    exists k2. unfold mbind, M_bind. rewrite pipe_std. unfold fork1 at 1. cbn [e_forks e_pipes]. rewrite Hforks. cbn [negb].
    rewrite left_table, El. unfold fork1 at 1. cbn [e_forks e_pipes]. rewrite Hforks. cbn [negb]. rewrite right_table, Er, parent_table.
    unfold mret, M_ret. do 2 f_equal. lia.
  - destruct Hok as [Hl Hr]. destruct (IHl Hl i o (S k) n) as (k1 & El). destruct (IHr Hr i o k1 (n + pipes l)%nat) as (k2 & Er).
    exists k2. unfold mbind, M_bind, fork1. cbn [e_pipes e_forks]. rewrite Hforks. cbn [negb]. rewrite El, Er. unfold mret, M_ret. by rewrite Nat.add_assoc.
  - destruct (IH Hok i o (S k) n) as (k1 & El). exists k1. unfold mbind, M_bind, fork1. cbn [e_pipes e_forks]. rewrite Hforks. cbn [negb]. by rewrite El.
Qed.

(** ** The loop of [main] *)
(** What the shell's own process does: a directory changed or refused, a child started, the
    [wait] for a child, and the end when there is no process for one. *)
Inductive event := Chdir (path : list Z) | NoChdir (path : list Z) | Run (j : job) | Wait | NoFork.

Section main.
Context (buf : Z) (chdirs : list Z -> bool).
Definition NBUF_SH : Z := 100.

(** The string at an address, of at most [n] bytes. *)
Fixpoint str_at (n : nat) (m : mem) (a : Z) : list Z :=
  match n with
  | O => []
  | S n' => if rd8 m a =? 0 then [] else rd8 m a :: str_at n' m (a + 1)
  end.
(** The strings the words of a tree point to. *)
Definition word_at (b : list Z) (w : span) : list Z := take (run_length (fun c => negb (c =? 0)) (drop w.1 b)) (drop w.1 b).

(** [getcmd]: what is left of the input, the buffer, and whether there is a command. *)
Definition getcmd (inp : list (option Z)) (m : mem) : list (option Z) * mem * bool :=
  let '(inp, m) := Ulib.gets inp buf NBUF_SH (Ulib.memset buf 0 NBUF_SH m) in (inp, m, negb (rd8 m buf =? 0)).

Definition is_cd (m : mem) : bool := (rd8 m buf =? 99) && (rd8 m (buf + 1) =? 100) && (rd8 m (buf + 2) =? 32).
Definition run_line (t : table) (line : list Z) : M env job :=
  match parsecmd line 0%nat with
  | Done (c, b) _ => runcmd (cmd_map (word_at b) c) t
  | Panic msg => mret (Says msg [])
  | _ => spin
  end.

Fixpoint main_loop (t : table) (fuel : nat) (inp : list (option Z)) (m : mem) : M env (list event) :=
  match fuel with
  | O => spin
  | S f =>
      let '(inp, m, more) := getcmd inp m in
      if negb more then mret [] else
      if is_cd m then
        let n := Z.of_nat (length (str_at (Z.to_nat NBUF_SH) m buf)) in
        let m := wr8 (buf + n - 1) 0 m in
        let path := str_at (Z.to_nat NBUF_SH) m (buf + 3) in
        l ← main_loop t f inp m;
        mret ((if chdirs path then Chdir path else NoChdir path) :: l)
      else
        k ← fork1;
        if negb k then mret [NoFork] else
        j ← run_line t (str_at (Z.to_nat NBUF_SH) m buf);
        l ← main_loop t f inp m;
        mret (Run j :: Wait :: l)
  end.
(** The name of the console, and [while((fd = open("console", O_RDWR)) >= 0)]: three
    descriptors are open; a table of [NOFILE] is full after as many turns. *)
Definition console : list Z := [99; 111; 110; 115; 111; 108; 101].
Fixpoint open_fds (n : nat) (t : table) : table :=
  match n with
  | O => t
  | S n' =>
      if negb (opens console O_RDWR) then t else
      match fd_alloc Hconsole t with
      | (None, t) => t
      | (Some fd, t) => if (3 <=? fd)%nat then close fd t else open_fds n' t
      end
  end.
Definition shell (t : table) (inp : list (option Z)) (m : mem) : M env (list event) :=
  main_loop (open_fds (Z.to_nat NOFILE) t) (S (length inp)) inp m.
End main.
End run.

(** [runcmd] in a process with its three standard descriptors, when no fork fails:
    it does what the command means, with the pipes numbered in the order of the tree.
    Every program has exactly the three standard descriptors: of a pipeline the left
    side writes the pipe the right side reads, a redirection replaces the input or
    the output alone, and the ends of a pipe are open nowhere else, the waiting
    process included. *)
Theorem runcmd_wires opens execs forks P c i o k n : (forall m, forks m = true) -> cmd_all P c ->
  exists k', runcmd opens execs forks c (std i o) (Env k n) = Done (mean opens execs c i o n) (Env k' (n + pipes opens c)).
Proof. intros Hf Hc. by apply (runcmd_mean opens execs forks Hf P). Qed.

Example runcmd_wires_witness : exists k',
  runcmd (fun _ _ => true) (fun _ => true) (fun _ => true) (PIPE (EXEC [[108; 115]]) (REDIR (EXEC [[119; 99]]) [111] (O_WRONLY ||| O_CREATE) 1)) (std Hconsole Hconsole) (Env 0 0) =
  Done (Par (Prog [[108; 115]] (std Hconsole (Hwrite 0))) (Prog [[119; 99]] (std (Hread 0) (Hfile [111] (O_WRONLY ||| O_CREATE)))) (std Hconsole Hconsole)) (Env k' 1).
Proof.
  destruct (runcmd_wires (fun _ _ => true) (fun _ => true) (fun _ => true) (fun _ => True)
    (PIPE (EXEC [[108; 115]]) (REDIR (EXEC [[119; 99]]) [111] (O_WRONLY ||| O_CREATE) 1)) Hconsole Hconsole 0 0) as [k' H]; [done| |by exists k'].
  cbn. unfold MAXARGS. split_and!; [repeat constructor|lia|repeat constructor|lia|done|by right].
Defined.
