(* ===== verification/ShSession.v ===== *)
(** * What the shell does with its input

    The loop of [main] over a stream of lines: each line is one command, a [cd] done by the
    shell itself, anything else by a child that parses and runs it; the programs it
    starts and how they are connected are the meaning of the command. *)
From stdpp Require Import list.
From S2P Require Import Prelude Layout Memory Digits Ulib Sh ShTheorems ShRun.

(** ** Reading a line *)
(** A command line: some characters, none of them a NUL or a line end, that fit the buffer. *)
Record line_good (l : list Z) : Prop := LineGood {
  lg_some : l <> [];
  lg_chars : Forall (fun c => 0 < c < 256 /\ c <> 10 /\ c <> 13) l;
  lg_room : Z.of_nat (length l) + 1 < NBUF_SH }.
Definition typed (l : list Z) : list (option Z) := Some <$> (l ++ [10]).

Lemma gets_typed_loop buf max l rest : forall i m, Forall (fun c => 0 < c < 256 /\ c <> 10 /\ c <> 13) l -> i + Z.of_nat (length l) + 1 < max ->
  exists m', gets_loop (typed l ++ rest) buf max i m = (rest, i + Z.of_nat (length l) + 1, m') /\ holds m' (buf + i) (l ++ [10]) /\
    forall a, a < buf + i -> rd8 m' a = rd8 m a.
Proof.
  induction l as [|c l IH]; intros i m Hl Hi; cbn [length] in Hi.
  - exists (wr8 (buf + i) 10 m). cbn. rewrite (proj2 (Z.ltb_lt (i + 1) max)) by lia. split; [f_equal; f_equal; lia|]. split.
    + intros j x Hj. destruct j as [|j]; [|done]. injection Hj as <-. by rewrite Z.add_0_r, rd8_wr8_eq.
    + intros a Ha. by rewrite rd8_wr8_ne by lia.
  - apply Forall_cons in Hl as [(Hc & Hc10 & Hc13) Hl]. destruct (IH (i + 1) (wr8 (buf + i) c m) Hl ltac:(lia)) as (m' & Hg & Hh & Hlo).
    exists m'. cbn [typed app fmap list_fmap gets_loop]. rewrite (proj2 (Z.ltb_lt (i + 1) max)) by lia. cbv zeta.
    rewrite (proj2 (Z.eqb_neq c 10)), (proj2 (Z.eqb_neq c 13)) by done. cbn [orb]. fold (typed l). split; [|split].
    + unfold typed in *. rewrite Hg. cbn [length]. do 2 f_equal. lia.
    + cbn [app]. apply holds_cons. split; [rewrite Hlo by lia; rewrite rd8_wr8_eq; apply u8_small; lia|]. by rewrite <- Z.add_assoc.
    + intros a Ha. rewrite Hlo by lia. by rewrite rd8_wr8_ne by lia.
Qed.

Lemma getcmd_line buf l rest m : line_good l ->
  exists m', getcmd buf (typed l ++ rest) m = (rest, m', true) /\ holds m' buf (l ++ [10; 0]).
Proof.
  intros [Hne Hl Hroom]. unfold getcmd, Ulib.gets.
  destruct (gets_typed_loop buf NBUF_SH l rest 0 (Ulib.memset buf 0 NBUF_SH m) Hl ltac:(lia)) as (m' & -> & Hh & _). rewrite Z.add_0_r in Hh.
  set (n := 0 + Z.of_nat (length l) + 1). exists (wr8 (buf + n) 0 m').
  assert (Hh2 : holds (wr8 (buf + n) 0 m') buf (l ++ [10; 0])).
  { intros i c Hi. change (l ++ [10; 0]) with (l ++ [10] ++ [0]) in Hi. rewrite app_assoc in Hi. apply lookup_app_Some in Hi as [Hi|[Hi Hc]].
    - pose proof (lookup_lt_Some _ _ _ Hi) as Hlt. rewrite length_app in Hlt. cbn in Hlt. rewrite rd8_wr8_ne by (unfold n; lia). by apply Hh.
    - apply list_lookup_singleton_Some in Hc as [Hc <-]. rewrite length_app in Hi, Hc. cbn in Hi, Hc.
      replace (Z.of_nat i) with n by (unfold n; lia). by rewrite rd8_wr8_eq. }
  split; [|done]. f_equal. destruct l as [|c l]; [done|]. apply holds_cons in Hh2 as [-> _]. apply Forall_cons in Hl as [[Hc _] _].
  by rewrite (proj2 (Z.eqb_neq c 0)) by lia.
Qed.

(** The string in the buffer. *)
Lemma str_at_holds n m a l : holds m a (l ++ [0]) -> Forall (fun c => c <> 0) l -> (length l < n)%nat -> str_at n m a = l.
Proof.
  revert a l. induction n as [|n IH]; intros a l Hh Hl Hn; [lia|]. cbn [str_at]. destruct l as [|c l].
  - apply holds_cons in Hh as [-> _]. done.
  - apply Forall_cons in Hl as [Hc Hl]. cbn [app] in Hh. apply holds_cons in Hh as [-> Hh]. rewrite (proj2 (Z.eqb_neq c 0) Hc). f_equal. apply IH; [done|done|cbn in Hn; lia].
Qed.
Lemma holds_app m a l k : holds m a (l ++ k) -> holds m a l /\ holds m (a + Z.of_nat (length l)) k.
Proof.
  intros H. split.
  - intros i c Hi. apply H. by apply lookup_app_l_Some.
  - intros i c Hi. rewrite <- Z.add_assoc, <- Nat2Z.inj_add. apply H. rewrite lookup_app_r by lia. by replace (length l + i - length l)%nat with i by lia.
Qed.

(** ** The words of a command *)
Lemma word_at_in line c b s : 0 ∉ line -> parsecmd line 0%nat = Done (c, b) s -> cmd_map (word_at b) c = cmd_map (word_in line) c /\ cmd_all (fun _ => True) c.
Proof.
  intros Hnz E. destruct (words_in_buffer line c b s Hnz E) as [_ Ha]. clear E. revert Ha.
  assert (Hw : forall w : span, (word_in line w <> [] /\ Forall (fun c => wordch c = true) (word_in line w) /\ exists rest, drop w.1 b = word_in line w ++ 0 :: rest) ->
    word_at b w = word_in line w).
  { intros w (_ & _ & rest & Hd). unfold word_at. rewrite Hd. set (l := word_in line w) in *.
    assert (Hl : Forall (fun c => c <> 0) l).
    { apply Forall_forall. intros x Hx ->. apply Hnz. unfold l, word_in in Hx. apply subseteq_take in Hx. by apply subseteq_drop in Hx. }
    assert (Hrun : run_length (fun c => negb (c =? 0)) (l ++ 0 :: rest) = length l).
    { clear Hd. induction l as [|x l IH]; [done|]. apply Forall_cons in Hl as [Hx Hl]. cbn. rewrite (proj2 (Z.eqb_neq x 0) Hx). cbn. by rewrite IH. }
    rewrite Hrun, take_app_length. done. }
  induction c as [argv|c IH file md fd|l IHl r IHr|l IHl r IHr|c IH]; cbn; intros Ha.
  - destruct Ha as [Ha Hn]. split; [|split; [by apply Forall_true|done]]. f_equal. induction Ha as [|w ws Hww _ IH]; [done|]. cbn. rewrite Hw by done. f_equal. apply IH. cbn in Hn. lia.
  - destruct Ha as (H1 & H2 & H3). destruct (IH H1) as [-> ?]. rewrite (Hw _ H2). by split_and!.
  - destruct Ha as [H1 H2]. destruct (IHl H1) as [-> ?], (IHr H2) as [-> ?]. by split_and!.
  - destruct Ha as [H1 H2]. destruct (IHl H1) as [-> ?], (IHr H2) as [-> ?]. by split_and!.
  - destruct (IH Ha) as [-> ?]. by split.
Qed.
Lemma cmd_all_map {V W} (f : V -> W) c : cmd_all (fun _ => True) c -> cmd_all (fun _ => True) (cmd_map f c).
Proof.
  induction c as [argv|c IH file md fd|l IHl r IHr|l IHl r IHr|c IH]; cbn; intros H.
  - destruct H as [_ H]. split; [by apply Forall_true|]. by rewrite length_map.
  - destruct H as (H1 & _ & H2). split_and!; [by apply IH|done|done].
  - destruct H; split; auto.
  - destruct H; split; auto.
  - auto.
Qed.

(** ** A session *)
Section session.
Context (opens : list Z -> Z -> bool) (execs : list (list Z) -> bool) (forks : nat -> bool) (chdirs : list Z -> bool) (buf : Z).

(** What a line does, when [n] pipes were made before it, and how many were after it.  A child is
    waited for before the next line. *)
Inductive line_does (l : list Z) (n : nat) : list event -> nat -> Prop :=
| Does_cd path : l = [99; 100; 32] ++ path -> line_does l n [if chdirs path then Chdir path else NoChdir path] n
| Does_run C : take 3 l <> [99; 100; 32] -> sentence (l ++ [10]) C -> line_does l n [Run (mean opens execs C Hconsole Hconsole n); Wait] (n + pipes opens C)
| Does_say msg : take 3 l <> [99; 100; 32] -> (forall C, ~ sentence (l ++ [10]) C) -> msg ∈ errors -> line_does l n [Run (Says msg []); Wait] n.
Inductive session : list (list Z) -> nat -> list event -> Prop :=
| Session_end n : session [] n []
| Session_line l ls n a n' acts : line_does l n a n' -> session ls n' acts -> session (l :: ls) n (a ++ acts).

Lemma is_cd_line m l : holds m buf (l ++ [10; 0]) -> is_cd buf m = bool_decide (take 3 l = [99; 100; 32]).
Proof.
  intros H. unfold is_cd. assert (Hb : forall i c, (l ++ [10; 0]) !! i = Some c -> rd8 m (buf + Z.of_nat i) = c) by exact H.
  pose proof (Hb 0%nat) as H0. pose proof (Hb 1%nat) as H1. pose proof (Hb 2%nat) as H2. change (Z.of_nat 0) with 0 in H0. rewrite Z.add_0_r in H0.
  change (Z.of_nat 1) with 1 in H1. change (Z.of_nat 2) with 2 in H2. clear H Hb.
  apply eq_true_iff_eq. rewrite !andb_true_iff, !Z.eqb_eq, bool_decide_eq_true.
  destruct l as [|a [|b [|c l]]]; cbn in H0, H1, H2 |- *; rewrite (H0 _ eq_refl), ?(H1 _ eq_refl), ?(H2 _ eq_refl).
  1-3: split; [intros [[? ?] ?]; lia|done].
  rewrite take_0. split; [by intros [[-> ->] ->]|by intros [= -> -> ->]].
Qed.

Lemma good_no_nul l : line_good l -> 0 ∉ l ++ [10].
Proof. intros [_ Hc _]. rewrite elem_of_app, list_elem_of_singleton. intros [H|H]; [|done]. rewrite Forall_forall in Hc. apply Hc in H. lia. Qed.

Lemma run_line_does (Hforks : forall n, forks n = true) l k n : line_good l -> take 3 l <> [99; 100; 32] ->
  exists j k' n', run_line opens execs forks (std Hconsole Hconsole) (l ++ [10]) (Env k n) = Done j (Env k' n') /\ line_does l n [Run j; Wait] n'.
Proof.
  intros Hl Hcd. pose proof (good_no_nul l Hl) as Hnz. unfold run_line. pose proof (parsecmd_run (l ++ [10]) Hnz) as Hp.
  pose proof (fun C => parse_sentence (l ++ [10]) C Hnz) as Hs.
  destruct (parsecmd (l ++ [10]) 0%nat) as [[c b] s|msg| | |] eqn:E; try done.
  - destruct (word_at_in _ _ _ _ Hnz E) as [-> Ha]. destruct (runcmd_mean opens execs forks Hforks _ _ (cmd_all_map (word_in (l ++ [10])) c Ha) Hconsole Hconsole k n) as (k' & Er).
    eexists _, k', _. split; [exact Er|]. apply Does_run; [done|]. apply Hs. by exists c, b, s.
  - exists (Says msg []), k, n. split; [done|]. apply Does_say; [done| |exact Hp]. intros C HC. apply Hs in HC as (c & b & s & H & _). discriminate.
Qed.

Lemma getcmd_end m : exists m', getcmd buf [] m = ([], m', false).
Proof. eexists. unfold getcmd, Ulib.gets. cbn. rewrite Z.add_0_r, rd8_wr8_eq. reflexivity. Qed.

(** The text after [cd ], without the line end. *)
Lemma cd_path m path : line_good ([99; 100; 32] ++ path) -> holds m buf (([99; 100; 32] ++ path) ++ [10; 0]) ->
  let n := Z.of_nat (length (str_at (Z.to_nat NBUF_SH) m buf)) in
  str_at (Z.to_nat NBUF_SH) (wr8 (buf + n - 1) 0 m) (buf + 3) = path.
Proof.
  set (l := [99; 100; 32] ++ path). intros [_ Hc Hroom] Hh.
  assert (Hs : str_at (Z.to_nat NBUF_SH) m buf = l ++ [10]).
  { apply str_at_holds; [by rewrite <- app_assoc| |rewrite length_app; cbn [length]; unfold NBUF_SH in *; lia].
    apply Forall_app. split; [|by repeat constructor]. eapply Forall_impl; [exact Hc|]. intros x Hx. cbn in Hx. lia. }
  cbv zeta. rewrite Hs, length_app. cbn [length]. set (n := Z.of_nat (length l + 1)). apply Forall_app in Hc as [_ Hp]. unfold l in Hroom. rewrite length_app in Hroom. cbn [length] in Hroom.
  apply str_at_holds; [|eapply Forall_impl; [exact Hp|]; intros x Hx; cbn in Hx; lia|unfold NBUF_SH in *; lia].
  intros i c Hi. assert (Hn : buf + n - 1 = buf + 3 + Z.of_nat (length path)) by (unfold n, l; rewrite length_app; cbn [length]; lia). rewrite Hn.
  apply lookup_app_Some in Hi as [Hi|[Hge Hi]].
  - pose proof (lookup_lt_Some _ _ _ Hi). rewrite rd8_wr8_ne by lia. replace (buf + 3 + Z.of_nat i) with (buf + Z.of_nat (3 + i)) by lia.
    apply Hh. unfold l. rewrite <- app_assoc. cbn. by apply lookup_app_l_Some.
  - destruct (i - length path)%nat as [|j] eqn:Ej; [|done]. injection Hi as <-. replace i with (length path) by lia. by rewrite rd8_wr8_eq.
Qed.

Lemma main_session (Hforks : forall n, forks n = true) ls : Forall line_good ls -> forall fuel k n m, (length ls < fuel)%nat ->
  exists acts s', main_loop opens execs forks buf chdirs (std Hconsole Hconsole) fuel (concat (map typed ls)) m (Env k n) = Done acts s' /\ session ls n acts.
Proof.
  induction 1 as [|l ls Hl _ IH]; intros fuel k n m Hf; (destruct fuel as [|f]; [cbn in Hf; lia|]); cbn [main_loop map concat].
  - destruct (getcmd_end m) as (m' & ->). exists [], (Env k n). split; [done|constructor].
  - destruct (getcmd_line buf l (concat (map typed ls)) m Hl) as (m' & -> & Hh). cbn [negb]. rewrite (is_cd_line m' l Hh). cbn [length] in Hf.
    case_bool_decide as Hcd.
    + assert (El : l = [99; 100; 32] ++ drop 3 l) by (rewrite <- Hcd; by rewrite take_drop). rewrite El in Hl, Hh.
      cbv zeta. rewrite (cd_path m' (drop 3 l) Hl Hh).
      match goal with |- context [main_loop _ _ _ _ _ _ f _ ?m2] => destruct (IH f k n m2 ltac:(lia)) as (acts & s' & Em & Hs) end.
      eexists _, s'. split; [rewrite (bind_Done _ _ _ _ _ Em); reflexivity|]. apply (Session_line l ls n [_] n acts); [by apply Does_cd|done].
    + unfold fork1 at 1. unfold mbind at 1, M_bind at 1. cbn [e_forks e_pipes]. rewrite Hforks. cbn [negb].
      assert (Hstr : str_at (Z.to_nat NBUF_SH) m' buf = l ++ [10]).
      { destruct Hl as [_ Hc Hroom]. apply str_at_holds; [by rewrite <- app_assoc| |rewrite length_app; cbn [length]; unfold NBUF_SH in *; lia].
        apply Forall_app. split; [|by repeat constructor]. eapply Forall_impl; [exact Hc|]. intros x Hx. cbn in Hx. lia. }
      rewrite Hstr. destruct (run_line_does Hforks l (S k) n Hl Hcd) as (j & k' & n' & Er & Hd). rewrite (bind_Done _ _ _ _ _ Er).
      destruct (IH f k' n' m' ltac:(lia)) as (acts & s' & Em & Hs). rewrite (bind_Done _ _ _ _ _ Em). eexists _, s'. split; [reflexivity|]. by apply (Session_line l ls n [Run j; Wait] n' acts).
Qed.

(** The descriptors the shell is started with: those [init] opened, or fewer. *)
Definition consoles (k : nat) : table := replicate k (Some Hconsole) ++ replicate (16 - k) None.
Lemma open_fds_std k : (k <= 3)%nat -> opens console O_RDWR = true -> open_fds opens (Z.to_nat NOFILE) (consoles k) = std Hconsole Hconsole.
Proof.
  intros Hk Ho. change (Z.to_nat NOFILE) with 16%nat. destruct k as [|[|[|[|k]]]]; [| | | |lia]; unfold consoles; cbn [open_fds]; rewrite Ho; reflexivity.
Qed.
End session.

(** (C14) What the shell does with a typed session: for every sequence of command lines
    that fit its buffer, started with at most three descriptors on the console, the
    shell ends with the input, having done exactly one thing for each line in order:
    it changed its own directory to the rest of a line that starts with [cd ]; for any other line it
    started one child and waited for a child before it read the next; for a
    line that is a sentence of the grammar that child ran the command the sentence stands for
    - its programs with the console or the files of their redirections as input and
    output, the stages of a pipeline connected by a pipe of their own, and no other
    descriptor open; and for any other line it gave one of the syntax errors.  (The [wait] returns
    when any child has ended: the one of a command in the background too.) *)
Theorem shell_session opens execs forks chdirs buf k f n ls m :
  (k <= 3)%nat -> opens console O_RDWR = true -> (forall i, forks i = true) -> Forall line_good ls ->
  exists acts s', shell opens execs forks buf chdirs (consoles k) (concat (map typed ls)) m (Env f n) = Done acts s' /\
    session opens execs chdirs ls n acts.
Proof.
  intros Hk Ho Hforks Hls. unfold shell. rewrite open_fds_std by done. apply main_session; [done|done|].
  clear. induction ls as [|l ls IH]; [cbn; lia|]. cbn [map concat length]. rewrite length_app.
  assert (length (typed l) = length l + 1)%nat as -> by (unfold typed; by rewrite length_fmap, length_app). lia.
Qed.

(** [cd a] and [ls|wc]. *)
Example shell_session_witness : exists acts s',
  shell (fun _ _ => true) (fun _ => true) (fun _ => true) 4096 (fun _ => true) (consoles 1)
    (concat (map typed [[99; 100; 32; 97]; [108; 115; 124; 119; 99]])) (∅ : mem) (Env 0 0) = Done acts s' /\
  session (fun _ _ => true) (fun _ => true) (fun _ => true) [[99; 100; 32; 97]; [108; 115; 124; 119; 99]] 0 acts.
Proof.
  apply shell_session; [lia|done|done|].
  repeat constructor; (lia || done).
Defined.

(** The same session evaluated. *)
Example shell_session_run :
  (a ← shell (fun _ _ => true) (fun _ => true) (fun _ => true) 4096 (fun _ => true) (consoles 1)
    (concat (map typed [[99; 100; 32; 97]; [108; 115; 124; 119; 99]])) (∅ : mem); mret a) (Env 0 0) =
  Done [Chdir [97]; Run (Par (Prog [[108; 115]] (std Hconsole (Hwrite 0))) (Prog [[119; 99]] (std (Hread 0) Hconsole)) (std Hconsole Hconsole)); Wait] (Env 3 1).
Proof. vm_compute. reflexivity. Qed.

(** The [cd] of a last line without a line end, as at the end of a script, loses the last
    character of its path: the line end is removed without looking at it. *)
Lemma cd_at_end_of_input :
  (a ← shell (fun _ _ => true) (fun _ => true) (fun _ => true) 4096 (fun _ => true) (consoles 1)
    (Some <$> [99; 100; 32; 97; 98]) (∅ : mem); mret a) (Env 0 0) = Done [Chdir [97]] (Env 0 0).
Proof. vm_compute. reflexivity. Qed.
