(* ===== verification/Umalloc.v ===== *)
(** * The memory allocator of user programs ([umalloc.c])

    The allocator of Kernighan and Ritchie: a circular list of free blocks, in the
    order of their addresses, whose headers - a pointer and a size in units of a
    header - lie in the memory itself, starting from the static header [base].
    [sbrk] moves the end of the program's memory, up to a limit the kernel sets.
    The bounds of the searches are computed from the addresses: a block takes at
    least a header. *)
From Stdlib Require Import Sorted.
From stdpp Require Import sorting gmap.
From S2P Require Import Prelude Layout Memory.

Definition SIZEOF_HEADER : Z := 8.

Record ust := Ust { u_mem : mem; u_freep : Z; u_brk : Z; u_lim : Z }.

(** [p->s.ptr], [p->s.size] and pointer arithmetic on headers. *)
Definition hptr (p : Z) : M ust Z := gets (fun s => rd32 (u_mem s) p).
Definition hsize (p : Z) : M ust Z := gets (fun s => rd32 (u_mem s) (p + 4)).
Definition set_mem (m : mem) (s : ust) : ust := Ust m (u_freep s) (u_brk s) (u_lim s).
Definition set_ptr (p v : Z) : M ust unit := modify (fun s => set_mem (wr32 p v (u_mem s)) s).
Definition set_size (p v : Z) : M ust unit := modify (fun s => set_mem (wr32 (p + 4) v (u_mem s)) s).
Definition set_freep (p : Z) : M ust unit := modify (fun s => Ust (u_mem s) p (u_brk s) (u_lim s)).
Definition padd (p n : Z) : Z := u32 (p + SIZEOF_HEADER * n).

(** The search of [free] for the block after which [bp] belongs. *)
Fixpoint free_find (fuel : nat) (bp p : Z) : M ust Z :=
  match fuel with
  | O => spin
  | S f =>
      nx ← hptr p;
      if (p <? bp) && (bp <? nx) then mret p
      else if (nx <=? p) && ((p <? bp) || (bp <? nx)) then mret p
      else free_find f bp nx
  end.

(** Joins [bp] to the block above it, when they touch, and links it. *)
Definition merge_up (bp p : Z) : M ust unit :=
  n ← hsize bp;
  nx ← hptr p;
  if padd bp n =? nx then
    k ← hsize nx;
    set_size bp (u32 (n + k)) ;;
    nx ← hptr p;
    nn ← hptr nx;
    set_ptr bp nn
  else set_ptr bp nx.
(** The same with the block [p] below it. *)
Definition merge_down (bp p : Z) : M ust unit :=
  k ← hsize p;
  if padd p k =? bp then
    n ← hsize bp;
    set_size p (u32 (k + n)) ;;
    nx ← hptr bp;
    set_ptr p nx
  else set_ptr p bp.

Definition free (ap : Z) : M ust unit :=
  let bp := u32 (ap - SIZEOF_HEADER) in
  fuel ← gets (fun s => Z.to_nat (u_lim s / 8) + 3)%nat;
  p ← gets u_freep;
  p ← free_find fuel bp p;
  merge_up bp p ;;
  merge_down bp p ;;
  set_freep p.

(** The system call, over [growproc]: the old end of memory, or -1 beyond the limit.  Below 0 the
    new size wraps to one that is not smaller, and [deallocuvm] changes nothing; a new size of exactly
    0 frees the memory, but counts as a failure that leaves the size.  A shrunk range
    that grows again is zeroed by the kernel; here it keeps its bytes. *)
Definition sbrk (n : Z) : M ust Z := fun s =>
  let i := i32 n in
  let b := u_brk s + i in
  if 0 <=? i then
    if b <=? u_lim s then Done (u_brk s) (Ust (u_mem s) (u_freep s) b (u_lim s)) else Done (-1) s
  else if b <? 0 then Done (if u_brk s =? 0 then -1 else u_brk s) s
  else if b =? 0 then Undef "memory below the break freed"
  else Done (u_brk s) (Ust (u_mem s) (u_freep s) b (u_lim s)).

Definition morecore (nu : Z) : M ust Z :=
  let nu := if nu <? 4096 then 4096 else nu in
  p ← sbrk (u32 (nu * SIZEOF_HEADER));
  if p =? -1 then mret 0 else
  set_size p nu ;;
  free (u32 (p + SIZEOF_HEADER)) ;;
  gets u_freep.

Fixpoint malloc_loop (fuel : nat) (nunits prevp p : Z) : M ust Z :=
  match fuel with
  | O => spin
  | S f =>
      n ← hsize p;
      if nunits <=? n then
        (if n =? nunits then
           nx ← hptr p;
           set_ptr prevp nx ;;
           set_freep prevp ;;
           mret (padd p 1)
         else
           set_size p (u32 (n - nunits)) ;;
           n ← hsize p;
           set_size (padd p n) nunits ;;
           set_freep prevp ;;
           mret (padd (padd p n) 1))
      else
        fp ← gets u_freep;
        if p =? fp then
          q ← morecore nunits;
          if q =? 0 then mret 0
          else nx ← hptr q; malloc_loop f nunits q nx
        else nx ← hptr p; malloc_loop f nunits p nx
  end.

Section malloc.
Context (base : Z).
Definition malloc (nbytes : Z) : M ust Z :=
  let nunits := u32 (u32 (nbytes + SIZEOF_HEADER - 1) `div` SIZEOF_HEADER + 1) in
  fuel ← gets (fun s => 2 * Z.to_nat (u_lim s / 8) + 6)%nat;
  prevp ← gets u_freep;
  prevp ← (if prevp =? 0 then
             set_freep base ;; set_ptr base base ;; set_size base 0 ;; mret base
           else mret prevp);
  p ← hptr prevp;
  malloc_loop fuel nunits prevp p.
End malloc.
