(* ===== verification/UmallocTheorems.v ===== *)
(** * The allocator hands out disjoint blocks

    The invariant of the heap - a sorted circular list of free blocks that do not
    touch, disjoint from the blocks handed out, whose headers keep their sizes - and
    that [free] and [malloc] keep it. *)
From Stdlib Require Import Sorted.
From stdpp Require Import sorting gmap.
From S2P Require Import Prelude Layout Memory Umalloc.

(** A block: the address of its header and its size in units. *)
Abbreviation block := (Z * Z)%type.
Definition fin (x : block) : Z := x.1 + 8 * x.2.
(** Free blocks in order, not touching; the static header of size 0 comes first. *)
Definition gap (x y : block) : Prop := fin x < y.1 /\ x.1 + 8 <= y.1.
Definition apart (x y : block) : Prop := fin x <= y.1 \/ fin y <= x.1.

Definition first (L : list block) (e : Z) : Z := match L with x :: _ => x.1 | [] => e end.
(** The headers of [L] are linked in order, the last to [e]. *)
Fixpoint seg (m : mem) (L : list block) (e : Z) : Prop :=
  match L with
  | [] => True
  | x :: L' => rd32 m x.1 = first L' e /\ rd32 m (x.1 + 4) = x.2 /\ seg m L' e
  end.

Lemma first_app L1 L2 e : first (L1 ++ L2) e = first L1 (first L2 e).
Proof. by destruct L1. Qed.
Lemma seg_app m L1 L2 e : seg m (L1 ++ L2) e <-> seg m L1 (first L2 e) /\ seg m L2 e.
Proof. induction L1 as [|x L1 IH]; cbn; [tauto|]. rewrite IH, first_app. tauto. Qed.
Lemma seg_frame m m' L e :
  (forall x, x ∈ L -> rd32 m' x.1 = rd32 m x.1 /\ rd32 m' (x.1 + 4) = rd32 m (x.1 + 4)) -> seg m L e -> seg m' L e.
Proof.
  induction L as [|x L IH]; intros H; [done|]. cbn. destruct (H x ltac:(set_solver)) as [-> ->].
  intros (H1 & H2 & H3). split_and!; [done|done|]. apply IH; [|done]. intros y Hy. apply H. set_solver.
Qed.
Lemma seg_elem m L e x : seg m L e -> x ∈ L -> rd32 m (x.1 + 4) = x.2.
Proof. induction L as [|y L IH]; cbn; intros H Hx; [by apply not_elem_of_nil in Hx|]. apply elem_of_cons in Hx as [->|Hx]; naive_solver. Qed.

(** A header at [p] is written only. *)
Definition same_but (p : Z) (m m' : mem) : Prop := forall a, a < p \/ p + 8 <= a -> rd8 m' a = rd8 m a.
Lemma same_but_rd32 p m m' a : same_but p m m' -> a + 4 <= p \/ p + 8 <= a -> rd32 m' a = rd32 m a.
Proof. intros H Ha. apply rd32_ext. intros i Hi. apply H. lia. Qed.
Lemma same_but_ptr p v m : same_but p m (wr32 p v m).
Proof. intros a Ha. apply rd8_wr32_ne. lia. Qed.
Lemma same_but_size p v m : same_but p m (wr32 (p + 4) v m).
Proof. intros a Ha. apply rd8_wr32_ne. lia. Qed.
Lemma same_but_trans p m1 m2 m3 : same_but p m1 m2 -> same_but p m2 m3 -> same_but p m1 m3.
Proof. intros H1 H2 a Ha. rewrite H2, H1 by done. done. Qed.
Lemma seg_same p m m' L e : same_but p m m' -> Forall (fun x : block => x.1 + 8 <= p \/ p + 8 <= x.1) L -> seg m L e -> seg m' L e.
Proof.
  intros Hs HL. rewrite Forall_forall in HL. apply seg_frame. intros x Hx. specialize (HL x Hx).
  split; apply (same_but_rd32 p); (done || lia).
Qed.

Section heap.
Context (base : Z).
Abbreviation hd_block := (base, 0).

Record heap_ok (s : ust) (fr : list block) (A : gset block) : Prop := HeapOk {
  h_sorted : StronglySorted gap (hd_block :: fr);
  h_sizes : Forall (fun x : block => 1 <= x.2 /\ fin x <= u_brk s) fr;
  h_seg : seg (u_mem s) (hd_block :: fr) base;
  h_freep : u_freep s ∈ map fst (hd_block :: fr);
  h_alloc : forall x, x ∈ A -> 1 <= x.2 /\ base + 8 <= x.1 /\ fin x <= u_brk s /\ rd32 (u_mem s) (x.1 + 4) = x.2;
  h_free_alloc : forall x y, x ∈ A -> y ∈ fr -> apart x y;
  h_apart : forall x y, x ∈ A -> y ∈ A -> x <> y -> apart x y;
  h_brk : 0 < base /\ base + 8 <= u_brk s /\ u_brk s <= u_lim s < 2147483648 }.

Lemma sorted_base s fr A y : heap_ok s fr A -> y ∈ fr -> base + 8 <= y.1 /\ 1 <= y.2 /\ fin y <= u_brk s.
Proof.
  intros H Hy. pose proof (h_sorted _ _ _ H) as Hs. apply StronglySorted_cons in Hs as [Hs _]. rewrite Forall_forall in Hs.
  destruct (Hs y Hy) as [_ Hb]. cbn in Hb. pose proof (h_sizes _ _ _ H) as Hz. rewrite Forall_forall in Hz. destruct (Hz y Hy). done.
Qed.

(** There are no more free blocks than headers fit. *)
Lemma sorted_count fr lo hi : StronglySorted gap fr -> Forall (fun x : block => lo <= x.1 /\ x.1 + 8 <= hi) fr -> lo <= hi ->
  8 * Z.of_nat (length fr) <= hi - lo.
Proof.
  revert lo. induction fr as [|x fr IH]; intros lo Hs Hf Hlo; cbn [length]; [lia|].
  apply StronglySorted_cons in Hs as [Hx Hs]. apply Forall_cons in Hf as [[H1 H2] Hf].
  assert (Hi : Forall (fun y : block => x.1 + 8 <= y.1 /\ y.1 + 8 <= hi) fr).
  { rewrite Forall_forall in Hx, Hf |- *. intros y Hy. destruct (Hx y Hy) as [_ Hg]. specialize (Hf y Hy). cbn in *. lia. }
  specialize (IH (x.1 + 8) Hs Hi ltac:(lia)). lia.
Qed.
Lemma heap_count s fr A : heap_ok s fr A -> (length (hd_block :: fr) <= Z.to_nat (u_lim s / 8) + 1)%nat.
Proof.
  intros H. pose proof (h_brk _ _ _ H) as (Hb0 & Hb1 & Hb2). pose proof (h_sorted _ _ _ H) as Hs. apply StronglySorted_cons in Hs as [_ Hs].
  assert (Hf : Forall (fun x : block => base + 8 <= x.1 /\ x.1 + 8 <= u_brk s) fr).
  { apply Forall_forall. intros y Hy. destruct (sorted_base s fr A y H Hy) as (? & ? & ?). unfold fin in *. lia. }
  pose proof (sorted_count fr (base + 8) (u_brk s) Hs Hf ltac:(lia)). cbn [length]. zlia.
Qed.

(** ** The search of [free] *)
Lemma seg_step m L1 x L2 e : seg m (L1 ++ x :: L2) e -> rd32 m x.1 = first L2 e /\ rd32 m (x.1 + 4) = x.2.
Proof. rewrite seg_app. cbn. tauto. Qed.

Lemma hptr_at s L1 x L2 : seg (u_mem s) (L1 ++ x :: L2) base -> hptr x.1 s = Done (first L2 base) s.
Proof. intros H. apply seg_step in H as [H _]. unfold hptr, gets. by rewrite H. Qed.

Section find.
Context (s : ust) (L1 : list block) (q : block) (F2 : list block) (bp : Z).
Context (Hseg : seg (u_mem s) (L1 ++ q :: F2) base) (Hsort : StronglySorted gap (L1 ++ q :: F2)).
Context (Hmin : forall x, x ∈ L1 ++ q :: F2 -> base <= x.1) (Hq : q.1 < bp) (HF2 : Forall (fun x : block => bp < x.1) F2).

Lemma find_here fuel : free_find (S fuel) bp q.1 s = Done q.1 s.
Proof.
  cbn [free_find]. rewrite (bind_Done _ _ s (first F2 base) s (hptr_at s L1 q F2 Hseg)).
  rewrite (proj2 (Z.ltb_lt _ _) Hq). destruct F2 as [|y F]; cbn [first andb orb].
  - assert (base <= q.1) by (apply Hmin; set_solver). rewrite (proj2 (Z.ltb_ge bp base)) by lia. cbn [andb orb]. by rewrite (proj2 (Z.leb_le base q.1)).
  - apply Forall_cons in HF2 as [Hy _]. by rewrite (proj2 (Z.ltb_lt bp y.1)).
Qed.
Lemma find_left P x R fuel : L1 = P ++ x :: R -> (length R + 1 < fuel)%nat -> free_find fuel bp x.1 s = Done q.1 s.
Proof.
  revert P x fuel. induction R as [|y R IH]; intros P x fuel HL Hf; (destruct fuel as [|fuel]; [lia|]); cbn [free_find];
    pose proof Hseg as Hs; rewrite HL, <- app_assoc in Hs; cbn [app] in Hs; rewrite (bind_Done _ _ s _ s (hptr_at s P x _ Hs)); cbn [first app].
  - pose proof Hsort as Ho. rewrite HL, <- app_assoc in Ho. apply StronglySorted_app in Ho as (_ & _ & Ho). apply StronglySorted_cons in Ho as [Ho _].
    apply Forall_cons in Ho as [[_ Hg] _]. rewrite (proj2 (Z.ltb_ge bp q.1)), andb_false_r by lia.
    rewrite (proj2 (Z.leb_gt q.1 x.1)) by lia. destruct fuel as [|fuel]; [cbn in Hf; lia|]. apply find_here.
  - pose proof Hsort as Ho. rewrite HL, <- app_assoc in Ho. apply StronglySorted_app in Ho as (_ & _ & Ho). apply StronglySorted_cons in Ho as [Ho Ho2].
    apply Forall_cons in Ho as [[_ Hg] _]. cbn [app] in Ho2. apply StronglySorted_cons in Ho2 as [Ho2 _].
    assert (Hyq : y.1 < q.1) by (rewrite Forall_forall in Ho2; destruct (Ho2 q ltac:(set_solver)); lia).
    rewrite (proj2 (Z.ltb_ge bp y.1)), andb_false_r by lia. rewrite (proj2 (Z.leb_gt y.1 x.1)) by lia. cbn [andb].
    apply (IH (P ++ [x]) y fuel); [by rewrite HL, <- app_assoc|cbn in Hf; lia].
Qed.
Lemma find_right F x R fuel : F2 = F ++ x :: R -> (exists n T, L1 ++ q :: F2 = (base, n) :: T) ->
  (length R + length L1 + 2 < fuel)%nat -> free_find fuel bp x.1 s = Done q.1 s.
Proof.
  intros HF Hhd. revert F x fuel HF. induction R as [|y R IH]; intros F x fuel HF Hf; (destruct fuel as [|fuel]; [lia|]); cbn [free_find];
    pose proof Hseg as Hs; rewrite HF in Hs;
    rewrite app_comm_cons, app_assoc in Hs;
    rewrite (bind_Done _ _ s _ s (hptr_at s _ x _ Hs)); cbn [first];
    (assert (Hx : bp < x.1) by (rewrite HF in HF2; rewrite Forall_forall in HF2; apply HF2; set_solver));
    rewrite (proj2 (Z.ltb_ge x.1 bp)) by lia; cbn [andb orb].
  - assert (Hb : base <= q.1) by (apply Hmin; set_solver). rewrite (proj2 (Z.ltb_ge bp base)), andb_false_r by lia.
    destruct Hhd as (n & T & Hhd). assert (Hc : L1 = [] \/ exists z Z0, L1 = z :: Z0) by (destruct L1; eauto). destruct Hc as [Hc|(z & Z0 & Hc)].
    + rewrite Hc in Hhd. injection Hhd as Hqe _. replace base with q.1 by (by rewrite Hqe). destruct fuel as [|fuel]; [cbn in Hf; lia|]. apply find_here.
    + pose proof Hhd as Hz. rewrite Hc in Hz. injection Hz as Hz _. replace base with z.1 by (by rewrite Hz).
      apply (find_left [] z Z0); [done|rewrite Hc in Hf; cbn in *; lia].
  - pose proof Hsort as Ho. rewrite HF in Ho. apply StronglySorted_app in Ho as (_ & _ & Ho). apply StronglySorted_cons in Ho as [_ Ho].
    apply StronglySorted_app in Ho as (_ & _ & Ho). apply StronglySorted_cons in Ho as [Ho _]. apply Forall_cons in Ho as [[_ Hg] _].
    rewrite (proj2 (Z.leb_gt y.1 x.1)) by lia. cbn [andb].
    apply (IH (F ++ [x]) y fuel); [by rewrite HF, <- app_assoc|cbn in Hf; lia].
Qed.

(** From any block of the list the search reaches the last one below [bp]. *)
Lemma find_ok p fuel : (exists n T, L1 ++ q :: F2 = (base, n) :: T) -> p ∈ map fst (L1 ++ q :: F2) ->
  (length (L1 ++ q :: F2) + 1 < fuel)%nat -> free_find fuel bp p s = Done q.1 s.
Proof.
  intros Hhd Hp Hf. apply list_elem_of_In, in_map_iff in Hp as (x & <- & Hx). apply list_elem_of_In in Hx.
  rewrite length_app in Hf. cbn [length] in Hf. apply elem_of_app in Hx as [Hx|Hx].
  - apply list_elem_of_split in Hx as (P & R & HL). apply (find_left P x R); [done|]. rewrite HL, length_app in Hf. cbn in Hf. lia.
  - apply elem_of_cons in Hx as [->|Hx]; [destruct fuel; [lia|apply find_here]|].
    apply list_elem_of_split in Hx as (P & R & HF). apply (find_right P x R); [done|done|]. rewrite HF, length_app in Hf. cbn in Hf. lia.
Qed.
End find.

(** ** Joining blocks *)
Lemma hsize_val p s : hsize p s = Done (rd32 (u_mem s) (p + 4)) s.
Proof. done. Qed.
Lemma hptr_val p s : hptr p s = Done (rd32 (u_mem s) p) s.
Proof. done. Qed.
Lemma padd_small p n : 0 <= p + 8 * n < 4294967296 -> padd p n = p + 8 * n.
Proof. intros. unfold padd, SIZEOF_HEADER. by apply u32_small. Qed.
Lemma u32_rd32 m a : u32 (rd32 m a) = rd32 m a.
Proof. apply u32_small, rd32_range. Qed.

Lemma merge_up_ok s L1 q F2 x :
  seg (u_mem s) (L1 ++ q :: F2) base -> rd32 (u_mem s) (x.1 + 4) = x.2 -> 0 < base -> base < x.1 -> fin x < 2147483648 -> 1 <= x.2 ->
  q.1 + 8 <= x.1 -> Forall (fun y : block => x.1 + 8 <= y.1 /\ fin y < 2147483648 /\ 1 <= y.2) F2 ->
  exists m1 B R, merge_up x.1 q.1 s = Done tt (set_mem m1 s) /\ same_but x.1 (u_mem s) m1 /\ rd32 m1 x.1 = first R base /\
    rd32 m1 (x.1 + 4) = B.2 /\ B.1 = x.1 /\ (B = x /\ R = F2 /\ fin x <> first F2 base \/ exists y, F2 = y :: R /\ fin x = y.1 /\ B = (x.1, x.2 + y.2)).
Proof.
  intros Hseg Hx Hb Hbx Hfx Hx1 Hq HF. destruct x as [a n]. unfold fin in *. cbn [fst snd] in *.
  pose proof (hptr_at s L1 q F2 Hseg) as Hnx. assert (Hnv : rd32 (u_mem s) q.1 = first F2 base) by (apply seg_step in Hseg; tauto).
  assert (Hpadd : padd a n = a + 8 * n) by (apply padd_small; lia).
  unfold merge_up. rewrite (bind_Done _ _ s n s); [|by rewrite hsize_val, Hx]. rewrite (bind_Done _ _ s _ s Hnx), Hpadd.
  destruct (Z.eqb_spec (a + 8 * n) (first F2 base)) as [E|E].
  - destruct F2 as [|y F3]; [cbn in E; lia|]. cbn [first] in *. apply Forall_cons in HF as [(Hy1 & Hy2 & Hy3) HF].
    replace (L1 ++ (q :: y :: F3)) with ((L1 ++ [q]) ++ y :: F3) in Hseg by (by rewrite <- app_assoc).
    pose proof (seg_step _ _ _ _ _ Hseg) as [Hyp Hys].
    rewrite (bind_Done _ _ s y.2 s); [|by rewrite hsize_val, Hys]. set (m' := wr32 (a + 4) (u32 (n + y.2)) (u_mem s)).
    rewrite (bind_Done _ _ s tt (set_mem m' s)) by done.
    rewrite (bind_Done _ _ (set_mem m' s) y.1 (set_mem m' s)); [|rewrite hptr_val; cbn; unfold m'; by rewrite rd32_wr32_ne, Hnv by lia].
    rewrite (bind_Done _ _ (set_mem m' s) (first F3 base) (set_mem m' s)); [|rewrite hptr_val; cbn; unfold m'; by rewrite rd32_wr32_ne, Hyp by lia].
    exists (wr32 a (first F3 base) m'), (a, n + y.2), F3. cbn [fst snd]. split_and!.
    + done.
    + eapply same_but_trans; [apply same_but_size|apply same_but_ptr].
    + rewrite rd32_wr32_eq, <- Hyp. apply u32_rd32.
    + rewrite rd32_wr32_ne by lia. unfold m'. rewrite rd32_wr32_eq. rewrite u32_idemp. apply u32_small. unfold fin in *. lia.
    + done.
    + right. by exists y.
  - exists (wr32 a (first F2 base) (u_mem s)), (a, n), F2. cbn [fst snd]. split_and!; [done|apply same_but_ptr| | |done|left; by split_and!].
    + rewrite rd32_wr32_eq, <- Hnv. apply u32_rd32.
    + by rewrite rd32_wr32_ne by lia.
Qed.

Lemma merge_down_ok s q B R :
  rd32 (u_mem s) (q.1 + 4) = q.2 -> rd32 (u_mem s) B.1 = first R base -> rd32 (u_mem s) (B.1 + 4) = B.2 ->
  0 < q.1 -> 0 <= q.2 -> q.1 + 8 <= B.1 -> fin q <= B.1 -> 1 <= B.2 -> fin B < 2147483648 ->
  exists m2, merge_down B.1 q.1 s = Done tt (set_mem m2 s) /\ same_but q.1 (u_mem s) m2 /\
    (fin q = B.1 /\ rd32 m2 q.1 = first R base /\ rd32 m2 (q.1 + 4) = q.2 + B.2 \/
     fin q <> B.1 /\ rd32 m2 q.1 = B.1 /\ rd32 m2 (q.1 + 4) = q.2).
Proof.
  intros Hq HBp HBs Hq0 Hq2 Hle Hfin HB2 HfB. unfold fin in *. assert (Hpadd : padd q.1 q.2 = q.1 + 8 * q.2) by (apply padd_small; lia).
  unfold merge_down. rewrite (bind_Done _ _ s q.2 s); [|by rewrite hsize_val, Hq]. rewrite Hpadd.
  destruct (Z.eqb_spec (q.1 + 8 * q.2) B.1) as [E|E].
  - rewrite (bind_Done _ _ s B.2 s); [|by rewrite hsize_val, HBs]. set (m' := wr32 (q.1 + 4) (u32 (q.2 + B.2)) (u_mem s)).
    rewrite (bind_Done _ _ s tt (set_mem m' s)) by done.
    rewrite (bind_Done _ _ (set_mem m' s) (first R base) (set_mem m' s)); [|rewrite hptr_val; cbn; unfold m'; by rewrite rd32_wr32_ne, HBp by lia].
    exists (wr32 q.1 (first R base) m'). split; [done|]. split; [eapply same_but_trans; [apply same_but_size|apply same_but_ptr]|]. left. split_and!; [done| |].
    + rewrite rd32_wr32_eq, <- HBp. apply u32_rd32.
    + rewrite rd32_wr32_ne by lia. unfold m'. rewrite rd32_wr32_eq, u32_idemp. apply u32_small. lia.
  - exists (wr32 q.1 B.1 (u_mem s)). split; [done|]. split; [apply same_but_ptr|]. right. split_and!; [done| |].
    + rewrite rd32_wr32_eq. apply u32_small. lia.
    + by rewrite rd32_wr32_ne by lia.
Qed.

Lemma apart_join (y b c : block) k : 1 <= y.2 -> fin b = c.1 -> apart y b -> apart y c -> k = b.2 + c.2 -> apart y (b.1, k).
Proof. unfold apart, fin. cbn. intros. lia. Qed.

(** What [merge_up] makes of a block put after [q]: a block that does not touch the
    rest, with the room of the block at least. *)
Definition joined (x : block) (F2 : list block) (B : block) (R : list block) : Prop :=
  B = x /\ R = F2 /\ fin x <> first F2 base \/ exists y, F2 = y :: R /\ fin x = y.1 /\ B = (x.1, x.2 + y.2).

Lemma joined_sorted x F2 B R : joined x F2 B R -> StronglySorted gap F2 -> Forall (fun y : block => fin x <= y.1 /\ 1 <= y.2) F2 -> 1 <= x.2 ->
  Forall (gap B) R /\ StronglySorted gap R /\ 1 <= B.2 /\ x.2 <= B.2 /\ B.1 = x.1 /\ incl R F2.
Proof.
  intros [(-> & -> & Hne)|(y & -> & Hf & ->)] Hs HF Hx.
  - split_and!; try done; [|apply incl_refl]. apply Forall_forall. intros z Hz. destruct F2 as [|y F3]; [by apply not_elem_of_nil in Hz|].
    cbn in Hne. apply Forall_cons in HF as [[Hy1 Hy2] HF]. apply StronglySorted_cons in Hs as [Hg _]. rewrite Forall_forall in Hg.
    apply elem_of_cons in Hz as [->|Hz]; [unfold gap, fin in *; lia|]. destruct (Hg z Hz). unfold gap, fin in *. lia.
  - apply StronglySorted_cons in Hs as [Hg Hs]. apply Forall_cons in HF as [[Hy1 Hy2] HF]. split_and!; cbn; try done; try lia.
    + rewrite Forall_forall in Hg |- *. intros z Hz. destruct (Hg z Hz). unfold gap, fin in *. cbn. lia.
    + intros z Hz. by right.
Qed.

(** The list after [merge_down]. *)
Definition placed (L1 : list block) (q B : block) (R : list block) : list block :=
  if decide (fin q = B.1) then L1 ++ (q.1, q.2 + B.2) :: R else L1 ++ q :: B :: R.

Lemma placed_sorted L1 q F2 B R : StronglySorted gap (L1 ++ q :: F2) -> Forall (gap B) R -> StronglySorted gap R -> incl R F2 ->
  q.1 + 8 <= B.1 -> fin q <= B.1 -> 1 <= B.2 -> StronglySorted gap (placed L1 q B R).
Proof.
  intros Hs HB HR Hinc Hq Hf HB2. apply StronglySorted_app in Hs as (H1 & H2 & H3). apply StronglySorted_cons in H3 as [H3 _].
  assert (Hz : forall z, z ∈ R -> gap B z) by by apply Forall_forall.
  assert (HqR : forall z, z ∈ R -> gap q z).
  { intros z Hzr. rewrite Forall_forall in H3. apply H3, list_elem_of_In, Hinc. by apply list_elem_of_In. }
  unfold placed. case_decide as Hd; apply StronglySorted_app; (split; [|split; [done|]]).
  - intros y z Hy Hzr. apply elem_of_cons in Hzr as [->|Hzr].
    + destruct (H1 y q Hy ltac:(set_solver)). split; done.
    + apply H1; [done|]. right. apply list_elem_of_In, Hinc. by apply list_elem_of_In.
  - apply StronglySorted_cons. split; [|done]. apply Forall_forall. intros z Hzr. destruct (Hz z Hzr). destruct (HqR z Hzr). unfold gap, fin in *. cbn. lia.
  - intros y z Hy Hzr. destruct (H1 y q Hy ltac:(set_solver)) as [G1 G2]. apply elem_of_cons in Hzr as [->|Hzr]; [done|].
    apply elem_of_cons in Hzr as [->|Hzr]; [unfold gap, fin in *; lia|]. apply H1; [done|]. right. apply list_elem_of_In, Hinc. by apply list_elem_of_In.
  - apply StronglySorted_cons. split; [|by apply StronglySorted_cons]. apply Forall_cons. split; [unfold gap; lia|]. by apply Forall_forall.
Qed.

Lemma tail_fr L1 (q : block) F2 fr : hd_block :: fr = L1 ++ q :: F2 ->
  (q = hd_block /\ L1 = [] /\ fr = F2) \/ (exists T, L1 = hd_block :: T /\ q ∈ fr /\ fr = T ++ q :: F2).
Proof.
  destruct L1 as [|z T]; cbn; intros [= <- ->]; [by left|right]. exists T. split; [done|]. split; [set_solver|done].
Qed.

Lemma in_mid (q : block) (L1 F2 : list block) : q ∈ L1 ++ q :: F2.
Proof. apply elem_of_app. right. apply elem_of_cons. by left. Qed.
Lemma in_left (q y : block) (L1 F2 : list block) : y ∈ L1 -> y ∈ L1 ++ q :: F2.
Proof. intros Hy. apply elem_of_app. by left. Qed.
Lemma in_right (q y : block) (L1 F2 : list block) : y ∈ F2 -> y ∈ L1 ++ q :: F2.
Proof. intros Hy. apply elem_of_app. right. apply elem_of_cons. by right. Qed.

(** Where the block [x] belongs in the list: after [q], before [F2]. *)
Record spot (s : ust) (fr : list block) (A : gset block) (x : block) (L1 : list block) (q : block) (F2 : list block) : Prop := Spot {
  sp_list : hd_block :: fr = L1 ++ q :: F2;
  sp_tail : forall y, y ∈ F2 -> y ∈ fr /\ fin x <= y.1 /\ 1 <= y.2 /\ fin y <= u_brk s;
  sp_left : forall y, y ∈ L1 \/ y = q -> base + 8 <= y.1 -> y ∈ fr;
  sp_q : q = hd_block \/ q ∈ fr;
  sp_q_lo : base <= q.1 /\ 0 <= q.2;
  sp_q_hi : q.1 + 8 <= x.1 /\ fin q <= x.1 }.

Lemma spot_exists s fr A x : heap_ok s fr A -> x ∈ A -> exists L1 q F2, spot s fr A x L1 q F2.
Proof.
  intros H Hx. destruct (h_alloc _ _ _ H x Hx) as (Hx1 & Hx2 & Hx3 & _). pose proof (h_free_alloc _ _ _ H) as Hfa.
  destruct (list_last_split (fun y : block => y.1 < x.1) (hd_block :: fr)) as (L1 & q & F2 & HL & Hq & HF2);
    [exists hd_block; split; [apply elem_of_cons; by left|cbn; lia]|].
  assert (HF2fr : forall y, y ∈ F2 -> y ∈ fr).
  { intros y Hy. destruct (tail_fr _ _ _ _ HL) as [(_ & _ & ->)|(T & _ & _ & ->)]; [done|by apply in_right]. }
  exists L1, q, F2. split; [done|..].
  - intros y Hy. specialize (HF2 y Hy). destruct (sorted_base s fr A y H (HF2fr y Hy)) as (? & ? & ?).
    destruct (Hfa x y Hx (HF2fr y Hy)); unfold fin in *; split_and!; (lia || by apply HF2fr).
  - intros z Hz Hzb. destruct (tail_fr _ _ _ _ HL) as [(-> & -> & _)|(T & -> & Hqfr & ->)].
    + destruct Hz as [Hz| ->]; [by apply not_elem_of_nil in Hz|cbn in Hzb; lia].
    + destruct Hz as [Hz| ->]; [|done]. apply elem_of_cons in Hz as [->|Hz]; [cbn in Hzb; lia|by apply in_left].
  - destruct (tail_fr _ _ _ _ HL) as [(-> & _)|(T & _ & Hqfr & _)]; [by left|by right].
  - destruct (tail_fr _ _ _ _ HL) as [(-> & _)|(T & _ & Hqfr & _)]; [cbn; lia|]. destruct (sorted_base s fr A q H Hqfr) as (? & ? & ?). lia.
  - destruct (tail_fr _ _ _ _ HL) as [(-> & _)|(T & _ & Hqfr & _)]; [unfold fin; cbn; lia|].
    destruct (sorted_base s fr A q H Hqfr) as (? & ? & ?). destruct (Hfa x q Hx Hqfr); unfold fin in *; lia.
Qed.

Section free_at.
Context (s : ust) (fr : list block) (A : gset block) (x : block) (L1 : list block) (q : block) (F2 : list block).
Context (H : heap_ok s fr A) (Hx : x ∈ A) (Hsp : spot s fr A x L1 q F2).

Lemma spot_seg : seg (u_mem s) (L1 ++ q :: F2) base /\ StronglySorted gap (L1 ++ q :: F2).
Proof. rewrite <- (sp_list _ _ _ _ _ _ _ Hsp). split; apply H. Qed.
Lemma spot_order : (forall y, y ∈ L1 -> gap y q) /\ StronglySorted gap F2.
Proof.
  destruct spot_seg as [_ Hs]. apply StronglySorted_app in Hs as (Hl & _ & Hs). apply StronglySorted_cons in Hs as [_ Hs].
  split; [|done]. intros y Hy. apply Hl; [done|apply elem_of_cons; by left].
Qed.

Lemma spot_find : free_find (Z.to_nat (u_lim s / 8) + 3) x.1 (u_freep s) s = Done q.1 s.
Proof.
  pose proof (heap_count s fr A H) as Hcnt. pose proof (h_freep _ _ _ H) as Hfp. destruct (sp_q_hi _ _ _ _ _ _ _ Hsp).
  rewrite (sp_list _ _ _ _ _ _ _ Hsp) in Hcnt, Hfp. destruct spot_seg. apply (find_ok s L1 q F2); [done|done| |lia| | |done|lia].
  - intros y Hy. rewrite <- (sp_list _ _ _ _ _ _ _ Hsp) in Hy. apply elem_of_cons in Hy as [->|Hy]; [cbn; lia|]. destruct (sorted_base s fr A y H Hy). lia.
  - apply Forall_forall. intros y Hy. destruct (sp_tail _ _ _ _ _ _ _ Hsp y Hy) as (_ & ? & _).
    destruct (h_alloc _ _ _ H x Hx) as (? & _). unfold fin in *. lia.
  - rewrite <- (sp_list _ _ _ _ _ _ _ Hsp). eauto.
Qed.

(** What [free] leaves: [m1] after the block's header, [m2] after the header of [q]. *)
Record freed (m1 m2 : mem) (B : block) (R : list block) : Prop := Freed {
  f_same1 : same_but x.1 (u_mem s) m1;
  f_same2 : same_but q.1 m1 m2;
  f_joined : joined x F2 B R;
  f_B : rd32 m1 x.1 = first R base /\ rd32 m1 (x.1 + 4) = B.2;
  f_fin : fin B <= u_brk s;
  f_q : fin q = B.1 /\ rd32 m2 q.1 = first R base /\ rd32 m2 (q.1 + 4) = q.2 + B.2 \/
        fin q <> B.1 /\ rd32 m2 q.1 = B.1 /\ rd32 m2 (q.1 + 4) = q.2 }.

Lemma joined_spot B R : joined x F2 B R ->
  Forall (gap B) R /\ StronglySorted gap R /\ 1 <= B.2 /\ x.2 <= B.2 /\ B.1 = x.1 /\ incl R F2 /\ fin B <= u_brk s.
Proof.
  intros Hj. destruct (h_alloc _ _ _ H x Hx) as (Hx1 & _ & Hx3 & _). destruct spot_order as [_ Hs].
  destruct (joined_sorted x F2 B R Hj Hs) as (? & ? & ? & ? & ? & ?); [|done|split_and!; try done].
  - apply Forall_forall. intros y Hy. by destruct (sp_tail _ _ _ _ _ _ _ Hsp y Hy) as (_ & ? & ? & _).
  - destruct Hj as [(-> & _)|(y & -> & Hfy & ->)]; [done|].
    destruct (sp_tail _ _ _ _ _ _ _ Hsp y ltac:(apply elem_of_cons; by left)) as (_ & ? & ? & ?). unfold fin in *. cbn. lia.
Qed.

Lemma free_run : exists m1 m2 B R, free (x.1 + 8) s = Done tt (Ust m2 q.1 (u_brk s) (u_lim s)) /\ freed m1 m2 B R.
Proof.
  destruct (h_alloc _ _ _ H x Hx) as (Hx1 & Hx2 & Hx3 & Hx4). destruct (h_brk _ _ _ H) as (Hb0 & Hb1 & Hb2). destruct spot_seg as [Hseg _].
  destruct (sp_q_hi _ _ _ _ _ _ _ Hsp) as [Hq8 Hqf]. destruct (sp_q_lo _ _ _ _ _ _ _ Hsp) as [Hqb Hq2].
  destruct (merge_up_ok s L1 q F2 x Hseg Hx4 Hb0 ltac:(lia) ltac:(lia) Hx1 Hq8) as (m1 & B & R & Hup & Hsame1 & HB1 & HB2 & HB3 & Hj).
  { apply Forall_forall. intros y Hy. destruct (sp_tail _ _ _ _ _ _ _ Hsp y Hy) as (_ & ? & ? & ?). unfold fin in *. lia. }
  destruct (joined_spot B R Hj) as (_ & _ & HB21 & HxB & _ & _ & HBfin).
  assert (Hqs : rd32 m1 (q.1 + 4) = q.2) by (rewrite (same_but_rd32 x.1 _ m1) by (done || lia); by apply seg_step in Hseg as [_ ?]).
  destruct (merge_down_ok (set_mem m1 s) q B R Hqs ltac:(by rewrite HB3) ltac:(by rewrite HB3)) as (m2 & Hdown & Hsame2 & Hcase);
    [lia|lia|lia|lia|lia|lia|].
  exists m1, m2, B, R. split; [|by split].
  unfold free, SIZEOF_HEADER. replace (u32 (x.1 + 8 - 8)) with x.1 by (rewrite u32_small; unfold fin in *; lia).
  unfold gets. unfold mbind, M_bind. rewrite spot_find, Hup. rewrite HB3 in Hdown. rewrite Hdown. done.
Qed.

Section after.
Context (m1 m2 : mem) (B : block) (R : list block) (Hf : freed m1 m2 B R).

Lemma R_in z : z ∈ R -> z ∈ F2.
Proof. destruct (joined_spot B R (f_joined _ _ _ _ Hf)) as (_ & _ & _ & _ & _ & Hi & _). intros Hz. apply list_elem_of_In, Hi. by apply list_elem_of_In. Qed.

Lemma freed_sorted : StronglySorted gap (placed L1 q B R).
Proof.
  destruct (joined_spot B R (f_joined _ _ _ _ Hf)) as (? & ? & ? & ? & HB & ? & ?). destruct (sp_q_hi _ _ _ _ _ _ _ Hsp). destruct spot_seg.
  apply (placed_sorted L1 q F2); (done || (rewrite HB; lia)).
Qed.

Lemma freed_seg : seg m2 (placed L1 q B R) base.
Proof.
  destruct spot_seg as [Hseg _]. destruct spot_order as [HsL _]. destruct (sp_q_hi _ _ _ _ _ _ _ Hsp) as [Hq8 _].
  destruct (h_alloc _ _ _ H x Hx) as (Hx1 & _).
  destruct (joined_spot B R (f_joined _ _ _ _ Hf)) as (_ & _ & _ & _ & HB3 & _). apply seg_app in Hseg as [HS1 HS2]. cbn [first] in HS1.
  assert (Hkeep : forall L e, (forall y, y ∈ L -> y.1 + 8 <= q.1 \/ x.1 + 8 <= y.1) -> seg (u_mem s) L e -> seg m2 L e).
  { intros L e HL HS. apply (seg_same q.1 m1); [apply Hf| |apply (seg_same x.1 (u_mem s)); [apply Hf| |done]];
      apply Forall_forall; intros y Hy; destruct (HL y Hy); lia. }
  assert (HL1 : seg m2 L1 q.1) by (apply Hkeep; [intros y Hy; destruct (HsL y Hy); lia|done]).
  assert (HRm : seg m2 R base).
  { apply Hkeep.
    - intros z Hz. destruct (sp_tail _ _ _ _ _ _ _ Hsp z (R_in z Hz)) as (_ & ? & _). unfold fin in *. lia.
    - destruct HS2 as (_ & _ & HS2). destruct (f_joined _ _ _ _ Hf) as [(_ & -> & _)|(y & Hy & _)]; [done|]. rewrite Hy in HS2. apply HS2. }
  assert (HBm : rd32 m2 B.1 = first R base /\ rd32 m2 (B.1 + 4) = B.2).
  { rewrite HB3. rewrite !(same_but_rd32 q.1 m1 m2) by (apply Hf || lia). apply Hf. }
  unfold placed. destruct (f_q _ _ _ _ Hf) as [(Hd & Hqp & Hqz)|(Hd & Hqp & Hqz)].
  - rewrite decide_True by done. apply seg_app. cbn [first seg fst snd]. by split_and!.
  - rewrite decide_False by done. apply seg_app. cbn [first seg fst snd]. destruct HBm. by split_and!.
Qed.

(** The blocks of the new list are free blocks of the old one, or hold the block freed. *)
Lemma freed_blocks z : z ∈ placed L1 q B R -> base + 8 <= z.1 ->
  1 <= z.2 /\ fin z <= u_brk s /\ forall y, y ∈ A -> y <> x -> apart y z.
Proof.
  intros Hz1 Hz2. pose proof (h_free_alloc _ _ _ H) as Hfa. pose proof (h_apart _ _ _ H) as Hap. pose proof (sp_left _ _ _ _ _ _ _ Hsp) as HinL.
  assert (Hold : z ∈ fr -> 1 <= z.2 /\ fin z <= u_brk s /\ forall y, y ∈ A -> y <> x -> apart y z).
  { intros Hzf. destruct (sorted_base s fr A z H Hzf) as (? & ? & ?). split_and!; [done|done|]. intros y Hy _. by apply Hfa. }
  destruct (joined_spot B R (f_joined _ _ _ _ Hf)) as (_ & _ & HB2 & _ & HB1 & _ & HBf).
  assert (HBap : forall y, y ∈ A -> y <> x -> apart y B).
  { intros y Hy Hne. destruct (f_joined _ _ _ _ Hf) as [(-> & _)|(y2 & HF2 & Hfy & ->)]; [by apply Hap|]. destruct (h_alloc _ _ _ H y Hy) as (? & _).
    apply (apart_join y x y2); [lia|done|by apply Hap| |done]. apply Hfa; [done|].
    apply (sp_tail _ _ _ _ _ _ _ Hsp). rewrite HF2. apply elem_of_cons. by left. }
  assert (HR : z ∈ R -> z ∈ fr) by (intros Hz; apply (sp_tail _ _ _ _ _ _ _ Hsp), R_in, Hz).
  unfold placed in Hz1. destruct (decide (fin q = B.1)) as [Hd|Hd]; apply elem_of_app in Hz1 as [Hz1|Hz1];
    try (apply Hold, HinL; [by left|done]); apply elem_of_cons in Hz1 as [->|Hz1].
  - assert (Hqfr : q ∈ fr) by (apply HinL; [by right|done]). destruct (sorted_base s fr A q H Hqfr) as (? & ? & ?). cbn [fst snd] in *.
    split_and!; [lia|unfold fin in *; cbn; lia|]. intros y Hy Hne. destruct (h_alloc _ _ _ H y Hy) as (? & _).
    apply (apart_join y q B); [lia|done|by apply Hfa|by apply HBap|done].
  - by apply Hold, HR.
  - apply Hold, HinL; [by right|done].
  - apply elem_of_cons in Hz1 as [->|Hz1]; [split_and!; (lia || done)|]. by apply Hold, HR.
Qed.

Lemma freed_room : exists y, y ∈ placed L1 q B R /\ x.2 <= y.2 /\ base + 8 <= y.1.
Proof.
  destruct (joined_spot B R (f_joined _ _ _ _ Hf)) as (_ & _ & _ & HxB & HB1 & _). destruct (sp_q_lo _ _ _ _ _ _ _ Hsp) as [Hqb Hq2].
  destruct (sp_q_hi _ _ _ _ _ _ _ Hsp) as [Hq8 _]. unfold placed. destruct (decide (fin q = B.1)) as [Hd|Hd].
  - exists (q.1, q.2 + B.2). cbn. split; [apply in_mid|]. split; [lia|].
    destruct (sp_q _ _ _ _ _ _ _ Hsp) as [->|Hqfr]; [unfold fin in Hd; cbn in *; lia|by destruct (sorted_base s fr A q H Hqfr)].
  - exists B. split; [apply in_right, elem_of_cons; by left|]. lia.
Qed.

Lemma freed_head : exists fr', placed L1 q B R = hd_block :: fr' /\ q.1 ∈ map fst (hd_block :: fr').
Proof.
  assert (Hq : q.1 ∈ map fst (placed L1 q B R)).
  { unfold placed. destruct (decide (fin q = B.1)); rewrite map_app; apply elem_of_app; right; apply elem_of_cons; by left. }
  assert (Hp : exists fr', placed L1 q B R = hd_block :: fr').
  { destruct (joined_spot B R (f_joined _ _ _ _ Hf)) as (_ & _ & _ & _ & HB1 & _). destruct (sp_q_hi _ _ _ _ _ _ _ Hsp).
    unfold placed. destruct (tail_fr _ _ _ _ (sp_list _ _ _ _ _ _ _ Hsp)) as [(-> & -> & _)|(T & -> & _)].
    - rewrite decide_False by (unfold fin; cbn in *; lia). cbn. eauto.
    - destruct (decide (fin q = B.1)); cbn; eauto. }
  destruct Hp as [fr' Hp]. exists fr'. by rewrite <- Hp.
Qed.

(** The sizes of the blocks in use stay. *)
Lemma freed_sizes y : y ∈ A -> y <> x -> rd32 m2 (y.1 + 4) = rd32 (u_mem s) (y.1 + 4).
Proof.
  intros Hy Hne. destruct (h_alloc _ _ _ H y Hy) as (? & ? & _). destruct (h_alloc _ _ _ H x Hx) as (? & _).
  assert (Hx8 : y.1 + 8 <= x.1 \/ x.1 + 8 <= y.1) by (destruct (h_apart _ _ _ H y x Hy Hx Hne); unfold fin in *; lia).
  assert (Hq8 : y.1 + 8 <= q.1 \/ q.1 + 8 <= y.1).
  { destruct (sp_q _ _ _ _ _ _ _ Hsp) as [->|Hqfr]; [cbn; lia|]. destruct (sorted_base s fr A q H Hqfr) as (? & ? & ?).
    destruct (h_free_alloc _ _ _ H y q Hy Hqfr); unfold fin in *; lia. }
  rewrite (same_but_rd32 q.1 m1 m2) by (apply Hf || lia). apply (same_but_rd32 x.1); [apply Hf|lia].
Qed.
End after.
End free_at.

(** [free] of a block in use: the heap is well formed without it, some free block has
    its room, and only headers of free blocks and of the block itself were written. *)
Lemma free_heap s fr A x : heap_ok s fr A -> x ∈ A ->
  exists s' fr', free (x.1 + 8) s = Done tt s' /\ heap_ok s' fr' (A ∖ {[x]}) /\ u_brk s' = u_brk s /\ u_lim s' = u_lim s /\
    (exists y, y ∈ fr' /\ x.2 <= y.2) /\
    (forall a, (forall y, y ∈ hd_block :: x :: fr -> a < y.1 \/ y.1 + 8 <= a) -> rd8 (u_mem s') a = rd8 (u_mem s) a).
Proof.
  intros H Hx. destruct (spot_exists s fr A x H Hx) as (L1 & q & F2 & Hsp).
  destruct (free_run s fr A x L1 q F2 H Hx Hsp) as (m1 & m2 & B & R & Hrun & Hf).
  destruct (freed_head s fr A x L1 q F2 H Hx Hsp m1 m2 B R Hf) as (fr' & Hpl & Hq).
  pose proof (freed_sorted s fr A x L1 q F2 H Hx Hsp m1 m2 B R Hf) as Hs. rewrite Hpl in Hs.
  pose proof (freed_seg s fr A x L1 q F2 H Hx Hsp m1 m2 B R Hf) as Hseg. rewrite Hpl in Hseg.
  assert (Hgood : forall z : block, z ∈ fr' -> 1 <= z.2 /\ fin z <= u_brk s /\ forall y, y ∈ A -> y <> x -> apart y z).
  { intros z Hz. apply (freed_blocks s fr A x L1 q F2 H Hx Hsp m1 m2 B R Hf); [rewrite Hpl; apply elem_of_cons; by right|].
    apply StronglySorted_cons in Hs as [Hs _]. rewrite Forall_forall in Hs. destruct (Hs z Hz) as [_ Hg]. cbn in Hg. lia. }
  exists (Ust m2 q.1 (u_brk s) (u_lim s)), fr'. split; [exact Hrun|]. split; [|split_and!; [done|done| |]].
  - split; cbn [u_mem u_freep u_brk u_lim]; [done| |done|done| | | |apply H].
    + apply Forall_forall. intros z Hz. by destruct (Hgood z Hz) as (? & ? & _).
    + intros y Hy. apply elem_of_difference in Hy as [Hy Hyx]. rewrite elem_of_singleton in Hyx.
      rewrite (freed_sizes s fr A x L1 q F2 H Hx Hsp m1 m2 B R Hf y Hy Hyx). by apply (h_alloc _ _ _ H).
    + intros y z Hy Hz. apply elem_of_difference in Hy as [Hy Hyx]. rewrite elem_of_singleton in Hyx. by apply (Hgood z Hz).
    + intros y z Hy Hz Hne. apply elem_of_difference in Hy as [Hy _], Hz as [Hz _]. by apply (h_apart _ _ _ H).
  - destruct (freed_room s fr A x L1 q F2 H Hx Hsp m1 m2 B R Hf) as (y & Hy & Hy2 & Hyb). exists y. split; [|done].
    rewrite Hpl in Hy. apply elem_of_cons in Hy as [->|Hy]; [cbn in Hyb; lia|done].
  - intros a Ha. cbn [u_mem]. rewrite (f_same2 _ _ _ _ _ _ _ _ Hf), (f_same1 _ _ _ _ _ _ _ _ Hf); [done| |].
    + destruct (Ha x ltac:(apply elem_of_cons; right; apply elem_of_cons; by left)); lia.
    + assert (Hq' : q ∈ hd_block :: x :: fr).
      { destruct (sp_q _ _ _ _ _ _ _ Hsp) as [->|Hqfr]; [apply elem_of_cons; by left|do 2 (apply elem_of_cons; right); done]. }
      destruct (Ha q Hq'); lia.
Qed.
End heap.
