(* ===== verification/UmallocAlloc.v ===== *)
(** * What [malloc] returns

    The search of [malloc] around the circular list, the block it takes, and the heap
    of a program that calls [malloc] and [free] and writes into its blocks. *)
From Stdlib Require Import Sorted.
From stdpp Require Import sorting gmap.
From S2P Require Import Prelude Layout Memory Umalloc UmallocTheorems.

Section alloc.
Context (base : Z).
Abbreviation hd_block := (base, 0).
Abbreviation heap := (heap_ok base).

Lemma ring_base s fr A y : heap s fr A -> y ∈ hd_block :: fr -> base <= y.1 /\ y.1 + 8 <= u_brk s /\ 0 <= y.2 /\ fin y <= u_brk s.
Proof.
  intros H Hy. destruct (h_brk _ _ _ _ H) as (? & ? & ?). apply elem_of_cons in Hy as [->|Hy]; [unfold fin; cbn; lia|].
  destruct (sorted_base base s fr A y H Hy) as (? & ? & ?). unfold fin in *. lia.
Qed.
Lemma ring_apart s fr A x y : heap s fr A -> x ∈ A -> y ∈ hd_block :: fr -> y.1 + 8 <= x.1 \/ fin x <= y.1.
Proof.
  intros H Hx Hy. destruct (h_alloc _ _ _ _ H x Hx) as (? & ? & _). apply elem_of_cons in Hy as [->|Hy]; [cbn; lia|].
  destruct (sorted_base base s fr A y H Hy) as (? & ? & ?). destruct (h_free_alloc _ _ _ _ H x y Hx Hy); unfold fin in *; lia.
Qed.

(** ** Fresh memory *)
Lemma heap_grow s fr A n v : heap s fr A -> 1 <= n -> n < 4294967296 -> u_brk s + 8 * n <= u_lim s -> v = u_brk s + 4 ->
  heap (Ust (wr32 v n (u_mem s)) (u_freep s) (u_brk s + 8 * n) (u_lim s)) fr ({[(u_brk s, n)]} ∪ A).
Proof.
  intros H Hn Hn2 Hl ->. destruct (h_brk _ _ _ _ H) as (Hb0 & Hb1 & Hb2).
  assert (Hin : forall y, y ∈ A -> y.1 + 8 <= u_brk s /\ fin y <= u_brk s).
  { intros y Hy. destruct (h_alloc _ _ _ _ H y Hy) as (? & ? & ? & _). unfold fin in *. lia. }
  split; cbn [u_mem u_freep u_brk u_lim]; [by apply H| |..].
  - eapply Forall_impl; [apply (h_sizes _ _ _ _ H)|]. intros y []. unfold fin in *. lia.
  - eapply (seg_same (u_brk s)); [apply same_but_size| |apply H]. apply Forall_forall. intros y Hy.
    destruct (ring_base s fr A y H Hy) as (? & ? & _). lia.
  - apply H.
  - intros y Hy. apply elem_of_union in Hy as [Hy|Hy].
    + apply elem_of_singleton in Hy as ->. unfold fin. cbn. rewrite rd32_wr32_eq, u32_small by lia. lia.
    + destruct (h_alloc _ _ _ _ H y Hy) as (? & ? & ? & ?). destruct (Hin y Hy). rewrite rd32_wr32_ne by lia. lia.
  - intros x y Hx Hy. destruct (sorted_base base s fr A y H Hy) as (_ & _ & ?).
    apply elem_of_union in Hx as [Hx|Hx]; [|by apply (h_free_alloc _ _ _ _ H)]. apply elem_of_singleton in Hx as ->. right. done.
  - intros x y Hx Hy Hne. apply elem_of_union in Hx as [Hx|Hx], Hy as [Hy|Hy]; [| | |by apply (h_apart _ _ _ _ H)].
    + apply elem_of_singleton in Hx as ->. by apply elem_of_singleton in Hy as ->.
    + apply elem_of_singleton in Hx as ->. right. by destruct (Hin y Hy).
    + apply elem_of_singleton in Hy as ->. left. by destruct (Hin x Hx).
  - lia.
Qed.

(** The bytes of the blocks in use. *)
Definition kept (A : gset block) (m m' : mem) : Prop :=
  forall x a, x ∈ A -> x.1 + 8 <= a < fin x -> rd8 m' a = rd8 m a.
Lemma kept_refl A m : kept A m m.
Proof. done. Qed.
Lemma kept_trans A m1 m2 m3 : kept A m1 m2 -> kept A m2 m3 -> kept A m1 m3.
Proof. intros H1 H2 x a Hx Ha. by rewrite (H2 x), (H1 x). Qed.

Lemma free_kept s fr A x s' : heap s fr A -> x ∈ A ->
  (forall a, (forall y, y ∈ hd_block :: x :: fr -> a < y.1 \/ y.1 + 8 <= a) -> rd8 (u_mem s') a = rd8 (u_mem s) a) ->
  kept (A ∖ {[x]}) (u_mem s) (u_mem s').
Proof.
  intros H Hx Hm z a Hz Ha. apply elem_of_difference in Hz as [Hz Hzx]. rewrite elem_of_singleton in Hzx. apply Hm. intros y Hy.
  assert (Hy' : y = x \/ y ∈ hd_block :: fr).
  { apply elem_of_cons in Hy as [->|Hy]; [right; apply elem_of_cons; by left|]. apply elem_of_cons in Hy as [->|Hy]; [by left|].
    right. apply elem_of_cons. by right. }
  destruct Hy' as [->|Hy'].
  - destruct (h_alloc _ _ _ _ H x Hx) as (? & _). destruct (h_apart _ _ _ _ H z x Hz Hx Hzx); unfold fin in *; lia.
  - destruct (ring_apart s fr A z y H Hz Hy'); lia.
Qed.

(** The number of units [morecore] asks the kernel for. *)
Definition asked (nu : Z) : Z := Z.max nu 4096.

Lemma morecore_ok s fr A nu : heap s fr A -> 1 <= nu < 268435456 ->
  (u_lim s < u_brk s + 8 * asked nu /\ morecore nu s = Done 0 s) \/
  (exists s' fr', morecore nu s = Done (u_freep s') s' /\ heap s' fr' A /\ u_freep s' <> 0 /\ u_lim s' = u_lim s /\
    (exists y, y ∈ fr' /\ nu <= y.2) /\ kept A (u_mem s) (u_mem s')).
Proof.
  intros H Hnu. destruct (h_brk _ _ _ _ H) as (Hb0 & Hb1 & Hb2). unfold morecore.
  replace (if nu <? 4096 then 4096 else nu) with (asked nu) by (unfold asked; destruct (Z.ltb_spec nu 4096); lia).
  assert (Hk : nu <= asked nu < 268435456 /\ 1 <= asked nu) by (unfold asked; lia). set (k := asked nu) in *.
  assert (Hi : i32 (u32 (k * SIZEOF_HEADER)) = 8 * k) by (unfold SIZEOF_HEADER; rewrite u32_small by lia; rewrite i32_small by lia; lia).
  destruct (Z.leb_spec (u_brk s + 8 * k) (u_lim s)) as [Hl|Hl].
  2: { left. split; [lia|]. rewrite (bind_Done _ _ s (-1) s); [done|]. unfold sbrk. rewrite Hi, (proj2 (Z.leb_gt _ _) Hl), (proj2 (Z.leb_le 0 _)) by lia. done. }
  right. rewrite (bind_Done _ _ s (u_brk s) (Ust (u_mem s) (u_freep s) (u_brk s + 8 * k) (u_lim s))).
  2: { unfold sbrk. rewrite Hi, (proj2 (Z.leb_le _ _) Hl), (proj2 (Z.leb_le 0 _)) by lia. done. }
  rewrite (proj2 (Z.eqb_neq (u_brk s) (-1))) by lia.
  set (s1 := Ust (wr32 (u_brk s + 4) k (u_mem s)) (u_freep s) (u_brk s + 8 * k) (u_lim s)).
  pose proof (heap_grow s fr A k (u_brk s + 4) H ltac:(lia) ltac:(lia) Hl eq_refl) as H1. fold s1 in H1. set (x := (u_brk s, k)) in *.
  assert (Hx : x ∈ {[x]} ∪ A) by (apply elem_of_union_l, elem_of_singleton; done).
  assert (HxA : x ∉ A) by (intros HxA; destruct (h_alloc _ _ _ _ H x HxA) as (_ & _ & ? & _); unfold fin, x in *; cbn in *; lia).
  destruct (free_heap base s1 fr _ x H1 Hx) as (s' & fr' & Hrun & H' & Hbrk & Hlim & (y & Hy & Hyk) & Hmem).
  pose proof (free_kept s1 fr _ x s' H1 Hx Hmem) as Hkept.
  assert (HA : ({[x]} ∪ A) ∖ {[x]} = A).
  { apply set_eq. intros z. rewrite elem_of_difference, elem_of_union, elem_of_singleton. split; [intros [[->|?] ?]; done|].
    intros Hz. split; [by right|]. intros ->. done. }
  rewrite HA in H', Hkept. exists s', fr'. split_and!.
  - rewrite (bind_Done _ _ _ tt s1) by done. replace (u32 (u_brk s + SIZEOF_HEADER)) with (x.1 + 8) by (unfold SIZEOF_HEADER, x; cbn; rewrite u32_small by lia; lia).
    rewrite (bind_Done _ _ _ _ _ Hrun). reflexivity.
  - done.
  - pose proof (h_freep _ _ _ _ H') as Hfp. apply list_elem_of_In, in_map_iff in Hfp as (z & <- & Hz). apply list_elem_of_In in Hz.
    destruct (ring_base s' fr' A z H' Hz). lia.
  - done.
  - exists y. split; [done|]. cbn in Hyk. lia.
  - eapply kept_trans; [|exact Hkept]. intros z a Hz Ha. cbn [u_mem s1]. destruct (h_alloc _ _ _ _ H z Hz) as (? & _ & ? & _).
    apply rd8_wr32_ne. lia.
Qed.

(** ** The search *)
Definition last_addr (p : Z) (W : list block) : Z := match rev W with x :: _ => x.1 | [] => p end.
Lemma last_addr_cons p x W : last_addr p (x :: W) = last_addr x.1 W.
Proof. unfold last_addr. cbn [rev]. destruct (rev W) as [|y V] eqn:E; [done|]. done. Qed.

(** Small blocks other than [freep] are passed over. *)
Lemma scan_over nu s W : forall prevp e fuel, seg (u_mem s) W e -> rd32 (u_mem s) prevp = first W e ->
  (forall x, x ∈ W -> x.2 < nu /\ x.1 <> u_freep s) ->
  malloc_loop (length W + S fuel) nu prevp (first W e) s = malloc_loop (S fuel) nu (last_addr prevp W) e s /\
  rd32 (u_mem s) (last_addr prevp W) = e /\ (last_addr prevp W = prevp \/ exists x, x ∈ W /\ last_addr prevp W = x.1).
Proof.
  induction W as [|x W IH]; intros prevp e fuel Hs Hp HW; [split_and!; [done|done|by left]|].
  destruct Hs as (H1 & H2 & H3). destruct (HW x ltac:(apply elem_of_cons; by left)) as [Hx Hxf].
  destruct (IH x.1 e fuel H3 H1) as (IH1 & IH2 & IH3); [intros y Hy; apply HW; apply elem_of_cons; by right|].
  rewrite last_addr_cons. split_and!; [|done|].
  - cbn [length Nat.add malloc_loop first]. rewrite (bind_Done _ _ s x.2 s) by (by rewrite hsize_val, H2).
    rewrite (proj2 (Z.leb_gt nu x.2)) by lia. rewrite (bind_Done (gets u_freep) _ s (u_freep s) s eq_refl), (proj2 (Z.eqb_neq _ _) Hxf).
    rewrite (bind_Done _ _ s (first W e) s) by (by rewrite hptr_val, H1). exact IH1.
  - right. destruct IH3 as [->|(y & Hy & ->)]; [exists x; split; [apply elem_of_cons; by left|done]|].
    exists y. split; [apply elem_of_cons; by right|done].
Qed.

(** The list read from any of its blocks on. *)
Lemma seg_rotate m z L1 L2 : z.1 = base -> seg m (z :: L1 ++ L2) base -> seg m (L2 ++ z :: L1) (first (L2 ++ z :: L1) base).
Proof.
  intros Hz H. rewrite app_comm_cons in H. apply seg_app in H as [H1 H2]. apply seg_app. cbn [first]. rewrite Hz.
  split; [done|]. destruct L2 as [|y L2]; cbn [first app] in *; [by rewrite Hz|done].
Qed.

Lemma ring_distinct s fr A P x Q : heap s fr A -> hd_block :: fr = P ++ x :: Q -> forall y, y ∈ P ++ Q -> y.1 <> x.1.
Proof.
  intros H HL y Hy. pose proof (h_sorted _ _ _ _ H) as Hs. rewrite HL in Hs. apply StronglySorted_app in Hs as (H1 & _ & H2).
  apply StronglySorted_cons in H2 as [H2 _]. rewrite Forall_forall in H2. apply elem_of_app in Hy as [Hy|Hy].
  - destruct (H1 y x Hy ltac:(apply elem_of_cons; by left)). lia.
  - destruct (H2 y Hy). lia.
Qed.
(** The block before [b], known by its link. *)
Lemma ring_before s fr A pv b : heap s fr A -> b ∈ fr -> pv ∈ map fst (hd_block :: fr) -> rd32 (u_mem s) pv = b.1 ->
  exists P x Q, hd_block :: fr = P ++ x :: b :: Q /\ pv = x.1.
Proof.
  intros H Hb Hpv Hl. apply list_elem_of_In, in_map_iff in Hpv as (x & <- & Hx). apply list_elem_of_In in Hx.
  destruct (sorted_base base s fr A b H Hb) as (Hb1 & _). pose proof (h_brk _ _ _ _ H) as (? & _).
  apply list_elem_of_split in Hx as (P & Q & HL). pose proof (h_seg _ _ _ _ H) as Hs. rewrite HL in Hs. apply seg_step in Hs as [Hs _].
  rewrite Hl in Hs. destruct Q as [|b' Q]; cbn [first] in Hs; [lia|]. exists P, x, Q. split; [|done].
  assert (HL' : hd_block :: fr = (P ++ [x]) ++ b' :: Q) by (rewrite HL, <- app_assoc; done).
  assert (Hin : b ∈ (P ++ [x]) ++ b' :: Q) by (rewrite <- HL'; apply elem_of_cons; by right).
  pose proof (ring_distinct s fr A _ b' Q H HL' b) as Hd. apply elem_of_app in Hin as [Hin|Hin].
  - exfalso. apply Hd; [apply elem_of_app; by left|done].
  - apply elem_of_cons in Hin as [->|Hin]; [done|]. exfalso. apply Hd; [apply elem_of_app; by right|done].
Qed.

(** ** Taking a block *)
(** The part [y] of the free block [b] that is handed out, and what stays in the list. *)
Inductive part (b y : block) : list block -> Prop :=
| part_all : y = b -> part b y []
| part_tail k : 1 <= k -> 1 <= b.2 - k -> y = (b.1 + 8 * k, b.2 - k) -> part b y [(b.1, k)].

Lemma part_in b y mid : 1 <= b.2 -> part b y mid ->
  1 <= y.2 /\ b.1 <= y.1 /\ fin y = fin b /\ forall z, z ∈ mid -> z.1 = b.1 /\ 1 <= z.2 /\ fin z = y.1 /\ fin z < fin b.
Proof.
  intros Hb Hp. destruct b as [a n]. destruct Hp as [->|k Hk Hn ->]; cbn [fst snd] in *; unfold fin; cbn [fst snd].
  - split_and!; (lia || by intros z Hz%not_elem_of_nil).
  - split_and!; try lia. intros z ->%list_elem_of_singleton. cbn. lia.
Qed.

Lemma sorted_part P b mid Q y : StronglySorted gap (P ++ b :: Q) -> 1 <= b.2 -> part b y mid -> StronglySorted gap (P ++ mid ++ Q).
Proof.
  intros Hs Hb Hp. destruct (part_in b y mid Hb Hp) as (_ & _ & _ & Hmid). apply StronglySorted_app in Hs as (H1 & H2 & H3).
  apply StronglySorted_cons in H3 as [H3 H4]. rewrite Forall_forall in H3. apply StronglySorted_app. split; [|split; [done|]].
  - intros u v Hu Hv. apply elem_of_app in Hv as [Hv|Hv]; [|apply H1; [done|apply elem_of_cons; by right]].
    destruct (Hmid v Hv) as (Hv1 & _). destruct (H1 u b Hu ltac:(apply elem_of_cons; by left)). unfold gap. lia.
  - destruct Hp as [_|k Hk Hn _]; [done|]. cbn [app]. apply StronglySorted_cons. split; [|done]. apply Forall_forall. intros z Hz.
    destruct (H3 z Hz). destruct (Hmid (b.1, k) ltac:(by apply list_elem_of_singleton)) as (_ & _ & _ & ?). cbn in *. unfold gap in *. cbn in *. lia.
Qed.

Lemma heap_take s fr A P b Q y mid m fp : heap s fr A -> hd_block :: fr = P ++ b :: Q -> b ∈ fr -> part b y mid ->
  seg m (P ++ mid ++ Q) base -> fp ∈ map fst P -> rd32 m (y.1 + 4) = y.2 ->
  (forall z, z ∈ A -> rd32 m (z.1 + 4) = rd32 (u_mem s) (z.1 + 4)) ->
  y ∉ A /\ exists fr', heap (Ust m fp (u_brk s) (u_lim s)) fr' ({[y]} ∪ A).
Proof.
  intros H HL Hb Hp Hseg Hfp Hy HA. destruct (sorted_base base s fr A b H Hb) as (Hb1 & Hb2 & Hb3).
  destruct (part_in b y mid Hb2 Hp) as (Hy1 & Hy2 & Hy3 & Hmid).
  assert (Hfree : forall z, z ∈ A -> apart z b) by (intros z Hz; by apply (h_free_alloc _ _ _ _ H)).
  assert (Hyap : forall z, z ∈ A -> apart z y /\ apart y z) by (intros z Hz; destruct (h_alloc _ _ _ _ H z Hz) as (? & _); specialize (Hfree z Hz); unfold apart, fin in *; lia).
  split; [intros HyA; destruct (Hyap y HyA); unfold apart, fin in *; lia|].
  pose proof (h_sorted _ _ _ _ H) as Hs. rewrite HL in Hs.
  assert (Hbd : forall z, z ∈ P ++ Q -> gap z b \/ gap b z).
  { intros z Hz. apply StronglySorted_app in Hs as (H1 & _ & H2). apply elem_of_app in Hz as [Hz|Hz].
    - left. apply H1; [done|apply elem_of_cons; by left].
    - right. apply StronglySorted_cons in H2 as [H2 _]. rewrite Forall_forall in H2. by apply H2. }
  destruct P as [|p0 P]; [by apply not_elem_of_nil in Hfp|]. cbn [app] in HL. injection HL as <- HL.
  pose proof (sorted_part (hd_block :: P) b mid Q y Hs Hb2 Hp) as Hs'. exists (P ++ mid ++ Q).
  assert (Hcase : forall z, z ∈ P ++ mid ++ Q -> z ∈ mid \/ z ∈ fr /\ z ∈ P ++ Q).
  { intros z Hz. rewrite HL, !elem_of_app, elem_of_cons in *. tauto. }
  split; cbn [u_mem u_freep u_brk u_lim]; [done| |done| | | | |apply H].
  - apply Forall_forall. intros z Hz. destruct (Hcase z Hz) as [Hm|[Hf _]].
    + destruct (Hmid z Hm) as (? & ? & ? & ?). lia.
    + by destruct (sorted_base base s fr A z H Hf) as (_ & ? & ?).
  - rewrite app_comm_cons, map_app. apply elem_of_app. by left.
  - intros z [Hz|Hz]%elem_of_union.
    + apply elem_of_singleton in Hz as ->. split_and!; (lia || done).
    + rewrite (HA z Hz). by apply (h_alloc _ _ _ _ H).
  - intros u z [Hu|Hu]%elem_of_union Hz; [apply elem_of_singleton in Hu as ->|]; destruct (Hcase z Hz) as [Hm|[Hf Hpq]].
    + destruct (Hmid z Hm) as (? & ? & ? & ?). right. lia.
    + destruct (sorted_base base s fr A z H Hf) as (_ & ? & _). destruct (Hbd z ltac:(apply elem_of_cons; by right)) as [[]|[]]; unfold apart, fin in *; lia.
    + destruct (Hmid z Hm) as (? & ? & ? & ?). destruct (h_alloc _ _ _ _ H u Hu) as (? & _). specialize (Hfree u Hu). unfold apart, fin in *; lia.
    + by apply (h_free_alloc _ _ _ _ H).
  - intros u z [Hu|Hu]%elem_of_union [Hz|Hz]%elem_of_union Hne; [set_solver| | |by apply (h_apart _ _ _ _ H)].
    + apply elem_of_singleton in Hu as ->. by apply Hyap.
    + apply elem_of_singleton in Hz as ->. by apply Hyap.
Qed.

(** What a call that succeeds leaves. *)
Definition taken (s s' : ust) (A : gset block) (nu p : Z) : Prop :=
  (p - 8, nu) ∉ A /\ (exists fr', heap s' fr' ({[(p - 8, nu)]} ∪ A)) /\ kept A (u_mem s) (u_mem s') /\ u_lim s' = u_lim s.

Lemma part_kept s fr A b y mid z : heap s fr A -> b ∈ fr -> part b y mid -> z ∈ A ->
  (fin z <= b.1 \/ fin b <= z.1) /\ 1 <= z.2 /\ 1 <= b.2 /\ b.1 <= y.1 /\ y.1 + 8 <= fin b.
Proof.
  intros H Hb Hp Hz. destruct (sorted_base base s fr A b H Hb) as (_ & Hb2 & _). destruct (part_in b y mid Hb2 Hp) as (? & ? & ? & _).
  destruct (h_alloc _ _ _ _ H z Hz) as (? & _). destruct (h_free_alloc _ _ _ _ H z b Hz Hb); unfold fin in *; lia.
Qed.

Lemma take_exact s fr A b pv fuel : heap s fr A -> b ∈ fr -> pv ∈ map fst (hd_block :: fr) -> rd32 (u_mem s) pv = b.1 ->
  exists s', malloc_loop (S fuel) b.2 pv b.1 s = Done (b.1 + 8) s' /\ taken s s' A b.2 (b.1 + 8) /\ u_brk s' = u_brk s.
Proof.
  intros H Hb Hpv Hl. destruct (h_brk _ _ _ _ H) as (? & ? & ?). destruct (sorted_base base s fr A b H Hb) as (Hb1 & Hb2 & Hb3).
  destruct (ring_before s fr A pv b H Hb Hpv Hl) as (P & x & Q & HL & ->).
  assert (HL' : hd_block :: fr = (P ++ [x]) ++ b :: Q) by (by rewrite HL, <- app_assoc).
  pose proof (h_seg _ _ _ _ H) as Hs. pose proof Hs as Hs0. rewrite HL' in Hs. rewrite HL in Hs0. pose proof (seg_step _ _ _ _ _ Hs) as [Hbp Hbs].
  set (m := wr32 x.1 (first Q base) (u_mem s)). exists (Ust m x.1 (u_brk s) (u_lim s)).
  assert (Hrun : malloc_loop (S fuel) b.2 x.1 b.1 s = Done (b.1 + 8) (Ust m x.1 (u_brk s) (u_lim s))).
  { cbn [malloc_loop]. rewrite (bind_Done _ _ s b.2 s) by (by rewrite hsize_val, Hbs).
    rewrite (proj2 (Z.leb_le _ _)), Z.eqb_refl by lia. rewrite (bind_Done _ _ s (first Q base) s) by (by rewrite hptr_val, Hbp).
    rewrite padd_small by (unfold fin in *; lia). reflexivity. }
  assert (Hx : x ∈ hd_block :: fr) by (rewrite HL; apply in_mid).
  assert (Hdist : forall z, z ∈ A -> z.1 + 8 <= x.1 \/ x.1 + 8 <= z.1).
  { intros z Hz. destruct (h_alloc _ _ _ _ H z Hz) as (? & _). destruct (ring_apart s fr A z x H Hz Hx); unfold fin in *; lia. }
  assert (Hseg : seg m ((P ++ [x]) ++ [] ++ Q) base).
  { pose proof (h_sorted _ _ _ _ H) as Ho. rewrite HL in Ho. apply StronglySorted_app in Ho as (Ho1 & _ & Ho2). apply StronglySorted_cons in Ho2 as [Ho2 _].
    rewrite Forall_forall in Ho2. apply seg_app in Hs0 as [HP (_ & Hxs & HQ)]. cbn [first] in *. destruct HQ as (_ & _ & HQ).
    rewrite <- app_assoc. cbn [app]. apply seg_app. cbn [first seg]. split_and!.
    - eapply (seg_same x.1); [apply same_but_ptr| |exact HP]. apply Forall_forall. intros z Hz. destruct (Ho1 z x Hz ltac:(apply elem_of_cons; by left)). lia.
    - unfold m. rewrite rd32_wr32_eq, <- Hbp. apply u32_rd32.
    - unfold m. by rewrite rd32_wr32_ne by lia.
    - eapply (seg_same x.1); [apply same_but_ptr| |exact HQ]. apply Forall_forall. intros z Hz.
      destruct (Ho2 z ltac:(apply elem_of_cons; by right)). lia. }
  destruct (heap_take s fr A (P ++ [x]) b Q b [] m x.1 H HL' Hb ltac:(by constructor) Hseg) as [HbA Hh].
  - rewrite map_app. apply elem_of_app. right. apply elem_of_cons. by left.
  - unfold m. rewrite rd32_wr32_ne; [done|].
    pose proof (h_sorted _ _ _ _ H) as Ho. rewrite HL in Ho. apply StronglySorted_app in Ho as (_ & _ & Ho2). apply StronglySorted_cons in Ho2 as [Ho2 _].
    rewrite Forall_forall in Ho2. destruct (Ho2 b ltac:(apply elem_of_cons; by left)). lia.
  - intros z Hz. unfold m. apply rd32_wr32_ne. destruct (Hdist z Hz); lia.
  - split; [exact Hrun|]. split; [|done]. unfold taken. replace (b.1 + 8 - 8, b.2) with b by (destruct b; cbn; f_equal; lia).
    split_and!; [done|done| |done]. intros z a Hz Ha. apply rd8_wr32_ne. destruct (ring_apart s fr A z x H Hz Hx); lia.
Qed.

Lemma take_split s fr A b pv nu fuel : heap s fr A -> b ∈ fr -> pv ∈ map fst (hd_block :: fr) -> rd32 (u_mem s) pv = b.1 -> 1 <= nu < b.2 ->
  exists p s', malloc_loop (S fuel) nu pv b.1 s = Done p s' /\ taken s s' A nu p /\ b.1 + 8 <= p /\ u_brk s' = u_brk s.
Proof.
  intros H Hb Hpv Hl Hnu. destruct (h_brk _ _ _ _ H) as (? & ? & ?). destruct (sorted_base base s fr A b H Hb) as (Hb1 & Hb2 & Hb3).
  destruct (ring_before s fr A pv b H Hb Hpv Hl) as (P & x & Q & HL & ->).
  assert (HL' : hd_block :: fr = (P ++ [x]) ++ b :: Q) by (by rewrite HL, <- app_assoc).
  pose proof (h_seg _ _ _ _ H) as Hs. rewrite HL' in Hs. pose proof (seg_step _ _ _ _ _ Hs) as [Hbp Hbs].
  set (k := b.2 - nu). set (y := (b.1 + 8 * k, nu)). set (m1 := wr32 (b.1 + 4) k (u_mem s)). set (m := wr32 (b.1 + 8 * k + 4) nu m1).
  assert (Hfb : fin b = b.1 + 8 * k + 8 * nu) by (unfold fin, k; lia).
  assert (Hrun : malloc_loop (S fuel) nu x.1 b.1 s = Done (b.1 + 8 * k + 8) (Ust m x.1 (u_brk s) (u_lim s))).
  { cbn [malloc_loop]. rewrite (bind_Done _ _ s b.2 s) by (by rewrite hsize_val, Hbs).
    rewrite (proj2 (Z.leb_le _ _)), (proj2 (Z.eqb_neq _ _)) by lia. rewrite (u32_small (b.2 - nu)) by (unfold fin in *; lia). fold k.
    rewrite (bind_Done _ _ s tt (set_mem m1 s)) by done.
    rewrite (bind_Done _ _ (set_mem m1 s) k (set_mem m1 s)); [|rewrite hsize_val; cbn; unfold m1; rewrite rd32_wr32_eq, u32_small by (unfold fin, k in *; lia); done].
    rewrite (padd_small b.1 k) by (unfold fin, k in *; lia). rewrite (padd_small (b.1 + 8 * k) 1) by (unfold fin, k in *; lia). reflexivity. }
  assert (Hp : part b y [(b.1, k)]) by (apply (part_tail b y k); unfold y, k; [lia|lia|f_equal; lia]).
  pose proof (h_sorted _ _ _ _ H) as Ho. rewrite HL' in Ho. apply StronglySorted_app in Ho as (Ho1 & _ & Ho2). apply StronglySorted_cons in Ho2 as [Ho2 _].
  rewrite Forall_forall in Ho2. apply seg_app in Hs as [HP (_ & _ & HQ)]. cbn [first] in *.
  assert (Hkeep : forall L e, (forall z, z ∈ L -> z.1 + 8 <= b.1 \/ fin b <= z.1) -> seg (u_mem s) L e -> seg m L e).
  { intros L e HLe HS. apply (seg_same (b.1 + 8 * k) m1); [apply same_but_size| |apply (seg_same b.1 (u_mem s)); [apply same_but_size| |done]];
      apply Forall_forall; intros z Hz; destruct (HLe z Hz); lia. }
  assert (Hseg : seg m ((P ++ [x]) ++ [(b.1, k)] ++ Q) base).
  { apply seg_app. cbn [first seg fst snd app]. split_and!.
    - apply Hkeep; [|exact HP]. intros z Hz. destruct (Ho1 z b Hz ltac:(apply elem_of_cons; by left)). lia.
    - unfold m, m1. by rewrite !rd32_wr32_ne by lia.
    - unfold m, m1. rewrite rd32_wr32_ne, rd32_wr32_eq by lia. apply u32_small. unfold fin, k in *. lia.
    - apply Hkeep; [|exact HQ]. intros z Hz. destruct (Ho2 z Hz). lia. }
  destruct (heap_take s fr A (P ++ [x]) b Q y [(b.1, k)] m x.1 H HL' Hb Hp Hseg) as [HyA Hh].
  - rewrite map_app. apply elem_of_app. right. apply elem_of_cons. by left.
  - unfold m, y. cbn [fst snd]. rewrite rd32_wr32_eq. apply u32_small. unfold fin in *. lia.
  - intros z Hz. destruct (part_kept s fr A b y _ z H Hb Hp Hz) as (? & ? & ? & ? & ?). unfold m, m1, fin in *. rewrite !rd32_wr32_ne by lia. done.
  - exists (b.1 + 8 * k + 8), (Ust m x.1 (u_brk s) (u_lim s)). split; [exact Hrun|]. split; [|cbn; lia].
    unfold taken. replace (b.1 + 8 * k + 8 - 8, nu) with y by (unfold y; f_equal; lia). split_and!; [done|done| |done].
    intros z a Hz Ha. destruct (part_kept s fr A b y _ z H Hb Hp Hz) as (? & ? & ? & ? & ?). cbn [u_mem]. unfold m, m1, fin in *. rewrite !rd8_wr32_ne by lia. done.
Qed.

Lemma take_any s fr A b pv nu fuel : heap s fr A -> b ∈ fr -> pv ∈ map fst (hd_block :: fr) -> rd32 (u_mem s) pv = b.1 -> 1 <= nu <= b.2 ->
  exists p s', malloc_loop (S fuel) nu pv b.1 s = Done p s' /\ 0 < p /\ taken s s' A nu p /\ u_brk s' = u_brk s.
Proof.
  intros H Hb Hpv Hl Hnu. destruct (h_brk _ _ _ _ H) as (? & _). destruct (sorted_base base s fr A b H Hb) as (Hb1 & _).
  destruct (decide (nu = b.2)) as [->|Hne].
  - destruct (take_exact s fr A b pv fuel H Hb Hpv Hl) as (s' & ? & ? & ?). exists (b.1 + 8), s'. split_and!; (done || lia).
  - destruct (take_split s fr A b pv nu fuel H Hb Hpv Hl) as (p & s' & ? & ? & ? & ?); [lia|]. exists p, s'. split_and!; (done || lia).
Qed.

(** ** The search, from [freep] around *)
Lemma first_big nu (W : list block) : (forall x, x ∈ W -> x.2 < nu) \/
  exists W1 b W2, W = W1 ++ b :: W2 /\ (forall x, x ∈ W1 -> x.2 < nu) /\ nu <= b.2.
Proof.
  induction W as [|y W IH]; [left; by intros x Hx%not_elem_of_nil|]. destruct (Z_le_gt_dec nu y.2) as [Hy|Hy].
  - right. exists [], y, W. split_and!; [done|by intros x Hx%not_elem_of_nil|done].
  - destruct IH as [IH|(W1 & b & W2 & -> & H1 & H2)]; [left|right; exists (y :: W1), b, W2; split_and!; [done| |done]];
      intros x [->|Hx]%elem_of_cons; (lia || by auto).
Qed.

(** The list in the order of the search: after the block [w] of [freep], up to it. *)
Lemma ring_from_freep s fr A : heap s fr A ->
  exists W w, w.1 = u_freep s /\ seg (u_mem s) W w.1 /\ rd32 (u_mem s) w.1 = first W w.1 /\ rd32 (u_mem s) (w.1 + 4) = w.2 /\
    length W = length fr /\ w ∈ hd_block :: fr /\
    (forall y, y ∈ hd_block :: fr <-> y ∈ W \/ y = w) /\ (forall y, y ∈ W -> y.1 <> u_freep s).
Proof.
  intros H. pose proof (h_freep _ _ _ _ H) as Hf. apply list_elem_of_In, in_map_iff in Hf as (w & Hw & Hin). apply list_elem_of_In in Hin.
  apply list_elem_of_split in Hin as (P & Q & HL). exists (Q ++ P), w. pose proof (h_seg _ _ _ _ H) as Hs. rewrite HL in Hs.
  assert (Hrot : seg (u_mem s) ((Q ++ P) ++ [w]) (first ((Q ++ P) ++ [w]) base)).
  { rewrite <- app_assoc. destruct P as [|z P]; cbn [app] in *.
    - injection HL as <- _. apply (seg_rotate _ hd_block [] Q); [done|done].
    - pose proof HL as HL'. injection HL' as <- _. apply (seg_rotate _ hd_block (P ++ [w]) Q); [done|]. by rewrite <- app_assoc. }
  apply seg_app in Hrot as [HW (Hw1 & Hw2 & _)]. cbn [first] in HW, Hw1. rewrite first_app in Hw1. cbn [first] in Hw1.
  split_and!; [done|done|done|done| |rewrite HL; apply in_mid| |].
  - apply (f_equal length) in HL. rewrite length_app in HL. cbn [length] in HL. rewrite length_app. lia.
  - intros y. rewrite HL, !elem_of_app, elem_of_cons. tauto.
  - intros y Hy. rewrite <- Hw. apply (ring_distinct s fr A P w Q H HL). apply elem_of_app in Hy as [Hy|Hy]; apply elem_of_app; tauto.
Qed.

Lemma seg_prefix m W1 (b : block) W2 e : seg m (W1 ++ b :: W2) e -> seg m W1 b.1.
Proof. intros H. by apply seg_app in H as [H _]. Qed.

(** A free block with room is found. *)
Lemma scan_take s fr A nu fuel : heap s fr A -> 1 <= nu -> (exists b, b ∈ fr /\ nu <= b.2) -> (length fr < fuel)%nat ->
  exists p s', malloc_loop fuel nu (u_freep s) (rd32 (u_mem s) (u_freep s)) s = Done p s' /\ 0 < p /\ taken s s' A nu p /\ u_brk s' = u_brk s.
Proof.
  intros H Hnu (b0 & Hb0 & Hbig) Hfuel. destruct (ring_from_freep s fr A H) as (W & w & Hw & HsW & Hwp & Hws & Hlen & Hwin & Hring & Hne).
  assert (Hfr : forall b, b ∈ hd_block :: fr -> nu <= b.2 -> b ∈ fr) by (intros b [->|Hb]%elem_of_cons Hn; [cbn in Hn; lia|done]).
  assert (Haddr : forall y, y ∈ W -> y.1 ∈ map fst (hd_block :: fr)).
  { intros y Hy. apply list_elem_of_In, in_map, list_elem_of_In, Hring. by left. }
  assert (Hfp : u_freep s ∈ map fst (hd_block :: fr)) by apply H. rewrite <- Hw in *.
  assert (Hgo : forall W1 b, (length W1 < fuel)%nat -> seg (u_mem s) W1 b.1 -> rd32 (u_mem s) w.1 = first W1 b.1 -> (forall x, x ∈ W1 -> x.2 < nu /\ x ∈ W) ->
    b ∈ hd_block :: fr -> nu <= b.2 -> exists p s', malloc_loop fuel nu w.1 (rd32 (u_mem s) w.1) s = Done p s' /\ 0 < p /\ taken s s' A nu p /\ u_brk s' = u_brk s).
  { intros W1 b Hl HsW1 Hw1 HW1 Hb Hnb. rewrite Hw1. replace fuel with (length W1 + S (fuel - length W1 - 1))%nat by lia.
    destruct (scan_over nu s W1 w.1 b.1 (fuel - length W1 - 1) HsW1 Hw1) as (Hrun & Hlink & Hlast).
    { intros x Hx. destruct (HW1 x Hx) as [? HxW]. split; [done|]. rewrite <- Hw. by apply Hne. }
    rewrite Hrun. apply (take_any s fr A); [done|by apply Hfr| |done|lia].
    destruct Hlast as [->|(x & Hx & ->)]; [done|]. apply Haddr. by apply HW1. }
  destruct (first_big nu W) as [Hsmall|(W1 & b & W2 & -> & Hsmall & Hb)].
  - apply (Hgo W w); [lia|done|done|by auto|done|]. destruct (proj1 (Hring b0) ltac:(apply elem_of_cons; by right)) as [Hb| ->]; [|done].
    specialize (Hsmall b0 Hb). lia.
  - rewrite length_app in Hlen. apply (Hgo W1 b); [lia|by eapply seg_prefix| | | |done].
    + by rewrite Hwp, first_app.
    + intros x Hx. split; [by apply Hsmall|by apply in_left].
    + apply Hring. left. apply in_mid.
Qed.

(** With no such block the search comes back to [freep] and asks for memory. *)
Lemma scan_miss s fr A nu fuel : heap s fr A -> 1 <= nu -> (forall b, b ∈ fr -> b.2 < nu) -> (length fr < fuel)%nat ->
  malloc_loop fuel nu (u_freep s) (rd32 (u_mem s) (u_freep s)) s =
  (q ← morecore nu; if q =? 0 then mret 0 else nx ← hptr q; malloc_loop (fuel - length fr - 1) nu q nx) s.
Proof.
  intros H Hnu Hsmall Hfuel. destruct (ring_from_freep s fr A H) as (W & w & Hw & HsW & Hwp & Hws & Hlen & Hwin & Hring & Hne).
  assert (Hall : forall y, y ∈ hd_block :: fr -> y.2 < nu) by (intros y [->|Hy]%elem_of_cons; [cbn; lia|by apply Hsmall]).
  rewrite <- Hw, Hwp. replace fuel with (length W + S (fuel - length fr - 1))%nat at 1 by lia.
  destruct (scan_over nu s W w.1 w.1 (fuel - length fr - 1) HsW Hwp) as (Hrun & _ & _).
  { intros y Hy. split; [apply Hall, Hring; by left|by apply Hne]. }
  rewrite Hrun. cbn [malloc_loop]. rewrite (bind_Done _ _ s w.2 s) by (by rewrite hsize_val, Hws).
  rewrite (proj2 (Z.leb_gt nu w.2)) by (by apply Hall). rewrite (bind_Done (gets u_freep) _ s (u_freep s) s eq_refl), (proj2 (Z.eqb_eq _ _) Hw). done.
Qed.

Lemma malloc_loop_ok s fr A nu fuel : heap s fr A -> 1 <= nu < 268435456 -> (2 * Z.to_nat (u_lim s / 8) + 6 <= fuel)%nat ->
  exists p s', malloc_loop fuel nu (u_freep s) (rd32 (u_mem s) (u_freep s)) s = Done p s' /\
    (p = 0 /\ s' = s /\ (forall b, b ∈ fr -> b.2 < nu) /\ u_lim s < u_brk s + 8 * asked nu \/
     0 < p /\ taken s s' A nu p /\ ((exists b, b ∈ fr /\ nu <= b.2) -> u_brk s' = u_brk s)).
Proof.
  intros H Hnu Hfuel. pose proof (heap_count base s fr A H) as Hc. cbn [length] in Hc. destruct (first_big nu fr) as [Hsmall|(W1 & b & W2 & Hfr & _ & Hb)].
  - rewrite (scan_miss s fr A) by (done || lia). destruct (morecore_ok s fr A nu H Hnu) as [[Hl Hm]|(s1 & fr1 & Hm & H1 & Hf1 & Hl1 & Hbig & Hk)].
    + exists 0, s. rewrite (bind_Done _ _ _ _ _ Hm). split; [done|]. by left.
    + rewrite (bind_Done _ _ _ _ _ Hm), (proj2 (Z.eqb_neq _ _) Hf1). rewrite (bind_Done _ _ s1 _ s1 (hptr_val _ _)).
      pose proof (heap_count base s1 fr1 A H1) as Hc1. cbn [length] in Hc1. rewrite Hl1 in Hc1.
      destruct (scan_take s1 fr1 A nu (fuel - length fr - 1) H1) as (p & s' & Hrun & Hp & (HpA & Hh & Hk' & Hl') & _); [lia|done|lia|].
      exists p, s'. split; [done|]. right. split; [done|]. split.
      * split_and!; [done|done|by eapply kept_trans|by rewrite Hl', Hl1].
      * intros (b & Hb & Hn). specialize (Hsmall b Hb). lia.
  - destruct (scan_take s fr A nu fuel H) as (p & s' & Hrun & Hp & Ht & Hbrk); [lia|exists b; split; [rewrite Hfr; apply in_mid|done]|lia|].
    exists p, s'. split; [done|]. by right.
Qed.
End alloc.

(** ** A program that uses the allocator *)
(** The units taken for [nb] bytes, while the sum does not wrap. *)
Definition units (nb : Z) : Z := (nb + 7) / 8 + 1.

(** The heap and the blocks in use of a program that calls [malloc] and [free], extends
    its memory itself, and writes into its blocks only. *)
Inductive uses (base lim : Z) : ust -> gset block -> Prop :=
| uses_start s : u_freep s = 0 -> 0 < base -> base + 8 <= u_brk s -> u_brk s <= lim < 2147483648 -> u_lim s = lim ->
    uses base lim s ∅
| uses_malloc s A nb p s' : uses base lim s A -> 0 <= nb < 2147483632 -> malloc base nb s = Done p s' ->
    uses base lim s' (if p =? 0 then A else {[(p - 8, units nb)]} ∪ A)
| uses_free s A x s' : uses base lim s A -> x ∈ A -> free (x.1 + 8) s = Done tt s' -> uses base lim s' (A ∖ {[x]})
| uses_sbrk s A n r s' : uses base lim s A -> 0 <= n < 2147483648 -> sbrk n s = Done r s' -> uses base lim s' A
| uses_write s A x a v : uses base lim s A -> x ∈ A -> x.1 + 8 <= a < fin x -> uses base lim (set_mem (wr8 a v (u_mem s)) s) A.

(** The heap is set up, or this is left to the first [malloc]. *)
Definition uheap (base : Z) (s : ust) (A : gset block) : Prop :=
  (exists fr, heap_ok base s fr A) \/
  (u_freep s = 0 /\ A = ∅ /\ 0 < base /\ base + 8 <= u_brk s /\ u_brk s <= u_lim s < 2147483648).

Lemma nunits_units nb : 0 <= nb < 2147483632 ->
  u32 (u32 (nb + SIZEOF_HEADER - 1) / SIZEOF_HEADER + 1) = units nb /\ 1 <= units nb < 268435456 /\ nb <= 8 * units nb - 8.
Proof.
  intros Hn. unfold SIZEOF_HEADER, units. rewrite (u32_small (nb + 8 - 1)) by lia. replace (nb + 8 - 1) with (nb + 7) by lia.
  assert (1 <= (nb + 7) / 8 + 1 < 268435456 /\ nb <= 8 * ((nb + 7) / 8 + 1) - 8) by zlia. rewrite u32_small by lia. lia.
Qed.

Lemma heap_freep base s fr A : heap_ok base s fr A -> 0 < u_freep s.
Proof.
  intros H. pose proof (h_freep _ _ _ _ H) as Hf. apply list_elem_of_In, in_map_iff in Hf as (z & <- & Hz). apply list_elem_of_In in Hz.
  destruct (ring_base base s fr A z H Hz). pose proof (h_brk _ _ _ _ H). lia.
Qed.

(** The first call makes the empty heap. *)
Lemma heap_init base s : 0 < base -> base + 8 <= u_brk s -> u_brk s <= u_lim s < 2147483648 ->
  heap_ok base (Ust (wr32 (base + 4) 0 (wr32 base base (u_mem s))) base (u_brk s) (u_lim s)) [] ∅.
Proof.
  intros H1 H2 H3. split; cbn [u_mem u_freep u_brk u_lim].
  - apply StronglySorted_cons. split; [by apply Forall_nil|constructor].
  - by apply Forall_nil.
  - cbn. rewrite rd32_wr32_ne, !rd32_wr32_eq by lia. split_and!; [apply u32_small; lia|done|done].
  - apply elem_of_cons. by left.
  - intros x Hx. by apply not_elem_of_empty in Hx.
  - intros x y Hx. by apply not_elem_of_empty in Hx.
  - intros x y Hx. by apply not_elem_of_empty in Hx.
  - lia.
Qed.

Lemma malloc_heap base s fr A nb : heap_ok base s fr A -> 0 <= nb < 2147483632 ->
  exists p s', malloc base nb s = Done p s' /\
    (p = 0 /\ s' = s /\ (forall b, b ∈ fr -> b.2 < units nb) /\ u_lim s < u_brk s + 8 * asked (units nb) \/
     0 < p /\ taken base s s' A (units nb) p /\ ((exists b, b ∈ fr /\ units nb <= b.2) -> u_brk s' = u_brk s)).
Proof.
  intros H Hn. destruct (nunits_units nb Hn) as (Hu & Hu1 & _). pose proof (heap_freep base s fr A H) as Hf.
  unfold malloc. rewrite Hu. rewrite (bind_Done (gets _) _ s (2 * Z.to_nat (u_lim s / 8) + 6)%nat s eq_refl).
  rewrite (bind_Done (gets u_freep) _ s (u_freep s) s eq_refl), (proj2 (Z.eqb_neq _ _)) by lia.
  rewrite (bind_Done _ _ s (u_freep s) s eq_refl), (bind_Done _ _ s _ s (hptr_val _ _)).
  by apply malloc_loop_ok.
Qed.

Lemma malloc_start base s nb : u_freep s = 0 -> 0 < base ->
  malloc base nb s = malloc base nb (Ust (wr32 (base + 4) 0 (wr32 base base (u_mem s))) base (u_brk s) (u_lim s)).
Proof.
  intros H Hb. unfold malloc. rewrite !(bind_Done (gets (fun s => 2 * Z.to_nat (u_lim s / 8) + 6)%nat) _ _ _ _ eq_refl).
  rewrite !(bind_Done (gets u_freep) _ _ _ _ eq_refl). cbn [u_freep]. rewrite H, (proj2 (Z.eqb_neq base 0)) by lia. done.
Qed.

(** A call of [malloc], on the heap in either form. *)
Lemma malloc_uheap base s A nb : uheap base s A -> 0 <= nb < 2147483632 ->
  exists p s', malloc base nb s = Done p s' /\ u_lim s' = u_lim s /\ kept A (u_mem s) (u_mem s') /\
    (p = 0 /\ uheap base s' A \/ 0 < p /\ taken base s s' A (units nb) p).
Proof.
  intros [[fr H]|(H0 & -> & Hb & Hb1 & Hb2)] Hn.
  - destruct (malloc_heap base s fr A nb H Hn) as (p & s' & Hr & [(-> & -> & _)|(Hp & Ht & _)]); exists p || exists 0.
    + exists s. split_and!; [done|done|apply kept_refl|left; split; [done|left; eauto]].
    + exists s'. split_and!; [done|apply Ht|apply Ht|by right].
  - pose proof (heap_init base s Hb Hb1 Hb2) as H. rewrite (malloc_start base s nb H0 Hb).
    destruct (malloc_heap base _ [] ∅ nb H Hn) as (p & s' & Hr & [(-> & -> & _)|(Hp & Ht & _)]); exists p || exists 0.
    + eexists. split_and!; [done|done|by intros x a Hx%not_elem_of_empty|left; split; [done|left; eauto]].
    + exists s'. split_and!; [done|apply Ht|by intros x a Hx%not_elem_of_empty|right; split; [done|]].
      destruct Ht as (T1 & T2 & T3 & T4). split_and!; [done|done|by intros x a Hx%not_elem_of_empty|done].
Qed.

Lemma heap_sbrk base s fr A b : heap_ok base s fr A -> u_brk s <= b <= u_lim s ->
  heap_ok base (Ust (u_mem s) (u_freep s) b (u_lim s)) fr A.
Proof.
  intros [? ? ? ? Hal ? ? ?] Hb. split; cbn [u_mem u_freep u_brk u_lim]; try done.
  - eapply Forall_impl; [eassumption|]. cbn. lia.
  - intros x Hx. destruct (Hal x Hx) as (? & ? & ? & ?). split_and!; (done || lia).
  - lia.
Qed.

Lemma heap_write base s fr A x a v : heap_ok base s fr A -> x ∈ A -> x.1 + 8 <= a < fin x ->
  heap_ok base (set_mem (wr8 a v (u_mem s)) s) fr A.
Proof.
  intros H Hx Ha.
  assert (Hhd : forall y : block, y ∈ (base, 0) :: fr \/ y ∈ A -> forall i, 0 <= i < 8 -> rd8 (wr8 a v (u_mem s)) (y.1 + i) = rd8 (u_mem s) (y.1 + i)).
  { intros y Hy i Hi. apply rd8_wr8_ne. destruct Hy as [Hy|Hy].
    - destruct (ring_apart base s fr A x y H Hx Hy); lia.
    - destruct (decide (x = y)) as [->|Hne]; [lia|]. destruct (h_alloc _ _ _ _ H y Hy) as (? & _).
      destruct (h_apart _ _ _ _ H x y Hx Hy Hne); unfold fin in *; lia. }
  assert (Hw : forall y : block, y ∈ (base, 0) :: fr \/ y ∈ A -> rd32 (wr8 a v (u_mem s)) y.1 = rd32 (u_mem s) y.1 /\
    rd32 (wr8 a v (u_mem s)) (y.1 + 4) = rd32 (u_mem s) (y.1 + 4)).
  { intros y Hy. split; apply rd32_ext; intros i Hi; [by apply Hhd; [|lia]|]. rewrite <- !Z.add_assoc. apply Hhd; [done|lia]. }
  destruct H as [? ? ? ? Hal ? ? ?]. split; cbn [u_mem u_freep u_brk u_lim set_mem]; try done.
  - eapply seg_frame; [|eassumption]. intros y Hy. apply Hw. by left.
  - intros y Hy. destruct (Hw y (or_intror Hy)) as [_ ->]. by apply Hal.
Qed.

Lemma sbrk_grows n s r s' : 0 <= n < 2147483648 -> 0 <= u_brk s -> sbrk n s = Done r s' ->
  s' = s \/ exists b, u_brk s <= b <= u_lim s /\ s' = Ust (u_mem s) (u_freep s) b (u_lim s).
Proof.
  intros Hn Hb. unfold sbrk. rewrite i32_small by lia.
  rewrite (proj2 (Z.leb_le 0 n)) by lia. destruct (Z.leb_spec (u_brk s + n) (u_lim s)); intros [= <- <-]; eauto.
  right. exists (u_brk s + n). split; [lia|done].
Qed.

(** The heap stays well formed under all a program does. *)
Lemma uses_heap base lim s A : uses base lim s A -> uheap base s A /\ u_lim s = lim.
Proof.
  induction 1 as [s H0 Hb Hb1 Hb2 Hl|s A nb p s' _ [IH Hl] Hn Hr|s A x s' _ [IH Hl] Hx Hr|s A n r s' _ [IH Hl] Hn Hr|s A x a v _ [IH Hl] Hx Ha].
  - split; [|done]. right. split_and!; (done || lia).
  - destruct (malloc_uheap base s A nb IH Hn) as (p' & s1 & Hr' & Hl' & _ & Hc). rewrite Hr in Hr'. injection Hr' as <- <-.
    split; [|by rewrite Hl']. destruct Hc as [[-> Hh]|(Hp & _ & (fr' & Hh) & _)]; [done|]. rewrite (proj2 (Z.eqb_neq p 0)) by lia. left. eauto.
  - destruct IH as [[fr H]|(_ & -> & _)]; [|by apply not_elem_of_empty in Hx].
    destruct (free_heap base s fr A x H Hx) as (s1 & fr1 & Hr' & H1 & _ & Hl' & _). rewrite Hr in Hr'. injection Hr' as <-.
    split; [left; eauto|by rewrite Hl'].
  - assert (Hb : 0 <= u_brk s) by (destruct IH as [[fr H]|(_ & _ & ? & ? & _)]; [destruct (h_brk _ _ _ _ H)|]; lia).
    destruct (sbrk_grows n s r s' Hn Hb Hr) as [->|(b & Hb' & ->)]; [done|]. split; [|done].
    destruct IH as [[fr H]|(H0 & HA & ? & ? & ?)]; [left; exists fr; by apply heap_sbrk|right; cbn; split_and!; (done || lia)].
  - destruct IH as [[fr H]|(_ & -> & _)]; [|by apply not_elem_of_empty in Hx]. split; [|done]. left. exists fr. by eapply heap_write.
Qed.

(** (C15) In a program that keeps to its blocks, [malloc] returns - the search of the
    circular list ends - and gives 0 or a block the program does not have: its [nb] bytes lie above
    the static header and below the end of memory, apart from all the blocks in use,
    whose contents and headers do not change. *)
Theorem malloc_gives_room base lim s A nb :
  uses base lim s A -> 0 <= nb < 2147483632 ->
  exists p s', malloc base nb s = Done p s' /\ kept A (u_mem s) (u_mem s') /\
    (p = 0 \/
     (base + 16 <= p /\ p + nb <= u_brk s' /\ u_brk s' <= lim /\ (p - 8, units nb) ∉ A /\ uses base lim s' ({[(p - 8, units nb)]} ∪ A) /\
      forall x, x ∈ A -> fin x <= p - 8 \/ p + nb <= x.1)).
Proof.
  intros Hu Hn. destruct (uses_heap base lim s A Hu) as [IH Hl]. destruct (nunits_units nb Hn) as (_ & Hun & Hnb).
  destruct (malloc_uheap base s A nb IH Hn) as (p & s' & Hr & Hl' & Hk & Hc). exists p, s'. split; [done|]. split; [done|].
  destruct Hc as [[-> _]|(Hp & HpA & (fr' & Hh) & _)]; [by left|right].
  destruct (h_alloc _ _ _ _ Hh (p - 8, units nb)) as (_ & Hlo & Hhi & _); [apply elem_of_union_l, elem_of_singleton; done|].
  pose proof (h_brk _ _ _ _ Hh) as (_ & _ & Hb). unfold fin in Hhi. cbn in Hlo, Hhi. split_and!; [lia|lia|lia|done| |].
  - pose proof (uses_malloc base lim s A nb p s' Hu Hn Hr) as Hu'. by rewrite (proj2 (Z.eqb_neq p 0)) in Hu' by lia.
  - intros x Hx. assert (Hne : x <> (p - 8, units nb)) by (intros ->; done).
    destruct (h_apart _ _ _ _ Hh x (p - 8, units nb)) as [Ha|Ha]; [apply elem_of_union_r; done|apply elem_of_union_l, elem_of_singleton; done|done| |];
      unfold fin in Ha; cbn in Ha; [by left|right; lia].
Qed.

(** (C38) What [free] gives back is used again: after it, a request the block has room for is
    met without more memory from the kernel, and the contents of the other blocks in
    use are as they were. *)
Theorem freed_room_reused base lim s A x nb :
  uses base lim s A -> x ∈ A -> 0 <= nb < 2147483632 -> units nb <= x.2 ->
  exists s1 p s2, free (x.1 + 8) s = Done tt s1 /\ malloc base nb s1 = Done p s2 /\ 0 < p /\ u_brk s2 = u_brk s /\
    kept (A ∖ {[x]}) (u_mem s) (u_mem s2) /\ (p - 8, units nb) ∉ A ∖ {[x]}.
Proof.
  intros Hu Hx Hn Hsz. destruct (uses_heap base lim s A Hu) as [[[fr H]|(_ & -> & _)] Hl]; [|by apply not_elem_of_empty in Hx].
  destruct (free_heap base s fr A x H Hx) as (s1 & fr1 & Hf & H1 & Hb1 & _ & (y & Hy & Hyx) & Hm).
  assert (Hbig : exists b, b ∈ fr1 /\ units nb <= b.2) by (exists y; split; [done|lia]).
  destruct (malloc_heap base s1 fr1 _ nb H1 Hn) as (p & s2 & Hr & [(_ & _ & Hsm & _)|(Hp & (HpA & _ & Hk & _) & Hb2)]).
  - destruct Hbig as (b & Hb & Hb'). specialize (Hsm b Hb). lia.
  - exists s1, p, s2. split_and!; [done|done|done|by rewrite Hb2| |done]. eapply kept_trans; [|done]. by apply (free_kept base s fr A x s1 H Hx Hm).
Qed.

(** A program of 8192 bytes whose memory may grow to 128 KB, after [malloc(100)]. *)
Definition start_heap : ust := Ust ∅ 0 8192 131072.
Definition one_block : ust := match malloc 4096 100 start_heap with Done _ s => s | _ => start_heap end.
Lemma one_block_uses : uses 4096 131072 one_block {[(40848, 14)]}.
Proof.
  assert (H0 : uses 4096 131072 start_heap ∅) by (apply uses_start; cbn; lia).
  assert (Hr : malloc 4096 100 start_heap = Done 40856 one_block) by (vm_compute; reflexivity).
  pose proof (uses_malloc _ _ _ _ 100 _ _ H0 ltac:(lia) Hr) as H1. by rewrite (right_id_L ∅ (∪)) in H1.
Qed.
Lemma malloc_gives_room_witness : exists p s', malloc 4096 2000 one_block = Done p s' /\ p <> 0.
Proof.
  destruct (malloc_gives_room 4096 131072 one_block _ 2000 one_block_uses ltac:(lia)) as (p & s' & Hr & _ & Hc).
  exists p, s'. split; [exact Hr|]. destruct Hc as [->|Hc]; [|lia]. exfalso. revert Hr. vm_compute. discriminate.
Defined.
Lemma freed_room_reused_witness : exists s1 p s2, free 40856 one_block = Done tt s1 /\ malloc 4096 100 s1 = Done p s2 /\ 0 < p /\ u_brk s2 = u_brk one_block.
Proof.
  destruct (freed_room_reused 4096 131072 one_block _ (40848, 14) 100 one_block_uses ltac:(by apply elem_of_singleton) ltac:(lia) ltac:(cbv; discriminate))
    as (s1 & p & s2 & H1 & H2 & H3 & H4 & _). exists s1, p, s2. split; [exact H1|]. split; [exact H2|]. split; [exact H3|exact H4].
Defined.

(** The size of the request wraps: for the largest ones the block has no room at all. *)
Lemma malloc_wraps : exists p s', malloc 4096 4294967295 one_block = Done p s' /\ p <> 0 /\ rd32 (u_mem s') (p - 4) = 1.
Proof. eexists _, _. split; [vm_compute; reflexivity|]. by vm_compute. Qed.
