(* ===== verification/Mkfs.v ===== *)
(** * The file-system image builder ([mkfs.c])

    The program that makes the disk image the kernel boots from.  The image file is a
    map from sectors to blocks, to which [wsect] adds and which [rsect] reads (past its end the
    host's [read] fails and the program exits); the host is little-endian, as the byte
    order routines spell out.  A [struct dinode] in memory is the kernel's [inode]
    record, of which it uses the fields that are on the disk; [dinode_off],
    [store_dinode], [mk_dirent] are the layouts of [fs.h].

    A file named on the command line is a name and, if the host can open it, its
    contents, which the host's [read] gives a buffer at a time. *)
From stdpp Require Import gmap.
From S2P Require Import Prelude Layout Sleeplock Blocks Log Fs FsSpec.

Definition NINODES : Z := 200.
Definition nbitmap : Z := FSSIZE `div` (BSIZE * 8) + 1.
Definition ninodeblocks : Z := NINODES `div` IPB + 1.
Definition nlog : Z := LOGSIZE.
Definition nmeta : Z := 2 + nlog + ninodeblocks + nbitmap.
Definition nblocks : Z := FSSIZE - nmeta.

(** The bytes of a [ushort] and of a [uint] in Intel order, read by the host. *)
Definition xshort (x : Z) : Z := get16 [x `mod` 256; (x ≫ 8) `mod` 256] 0.
Definition xint (x : Z) : Z :=
  get32 [x `mod` 256; (x ≫ 8) `mod` 256; (x ≫ 16) `mod` 256; (x ≫ 24) `mod` 256] 0.

Definition mk_sb : superblock :=
  Superblock (xint FSSIZE) (xint nblocks) (xint NINODES) (xint nlog) (xint 2) (xint (2 + nlog)) (xint (2 + nlog + ninodeblocks)).

Record mkst := Mkst { m_img : gmap Z block; m_freeinode : Z; m_freeblock : Z }.
Definition zeroes : block := replicate (Z.to_nat BSIZE) 0.

Definition wsect (sec : Z) (buf : block) : M mkst unit :=
  modify (fun s => Mkst (<[sec := buf]> (m_img s)) (m_freeinode s) (m_freeblock s)).
Definition rsect (sec : Z) : M mkst block := fun s =>
  match m_img s !! sec with Some d => Done d s | None => Panic "read" end.
(** [freeblock++] and [freeinode++]. *)
Definition next_block : M mkst Z := fun s => Done (m_freeblock s) (Mkst (m_img s) (m_freeinode s) (m_freeblock s + 1)).
Definition next_inode : M mkst Z := fun s => Done (m_freeinode s) (Mkst (m_img s) (m_freeinode s + 1) (m_freeblock s)).

Definition winode (inum : Z) (ip : inode) : M mkst unit :=
  let bn := IBLOCK inum mk_sb in
  buf ← rsect bn;
  wsect bn (store_dinode (dinode_off inum) ip buf).

(** A [struct dinode] of zeroes. *)
Definition zero_inode : inode := Inode 1 0 0 initsleeplock 0 0 0 0 0 0 (replicate 13 0).
Definition rinode (inum : Z) : M mkst inode :=
  buf ← rsect (IBLOCK inum mk_sb);
  mret (load_dinode buf (dinode_off inum) zero_inode).

Definition ialloc (type : Z) : M mkst Z :=
  inum ← next_inode;
  winode inum (with_meta (xshort type) 0 0 (xshort 1) (xint 0) (replicate 13 0) zero_inode) ;;
  mret inum.

Definition balloc (used : Z) : M mkst unit :=
  if BSIZE * 8 <=? used then panic "assert: used < BSIZE*8" else
  wsect (sb_bmapstart mk_sb) (foldl (fun buf i => mark_bit i buf) zeroes (seqZ 0 used)).

(** The block of the file offset [off]: allocated, if the file does not have it. *)
Definition iappend_block (din : inode) (fbn : Z) : M mkst (inode * Z) :=
  if fbn <? NDIRECT then
    (if xint (i_addrs din !!! Z.to_nat fbn) =? 0 then
       b ← next_block; let din := with_addr fbn (xint b) din in
       mret (din, xint (i_addrs din !!! Z.to_nat fbn))
     else mret (din, xint (i_addrs din !!! Z.to_nat fbn)))
  else
    din ← (if xint (i_addrs din !!! Z.to_nat NDIRECT) =? 0 then
             b ← next_block; mret (with_addr NDIRECT (xint b) din)
           else mret din);
    indirect ← rsect (xint (i_addrs din !!! Z.to_nat NDIRECT));
    let k := Z.to_nat (4 * (fbn - NDIRECT)) in
    indirect ← (if get32 indirect k =? 0 then
                  b ← next_block;
                  let indirect := put32 k (xint b) indirect in
                  wsect (xint (i_addrs din !!! Z.to_nat NDIRECT)) indirect ;;
                  mret indirect
                else mret indirect);
    mret (din, xint (get32 indirect k)).

(** One turn of the loop of [iappend]: the bytes [p] left, the offset, the inode. *)
Definition iappend_body (x : inode * Z * list Z) : M mkst (inode * Z * list Z + inode * Z) :=
  let '(din, off, p) := x in
  let n := Z.of_nat (length p) in
  if negb (0 <? n) then mret (inr (din, off)) else
  let fbn := off `div` BSIZE in
  if MAXFILE <=? fbn then panic "assert: fbn < MAXFILE" else
  r ← iappend_block din fbn;
  let '(din, x) := r in
  let n1 := n `min` ((fbn + 1) * BSIZE - off) in
  buf ← rsect x;
  wsect x (splice (Z.to_nat (off - fbn * BSIZE)) (take (Z.to_nat n1) p) buf) ;;
  mret (inl (din, off + n1, drop (Z.to_nat n1) p)).

Definition iappend (inum : Z) (p : list Z) : M mkst unit :=
  din ← rinode inum;
  r ← loop (io_fuel (Z.of_nat (length p))) iappend_body (din, xint (i_size din), p);
  let '(din, off) := r in
  winode inum (with_size (xint off) din).

(** The reads of a buffer's length until the end of the file. *)
Fixpoint append_file (fuel : nat) (inum : Z) (l : list Z) : M mkst unit :=
  match fuel with
  | O => spin
  | S f =>
      match l with
      | [] => mret tt
      | _ => iappend inum (take (Z.to_nat BSIZE) l) ;; append_file f inum (drop (Z.to_nat BSIZE) l)
      end
  end.

(** [de.inum = xshort(inum); strncpy(de.name, name, DIRSIZ)] in a zeroed entry. *)
Definition dir_entry (inum : Z) (name : list Z) : list Z := mk_dirent (xshort inum) (strncpy_bytes (Z.to_nat DIRSIZ) name).

Definition underscore : Z := 95.
(** [if(argv[i][0] == '_') ++argv[i]]. *)
Definition skip_underscore (name : list Z) : list Z := if hd 0 name =? underscore then drop 1 name else name.
(** A turn of the loop over the command line. *)
Definition add_file (rootino : Z) (f : list Z * option (list Z)) : M mkst unit :=
  let (name, file) := f in
  if bool_decide (slash ∈ name) then panic "assert: index(argv[i], '/') == 0" else
  match file with
  | None => panic "open"
  | Some l =>
      let name := skip_underscore name in
      inum ← ialloc T_FILE;
      iappend rootino (dir_entry inum name) ;;
      append_file (S (length l)) inum l
  end.

Definition sb_block : block :=
  put32 24 (sb_bmapstart mk_sb) (put32 20 (sb_inodestart mk_sb) (put32 16 (sb_logstart mk_sb) (put32 12 (sb_nlog mk_sb)
    (put32 8 (sb_ninodes mk_sb) (put32 4 (sb_nblocks mk_sb) (put32 0 (sb_size mk_sb) zeroes)))))).
Definition dot : list Z := [46].
Definition dotdot : list Z := [46; 46].

Definition main (files : list (list Z * option (list Z))) : M mkst unit :=
  modify (fun s => Mkst (m_img s) (m_freeinode s) nmeta) ;;
  for_each (seqZ 0 FSSIZE) (fun i => wsect i zeroes) ;;
  wsect 1 sb_block ;;
  rootino ← ialloc T_DIR;
  if rootino !=? ROOTINO then panic "assert: rootino == ROOTINO" else
  iappend rootino (dir_entry rootino dot) ;;
  iappend rootino (dir_entry rootino dotdot) ;;
  for_each files (add_file rootino) ;;
  din ← rinode rootino;
  let off := xint (i_size din) in
  let off := (off `div` BSIZE + 1) * BSIZE in
  winode rootino (with_size (xint off) din) ;;
  used ← gets m_freeblock;
  balloc used.
(** The image file is truncated, the first free inode is 1. *)
Definition mkfs (files : list (list Z * option (list Z))) : outcome mkst unit := main files (Mkst ∅ 1 0).
