(* ===== verification/MkfsTheorems.v ===== *)
(** * The image [mkfs] builds

    A file of the image by its blocks and its contents, the invariant of the image with its
    files, and what each routine of [mkfs] adds; at the end the image as the kernel
    reads it: the super block, the inodes with their contents, the bitmap. *)
From stdpp Require Import gmap.
From S2P Require Import Prelude Layout Sleeplock Blocks Log Fs FsSpec FsNames FsData Mkfs.

Definition img (s : mkst) (b : Z) : block := m_img s !!! b.

Lemma xint_id x : 0 <= x < 4294967296 -> xint x = x.
Proof.
  intros Hx. unfold xint, get32. cbn [lookup_total list_lookup_total Nat.add].
  rewrite !Z.shiftr_div_pow2 by lia. change (2 ^ 8) with 256. change (2 ^ 16) with 65536. change (2 ^ 24) with 16777216. zlia.
Qed.
Lemma xshort_id x : 0 <= x < 65536 -> xshort x = x.
Proof.
  intros Hx. unfold xshort, get16. cbn [lookup_total list_lookup_total Nat.add].
  rewrite !Z.shiftr_div_pow2 by lia. change (2 ^ 8) with 256. zlia.
Qed.

(** ** A file of the image *)
Record gfile := Gfile { g_type : Z; g_blocks : list Z; g_ind : Z; g_data : list Z }.
Definition nblk (g : gfile) : Z := Z.of_nat (length (g_blocks g)).
Definition size_of (g : gfile) : Z := Z.of_nat (length (g_data g)).
(** The blocks of a file, the indirect one with them. *)
Definition owned (g : gfile) : list Z := g_blocks g ++ (if NDIRECT <? nblk g then [g_ind g] else []).
(** Blocks taken by a file of [n] data blocks. *)
Definition cost (n : Z) : Z := if NDIRECT <? n then n + 1 else n.

(** The addresses of [i] lead to the blocks of [g], which hold its data. *)
Record rep (c : Z -> block) (i : inode) (g : gfile) : Prop := Rep {
  r_len : length (i_addrs i) = 13%nat;
  r_words : Forall (fun a => 0 <= a < 4294967296) (i_addrs i);
  r_max : nblk g <= MAXFILE;
  r_cover : size_of g <= 512 * nblk g;
  r_blk : forall k, 0 <= k < nblk g -> blk c i k = g_blocks g !!! Z.to_nat k;
  r_rest : forall k, nblk g <= k < NDIRECT -> i_addrs i !!! Z.to_nat k = 0;
  r_ind : i_addrs i !!! Z.to_nat NDIRECT = if NDIRECT <? nblk g then g_ind g else 0;
  r_indrest : NDIRECT < nblk g -> forall k, nblk g <= k < MAXFILE -> blk c i k = 0;
  r_data : forall x, 0 <= x < size_of g -> fbyte c i x = g_data g !!! Z.to_nat x }.

(** The blocks of a file are its own, allocated ones. *)
Record placed (g : gfile) (hi : Z) : Prop := Placed {
  p_nodup : NoDup (owned g);
  p_range : forall b, b ∈ owned g -> nmeta <= b < hi }.

(** The image has all its sectors, and those not allocated are zero. *)
Record img_ok (s : mkst) : Prop := ImgOk {
  im_all : forall b, 0 <= b < FSSIZE -> exists d, m_img s !! b = Some d /\ length d = 512%nat;
  im_free : forall b, m_freeblock s <= b < FSSIZE -> img s b = zeroes;
  im_low : nmeta <= m_freeblock s <= FSSIZE }.

Lemma img_lookup s b : img_ok s -> 0 <= b < FSSIZE -> m_img s !! b = Some (img s b) /\ length (img s b) = 512%nat.
Proof.
  intros H Hb. destruct (im_all _ H b Hb) as (d & Hd & Hl). unfold img. by rewrite (lookup_total_correct _ _ _ Hd).
Qed.
Lemma rsect_ok s b : img_ok s -> 0 <= b < FSSIZE -> rsect b s = Done (img s b) s.
Proof. intros H Hb. unfold rsect. by rewrite (proj1 (img_lookup s b H Hb)). Qed.

Definition written (b : Z) (d : block) (s : mkst) : mkst := Mkst (<[b := d]> (m_img s)) (m_freeinode s) (m_freeblock s).
Lemma img_written b d s x : img (written b d s) x = if decide (x = b) then d else img s x.
Proof. unfold img, written. cbn. destruct (decide (x = b)) as [->|Hx]; [by rewrite lookup_total_insert_eq|by rewrite lookup_total_insert_ne]. Qed.
Lemma written_ok b d s : img_ok s -> 0 <= b < m_freeblock s -> length d = 512%nat -> img_ok (written b d s).
Proof.
  intros H Hb Hd. split; [| |apply H].
  - intros x Hx. cbn. destruct (decide (x = b)) as [->|Hne]; [exists d; by rewrite lookup_insert_eq|rewrite lookup_insert_ne by done; by apply (im_all _ H)].
  - intros x Hx. rewrite img_written, decide_False by (cbn in Hx; lia). by apply (im_free _ H).
Qed.
Definition bumped (s : mkst) : mkst := Mkst (m_img s) (m_freeinode s) (m_freeblock s + 1).
Lemma bumped_ok s : img_ok s -> m_freeblock s < FSSIZE -> img_ok (bumped s).
Proof. intros H Hf. destruct H as [H1 H2 H3]. split; [done| |cbn; lia]. intros b Hb. apply H2. cbn in Hb. lia. Qed.

(** Writing outside the blocks of a file does not touch it. *)
Lemma blk_frame c c' i k g : (forall b, b ∈ owned g -> c' b = c b) -> i_addrs i !!! Z.to_nat NDIRECT = (if NDIRECT <? nblk g then g_ind g else 0) ->
  (NDIRECT <= k -> NDIRECT < nblk g) -> blk c' i k = blk c i k.
Proof.
  intros Hc Hi Hk. unfold blk. destruct (Z.ltb_spec k NDIRECT); [done|]. rewrite Hi, (proj2 (Z.ltb_lt _ _)) by lia.
  rewrite Hc; [done|]. unfold owned. rewrite (proj2 (Z.ltb_lt _ _)) by lia. apply elem_of_app. right. by apply list_elem_of_singleton.
Qed.
Lemma in_blocks g k : 0 <= k < nblk g -> g_blocks g !!! Z.to_nat k ∈ g_blocks g.
Proof. intros Hk. eapply list_elem_of_lookup_2, list_lookup_lookup_total_lt. unfold nblk in Hk. lia. Qed.
Lemma rep_frame c c' i g : (forall b, b ∈ owned g -> c' b = c b) -> rep c i g -> rep c' i g.
Proof.
  intros Hc [R1 R2 R3 R4 R5 R6 R7 R8 R9].
  assert (Hb : forall k, 0 <= k < nblk g -> blk c' i k = blk c i k) by (intros k Hk; apply (blk_frame _ _ _ _ g); [done|done|lia]).
  split; try done.
  - intros k Hk. rewrite Hb by done. by apply R5.
  - intros Hn k Hk. rewrite (blk_frame c) with (g := g) by (done || lia). by apply R8.
  - intros x Hx. rewrite <- R9 by done. unfold fbyte. rewrite Hb by zlia. rewrite Hc; [done|].
    rewrite R5 by zlia. unfold owned. apply elem_of_app. left. apply in_blocks. zlia.
Qed.

(** ** A new block *)
Definition grow (g : gfile) (x ind : Z) : gfile := Gfile (g_type g) (g_blocks g ++ [x]) ind (g_data g).
Lemma nblk_grow g x ind : nblk (grow g x ind) = nblk g + 1.
Proof. unfold nblk, grow. cbn. rewrite length_app. cbn. lia. Qed.
Lemma blocks_grow g x ind k : 0 <= k <= nblk g ->
  g_blocks (grow g x ind) !!! Z.to_nat k = if decide (k = nblk g) then x else g_blocks g !!! Z.to_nat k.
Proof.
  intros Hk. unfold grow, nblk in *. cbn. destruct (decide _) as [->|Hne].
  - rewrite lookup_total_app_r by lia. by replace (Z.to_nat (Z.of_nat (length (g_blocks g))) - length (g_blocks g))%nat with 0%nat by lia.
  - by rewrite lookup_total_app_l by lia.
Qed.
Lemma nblk_nonneg g : 0 <= nblk g.
Proof. unfold nblk. lia. Qed.

Lemma addr_with n v i k : length (i_addrs i) = 13%nat -> 0 <= n < 13 -> 0 <= k ->
  i_addrs (with_addr n v i) !!! Z.to_nat k = if decide (k = n) then v else i_addrs i !!! Z.to_nat k.
Proof.
  intros Hl Hn Hk. unfold with_addr, with_meta. cbn. destruct (decide (k = n)) as [->|Hne].
  - by rewrite list_lookup_total_insert_eq by lia.
  - by rewrite list_lookup_total_insert_ne by lia.
Qed.

Lemma grow_direct c i g x : rep c i g -> nblk g < NDIRECT -> size_of g = 512 * nblk g -> 0 <= x < 4294967296 ->
  rep c (with_addr (nblk g) x i) (grow g x (g_ind g)).
Proof.
  intros [R1 R2 R3 R4 R5 R6 R7 R8 R9] Hn Hs Hx. pose proof (nblk_nonneg g). unfold NDIRECT in *. change MAXFILE with 140 in *.
  assert (Ha : forall k, 0 <= k -> i_addrs (with_addr (nblk g) x i) !!! Z.to_nat k = if decide (k = nblk g) then x else i_addrs i !!! Z.to_nat k)
    by (intros k Hk; apply addr_with; (done || lia)).
  assert (Hb : forall k, 0 <= k < 12 -> blk c (with_addr (nblk g) x i) k = if decide (k = nblk g) then x else blk c i k).
  { intros k Hk. unfold blk, NDIRECT. rewrite !(proj2 (Z.ltb_lt k 12)) by lia. apply Ha; lia. }
  split; rewrite ?nblk_grow; unfold NDIRECT; change MAXFILE with 140.
  - cbn. by rewrite length_insert.
  - cbn. by apply Forall_insert.
  - lia.
  - unfold size_of in *. cbn. lia.
  - intros k Hk. rewrite Hb, blocks_grow by lia. destruct (decide _); [done|]. apply R5. lia.
  - intros k Hk. rewrite Ha, decide_False by lia. apply R6. lia.
  - rewrite (Ha 12), decide_False by lia. rewrite R7. by rewrite !(proj2 (Z.ltb_ge 12 _)) by lia.
  - lia.
  - intros y Hy. unfold size_of in *. cbn in Hy. cbn [grow g_data]. rewrite <- R9 by done. unfold fbyte.
    rewrite Hb, decide_False by zlia. done.
Qed.

Lemma grow_indirect c c' i i' g x ind : rep c i g -> NDIRECT <= nblk g < MAXFILE -> size_of g = 512 * nblk g -> 0 <= x < 4294967296 ->
  0 <= ind < 4294967296 -> i_addrs i' = <[Z.to_nat NDIRECT := ind]> (i_addrs i) -> length (c ind) = 512%nat ->
  (forall k, NDIRECT <= k < MAXFILE -> get32 (c ind) (Z.to_nat (4 * (k - NDIRECT))) = if k <? nblk g then g_blocks g !!! Z.to_nat k else 0) ->
  ind ∉ g_blocks g -> (forall b, c' b = if decide (b = ind) then put32 (Z.to_nat (4 * (nblk g - NDIRECT))) x (c ind) else c b) ->
  rep c' i' (grow g x ind).
Proof.
  intros [R1 R2 R3 R4 R5 R6 R7 R8 R9] Hn Hs Hx Hi Ha Hl Hw Hnot Hc. change MAXFILE with 140 in *. unfold NDIRECT in *.
  assert (Ha12 : i_addrs i' !!! Z.to_nat 12 = ind) by (rewrite Ha; rewrite list_lookup_total_insert_eq by lia; done).
  assert (Hak : forall k, 0 <= k < 12 -> i_addrs i' !!! Z.to_nat k = i_addrs i !!! Z.to_nat k)
    by (intros k Hk; rewrite Ha; rewrite list_lookup_total_insert_ne by lia; done).
  assert (Hb : forall k, 0 <= k < 140 -> blk c' i' k = if k <? nblk g then g_blocks g !!! Z.to_nat k else if k =? nblk g then x else 0).
  { intros k Hk. unfold blk, NDIRECT. destruct (Z.ltb_spec k 12).
    - rewrite Hak by lia. rewrite (proj2 (Z.ltb_lt k (nblk g))) by lia. rewrite <- R5 by lia. unfold blk, NDIRECT. by rewrite (proj2 (Z.ltb_lt k 12)).
    - rewrite Ha12, Hc, decide_True by done. destruct (Z.eqb_spec k (nblk g)) as [->|Hne].
      + rewrite Z.ltb_irrefl, get32_put32 by (rewrite Hl; lia). by apply u32_small.
      + rewrite get32_put32_ne by lia. rewrite Hw by lia. done. }
  split; rewrite ?nblk_grow; unfold NDIRECT; change MAXFILE with 140.
  - rewrite Ha. by rewrite length_insert.
  - rewrite Ha. by apply Forall_insert.
  - lia.
  - unfold size_of in *. cbn. lia.
  - intros k Hk. rewrite Hb, blocks_grow by lia. destruct (Z.ltb_spec k (nblk g)); [by rewrite decide_False by lia|].
    rewrite (proj2 (Z.eqb_eq _ _)), decide_True by lia. done.
  - lia.
  - rewrite Ha12. by rewrite (proj2 (Z.ltb_lt _ _)) by lia.
  - intros _ k Hk. rewrite Hb by lia. rewrite (proj2 (Z.ltb_ge _ _)), (proj2 (Z.eqb_neq _ _)) by lia. done.
  - intros y Hy. unfold size_of in *. cbn in Hy. cbn [grow g_data]. rewrite <- R9 by done. unfold fbyte.
    rewrite Hb by zlia. rewrite (proj2 (Z.ltb_lt _ _)) by zlia. rewrite R5 by zlia. rewrite Hc, decide_False; [done|].
    intros He. apply Hnot. rewrite <- He. apply in_blocks. zlia.
Qed.

(** ** The block of an offset *)
Definition same_meta (i i' : inode) : Prop :=
  i_type i' = i_type i /\ i_major i' = i_major i /\ i_minor i' = i_minor i /\ i_nlink i' = i_nlink i /\ i_size i' = i_size i.
(** No block is past the end of the data. *)
Definition tight (g : gfile) : Prop := 512 * nblk g < size_of g + 512.

(** What a routine that appends to the file of [g] leaves: the file is that of [g'], its
    new blocks come from the free ones, other blocks are as before. *)
Record appended (s s' : mkst) (i i' : inode) (g g' : gfile) : Prop := Appended {
  ap_ok : img_ok s';
  ap_rep : rep (img s') i' g';
  ap_placed : placed g' (m_freeblock s');
  ap_cost : m_freeblock s' + cost (nblk g) = m_freeblock s + cost (nblk g');
  ap_mono : m_freeblock s <= m_freeblock s';
  ap_inode : m_freeinode s' = m_freeinode s;
  ap_frame : forall b, b < m_freeblock s -> b ∉ owned g -> img s' b = img s b;
  ap_own : forall b, b ∈ owned g' -> b ∈ owned g \/ m_freeblock s <= b;
  ap_type : g_type g' = g_type g;
  ap_meta : same_meta i i' }.

Lemma appended_refl s i g : img_ok s -> rep (img s) i g -> placed g (m_freeblock s) -> appended s s i i g g.
Proof. intros. split; first [done | by left | by split_and! | lia]. Qed.

Lemma ind_owned g : NDIRECT < nblk g -> g_ind g ∈ owned g.
Proof. intros Hn. unfold owned. rewrite (proj2 (Z.ltb_lt _ _)) by done. apply elem_of_app. right. by apply list_elem_of_singleton. Qed.
Lemma block_owned g k : 0 <= k < nblk g -> g_blocks g !!! Z.to_nat k ∈ owned g.
Proof. intros Hk. unfold owned. apply elem_of_app. left. by apply in_blocks. Qed.
Lemma nmeta_pos : nmeta = 59.
Proof. done. Qed.

(** [grow] with a free block, and with a free indirect block if one is needed. *)
Lemma owned_grow g x ind : NDIRECT < nblk g -> ind = g_ind g -> Permutation (owned (grow g x ind)) (x :: owned g).
Proof.
  intros Hn ->. unfold owned. rewrite nblk_grow, !(proj2 (Z.ltb_lt _ _)) by lia. cbn [grow g_blocks g_ind].
  rewrite <- app_assoc. symmetry. apply Permutation_middle.
Qed.
Lemma owned_direct g x : nblk g < NDIRECT -> owned (grow g x (g_ind g)) = g_blocks g ++ [x] /\ owned g = g_blocks g.
Proof.
  intros Hn. unfold owned. rewrite nblk_grow, !(proj2 (Z.ltb_ge _ _)) by lia. by rewrite !app_nil_r.
Qed.
Lemma placed_add g g' x hi hi' : placed g hi -> Permutation (owned g') (x :: owned g) -> hi <= x < hi' -> nmeta <= hi -> placed g' hi'.
Proof.
  intros [P1 P2] Hp Hx Hh. split.
  - rewrite Hp. apply NoDup_cons. split; [intros Hb; specialize (P2 x Hb); lia|done].
  - intros b Hb. rewrite Hp in Hb. apply elem_of_cons in Hb as [->|Hb]; [lia|]. specialize (P2 b Hb). lia.
Qed.
Lemma own_add g g' x hi : Permutation (owned g') (x :: owned g) -> hi <= x -> forall b, b ∈ owned g' -> b ∈ owned g \/ hi <= b.
Proof. intros Hp Hx b Hb. rewrite Hp in Hb. apply elem_of_cons in Hb as [->|Hb]; [by right|by left]. Qed.

Section block.
Context (s : mkst) (din : inode) (g : gfile).
Context (Hok : img_ok s) (Hrep : rep (img s) din g) (Hpl : placed g (m_freeblock s)) (Ht : tight g).

(** The offset lies in the last block. *)
Lemma block_there : size_of g `mod` 512 <> 0 ->
  nblk g = size_of g `div` 512 + 1 /\
  iappend_block din (size_of g `div` 512) s = Done (din, g_blocks g !!! Z.to_nat (size_of g `div` 512)) s.
Proof.
  intros Hm. unfold tight in Ht. pose proof (r_cover _ _ _ Hrep) as Hc. pose proof (r_max _ _ _ Hrep) as Hx. change MAXFILE with 140 in Hx.
  assert (H0 : 0 <= size_of g) by (unfold size_of; lia). assert (Hn : nblk g = size_of g `div` 512 + 1) by zlia. split; [done|].
  set (k := size_of g `div` 512) in *. assert (Hk : 0 <= k < nblk g) by (unfold k; zlia).
  pose proof (r_blk _ _ _ Hrep k Hk) as Hb. destruct (p_range _ _ Hpl _ (block_owned g k Hk)) as [Hlo Hhi].
  pose proof (im_low _ Hok) as Hlow. rewrite nmeta_pos in *. unfold FSSIZE in *. unfold iappend_block. unfold blk in Hb.
  destruct (Z.ltb_spec k NDIRECT) as [Hd|Hd].
  - rewrite xint_id by lia. rewrite (proj2 (Z.eqb_neq _ _)) by lia. by rewrite Hb.
  - assert (Hnd : NDIRECT < nblk g) by lia. pose proof (r_ind _ _ _ Hrep) as Hi. rewrite (proj2 (Z.ltb_lt _ _) Hnd) in Hi.
    destruct (p_range _ _ Hpl _ (ind_owned g Hnd)) as [Hilo Hihi]. rewrite nmeta_pos in *. rewrite Hi in *. rewrite xint_id by lia.
    rewrite (proj2 (Z.eqb_neq (g_ind g) 0)) by lia. rewrite (bind_Done _ _ s din s eq_refl). rewrite Hi, xint_id by lia.
    rewrite (bind_Done _ _ s (img s (g_ind g)) s) by (apply rsect_ok; [done|unfold FSSIZE; lia]). cbv zeta.
    rewrite Hb, (proj2 (Z.eqb_neq _ 0)) by lia. rewrite (bind_Done _ _ s (img s (g_ind g)) s eq_refl). rewrite Hb, xint_id by lia. done.
Qed.

(** The offset is the end of the blocks: one is added. *)
Lemma block_direct : size_of g = 512 * nblk g -> nblk g < NDIRECT -> m_freeblock s < FSSIZE ->
  let x := m_freeblock s in let i' := with_addr (nblk g) x din in
  iappend_block din (nblk g) s = Done (i', x) (bumped s) /\ appended s (bumped s) din i' g (grow g x (g_ind g)).
Proof.
  intros Hs Hd Hf x i'. pose proof (nblk_nonneg g) as H0. pose proof (im_low _ Hok) as Hlow. rewrite nmeta_pos in Hlow. unfold FSSIZE in *.
  assert (Ha0 : i_addrs din !!! Z.to_nat (nblk g) = 0) by (apply (r_rest _ _ _ Hrep); lia).
  assert (Hx : xint x = x) by (apply xint_id; unfold x; lia). destruct (owned_direct g x Hd) as [Ho1 Ho2].
  assert (Hperm : Permutation (owned (grow g x (g_ind g))) (x :: owned g)) by (rewrite Ho1, Ho2; symmetry; apply Permutation_cons_append).
  split.
  - unfold iappend_block. rewrite (proj2 (Z.ltb_lt _ _) Hd), Ha0. change (xint 0 =? 0) with true. cbv iota.
    rewrite (bind_Done next_block _ s x (bumped s) eq_refl). cbv zeta. rewrite Hx.
    fold i'. unfold i' at 2. rewrite addr_with, decide_True by (apply Hrep || unfold NDIRECT in *; lia). by rewrite Hx.
  - split.
    + by apply bumped_ok.
    + by apply grow_direct; [..|unfold x; lia].
    + eapply placed_add; [exact Hpl|exact Hperm|unfold x, bumped; cbn; lia|rewrite nmeta_pos; lia].
    + unfold bumped. cbn. rewrite nblk_grow. unfold cost. rewrite !(proj2 (Z.ltb_ge _ _)) by lia. lia.
    + cbn. lia.
    + done.
    + done.
    + apply (own_add _ _ x); [exact Hperm|unfold x; lia].
    + done.
    + by split_and!.
Qed.

(** The same in the indirect block [ind], which is in place: the state [s1] in which it
    is, and the word that becomes [x]. *)
Lemma entry_added s1 i1 ind : rep (img s1) din g -> img_ok s1 -> NDIRECT <= nblk g < MAXFILE -> size_of g = 512 * nblk g ->
  nmeta <= ind < m_freeblock s1 -> m_freeblock s1 < FSSIZE -> i_addrs i1 = <[Z.to_nat NDIRECT := ind]> (i_addrs din) ->
  (forall k, NDIRECT <= k < MAXFILE -> get32 (img s1 ind) (Z.to_nat (4 * (k - NDIRECT))) = if k <? nblk g then g_blocks g !!! Z.to_nat k else 0) ->
  ind ∉ g_blocks g ->
  let x := m_freeblock s1 in let kk := Z.to_nat (4 * (nblk g - NDIRECT)) in let d := put32 kk (xint x) (img s1 ind) in
  (indirect ← rsect (xint (i_addrs i1 !!! Z.to_nat NDIRECT));
   indirect ← (if get32 indirect kk =? 0 then
                  b ← next_block;
                  let indirect := put32 kk (xint b) indirect in
                  wsect (xint (i_addrs i1 !!! Z.to_nat NDIRECT)) indirect ;;
                  mret indirect
                else mret indirect);
   mret (i1, xint (get32 indirect kk))) s1 = Done (i1, x) (written ind d (bumped s1)) /\
  rep (img (written ind d (bumped s1))) i1 (grow g x ind) /\ img_ok (written ind d (bumped s1)).
Proof.
  intros Hr Hok1 Hn Hs Hi Hf Ha Hw Hnot x kk d. rewrite nmeta_pos in Hi. unfold FSSIZE in Hf.
  pose proof (img_lookup s1 ind Hok1 ltac:(unfold FSSIZE; lia)) as [_ Hl].
  assert (Ha12 : i_addrs i1 !!! Z.to_nat NDIRECT = ind) by (rewrite Ha; apply list_lookup_total_insert_eq; rewrite (r_len _ _ _ Hr); unfold NDIRECT; lia).
  assert (Hx : xint x = x) by (apply xint_id; unfold x; lia). assert (Hxi : xint ind = ind) by (apply xint_id; lia).
  assert (Hkk : (kk + 4 <= 512)%nat) by (unfold kk, NDIRECT in *; change MAXFILE with 140 in Hn; lia).
  assert (Hg : get32 (img s1 ind) kk = 0) by (unfold kk; rewrite Hw, Z.ltb_irrefl by lia; done).
  rewrite Ha12, Hxi. split; [|split].
  - rewrite (bind_Done _ _ s1 (img s1 ind) s1) by (apply rsect_ok; [done|unfold FSSIZE; lia]).
    cbv beta. rewrite Hg. change (0 =? 0) with true. cbv iota.
    rewrite (bind_Done _ _ s1 d (written ind d (bumped s1))) by done.
    unfold d at 1. rewrite get32_put32 by lia. rewrite Hx, u32_small, Hx by (unfold x; lia). done.
  - unfold d. rewrite Hx. apply (grow_indirect (img s1) _ din); try done; [unfold x; lia|lia|]. intros b. rewrite img_written. done.
  - apply written_ok; [by apply bumped_ok|cbn; lia|]. unfold d. by rewrite length_put32.
Qed.

Lemma block_indirect_there : size_of g = 512 * nblk g -> NDIRECT < nblk g < MAXFILE -> m_freeblock s < FSSIZE ->
  let x := m_freeblock s in
  exists s', iappend_block din (nblk g) s = Done (din, x) s' /\ appended s s' din din g (grow g x (g_ind g)).
Proof.
  intros Hs Hn Hf x. pose proof (im_low _ Hok) as Hlow. destruct (p_range _ _ Hpl _ (ind_owned g ltac:(lia))) as [Hilo Hihi].
  pose proof (r_ind _ _ _ Hrep) as Hi. rewrite (proj2 (Z.ltb_lt _ _)) in Hi by lia. rewrite nmeta_pos in *.
  assert (Hnot : g_ind g ∉ g_blocks g).
  { pose proof (p_nodup _ _ Hpl) as Hnd. unfold owned in Hnd. rewrite (proj2 (Z.ltb_lt _ _)) in Hnd by lia.
    apply NoDup_app in Hnd as (_ & Hnd & _). intros Hb. apply (Hnd _ Hb). by apply list_elem_of_singleton. }
  assert (Hid : i_addrs din = <[Z.to_nat NDIRECT := g_ind g]> (i_addrs din)).
  { symmetry. apply list_insert_id. rewrite <- Hi. apply list_lookup_lookup_total_lt. rewrite (r_len _ _ _ Hrep). unfold NDIRECT. lia. }
  destruct (entry_added s din (g_ind g) Hrep Hok ltac:(lia) Hs ltac:(rewrite nmeta_pos; lia) Hf Hid) as (Hrun & Hrep' & Hok'); [|done|].
  { intros k Hk. destruct (Z.ltb_spec k (nblk g)) as [Hlt|Hge].
    - rewrite <- (r_blk _ _ _ Hrep) by (unfold NDIRECT in *; lia). unfold blk. by rewrite (proj2 (Z.ltb_ge k NDIRECT)), Hi by lia.
    - rewrite <- (r_indrest _ _ _ Hrep) with (k := k) by lia. unfold blk. by rewrite (proj2 (Z.ltb_ge k NDIRECT)), Hi by lia. }
  assert (Hperm : Permutation (owned (grow g x (g_ind g))) (x :: owned g)) by (apply owned_grow; [lia|done]).
  eexists. split.
  - unfold iappend_block. rewrite (proj2 (Z.ltb_ge (nblk g) NDIRECT)) by lia. rewrite Hi, xint_id by (unfold FSSIZE in *; lia).
    rewrite (proj2 (Z.eqb_neq (g_ind g) 0)) by lia. rewrite (bind_Done _ _ s din s eq_refl). exact Hrun.
  - split; [exact Hok'|exact Hrep'|..].
    + eapply placed_add; [exact Hpl|exact Hperm|unfold x; cbn; lia|rewrite nmeta_pos; lia].
    + cbn. rewrite nblk_grow. unfold cost. rewrite !(proj2 (Z.ltb_lt _ _)) by lia. lia.
    + cbn. lia.
    + done.
    + intros b Hb Hbo. rewrite img_written, decide_False; [done|]. intros ->. apply Hbo, ind_owned. lia.
    + apply (own_add _ _ x); [exact Hperm|unfold x; lia].
    + done.
    + by split_and!.
Qed.

Lemma block_indirect_new : size_of g = 512 * nblk g -> nblk g = NDIRECT -> m_freeblock s + 1 < FSSIZE ->
  let ind := m_freeblock s in let x := m_freeblock s + 1 in
  exists i' s', iappend_block din (nblk g) s = Done (i', x) s' /\ appended s s' din i' g (grow g x ind).
Proof.
  intros Hs Hn Hf ind x. pose proof (im_low _ Hok) as Hlow. rewrite nmeta_pos in Hlow. unfold FSSIZE in Hf.
  pose proof (r_ind _ _ _ Hrep) as Hi. rewrite (proj2 (Z.ltb_ge _ _)) in Hi by lia.
  assert (Hxi : xint ind = ind) by (apply xint_id; unfold ind; lia). set (i1 := with_addr NDIRECT ind din).
  assert (Hz : img s ind = zeroes) by (apply (im_free _ Hok); unfold ind, FSSIZE; lia).
  assert (Hnot : ind ∉ owned g) by (intros Hb; destruct (p_range _ _ Hpl _ Hb); unfold ind in *; lia).
  assert (Hnotb : ind ∉ g_blocks g) by (intros Hb; apply Hnot; unfold owned; apply elem_of_app; by left).
  assert (Hget : forall k, (k + 4 <= 512)%nat -> get32 zeroes k = 0).
  { intros k Hk. unfold get32, zeroes. rewrite !lookup_total_replicate_2 by (change (Z.to_nat BSIZE) with 512%nat; lia). done. }
  destruct (entry_added (bumped s) i1 ind) as (Hrun & Hrep' & Hok'); try done.
  { by apply bumped_ok; [|unfold FSSIZE; lia]. }
  { rewrite Hn. by split. }
  { rewrite nmeta_pos. unfold ind. cbn. lia. }
  { intros k Hk. change (img (bumped s) ind) with (img s ind). rewrite Hz, (proj2 (Z.ltb_ge k (nblk g))) by lia. apply Hget.
    unfold NDIRECT in *. change MAXFILE with 140 in Hk. lia. }
  cbn [bumped m_freeblock] in *. fold ind x in Hrun, Hrep', Hok'.
  assert (Ho : Permutation (owned (grow g x ind)) (x :: ind :: owned g)).
  { unfold owned. rewrite nblk_grow, (proj2 (Z.ltb_lt _ _)), (proj2 (Z.ltb_ge _ _)) by lia. cbn [grow g_blocks g_ind].
    rewrite app_nil_r, <- app_assoc. cbn [app]. by rewrite (Permutation_app_comm (g_blocks g) [x; ind]). }
  exists i1. eexists. split.
  - unfold iappend_block. rewrite (proj2 (Z.ltb_ge (nblk g) NDIRECT)) by lia. rewrite Hi. change (xint 0 =? 0) with true. cbv iota.
    rewrite (bind_Done _ _ s i1 (bumped s)) by (rewrite (bind_Done next_block _ s ind (bumped s) eq_refl), Hxi; done). exact Hrun.
  - split; [exact Hok'|exact Hrep'|..].
    + destruct Hpl as [P1 P2]. split.
      * rewrite Ho. apply NoDup_cons. split; [|apply NoDup_cons; by split].
        intros [Hb|Hb]%elem_of_cons; [unfold x, ind in *; lia|]. destruct (P2 _ Hb). unfold x in *. lia.
      * intros b Hb. rewrite Ho in Hb. pose proof nmeta_pos. apply elem_of_cons in Hb as [->|Hb]; [unfold x; cbn; lia|].
        apply elem_of_cons in Hb as [->|Hb]; [unfold ind; cbn; lia|]. destruct (P2 _ Hb). cbn. lia.
    + cbn. rewrite nblk_grow. unfold cost. replace (NDIRECT <? nblk g + 1) with true by lia. replace (NDIRECT <? nblk g) with false by lia. lia.
    + cbn. lia.
    + done.
    + intros b Hb Hbo. rewrite img_written, decide_False by (unfold ind; lia). done.
    + intros b Hb. rewrite Ho in Hb. apply elem_of_cons in Hb as [->|Hb]; [right; unfold x; lia|].
      apply elem_of_cons in Hb as [->|Hb]; [right; unfold ind; lia|by left].
    + done.
    + by split_and!.
Qed.
End block.

Lemma appended_trans s s1 s2 i i1 i2 g g1 g2 : appended s s1 i i1 g g1 -> appended s1 s2 i1 i2 g1 g2 -> appended s s2 i i2 g g2.
Proof.
  intros [A1 A2 A3 A4 A5 A6 A7 A8 A9 A10] [B1 B2 B3 B4 B5 B6 B7 B8 B9 B10]. split; try done; try lia; try congruence.
  - intros b Hb Hn. rewrite B7, A7; [done|done|done|lia|]. intros Hb1. destruct (A8 b Hb1); [done|lia].
  - intros b Hb. destruct (B8 b Hb) as [Hb1|Hb1]; [by apply A8|right; lia].
  - destruct A10 as (? & ? & ? & ? & ?), B10 as (? & ? & ? & ? & ?). unfold same_meta. split_and!; congruence.
Qed.

(** ** The bytes of a turn *)
Definition add_data (g : gfile) (l : list Z) : gfile := Gfile (g_type g) (g_blocks g) (g_ind g) (g_data g ++ l).
Lemma size_add_data g l : size_of (add_data g l) = size_of g + Z.of_nat (length l).
Proof. unfold size_of, add_data. cbn. rewrite length_app. lia. Qed.

Lemma blocks_apart g j k : NoDup (owned g) -> 0 <= j < nblk g -> 0 <= k < nblk g -> g_blocks g !!! Z.to_nat j = g_blocks g !!! Z.to_nat k -> j = k.
Proof.
  intros Hn Hj Hk He. unfold owned in Hn. apply NoDup_app in Hn as (Hn & _ & _). unfold nblk in *.
  assert (H : forall j, 0 <= j < Z.of_nat (length (g_blocks g)) -> g_blocks g !! Z.to_nat j = Some (g_blocks g !!! Z.to_nat j))
    by (intros ? ?; apply list_lookup_lookup_total_lt; lia).
  enough (Z.to_nat j = Z.to_nat k) by lia. eapply (NoDup_lookup _ _ _ _ Hn); [by apply H|]. rewrite He. by apply H.
Qed.
Lemma ind_apart g k : NoDup (owned g) -> NDIRECT < nblk g -> 0 <= k < nblk g -> g_ind g <> g_blocks g !!! Z.to_nat k.
Proof.
  intros Hn Hd Hk He. unfold owned in Hn. rewrite (proj2 (Z.ltb_lt _ _) Hd) in Hn. apply NoDup_app in Hn as (_ & Hn & _).
  apply (Hn _ (in_blocks g k Hk)). rewrite <- He. by apply list_elem_of_singleton.
Qed.

Lemma put_bytes c c' i g l : rep c i g -> NoDup (owned g) -> nblk g = size_of g `div` 512 + 1 ->
  let k := size_of g `div` 512 in let x := g_blocks g !!! Z.to_nat k in length (c x) = 512%nat ->
  size_of g `mod` 512 + Z.of_nat (length l) <= 512 ->
  (forall b, c' b = if decide (b = x) then splice (Z.to_nat (size_of g `mod` 512)) l (c x) else c b) ->
  rep c' i (add_data g l).
Proof.
  intros Hr Hn Hb k x Hl Hroom Hc. pose proof Hr as [R1 R2 R3 R4 R5 R6 R7 R8 R9].
  assert (H0 : 0 <= size_of g) by (unfold size_of; lia). assert (Hk : 0 <= k < nblk g) by (unfold k; zlia).
  assert (Hbk : forall j, 0 <= j -> (NDIRECT <= j -> NDIRECT < nblk g) -> blk c' i j = blk c i j).
  { intros j Hj Hd. unfold blk. destruct (Z.ltb_spec j NDIRECT); [done|]. rewrite Hc, decide_False; [done|].
    rewrite R7, (proj2 (Z.ltb_lt _ _)) by lia. apply ind_apart; [done|lia|done]. }
  split; try done.
  - rewrite size_add_data. unfold nblk in *. cbn. zlia.
  - intros j Hj. rewrite Hbk; [by apply R5|lia|unfold nblk in *; cbn in *; lia].
  - intros Hd j Hj. rewrite Hbk; [by apply R8|unfold NDIRECT, nblk in *; cbn in *; lia|done].
  - intros y Hy. rewrite size_add_data in Hy. change (nblk (add_data g l)) with (nblk g). cbn [add_data g_data]. unfold fbyte.
    assert (Hyk : 0 <= y `div` 512 < nblk g) by zlia. rewrite Hbk, R5, Hc by (done || lia).
    destruct (decide (g_blocks g !!! Z.to_nat (y `div` 512) = x)) as [He|Hne].
    + assert (Hyk' : y `div` 512 = k) by (by apply (blocks_apart g); [..|done]).
      rewrite splice_lookup by (rewrite Hl; zlia). destruct (decide _) as [[D1 D2]|D].
      * unfold size_of in *. rewrite lookup_total_app_r by (unfold k in *; zlia). f_equal. unfold k in *. zlia.
      * unfold size_of in *. rewrite lookup_total_app_l by (unfold k in *; zlia). rewrite <- R9 by (unfold k in *; zlia).
        unfold fbyte. rewrite R5 by done. by rewrite He.
    + assert (Hlt : y < size_of g). { destruct (Z_lt_ge_dec y (size_of g)); [done|]. exfalso. apply Hne. unfold x. do 2 f_equal. unfold k. zlia. }
      unfold size_of in *. rewrite lookup_total_app_l by lia. rewrite <- R9 by lia. unfold fbyte. by rewrite R5.
Qed.

(** Data blocks for [n] bytes. *)
Definition blocks_for (n : Z) : Z := (n + 511) `div` 512.
Lemma cost_mono n m : n <= m -> cost n <= cost m.
Proof. intros H. unfold cost. destruct (Z.ltb_spec NDIRECT n), (Z.ltb_spec NDIRECT m); lia. Qed.
Lemma nblk_for c i g : rep c i g -> tight g -> nblk g = blocks_for (size_of g).
Proof. intros H Ht. pose proof (r_cover _ _ _ H). unfold tight, blocks_for in *. zlia. Qed.

(** The block of the end of the file, there or new. *)
Lemma end_block s din g : img_ok s -> rep (img s) din g -> placed g (m_freeblock s) -> tight g ->
  size_of g < MAXFILE * 512 -> m_freeblock s + cost (size_of g `div` 512 + 1) - cost (nblk g) <= FSSIZE ->
  exists din' x s' g', iappend_block din (size_of g `div` 512) s = Done (din', x) s' /\ appended s s' din din' g g' /\
    g_data g' = g_data g /\ nblk g' = size_of g `div` 512 + 1 /\ x = g_blocks g' !!! Z.to_nat (size_of g `div` 512).
Proof.
  intros Hok Hrep Hpl Ht Hmax Hroom. change MAXFILE with 140 in Hmax. pose proof (nblk_nonneg g) as H0.
  assert (Hs0 : 0 <= size_of g) by (unfold size_of; lia).
  destruct (Z.eq_dec (size_of g `mod` 512) 0) as [Hm|Hm].
  - pose proof (r_cover _ _ _ Hrep) as Hc. unfold tight in Ht. assert (Hs : size_of g = 512 * nblk g) by zlia.
    assert (Hd : size_of g `div` 512 = nblk g) by zlia. rewrite Hd in *.
    assert (Hx : forall x ind, nblk (grow g x ind) = nblk g + 1 /\ x = g_blocks (grow g x ind) !!! Z.to_nat (nblk g)).
    { intros x ind. split; [apply nblk_grow|]. by rewrite blocks_grow, decide_True by lia. }
    unfold cost in Hroom. destruct (Z_lt_le_dec (nblk g) NDIRECT) as [Hlt|Hge]; [|destruct (Z.eq_dec (nblk g) NDIRECT) as [He|Hne]].
    + replace (NDIRECT <? nblk g + 1) with false in Hroom by lia. replace (NDIRECT <? nblk g) with false in Hroom by lia.
      destruct (block_direct s din g Hok Hrep Hpl Hs Hlt ltac:(lia)) as [Hr Ha]. do 4 eexists. split; [exact Hr|]. split; [exact Ha|]. split; [done|apply Hx].
    + replace (NDIRECT <? nblk g + 1) with true in Hroom by lia. replace (NDIRECT <? nblk g) with false in Hroom by lia.
      destruct (block_indirect_new s din g Hok Hrep Hpl Hs He ltac:(lia)) as (i' & s' & Hr & Ha). do 4 eexists. split; [exact Hr|]. split; [exact Ha|]. split; [done|apply Hx].
    + replace (NDIRECT <? nblk g + 1) with true in Hroom by lia. replace (NDIRECT <? nblk g) with true in Hroom by lia.
      destruct (block_indirect_there s din g Hok Hrep Hpl Hs ltac:(change MAXFILE with 140; lia) ltac:(lia)) as (s' & Hr & Ha). do 4 eexists. split; [exact Hr|]. split; [exact Ha|]. split; [done|apply Hx].
  - destruct (block_there s din g Hok Hrep Hpl Ht Hm) as [Hn Hr]. do 4 eexists. split; [exact Hr|]. split; [by apply appended_refl|]. by split_and!.
Qed.

Lemma body_ok s din g p : img_ok s -> rep (img s) din g -> placed g (m_freeblock s) -> tight g -> p <> [] ->
  size_of g < MAXFILE * 512 -> m_freeblock s + cost (size_of g `div` 512 + 1) - cost (nblk g) <= FSSIZE ->
  let n1 := Z.of_nat (length p) `min` ((size_of g `div` 512 + 1) * 512 - size_of g) in
  exists din' s' g', iappend_body (din, size_of g, p) s = Done (inl (din', size_of g', drop (Z.to_nat n1) p)) s' /\
    appended s s' din din' g g' /\ tight g' /\ g_data g' = g_data g ++ take (Z.to_nat n1) p.
Proof.
  intros Hok Hrep Hpl Ht Hp Hmax Hroom n1. destruct (end_block s din g Hok Hrep Hpl Ht Hmax Hroom) as (din' & x & s1 & g1 & Hr & Ha & Hd & Hn & Hx).
  assert (Hs0 : 0 <= size_of g) by (unfold size_of; lia). assert (Hlp : 0 < Z.of_nat (length p)) by (destruct p; [done|cbn; lia]).
  assert (Hs1 : size_of g1 = size_of g) by (unfold size_of; by rewrite Hd). set (k := size_of g `div` 512) in *.
  assert (Hk : 0 <= k < nblk g1) by (unfold k in *; zlia). pose proof Ha as [A1 A2 A3 A4 A5 A6 A7 A8 A9 A10].
  assert (Hxo : x ∈ owned g1) by (rewrite Hx; by apply block_owned). destruct (p_range _ _ A3 _ Hxo) as [Hx1 Hx2].
  pose proof (im_low _ A1) as Hlow. rewrite nmeta_pos in *. destruct (img_lookup s1 x A1 ltac:(lia)) as [_ Hlx].
  assert (Hn1 : 1 <= n1 <= Z.of_nat (length p)) by (unfold n1, k in *; zlia).
  assert (Hlt : length (take (Z.to_nat n1) p) = Z.to_nat n1) by (rewrite length_take; lia).
  set (d := splice (Z.to_nat (size_of g - k * 512)) (take (Z.to_nat n1) p) (img s1 x)).
  assert (Hld : length d = 512%nat) by (unfold d; rewrite length_splice; [done|rewrite Hlt, Hlx; unfold n1, k in *; zlia]).
  set (g2 := add_data g1 (take (Z.to_nat n1) p)).
  exists din', (written x d s1), g2. split; [|split; [|split]].
  - unfold iappend_body. rewrite (proj2 (Z.ltb_lt 0 _) Hlp). cbn [negb]. cbv zeta. unfold BSIZE. fold k.
    rewrite (proj2 (Z.leb_gt MAXFILE k)) by (change MAXFILE with 140 in *; unfold k; zlia).
    rewrite (bind_Done _ _ s _ s1 Hr). cbv beta iota. rewrite (bind_Done _ _ s1 (img s1 x) s1) by (apply rsect_ok; [done|lia]).
    rewrite (bind_Done _ _ s1 tt (written x d s1)) by done. unfold mret, M_ret. do 3 f_equal.
    unfold g2. rewrite size_add_data, Hlt, Hs1. f_equal. f_equal. unfold n1. lia.
  - apply (appended_trans _ s1 _ _ din' _ _ g1); [done|]. split; try done; try lia.
    + apply written_ok; [done|lia|done].
    + apply (put_bytes (img s1)); rewrite ?Hs1; fold k; try done; try apply A3.
      * by rewrite <- Hx.
      * rewrite Hlt. unfold n1, k. zlia.
      * intros b. rewrite img_written, <- Hx. unfold d. replace (size_of g - k * 512) with (size_of g `mod` 512) by (unfold k; zlia). done.
    + exact (Placed g2 _ (p_nodup _ _ A3) (p_range _ _ A3)).
    + intros b Hb Hbo. rewrite img_written, decide_False; [done|]. by intros ->.
    + intros b Hb. by left.
  - unfold tight, g2. rewrite size_add_data, Hlt, Hs1. change (nblk (add_data g1 _)) with (nblk g1). unfold k in *. zlia.
  - unfold g2. cbn. by rewrite Hd.
Qed.

(** Turns of the loop for [n] bytes at offset [off]. *)
Definition turns (off n : Z) : nat := if 0 <? n then Z.to_nat ((off + n - 1) `div` 512 - off `div` 512 + 1) else 0.

Lemma turns_less off n : 0 <= off -> 0 < n ->
  let n1 := n `min` ((off `div` 512 + 1) * 512 - off) in (turns (off + n1) (n - n1) < turns off n)%nat.
Proof.
  intros Ho Hn n1. unfold turns. rewrite (proj2 (Z.ltb_lt 0 n) Hn). destruct (Z.ltb_spec 0 (n - n1)) as [H|H]; [|zlia].
  assert (Hn1 : off + n1 = (off `div` 512 + 1) * 512) by lia. rewrite Hn1. rewrite Z.div_mul by lia.
  replace ((off `div` 512 + 1) * 512 + (n - n1) - 1) with (off + n - 1) by lia. zlia.
Qed.

Lemma append_loop fuel : forall s din g p, img_ok s -> rep (img s) din g -> placed g (m_freeblock s) -> tight g ->
  size_of g + Z.of_nat (length p) <= MAXFILE * 512 ->
  m_freeblock s + cost (blocks_for (size_of g + Z.of_nat (length p))) - cost (nblk g) <= FSSIZE -> (turns (size_of g) (Z.of_nat (length p)) < fuel)%nat ->
  exists din' s' g', loop fuel iappend_body (din, size_of g, p) s = Done (din', size_of g') s' /\
    appended s s' din din' g g' /\ tight g' /\ g_data g' = g_data g ++ p.
Proof.
  induction fuel as [|fuel IH]; intros s din g p Hok Hrep Hpl Ht Hmax Hroom Hf; [lia|]. cbn [loop]. destruct p as [|b p].
  - exists din, s, g. split; [done|]. split; [by apply appended_refl|]. split; [done|]. by rewrite app_nil_r.
  - assert (Hs0 : 0 <= size_of g) by (unfold size_of; lia). assert (Hlp : 0 < Z.of_nat (length (b :: p))) by (cbn [length]; lia).
    destruct (body_ok s din g (b :: p) Hok Hrep Hpl Ht) as (d1 & s1 & g1 & Hr & Ha & Ht1 & Hd1); [done|lia| |].
    { enough (cost (size_of g `div` 512 + 1) <= cost (blocks_for (size_of g + Z.of_nat (length (b :: p))))) by lia. apply cost_mono. unfold blocks_for. zlia. }
    rewrite (bind_Done _ _ s _ s1 Hr). cbv beta iota. set (n1 := Z.of_nat (length (b :: p)) `min` _) in *.
    assert (Hn1 : 1 <= n1 <= Z.of_nat (length (b :: p))) by (unfold n1; zlia).
    assert (Hlt : length (take (Z.to_nat n1) (b :: p)) = Z.to_nat n1) by (rewrite length_take; lia).
    assert (Hs1 : size_of g1 = size_of g + n1) by (unfold size_of; rewrite Hd1, length_app, Hlt; lia).
    assert (Hld : Z.of_nat (length (drop (Z.to_nat n1) (b :: p))) = Z.of_nat (length (b :: p)) - n1) by (rewrite length_drop; lia).
    destruct (IH s1 d1 g1 (drop (Z.to_nat n1) (b :: p))) as (d2 & s2 & g2 & Hr2 & Ha2 & Ht2 & Hd2); try apply Ha; try done.
    + rewrite Hs1, Hld. lia.
    + rewrite Hs1, Hld. pose proof (ap_cost _ _ _ _ _ _ Ha). replace (size_of g + n1 + _) with (size_of g + Z.of_nat (length (b :: p))) by lia. lia.
    + rewrite Hs1, Hld. pose proof (turns_less (size_of g) (Z.of_nat (length (b :: p))) Hs0 Hlp) as Hless. cbv zeta in Hless; fold n1 in Hless. lia.
    + exists d2, s2, g2. split; [exact Hr2|]. split; [by eapply appended_trans|]. split; [done|]. rewrite Hd2, Hd1, <- app_assoc. by rewrite take_drop.
Qed.
