(* ===== verification/MkfsImage.v ===== *)
(** * The image as the kernel reads it

    The inode table of the image with the files of its inodes, what [ialloc], [iappend] and
    the loops of [main] do to it, and the image [mkfs] leaves. *)
From stdpp Require Import gmap.
From S2P Require Import Prelude Layout Sleeplock Blocks Log Fs FsSpec FsNames FsData Mkfs MkfsTheorems.

Definition dino (s : mkst) (inum : Z) : inode := load_dinode (img s (IBLOCK inum mk_sb)) (dinode_off inum) zero_inode.
Definition total (G : list gfile) : Z := foldr (fun g n => cost (nblk g) + n) 0 G.

(** The file of an inode of the image. *)
Record file_in (s : mkst) (inum : Z) (g : gfile) : Prop := FileIn {
  fi_rep : rep (img s) (dino s inum) g;
  fi_placed : placed g (m_freeblock s);
  fi_tight : tight g;
  fi_size : i_size (dino s inum) = size_of g;
  fi_type : i_type (dino s inum) = g_type g;
  fi_nlink : i_nlink (dino s inum) = 1;
  fi_dev : i_major (dino s inum) = 0 /\ i_minor (dino s inum) = 0;
  fi_types : g_type g = T_DIR \/ g_type g = T_FILE }.

(** The inodes allocated are those of the files [G], from inode 1 on. *)
Record fsok (s : mkst) (G : list gfile) : Prop := Fsok {
  fk_img : img_ok s;
  fk_count : m_freeinode s = 1 + Z.of_nat (length G) /\ 1 + Z.of_nat (length G) <= NINODES;
  fk_file : forall j g, G !! j = Some g -> file_in s (1 + Z.of_nat j) g;
  fk_apart : forall j k g h, j <> k -> G !! j = Some g -> G !! k = Some h -> forall b, b ∈ owned g -> b ∉ owned h;
  fk_used : m_freeblock s = nmeta + total G }.

Lemma iblock_range inum : 0 <= inum <= NINODES -> 32 <= IBLOCK inum mk_sb < 58.
Proof. intros H. unfold IBLOCK, NINODES in *. change (sb_inodestart mk_sb) with 32. change IPB with 8. zlia. Qed.
Lemma iblock_same i j : 0 <= i -> 0 <= j -> i <> j -> IBLOCK i mk_sb = IBLOCK j mk_sb -> i `mod` IPB <> j `mod` IPB.
Proof. intros Hi Hj Hne He Hm. unfold IBLOCK in He. change IPB with 8 in *. zlia. Qed.

(** Writing inode [inum]: its slot holds it, the other slots what they held. *)
Definition inode_put (inum : Z) (i : inode) (s : mkst) : mkst :=
  written (IBLOCK inum mk_sb) (store_dinode (dinode_off inum) i (img s (IBLOCK inum mk_sb))) s.
Lemma winode_ok inum i s : img_ok s -> 0 <= inum <= NINODES -> winode inum i s = Done tt (inode_put inum i s).
Proof.
  intros H Hi. pose proof (iblock_range inum Hi). unfold winode. cbv zeta.
  rewrite (bind_Done _ _ s (img s (IBLOCK inum mk_sb)) s); [done|]. apply rsect_ok; [done|]. unfold FSSIZE. lia.
Qed.
Lemma store_length o i d : length (store_dinode o i d) = length d.
Proof. apply (store_dinode_frame o i d). Qed.
Lemma inode_put_ok inum i s : img_ok s -> 0 <= inum <= NINODES -> img_ok (inode_put inum i s).
Proof.
  intros H Hi. pose proof (iblock_range inum Hi). pose proof (im_low _ H). rewrite nmeta_pos in *.
  apply written_ok; [done|lia|]. rewrite store_length. apply (img_lookup s); [done|unfold FSSIZE; lia].
Qed.
Lemma inode_put_img inum i s b : b <> IBLOCK inum mk_sb -> img (inode_put inum i s) b = img s b.
Proof. intros Hb. unfold inode_put. by rewrite img_written, decide_False. Qed.
Lemma dino_put inum i s : img_ok s -> 0 <= inum <= NINODES -> inode_wf i ->
  dino (inode_put inum i s) inum = with_meta (i_type i) (i_major i) (i_minor i) (i_nlink i) (i_size i) (i_addrs i) zero_inode.
Proof.
  intros H Hi Hwf. pose proof (iblock_range inum Hi). destruct (img_lookup s (IBLOCK inum mk_sb) H ltac:(unfold FSSIZE; lia)) as [_ Hl].
  unfold dino, inode_put. rewrite img_written, decide_True by done. destruct (dinode_roundtrip inum i _ Hwf ltac:(lia) Hl) as [Hr _]. apply Hr.
Qed.
Lemma dino_put_ne inum i s j : img_ok s -> 0 <= inum <= NINODES -> 0 <= j -> j <> inum -> inode_wf i -> dino (inode_put inum i s) j = dino s j.
Proof.
  intros H Hi Hj Hne Hwf. pose proof (iblock_range inum Hi). destruct (img_lookup s (IBLOCK inum mk_sb) H ltac:(unfold FSSIZE; lia)) as [_ Hl].
  unfold dino. destruct (Z.eq_dec (IBLOCK j mk_sb) (IBLOCK inum mk_sb)) as [He|He].
  - rewrite He. unfold inode_put. rewrite img_written, decide_True by done. destruct (dinode_roundtrip inum i _ Hwf ltac:(lia) Hl) as [_ Hr].
    apply Hr; [done|]. apply iblock_same; (done || lia).
  - by rewrite inode_put_img.
Qed.

(** Only the addresses of an inode matter for its contents. *)
Lemma rep_addrs c i i' g : i_addrs i' = i_addrs i -> rep c i g -> rep c i' g.
Proof.
  intros Ha [R1 R2 R3 R4 R5 R6 R7 R8 R9].
  assert (Hb : forall k, blk c i' k = blk c i k) by (intros k; unfold blk; by rewrite Ha).
  split; rewrite ?Ha; try done.
  - intros k Hk. rewrite Hb. by apply R5.
  - intros Hd k Hk. rewrite Hb. by apply R8.
  - intros x Hx. unfold fbyte. rewrite Hb. by apply R9.
Qed.
Lemma rep_wf c i g : rep c i g -> 0 <= i_type i <= 2 -> i_major i = 0 -> i_minor i = 0 -> i_nlink i = 1 -> 0 <= i_size i < 4294967296 -> inode_wf i.
Proof. intros H Ht Hma Hmi Hn Hs. split; [lia|lia|lia|lia|lia|apply H|apply H]. Qed.

(** A file is as it was when neither its slot nor its blocks have changed. *)
Lemma file_in_frame s s' inum g : file_in s inum g -> dino s' inum = dino s inum -> (forall b, b ∈ owned g -> img s' b = img s b) ->
  m_freeblock s <= m_freeblock s' -> file_in s' inum g.
Proof.
  intros [F1 F2 F3 F4 F5 F6 F7 F8] Hd Ho Hf. split; rewrite ?Hd; try done.
  - by apply (rep_frame (img s)).
  - destruct F2 as [P1 P2]. split; [done|]. intros b Hb. specialize (P2 b Hb). lia.
Qed.

Lemma total_insert G j g g' : G !! j = Some g -> total (<[j := g']> G) = total G - cost (nblk g) + cost (nblk g').
Proof.
  revert j. induction G as [|h G IH]; intros [|j] Hj; [done|done|injection Hj as ->; cbn; lia|].
  change (cost (nblk h) + total (<[j := g']> G) = cost (nblk h) + total G - cost (nblk g) + cost (nblk g')). rewrite (IH j Hj). lia.
Qed.
Lemma total_app G H : total (G ++ H) = total G + total H.
Proof. induction G as [|g G IH]; [done|]. change (cost (nblk g) + total (G ++ H) = cost (nblk g) + total G + total H). lia. Qed.

(** ** Appending *)
Lemma inode_block_frame s s' i i' g g' b : appended s s' i i' g g' -> (forall x, x ∈ owned g -> nmeta <= x) -> m_freeblock s >= nmeta -> b < nmeta -> img s' b = img s b.
Proof. intros A Ho Hf Hb. apply (ap_frame _ _ _ _ _ _ A); [lia|]. intros Hx. specialize (Ho b Hx). lia. Qed.

Lemma iappend_ok s G j g p : fsok s G -> G !! j = Some g -> size_of g + Z.of_nat (length p) <= MAXFILE * 512 ->
  m_freeblock s + cost (blocks_for (size_of g + Z.of_nat (length p))) - cost (nblk g) <= FSSIZE ->
  exists s' g', iappend (1 + Z.of_nat j) p s = Done tt s' /\ fsok s' (<[j := g']> G) /\ g_data g' = g_data g ++ p /\ g_type g' = g_type g /\
    (forall b, b < 32 -> img s' b = img s b).
Proof.
  intros Hs Hj Hmax Hroom. pose proof (fk_img _ _ Hs) as Hok. destruct (fk_file _ _ Hs j g Hj) as [F1 F2 F3 F4 F5 F6 [F7 F7'] F8].
  destruct (fk_count _ _ Hs) as [Hc1 Hc2]. assert (Hjl : (j < length G)%nat) by (apply lookup_lt_is_Some; eauto).
  set (inum := 1 + Z.of_nat j) in *. assert (Hin : 0 <= inum <= NINODES) by (unfold inum; lia). pose proof (iblock_range inum Hin) as Hib.
  pose proof (im_low _ Hok) as Hlow. rewrite nmeta_pos in Hlow.
  assert (Hsz : 0 <= size_of g) by (unfold size_of; lia). change MAXFILE with 140 in Hmax.
  destruct (append_loop (io_fuel (Z.of_nat (length p))) s (dino s inum) g p Hok F1 F2 F3 ltac:(change MAXFILE with 140; lia) Hroom) as (d' & s1 & g' & Hr & Ha & Ht & Hd).
  { unfold turns, io_fuel, BSIZE. destruct (Z.ltb_spec 0 (Z.of_nat (length p))); zlia. }
  pose proof Ha as [A1 A2 A3 A4 A5 A6 A7 A8 A9 (M1 & M2 & M3 & M4 & M5)].
  assert (Hsg : size_of g' = size_of g + Z.of_nat (length p)) by (unfold size_of; rewrite Hd, length_app; lia).
  set (i' := with_size (xint (size_of g')) d'). assert (Hx : xint (size_of g') = size_of g') by (apply xint_id; lia).
  assert (Hrep' : rep (img s1) i' g') by (by apply (rep_addrs _ d')).
  assert (Hwf : inode_wf i').
  { apply (rep_wf (img s1) _ g'); try done; unfold i', with_size, with_meta; cbn; rewrite ?Hx; try lia; try congruence.
    rewrite M1, F5. unfold T_DIR, T_FILE in F8. destruct F8; lia. }
  assert (Hlo : forall x, x ∈ owned g' -> nmeta <= x) by (intros x Hx'; by destruct (p_range _ _ A3 x Hx')).
  set (s2 := inode_put inum i' s1).
  assert (Himg : forall b, 58 <= b -> img s2 b = img s1 b) by (intros b Hb; apply inode_put_img; lia).
  assert (Hdi : dino s2 inum = with_meta (i_type i') (i_major i') (i_minor i') (i_nlink i') (i_size i') (i_addrs i') zero_inode) by (by apply dino_put).
  assert (Hmine : file_in s2 inum g').
  { split; rewrite ?Hdi; cbn; try done; try congruence.
    - apply (rep_addrs _ i'); [done|]. apply (rep_frame (img s1)); [|done]. intros b Hb. apply Himg. specialize (Hlo b Hb). rewrite nmeta_pos in Hlo. lia.
    - split; congruence.
  }
  assert (Hfr : forall b, b < nmeta -> img s1 b = img s b).
  { intros b Hb. apply (inode_block_frame s s1 (dino s inum) d' g g'); [done| |rewrite nmeta_pos; lia|done]. intros x Hx'. by destruct (p_range _ _ F2 x Hx'). }
  exists s2, g'. split; [|split; [|split_and!; [done|done|]]].
  - unfold iappend. rewrite (bind_Done (rinode inum) _ s (dino s inum) s).
    2: { unfold rinode. by rewrite (bind_Done _ _ s (img s (IBLOCK inum mk_sb)) s) by (apply rsect_ok; [done|unfold FSSIZE; lia]). }
    rewrite F4, (xint_id (size_of g)) by lia. rewrite (bind_Done _ _ s _ s1 Hr). by apply winode_ok.
  - split.
    + by apply inode_put_ok.
    + rewrite length_insert. cbn. by rewrite A6.
    + intros k h Hk. destruct (decide (k = j)) as [->|Hne].
      * rewrite list_lookup_insert_eq in Hk by done. by injection Hk as <-.
      * rewrite list_lookup_insert_ne in Hk by done. pose proof (fk_file _ _ Hs k h Hk) as Hf.
        assert (Hkl : (k < length G)%nat) by (apply lookup_lt_is_Some; eauto).
        pose proof (iblock_range (1 + Z.of_nat k) ltac:(lia)) as Hibk.
        apply (file_in_frame s); [done| | |cbn; lia].
        -- unfold s2. rewrite dino_put_ne by (done || unfold inum; lia). unfold dino. by rewrite Hfr by (rewrite nmeta_pos; lia).
        -- intros b Hb. destruct (p_range _ _ (fi_placed _ _ _ Hf) b Hb) as [Hb1 Hb2]. rewrite Himg by (rewrite nmeta_pos in *; lia).
           apply A7; [done|]. intros Hg. by apply (fk_apart _ _ Hs k j h g Hne Hk Hj b).
    + assert (Hsep : forall k h, k <> j -> G !! k = Some h -> forall b, b ∈ owned g' -> b ∉ owned h).
      { intros k h Hne Hk b Hb Hbh. destruct (A8 b Hb) as [Hg|Hnew]; [by apply (fk_apart _ _ Hs j k g h (not_eq_sym Hne) Hj Hk b)|].
        destruct (p_range _ _ (fi_placed _ _ _ (fk_file _ _ Hs k h Hk)) b Hbh). lia. }
      intros k l h1 h2 Hne Hk Hl b Hb. destruct (decide (k = j)) as [->|Hkj], (decide (l = j)) as [->|Hlj]; [done| | |].
      * rewrite list_lookup_insert_eq in Hk by done. injection Hk as <-. rewrite list_lookup_insert_ne in Hl by done. by apply (Hsep l).
      * rewrite list_lookup_insert_eq in Hl by done. injection Hl as <-. rewrite list_lookup_insert_ne in Hk by done. intros Hb'. by apply (Hsep k h1 Hkj Hk b).
      * rewrite list_lookup_insert_ne in Hk, Hl by done. by apply (fk_apart _ _ Hs k l h1 h2).
    + rewrite (total_insert _ _ _ _ Hj). pose proof (fk_used _ _ Hs). cbn. lia.
  - intros b Hb. unfold s2. rewrite inode_put_img by lia. apply Hfr. rewrite nmeta_pos. lia.
Qed.

(** ** A new inode *)
Definition empty_file (type : Z) : gfile := Gfile type [] 0 [].
Lemma rep_empty c i type : i_addrs i = replicate 13 0 -> rep c i (empty_file type).
Proof.
  intros Ha. assert (Hz : forall k, 0 <= k <= 12 -> i_addrs i !!! Z.to_nat k = 0) by (intros k Hk; rewrite Ha; apply lookup_total_replicate_2; lia).
  split; rewrite ?Ha; unfold nblk, size_of, empty_file; cbn [g_blocks g_data length]; unfold NDIRECT; change MAXFILE with 140; try done; try lia.
  - apply Forall_replicate. lia.
  - intros k Hk. rewrite <- Ha. apply Hz. lia.
Qed.

Lemma ialloc_ok s G type : fsok s G -> 2 + Z.of_nat (length G) <= NINODES -> type = T_DIR \/ type = T_FILE ->
  exists s', ialloc type s = Done (1 + Z.of_nat (length G)) s' /\ fsok s' (G ++ [empty_file type]) /\
    (forall b, b < 32 -> img s' b = img s b).
Proof.
  intros Hs Hn Hty. pose proof (fk_img _ _ Hs) as Hok. destruct (fk_count _ _ Hs) as [Hc _].
  set (inum := 1 + Z.of_nat (length G)) in *. assert (Hin : 0 <= inum <= NINODES) by (unfold inum; lia).
  pose proof (iblock_range inum Hin) as Hib. pose proof (im_low _ Hok) as Hlow. rewrite nmeta_pos in Hlow.
  set (s1 := Mkst (m_img s) (m_freeinode s + 1) (m_freeblock s)). assert (Hok1 : img_ok s1) by (by destruct Hok; split).
  set (i := with_meta (xshort type) 0 0 (xshort 1) (xint 0) (replicate 13 0) zero_inode).
  assert (Hxt : xshort type = type) by (apply xshort_id; unfold T_DIR, T_FILE in Hty; lia).
  assert (Hwf : inode_wf i).
  { apply (rep_wf (img s1) _ (empty_file type)); [by apply rep_empty|..]; unfold i; cbn; rewrite ?Hxt; unfold T_DIR, T_FILE in Hty; (done || lia). }
  set (s2 := inode_put inum i s1). pose proof (dino_put inum i s1 Hok1 Hin Hwf) as Hdi. fold s2 in Hdi.
  assert (Himg : forall b, b < 32 \/ 58 <= b -> img s2 b = img s b) by (intros b Hb; unfold s2; rewrite inode_put_img by lia; done).
  exists s2. split; [|split; [|by intros b Hb; apply Himg; left]].
  - unfold ialloc. rewrite (bind_Done next_inode _ s inum s1) by (unfold next_inode; f_equal; exact Hc).
    fold i. rewrite (bind_Done _ _ s1 tt s2) by (by apply winode_ok). done.
  - split.
    + by apply inode_put_ok.
    + rewrite length_app. cbn. lia.
    + intros k h Hk. apply lookup_snoc_Some in Hk as [[Hk Hk2]|[-> <-]].
      * pose proof (fk_file _ _ Hs k h Hk2) as Hf. pose proof (iblock_range (1 + Z.of_nat k) ltac:(lia)) as Hibk.
        apply (file_in_frame s); [done| | |cbn; lia].
        -- unfold s2. by rewrite dino_put_ne by (done || unfold inum; lia).
        -- intros b Hb. destruct (p_range _ _ (fi_placed _ _ _ Hf) b Hb) as [Hb1 _]. apply Himg. rewrite nmeta_pos in Hb1. lia.
      * fold inum. split; rewrite ?Hdi; try done.
        -- by apply rep_empty.
        -- split; [constructor|]. by intros b Hb%not_elem_of_nil.
    + intros k l h1 h2 Hne Hk Hl b. apply lookup_snoc_Some in Hk as [[Hk1 Hk]|[-> <-]]; [|by intros Hb%not_elem_of_nil].
      apply lookup_snoc_Some in Hl as [[Hl1 Hl]|[-> <-]]; [by apply (fk_apart _ _ Hs k l)|]. intros _. apply not_elem_of_nil.
    + rewrite total_app. pose proof (fk_used _ _ Hs) as Hu. change (total [empty_file type]) with 0. change (m_freeblock s2) with (m_freeblock s). lia.
Qed.

(** ** The loops *)
Lemma tight_add g p g' c i : rep c i g' -> tight g' -> g_data g' = g_data g ++ p -> nblk g' = blocks_for (size_of g + Z.of_nat (length p)).
Proof. intros Hr Ht Hd. rewrite (nblk_for c i) by done. f_equal. unfold size_of. rewrite Hd, length_app. lia. Qed.

(** The state after data is appended to the file of inode [1 + j]. *)
Definition grown (s s' : mkst) (G : list gfile) (j : nat) (g : gfile) (p : list Z) : Prop :=
  exists g', fsok s' (<[j := g']> G) /\ g_data g' = g_data g ++ p /\ g_type g' = g_type g /\ (forall b, b < 32 -> img s' b = img s b) /\
    m_freeblock s' + cost (nblk g) = m_freeblock s + cost (blocks_for (size_of g + Z.of_nat (length p))).

Lemma grown_by s G j g p : fsok s G -> G !! j = Some g -> size_of g + Z.of_nat (length p) <= MAXFILE * 512 ->
  m_freeblock s + cost (blocks_for (size_of g + Z.of_nat (length p))) - cost (nblk g) <= FSSIZE ->
  exists s', iappend (1 + Z.of_nat j) p s = Done tt s' /\ grown s s' G j g p.
Proof.
  intros Hs Hj Hmax Hroom. destruct (iappend_ok s G j g p Hs Hj Hmax Hroom) as (s' & g' & Hr & Hs' & Hd & Ht & Hlo).
  exists s'. split; [exact Hr|]. exists g'. split_and!; [done|done|done|done|]. assert (Hjl : (j < length G)%nat) by (apply lookup_lt_is_Some; eauto).
  pose proof (fk_file _ _ Hs' j g' ltac:(by apply list_lookup_insert_eq)) as F.
  rewrite <- (tight_add g p g' _ _ (fi_rep _ _ _ F) (fi_tight _ _ _ F) Hd). pose proof (fk_used _ _ Hs) as Hu. pose proof (fk_used _ _ Hs') as Hu'.
  rewrite (total_insert _ _ _ _ Hj) in Hu'. lia.
Qed.

Lemma append_file_ok fuel : forall l s G j g, fsok s G -> G !! j = Some g -> size_of g + Z.of_nat (length l) <= MAXFILE * 512 ->
  m_freeblock s + cost (blocks_for (size_of g + Z.of_nat (length l))) - cost (nblk g) <= FSSIZE -> (length l < fuel)%nat ->
  exists s', append_file fuel (1 + Z.of_nat j) l s = Done tt s' /\ grown s s' G j g l.
Proof.
  induction fuel as [|fuel IH]; intros l s G j g Hs Hj Hmax Hroom Hf; [lia|]. assert (Hjl : (j < length G)%nat) by (apply lookup_lt_is_Some; eauto).
  destruct l as [|b l]; cbn [append_file].
  - exists s. split; [done|]. exists g. rewrite list_insert_id by done. rewrite app_nil_r. split_and!; try done. cbn. rewrite Z.add_0_r.
    pose proof (fk_file _ _ Hs j g Hj) as F. by rewrite <- (nblk_for _ _ _ (fi_rep _ _ _ F) (fi_tight _ _ _ F)).
  - set (L := b :: l) in *. set (p := take (Z.to_nat BSIZE) L). set (r := drop (Z.to_nat BSIZE) L).
    assert (Hpr : p ++ r = L) by apply take_drop. assert (Hlp : (length p + length r = length L)%nat) by (rewrite <- Hpr, length_app; done).
    assert (Hr : (length r < length L)%nat) by (unfold r; rewrite length_drop; cbn; change (Z.to_nat BSIZE) with 512%nat; lia).
    destruct (grown_by s G j g p Hs Hj) as (s1 & Hr1 & g1 & Hs1 & Hd1 & Ht1 & Hlo1 & Hc1); [lia| |].
    { enough (cost (blocks_for (size_of g + Z.of_nat (length p))) <= cost (blocks_for (size_of g + Z.of_nat (length L)))) by lia.
      apply cost_mono. unfold blocks_for. zlia. }
    assert (Hsz1 : size_of g1 = size_of g + Z.of_nat (length p)) by (unfold size_of; rewrite Hd1, length_app; lia).
    assert (Hj1 : <[j := g1]> G !! j = Some g1) by (by apply list_lookup_insert_eq).
    pose proof (fk_file _ _ Hs1 j g1 Hj1) as F1. pose proof (tight_add g p g1 _ _ (fi_rep _ _ _ F1) (fi_tight _ _ _ F1) Hd1) as Hn1.
    assert (Hsum : size_of g1 + Z.of_nat (length r) = size_of g + Z.of_nat (length L)) by lia.
    destruct (IH r s1 _ j g1 Hs1 Hj1) as (s2 & Hr2 & g2 & Hs2 & Hd2 & Ht2 & Hlo2 & Hc2); [lia|rewrite Hsum, Hn1; lia|lia|].
    exists s2. split; [by rewrite (bind_Done _ _ s tt s1 Hr1)|]. exists g2. rewrite list_insert_insert_eq in Hs2. split_and!; [done| | | |].
    + by rewrite Hd2, Hd1, <- app_assoc, Hpr.
    + congruence.
    + intros x Hx. by rewrite Hlo2, Hlo1.
    + rewrite Hsum, Hn1 in Hc2. lia.
Qed.
