(* ===== verification/MkfsMain.v ===== *)
(** * What [mkfs] writes

    The loop over the files of the command line, the steps of [main], and the theorem: on
    the image every file has its inode, its contents and its directory entry, the
    bitmap marks the blocks in use, and the super block is the one the kernel reads. *)
From stdpp Require Import gmap.
From S2P Require Import Prelude Layout Sleeplock Blocks Log Fs FsSpec FsNames FsData Mkfs MkfsTheorems MkfsImage.

Lemma length_strncpy n l : length (strncpy_bytes n l) = n.
Proof. revert l. induction n as [|n IH]; intros l; cbn [strncpy_bytes]; [done|]. destruct (truth _); cbn; [by rewrite IH|by rewrite length_replicate]. Qed.
Lemma length_entry inum name : length (dir_entry inum name) = 16%nat.
Proof. unfold dir_entry, mk_dirent. rewrite length_app, length_strncpy. done. Qed.

(** ** A file of the command line *)
Definition good_file (f : list Z * option (list Z)) : Prop :=
  slash ∉ f.1 /\ exists l, f.2 = Some l /\ Z.of_nat (length l) <= MAXFILE * 512.
Definition contents (f : list Z * option (list Z)) : list Z := default [] f.2.
Definition need (files : list (list Z * option (list Z))) : Z := foldr (fun f n => cost (blocks_for (Z.of_nat (length (contents f)))) + n) 0 files.
(** The directory entries of the files, from inode [inum] on. *)
Fixpoint entries (inum : Z) (files : list (list Z * option (list Z))) : list Z :=
  match files with
  | [] => []
  | f :: fs => dir_entry inum (skip_underscore f.1) ++ entries (inum + 1) fs
  end.
Lemma length_entries inum files : length (entries inum files) = (16 * length files)%nat.
Proof. revert inum. induction files as [|f fs IH]; intros inum; [done|]. cbn [entries length]. rewrite length_app, length_entry, IH. lia. Qed.
Lemma need_nonneg files : 0 <= need files.
Proof.
  induction files as [|f fs IH]; [done|]. change (0 <= cost (blocks_for (Z.of_nat (length (contents f)))) + need fs).
  assert (0 <= cost (blocks_for (Z.of_nat (length (contents f))))); [|lia]. change 0 with (cost 0). apply cost_mono. unfold blocks_for. zlia.
Qed.

Lemma add_file_ok s root F f : fsok s (root :: F) -> good_file f -> 3 + Z.of_nat (length F) <= NINODES ->
  size_of root + 16 <= MAXFILE * 512 ->
  m_freeblock s + cost (blocks_for (size_of root + 16)) - cost (nblk root) + cost (blocks_for (Z.of_nat (length (contents f)))) <= FSSIZE ->
  exists s' root' f', add_file ROOTINO f s = Done tt s' /\ fsok s' (root' :: F ++ [f']) /\
    g_data root' = g_data root ++ dir_entry (2 + Z.of_nat (length F)) (skip_underscore f.1) /\ g_type root' = g_type root /\
    g_data f' = contents f /\ g_type f' = T_FILE /\ (forall b, b < 32 -> img s' b = img s b).
Proof.
  intros Hs (Hslash & l & Hl & Hlen) Hn Hroot Hroom. destruct f as [name file]. cbn in Hslash, Hl. subst file. change (contents (name, Some l)) with l in *. cbn [fst snd] in *.
  destruct (ialloc_ok s _ T_FILE Hs) as (s1 & Hr1 & Hs1 & Hlo1); [cbn [length]; lia|by right|]. cbn [length app] in Hr1, Hs1.
  set (inum := 1 + Z.of_nat (S (length F))) in *. assert (Hinum : inum = 2 + Z.of_nat (length F)) by (unfold inum; lia).
  assert (Hfb1 : m_freeblock s1 = m_freeblock s).
  { rewrite (fk_used _ _ Hs1), (fk_used _ _ Hs), app_comm_cons, total_app. change (total [empty_file T_FILE]) with 0. lia. }
  assert (Hc0 : 0 <= cost (blocks_for (Z.of_nat (length l)))) by (change 0 with (cost 0); apply cost_mono; unfold blocks_for; zlia).
  set (e := dir_entry inum (skip_underscore name)). assert (Hle : Z.of_nat (length e) = 16) by (unfold e; by rewrite length_entry).
  destruct (grown_by s1 _ 0 root e Hs1 eq_refl) as (s2 & Hr2 & root' & Hs2 & Hd2 & Ht2 & Hlo2 & Hc2); [lia|rewrite Hle, Hfb1; lia|].
  rewrite Hle, Hfb1 in Hc2. change (<[0%nat := root']> (root :: F ++ [empty_file T_FILE])) with (root' :: F ++ [empty_file T_FILE]) in Hs2.
  set (G2 := root' :: F ++ [empty_file T_FILE]) in *.
  assert (Hj : G2 !! S (length F) = Some (empty_file T_FILE)) by (change ((F ++ [empty_file T_FILE]) !! length F = Some (empty_file T_FILE)); by rewrite lookup_app_r, Nat.sub_diag by lia).
  assert (Hc00 : cost (nblk (empty_file T_FILE)) = 0) by done.
  destruct (append_file_ok (S (length l)) l s2 G2 (S (length F)) (empty_file T_FILE) Hs2 Hj) as (s3 & Hr3 & f' & Hs3 & Hd3 & Ht3 & Hlo3 & _);
    [change (size_of (empty_file T_FILE)) with 0; lia| |lia|].
  { change (size_of (empty_file T_FILE)) with 0. rewrite Hc00, Z.add_0_l. lia. }
  fold inum in Hr3. exists s3, root', f'. split; [|split; [|split_and!]].
  - unfold add_file. rewrite bool_decide_eq_false_2 by done. cbv zeta. rewrite (bind_Done _ _ s inum s1 Hr1). fold e.
    change (ROOTINO) with (1 + Z.of_nat 0). rewrite (bind_Done _ _ s1 tt s2 Hr2). exact Hr3.
  - assert (He : <[S (length F) := f']> G2 = root' :: F ++ [f']).
    { unfold G2. change (root' :: <[length F := f']> (F ++ [empty_file T_FILE]) = root' :: F ++ [f']). f_equal.
      rewrite insert_app_r_alt, Nat.sub_diag by lia. done. }
    by rewrite <- He.
  - rewrite Hd2. unfold e. by rewrite Hinum.
  - done.
  - done.
  - done.
  - intros b Hb. by rewrite Hlo3, Hlo2, Hlo1.
Qed.

Lemma add_files_ok files : forall s root F, fsok s (root :: F) -> Forall good_file files -> 2 + Z.of_nat (length F) + Z.of_nat (length files) <= NINODES ->
  size_of root + 16 * Z.of_nat (length files) <= MAXFILE * 512 ->
  m_freeblock s + cost (blocks_for (size_of root + 16 * Z.of_nat (length files))) - cost (nblk root) + need files <= FSSIZE ->
  exists s' root' G, for_each files (add_file ROOTINO) s = Done tt s' /\ fsok s' (root' :: F ++ G) /\
    g_data root' = g_data root ++ entries (2 + Z.of_nat (length F)) files /\ g_type root' = g_type root /\
    map (fun g => (g_type g, g_data g)) G = map (fun f => (T_FILE, contents f)) files /\ (forall b, b < 32 -> img s' b = img s b).
Proof.
  induction files as [|f fs IH]; intros s root F Hs Hg Hn Hroot Hroom; cbn [for_each].
  - exists s, root, []. cbn [entries]. rewrite !app_nil_r. by split_and!.
  - apply Forall_cons in Hg as [Hf Hg]. cbn [length] in *. pose proof (need_nonneg fs) as Hnn. set (cf := cost (blocks_for (Z.of_nat (length (contents f))))).
    assert (Hneed : need (f :: fs) = cf + need fs) by done. assert (Hcf : 0 <= cf) by (change 0 with (cost 0); apply cost_mono; unfold blocks_for; zlia).
    pose proof (cost_mono (blocks_for (size_of root + 16)) (blocks_for (size_of root + 16 * Z.of_nat (S (length fs)))) ltac:(unfold blocks_for; zlia)) as Hcm.
    destruct (add_file_ok s root F f Hs Hf ltac:(lia) ltac:(lia) ltac:(fold cf; lia)) as (s1 & root1 & f1 & Hr1 & Hs1 & Hd1 & Ht1 & Hdf & Htf & Hlo1).
    assert (Hsz : size_of root1 = size_of root + 16) by (unfold size_of; rewrite Hd1, length_app, length_entry; lia).
    assert (Hroom1 : m_freeblock s1 + cost (nblk root) = m_freeblock s + cost (nblk root1) + cf).
    { rewrite (fk_used _ _ Hs1), (fk_used _ _ Hs). change (total (root1 :: F ++ [f1])) with (cost (nblk root1) + total (F ++ [f1])).
      change (total (root :: F)) with (cost (nblk root) + total F). rewrite total_app. change (total [f1]) with (cost (nblk f1) + 0).
      assert (Hj : (root1 :: F ++ [f1]) !! S (length F) = Some f1) by (change ((F ++ [f1]) !! length F = Some f1); by rewrite lookup_app_r, Nat.sub_diag by lia).
      pose proof (fk_file _ _ Hs1 _ _ Hj) as Ff. rewrite (nblk_for _ _ _ (fi_rep _ _ _ Ff) (fi_tight _ _ _ Ff)). unfold size_of, cf. rewrite Hdf. lia. }
    destruct (IH s1 root1 (F ++ [f1]) Hs1 Hg) as (s2 & root2 & G & Hr2 & Hs2 & Hd2 & Ht2 & HG & Hlo2).
    + rewrite length_app. cbn [length]. lia.
    + rewrite Hsz. lia.
    + rewrite Hsz. replace (size_of root + 16 + 16 * Z.of_nat (length fs)) with (size_of root + 16 * Z.of_nat (S (length fs))) by lia. lia.
    + exists s2, root2, (f1 :: G). split_and!.
      * by rewrite (bind_Done _ _ s tt s1 Hr1).
      * by rewrite <- app_assoc in Hs2.
      * rewrite Hd2, Hd1, <- app_assoc. cbn [entries]. rewrite length_app. cbn [length]. do 3 f_equal. lia.
      * congruence.
      * cbn [map]. rewrite Hdf, Htf. by f_equal.
      * intros b Hb. by rewrite Hlo2, Hlo1.
Qed.

(** ** The bitmap *)
Lemma length_marks l d : length (foldl (fun buf i => mark_bit i buf) d l) = length d.
Proof. revert d. induction l as [|i l IH]; intros d; [done|]. cbn. rewrite IH. unfold mark_bit. by rewrite length_insert. Qed.
Lemma bits_marked n b : (n <= 4096)%nat -> 0 <= b < 4096 ->
  bit_set (foldl (fun buf i => mark_bit i buf) zeroes (seqZ 0 (Z.of_nat n))) b = bool_decide (b < Z.of_nat n).
Proof.
  intros Hn Hb. induction n as [|n IH].
  - change (bit_set zeroes b = bool_decide (b < 0)). rewrite bool_decide_eq_false_2 by lia. unfold bit_set, zeroes.
    rewrite lookup_total_replicate_2 by (unfold bit_byte; change (Z.to_nat BSIZE) with 512%nat; zlia). apply Z.bits_0.
  - replace (Z.of_nat (S n)) with (Z.of_nat n + 1) by lia. rewrite seqZ_snoc, foldl_snoc by lia.
    rewrite bit_set_mark, IH by (rewrite ?length_marks; (done || lia)).
    destruct (decide (b = 0 + Z.of_nat n)) as [E|E]; rewrite !bool_decide_decide; destruct (decide _), (decide _), (decide _); (done || lia).
Qed.

(** ** The empty image *)
Lemma zeroed_img l s : exists s', for_each l (fun i => wsect i zeroes) s = Done tt s' /\ m_freeinode s' = m_freeinode s /\ m_freeblock s' = m_freeblock s /\
  forall b, m_img s' !! b = if bool_decide (b ∈ l) then Some zeroes else m_img s !! b.
Proof.
  revert s. induction l as [|i l IH]; intros s; cbn [for_each].
  - exists s. split_and!; [done|done|done|]. intros b. by rewrite bool_decide_eq_false_2 by apply not_elem_of_nil.
  - destruct (IH (written i zeroes s)) as (s' & Hr & Hi & Hb & Hm). exists s'. split_and!; [|done|done|].
    + by rewrite (bind_Done _ _ s tt (written i zeroes s)).
    + intros b. rewrite Hm. destruct (decide (b ∈ l)) as [Hl|Hl].
      * rewrite !bool_decide_eq_true_2; [done| |done]. apply elem_of_cons. by right.
      * rewrite (bool_decide_eq_false_2 (b ∈ l)) by done. cbn. destruct (decide (b = i)) as [->|Hne].
        -- rewrite lookup_insert_eq, bool_decide_eq_true_2; [done|]. apply elem_of_cons. by left.
        -- rewrite lookup_insert_ne, bool_decide_eq_false_2; [done| |done]. by intros [?|?]%elem_of_cons.
Qed.

Lemma start_ok : exists s, for_each (seqZ 0 FSSIZE) (fun i => wsect i zeroes) (Mkst ∅ 1 nmeta) = Done tt s /\ fsok (written 1 sb_block s) [].
Proof.
  destruct (zeroed_img (seqZ 0 FSSIZE) (Mkst ∅ 1 nmeta)) as (s & Hr & Hi & Hb & Hm). cbn [m_freeinode m_freeblock] in Hi, Hb. exists s. split; [exact Hr|].
  assert (Hz : forall b, 0 <= b < FSSIZE -> m_img s !! b = Some zeroes) by (intros b Hbb; rewrite Hm, bool_decide_eq_true_2; [done|by apply elem_of_seqZ]).
  assert (Hok : img_ok s).
  { split; [intros b Hbb; exists zeroes; by rewrite Hz|intros b Hbb|rewrite Hb; done]. rewrite Hb, nmeta_pos in Hbb. unfold img. by rewrite (lookup_total_correct _ _ _ (Hz b ltac:(lia))). }
  split; try done.
  - apply written_ok; [done|rewrite Hb; done|done].
Qed.

(** ** The image *)
Definition image_view (s : mkst) : view := View (img s) (img s) ∅ ∅ FSSIZE.
(** Inode [inum] of the image, of size [size], has the contents [d], in blocks that the
    kernel's bitmap has as in use. *)
Record image_file (s : mkst) (inum type size : Z) (d : list Z) : Prop := ImageFile {
  if_type : i_type (dino s inum) = type;
  if_nlink : i_nlink (dino s inum) = 1;
  if_size : i_size (dino s inum) = size;
  if_data : fbytes (img s) (dino s inum) 0 (Z.of_nat (length d)) = d;
  if_file : file_ok (image_view s) (dino s inum) (blocks_for (Z.of_nat (length d)));
  if_used : forall k, 0 <= k < blocks_for (Z.of_nat (length d)) -> bit_set (img s 58) (blk (img s) (dino s inum) k) = true }.

(** The files of the image, the root directory first. *)
Definition root_data (files : list (list Z * option (list Z))) : list Z := dir_entry 1 dot ++ dir_entry 1 dotdot ++ entries 2 files.
Definition inode_data (files : list (list Z * option (list Z))) : list (Z * list Z) :=
  (T_DIR, root_data files) :: map (fun f => (T_FILE, contents f)) files.
Definition image_size (j : nat) (d : list Z) : Z :=
  match j with O => (Z.of_nat (length d) `div` BSIZE + 1) * BSIZE | S _ => Z.of_nat (length d) end.

(** From the invariant's terms to the kernel's. *)
Lemma image_file_of s inum g size : rep (img s) (dino s inum) g -> placed g (m_freeblock s) -> tight g -> img_ok s ->
  i_type (dino s inum) = g_type g -> i_nlink (dino s inum) = 1 -> i_size (dino s inum) = size ->
  (forall b, nmeta <= b < m_freeblock s -> bit_set (img s 58) b = true) -> image_file s inum (g_type g) size (g_data g).
Proof.
  intros Hr Hp Ht Hok Hty Hn Hs Hbits. pose proof (nblk_for _ _ _ Hr Ht) as Hnb. unfold size_of in Hnb. pose proof (im_low _ Hok) as Hlow.
  pose proof nmeta_pos as Hnm. pose proof (r_max _ _ _ Hr) as Hmax. pose proof (nblk_nonneg g) as H0.
  assert (Hb : forall k, 0 <= k < nblk g -> nmeta <= blk (img s) (dino s inum) k < m_freeblock s).
  { intros k Hk. rewrite (r_blk _ _ _ Hr k Hk). apply (p_range _ _ Hp). by apply block_owned. }
  split; try done; rewrite <- ?Hnb.
  - apply list_eq_same_length with (n := length (g_data g)); [done|unfold fbytes; rewrite length_fmap, length_seqZ; lia|].
    intros j x y Hj Hx Hy. replace j with (Z.to_nat (Z.of_nat j)) in Hx by lia. rewrite fbytes_lookup in Hx by lia. injection Hx as <-.
    rewrite Z.add_0_l, (r_data _ _ _ Hr) by (unfold size_of; lia). rewrite Nat2Z.id. by apply list_lookup_total_correct.
  - split; cbn [image_view v_content v_held v_size].
    + done.
    + lia.
    + intros Hd. pose proof (r_ind _ _ _ Hr) as Hi. rewrite (proj2 (Z.ltb_lt _ _) Hd) in Hi. destruct (p_range _ _ Hp _ (ind_owned g Hd)) as [H1 H2].
      rewrite Hi. split_and!; try lia. apply not_elem_of_empty.
    + intros k Hk. specialize (Hb k Hk). split_and!; try lia; [apply not_elem_of_empty|]. apply (img_lookup s); [done|lia].
    + intros k k' Hk Hk' He. rewrite !(r_blk _ _ _ Hr) in He by done. by apply (blocks_apart g); [apply Hp|..].
    + intros k Hk Hd. pose proof (r_ind _ _ _ Hr) as Hi. rewrite (proj2 (Z.ltb_lt _ _) Hd) in Hi. rewrite Hi, (r_blk _ _ _ Hr k Hk).
      intros He. by apply (ind_apart g k); [apply Hp|done|done|].
  - intros k Hk. apply Hbits, Hb, Hk.
Qed.

(** The last steps of [main]: the root's size, the bitmap. *)
Definition finished (s : mkst) : mkst :=
  let din := dino s 1 in let off := (xint (i_size din) `div` BSIZE + 1) * BSIZE in
  written 58 (foldl (fun buf i => mark_bit i buf) zeroes (seqZ 0 (m_freeblock s))) (inode_put 1 (with_size (xint off) din) s).

Lemma finish_ok s G : fsok s G ->
  (din ← rinode ROOTINO;
   let off := xint (i_size din) in let off := (off `div` BSIZE + 1) * BSIZE in
   winode ROOTINO (with_size (xint off) din) ;;
   used ← gets m_freeblock;
   balloc used) s = Done tt (finished s).
Proof.
  intros Hs. pose proof (fk_img _ _ Hs) as Hok. pose proof (im_low _ Hok) as Hlow. unfold FSSIZE in *.
  rewrite (bind_Done (rinode ROOTINO) _ s (dino s 1) s).
  2: { unfold rinode. by rewrite (bind_Done _ _ s (img s (IBLOCK ROOTINO mk_sb)) s) by (apply rsect_ok; [done|done]). }
  cbv zeta. rewrite (bind_Done _ _ s tt _ (winode_ok ROOTINO _ s Hok ltac:(done))).
  set (s1 := inode_put _ _ s). rewrite (bind_Done (gets m_freeblock) _ s1 (m_freeblock s) s1 eq_refl). unfold balloc. rewrite (proj2 (Z.leb_gt _ _)) by (unfold BSIZE; lia). done.
Qed.

Lemma finished_files s root F : fsok s (root :: F) -> let s' := finished s in
  img_ok s' /\ m_freeblock s' = m_freeblock s /\ (forall b, 0 <= b < FSSIZE -> bit_set (img s' 58) b = bool_decide (b < m_freeblock s)) /\
  (forall b, b < 32 -> img s' b = img s b) /\
  (forall j g, F !! j = Some g -> file_in s' (2 + Z.of_nat j) g) /\
  rep (img s') (dino s' 1) root /\ i_type (dino s' 1) = g_type root /\ i_nlink (dino s' 1) = 1 /\ i_size (dino s' 1) = (size_of root `div` BSIZE + 1) * BSIZE.
Proof.
  intros Hs s'. pose proof (fk_img _ _ Hs) as Hok. pose proof (im_low _ Hok) as Hlow. rewrite nmeta_pos in Hlow. unfold FSSIZE in Hlow.
  pose proof (fk_file _ _ Hs 0%nat root eq_refl) as [F1 F2 F3 F4 F5 F6 [F7 F7'] F8]. change (1 + Z.of_nat 0) with 1 in *.
  pose proof (r_max _ _ _ F1) as Hmax. pose proof (r_cover _ _ _ F1) as Hcov. change MAXFILE with 140 in Hmax.
  assert (H0 : 0 <= size_of root) by (unfold size_of; lia).
  set (din := dino s 1) in *. set (off := (xint (i_size din) `div` BSIZE + 1) * BSIZE). assert (Hoff : off = (size_of root `div` BSIZE + 1) * BSIZE) by (unfold off; rewrite F4, xint_id by lia; done).
  assert (Hoffr : 0 <= off < 4294967296) by (rewrite Hoff; unfold BSIZE; zlia).
  set (i' := with_size (xint off) din). set (s1 := inode_put 1 i' s). set (bm := foldl (fun buf i => mark_bit i buf) zeroes (seqZ 0 (m_freeblock s))).
  assert (Hs' : s' = written 58 bm s1) by done. assert (Hok1 : img_ok s1) by (by apply inode_put_ok).
  assert (Hwf : inode_wf i').
  { apply (rep_wf (img s) _ root); [by apply (rep_addrs _ din)|..]; unfold i', with_size, with_meta; cbn [i_type i_major i_minor i_nlink i_size i_addrs]; rewrite ?F5, ?(xint_id off); try done.
    unfold T_DIR, T_FILE in F8. destruct F8 as [-> | ->]; lia. }
  assert (Himg : forall b, b < 32 \/ 59 <= b -> img s' b = img s b).
  { intros b Hb. rewrite Hs', img_written, decide_False by lia. unfold s1. rewrite inode_put_img; [done|]. change (IBLOCK 1 mk_sb) with 32. lia. }
  assert (Hdino : forall j, 0 <= j <= NINODES -> dino s' j = dino s1 j).
  { intros j Hj. pose proof (iblock_range j Hj). unfold dino. by rewrite Hs', img_written, decide_False by lia. }
  split; [|split; [done|split; [|split; [by intros b Hb; apply Himg; left|split]]]].
  - rewrite Hs'. apply written_ok; [done|cbn; lia|]. unfold bm. by rewrite length_marks.
  - intros b Hb. rewrite Hs', img_written, decide_True by done. unfold bm. rewrite <- (Z2Nat.id (m_freeblock s)) by lia. apply bits_marked; unfold FSSIZE in *; lia.
  - intros j g Hj. pose proof (fk_file _ _ Hs (S j) g Hj) as Hf. replace (1 + Z.of_nat (S j)) with (2 + Z.of_nat j) in Hf by lia.
    destruct (fk_count _ _ Hs) as [_ Hc]. cbn [length] in Hc. assert (Hjl : (j < length F)%nat) by (apply lookup_lt_is_Some; eauto).
    apply (file_in_frame s); [done| | |done].
    + rewrite Hdino by lia. unfold s1. by rewrite dino_put_ne by (done || lia).
    + intros b Hb. apply Himg. destruct (p_range _ _ (fi_placed _ _ _ Hf) b Hb) as [Hb1 _]. rewrite nmeta_pos in Hb1. lia.
  - rewrite Hdino by done. unfold s1. rewrite dino_put by done. cbn. split; [|split_and!].
    + apply (rep_addrs _ din); [done|]. apply (rep_frame (img s)); [|done]. intros b Hb. apply Himg. destruct (p_range _ _ F2 b Hb) as [Hb1 _]. rewrite nmeta_pos in Hb1. lia.
    + done.
    + done.
    + rewrite xint_id by done. exact Hoff.
Qed.

Definition fits (files : list (list Z * option (list Z))) : Prop :=
  2 + Z.of_nat (length files) <= NINODES /\
  nmeta + cost (blocks_for (32 + 16 * Z.of_nat (length files))) + need files <= FSSIZE.

(** The steps of [main] before the files. *)
Lemma main_start files : fits files -> Forall good_file files ->
  exists s root F, mkfs files = Done tt (finished s) /\ fsok s (root :: F) /\ g_type root = T_DIR /\ g_data root = root_data files /\
    map (fun g => (g_type g, g_data g)) F = map (fun f => (T_FILE, contents f)) files /\ img s 1 = sb_block.
Proof.
  intros [Hn Hroom] Hg. pose proof (need_nonneg files) as Hnn. unfold NINODES in Hn. destruct start_ok as (s0 & Hr0 & Hs0). set (s1 := written 1 sb_block s0) in *.
  destruct (ialloc_ok s1 [] T_DIR Hs0 ltac:(done) ltac:(by left)) as (s2 & Hr2 & Hs2 & Hlo2). cbn [app length] in *. change (1 + Z.of_nat 0) with ROOTINO in Hr2.
  assert (Hsz : forall g l, g_data g = l -> size_of g = Z.of_nat (length l)) by (intros g l <-; done).
  assert (Hu1 : m_freeblock s1 = nmeta) by (rewrite (fk_used _ _ Hs0); done). assert (Hu2 : m_freeblock s2 = nmeta) by (rewrite (fk_used _ _ Hs2); done).
  destruct (grown_by s2 _ 0 (empty_file T_DIR) (dir_entry 1 dot) Hs2 eq_refl) as (s3 & Hr3 & g3 & Hs3 & Hd3 & Ht3 & Hlo3 & Hc3); [done|rewrite Hu2; done|].
  change (<[0%nat := g3]> [empty_file T_DIR]) with [g3] in Hs3. cbn [empty_file g_data app] in Hd3.
  assert (Hn3 : nblk g3 = 1).
  { pose proof (fk_file _ _ Hs3 0%nat g3 eq_refl) as F. rewrite (nblk_for _ _ _ (fi_rep _ _ _ F) (fi_tight _ _ _ F)), (Hsz _ _ Hd3). done. }
  assert (Hu3 : m_freeblock s3 = nmeta + 1) by (rewrite (fk_used _ _ Hs3); unfold total; cbn; rewrite Hn3; done).
  destruct (grown_by s3 _ 0 g3 (dir_entry 1 dotdot) Hs3 eq_refl) as (s4 & Hr4 & g4 & Hs4 & Hd4 & Ht4 & Hlo4 & Hc4); [rewrite (Hsz _ _ Hd3); done|rewrite Hu3, Hn3, (Hsz _ _ Hd3); done|].
  change (<[0%nat := g4]> [g3]) with [g4] in Hs4. rewrite Hd3 in Hd4.
  assert (Hs4z : size_of g4 = 32) by (by rewrite (Hsz _ _ Hd4)).
  assert (Hn4 : nblk g4 = 1).
  { pose proof (fk_file _ _ Hs4 0%nat g4 eq_refl) as F. rewrite (nblk_for _ _ _ (fi_rep _ _ _ F) (fi_tight _ _ _ F)), Hs4z. done. }
  assert (Hu4 : m_freeblock s4 = nmeta + 1) by (rewrite (fk_used _ _ Hs4); unfold total; cbn; rewrite Hn4; done).
  destruct (add_files_ok files s4 g4 [] Hs4 Hg) as (s5 & root & F & Hr5 & Hs5 & Hd5 & Ht5 & HF & Hlo5).
  { cbn [length]. unfold NINODES. lia. }
  { rewrite Hs4z. change MAXFILE with 140. lia. }
  { rewrite Hs4z, Hn4, Hu4. change (cost 1) with 1. lia. }
  exists s5, root, F. cbn [app] in Hs5. split_and!; [|done|by rewrite Ht5, Ht4, Ht3| |done|].
  - unfold mkfs, main. rewrite (bind_Done (modify (fun s => Mkst (m_img s) (m_freeinode s) nmeta)) _ (Mkst ∅ 1 0) tt (Mkst ∅ 1 nmeta) eq_refl). rewrite (bind_Done _ _ _ tt s0 Hr0).
    rewrite (bind_Done (wsect 1 sb_block) _ s0 tt s1 eq_refl). rewrite (bind_Done _ _ _ _ _ Hr2). rewrite Z.eqb_refl. cbn [negb].
    change ROOTINO with (1 + Z.of_nat 0) at 1 2. change (1 + Z.of_nat 0) with 1 at 2. rewrite (bind_Done _ _ s2 tt s3 Hr3).
    change ROOTINO with (1 + Z.of_nat 0) at 1 2. change (1 + Z.of_nat 0) with 1 at 2. rewrite (bind_Done _ _ s3 tt s4 Hr4).
    rewrite (bind_Done _ _ s4 tt s5 Hr5). by apply (finish_ok _ (root :: F)).
  - rewrite Hd5, Hd4. unfold root_data. by rewrite <- app_assoc.
  - rewrite Hlo5, Hlo4, Hlo3, Hlo2 by done. unfold s1. by rewrite img_written, decide_True.
Qed.

(** (C16) The image [mkfs] builds is the file system the kernel expects: for every command line
    whose files fit, [mkfs] ends and the super block is the one [readsb] reads; the root
    directory - the entries ".", ".." and those of the files - and the files, from inode 2 on, have
    their inodes with type, one link and size, and their contents read as the
    kernel reads them, through direct and indirect blocks; different files share no block, and the bitmap marks exactly the
    blocks below the first free one, those of the files among them. *)
Theorem mkfs_image files : fits files -> Forall good_file files ->
  exists s, mkfs files = Done tt s /\ decode_sb (img s 1) = Superblock FSSIZE nblocks NINODES nlog 2 32 58 /\
    (forall j ty d, inode_data files !! j = Some (ty, d) -> image_file s (1 + Z.of_nat j) ty (image_size j d) d) /\
    (forall i j ti di tj dj, i <> j -> inode_data files !! i = Some (ti, di) -> inode_data files !! j = Some (tj, dj) ->
       forall k l, 0 <= k < blocks_for (Z.of_nat (length di)) -> 0 <= l < blocks_for (Z.of_nat (length dj)) ->
       blk (img s) (dino s (1 + Z.of_nat i)) k <> blk (img s) (dino s (1 + Z.of_nat j)) l) /\
    (forall b, 0 <= b < FSSIZE -> bit_set (img s 58) b = bool_decide (b < m_freeblock s)).
Proof.
  intros Hfit Hg. destruct (main_start files Hfit Hg) as (s & root & F & Hr & Hs & Htr & Hdr & HF & Hsb).
  destruct (finished_files s root F Hs) as (Hok & Hfb & Hbits & Hlo & Hfiles & Hrr & Hrt & Hrn & Hrs). set (s' := finished s) in *.
  assert (Hdata : forall j ty d, inode_data files !! j = Some (ty, d) -> exists g, (root :: F) !! j = Some g /\ g_type g = ty /\ g_data g = d).
  { intros [|j] ty d Hj; cbn in Hj.
    - injection Hj as <- <-. exists root. by split_and!.
    - change (map (fun f => (T_FILE, contents f)) files !! j = Some (ty, d)) in Hj. rewrite <- HF in Hj. apply list_lookup_fmap_Some in Hj as (g & Heq & Hj). injection Heq as -> ->. exists g. split; [exact Hj|]. split; reflexivity. }
  assert (Hrep : forall j g, (root :: F) !! j = Some g -> rep (img s') (dino s' (1 + Z.of_nat j)) g /\ placed g (m_freeblock s') /\ tight g).
  { intros [|j] g Hj.
    - injection Hj as <-. pose proof (fk_file _ _ Hs 0%nat root eq_refl) as R. split_and!; [done|rewrite Hfb; apply R|apply R].
    - replace (1 + Z.of_nat (S j)) with (2 + Z.of_nat j) by lia. pose proof (Hfiles j g Hj) as R. split_and!; apply R. }
  assert (Hb1 : forall b, nmeta <= b < m_freeblock s' -> bit_set (img s' 58) b = true).
  { intros b Hb. pose proof (im_low _ Hok). rewrite nmeta_pos in *. rewrite Hbits, bool_decide_eq_true_2 by lia. done. }
  exists s'. split; [exact Hr|]. split; [|split; [|split; [|by rewrite Hfb]]].
  - rewrite Hlo, Hsb by done. vm_compute. reflexivity.
  - intros j ty d Hj. destruct (Hdata j ty d Hj) as (g & Hgj & <- & <-). destruct (Hrep j g Hgj) as (R1 & R2 & R3).
    destruct j as [|j]; cbn [lookup list_lookup] in Hgj.
    + injection Hgj as <-. exact (image_file_of s' 1 root _ R1 R2 R3 Hok Hrt Hrn Hrs Hb1).
    + pose proof (Hfiles j g Hgj) as Rj. replace (1 + Z.of_nat (S j)) with (2 + Z.of_nat j) in * by lia.
      exact (image_file_of s' _ g _ R1 R2 R3 Hok (fi_type _ _ _ Rj) (fi_nlink _ _ _ Rj) (fi_size _ _ _ Rj) Hb1).
  - intros i j ti di tj dj Hne Hi Hj k l Hk Hl He. destruct (Hdata i ti di Hi) as (gi & Hgi & _ & <-), (Hdata j tj dj Hj) as (gj & Hgj & _ & <-).
    destruct (Hrep i gi Hgi) as (R1 & _ & R3), (Hrep j gj Hgj) as (Q1 & _ & Q3).
    pose proof (nblk_for _ _ _ R1 R3) as Hni. pose proof (nblk_for _ _ _ Q1 Q3) as Hnj. unfold size_of in Hni, Hnj. rewrite <- Hni in Hk. rewrite <- Hnj in Hl.
    rewrite (r_blk _ _ _ R1 k Hk), (r_blk _ _ _ Q1 l Hl) in He. apply (fk_apart _ _ Hs i j gi gj Hne Hgi Hgj _ (block_owned gi k Hk)). rewrite He. by apply block_owned.
Qed.

(** The program [_cat] and a text file. *)
Definition two_files : list (list Z * option (list Z)) := [([95; 99; 97; 116], Some [127; 69; 76; 70]); ([82], Some [120; 118; 54])].
Lemma mkfs_image_witness : exists s, mkfs two_files = Done tt s /\ image_file s 2 T_FILE 4 [127; 69; 76; 70] /\ image_file s 3 T_FILE 3 [120; 118; 54].
Proof.
  destruct (mkfs_image two_files) as (s & Hr & _ & Hf & _).
  - split; vm_compute; discriminate.
  - repeat constructor; try (eexists; split; [reflexivity|vm_compute; discriminate]); cbn [fst]; unfold slash; set_solver.
  - exists s. split; [exact Hr|]. split; [exact (Hf 1%nat _ _ eq_refl)|exact (Hf 2%nat _ _ eq_refl)].
Defined.

(** When the entries of the root fill its blocks exactly, its size is rounded past them: the
    last block of the directory has no address. *)
Lemma mkfs_root_hole : match mkfs (replicate 30 ([97], Some [])) with
  | Done _ s => i_size (dino s 1) = 1024 /\ i_addrs (dino s 1) !!! 1%nat = 0 | _ => False end.
Proof. vm_compute. by split. Qed.
