(* ===== verification/RrProc.v ===== *)
(** * Processes of the page-replacement kernel ([src/page-replacement]: [proc.c],
    [sysproc.c], [trap] of [trap.c], [switchuvm] of [vm.c])

    The process table with the round-robin scheduler, over the memory of [Swap.v]:
    every page comes from the allocator that swaps, and the buffer cache the swap
    space goes through is the one under the files.  The table entry is that of [ProcData.v],
    whose fields for priorities and virtual run time this kernel does not have and never
    touches.  As in [Proc.v] a function that gives up the CPU is split at [sched], and [sched]
    itself makes its checks with [ptable.lock] held across the switch. *)
From S2P Require Import Prelude Layout Memory Locks Kalloc Vm Blocks SwapDisk Log Fs File ProcData Swap.

(** A file layer over the buffers of two disks, which it shares with the swap space. *)
Class FilesOver (F B : Type) := {
  fo_files :: FileLayer F;
  fo_blocks :: Disks B;
  bl_of : F -> B;
  put_bl : B -> F -> F;
  bl_of_put : forall b f, bl_of (put_bl b f) = b;
  put_bl_of : forall f, put_bl (bl_of f) f = f }.

(** That of [File.v] over disk 1 ([fs_layer]): the blocks are those under its log. *)
#[program] Definition files_over {S} `{Disks S} (devs : Z -> devsw S) : FilesOver (flst S) S := {|
  fo_files := files (H := fs_layer) devs;
  bl_of f := lg_bl (fs_log (fs_of f));
  put_bl b f := set_fsst (set_log (set_bl b (fs_log (fs_of f))) (fs_of f)) f |}.
Next Obligation. done. Qed.
Next Obligation. by intros S ? devs [[[]]]. Qed.

Record rst (F B : Type) := Rst {
  r_proc : list proc;           (* ptable.proc *)
  r_initproc : Z;
  r_nextpid : Z;
  r_cur : Z;                    (* c->proc *)
  r_first : bool;               (* forkret's static [first] *)
  r_sw : swst B;                (* memory, the allocator, the LRU list *)
  r_fs : F;                     (* the file layer *)
  r_ticks : Z;
  r_out : list (string * list parg);   (* cprintf calls, newest first *)
  r_held : list lock }.
Arguments Rst {F B}. Arguments r_proc {F B}. Arguments r_initproc {F B}. Arguments r_nextpid {F B}. Arguments r_cur {F B}. Arguments r_first {F B}.
Arguments r_sw {F B}. Arguments r_fs {F B}. Arguments r_ticks {F B}. Arguments r_out {F B}. Arguments r_held {F B}.

Section state.
Context {F B : Type}.
Implicit Types s : rst F B.
Definition set_rprocs (l : list proc) s : rst F B := Rst l (r_initproc s) (r_nextpid s) (r_cur s) (r_first s) (r_sw s) (r_fs s) (r_ticks s) (r_out s) (r_held s).
Definition set_rinit (p : Z) s : rst F B := Rst (r_proc s) p (r_nextpid s) (r_cur s) (r_first s) (r_sw s) (r_fs s) (r_ticks s) (r_out s) (r_held s).
Definition set_rpid (n : Z) s : rst F B := Rst (r_proc s) (r_initproc s) n (r_cur s) (r_first s) (r_sw s) (r_fs s) (r_ticks s) (r_out s) (r_held s).
Definition set_rcur (p : Z) s : rst F B := Rst (r_proc s) (r_initproc s) (r_nextpid s) p (r_first s) (r_sw s) (r_fs s) (r_ticks s) (r_out s) (r_held s).
Definition set_rfirst (b : bool) s : rst F B := Rst (r_proc s) (r_initproc s) (r_nextpid s) (r_cur s) b (r_sw s) (r_fs s) (r_ticks s) (r_out s) (r_held s).
Definition set_rsw (w : swst B) s : rst F B := Rst (r_proc s) (r_initproc s) (r_nextpid s) (r_cur s) (r_first s) w (r_fs s) (r_ticks s) (r_out s) (r_held s).
Definition set_rfs (f : F) s : rst F B := Rst (r_proc s) (r_initproc s) (r_nextpid s) (r_cur s) (r_first s) (r_sw s) f (r_ticks s) (r_out s) (r_held s).
Definition set_rticks (t : Z) s : rst F B := Rst (r_proc s) (r_initproc s) (r_nextpid s) (r_cur s) (r_first s) (r_sw s) (r_fs s) t (r_out s) (r_held s).
Definition set_rout (o : list (string * list parg)) s : rst F B := Rst (r_proc s) (r_initproc s) (r_nextpid s) (r_cur s) (r_first s) (r_sw s) (r_fs s) (r_ticks s) o (r_held s).
Definition set_rheld (L : list lock) s : rst F B := Rst (r_proc s) (r_initproc s) (r_nextpid s) (r_cur s) (r_first s) (r_sw s) (r_fs s) (r_ticks s) (r_out s) L.

#[export, program] Instance rst_locks : HasLocks (rst F B) := {| locks_of := r_held; with_locks := set_rheld |}.
Next Obligation. done. Qed.
Next Obligation. done. Qed.
Next Obligation. by intros []. Qed.

Definition proc_at s (i : Z) : proc := r_proc s !!! Z.to_nat i.
Definition upd_proc (i : Z) (f : proc -> proc) s : rst F B := set_rprocs (alter f (Z.to_nat i) (r_proc s)) s.
Definition pget (i : Z) : M (rst F B) proc := if i =? NULL then undef "null process" else gets (fun s => proc_at s i).
Definition pset (i : Z) (f : proc -> proc) : M (rst F B) unit := if i =? NULL then undef "null process" else modify (upd_proc i f).
Definition myproc : M (rst F B) Z := gets r_cur.
Definition curproc : M (rst F B) proc := i ← myproc; pget i.
Definition cprintf (fmt : string) (args : list parg) : M (rst F B) unit := modify (fun s => set_rout ((fmt, args) :: r_out s) s).
End state.

Section proc.
Context {F B : Type} `{FilesOver F B} (kend kdata : Z).
Variables forkret_addr trapret_addr initcode_start initcode_size kpgdir : Z.
Abbreviation R := (M (rst F B)).
Implicit Types s : rst F B.

(** Running the memory code on its part of the state; [flush] reloads the page
    directory of the process that is running. *)
Definition run_pgdir s (w : swst B) : swst B :=
  Swst (sw_k w) (sw_bl w) (sw_pages w) (sw_head w) (sw_nlru w) (sw_bitmap w) (sw_cr3 w)
    (if r_cur s =? NULL then sw_pgdir w else p_pgdir (proc_at s (r_cur s))) (sw_nread w) (sw_nwrite w).
Definition on_w {A} (m : M (swst B) A) : R A :=
  zoom (fun s => run_pgdir s (set_sbl (bl_of (r_fs s)) (with_locks (r_held s) (r_sw s))))
    (fun w s => set_rheld (locks_of w) (set_rfs (put_bl (sw_bl w) (r_fs s)) (set_rsw w s))) m.
Definition on_m {A} (m : M kst A) : R A := on_w (kk m).
Definition on_f {A} (m : M F A) : R A :=
  zoom (fun s => with_locks (r_held s) (r_fs s)) (fun f s => set_rheld (locks_of f) (set_rfs f s)) m.

(** [for(p = ptable.proc; p < &ptable.proc[NPROC]; p++)] with a return. *)
Definition each_proc {A} (body : Z -> proc -> R (option A)) : R (option A) :=
  for_ret (seqZ 0 NPROC) (fun i => p ← pget i; body i p).

Definition switchuvm (i : Z) : R unit :=
  if i =? NULL then panic "switchuvm: no process"
  else
    p ← pget i;
    if p_kstack p =? 0 then panic "switchuvm: no kstack"
    else if p_pgdir p =? 0 then panic "switchuvm: no pgdir"
    else on_w (modify (set_cr3 (V2P (p_pgdir p)))).
Definition switchkvm : R unit := on_w (modify (set_cr3 (V2P kpgdir))).

Definition allocproc : R Z :=
  acquire Lptable ;;
  r ← each_proc (fun i p => if decide (p_state p = UNUSED) then mret (Some i) else mret None);
  match r with
  | None => release Lptable ;; mret NULL
  | Some i =>
      pset i (with_state EMBRYO) ;;
      pid ← gets r_nextpid;
      pset i (with_pid pid) ;;
      modify (set_rpid (i32 (pid + 1))) ;;
      release Lptable ;;
      kstack ← on_w (kalloc kend);
      pset i (with_kstack kstack) ;;
      if kstack =? 0 then pset i (with_state UNUSED) ;; mret NULL
      else
        let tf := kstack + KSTACKSIZE - sizeof_trapframe in
        let ctx := tf - 4 - sizeof_context in
        on_m (store32 (tf - 4) trapret_addr) ;;
        pset i (with_frames tf ctx) ;;
        on_m (modify (upd_mem (memset ctx 0 sizeof_context))) ;;
        on_m (store32 (ctx + ctx_eip) forkret_addr) ;;
        mret i
  end.

Definition tf_store (i off v : Z) : R unit := p ← pget i; on_m (store32 (p_tf p + off) v).
Definition tf_store16 (i off v : Z) : R unit :=
  p ← pget i; on_m (modify (upd_mem (fun m => wr8 (p_tf p + off + 1) (v ≫ 8) (wr8 (p_tf p + off) v m)))).

Definition SEG_UCODE : Z := 3.
Definition SEG_UDATA : Z := 4.
Definition DPL_USER : Z := 3.

Definition userinit : R unit :=
  i ← allocproc;
  modify (set_rinit i) ;;
  pgdir ← on_w (setupkvm kend kdata);
  p ← pget i;
  pset i (with_mem (p_sz p) pgdir) ;;
  if pgdir =? 0 then panic "userinit: out of memory?"
  else
    on_w (inituvm kend pgdir initcode_start initcode_size) ;;
    pset i (with_mem PGSIZE pgdir) ;;
    p ← pget i;
    on_m (modify (upd_mem (memset (p_tf p) 0 sizeof_trapframe))) ;;
    tf_store16 i tf_cs ((SEG_UCODE ≪ 3) ||| DPL_USER) ;;
    tf_store16 i tf_ds ((SEG_UDATA ≪ 3) ||| DPL_USER) ;;
    tf_store16 i tf_es ((SEG_UDATA ≪ 3) ||| DPL_USER) ;;
    tf_store16 i tf_ss ((SEG_UDATA ≪ 3) ||| DPL_USER) ;;
    tf_store i tf_eflags FL_IF ;;
    tf_store i tf_esp PGSIZE ;;
    tf_store i tf_eip 0 ;;
    pset i (with_name [105; 110; 105; 116; 99; 111; 100; 101]) ;;
    cwd ← on_f root_inode;
    pset i (with_cwd cwd) ;;
    acquire Lptable ;;
    pset i (with_state RUNNABLE) ;;
    release Lptable.

Definition growproc (n : Z) : R Z :=
  me ← myproc;
  p ← pget me;
  let sz := p_sz p in
  r ← (if n >? 0 then
         sz' ← on_w (allocuvm kend (p_pgdir p) sz (u32 (sz + n)));
         mret (if sz' =? 0 then None else Some sz')
       else if n <? 0 then
         sz' ← on_w (deallocuvm kend (p_pgdir p) sz (u32 (sz + n)));
         mret (if sz' =? 0 then None else Some sz')
       else mret (Some sz));
  match r with
  | None => mret (-1)
  | Some sz => pset me (fun p => with_mem sz (p_pgdir p) p) ;; switchuvm me ;; mret 0
  end.

Definition fork : R Z :=
  me ← myproc;
  np ← allocproc;
  if np =? NULL then mret (-1)
  else
    p ← pget me;
    pgdir ← on_w (copyuvm kend kdata (p_pgdir p) (p_sz p));
    pset np (fun c => with_mem (p_sz c) pgdir c) ;;
    if pgdir =? 0 then
      c ← pget np;
      on_w (kfree kend (p_kstack c)) ;;
      pset np (with_kstack 0) ;;
      pset np (with_state UNUSED) ;;
      mret (-1)
    else
      pset np (with_mem (p_sz p) pgdir) ;;
      pset np (with_parent me) ;;
      c ← pget np;
      on_m (modify (upd_mem (memmove (p_tf c) (p_tf p) sizeof_trapframe))) ;;
      tf_store np tf_eax 0 ;;
      for_each (seqZ 0 NOFILE) (fun i =>
        p ← pget me;
        let f := p_ofile p !!! Z.to_nat i in
        when (f !=? NULL) (f' ← on_f (filedup f); pset np (with_ofile i f'))) ;;
      cwd ← on_f (inode_dup (p_cwd p));
      pset np (with_cwd cwd) ;;
      pset np (with_name (p_name p)) ;;
      c ← pget np;
      acquire Lptable ;;
      pset np (with_state RUNNABLE) ;;
      release Lptable ;;
      mret (p_pid c).

(** ** Giving up the CPU *)
(** As in [Proc.v], interrupts are off while a lock is held, so the last test of
    [sched] cannot fail. *)
Definition sched : R unit :=
  me ← myproc;
  h ← holding Lptable;
  if negb h then panic "sched ptable.lock"
  else
    L ← gets r_held;
    if negb (Nat.eqb (length L) 1) then panic "sched locks"
    else
      p ← pget me;
      if decide (p_state p = RUNNING) then panic "sched running"
      else mret tt.

Definition wake_proc (chan : wchan) (p : proc) : proc :=
  if decide (p_state p = SLEEPING /\ p_chan p = chan) then with_state RUNNABLE p else p.
Definition wakeup1 (chan : wchan) : R unit := modify (fun s => set_rprocs (wake_proc chan <$> r_proc s) s).
Definition wakeup (chan : wchan) : R unit := acquire Lptable ;; wakeup1 chan ;; release Lptable.

Definition yield_enter : R unit := acquire Lptable ;; me ← myproc; pset me (with_state RUNNABLE) ;; sched.
Definition yield_leave : R unit := release Lptable.

(** [lk] is the caller's lock, [None] the null pointer. *)
Definition sleep_enter (chan : wchan) (lk : option lock) : R unit :=
  me ← myproc;
  if me =? NULL then panic "sleep"
  else match lk with
  | None => panic "sleep without lk"
  | Some lk =>
      when (negb (bool_decide (lk = Lptable))) (acquire Lptable ;; release lk) ;;
      pset me (with_chan chan) ;;
      pset me (with_state SLEEPING) ;;
      sched
  end.
Definition sleep_leave (lk : lock) : R unit :=
  me ← myproc;
  pset me (with_chan Cnone) ;;
  when (negb (bool_decide (lk = Lptable))) (release Lptable ;; acquire lk).

Definition forkret : R unit :=
  release Lptable ;;
  first ← gets r_first;
  when first (modify (set_rfirst false) ;; on_f fs_init).

(** The passage from [scheduler] to a process, and what follows its [swtch] back. *)
Definition dispatch (p : Z) : R unit :=
  modify (set_rcur p) ;;
  switchuvm p ;;
  pset p (with_state RUNNING).
Definition dispatch_return : R unit := switchkvm ;; modify (set_rcur NULL).

(** The scan of [scheduler] from entry [p] on, up to the next dispatch; [None] at
    the end of the table. *)
Definition scheduler_scan (p : Z) : R (option Z) :=
  for_ret (seqZ p (NPROC - p)) (fun i =>
    q ← pget i;
    if decide (p_state q = RUNNABLE) then dispatch i ;; mret (Some i) else mret None).

(** ** Exit and wait *)
Definition reparent (me initproc : Z) (i : Z) : R unit :=
  p ← pget i;
  when (p_parent p =? me)
    (pset i (with_parent initproc) ;;
     p ← pget i;
     when (bool_decide (p_state p = ZOMBIE)) (wakeup1 (Cproc initproc))).
Definition exit_locked (me initproc : Z) : R unit :=
  p ← pget me;
  wakeup1 (Cproc (p_parent p)) ;;
  for_each (seqZ 0 NPROC) (reparent me initproc) ;;
  pset me (with_state ZOMBIE) ;;
  sched.

Definition exit : R unit :=
  me ← myproc;
  initproc ← gets r_initproc;
  if me =? initproc then panic "init exiting"
  else
    for_each (seqZ 0 NOFILE) (fun fd =>
      p ← pget me;
      let f := p_ofile p !!! Z.to_nat fd in
      when (f !=? NULL) (on_f (fileclose f) ;; pset me (with_ofile fd NULL))) ;;
    on_f fs_begin_op ;;
    p ← pget me;
    on_f (inode_put (p_cwd p)) ;;
    on_f fs_end_op ;;
    pset me (with_cwd NULL) ;;
    acquire Lptable ;;
    exit_locked me initproc.

Inductive wres := WDone (r : Z) | WSleep.

(** The scan of [wait] over the table: a reaped child, or whether there are any. *)
Definition reap (i : Z) (p : proc) : R unit :=
  on_w (kfree kend (p_kstack p)) ;;
  pset i (with_kstack 0) ;;
  on_w (freevm kend (p_pgdir p)) ;;
  pset i (with_pid 0) ;;
  pset i (with_parent NULL) ;;
  pset i (with_name []) ;;
  pset i (with_killed 0) ;;
  pset i (with_state UNUSED).
Definition wait_scan (me : Z) : R (option Z * bool) :=
  r ← for_ret (seqZ 0 NPROC) (fun i =>
    p ← pget i;
    if p_parent p !=? me then mret None
    else if decide (p_state p = ZOMBIE) then reap i p ;; mret (Some (p_pid p))
    else mret None);
  tab ← gets r_proc;
  mret (r, existsb (fun p => p_parent p =? me) tab).

(** One pass of the loop of [wait], entered with [ptable.lock] held. *)
Definition wait_pass : R wres :=
  me ← myproc;
  '(r, havekids) ← wait_scan me;
  match r with
  | Some pid => release Lptable ;; mret (WDone pid)
  | None =>
      p ← pget me;
      if negb havekids || truth (p_killed p) then release Lptable ;; mret (WDone (-1))
      else sleep_enter (Cproc me) (Some Lptable) ;; mret WSleep
  end.
Definition wait : R wres := acquire Lptable ;; wait_pass.
Definition wait_resume : R wres := sleep_leave Lptable ;; wait_pass.

Definition kill (pid : Z) : R Z :=
  acquire Lptable ;;
  r ← each_proc (fun i p =>
    if p_pid p =? pid then
      pset i (with_killed 1) ;;
      p ← pget i;
      when (bool_decide (p_state p = SLEEPING)) (pset i (with_state RUNNABLE)) ;;
      release Lptable ;;
      mret (Some 0)
    else mret None);
  match r with Some v => mret v | None => release Lptable ;; mret (-1) end.
End proc.
