(* ===== verification/RrTrap.v ===== *)
(** * System calls and traps of the page-replacement kernel ([src/page-replacement]:
    [syscall.c], [sysproc.c], the swap calls of [sysfile.c], [trap.c])

    User memory is read through the running page directory; a fault on it inside the kernel, which the
    hardware would send through [trap] again, is left out (an [Undef] outcome).  The
    other handlers of [sysfile.c] and the drivers' are arguments. *)
From S2P Require Import Prelude Layout Memory Locks Kalloc Vm Blocks Fs ProcData Swap RrProc.

Definition SYS_fork : Z := 1.
Definition SYS_exit : Z := 2.
Definition SYS_wait : Z := 3.
Definition SYS_kill : Z := 6.
Definition SYS_getpid : Z := 11.
Definition SYS_sbrk : Z := 12.
Definition SYS_sleep : Z := 13.
Definition SYS_uptime : Z := 14.
Definition SYS_swapread : Z := 22.
Definition SYS_swapwrite : Z := 23.
Definition SYS_swapstat : Z := 24.
Definition NSYSCALLS : Z := 25.

Definition T_SYSCALL : Z := 64.
Definition T_PGFLT : Z := 14.
Definition T_IRQ0 : Z := 32.
Definition IRQ_TIMER : Z := 0.
Definition IRQ_KBD : Z := 1.
Definition IRQ_COM1 : Z := 4.
Definition IRQ_IDE : Z := 14.
Definition IRQ_SPURIOUS : Z := 31.

(** How a handler ends: with a value, or off the CPU. *)
Inductive sres := SRet (v : Z) | SExit | SWait.
Inductive tout := TRet | TExit | TWait | TYield.

Section trap.
Context {F B : Type} `{FilesOver F B} (kend kdata forkret_addr trapret_addr : Z).
Abbreviation R := (M (rst F B)).
Variables (file_calls : Z -> option (R sres)) (ideintr kbdintr uartintr : R unit) (cpuid : Z).

(** ** Arguments *)
Definition user_byte (va : Z) : R Z := a ← on_w (translate va); gets (fun s => rd8 (k_mem (sw_k (r_sw s))) a).
Definition user_word (va : Z) : R Z :=
  b0 ← user_byte va; b1 ← user_byte (u32 (va + 1)); b2 ← user_byte (u32 (va + 2)); b3 ← user_byte (u32 (va + 3));
  mret (b0 + 256 * b1 + 65536 * b2 + 16777216 * b3).

(** [None] is the error return. *)
Definition fetchint (addr : Z) : R (option Z) :=
  p ← curproc;
  if (addr >=? p_sz p) || (u32 (addr + 4) >? p_sz p) then mret None
  else v ← user_word addr; mret (Some (i32 v)).
Definition fetchstr_body (pp ep : Z) (s : Z) : R (Z + option (Z * Z)) :=
  if negb (s <? ep) then mret (inr None)
  else
    c ← user_byte s;
    if c =? 0 then mret (inr (Some (pp, s - pp))) else mret (inl (s + 1)).
Definition fetchstr (addr : Z) : R (option (Z * Z)) :=
  p ← curproc;
  if addr >=? p_sz p then mret None
  else loop (Datatypes.S (Z.to_nat (p_sz p - addr))) (fetchstr_body addr (p_sz p)) addr.
Definition argint (n : Z) : R (option Z) :=
  p ← curproc;
  esp ← on_m (load32 (p_tf p + tf_esp));
  fetchint (u32 (esp + 4 + 4 * n)).
Definition argptr (n size : Z) : R (option Z) :=
  p ← curproc;
  r ← argint n;
  match r with
  | None => mret None
  | Some i =>
      if (size <? 0) || (u32 i >=? p_sz p) || (u32 (u32 i + size) >? p_sz p) then mret None
      else mret (Some (u32 i))
  end.
Definition argstr (n : Z) : R (option (Z * Z)) :=
  r ← argint n;
  match r with None => mret None | Some addr => fetchstr (u32 addr) end.

(** [if(arg(n, &x) < 0) return -1; k(x)]. *)
Definition or_fail (arg : R (option Z)) (k : Z -> R sres) : R sres :=
  r ← arg;
  match r with None => mret (SRet (-1)) | Some x => k x end.
Definition ret (m : R Z) : R sres := v ← m; mret (SRet v).

(** ** [sysproc.c] *)
Definition sys_fork : R sres := ret (fork kend kdata forkret_addr trapret_addr).
Definition sys_exit : R sres := exit ;; mret SExit.
Definition sys_wait : R sres := r ← wait kend; match r with WDone v => mret (SRet v) | WSleep => mret SWait end.
Definition sys_kill : R sres := or_fail (argint 0) (fun pid => ret (kill pid)).
Definition sys_getpid : R sres := p ← curproc; mret (SRet (p_pid p)).
Definition sys_sbrk : R sres :=
  or_fail (argint 0) (fun n =>
    p ← curproc;
    let addr := i32 (p_sz p) in
    r ← growproc kend n;
    mret (SRet (if r <? 0 then -1 else addr))).

(** The loop of [sys_sleep], entered with [tickslock]. *)
Definition sleep_test (n ticks0 : Z) : R sres :=
  ticks ← gets r_ticks;
  if u32 (ticks - ticks0) <? u32 n then
    p ← curproc;
    if truth (p_killed p) then release Lticks ;; mret (SRet (-1))
    else sleep_enter Cticks (Some Lticks) ;; mret SWait
  else release Lticks ;; mret (SRet 0).
Definition sys_sleep : R sres :=
  or_fail (argint 0) (fun n => acquire Lticks ;; ticks0 ← gets r_ticks; sleep_test n ticks0).
Definition sys_sleep_resume (n ticks0 : Z) : R sres := sleep_leave Lticks ;; sleep_test n ticks0.
Definition sys_uptime : R sres := acquire Lticks ;; xticks ← gets r_ticks; release Lticks ;; mret (SRet (i32 xticks)).

(** ** The swap calls of [sysfile.c] *)
Definition sys_swapread : R sres :=
  or_fail (argptr 0 PGSIZE) (fun ptr => or_fail (argint 1) (fun blkno => on_w (swapread ptr blkno) ;; mret (SRet 0))).
Definition sys_swapwrite : R sres :=
  or_fail (argptr 0 PGSIZE) (fun ptr => or_fail (argint 1) (fun blkno => on_w (swapwrite ptr blkno) ;; mret (SRet 0))).
(** An [int] stored at a user address; it does not cross a page where it is aligned. *)
Definition user_store (va v : Z) : R unit := a ← on_w (translate va); on_m (store32 a v).
Definition sys_swapstat : R sres :=
  or_fail (argptr 0 4) (fun nr_read => or_fail (argptr 1 4) (fun nr_write =>
    r ← gets (fun s => sw_nread (r_sw s));
    w ← gets (fun s => sw_nwrite (r_sw s));
    user_store nr_read r ;; user_store nr_write w ;; mret (SRet 0))).

(** ** The dispatch *)
Definition syscalls (num : Z) : option (R sres) :=
  if num =? SYS_fork then Some sys_fork else if num =? SYS_exit then Some sys_exit
  else if num =? SYS_wait then Some sys_wait else if num =? SYS_kill then Some sys_kill
  else if num =? SYS_getpid then Some sys_getpid else if num =? SYS_sbrk then Some sys_sbrk
  else if num =? SYS_sleep then Some sys_sleep else if num =? SYS_uptime then Some sys_uptime
  else if num =? SYS_swapread then Some sys_swapread else if num =? SYS_swapwrite then Some sys_swapwrite
  else if num =? SYS_swapstat then Some sys_swapstat else file_calls num.

Definition set_eax (me v : Z) : R unit := p ← pget me; on_m (store32 (p_tf p + tf_eax) v).
Definition syscall : R sres :=
  me ← myproc;
  p ← pget me;
  eax ← on_m (load32 (p_tf p + tf_eax));
  let num := i32 eax in
  match (if (num >? 0) && (num <? NSYSCALLS) then syscalls num else None) with
  | Some h =>
      r ← h;
      match r with
      | SRet v => set_eax me (u32 v) ;; mret (SRet v)
      | _ => mret r
      end
  | None =>
      cprintf "%d %s: unknown sys call %d\n" [PInt (p_pid p); PStr (p_name p); PInt num] ;;
      set_eax me (u32 (-1)) ;;
      mret (SRet (-1))
  end.

(** ** [trap] *)
Definition tf_field (tf off : Z) : R Z := on_m (load32 (tf + off)).
Definition clock_tick : R unit :=
  when (cpuid =? 0)
    (acquire Lticks ;;
     modify (fun s => set_rticks (u32 (r_ticks s + 1)) s) ;;
     wakeup Cticks ;;
     release Lticks).
Definition spurious (tf : Z) : R unit :=
  cs ← tf_field tf tf_cs;
  eip ← tf_field tf tf_eip;
  cprintf "cpu%d: spurious interrupt at %x:%x\n" [PInt cpuid; PInt (u16 cs); PInt eip].
Definition bad_trap (tf trapno cr2 : Z) : R unit :=
  me ← myproc;
  cs ← tf_field tf tf_cs;
  eip ← tf_field tf tf_eip;
  if (me =? NULL) || ((cs &&& 3) =? 0) then
    cprintf "unexpected trap %d from cpu %d eip %x (cr2=0x%x)\n" [PInt trapno; PInt cpuid; PInt eip; PInt cr2] ;;
    panic "trap"
  else
    p ← pget me;
    err ← tf_field tf tf_err;
    cprintf "pid %d %s: trap %d err %d on cpu %d eip 0x%x addr 0x%x--kill proc\n"
      [PInt (p_pid p); PStr (p_name p); PInt trapno; PInt err; PInt cpuid; PInt eip; PInt cr2] ;;
    pset me (with_killed 1).

(** [if(page_fault_hadler(...)) break;], falling through to the default case. *)
Definition page_fault (tf trapno cr2 : Z) : R unit :=
  p ← curproc;
  r ← on_w (page_fault_hadler kend (p_pgdir p) cr2);
  if truth r then mret tt else bad_trap tf trapno cr2.
Definition trap_switch (tf trapno cr2 : Z) : R unit :=
  if trapno =? T_IRQ0 + IRQ_TIMER then clock_tick
  else if trapno =? T_IRQ0 + IRQ_IDE then ideintr
  else if trapno =? T_IRQ0 + IRQ_IDE + 1 then mret tt
  else if trapno =? T_IRQ0 + IRQ_KBD then kbdintr
  else if trapno =? T_IRQ0 + IRQ_COM1 then uartintr
  else if (trapno =? T_IRQ0 + 7) || (trapno =? T_IRQ0 + IRQ_SPURIOUS) then spurious tf
  else if trapno =? T_PGFLT then page_fault tf trapno cr2
  else bad_trap tf trapno cr2.

(** [if(myproc() && myproc()->killed && (tf->cs & 3) == DPL_USER) exit();] *)
Definition killed_in_user (tf : Z) : R bool :=
  me ← myproc;
  if me =? NULL then mret false
  else
    p ← pget me;
    cs ← tf_field tf tf_cs;
    mret (truth (p_killed p) && ((cs &&& 3) =? DPL_USER)).
Definition trap_end (tf : Z) : R tout :=
  k ← killed_in_user tf;
  if (k : bool) then exit ;; mret TExit else mret TRet.
Definition trap_resume (tf : Z) : R tout := yield_leave ;; trap_end tf.

Definition trap (tf cr2 : Z) : R tout :=
  trapno ← tf_field tf tf_trapno;
  if trapno =? T_SYSCALL then
    me ← myproc;
    p ← pget me;
    if truth (p_killed p) then exit ;; mret TExit
    else
      pset me (fun p => with_frames tf (p_context p) p) ;;
      r ← syscall;
      match r with
      | SExit => mret TExit
      | SWait => mret TWait
      | SRet _ =>
          p ← pget me;
          if truth (p_killed p) then exit ;; mret TExit else mret TRet
      end
  else
    trap_switch tf trapno cr2 ;;
    k ← killed_in_user tf;
    if (k : bool) then exit ;; mret TExit
    else
      me ← myproc;
      timer ← (if (me =? NULL) || (trapno !=? T_IRQ0 + IRQ_TIMER) then mret false
               else p ← pget me; mret (bool_decide (p_state p = RUNNING)));
      if (timer : bool) then yield_enter ;; mret TYield else trap_end tf.
End trap.
