(* ===== verification/RrTheorems.v ===== *)
(** * The round-robin scheduler is fair ([src/page-replacement/proc.c], theorems)

    The scheduler and the processes it runs as a transition system: a turn is a scan up to a
    runnable process and the run of that process until it gives up the CPU, or the end
    of a pass over the table.  The operations of [RrProc.v] keep every entry that can be
    run fit to be dispatched and never take another process out of the run queue. *)
From S2P Require Import Prelude Layout Memory Locks Kalloc Vm Blocks Fs ProcData Swap RrProc.

(** ** Tables *)
Definition on_queue (p : proc) : Prop := p_state p = RUNNABLE \/ p_state p = RUNNING \/ p_state p = SLEEPING.
(** An entry that may be dispatched, now or later, has what [switchuvm] needs. *)
Definition fit (p : proc) : Prop := on_queue p -> p_kstack p <> 0 /\ p_pgdir p <> 0.
Definition tab_ok (tab : list proc) : Prop := length tab = Z.to_nat NPROC /\ Forall fit tab.
Definition slot (tab : list proc) (i : Z) : proc := tab !!! Z.to_nat i.
Definition in_table (i : Z) : Prop := 0 <= i < NPROC.

Lemma in_table_null i : in_table i -> (i =? NULL) = false.
Proof. unfold in_table, NULL. intros Hi. apply Z.eqb_neq. lia. Qed.
Lemma slot_fit tab i : tab_ok tab -> in_table i -> fit (slot tab i).
Proof.
  intros [Hl Hf] Hi. unfold in_table in Hi. rewrite Forall_lookup in Hf. apply (Hf (Z.to_nat i)). apply list_lookup_lookup_total_lt. lia.
Qed.
Lemma slot_alter f tab i : tab_ok tab -> in_table i -> slot (alter f (Z.to_nat i) tab) i = f (slot tab i).
Proof. intros [Hl _] Hi. unfold in_table in Hi. unfold slot. rewrite list_lookup_total_alter. by rewrite decide_True by (split; [done|lia]). Qed.
Lemma slot_alter_ne f tab i j : in_table i -> in_table j -> i <> j -> slot (alter f (Z.to_nat i) tab) j = slot tab j.
Proof. unfold in_table. intros Hi Hj Hij. unfold slot. rewrite list_lookup_total_alter. by rewrite decide_False by lia. Qed.
Lemma tab_ok_alter f tab i : tab_ok tab -> in_table i -> fit (f (slot tab i)) -> tab_ok (alter f (Z.to_nat i) tab).
Proof.
  intros [Hl Hf] Hi Hx. unfold in_table in Hi. split; [by rewrite length_alter|]. apply Forall_lookup. intros k p Hk.
  destruct (decide (k = Z.to_nat i)) as [->|Hne].
  - rewrite list_lookup_alter_eq in Hk. apply fmap_Some in Hk as (q & Hq & ->). unfold slot in Hx. by rewrite (list_lookup_total_correct _ _ _ Hq) in Hx.
  - rewrite list_lookup_alter_ne in Hk by done. rewrite Forall_lookup in Hf. by eapply Hf.
Qed.
Lemma slot_fmap f tab i : tab_ok tab -> in_table i -> slot (f <$> tab) i = f (slot tab i).
Proof.
  intros [Hl _] Hi. unfold in_table in Hi. unfold slot. apply list_lookup_total_correct. rewrite list_lookup_fmap.
  by rewrite (list_lookup_lookup_total_lt tab (Z.to_nat i)) by lia.
Qed.

(** ** What the code does to the table *)
(** A property of the table and of the process that is running. *)
Section table.
Context {F B : Type} `{FilesOver F B} (kend kdata forkret_addr trapret_addr kpgdir : Z).
Implicit Types (s : rst F B) (T : Z -> list proc -> Prop).
Definition at_tab T s : Prop := T (r_cur s) (r_proc s).
Definition keeps T {A} (m : M (rst F B) A) : Prop := preserves (at_tab T) m.

Lemma keeps_on_w T {A} (m : M (swst B) A) : keeps T (on_w m).
Proof. intros s Hs. unfold on_w, zoom, wlp. by destruct (m _). Qed.
Lemma keeps_on_m T {A} (m : M kst A) : keeps T (on_m m).
Proof. apply keeps_on_w. Qed.
Lemma keeps_on_f T {A} (m : M F A) : keeps T (on_f m).
Proof. intros s Hs. unfold on_f, zoom, wlp. by destruct (m _). Qed.
Lemma keeps_acquire T l : keeps T (acquire l).
Proof. intros s Hs. unfold acquire, wlp. by destruct (decide _). Qed.
Lemma keeps_release T l : keeps T (release l).
Proof. intros s Hs. unfold release, wlp. by destruct (decide _). Qed.
Lemma keeps_pget T i : keeps T (pget i).
Proof. unfold pget. case_match; [apply pres_undef|apply pres_gets]. Qed.
Lemma keeps_set_pid T n : keeps T (modify (set_rpid n)).
Proof. by intros s Hs. Qed.
Lemma keeps_set_first T b : keeps T (modify (set_rfirst b)).
Proof. by intros s Hs. Qed.
Lemma keeps_pset T i f : (forall c tab, T c tab -> T c (alter f (Z.to_nat i) tab)) -> keeps T (pset i f).
Proof. intros Hf. unfold pset. case_match; [apply pres_undef|]. intros s Hs. by apply Hf. Qed.
Lemma keeps_bind T {A C} (m : M (rst F B) A) (k : A -> M (rst F B) C) : keeps T m -> (forall a, keeps T (k a)) -> keeps T (m ≫= k).
Proof. apply pres_bind. Qed.
Lemma keeps_if T {A} (b : bool) (m m' : M (rst F B) A) : keeps T m -> keeps T m' -> keeps T (if b then m else m').
Proof. by destruct b. Qed.
Lemma keeps_decide T {A} P `{Decision P} (m m' : M (rst F B) A) : keeps T m -> keeps T m' -> keeps T (if decide P then m else m').
Proof. by destruct (decide P). Qed.
Lemma keeps_when T c m : keeps T m -> keeps T (when c m).
Proof. apply pres_when. Qed.
Lemma keeps_for_each T {A} (l : list A) body : (forall x, keeps T (body x)) -> keeps T (for_each l body).
Proof. apply pres_for_each. Qed.
Lemma keeps_for_ret T {A C} (l : list A) (body : A -> M (rst F B) (option C)) : (forall x, keeps T (body x)) -> keeps T (for_ret l body).
Proof. apply pres_for_ret. Qed.
Lemma keeps_ret T {A} (a : A) : keeps T (mret a).
Proof. apply pres_ret. Qed.
Lemma keeps_gets T {A} (f : rst F B -> A) : keeps T (gets f).
Proof. apply pres_gets. Qed.
Lemma keeps_panic T {A} msg : keeps T (panic (A := A) msg).
Proof. apply pres_panic. Qed.
End table.

Create HintDb keeps.
#[export] Hint Resolve keeps_on_w keeps_on_m keeps_on_f keeps_acquire keeps_release keeps_pget keeps_set_pid keeps_set_first
  keeps_ret keeps_gets keeps_panic : keeps.
(** Goes through a program; what is left is the updates of the table. *)
Ltac keeps_step :=
  match goal with
  | |- keeps _ (let '(_, _) := ?x in _) => destruct x
  | |- keeps _ (match ?x with _ => _ end) => destruct x
  | |- keeps _ (_ ≫= _) => apply keeps_bind; [|intros ?]
  | |- keeps _ (when _ _) => apply keeps_when
  | |- keeps _ (for_each _ _) => apply keeps_for_each; intros ?
  | |- keeps _ (for_ret _ _) => apply keeps_for_ret; intros ?
  | |- keeps _ myproc => apply keeps_gets
  | |- keeps _ _ => solve [auto with keeps]
  end.
Ltac keeps := repeat (cbn zeta; keeps_step).

(** ** A process in the run queue, while another runs *)
Section waiting.
Context {F B : Type} `{FilesOver F B} (kend kdata forkret_addr trapret_addr kpgdir : Z).
Implicit Types (s : rst F B).
(** [j] is in the run queue and [c], which satisfies [P], has the CPU. *)
Definition waits (j c : Z) (P : proc -> Prop) (cur : Z) (tab : list proc) : Prop :=
  cur = c /\ tab_ok tab /\ in_table c /\ in_table j /\ p_state (slot tab j) = RUNNABLE /\ P (slot tab c).
Definition running (p : proc) : Prop := p_state p = RUNNING.
Definition anyhow (p : proc) : Prop := True.
(** As [waits], with entry [i] in a state off the queue. *)
Definition off (j c i : Z) (st : procstate) (Q : proc -> Prop) (cur : Z) (tab : list proc) : Prop :=
  waits j c running cur tab /\ in_table i /\ p_state (slot tab i) = st /\ Q (slot tab i).
(** Updates that leave alone what a dispatch looks at. *)
Definition mild (f : proc -> proc) : Prop := forall p, p_state (f p) = p_state p /\ p_kstack (f p) = p_kstack p /\ p_pgdir (f p) = p_pgdir p.

Lemma waits_alter j c P i f cur tab : waits j c P cur tab -> in_table i ->
  (i = j -> p_state (f (slot tab j)) = RUNNABLE) -> (i = c -> P (f (slot tab c))) -> fit (f (slot tab i)) -> waits j c P cur (alter f (Z.to_nat i) tab).
Proof.
  intros (Hc & Hok & Hc' & Hj & Hr & HP) Hi Hfj Hfc Hfit. split_and!; [done|by apply tab_ok_alter|done|done| |].
  - destruct (decide (i = j)) as [->|Hne]; [rewrite slot_alter by done; auto|by rewrite slot_alter_ne].
  - destruct (decide (i = c)) as [->|Hne]; [rewrite slot_alter by done; auto|by rewrite slot_alter_ne].
Qed.
Lemma mild_fit f p : mild f -> fit p -> fit (f p).
Proof. intros Hm Hp. destruct (Hm p) as (Hs & Hk & Hd). unfold fit, on_queue. rewrite Hs, Hk, Hd. exact Hp. Qed.
Lemma keeps_mild j c P i f : mild f -> (forall p, P p -> P (f p)) -> in_table i -> keeps (F := F) (B := B) (waits j c P) (pset i f).
Proof.
  intros Hm HP Hi. apply keeps_pset. intros cur tab Hw. pose proof Hw as (Hc & Hok & Hc' & Hj & Hr & Hp). apply waits_alter; [done|done| | |].
  - intros _. by rewrite (proj1 (Hm _)).
  - intros _. by apply HP.
  - apply mild_fit; [done|by apply slot_fit].
Qed.
Lemma mild_running f : mild f -> forall p, running p -> running (f p).
Proof. intros Hm p Hp. unfold running. by rewrite (proj1 (Hm p)). Qed.

(** An entry off the queue may be changed at will while it stays off. *)
Lemma off_alter j c i st Q f st' Q' cur tab : off j c i st Q cur tab ->
  st <> RUNNABLE -> st <> RUNNING -> (forall p, p_state p = st -> Q p -> p_state (f p) = st' /\ Q' (f p) /\ fit (f p)) ->
  off j c i st' Q' cur (alter f (Z.to_nat i) tab).
Proof.
  intros (Hw & Hi & Hst & HQ) H1 H2 Hf. destruct (Hf _ Hst HQ) as (Hs & HQ' & Hfit).
  pose proof Hw as (_ & Hok & _ & _ & Hj & Hc). unfold running in Hc.
  split_and!; [|done|by rewrite slot_alter|by rewrite slot_alter].
  apply waits_alter; [done|done| | |done]; intros ->; congruence.
Qed.

(** ** Wakeups *)
Lemma wake_fit chan p : fit p -> fit (wake_proc chan p).
Proof. unfold wake_proc. split_decide as [[Hs _]|_]; [|done]. intros Hp _. apply Hp. unfold on_queue. auto. Qed.
Lemma wake_not_sleeping chan p : p_state p <> SLEEPING -> wake_proc chan p = p.
Proof. intros Hp. unfold wake_proc. by rewrite decide_False by naive_solver. Qed.
Lemma tab_ok_wake chan tab : tab_ok tab -> tab_ok (wake_proc chan <$> tab).
Proof. intros [Hl Hf]. split; [by rewrite length_fmap|]. apply Forall_fmap. eapply Forall_impl; [exact Hf|]. intros p. apply wake_fit. Qed.
Lemma keeps_wakeup1 j c (P : proc -> Prop) chan : (forall p, P p -> P (wake_proc chan p)) -> keeps (F := F) (B := B) (waits j c P) (wakeup1 chan).
Proof.
  intros HP s (Hc & Hok & Hc' & Hj & Hr & Hp). split_and!; [done|by apply tab_ok_wake|done|done| |]; cbn.
  - rewrite slot_fmap by done. by rewrite wake_not_sleeping by congruence.
  - rewrite slot_fmap by done. by apply HP.
Qed.
Lemma running_wake chan p : running p -> running (wake_proc chan p).
Proof. unfold running. intros Hp. by rewrite wake_not_sleeping by congruence. Qed.
End waiting.
#[export] Hint Resolve keeps_wakeup1 running_wake mild_running keeps_mild : keeps.
Ltac mild := by intros [].

(** ** The operations *)
Section operations.
Context {F B : Type} `{FilesOver F B} (kend kdata forkret_addr trapret_addr kpgdir : Z).
Implicit Types (s : rst F B).
Context (j c : Z).
Abbreviation others P := (at_tab (F := F) (B := B) (waits j c P)).

Lemma wlp_keeps {A} T (m : M (rst F B) A) (Q : A -> rst F B -> Prop) s : keeps T m -> at_tab T s -> (forall a s', at_tab T s' -> Q a s') -> wlp m Q s.
Proof. intros Hm Hs HQ. eapply wlp_mono; [by apply Hm|]. auto. Qed.
Lemma others_cur P s : others P s -> r_cur s = c /\ in_table c.
Proof. intros (Hc & _ & Hi & _). done. Qed.
(** A scan of the table sees its entries only. *)
Lemma keeps_scan {A} T (body : Z -> M (rst F B) (option A)) : (forall i, in_table i -> keeps T (body i)) -> keeps T (for_ret (seqZ 0 NPROC) body).
Proof.
  intros Hb s Hs. apply (wlp_for_ret _ _ (fun _ => at_tab T)); [done| |done].
  intros k i s' Hk Hs'. apply lookup_seqZ in Hk. eapply wlp_mono; [apply (Hb i); [unfold in_table; lia|done]|]. by intros [v|].
Qed.
Lemma keeps_scan_each T (body : Z -> M (rst F B) unit) : (forall i, in_table i -> keeps T (body i)) -> keeps T (for_each (seqZ 0 NPROC) body).
Proof.
  intros Hb s Hs. eapply wlp_mono; [apply (wlp_for_each _ _ (fun _ => at_tab T)); [done|]|done].
  intros k i s' Hk Hs'. apply lookup_seqZ in Hk. apply (Hb i); [unfold in_table; lia|done].
Qed.

Lemma keeps_sched T : keeps (F := F) (B := B) T sched.
Proof. unfold sched, holding. keeps. Qed.
Lemma keeps_switchuvm T i : keeps (F := F) (B := B) T (switchuvm i).
Proof. unfold switchuvm. keeps. Qed.
Lemma keeps_tf_store T i off v : keeps (F := F) (B := B) T (tf_store i off v).
Proof. unfold tf_store. keeps. Qed.
Hint Resolve keeps_sched keeps_switchuvm keeps_tf_store : keeps.

Lemma wakeup_keeps chan : keeps (F := F) (B := B) (waits j c running) (wakeup chan).
Proof. unfold wakeup. keeps. Qed.

Lemma kill_keeps pid : keeps (F := F) (B := B) (waits j c running) (kill pid).
Proof.
  unfold kill, each_proc. apply keeps_bind; [apply keeps_acquire|intros _]. apply keeps_bind; [|intros r; keeps].
  apply keeps_scan. intros i Hi. apply keeps_bind; [apply keeps_pget|intros p]. case_match; [|apply keeps_ret].
  apply keeps_bind; [apply keeps_mild; [mild|apply mild_running; mild|done]|intros _].
  intros s Hs. apply wlp_bind. unfold pget. rewrite in_table_null by done. apply wlp_gets. cbn beta. apply wlp_bind. apply wlp_when; cbn beta.
  - intros Hsl. apply bool_decide_eq_true in Hsl. unfold pset. rewrite in_table_null by done. apply wlp_modify.
    eapply wlp_keeps; [keeps| |done]. pose proof Hs as (_ & Hok & _ & _ & Hj & Hc). unfold running in Hc. change (proc_at s i) with (slot (r_proc s) i) in Hsl.
    apply (waits_alter j c running i); [exact Hs|done|by intros ->| |].
    + intros ->. congruence.
    + intros _. apply (slot_fit _ i Hok Hi). unfold on_queue. auto.
  - intros _. eapply wlp_keeps; [keeps|exact Hs|done].
Qed.

(** The running process is [c]. *)
Lemma keeps_me {A} P (k : Z -> M (rst F B) A) : (in_table c -> keeps (waits j c P) (k c)) -> keeps (waits j c P) (myproc ≫= k).
Proof. intros Hk s Hs. destruct (others_cur _ _ Hs) as [Ecur Hc]. apply wlp_bind, wlp_gets. cbn beta. rewrite Ecur. by apply Hk. Qed.

Lemma growproc_keeps n : keeps (F := F) (B := B) (waits j c running) (growproc kend n).
Proof. unfold growproc. apply keeps_me. intros Hc. keeps. apply keeps_mild; [mild|apply mild_running; mild|done]. Qed.

(** What a process does to its own entry: open files, directory, name, trap frame; and the
    new image of [exec], which has a page directory. *)
Lemma own_keeps f : mild f -> keeps (F := F) (B := B) (waits j c running) (i ← myproc; pset i f).
Proof. intros Hf. apply keeps_me. intros Hc. apply keeps_mild; [done|by apply mild_running|done]. Qed.
Lemma image_keeps sz d : d <> 0 -> keeps (F := F) (B := B) (waits j c running) (i ← myproc; pset i (with_mem sz d)).
Proof.
  intros Hd. apply keeps_me. intros Hc. apply keeps_pset. intros cur tab Hw. pose proof Hw as (_ & Hok & _ & Hj & Hr & Hrun).
  apply waits_alter; [done|done| |by intros _|]; [by intros ->|].
  intros Hq. cbn. split; [|done]. by apply (slot_fit tab c Hok Hc).
Qed.

(** *** [fork] *)
(** A slot being set up: [k] its kernel stack, [d] its page directory. *)
Definition stack_is (k : Z) (p : proc) : Prop := p_kstack p = k.
Definition dir_is (k d : Z) (p : proc) : Prop := p_kstack p = k /\ p_pgdir p = d.

Lemma off_fit st f (p : proc) : st <> RUNNABLE -> st <> RUNNING -> st <> SLEEPING -> p_state (f p) = st -> fit (f p).
Proof. intros H1 H2 H3 Hs [Hq|[Hq|Hq]]; congruence. Qed.

Lemma off_pset i st st' (Q Q' : proc -> Prop) f (R : unit -> rst F B -> Prop) s :
  st <> RUNNABLE -> st <> RUNNING -> st' <> RUNNABLE -> st' <> RUNNING -> st' <> SLEEPING ->
  at_tab (off j c i st Q) s -> (forall p, p_state p = st -> Q p -> p_state (f p) = st' /\ Q' (f p)) ->
  (forall s', at_tab (off j c i st' Q') s' -> R tt s') -> wlp (pset i f) R s.
Proof.
  intros H1 H2 H3 H4 H5 Hs Hf HR. unfold pset. pose proof Hs as (_ & Hi & _). rewrite in_table_null by done. apply wlp_modify, HR.
  eapply off_alter; [exact Hs|done|done|]. intros p Hp HQ. destruct (Hf p Hp HQ) as [E HQ']. split_and!; [done|done|]. by eapply (off_fit st').
Qed.
Lemma off_keeps_pset i st (Q : proc -> Prop) f : st <> RUNNABLE -> st <> RUNNING -> st <> SLEEPING ->
  (forall p, p_state (f p) = p_state p) -> (forall p, Q p -> Q (f p)) -> keeps (F := F) (B := B) (off j c i st Q) (pset i f).
Proof. intros H1 H2 H3 Hst HQ s Hs. eapply off_pset; [exact H1|exact H2|exact H1|exact H2|exact H3|exact Hs| |done]. intros p Hp. rewrite Hst. auto. Qed.

Lemma off_others i st Q s : at_tab (off j c i st Q) s -> others running s.
Proof. by intros [Hw _]. Qed.
Ltac through lem := apply wlp_bind; eapply wlp_keeps; [|eassumption|cbn beta]; [lem|].

(** The slot [allocproc] gives: embryonic, with a kernel stack. *)
Lemma allocproc_slot s : others running s ->
  wlp (allocproc kend forkret_addr trapret_addr) (fun i s' => (i = NULL /\ others running s') \/
    exists k, k <> 0 /\ at_tab (off j c i EMBRYO (stack_is k)) s') s.
Proof.
  intros Hs. unfold allocproc, each_proc. through ltac:(apply keeps_acquire). intros _ s1 H1.
  apply wlp_bind. eapply wlp_mono; [apply (wlp_for_ret _ _ (fun _ => others running)
    (fun r s' => match r with None => others running s' | Some i => at_tab (off j c i UNUSED anyhow) s' end)); [exact H1| |done]|cbn beta].
  - intros n i s2 Hn H2. apply lookup_seqZ in Hn. assert (Hi : in_table i) by (unfold in_table; lia).
    apply wlp_bind. unfold pget. rewrite in_table_null by done. apply wlp_gets. cbn beta. split_decide as [Hu|_]; apply wlp_ret; [|done].
    split_and!; [exact H2|done|done|done].
  - intros [i|] s2 H3.
    + apply wlp_bind. eapply (off_pset i UNUSED EMBRYO anyhow anyhow); [done..|exact H3|done|]. clear H3. intros s3 H3.
    apply wlp_bind, wlp_gets. cbn beta.
    through ltac:(apply off_keeps_pset; done). intros _ s4 H4. through ltac:(apply keeps_set_pid). intros _ s5 H5. through ltac:(apply keeps_release). intros _ s6 H6.
    through ltac:(apply keeps_on_w). intros k s7 H7. apply wlp_bind. eapply (off_pset i EMBRYO EMBRYO anyhow (stack_is k)); [done..|exact H7|done|]. intros s8 H8.
    destruct (k =? 0) eqn:Ek.
    * apply wlp_bind. eapply (off_pset i EMBRYO UNUSED _ anyhow); [done..|exact H8|done|]. intros s9 H9. apply wlp_ret. left. split; [done|]. by eapply off_others.
    * apply Z.eqb_neq in Ek. cbv zeta. through ltac:(apply keeps_on_m). intros _ s9 H9. through ltac:(apply off_keeps_pset; done). intros _ s10 H10.
      through ltac:(apply keeps_on_m). intros _ s11 H11. through ltac:(apply keeps_on_m). intros _ s12 H12. apply wlp_ret. right. by exists k.
    + through ltac:(apply keeps_release). intros _ s3 H4. apply wlp_ret. by left.
Qed.

Lemma off_mild i st Q f : st <> RUNNABLE -> st <> RUNNING -> st <> SLEEPING -> mild f -> (forall p, Q p -> Q (f p)) -> keeps (F := F) (B := B) (off j c i st Q) (pset i f).
Proof. intros H1 H2 H3 Hm HQ. apply off_keeps_pset; [done..| |done]. intros p. apply Hm. Qed.
Lemma mild_dir k d f : mild f -> forall p, dir_is k d p -> dir_is k d (f p).
Proof. intros Hm p [Hk Hd]. destruct (Hm p) as (_ & Ek & Ed). split; congruence. Qed.

Lemma fork_keeps : keeps (F := F) (B := B) (waits j c running) (fork kend kdata forkret_addr trapret_addr).
Proof.
  unfold fork. apply keeps_me. intros Hc s Hs. apply wlp_bind. eapply wlp_mono; [by apply allocproc_slot|cbn beta].
  intros np s1 [[-> H1]|(k & Hk & H1)]; [exact H1|]. pose proof H1 as (_ & Hnp & _). rewrite in_table_null by done.
  through ltac:(apply keeps_pget). intros p s2 H2. through ltac:(apply keeps_on_w). intros d s3 H3.
  apply wlp_bind. eapply (off_pset np EMBRYO EMBRYO _ (dir_is k d)); [done..|exact H3| |]; [intros q Eq Hq; by split_and!|]. intros s4 H4.
  destruct (d =? 0) eqn:Ed.
  - through ltac:(apply keeps_pget). intros q s5 H5. through ltac:(apply keeps_on_w). intros _ s6 H6.
    apply wlp_bind. eapply (off_pset np EMBRYO EMBRYO _ anyhow); [done..|exact H6|done|]. intros s7 H7.
    apply wlp_bind. eapply (off_pset np EMBRYO UNUSED _ anyhow); [done..|exact H7|done|]. intros s8 H8. apply wlp_ret. by eapply off_others.
  - apply Z.eqb_neq in Ed.
    through ltac:(apply (off_keeps_pset np EMBRYO (dir_is k d)); [done..|]; intros q [Hq _]; by split). intros _ s5 H5.
    through ltac:(apply off_mild; [done..|mild|apply mild_dir; mild]). intros _ s6 H6. through ltac:(apply keeps_pget). intros q s7 H7.
    through ltac:(apply keeps_on_m). intros _ s8 H8. through ltac:(apply keeps_tf_store). intros _ s9 H9.
    through ltac:(keeps; apply off_mild; [done..|mild|apply mild_dir; mild]). intros _ s10 H10.
    through ltac:(apply keeps_on_f). intros cwd s11 H11. through ltac:(apply off_mild; [done..|mild|apply mild_dir; mild]). intros _ s12 H12.
    through ltac:(apply off_mild; [done..|mild|apply mild_dir; mild]). intros _ s13 H13. through ltac:(apply keeps_pget). intros q' s14 H14.
    through ltac:(apply keeps_acquire). intros _ s15 H15. apply wlp_bind. unfold pset. rewrite in_table_null by done. apply wlp_modify.
    assert (H16 : others running (upd_proc np (with_state RUNNABLE) s15)).
    { destruct H15 as (Hw & _ & Hst & [Ek Ed']). pose proof Hw as (_ & _ & _ & _ & Hj & Hrun). unfold running in Hrun.
      apply (waits_alter j c running np); [exact Hw|done|by intros ->|intros ->; congruence|]. intros _. cbn. by rewrite Ek, Ed'. }
    through ltac:(apply keeps_release). intros _ s17 H17. by apply wlp_ret.
Qed.

(** *** Reaping a child, and [wait] *)
Lemma reap_keeps i p s : at_tab (off j c i ZOMBIE anyhow) s -> wlp (reap kend i p) (fun _ s' => others running s') s.
Proof.
  intros Hs. unfold reap. through ltac:(apply keeps_on_w). intros _ s1 H1. through ltac:(apply off_keeps_pset; done). intros _ s2 H2.
  through ltac:(apply keeps_on_w). intros _ s3 H3. do 4 (through ltac:(apply off_keeps_pset; done); intros _ ? ?).
  eapply (off_pset i ZOMBIE UNUSED _ anyhow); [done..|eassumption|done|]. intros s8 H8. by eapply off_others.
Qed.

Lemma wait_scan_keeps me : keeps (F := F) (B := B) (waits j c running) (wait_scan kend me).
Proof.
  unfold wait_scan. apply keeps_bind; [|intros r; keeps]. apply keeps_scan. intros i Hi s Hs. apply wlp_bind. unfold pget. rewrite in_table_null by done.
  apply wlp_gets. cbn beta. case_match; [by apply wlp_ret|]. split_decide as [Hz|_]; [|by apply wlp_ret].
  apply wlp_bind. eapply wlp_mono; [apply reap_keeps; by split_and!|]. intros [] s' Hs'. by apply wlp_ret.
Qed.

(** ** Giving up the CPU *)
Lemma keeps_anyhow f i : mild f -> in_table i -> keeps (F := F) (B := B) (waits j c anyhow) (pset i f).
Proof. intros Hf Hi. by apply keeps_mild. Qed.
(** The process that runs leaves the CPU in any state: it was dispatched, so it is fit. *)
Lemma leave_pset st s (Q : unit -> rst F B -> Prop) : others running s -> (forall s', others anyhow s' -> Q tt s') -> wlp (pset c (with_state st)) Q s.
Proof.
  intros Hs HQ. pose proof Hs as (Hcur & Hok & Hc & Hj & Hr & Hrun). unfold running in Hrun. unfold pset. rewrite in_table_null by done. apply wlp_modify, HQ.
  apply (waits_alter j c anyhow c); [by split_and!|done|intros ->; congruence|done|].
  intros _. apply (slot_fit _ c Hok Hc). unfold on_queue. auto.
Qed.

Lemma yield_leaves s : others running s -> wlp yield_enter (fun _ s' => others anyhow s') s.
Proof.
  intros Hs. unfold yield_enter. through ltac:(apply keeps_acquire). intros _ s1 H1. destruct (others_cur _ _ H1) as [E _].
  apply wlp_bind, wlp_gets. cbn beta. rewrite E. apply wlp_bind. apply leave_pset; [done|]. intros s2 H2. by apply keeps_sched.
Qed.
Lemma sleep_leaves chan lk s : others running s -> wlp (sleep_enter chan lk) (fun _ s' => others anyhow s') s.
Proof.
  intros Hs. unfold sleep_enter. destruct (others_cur _ _ Hs) as [E Hc]. apply wlp_bind, wlp_gets. cbn beta. rewrite E, in_table_null by done.
  destruct lk as [lk|]; [|done]. through ltac:(keeps). intros _ s1 H1. through ltac:(apply keeps_mild; [mild|apply mild_running; mild|done]). intros _ s2 H2.
  apply wlp_bind. apply leave_pset; [done|]. intros s3 H3. by apply keeps_sched.
Qed.
Lemma wait_pass_outcome s : others running s -> wlp (wait_pass kend) (fun r s' => match r with WDone _ => others running s' | WSleep => others anyhow s' end) s.
Proof.
  intros Hs. unfold wait_pass. destruct (others_cur _ _ Hs) as [E Hc]. apply wlp_bind, wlp_gets. cbn beta. rewrite E.
  through ltac:(apply wait_scan_keeps). intros [[pid|] kids] s1 H1.
  - through ltac:(apply keeps_release). intros _ s2 H2. by apply wlp_ret.
  - through ltac:(apply keeps_pget). intros p s2 H2. destruct (negb kids || truth (p_killed p)).
    + through ltac:(apply keeps_release). intros _ s3 H3. by apply wlp_ret.
    + apply wlp_bind. eapply wlp_mono; [by apply sleep_leaves|]. intros [] s3 H3. by apply wlp_ret.
Qed.
Lemma wait_outcome s : others running s -> wlp (wait kend) (fun r s' => match r with WDone _ => others running s' | WSleep => others anyhow s' end) s.
Proof. intros Hs. unfold wait. through ltac:(apply keeps_acquire). intros _ s1 H1. by apply wait_pass_outcome. Qed.

Lemma exit_leaves s : others running s -> wlp exit (fun _ s' => others anyhow s') s.
Proof.
  intros Hs. unfold exit. destruct (others_cur _ _ Hs) as [E Hc]. apply wlp_bind, wlp_gets. cbn beta. rewrite E. apply wlp_bind, wlp_gets. cbn beta.
  destruct (c =? _); [done|]. through ltac:(keeps; apply keeps_mild; [mild|apply mild_running; mild|done]). intros _ s1 H1.
  through ltac:(apply keeps_on_f). intros _ s2 H2. through ltac:(apply keeps_pget). intros p s3 H3. through ltac:(apply keeps_on_f). intros _ s4 H4.
  through ltac:(apply keeps_on_f). intros _ s5 H5. through ltac:(apply keeps_mild; [mild|apply mild_running; mild|done]). intros _ s6 H6.
  through ltac:(apply keeps_acquire). intros _ s7 H7. unfold exit_locked. through ltac:(apply keeps_pget). intros q s8 H8.
  through ltac:(apply keeps_wakeup1; apply running_wake). intros _ s9 H9.
  through ltac:(apply keeps_scan_each; intros i Hi; unfold reparent; keeps; apply keeps_mild; [mild|apply mild_running; mild|done]). intros _ s10 H10.
  apply wlp_bind. apply leave_pset; [done|]. intros s11 H11. by apply keeps_sched.
Qed.

(** What runs when a process gets the CPU back. *)
Lemma sleep_leave_keeps lk : keeps (F := F) (B := B) (waits j c running) (sleep_leave lk).
Proof. unfold sleep_leave. apply keeps_me. intros Hc. keeps. apply keeps_mild; [mild|apply mild_running; mild|done]. Qed.
Lemma forkret_keeps : keeps (F := F) (B := B) (waits j c running) forkret.
Proof. unfold forkret. keeps. Qed.
End operations.
