(* ===== verification/RrFair.v ===== *)
(** * Fairness of the round-robin scheduler ([src/page-replacement/proc.c], [scheduler])

    One processor: the scheduler scans the table from an entry on, a process it
    finds runs - any of the operations of [RrProc.v], its own code, interrupts - until it yields,
    sleeps or exits, and the scan goes on after it; at the end of the table the lock
    is released, interrupts come in, and the next pass begins. *)
From Stdlib Require Import Sorting.Sorted.
From S2P Require Import Prelude Layout Memory Locks Kalloc Vm Blocks BlockMem SwapDisk Log Fs File ProcData Swap RrProc RrTheorems.

Section scheduler.
Context {F B : Type} `{FilesOver F B} (kend kdata forkret_addr trapret_addr kpgdir : Z).
Implicit Types (s : rst F B).

(** ** The transition system *)
(** One operation of the process that runs, after which it still runs; code that leaves the process table alone
    is one too. *)
Inductive op : rst F B -> rst F B -> Prop :=
| op_fork s r s' : fork kend kdata forkret_addr trapret_addr s = Done r s' -> op s s'
| op_wait s r s' : wait kend s = Done (WDone r) s' -> op s s'
| op_wait_again s r s' : wait_pass kend s = Done (WDone r) s' -> op s s'
| op_kill s pid r s' : kill pid s = Done r s' -> op s s'
| op_growproc s n r s' : growproc kend n s = Done r s' -> op s s'
| op_own s f s' : mild f -> (i ← myproc; pset i f) s = Done tt s' -> op s s'
| op_image s sz d s' : d <> 0 -> (i ← myproc; pset i (with_mem sz d)) s = Done tt s' -> op s s'
| op_wakeup s chan s' : wakeup chan s = Done tt s' -> op s s'
| op_forkret s s' : forkret s = Done tt s' -> op s s'
| op_resumed s s' : yield_leave s = Done tt s' -> op s s'
| op_woken s lk s' : sleep_leave lk s = Done tt s' -> op s s'
| op_elsewhere s s' : r_cur s' = r_cur s -> r_proc s' = r_proc s -> op s s'.
(** The end of its turn. *)
Inductive leave : rst F B -> rst F B -> Prop :=
| leave_yield s s' : yield_enter s = Done tt s' -> leave s s'
| leave_sleep s chan lk s' : sleep_enter chan lk s = Done tt s' -> leave s s'
| leave_wait s s' : wait kend s = Done WSleep s' -> leave s s'
| leave_wait_again s s' : wait_pass kend s = Done WSleep s' -> leave s s'
| leave_exit s s' : exit s = Done tt s' -> leave s s'.
(** Between two passes: the interrupts' wakeups, and what leaves the table alone. *)
Inductive interrupt : rst F B -> rst F B -> Prop :=
| interrupt_wakeup s chan s' : wakeup chan s = Done tt s' -> interrupt s s'
| interrupt_elsewhere s s' : r_proc s' = r_proc s -> interrupt s s'.

(** A turn: the process that ran, or [None] for the end of a pass; the numbers are the entry
    the scan begins with. *)
Inductive turn : Z * rst F B -> option Z -> Z * rst F B -> Prop :=
| turn_run p s c s1 s2 s3 s4 : scheduler_scan p s = Done (Some c) s1 -> star op s1 s2 -> leave s2 s3 ->
    dispatch_return kpgdir s3 = Done tt s4 -> turn (p, s) (Some c) (c + 1, s4)
| turn_pass p s s1 s2 : scheduler_scan p s = Done None s1 -> star interrupt s1 s2 -> turn (p, s) None (0, s2).
Inductive turns : Z * rst F B -> list (option Z) -> Z * rst F B -> Prop :=
| turns_nil x : turns x [] x
| turns_cons x e y l z : turn x e y -> turns y l z -> turns x (e :: l) z.

Lemma turns_app x l1 l2 z : turns x (l1 ++ l2) z -> exists y, turns x l1 y /\ turns y l2 z.
Proof.
  revert x. induction l1 as [|e l1 IH]; intros x Ht; [by exists x; split; [constructor|]|].
  inversion Ht as [|? ? y ? ? H1 H2]; subst. destruct (IH _ H2) as (w & H3 & H4). exists w. split; [by econstructor|done].
Qed.

(** ** The invariant of the run queue *)
Context (j : Z) (Hj : in_table j).
Definition queued s : Prop := tab_ok (r_proc s) /\ p_state (slot (r_proc s) j) = RUNNABLE.

Lemma op_keeps c s s' : op s s' -> at_tab (waits j c running) s -> at_tab (waits j c running) s'.
Proof.
  intros Hop Hs. destruct Hop as [s r s' E|s r s' E|s r s' E|s pid r s' E|s n r s' E|s f s' Hf E|s sz d s' Hd E|s chan s' E|s s' E|s s' E|s lk s' E|s s' E1 E2];
    [| | | | | | | | | | |by unfold at_tab; rewrite E1, E2].
  - exact (wlp_Done _ _ _ _ _ (fork_keeps kend kdata forkret_addr trapret_addr j c s Hs) E).
  - exact (wlp_Done _ _ _ _ _ (wait_outcome kend j c s Hs) E).
  - exact (wlp_Done _ _ _ _ _ (wait_pass_outcome kend j c s Hs) E).
  - exact (wlp_Done _ _ _ _ _ (kill_keeps j c pid s Hs) E).
  - exact (wlp_Done _ _ _ _ _ (growproc_keeps kend j c n s Hs) E).
  - exact (wlp_Done _ _ _ _ _ (own_keeps j c f Hf s Hs) E).
  - exact (wlp_Done _ _ _ _ _ (image_keeps j c sz d Hd s Hs) E).
  - exact (wlp_Done _ _ _ _ _ (wakeup_keeps j c chan s Hs) E).
  - exact (wlp_Done _ _ _ _ _ (forkret_keeps j c s Hs) E).
  - exact (wlp_Done _ _ _ _ _ (keeps_release (waits j c running) Lptable s Hs) E).
  - exact (wlp_Done _ _ _ _ _ (sleep_leave_keeps j c lk s Hs) E).
Qed.
Lemma leave_keeps c s s' : leave s s' -> at_tab (waits j c running) s -> at_tab (waits j c anyhow) s'.
Proof.
  intros Hl Hs. destruct Hl as [s s' E|s chan lk s' E|s s' E|s s' E|s s' E].
  - exact (wlp_Done _ _ _ _ _ (yield_leaves j c s Hs) E).
  - exact (wlp_Done _ _ _ _ _ (sleep_leaves j c chan lk s Hs) E).
  - exact (wlp_Done _ _ _ _ _ (wait_outcome kend j c s Hs) E).
  - exact (wlp_Done _ _ _ _ _ (wait_pass_outcome kend j c s Hs) E).
  - exact (wlp_Done _ _ _ _ _ (exit_leaves j c s Hs) E).
Qed.
Lemma interrupt_keeps s s' : interrupt s s' -> queued s -> queued s'.
Proof.
  intros Hi [Hok Hr]. destruct Hi as [s chan s' E|s s' E]; [|by unfold queued; rewrite E].
  assert (Hp : preserves queued (wakeup (F := F) (B := B) chan)).
  { apply pres_bind; [by intros x Hx; unfold acquire, wlp; destruct (decide _)|intros _]. apply pres_bind; [|intros _; by intros x Hx; unfold release, wlp; destruct (decide _)].
    intros x [Hxok Hx]. split; cbn; [by apply tab_ok_wake|]. rewrite slot_fmap by done. by rewrite wake_not_sleeping by congruence. }
  exact (wlp_Done _ _ _ _ _ (Hp s (conj Hok Hr)) E).
Qed.

(** ** The scan *)
Lemma dispatch_runs p s : tab_ok (r_proc s) -> in_table p -> p_state (slot (r_proc s) p) = RUNNABLE ->
  exists s', dispatch (F := F) (B := B) p s = Done tt s' /\ r_cur s' = p /\ r_proc s' = alter (with_state RUNNING) (Z.to_nat p) (r_proc s).
Proof.
  intros Hok Hp Hr. destruct (slot_fit _ p Hok Hp) as [Hk Hd]; [by left|].
  unfold dispatch, switchuvm, pset, pget. rewrite (in_table_null p Hp). apply Z.eqb_neq in Hk, Hd. unfold slot in Hk, Hd.
  eexists. split; [|split].
  - erewrite bind_Done by reflexivity. erewrite bind_Done; [reflexivity|]. erewrite bind_Done by reflexivity.
    unfold proc_at. cbn [r_proc set_rcur]. rewrite Hk, Hd. reflexivity.
  - reflexivity.
  - reflexivity.
Qed.

Lemma scan_step p s : in_table p ->
  scheduler_scan p s = if decide (p_state (slot (r_proc s) p) = RUNNABLE) then (dispatch p ;; mret (Some p)) s else scheduler_scan (Z.succ p) s.
Proof.
  intros Hi. unfold in_table in Hi. unfold scheduler_scan at 1. rewrite seqZ_cons by lia. cbn [for_ret].
  assert (E : pget p s = Done (slot (r_proc s) p) s) by (unfold pget; by rewrite in_table_null).
  unfold mbind, M_bind. rewrite E. split_decide as [_|_].
  - by destruct (dispatch p s).
  - unfold mret, M_ret. by replace (Z.pred (NPROC - p)) with (NPROC - Z.succ p) by lia.
Qed.

Lemma scan_from n : forall p s, p + Z.of_nat n = NPROC -> 0 <= p -> tab_ok (r_proc s) ->
  (exists c s', p <= c < NPROC /\ scheduler_scan p s = Done (Some c) s' /\ (forall i, p <= i < c -> p_state (slot (r_proc s) i) <> RUNNABLE) /\
     p_state (slot (r_proc s) c) = RUNNABLE /\ r_cur s' = c /\ r_proc s' = alter (with_state RUNNING) (Z.to_nat c) (r_proc s)) \/
  (scheduler_scan p s = Done None s /\ forall i, p <= i < NPROC -> p_state (slot (r_proc s) i) <> RUNNABLE).
Proof.
  induction n as [|n IH]; intros p s Hn Hp Hok.
  - right. split; [unfold scheduler_scan; by replace (NPROC - p) with 0 by lia|lia].
  - assert (Hi : in_table p) by (unfold in_table; lia). rewrite (scan_step p s Hi). split_decide as [Hr|Hr].
    + left. destruct (dispatch_runs p s Hok Hi Hr) as (s' & E & Hcur & Htab). exists p, s'.
      split_and!; [lia|lia|by rewrite (bind_Done _ _ _ _ _ E)|lia|done|done|done].
    + destruct (IH (Z.succ p) s ltac:(lia) ltac:(lia) Hok) as [(c & s' & Hc & E & Hb & Hx)|(E & Hb)].
      * left. exists c, s'. split_and!; [lia|lia|exact E| |apply Hx..]. intros i Hi'. destruct (decide (i = p)) as [->|]; [done|apply Hb; lia].
      * right. split; [exact E|]. intros i Hi'. destruct (decide (i = p)) as [->|]; [done|apply Hb; lia].
Qed.

(** ** A turn *)
(** While [j] waits the scan stops at [j] or before, or is past [j]. *)
Lemma turn_queued p s e p' s' : queued s -> 0 <= p <= NPROC -> turn (p, s) e (p', s') -> e <> Some j ->
  queued s' /\ 0 <= p' <= NPROC /\
  match e with
  | Some c => p <= c < NPROC /\ p' = c + 1 /\ (p <= j -> c < j)
  | None => p' = 0 /\ j < p
  end.
Proof.
  intros [Hok Hr] Hp Ht He. destruct (scan_from (Z.to_nat (NPROC - p)) p s ltac:(lia) ltac:(lia) Hok) as [(c & s1 & Hc & E & Hb & Hrc & Hcur & Htab)|[E Hb]];
    inversion Ht as [p0 s0 c0 t1 t2 t3 t4 E1 Hops Hleave Hret|p0 s0 t1 t2 E1 Hints]; subst; rewrite E in E1; try discriminate; injection E1; intros; subst.
  - assert (Hcj : r_cur t1 <> j) by congruence. assert (Hin : in_table (r_cur t1)) by (unfold in_table; lia).
    assert (H1 : at_tab (waits j (r_cur t1) running) t1).
    { split_and!; [done| |done|done| |].
      - rewrite Htab. apply tab_ok_alter; [done|done|]. intros _. cbn. apply (slot_fit _ _ Hok Hin). by left.
      - rewrite Htab. by rewrite slot_alter_ne.
      - rewrite Htab, slot_alter by done. done. }
    pose proof (star_invariant op (at_tab (waits j (r_cur t1) running)) (fun x y Hx Hop => op_keeps _ x y Hop Hx) _ _ H1 Hops) as H2.
    pose proof (leave_keeps _ _ _ Hleave H2) as (_ & Hok3 & _ & _ & Hr3 & _).
    unfold dispatch_return, switchkvm, on_w, zoom, mbind, M_bind, modify in Hret. injection Hret as <-. split_and!; [exact (conj Hok3 Hr3)|lia|lia|lia|lia|done|].
    intros Hpj. destruct (decide (r_cur t1 < j)); [done|]. exfalso. apply (Hb j); [unfold in_table in Hj; lia|done].
  - pose proof (star_invariant interrupt queued (fun x y Hx Hi => interrupt_keeps x y Hi Hx) _ _ (conj Hok Hr) Hints) as H2.
    split_and!; [exact H2|lia|unfold NPROC; lia|done|]. destruct (decide (j < p)); [done|]. exfalso. apply (Hb j); [unfold in_table in Hj; lia|done].
Qed.

(** From an entry up to [j]'s on: each turn is another process's, of the entries before [j]'s. *)
Lemma pass_to_j l : forall p s z, queued s -> 0 <= p <= j -> turns (p, s) l z -> Some j ∉ l ->
  exists cs, l = Some <$> cs /\ NoDup cs /\ Forall (fun c => p <= c < j) cs.
Proof.
  induction l as [|e l IH]; intros p s z Hq Hp Ht Hn; [exists []; by split_and!; [done|constructor|constructor]|].
  inversion Ht as [|? ? [p1 s1] ? ? H1 H2]; subst. apply not_elem_of_cons in Hn as [He Hn]. unfold in_table in Hj.
  destruct (turn_queued p s e p1 s1 Hq ltac:(lia) H1 ltac:(congruence)) as (Hq1 & Hp1 & Hc). destruct e as [c|]; [|lia]. destruct Hc as (Hc & -> & Hlt). specialize (Hlt ltac:(lia)).
  destruct (IH (c + 1) s1 z Hq1 ltac:(lia) H2 Hn) as (cs & -> & Hnd & Hcs). rewrite Forall_forall in Hcs. exists (c :: cs). split_and!; [done| |].
  - constructor; [|done]. intros Hin. apply Hcs in Hin. lia.
  - constructor; [lia|]. apply Forall_forall. intros x Hx. apply Hcs in Hx. lia.
Qed.
(** From any entry: the rest of the pass, and the entries before [j]'s of the next one. *)
Lemma turns_to_j l : forall p s z, queued s -> 0 <= p <= NPROC -> turns (p, s) l z -> Some j ∉ l ->
  exists cs1 cs2, NoDup (cs1 ++ cs2) /\ Forall (fun c => p <= c < NPROC /\ c <> j) cs1 /\ Forall (fun c => 0 <= c < j /\ j < p) cs2 /\
    (l = Some <$> cs1 /\ cs2 = [] \/ l = (Some <$> cs1) ++ None :: (Some <$> cs2)).
Proof.
  induction l as [|e l IH]; intros p s z Hq Hp Ht Hn; [exists [], []; split_and!; try constructor; done|].
  inversion Ht as [|? ? [p1 s1] ? ? H1 H2]; subst. apply not_elem_of_cons in Hn as [He Hn].
  destruct (turn_queued p s e p1 s1 Hq Hp H1 ltac:(congruence)) as (Hq1 & Hp1 & Hc). destruct e as [c|].
  - destruct Hc as (Hc & -> & _). destruct (IH (c + 1) s1 z Hq1 Hp1 H2 Hn) as (cs1 & cs2 & Hnd & Hc1 & Hc2 & Hl). rewrite Forall_forall in Hc1, Hc2.
    destruct (decide (j < p)) as [Hjp|Hjp].
    + exists (c :: cs1), cs2. split_and!.
      * cbn. constructor; [|done]. rewrite elem_of_app. intros [Hin|Hin]; [apply Hc1 in Hin; lia|apply Hc2 in Hin; lia].
      * constructor; [split; [lia|congruence]|]. apply Forall_forall. intros x Hx. apply Hc1 in Hx. split; [lia|apply Hx].
      * apply Forall_forall. intros x Hx. apply Hc2 in Hx. lia.
      * destruct Hl as [[-> ->]| ->]; [by left|by right].
    + destruct (pass_to_j (Some c :: l) p s z Hq ltac:(lia) Ht) as (cs & E & Hnd' & Hcs); [rewrite not_elem_of_cons; by split|]. unfold in_table in Hj.
      exists cs, []. rewrite app_nil_r. split_and!; [done| |done|by left]. eapply Forall_impl; [exact Hcs|]. cbn. intros x Hx. lia.
  - destruct Hc as [-> Hjp]. unfold in_table in Hj. destruct (pass_to_j l 0 s1 z Hq1 ltac:(lia) H2 Hn) as (cs & -> & Hnd & Hcs).
    exists [], cs. split_and!; [done|done| |by right]. eapply Forall_impl; [exact Hcs|]. cbn. intros x Hx. lia.
Qed.

Lemma turns_without_j l p s z : queued s -> 0 <= p <= NPROC -> turns (p, s) l z -> Some j ∉ l ->
  NoDup l /\ Z.of_nat (length l) <= NPROC.
Proof.
  intros Hq Hp Ht Hn. destruct (turns_to_j l p s z Hq Hp Ht Hn) as (cs1 & cs2 & Hnd & H1 & H2 & Hl).
  assert (Hlen : Z.of_nat (length (cs1 ++ cs2)) < NPROC).
  { assert (Hsub : (j :: cs1 ++ cs2) ⊆+ seqZ 0 NPROC).
    { rewrite Forall_forall in H1, H2. apply NoDup_submseteq.
      - constructor; [|done]. rewrite elem_of_app. intros [Hin|Hin]; [apply H1 in Hin|apply H2 in Hin]; lia.
      - intros x. unfold in_table in Hj. rewrite elem_of_cons, elem_of_app, elem_of_seqZ. intros [->|[Hin|Hin]]; [lia|apply H1 in Hin; lia|apply H2 in Hin; lia]. }
    apply submseteq_length in Hsub. rewrite length_seqZ in Hsub. cbn [length] in Hsub. unfold NPROC in *. lia. }
  rewrite length_app in Hlen. destruct Hl as [[-> ->]| ->].
  - rewrite app_nil_r in Hnd. split; [by apply NoDup_fmap_2; [apply _|]|]. rewrite length_fmap. cbn in Hlen. lia.
  - split.
    + apply NoDup_app in Hnd as (Hn1 & Hd & Hn2). apply NoDup_app. split_and!; [by apply NoDup_fmap_2; [apply _|]| |].
      * intros x Hx Hx2. apply list_elem_of_fmap in Hx as (c & -> & Hc). apply elem_of_cons in Hx2 as [Hx2|Hx2]; [done|].
        apply list_elem_of_fmap in Hx2 as (c' & [= <-] & Hc'). by apply (Hd c).
      * constructor; [|by apply NoDup_fmap_2; [apply _|]]. intros Hx. by apply list_elem_of_fmap in Hx as (c & ? & _).
    + rewrite length_app. cbn [length]. rewrite !length_fmap. lia.
Qed.
End scheduler.

(** (C11) Round robin is fair: while a process [j] is in the run queue, the scheduler's scan
    never fails, and in every sequence of turns - whatever the processes that run do:
    fork, wait, kill, grow, wake others, yield, sleep or exit - [j] itself runs after at
    most [NPROC] turns, and before that no other process runs twice. *)
Theorem round_robin_fair {F B} `{FilesOver F B} kend kdata forkret_addr trapret_addr kpgdir j p (s : rst F B) :
  in_table j -> tab_ok (r_proc s) -> p_state (slot (r_proc s) j) = RUNNABLE -> 0 <= p <= NPROC ->
  (exists r s1, scheduler_scan p s = Done r s1) /\
  forall l z, turns kend kdata forkret_addr trapret_addr kpgdir (p, s) l z -> NPROC < Z.of_nat (length l) ->
    exists l1 l2, l = l1 ++ (Some j :: l2) /\ (Some j ∉ l1) /\ NoDup l1 /\ Z.of_nat (length l1) <= NPROC.
Proof.
  intros Hj Hok Hr Hp. split.
  - destruct (scan_from (Z.to_nat (NPROC - p)) p s ltac:(lia) ltac:(lia) Hok) as [(c & s1 & _ & E & _)|[E _]]; by eexists _, _.
  - intros l z Ht Hlen. destruct (decide (Some j ∈ l)) as [Hin|Hn].
    + apply list_elem_of_split_l in Hin as (l1 & l2 & -> & Hn). apply turns_app in Ht as (y & Ht & _).
      destruct (turns_without_j kend kdata forkret_addr trapret_addr kpgdir j Hj l1 p s y (conj Hok Hr) Hp Ht Hn) as [Hnd Hle]. by exists l1, l2.
    + destruct (turns_without_j kend kdata forkret_addr trapret_addr kpgdir j Hj l p s z (conj Hok Hr) Hp Ht Hn) as [_ Hle]. lia.
Qed.

(** Two processes ready to run, and a third asleep. *)
Definition ex_ready (st : procstate) : proc := Proc 4096 2148016128 2148020224 st 1 NULL 0 0 Cnone 0 (replicate 16 NULL) NULL [] 0 0 0 0 0 0 0.
Definition ex_table : list proc := [ex_ready RUNNABLE; ex_ready SLEEPING; ex_ready RUNNABLE] ++ replicate 61 zero_proc.
Definition ex_over : FilesOver (flst bmem) bmem := files_over (fun _ => Devsw None None).
Definition ex_files0 : flst bmem := Flst (Fsst (Lgst 0 0 0 0 0 0 [] (Bmem ∅ ∅ ∅ ∅ 1000) [] 0 []) (Superblock 0 0 0 0 0 0 0) [] 0 0) [] ∅ [] 0.
Definition ex_rst : rst (flst bmem) bmem :=
  Rst ex_table 0 4 NULL false (Swst (Kst ∅ true 0 0 []) (bl_of (FilesOver := ex_over) ex_files0) ∅ NULL 0 [] 0 0 0 0) ex_files0 0 [] [Lptable].

Lemma ex_rr_table_ok : tab_ok ex_table.
Proof.
  split; [reflexivity|]. apply Forall_app. split; [repeat constructor; done|]. apply Forall_replicate. intros [?|[?|?]]; discriminate.
Qed.

(** The third entry, with the scan to begin after it. *)
Example round_robin_fair_witness :
  (exists r s1, scheduler_scan (H := ex_over) 3 ex_rst = Done r s1) /\
  forall l z, turns (H := ex_over) 0 0 0 0 0 (3, ex_rst) l z -> NPROC < Z.of_nat (length l) ->
    exists l1 l2, l = l1 ++ (Some 2 :: l2) /\ (Some 2 ∉ l1) /\ NoDup l1 /\ Z.of_nat (length l1) <= NPROC.
Proof. apply round_robin_fair; [unfold in_table, NPROC; lia|exact ex_rr_table_ok|reflexivity|unfold NPROC; lia]. Defined.
