(* ===== verification/Mp.v ===== *)
(** * The multiprocessor tables ([mp.c], [mp.h])

    The search for the floating pointer structure in low memory, the checks of the
    configuration table, and [mpinit], which records the processors.  Structures are read at
    their offsets in the byte memory.  A signature is compared byte by byte with its
    text.

    An entry of unknown type is meant to end in a panic; [break] leaves the [switch] and not
    the loop, whose pointer does not move, so the processor is stuck. *)
From S2P Require Import Prelude Layout Memory.

Definition NCPU : Z := 8.
Definition MPPROC : Z := 0.
Definition MPBUS : Z := 1.
Definition MPIOAPIC : Z := 2.
Definition MPIOINTR : Z := 3.
Definition MPLINTR : Z := 4.
Definition sizeof_mp : Z := 16.
Definition sizeof_mpconf : Z := 44.
Definition sizeof_mpproc : Z := 20.
Definition sizeof_mpioapic : Z := 8.
(** [struct mp]: the fields read. *)
Definition mp_physaddr : Z := 4.
Definition mp_imcrp : Z := 12.
(** [struct mpconf]. *)
Definition mpconf_length : Z := 4.
Definition mpconf_version : Z := 6.
Definition mpconf_lapicaddr : Z := 36.
Definition rd16 (m : mem) (a : Z) : Z := rd8 m a + rd8 m (a + 1) * 256.

Definition text_MP : list Z := [95; 77; 80; 95].
Definition text_PCMP : list Z := [80; 67; 77; 80].
(** [memcmp(a, text, 4) == 0]. *)
Fixpoint same_text (m : mem) (a : Z) (l : list Z) : bool :=
  match l with [] => true | c :: l' => if rd8 m a =? c then same_text m (a + 1) l' else false end.

(** [sum]: the [uchar] of an [int] sum. *)
Definition sum (m : mem) (addr len : Z) : Z :=
  u8 (foldl (fun acc i => i32 (acc + rd8 m (addr + i))) 0 (seqZ 0 len)).

Definition mp_at (m : mem) (p : Z) : bool := same_text m p text_MP && (sum m p sizeof_mp =? 0).
Fixpoint mpsearch_loop (m : mem) (n : nat) (p e : Z) : option Z :=
  match n with
  | O => None
  | S n' => if negb (p <? e) then None else if mp_at m p then Some p else mpsearch_loop m n' (p + sizeof_mp) e
  end.
Definition mpsearch1 (m : mem) (a len : Z) : option Z :=
  mpsearch_loop m (Z.to_nat (len `div` sizeof_mp) + 1) (P2V a) (P2V a + len).

Definition mpsearch (m : mem) : option Z :=
  let bda := P2V 1024 in
  let p := ((rd8 m (bda + 15) ≪ 8) ||| rd8 m (bda + 14)) ≪ 4 in
  let r := if truth p then mpsearch1 m p 1024
           else mpsearch1 m (u32 (((rd8 m (bda + 20) ≪ 8) ||| rd8 m (bda + 19)) * 1024 - 1024)) 1024 in
  match r with Some mp => Some mp | None => mpsearch1 m 983040 65536 end.

(** The structure and the table, when they pass the checks. *)
Definition mpconfig (m : mem) : option (Z * Z) :=
  match mpsearch m with
  | None => None
  | Some mp =>
      let physaddr := rd32 m (mp + mp_physaddr) in
      if physaddr =? 0 then None else
      let conf := P2V physaddr in
      if negb (same_text m conf text_PCMP) then None else
      let version := rd8 m (conf + mpconf_version) in
      if (version !=? 1) && (version !=? 4) then None else
      if sum m conf (rd16 m (conf + mpconf_length)) !=? 0 then None else Some (mp, conf)
  end.

(** The globals: [cpus[i].apicid], [ncpu], [ioapicid], [lapic]; and the ports written. *)
Record mpst := Mpst { s_mem : mem; s_cpus : list Z; s_ncpu : Z; s_ioapicid : Z; s_lapic : Z; s_outs : list (Z * Z) }.

Section mpinit.
(** What port 0x23 reads. *)
Context (in23 : Z).
Definition outb (port v : Z) : M mpst unit :=
  modify (fun s => Mpst (s_mem s) (s_cpus s) (s_ncpu s) (s_ioapicid s) (s_lapic s) (s_outs s ++ [(port, u8 v)])).
Definition byte (a : Z) : M mpst Z := gets (fun s => rd8 (s_mem s) a).

Definition add_cpu (apicid : Z) : M mpst unit :=
  n ← gets s_ncpu;
  when (n <? NCPU)
    (modify (fun s => Mpst (s_mem s) (<[Z.to_nat n := apicid]> (s_cpus s)) (i32 (n + 1)) (s_ioapicid s) (s_lapic s) (s_outs s))).
Definition set_ioapicid (v : Z) : M mpst unit :=
  modify (fun s => Mpst (s_mem s) (s_cpus s) (s_ncpu s) v (s_lapic s) (s_outs s)).

(** The loop over the entries, from [p] to [e]; the result is [ismp]. *)
Fixpoint mptable (fuel : nat) (p e : Z) (ismp : bool) : M mpst bool :=
  match fuel with
  | O => spin
  | S f =>
      if negb (p <? e) then mret ismp else
      t ← byte p;
      if t =? MPPROC then
        apicid ← byte (p + 1);
        add_cpu apicid ;;
        mptable f (p + sizeof_mpproc) e ismp
      else if t =? MPIOAPIC then
        apicno ← byte (p + 1);
        set_ioapicid apicno ;;
        mptable f (p + sizeof_mpioapic) e ismp
      else if (t =? MPBUS) || (t =? MPIOINTR) || (t =? MPLINTR) then mptable f (p + 8) e ismp
      else mptable f p e false
  end.

Definition mpinit (fuel : nat) : M mpst unit :=
  m ← gets s_mem;
  match mpconfig m with
  | None => panic "Expect to run on an SMP"
  | Some (mp, conf) =>
      modify (fun s => Mpst (s_mem s) (s_cpus s) (s_ncpu s) (s_ioapicid s) (rd32 m (conf + mpconf_lapicaddr)) (s_outs s)) ;;
      ismp ← mptable fuel (conf + sizeof_mpconf) (conf + rd16 m (conf + mpconf_length)) true;
      if negb ismp then panic "Didn't find a suitable machine" else
      when (truth (rd8 m (mp + mp_imcrp))) (outb 34 112 ;; outb 35 (in23 ||| 1))
  end.
End mpinit.

(** ** The tables a machine offers

    What counts as a floating pointer structure and as a configuration table, said without the
    functions that look for them. *)
Definition bytes_at (m : mem) (a : Z) (l : list Z) : Prop := forall i c, l !! i = Some c -> rd8 m (a + Z.of_nat i) = c.
(** The sum of the [n] bytes at [a]. *)
Definition byte_sum (m : mem) (a n : Z) : Z := foldr (fun i acc => rd8 m (a + i) + acc) 0 (seqZ 0 n).
(** "_MP_" and sixteen bytes that add up to 0. *)
Definition floating (m : mem) (p : Z) : Prop := bytes_at m p [95; 77; 80; 95] /\ byte_sum m p 16 `mod` 256 = 0.

(** The places in the order of the search, sixteen bytes apart: the first kilobyte of the extended BIOS data
    area, whose segment is at 0x40e, or without one the last kilobyte of the memory whose size in
    kilobytes is at 0x413; then the ROM from 0xf0000 to 0xfffff. *)
Fixpoint every16 (p : Z) (n : nat) : list Z := match n with O => [] | S n' => p :: every16 (p + 16) n' end.
Definition low_area (m : mem) : Z :=
  let ebda := rd16 m (P2V 1038) * 16 in if decide (ebda = 0) then u32 (rd16 m (P2V 1043) * 1024 - 1024) else ebda.
Definition places (m : mem) : list Z := every16 (P2V (low_area m)) 64 ++ every16 (P2V 983040) 4096.
(** The structure found is the first of the places. *)
Definition found (m : mem) (mp : Z) : Prop :=
  exists before after, places m = before ++ mp :: after /\ floating m mp /\ forall q, q ∈ before -> ~ floating m q.
(** The table it points to: "PCMP", version 1.1 or 1.4, and as many bytes as it says, which add up to 0. *)
Definition valid_table (m : mem) (mp conf : Z) : Prop :=
  rd32 m (mp + 4) <> 0 /\ conf = P2V (rd32 m (mp + 4)) /\ bytes_at m conf [80; 67; 77; 80] /\
  (rd8 m (conf + 6) = 1 \/ rd8 m (conf + 6) = 4) /\ byte_sum m conf (rd16 m (conf + 4)) `mod` 256 = 0.
Definition usable (m : mem) (mp conf : Z) : Prop := found m mp /\ valid_table m mp conf.

(** ** The search *)
Lemma same_text_bytes m l : forall a, same_text m a l = true <-> bytes_at m a l.
Proof.
  induction l as [|c l IH]; intros a; cbn [same_text]; [by split|].
  destruct (Z.eqb_spec (rd8 m a) c) as [E|E].
  - rewrite IH. split; intros H.
    + intros [|i] c' Hi; cbn in Hi; [rewrite Z.add_0_r; congruence|]. rewrite <- (H i c' Hi). f_equal. lia.
    + intros i c' Hi. rewrite <- (H (S i) c' Hi). f_equal. lia.
  - split; [done|]. intros H. destruct E. by rewrite <- (H 0%nat c eq_refl), Z.add_0_r.
Qed.
Lemma i32_mod256 x : i32 x `mod` 256 = x `mod` 256.
Proof. unfold i32. zlia. Qed.
Lemma sum_bytes m a n : sum m a n = byte_sum m a n `mod` 256.
Proof.
  unfold sum, byte_sum, u8. assert (Hl : forall l x, foldl (fun acc i => i32 (acc + rd8 m (a + i))) x l `mod` 256 =
    (x + foldr (fun i acc => rd8 m (a + i) + acc) 0 l) `mod` 256); [|apply Hl].
  induction l as [|i l IH]; intros x; cbn [foldl foldr]; [by rewrite Z.add_0_r|].
  rewrite IH, Zplus_mod, i32_mod256, <- Zplus_mod. f_equal. lia.
Qed.
Lemma mp_at_floating m p : mp_at m p = true <-> floating m p.
Proof. unfold mp_at, floating. by rewrite andb_true_iff, same_text_bytes, Z.eqb_eq, sum_bytes. Qed.

Lemma mpsearch_loop_find m k : forall n p, (k < n)%nat -> mpsearch_loop m n p (p + 16 * Z.of_nat k) = find (mp_at m) (every16 p k).
Proof.
  induction k as [|k IH]; intros [|n] p Hn; try lia; cbn [mpsearch_loop every16 find].
  - by rewrite (proj2 (Z.ltb_ge p _)) by lia.
  - rewrite (proj2 (Z.ltb_lt p _)) by lia. cbn [negb]. destruct (mp_at m p); [done|].
    rewrite <- (IH n) by lia. f_equal. unfold sizeof_mp. lia.
Qed.
Lemma mpsearch_places m : bytes_ok m -> mpsearch m = find (mp_at m) (places m).
Proof.
  intros Hok. unfold mpsearch, places, low_area, mpsearch1. cbv zeta.
  assert (H16 : forall a b, (rd8 m b ≪ 8) ||| rd8 m a = rd8 m a + rd8 m b * 256).
  { intros a b. pose proof (Hok a). rewrite Z.shiftl_mul_pow2, (lor_low 8) by (try lia; change (2 ^ 8) with 256; zlia). change (2 ^ 8) with 256. lia. }
  assert (Hf : forall l l', find (mp_at m) (l ++ l') = match find (mp_at m) l with Some x => Some x | None => find (mp_at m) l' end).
  { intros l l'. induction l as [|x l IH]; [done|]. cbn. by destruct (mp_at m x). }
  rewrite Hf, !H16, Z.shiftl_mul_pow2 by lia. change (2 ^ 4) with 16. unfold rd16, truth.
  change (P2V 1024 + 15) with (P2V 1038 + 1). change (P2V 1024 + 14) with (P2V 1038).
  change (P2V 1024 + 20) with (P2V 1043 + 1). change (P2V 1024 + 19) with (P2V 1043).
  change (Z.to_nat (1024 `div` sizeof_mp) + 1)%nat with 65%nat. change (Z.to_nat (65536 `div` sizeof_mp) + 1)%nat with 4097%nat.
  rewrite <- (mpsearch_loop_find m 64 65), <- (mpsearch_loop_find m 4096 4097) by lia.
  case_decide as E; [by rewrite E|]. by rewrite (proj2 (Z.eqb_neq _ 0) E).
Qed.
Lemma mpsearch_found m mp : bytes_ok m -> mpsearch m = Some mp <-> found m mp.
Proof.
  intros Hok. rewrite mpsearch_places by done. unfold found. generalize (places m) as l. clear Hok.
  induction l as [|x l IH]; cbn [find]; [split; [done|]; intros ([|] & ? & ? & _); done|].
  destruct (mp_at m x) eqn:E.
  - apply mp_at_floating in E. split; [intros [= <-]; exists [], l; split_and!; [done|done|by intros q ?%elem_of_nil]|].
    intros ([|y before] & after & Hl & Hmp & Hb); [by injection Hl as ->|]. injection Hl as <- _. destruct (Hb x); [left|done].
  - assert (Hx : ~ floating m x) by (rewrite <- mp_at_floating; congruence). rewrite IH. split.
    + intros (before & after & -> & Hmp & Hb). exists (x :: before), after. split_and!; [done|done|]. intros q [->|Hq]%elem_of_cons; [done|by apply Hb].
    + intros ([|y before] & after & Hl & Hmp & Hb); [injection Hl as -> _; done|]. injection Hl as <- ->. exists before, after. split_and!; [done|done|]. intros q Hq. apply Hb. by right.
Qed.

(** [mpconfig] accepts what is usable, and nothing else. *)
Lemma mpconfig_usable m mp conf : bytes_ok m -> mpconfig m = Some (mp, conf) <-> usable m mp conf.
Proof.
  intros Hok. unfold mpconfig, usable, valid_table. rewrite <- mpsearch_found by done.
  rewrite <- (same_text_bytes m [80; 67; 77; 80]), <- sum_bytes. fold text_PCMP.
  destruct (mpsearch m) as [q|]; [|by split; [|intros [? _]]]. split.
  - destruct (_ =? 0) eqn:E0; [done|]. destruct (same_text _ _ text_PCMP) eqn:E1; [|done]. cbn [negb].
    destruct ((_ !=? 1) && (_ !=? 4)) eqn:E2; [done|]. destruct (sum _ _ _ !=? 0) eqn:E3; [done|]. intros [= <- <-].
    apply Z.eqb_neq in E0. apply negb_false_iff, Z.eqb_eq in E3. split_and!; [done|done|done|done| |done].
    apply andb_false_iff in E2 as [E2|E2]; apply negb_false_iff, Z.eqb_eq in E2; auto.
  - intros ([= ->] & H0 & -> & H1 & H2 & H3). unfold mp_physaddr, mpconf_version, mpconf_length. apply Z.eqb_neq in H0 as ->. rewrite H1, H3. cbn [negb].
    by destruct H2 as [->| ->].
Qed.

(** ** The table *)
Inductive entry := Eproc (apicid : Z) | Eioapic (apicno : Z) | Eother.
(** The bytes from [p] up to [e] are these entries. *)
Inductive entries (m : mem) (e : Z) : Z -> list entry -> Prop :=
| entries_end p : e <= p -> entries m e p []
| entries_proc p l : p < e -> rd8 m p = MPPROC -> entries m e (p + sizeof_mpproc) l -> entries m e p (Eproc (rd8 m (p + 1)) :: l)
| entries_ioapic p l : p < e -> rd8 m p = MPIOAPIC -> entries m e (p + sizeof_mpioapic) l -> entries m e p (Eioapic (rd8 m (p + 1)) :: l)
| entries_other p l : p < e -> rd8 m p = MPBUS \/ rd8 m p = MPIOINTR \/ rd8 m p = MPLINTR -> entries m e (p + 8) l -> entries m e p (Eother :: l).
(** They lead to a byte that is the type of none. *)
Inductive stuck (m : mem) (e : Z) : Z -> Prop :=
| stuck_here p : p < e -> MPLINTR < rd8 m p -> stuck m e p
| stuck_proc p : p < e -> rd8 m p = MPPROC -> stuck m e (p + sizeof_mpproc) -> stuck m e p
| stuck_ioapic p : p < e -> rd8 m p = MPIOAPIC -> stuck m e (p + sizeof_mpioapic) -> stuck m e p
| stuck_other p : p < e -> rd8 m p = MPBUS \/ rd8 m p = MPIOINTR \/ rd8 m p = MPLINTR -> stuck m e (p + 8) -> stuck m e p.

Definition procs (l : list entry) : list Z := omap (fun x => match x with Eproc i => Some i | _ => None end) l.
Definition ioapics (l : list entry) : list Z := omap (fun x => match x with Eioapic i => Some i | _ => None end) l.
(** The processors recorded. *)
Definition recorded (ids : list Z) (s : mpst) : Prop :=
  length (s_cpus s) = Z.to_nat NCPU /\ s_ncpu s = Z.of_nat (length (take (Z.to_nat NCPU) ids)) /\
  take (Z.to_nat (s_ncpu s)) (s_cpus s) = take (Z.to_nat NCPU) ids.

Lemma recorded_snoc ids id s : recorded ids s -> exists s', add_cpu id s = Done tt s' /\ recorded (ids ++ [id]) s' /\
  s_mem s' = s_mem s /\ s_ioapicid s' = s_ioapicid s /\ s_lapic s' = s_lapic s /\ s_outs s' = s_outs s.
Proof.
  intros (Hl & Hn & Ht). unfold add_cpu, NCPU in *. rewrite (bind_Done (gets s_ncpu) _ s _ s eq_refl). rewrite length_take in Hn.
  destruct (Z.ltb_spec (s_ncpu s) 8) as [Hlt|Hge]; cbn [when].
  - assert (Hids : (length ids < 8)%nat) by lia. eexists. split; [reflexivity|]. cbn [s_cpus s_ncpu s_mem s_ioapicid s_lapic s_outs]. split; [|done].
    rewrite (take_ge ids) in Ht by lia. assert (En : s_ncpu s = Z.of_nat (length ids)) by lia. rewrite En, Nat2Z.id in Ht |- *.
    rewrite i32_small by lia. split_and!; [cbn [s_cpus]; by rewrite length_insert| |]; cbn [s_cpus s_ncpu]; unfold NCPU; rewrite (take_ge (ids ++ [id])) by (rewrite length_app; cbn [length]; lia).
    + rewrite length_app. cbn [length]. lia.
    + replace (Z.to_nat (Z.of_nat (length ids) + 1)) with (S (length ids)) by lia.
      rewrite (take_S_r _ _ id) by (apply list_lookup_insert_eq; lia). by rewrite take_insert_ge, Ht by lia.
  - exists s. split; [done|]. split; [|done]. assert (Hids : (8 <= length ids)%nat) by lia.
    split_and!; [done|unfold NCPU; rewrite length_take, length_app; cbn [length]; lia|]. unfold NCPU; rewrite Ht. symmetry. apply take_app_le. lia.
Qed.

Definition last_or (d : Z) (l : list Z) : Z := default d (last l).
Lemma last_or_cons d x l : last_or d (x :: l) = last_or x l.
Proof. unfold last_or. rewrite last_cons. by destruct (last l). Qed.

Lemma mptable_entries m e : (forall a, 0 <= rd8 m a) -> forall p l, entries m e p l -> forall fuel ids s b, 0 < Z.of_nat fuel -> e - p < Z.of_nat fuel -> s_mem s = m -> recorded ids s ->
  exists s', mptable fuel p e b s = Done b s' /\ recorded (ids ++ procs l) s' /\ s_ioapicid s' = last_or (s_ioapicid s) (ioapics l) /\
    s_mem s' = m /\ s_lapic s' = s_lapic s /\ s_outs s' = s_outs s.
Proof.
  intros Hm. induction 1 as [p Hge|p l Hlt Ht _ IH|p l Hlt Ht _ IH|p l Hlt Ht _ IH]; intros fuel ids s b Hf0 Hf Hs Hr;
    (destruct fuel as [|f]; [lia|]); cbn [mptable].
  all: try (rewrite (proj2 (Z.ltb_lt p e)) by lia; cbn [negb]; rewrite (bind_Done (byte p) _ s _ s eq_refl), Hs).
  - exists s. rewrite (proj2 (Z.ltb_ge p e)) by lia. cbn. rewrite app_nil_r. by split_and!.
  - rewrite Ht. cbn [Z.eqb MPPROC]. rewrite (bind_Done (byte (p + 1)) _ s _ s eq_refl), Hs.
    destruct (recorded_snoc ids (rd8 m (p + 1)) s Hr) as (s1 & E1 & Hr1 & Hm1 & Hio & Hla & Hou). rewrite (bind_Done _ _ _ _ _ E1).
    destruct (IH f _ s1 b ltac:(lia) ltac:(unfold sizeof_mpproc; lia) ltac:(congruence) Hr1) as (s2 & E2 & Hr2 & Hi2 & Hm2 & Hl2 & Ho2). rewrite <- app_assoc in Hr2.
    exists s2. split_and!; [exact E2|exact Hr2|by rewrite Hi2, Hio|done|congruence|congruence].
  - rewrite Ht. change (MPIOAPIC =? MPPROC) with false. change (MPIOAPIC =? MPIOAPIC) with true. cbv iota. rewrite (bind_Done (byte (p + 1)) _ s _ s eq_refl), Hs.
    destruct (IH f ids (Mpst m (s_cpus s) (s_ncpu s) (rd8 m (p + 1)) (s_lapic s) (s_outs s)) b ltac:(lia) ltac:(unfold sizeof_mpioapic; lia) eq_refl Hr) as (s2 & E2 & Hr2 & Hi2 & Hm2 & Hl2 & Ho2).
    exists s2. split_and!; [|exact Hr2|cbn in Hi2 |- *; by rewrite last_or_cons|done|done|done]. unfold set_ioapicid. erewrite bind_Done by reflexivity. rewrite Hs. exact E2.
  - destruct (IH f ids s b ltac:(lia) ltac:(lia) Hs Hr) as (s2 & E2 & Hr2 & Hi2 & Hm2 & Hl2 & Ho2). exists s2. split_and!; [|done|done|done|done|done].
    by destruct Ht as [->|[->| ->]].
Qed.

Lemma mptable_stuck m e p : stuck m e p -> forall fuel s b, s_mem s = m -> mptable fuel p e b s = Spin.
Proof.
  induction 1 as [p Hlt Ht|p Hlt Ht _ IH|p Hlt Ht _ IH|p Hlt Ht _ IH]; intros fuel.
  - induction fuel as [|f IH]; intros s b Hs; [done|]. cbn [mptable]. rewrite (proj2 (Z.ltb_lt p e)) by lia. cbn [negb]. rewrite (bind_Done (byte p) _ s _ s eq_refl), Hs.
    unfold MPPROC, MPIOAPIC, MPBUS, MPIOINTR, MPLINTR in *. rewrite !(proj2 (Z.eqb_neq (rd8 m p) _)) by lia. by apply IH.
  - destruct fuel as [|f]; [done|]. intros s b Hs. cbn [mptable]. rewrite (proj2 (Z.ltb_lt p e)) by lia. cbn [negb]. rewrite (bind_Done (byte p) _ s _ s eq_refl), Hs, Ht.
    cbn [Z.eqb MPPROC]. rewrite (bind_Done (byte (p + 1)) _ s _ s eq_refl).
    assert (Ha : exists s', add_cpu (rd8 (s_mem s) (p + 1)) s = Done tt s' /\ s_mem s' = m).
    { unfold add_cpu. rewrite (bind_Done (gets s_ncpu) _ s _ s eq_refl). destruct (s_ncpu s <? NCPU); eexists; (split; [reflexivity|done]). }
    destruct Ha as (s' & Ea & Hs'). rewrite (bind_Done _ _ _ _ _ Ea). by apply IH.
  - destruct fuel as [|f]; [done|]. intros s b Hs. cbn [mptable]. rewrite (proj2 (Z.ltb_lt p e)) by lia. cbn [negb]. rewrite (bind_Done (byte p) _ s _ s eq_refl), Hs, Ht.
    change (MPIOAPIC =? MPPROC) with false. change (MPIOAPIC =? MPIOAPIC) with true. cbv iota. rewrite (bind_Done (byte (p + 1)) _ s _ s eq_refl). unfold set_ioapicid. erewrite bind_Done by reflexivity. by apply IH.
  - destruct fuel as [|f]; [done|]. intros s b Hs. cbn [mptable]. rewrite (proj2 (Z.ltb_lt p e)) by lia. cbn [negb]. rewrite (bind_Done (byte p) _ s _ s eq_refl), Hs.
    destruct Ht as [->|[->| ->]]; by apply IH.
Qed.

(** Every table is one or the other. *)
Lemma entries_or_stuck m e : (forall a, 0 <= rd8 m a) -> forall n p, e - p < Z.of_nat n -> (exists l, entries m e p l) \/ stuck m e p.
Proof.
  intros Hm. induction n as [|n IH]; intros p Hn; [left; exists []; constructor; lia|].
  destruct (decide (p < e)) as [Hlt|Hge]; [|left; exists []; constructor; lia].
  assert (Hstep : forall k x, 0 < k -> (forall l, entries m e (p + k) l -> entries m e p (x :: l)) -> (stuck m e (p + k) -> stuck m e p) -> (exists l, entries m e p l) \/ stuck m e p).
  { intros k x Hk H1 H2. destruct (IH (p + k) ltac:(lia)) as [[l Hl]|Hs]; [left; eauto|right; auto]. }
  pose proof (Hm p) as Hp. destruct (decide (MPLINTR < rd8 m p)) as [Hx|Hx]; [right; by constructor|]. unfold MPLINTR in Hx.
  destruct (decide (rd8 m p = MPPROC)) as [E|E]; [eapply (Hstep sizeof_mpproc (Eproc _)); [done|by econstructor 2|by econstructor 2]|].
  destruct (decide (rd8 m p = MPIOAPIC)) as [E2|E2]; [eapply (Hstep sizeof_mpioapic (Eioapic _)); [done|by econstructor 3|by econstructor 3]|].
  assert (E3 : rd8 m p = MPBUS \/ rd8 m p = MPIOINTR \/ rd8 m p = MPLINTR) by (unfold MPPROC, MPIOAPIC, MPBUS, MPIOINTR, MPLINTR in *; lia).
  eapply (Hstep 8 Eother); [done|by econstructor 4|by econstructor 4].
Qed.

(** The writes of the interrupt mode register. *)
Definition imcr_writes (in23 imcrp : Z) : list (Z * Z) := if truth imcrp then [(34, 112); (35, u8 (in23 ||| 1))] else [].

(** (C39) What [mpinit] does at boot, for every memory.  When no table is usable - a floating pointer
    structure is the first place of the search, in the first kilobyte of the extended BIOS
    data area or the last of the base memory and then in the ROM from 0xf0000, with the signature
    "_MP_" and bytes that add up to 0; the table it points to begins with "PCMP", has version 1 or
    4 and adds up to 0 - it panics.  With a usable table the bytes of the table are either a sequence of entries of the known
    types, and then, within a turn for each byte, it has recorded the local APIC's address, the ids of the first [NCPU]
    processors in their order, their number, and the id of the last I/O APIC; or
    they lead to an entry of unknown type, and it never returns. *)
Theorem mpinit_outcome in23 s : bytes_ok (s_mem s) -> length (s_cpus s) = Z.to_nat NCPU -> s_ncpu s = 0 ->
  let m := s_mem s in
  ((forall mp conf, ~ usable m mp conf) /\ forall fuel, mpinit in23 fuel s = Panic "Expect to run on an SMP") \/
  exists mp conf, usable m mp conf /\
    let len := rd16 m (conf + mpconf_length) in
    ((exists l s', entries m (conf + len) (conf + sizeof_mpconf) l /\ mpinit in23 (S (Z.to_nat len)) s = Done tt s' /\
        recorded (procs l) s' /\ s_ioapicid s' = last_or (s_ioapicid s) (ioapics l) /\ s_lapic s' = rd32 m (conf + mpconf_lapicaddr) /\
        s_outs s' = s_outs s ++ imcr_writes in23 (rd8 m (mp + mp_imcrp))) \/
     (stuck m (conf + len) (conf + sizeof_mpconf) /\ forall fuel, mpinit in23 fuel s = Spin)).
Proof.
  intros Hok Hl Hn m. assert (Hm : forall a, 0 <= rd8 m a) by (intros a; apply Hok). destruct (mpconfig m) as [[mp conf]|] eqn:E; [right|left].
  2: { split; [intros mp conf; rewrite <- mpconfig_usable by done; congruence|].
       intros fuel. unfold mpinit. rewrite (bind_Done (gets s_mem) _ s _ s eq_refl). fold m. by rewrite E. }
  exists mp, conf. split; [by apply mpconfig_usable|]. intros len.
  set (s1 := Mpst (s_mem s) (s_cpus s) (s_ncpu s) (s_ioapicid s) (rd32 m (conf + mpconf_lapicaddr)) (s_outs s)).
  assert (Hinit : forall fuel, mpinit in23 fuel s = (ismp ← mptable fuel (conf + sizeof_mpconf) (conf + len) true;
    if negb ismp then panic "Didn't find a suitable machine" else when (truth (rd8 m (mp + mp_imcrp))) (outb 34 112 ;; outb 35 (in23 ||| 1))) s1).
  { intros fuel. unfold mpinit. rewrite (bind_Done (gets s_mem) _ s _ s eq_refl). fold m. rewrite E. by erewrite bind_Done by reflexivity. }
  destruct (entries_or_stuck m (conf + len) Hm (S (Z.to_nat len)) (conf + sizeof_mpconf)) as [[l Hent]|Hst]; [unfold sizeof_mpconf; lia| |].
  - left. assert (Hr : recorded [] s1) by (split_and!; [exact Hl|exact Hn|cbn; by rewrite Hn]).
    destruct (mptable_entries m (conf + len) Hm _ _ Hent (S (Z.to_nat len)) [] s1 true ltac:(lia) ltac:(unfold sizeof_mpconf; lia) eq_refl Hr) as (s2 & E2 & Hr2 & Hi2 & Hm2 & Hl2 & Ho2).
    rewrite Hinit, (bind_Done _ _ _ _ _ E2). cbn [negb]. unfold imcr_writes. destruct (truth _); cbn [when].
    + exists l. eexists. split_and!; [done|reflexivity|exact Hr2|exact Hi2|exact Hl2|]. cbn [s_outs]. rewrite Ho2. cbn [s_outs s1]. by rewrite <- app_assoc.
    + exists l, s2. split_and!; [done|done|done|done|done|]. by rewrite app_nil_r.
  - right. split; [done|]. intros fuel. rewrite Hinit. unfold mbind, M_bind. by rewrite (mptable_stuck _ _ _ Hst fuel s1 true eq_refl).
Qed.

(** Bytes one after the other. *)
Fixpoint put_list (a : Z) (l : list Z) (m : mem) : mem := match l with [] => m | b :: l' => put_list (a + 1) l' (wr8 a b m) end.
Lemma put_list_ok l : forall a m, bytes_ok m -> bytes_ok (put_list a l m).
Proof. induction l as [|b l IH]; intros a m Hm; [done|]. by apply IH, wr8_bytes_ok. Qed.

(** Two processors, an entry of type [kind], an I/O APIC. *)
Definition ex_mp (kind : Z) : mem :=
  let table := [80; 67; 77; 80; 100; 0; 4; 256 - (898 + kind) `mod` 256] ++ replicate 28 0 ++ [0; 0; 224; 254] ++ [0; 0; 0; 0] ++
    [0; 0] ++ replicate 18 0 ++ [0; 1] ++ replicate 18 0 ++ [kind] ++ replicate 7 0 ++ [2; 9] ++ replicate 6 0 in
  let ptr := [95; 77; 80; 95; 0; 144; 0; 0; 1; 4; 256 - 496 `mod` 256; 0] ++ replicate 4 0 in
  put_list (P2V 36864) table (put_list (P2V 983040) ptr ∅).

Definition ex_boot (kind : Z) : mpst := Mpst (ex_mp kind) (replicate 8 0) 0 0 0 [].
Lemma ex_mp_ok kind : bytes_ok (ex_mp kind).
Proof. apply put_list_ok, put_list_ok, empty_bytes_ok. Qed.
Lemma ex_mpconfig kind : kind = 1 \/ kind = 7 -> mpconfig (ex_mp kind) = Some (P2V 983040, P2V 36864).
Proof. intros [->| ->]; vm_compute; reflexivity. Qed.

(** With a bus for the third entry the table is usable and made of known entries. *)
Example mpinit_outcome_witness :
  usable (ex_mp 1) (P2V 983040) (P2V 36864) /\ exists l s', entries (ex_mp 1) (P2V 36864 + 100) (P2V 36864 + sizeof_mpconf) l /\
    mpinit 0 (S (Z.to_nat 100)) (ex_boot 1) = Done tt s' /\ recorded (procs l) s'.
Proof.
  pose proof (ex_mpconfig 1 (or_introl eq_refl)) as Hc. assert (Hu := proj1 (mpconfig_usable _ _ _ (ex_mp_ok 1)) Hc). split; [exact Hu|].
  destruct (mpinit_outcome 0 (ex_boot 1) (ex_mp_ok 1) eq_refl eq_refl) as [[Hno _]|(mp & conf & Hu' & Ho)]; [destruct (Hno _ _ Hu)|].
  change (s_mem (ex_boot 1)) with (ex_mp 1) in Hu', Ho. apply mpconfig_usable in Hu'; [|apply ex_mp_ok]. rewrite Hc in Hu'. injection Hu' as <- <-.
  cbv zeta in Ho. replace (rd16 (ex_mp 1) (P2V 36864 + mpconf_length)) with 100 in Ho by (vm_compute; reflexivity).
  destruct Ho as [(l & s' & He & Er & Hr & _)|[_ Hs]]; [exists l, s'; exact (conj He (conj Er Hr))|].
  exfalso. specialize (Hs 101%nat). vm_compute in Hs. discriminate.
Defined.
(** What it records. *)
Example mpinit_run : match mpinit 0 101 (ex_boot 1) with Done _ s' => (s_ncpu s', s_cpus s', s_ioapicid s', s_lapic s') = (2, [0; 1; 0; 0; 0; 0; 0; 0], 9, 4276092928) | _ => False end.
Proof. vm_compute. reflexivity. Qed.
(** An entry of unknown type, 7: the processor is stuck, where a panic is meant. *)
Lemma mpinit_unknown_entry fuel : mpinit 0 fuel (ex_boot 7) = Spin.
Proof.
  unfold mpinit. rewrite (bind_Done (gets s_mem) _ (ex_boot 7) _ (ex_boot 7) eq_refl). change (s_mem (ex_boot 7)) with (ex_mp 7). rewrite (ex_mpconfig 7 (or_intror eq_refl)).
  erewrite bind_Done by reflexivity. unfold mbind, M_bind. erewrite mptable_stuck; [reflexivity| |reflexivity].
  replace (rd16 (ex_mp 7) (P2V 36864 + mpconf_length)) with 100 by (vm_compute; reflexivity).
  apply stuck_proc; [by vm_compute|by vm_compute|]. apply stuck_proc; [by vm_compute|by vm_compute|]. apply stuck_here; by vm_compute.
Qed.
