(* ===== verification/Boot.v ===== *)
(** * The boot loader ([bootmain.c])

    [bootmain] reads the kernel's ELF image from the sectors after the boot block and
    puts its segments at their physical addresses.  The controller is the part of an
    ATA disk that it uses: registers for a sector count and a 28-bit sector number, a
    read command that fills the data port with the sector, a status that is busy a number of
    times and then ready.

    Sectors are read whole: a segment's first read begins before it and its last ends after
    it.  The segments come out right because they are loaded in increasing order. *)
From S2P Require Import Prelude Layout Memory Kalloc Vm Fs ProcData Mmap Exec.

Definition SECTSIZE : Z := 512.
(** The offsets of [struct elfhdr] and [struct proghdr]. *)
Definition eh_entry : Z := 24.
Definition eh_phoff : Z := 28.
Definition eh_phnum : Z := 44.
Definition ph_off : Z := 4.
Definition ph_paddr : Z := 12.
Definition ph_filesz : Z := 16.
Definition ph_memsz : Z := 20.
Definition elf_at : Z := 65536.

(** Memory; the registers 0x1F2 to 0x1F6; the sector in the data port; the values the
    status register still gives before it is ready. *)
Record boot_st := BootSt { t_mem : mem; t_regs : list Z; t_sector : Z; t_status : list Z }.

Section boot.
(** The sectors of the disk. *)
Context (disk : Z -> list Z).

Definition reg (s : boot_st) (i : nat) : Z := t_regs s !!! i.
Definition lba (s : boot_st) : Z := reg s 1 + 256 * reg s 2 + 65536 * reg s 3 + 16777216 * (reg s 4 &&& 15).
Definition outb (port data : Z) : M boot_st unit :=
  if (498 <=? port) && (port <=? 502) then
    modify (fun s => BootSt (t_mem s) (<[Z.to_nat (port - 498) := u8 data]> (t_regs s)) (t_sector s) (t_status s))
  else if (port =? 503) && (data =? 32) then
    modify (fun s => BootSt (t_mem s) (t_regs s) (lba s) (t_status s))
  else undef "port".
(** [insl(0x1F0, dst, SECTSIZE/4)]. *)
Definition insl (dst : Z) : M boot_st unit :=
  modify (fun s => BootSt (store_bytes dst (disk (t_sector s)) (t_mem s)) (t_regs s) (t_sector s) (t_status s)).

Fixpoint until_ready (l : list Z) : list Z :=
  match l with [] => [] | v :: l' => if (v &&& 192) =? 64 then l' else until_ready l' end.
Definition waitdisk : M boot_st unit := modify (fun s => BootSt (t_mem s) (t_regs s) (t_sector s) (until_ready (t_status s))).

Definition readsect (dst offset : Z) : M boot_st unit :=
  waitdisk ;;
  outb 498 1 ;;
  outb 499 offset ;;
  outb 500 (offset ≫ 8) ;;
  outb 501 (offset ≫ 16) ;;
  outb 502 ((offset ≫ 24) ||| 224) ;;
  outb 503 32 ;;
  waitdisk ;;
  insl dst.

(** The loop of [readseg]; addresses are below the end of memory. *)
Definition readseg_body (epa : Z) (x : Z * Z) : M boot_st (Z * Z + unit) :=
  let '(pa, offset) := x in
  if negb (pa <? epa) then mret (inr tt)
  else readsect pa offset ;; mret (inl (pa + SECTSIZE, u32 (offset + 1))).
Definition readseg (pa count offset : Z) : M boot_st unit :=
  let epa := pa + count in
  let pa := pa - offset `mod` SECTSIZE in
  loop (S (Z.to_nat ((epa - pa) `div` SECTSIZE + 1))) (readseg_body epa) (pa, u32 (offset `div` SECTSIZE + 1)).

Definition load_segment (ph : Z) : M boot_st unit :=
  m ← gets t_mem;
  let pa := rd32 m (ph + ph_paddr) in
  let filesz := rd32 m (ph + ph_filesz) in
  readseg pa filesz (rd32 m (ph + ph_off)) ;;
  m ← gets t_mem;
  let memsz := rd32 m (ph + ph_memsz) in
  let filesz := rd32 m (ph + ph_filesz) in
  when (memsz >? filesz)
    (modify (fun s => BootSt (stosb (pa + filesz) 0 (Z.to_nat (memsz - filesz)) (t_mem s)) (t_regs s) (t_sector s) (t_status s))).

(** The address it jumps to, or [None] when it returns. *)
Definition bootmain : M boot_st (option Z) :=
  readseg elf_at 4096 0 ;;
  m ← gets t_mem;
  if rd32 m elf_at !=? ELF_MAGIC then mret None
  else
    let ph := elf_at + rd32 m (elf_at + eh_phoff) in
    for_each (seqZ 0 (rd8 m (elf_at + eh_phnum) + 256 * rd8 m (elf_at + eh_phnum + 1))) (fun i => load_segment (ph + sizeof_proghdr * i)) ;;
    m ← gets t_mem;
    mret (Some (rd32 m (elf_at + eh_entry))).

(** ** Reading *)
(** The image: the byte at an offset from sector 1. *)
Definition image (o : Z) : Z := disk (1 + o `div` SECTSIZE) !!! Z.to_nat (o `mod` SECTSIZE).
Context (Hdisk : forall n, length (disk n) = 512%nat /\ Forall (fun b => 0 <= b < 256) (disk n)).

Definition mem_after (s s' : boot_st) (f : Z -> Z) : Prop := (forall a, rd8 (t_mem s') a = f a) /\ length (t_regs s') = length (t_regs s).

Lemma lba_sum n : 0 <= n < 268435456 ->
  u8 n + 256 * u8 (n ≫ 8) + 65536 * u8 (n ≫ 16) + 16777216 * (u8 ((n ≫ 24) ||| 224) &&& 15) = n.
Proof.
  intros Hn. rewrite !Z.shiftr_div_pow2 by lia. change (2 ^ 8) with 256. change (2 ^ 16) with 65536. change (2 ^ 24) with 16777216.
  assert (Hq : 0 <= n `div` 16777216 < 16) by (Z.to_euclidean_division_equations; lia).
  assert (Ha : u8 (n `div` 16777216 ||| 224) &&& 15 = n `div` 16777216).
  { assert (Hall : forallb (fun q => (u8 (q ||| 224) &&& 15) =? q) (seqZ 0 16) = true) by (vm_compute; reflexivity).
    rewrite forallb_forall in Hall. apply Z.eqb_eq, Hall, list_elem_of_In, elem_of_seqZ. lia. }
  rewrite Ha. unfold u8. Z.to_euclidean_division_equations. lia.
Qed.

Lemma readsect_ok dst n s : 0 <= n < 268435456 -> length (t_regs s) = 5%nat ->
  exists s', readsect dst n s = Done tt s' /\ mem_after s s' (fun a => if decide (dst <= a < dst + 512) then disk n !!! Z.to_nat (a - dst) else rd8 (t_mem s) a).
Proof.
  intros Hn Hr. destruct s as [m regs sec st]. cbn [t_regs] in Hr. destruct regs as [|r0 [|r1 [|r2 [|r3 [|r4 [|]]]]]]; try discriminate.
  eexists. split; [reflexivity|]. split; [|reflexivity]. intros a. cbn [t_mem t_sector t_regs].
  match goal with |- context [lba ?x] => replace (lba x) with n by (symmetry; exact (lba_sum n Hn)) end.
  rewrite rd8_store_bytes. destruct (Hdisk n) as [Hlen Hb]. rewrite Hlen. change (Z.of_nat 512) with 512. split_decide as [Ha|Ha]; [|done].
  rewrite u8_small; [done|]. rewrite Forall_forall in Hb. apply Hb, list_elem_of_lookup_2 with (Z.to_nat (a - dst)). apply list_lookup_lookup_total_lt. lia.
Qed.

(** [readseg] from an aligned start: the bytes of the image, whole sectors of them. *)
Lemma readseg_loop epa n : forall pa k s fuel, (Z.to_nat ((epa - pa) `div` 512 + 1) < fuel)%nat -> 1 <= k -> k + Z.of_nat n < 268435456 -> length (t_regs s) = 5%nat ->
  epa - pa <= 512 * Z.of_nat n -> 512 * Z.of_nat n < epa - pa + 512 \/ n = O ->
  exists s', loop fuel (readseg_body epa) (pa, k) s = Done tt s' /\
    mem_after s s' (fun a => if decide (pa <= a < pa + 512 * Z.of_nat n) then image (512 * (k - 1) + (a - pa)) else rd8 (t_mem s) a).
Proof.
  induction n as [|n IH]; intros pa k s fuel Hf Hk Hkn Hr He Hn; (destruct fuel as [|fuel]; [lia|]); cbn [loop];
    change (readseg_body epa (pa, k)) with (if negb (pa <? epa) then mret (inr tt) else readsect pa k ;; mret (inl (pa + SECTSIZE, u32 (k + 1))) : M boot_st (Z * Z + unit)).
  - rewrite (proj2 (Z.ltb_ge pa epa)) by lia. cbn [negb]. exists s. split; [done|]. split; [|done]. intros a. by rewrite decide_False by lia.
  - rewrite (proj2 (Z.ltb_lt pa epa)) by lia. cbn [negb]. destruct (readsect_ok pa k s ltac:(lia) Hr) as (s1 & E1 & Hm1 & Hr1).
    rewrite (bind_Done _ _ s (inl (pa + SECTSIZE, u32 (k + 1))) s1) by (by rewrite (bind_Done _ _ _ _ _ E1)).
    unfold SECTSIZE. rewrite (u32_small (k + 1)) by lia.
    destruct (IH (pa + 512) (k + 1) s1 fuel) as (s2 & E2 & Hm2 & Hr2); [|lia|lia|congruence|lia|lia|].
    { replace (epa - (pa + 512)) with (epa - pa + (-1) * 512) by lia. rewrite Z.div_add by lia.
      pose proof (Z.div_pos (epa - pa) 512 ltac:(lia) ltac:(lia)). lia. }
    exists s2. split; [exact E2|]. split; [|congruence]. intros a. rewrite Hm2, Hm1. unfold image, SECTSIZE.
    split_decide as [H1|H1].
    + rewrite decide_True by lia. by replace (512 * (k + 1 - 1) + (a - (pa + 512))) with (512 * (k - 1) + (a - pa)) by lia.
    + split_decide as [H2|H2]; [rewrite decide_True by lia|by rewrite decide_False by lia].
      replace (512 * (k - 1) + (a - pa)) with (a - pa + (k - 1) * 512) by lia. rewrite Z.div_add, Z.mod_add by lia.
      rewrite Z.div_small, Z.mod_small by lia. by replace (1 + (0 + (k - 1))) with k by lia.
Qed.

(** What a read of [count] bytes touches. *)
Definition seg_start (pa offset : Z) : Z := pa - offset `mod` 512.
Definition seg_sectors (pa count offset : Z) : Z := (count + offset `mod` 512 + 511) `div` 512.
Lemma readseg_ok pa count offset s : 0 <= count < 4294967296 -> 0 <= offset -> offset + count < 100000000 * 512 -> length (t_regs s) = 5%nat ->
  exists s', readseg pa count offset s = Done tt s' /\
    mem_after s s' (fun a => if decide (seg_start pa offset <= a < seg_start pa offset + 512 * seg_sectors pa count offset) then image (offset + (a - pa)) else rd8 (t_mem s) a).
Proof.
  intros Hc Ho Hs Hr. unfold readseg, SECTSIZE, seg_start, seg_sectors. set (r := offset `mod` 512). set (N := (count + r + 511) `div` 512).
  assert (Hr5 : 0 <= r < 512) by (unfold r; Z.to_euclidean_division_equations; lia).
  assert (Hq : offset = 512 * (offset `div` 512) + r) by (unfold r; apply Z.div_mod; lia). set (q := offset `div` 512) in *.
  assert (HN : 0 <= N /\ 512 * N < count + r + 512 /\ count + r <= 512 * N) by (unfold N; Z.to_euclidean_division_equations; lia).
  rewrite u32_small by lia.
  destruct (readseg_loop (pa + count) (Z.to_nat N) (pa - r) (q + 1) s (S (Z.to_nat ((pa + count - (pa - r)) `div` 512 + 1)))) as (s' & E & Hm & Hr'); [lia|lia|lia|done|lia|lia|].
  exists s'. split; [exact E|]. split; [|done]. intros a. rewrite Hm. rewrite Z2Nat.id by lia.
  split_decide as [H1|H1]; [|done]. f_equal. lia.
Qed.

(** ** The kernel *)
(** A word of the image, and its program headers. *)
Definition image32 (o : Z) : Z := u8 (image o) + u8 (image (o + 1)) * 256 + u8 (image (o + 2)) * 65536 + u8 (image (o + 3)) * 16777216.
Definition phnum : Z := image eh_phnum + 256 * image (eh_phnum + 1).
Definition phdr (k : Z) : Z := image32 eh_phoff + sizeof_proghdr * k.
Definition g_pa (k : Z) : Z := image32 (phdr k + ph_paddr).
Definition g_off (k : Z) : Z := image32 (phdr k + ph_off).
Definition g_filesz (k : Z) : Z := image32 (phdr k + ph_filesz).
Definition g_memsz (k : Z) : Z := image32 (phdr k + ph_memsz).
(** The headers are in the first page; the segments, with the whole first sector of each, are above the
    scratch page and in increasing order. *)
Record kernel_ok : Prop := KernelOk {
  ko_headers : image32 eh_phoff + sizeof_proghdr * phnum <= 4096;
  ko_above : forall k, 0 <= k < phnum -> elf_at + 4096 <= seg_start (g_pa k) (g_off k);
  ko_order : forall i k, 0 <= i < k -> k < phnum -> g_pa i + Z.max (g_filesz i) (g_memsz i) <= seg_start (g_pa k) (g_off k) }.
Definition loaded (k : Z) (m : mem) : Prop :=
  (forall i, 0 <= i < g_filesz k -> rd8 m (g_pa k + i) = image (g_off k + i)) /\
  (forall i, g_filesz k <= i < g_memsz k -> rd8 m (g_pa k + i) = 0).
Definition header_in (m : mem) : Prop := forall a, elf_at <= a < elf_at + 4096 -> rd8 m a = image (a - elf_at).

Lemma image32_range o : 0 <= image32 o < 4294967296.
Proof. unfold image32. pose proof (u8_range (image o)). pose proof (u8_range (image (o + 1))). pose proof (u8_range (image (o + 2))). pose proof (u8_range (image (o + 3))). lia. Qed.
Lemma header32 m o : header_in m -> 0 <= o -> o + 4 <= 4096 -> rd32 m (elf_at + o) = image32 o.
Proof.
  intros Hh H0 H4. unfold rd32, image32. rewrite !Hh by lia.
  replace (elf_at + o - elf_at) with o by lia. replace (elf_at + o + 1 - elf_at) with (o + 1) by lia.
  replace (elf_at + o + 2 - elf_at) with (o + 2) by lia. by replace (elf_at + o + 3 - elf_at) with (o + 3) by lia.
Qed.
(** Changes from an address on leave what is below. *)
Lemma loaded_frame k b m m' : (forall a, a < b -> rd8 m' a = rd8 m a) -> g_pa k + Z.max (g_filesz k) (g_memsz k) <= b -> loaded k m -> loaded k m'.
Proof. intros Hm Hb [H1 H2]. split; intros i Hi; rewrite Hm by lia; auto. Qed.
Lemma header_frame b m m' : (forall a, a < b -> rd8 m' a = rd8 m a) -> elf_at + 4096 <= b -> header_in m -> header_in m'.
Proof. intros Hm Hb Hh a Ha. rewrite Hm by lia. auto. Qed.

Lemma load_segment_ok (Hk : kernel_ok) k s : 0 <= k < phnum -> header_in (t_mem s) -> length (t_regs s) = 5%nat ->
  exists s', load_segment (elf_at + phdr k) s = Done tt s' /\ length (t_regs s') = 5%nat /\ loaded k (t_mem s') /\
    forall a, a < seg_start (g_pa k) (g_off k) -> rd8 (t_mem s') a = rd8 (t_mem s) a.
Proof.
  intros Hkr Hh Hr. pose proof (ko_headers Hk) as Hhd. pose proof (ko_above Hk k Hkr) as Hab. pose proof (image32_range eh_phoff) as Hpo.
  assert (Hfield : forall m o, header_in m -> 0 <= o <= 28 -> rd32 m (elf_at + phdr k + o) = image32 (phdr k + o)).
  { intros m o Hm Ho. rewrite <- Z.add_assoc. unfold phdr, sizeof_proghdr in *. apply header32; [done|lia|lia]. }
  unfold load_segment. rewrite (bind_Done (gets t_mem) _ s _ s eq_refl).
  rewrite !Hfield by (done || (unfold ph_paddr, ph_filesz, ph_off; lia)). fold (g_pa k) (g_filesz k) (g_off k).
  pose proof (image32_range (phdr k + ph_filesz)) as Hf. fold (g_filesz k) in Hf. pose proof (image32_range (phdr k + ph_off)) as Ho. fold (g_off k) in Ho.
  destruct (readseg_ok (g_pa k) (g_filesz k) (g_off k) s ltac:(lia) ltac:(lia) ltac:(lia) Hr) as (s1 & E1 & Hm1 & Hr1). rewrite (bind_Done _ _ _ _ _ E1).
  assert (Hlow : forall a, a < seg_start (g_pa k) (g_off k) -> rd8 (t_mem s1) a = rd8 (t_mem s) a) by (intros a Ha; rewrite Hm1; by rewrite decide_False by lia).
  pose proof (header_frame _ _ _ Hlow Hab Hh) as Hh1. rewrite (bind_Done (gets t_mem) _ s1 _ s1 eq_refl).
  rewrite !Hfield by (done || (unfold ph_memsz, ph_filesz; lia)). fold (g_memsz k) (g_filesz k).
  assert (Hfile : forall i, 0 <= i < g_filesz k -> rd8 (t_mem s1) (g_pa k + i) = image (g_off k + i)).
  { intros i Hi. rewrite Hm1, decide_True; [f_equal; lia|]. unfold seg_start, seg_sectors. Z.to_euclidean_division_equations. lia. }
  assert (Hst : seg_start (g_pa k) (g_off k) <= g_pa k) by (unfold seg_start; Z.to_euclidean_division_equations; lia).
  destruct (Z.gtb_spec (g_memsz k) (g_filesz k)) as [Hgt|Hle]; cbn [when].
  - eexists. split; [reflexivity|]. cbn [t_mem t_regs]. split; [congruence|]. split; [split; intros i Hi|intros a Ha]; rewrite rd8_stosb.
    + rewrite decide_False by lia. by apply Hfile.
    + by rewrite decide_True by lia.
    + rewrite decide_False by lia. by apply Hlow.
  - exists s1. split; [done|]. split; [congruence|]. split; [split; [done|intros i Hi; lia]|done].
Qed.

Lemma segments_ok (Hk : kernel_ok) s : header_in (t_mem s) -> length (t_regs s) = 5%nat ->
  wp (for_each (seqZ 0 phnum) (fun i => load_segment (elf_at + image32 eh_phoff + sizeof_proghdr * i)))
    (fun _ s' => header_in (t_mem s') /\ forall k, 0 <= k < phnum -> loaded k (t_mem s')) s.
Proof.
  intros Hh Hr. eapply wp_mono; [apply (wp_for_each _ _ (fun n s' => header_in (t_mem s') /\ length (t_regs s') = 5%nat /\ forall k, 0 <= k < Z.of_nat n -> loaded k (t_mem s')))|].
  - split_and!; [done|done|lia].
  - intros n x s1 Hx (Hh1 & Hr1 & Hl1). apply lookup_seqZ in Hx as [-> Hn]. rewrite Z.add_0_l. replace (elf_at + image32 eh_phoff + sizeof_proghdr * Z.of_nat n) with (elf_at + phdr (Z.of_nat n)) by (unfold phdr; lia).
    destruct (load_segment_ok Hk (Z.of_nat n) s1 ltac:(lia) Hh1 Hr1) as (s2 & E2 & Hr2 & Hl2 & Hlow). eapply wp_Done; [exact E2|]. split_and!; [|done|].
    + eapply header_frame; [exact Hlow|apply (ko_above Hk); lia|done].
    + intros k Hkn. destruct (decide (k = Z.of_nat n)) as [->|Hne]; [done|]. eapply loaded_frame; [exact Hlow|apply (ko_order Hk); lia|apply Hl1; lia].
  - intros _ s' (Hh' & _ & Hl'). split; [done|]. intros k Hkr. apply Hl'. rewrite length_seqZ. lia.
Qed.

Lemma boot_header s : length (t_regs s) = 5%nat -> exists s', readseg elf_at 4096 0 s = Done tt s' /\ header_in (t_mem s') /\ length (t_regs s') = 5%nat.
Proof.
  intros Hr. destruct (readseg_ok elf_at 4096 0 s ltac:(lia) ltac:(lia) ltac:(lia) Hr) as (s' & E & Hm & Hr'). exists s'. split; [exact E|]. split; [|congruence].
  intros a Ha. rewrite Hm. change (seg_start elf_at 0) with elf_at. change (512 * seg_sectors elf_at 4096 0) with 4096. rewrite decide_True by lia. f_equal.
Qed.
Lemma bootmain_run s : length (t_regs s) = 5%nat ->
  if image32 0 =? ELF_MAGIC then kernel_ok -> exists s', bootmain s = Done (Some (image32 eh_entry)) s' /\ forall k, 0 <= k < phnum -> loaded k (t_mem s')
  else exists s', bootmain s = Done None s'.
Proof.
  intros Hr. destruct (boot_header s Hr) as (s1 & E1 & Hh & Hr1). unfold bootmain. rewrite (bind_Done _ _ _ _ _ E1), (bind_Done (gets t_mem) _ s1 _ s1 eq_refl).
  replace (rd32 (t_mem s1) elf_at) with (image32 0) by (symmetry; exact (header32 (t_mem s1) 0 Hh ltac:(lia) ltac:(lia))). destruct (image32 0 =? ELF_MAGIC) eqn:Em; cbn [negb]; [|by exists s1].
  intros Hk. rewrite (header32 _ eh_phoff) by (done || (unfold eh_phoff; lia)). rewrite !Hh by (unfold elf_at, eh_phnum; lia).
  change (elf_at + eh_phnum - elf_at) with eh_phnum. change (elf_at + eh_phnum + 1 - elf_at) with (eh_phnum + 1). fold phnum.
  destruct (wp_inv _ _ _ (segments_ok Hk s1 Hh Hr1)) as ([] & s2 & E2 & Hh2 & Hl2). cbv zeta. rewrite (bind_Done _ _ _ _ _ E2), (bind_Done (gets t_mem) _ s2 _ s2 eq_refl).
  rewrite (header32 _ eh_entry) by (done || (unfold eh_entry; lia)). by exists s2.
Qed.
End boot.

(** (C40) What the boot loader does, for every disk: when the first word of the image is not the
    magic number it returns, to the error of the boot sector.  Otherwise, if the headers are
    in the first page and the segments, in increasing order, lie above it and apart - the whole first
    sector of each from the end of those before - it jumps to the entry point with every
    segment in place: its bytes of the image at its physical address, and zeroes from there to
    its size in memory, though the reads of whole sectors have written around all of them. *)
Theorem bootmain_loads_kernel disk s : (forall n, length (disk n) = 512%nat /\ Forall (fun b => 0 <= b < 256) (disk n)) -> length (t_regs s) = 5%nat ->
  if image32 disk 0 =? ELF_MAGIC then
    kernel_ok disk -> exists s', bootmain disk s = Done (Some (image32 disk eh_entry)) s' /\ forall k, 0 <= k < phnum disk -> loaded disk k (t_mem s')
  else exists s', bootmain disk s = Done None s'.
Proof. intros Hd Hr. by apply bootmain_run. Qed.

(** An image of two segments: 600 bytes at 1 MB with 100 of zeroes after them, and 40 bytes further up
    that begin inside a sector. *)
Definition le32 (v : Z) : list Z := [u8 v; u8 (v ≫ 8); u8 (v ≫ 16); u8 (v ≫ 24)].
Definition ex_header : list Z :=
  le32 ELF_MAGIC ++ replicate 20 0 ++ le32 1048588 ++ le32 52 ++ replicate 12 0 ++ [2; 0] ++ replicate 6 0 ++
  le32 1 ++ le32 4096 ++ le32 1048576 ++ le32 1048576 ++ le32 600 ++ le32 700 ++ le32 5 ++ le32 4096 ++
  le32 1 ++ le32 8292 ++ le32 1052772 ++ le32 1052772 ++ le32 40 ++ le32 40 ++ le32 6 ++ le32 4096.
Definition ex_byte (o : Z) : Z := default (o `mod` 251) (ex_header !! Z.to_nat o).
Definition ex_boot_disk (n : Z) : list Z := (fun i => ex_byte (512 * (n - 1) + i)) <$> seqZ 0 512.
Definition ex_start : boot_st := BootSt ∅ [0; 0; 0; 0; 0] 0 [128; 64; 0].

Lemma ex_boot_disk_ok n : length (ex_boot_disk n) = 512%nat /\ Forall (fun b => 0 <= b < 256) (ex_boot_disk n).
Proof.
  unfold ex_boot_disk. split; [by rewrite length_fmap, length_seqZ|]. apply Forall_fmap, Forall_true. intros i. cbn. unfold ex_byte.
  destruct (ex_header !! _) as [b|] eqn:E; cbn -[Z.modulo].
  2: { pose proof (Z.mod_pos_bound (512 * (n - 1) + i) 251). lia. }
  assert (Hb : forallb (fun b => (0 <=? b) && (b <? 256)) ex_header = true) by (vm_compute; reflexivity).
  rewrite forallb_forall in Hb. specialize (Hb b).
  assert (Hin : In b ex_header) by (apply list_elem_of_In; by eapply list_elem_of_lookup_2). apply Hb in Hin. lia.
Qed.
Lemma ex_kernel_ok : kernel_ok ex_boot_disk.
Proof.
  assert (Hn : phnum ex_boot_disk = 2) by (vm_compute; reflexivity).
  split; rewrite ?Hn.
  - vm_compute. discriminate.
  - intros k Hk. assert (k = 0 \/ k = 1) as [->| ->] by lia; vm_compute; discriminate.
  - intros i k Hi Hk. assert (i = 0 /\ k = 1) as [-> ->] by lia. vm_compute. discriminate.
Qed.

Example bootmain_loads_kernel_witness :
  exists s', bootmain ex_boot_disk ex_start = Done (Some 1048588) s' /\ forall k, 0 <= k < 2 -> loaded ex_boot_disk k (t_mem s').
Proof. exact (bootmain_loads_kernel ex_boot_disk ex_start ex_boot_disk_ok eq_refl ex_kernel_ok). Defined.
